(* ===== verification/_CoqProject ===== *)
-Q . S2P
Prelude.v
GoStrings.v
Protocol.v
Credit.v
Coordinator.v
CoordinatorInv.v
CoordinatorSpec.v
CoordinatorSteps.v
CoordinatorRuns.v
CoordinatorProps.v
RateLimiter.v
Traffic.v
GoIO.v
UDPFrames.v
Framing.v
Streams.v
GoNet.v
GoCIDR.v
Socks5.v
Socks5Target.v
TunnelState.v
IngressPolicy.v
Registry.v
Events.v
Records.v
HTTPDomains.v
TunnelSpec.v
TunnelStore.v
TunnelStoreInv.v
TunnelStoreRuns.v
TunnelSamples.v
TunnelRouting.v
TunnelStoreProps.v
Goroutines.v
Progress.v
UDPSessions.v
UDPSamples.v
UDPCounts.v
UDPCleanup.v
UDPDelivery.v
GoTime.v
GoUTF8.v
Activity.v
AdminDB.v
Users.v
UsersInv.v
UsersProps.v
UserDeletion.v
Credentials.v
CredentialsInv.v
CredentialsProps.v
Lifecycle.v
LifecycleSpec.v
LifecycleRules.v
LifecycleFrames.v
LifecycleLocks.v
LifecycleInv.v
LifecycleRuns.v
LifecycleProps.v
WebhookModel.v
WebhookQueue.v
WebhookRuns.v
WebhookChanges.v
WebhookInv.v
WebhookLog.v
WebhookSystem.v
WebhookLoop.v
WebhookDrain.v
WebhookProps.v
WebhookSample.v
