(* ===== verification/Prelude.v ===== *)
(** * A verification of NetsGo's core

    NetsGo is a tunnel server and client.  Clients keep a websocket to the
    server; the server exposes TCP, UDP, HTTP and SOCKS5 tunnels over data
    channels, lets two clients exchange traffic directly (peer to peer) or
    through itself, bills the traffic, and shows the state of everything to
    browsers.  This library models the parts that carry the program's own
    logic.  It is a shallow embedding: a Go function is a function on explicit
    state, an [error] is a value of [result], a panic is [None] or a value of
    its own type, and names are those of the source.

    ** Files and what they model

    - [Prelude] (this file): errors, [uint64] arithmetic, map iteration,
      sorting, notation scope [netsgo_scope], hints and tactics.
    - [GoStrings], [GoIO], [GoNet], [GoCIDR], [GoTime], [GoUTF8]: the part of
      Go's [strings], [io], [net], [time] and [utf8] the program uses.  [GoIO]
      holds the interfaces: the classes [Reader] and [Writer], and the contract
      [delivers]; [GoCIDR] parses and matches networks; [GoTime] has the text
      form of times, which the database compares.
    - [Protocol] (pkg/protocol): payload records, constants and the validators
      of stream headers and peer-to-peer messages.
    - [Credit] (internal/client/p2p_credit.go, shared_credit_scheduler.go):
      the bandwidth credit the two ends of a peer-direct tunnel share.
    - [Coordinator] and its companions
      (internal/server/p2p_coordinator.go, p2p_lifecycle.go): sessions between
      pairs of clients, their tunnel grants, leases, signalling, statistics
      and credit authorisation.  [Coordinator] has the operations,
      [CoordinatorInv] the representation invariant and the abstraction of the
      heap and its two indices to one map, [CoordinatorSpec] and
      [CoordinatorSteps] what each operation does to that map,
      [CoordinatorRuns] runs of any operations, [CoordinatorProps] the
      properties.
    - [RateLimiter] (internal/server/rate_limiter.go).
    - [Traffic] (internal/server/traffic_accumulator.go): byte counts between
      the tunnels and the database.
    - [UDPFrames] (pkg/mux/udp_frame.go), [Framing]
      (pkg/protocol/data_channel.go, stream_header.go): what crosses a data
      stream.
    - [Streams] (pkg/mux/wsconn.go, pkg/p2p/datachannel_stream.go): byte
      streams over message transports.
    - [Socks5] (internal/socks5wire/wire.go) and [Socks5Target]
      (internal/client/socks5.go): the SOCKS5 protocol and the policy of a
      SOCKS5 target.
    - [TunnelState] (internal/server/tunnel_state.go): states, capabilities
      and the redacted view of a tunnel.
    - [Registry] (internal/server/tunnel_registry.go): who waits for a
      provision acknowledgement or preflight response.
    - [Events] (internal/server/events.go): the event bus and browser streams.
    - [Records]: records with many fields.  [HTTPDomains]
      (internal/server/http_domain.go, http_tunnel.go): domain names of HTTP
      tunnels, their overlap and the routing of a request's host.
    - [TunnelSpec] (internal/server/store.go): a stored tunnel, its validation
      and its normal form.
    - [TunnelStore] and its companions (internal/server/store.go,
      http_domain_store.go): the table of tunnels.  [TunnelStore] has the
      statements and the transactions, [TunnelStoreInv] the invariant of the
      table, [TunnelStoreRuns] what each operation does on every branch,
      [TunnelSamples] concrete arguments and tables, [TunnelRouting] the
      composition with [HTTPDomains], [TunnelStoreProps] the properties.
    - [IngressPolicy] (internal/server/ingress_access_policy.go): which source
      addresses may use a tunnel.
    - [Goroutines], [Progress]: goroutines as programs of atomic operations
      that a scheduler picks, disciplines that carry an invariant through every
      schedule, and criteria for the absence of deadlocks and of infinite runs.
    - [UDPSessions] and its companions (internal/server/udp_proxy.go): the
      reader, the reaper, the sessions and the closing of a UDP proxy.
      [UDPSessions] has the programs, [UDPSamples] schedules, [UDPCounts],
      [UDPCleanup] and [UDPDelivery] the properties.
    - [Activity] (internal/server/activity_store.go, activity_producers.go):
      the events of the activity log and their summaries.
    - [AdminDB], [Users], [Credentials] and their companions
      (internal/server/user_store.go, user_policy.go, admin_store.go,
      admin_activity_store.go, client_owner_resolver.go): the tables of
      accounts, sessions, API keys, registered clients and client tokens, with
      every operation on them.  [UsersInv] and [CredentialsInv] have the
      invariants, [UsersProps], [UserDeletion] and [CredentialsProps] the
      properties.
    - [Lifecycle] and its companions (internal/server/user_lifecycle_gate.go,
      user_api.go, resource_scope.go, session.go, control_auth.go, data.go,
      unified_tunnel_reconcile.go): client sessions, publications of runtime
      state, and the disabling, enabling and deleting of users, all meeting at
      the lifecycle gate of a user.  [Lifecycle] has the programs,
      [LifecycleSpec] the abstract server, [LifecycleRules] what each program
      may do and that it does no more, [LifecycleFrames] what the database
      operations change, [LifecycleLocks] and [LifecycleInv] the invariant,
      [LifecycleRuns] every run, [LifecycleProps] the properties.
    - [WebhookModel], [WebhookQueue], [WebhookRuns] and their companions
      (internal/server/webhook_*.go): webhooks.  [WebhookModel] has their
      configuration, its validation, the rendering of a request and the
      addresses that may be called; [WebhookQueue] the tables and every
      transaction on them; [WebhookRuns] the system: the dispatcher's loop, the
      requests under way, the API and everyone else who touches the tables.
      [WebhookChanges] breaks the transactions down to nine kinds of change,
      [WebhookInv], [WebhookLog] and [WebhookLoop] show what a change keeps,
      [WebhookSystem] carries that through a run, [WebhookDrain] counts what
      is left to do, [WebhookProps] has the properties, [WebhookSample] runs
      they apply to.

    ** How the parts meet

    A data stream opens with the header of [Framing], which [Protocol]
    validates; then it carries raw bytes, UDP frames ([UDPFrames]) or a SOCKS5
    dial result ([Socks5]).  The stream itself is one of the adapters of
    [Streams].  All theorems on framed streams have the hypothesis
    [delivers e r bs] (the reader hands out [bs] in segments of any sizes,
    then fails with [e]), and [Streams] discharges it for both adapters.
    The messages [Credit] exchanges are those [Coordinator] authorises in
    between, and both use the validators of [Protocol]: what the demand side
    sends is within what the coordinator and the owner accept.

    A tunnel is validated by [TunnelSpec], kept by [TunnelStore], and found by
    the host of a request through [HTTPDomains]: the invariant of the table is
    what makes a host belong to at most one tunnel.  [TunnelState] validates
    the states the table holds, and the session state of [Coordinator] is
    projected onto the table by [TunnelStore.ApplyP2PLifecycle].

    The UDP reader of [UDPSessions] admits sources by [IngressPolicy] and frames
    datagrams with [UDPFrames].  The operations of [Users] and [Credentials]
    append to the activity log through the interface [AdminDB.ActivityLog],
    which says what an append may touch.  The goroutines of [Lifecycle] run
    those very operations as their atomic steps: who may act is decided by
    [Users.IsUserOperational], and a client is authenticated by
    [Credentials.ValidateClientToken] and
    [Credentials.RegisterClientAndExchangeToken].

    An activity event of a user ([Activity]) is put into the queue of
    [WebhookQueue] in the transaction that records it; the disabling and the
    deletion of a user reach the queue as changes of its rows
    ([WebhookRuns.delete_user]), which any of its steps may find.  The addresses
    of [WebhookModel] are those of [GoNet] and [GoCIDR].

    ** What the theorems show

    - [Credit]: the owner's grants are always accepted by the account, in any
      interleaving; the split of a token block is fair and conserves it; an
      account never spends more than it was granted, nor is granted more than
      it asked for, with any number of waiting goroutines; and what was
      granted lets them drain.
    - [Protocol]: a stream header is accepted exactly when it meets the
      declarative specification of its kind.
    - [CoordinatorProps]: one invariant over every run of all operations; each
      byte of a grant is billed once, also after its session closed; signals
      are relayed in increasing order, only between the two participants;
      credit stays within demand; the functional behaviour of renewing,
      closing, revoking, preparing and granting; the candidate rate.
    - [RateLimiter]: the sliding window bound over every run, lockouts hold,
      cleaning up is not observable, the snapshot agrees with [Allow].
    - [Traffic]: whatever is recorded is drained, still pending, or was
      discarded by a reset or an eviction; nothing discarded comes back;
      merging; completeness of a drain.
    - [UDPFrames], [Framing], [Streams], [Socks5]: round trips, soundness of
      decoders on arbitrary input, termination on every stream, and the
      streams as refinements of one byte sequence.
    - [Socks5Target]: connections are only attempted inside the policy, at
      addresses of one resolution.
    - [TunnelState]: the view is the projection of a valid state with the
      operations of the capability table, and does not depend on credentials.
    - [HTTPDomains], [TunnelRouting]: two patterns overlap exactly when a host
      matches both, and with the invariant of the table a request goes to the
      one tunnel whose pattern it matches.
    - [TunnelStoreProps]: the invariant of the table over every run of all
      operations (identifiers unique, names unique for an owner, ingress
      resources disjoint, rows valid and in normal form); a stale revision is
      refused and changes nothing, an accepted one advances the revision; what
      is added reads back; the preflight agrees with the addition; the
      projection of peer-to-peer states touches only its tunnel; the errors of
      a migration.
    - [IngressPolicy]: a policy is accepted exactly when its networks are, and
      admits exactly the addresses in one of them.
    - [UDPCounts], [UDPCleanup], [UDPDelivery]: in every schedule the sessions of
      a proxy are counted and bounded, a closed proxy leaves nothing behind (but
      for the sessions that findings describe), and every datagram that is
      delivered was received from, or for, the address it is delivered to.
    - [UsersProps], [UserDeletion]: the invariant of the accounts over every run
      (an active administrator remains, sessions belong to active users); the
      outcome of disabling a user on every branch; which rows the deletion of a
      user takes, and that its preview counts them.
    - [CredentialsProps]: the invariant of keys and tokens over every run; which
      token is accepted; what a registration gives.
    - [LifecycleProps]: in every schedule of any requests the events of the
      server are a history of the abstract server of [LifecycleSpec]; a user
      who was answered to be disabled stays without clients and publications
      until enabled; publications exclude each other and the change of their
      owner's status, and are current when they begin; and every run ends with
      every request answered and every lock given back.
    - [WebhookProps]: in every run, with crashes and a failing database, the
      attempts at a delivery are numbered, bounded and in order, and agree with
      its status; requests for a user keep their distance; a webhook that is
      disabled is not called for an event; the queue drains; and an activity
      event is turned into exactly the deliveries it should be.  [WebhookSample]
      ends with inputs on which the code does not do what it means to.
    - [Registry], [Events]: under any interleaving no channel is closed twice
      or sent on after it was closed and no sender blocks; responses and events
      reach those, and only those, they are meant for.

    A theorem with hypotheses has a lemma named after it with the suffix
    [_witness] that applies it to a concrete input, mostly in the same file.

    ** Modelling decisions

    - Concurrency.  A critical section is one step.  Where a function works
      outside its lock, its parts are separate steps and the theorems quantify
      over all interleavings: [Credit.Reserve_begin] and [Reserve_wake],
      the send and the close after [Registry.resolve_take], the close of
      [Events.Unsubscribe] and each send of a publication.  [UDPSessions] and
      [Lifecycle] go further: a goroutine is a program of [Goroutines], its
      atomic operations (the steps of locks, of [sync.Map], of one database
      transaction) are interleaved freely, and a lock that is held makes the
      others wait.  [sync.RWMutex] is modelled with its waiting writer, which
      keeps new readers out.  In [WebhookRuns] a transaction is an action, and
      so is each statement outside one; between any two of them anything may
      happen, what a handler read before its transaction may be out of date,
      and a process may die, which loses the loop's place and the requests
      under way but no row.
    - Shared mutable objects are locations in a heap ([Coordinator.heap],
      the channels of [Registry] and [Events]), so an update through one
      index is seen through the other.
    - The clock is an argument, in nanoseconds, read once per critical section.
    - Go ranges over a map in any order: [range_order] is an arbitrary oracle,
      and no result is stated for one order only.
    - [uint64] values are [Z] with the wrap-around written out
      ([u64_add], [u64_sub], [u64_succ]).
    - Random identifiers, name resolution, dialling and password verification
      are arguments, and so are bcrypt, SHA-256 and the digest of keys.  The
      library functions of [encoding/json] and the Unicode tables of [strings.ToLower] are
      arguments too, as are SQLite's [LIKE], [url.ParseRequestURI],
      [net.LookupIP] and the parsing of dates; where a theorem relies on them, the
      law is a named hypothesis or a record ([Framing.header_json_laws],
      [TunnelSpec.store_json_laws]), and the witness gives a concrete instance.
      [net.ParseIP] and [net.SplitHostPort] are translated in [GoNet] and
      [net.ParseCIDR] in [GoCIDR] (the SOCKS5 target takes it as an argument).  gorilla/websocket and pion are classes with
      laws in [Streams].
    - Fuel.  [GoIO.ReadFull] takes fuel for its reads; each theorem asks for
      more fuel than there are bytes left in the stream and shows that the
      call then ends.  The same holds for the loop over websocket messages
      (more than the messages queued) and the UDP relay (more rounds than
      datagrams).  The loop over the owners found due ([WebhookDrain.claim_all])
      has fuel for as many as the query returns at most.  [write_loop] recurs on the length of its payload, of which
      every successful write consumes at least one byte.

    ** What is not modelled

    The HTTP handlers but for those of [Lifecycle], the other SQL stores
    (traffic, the reading of activity, two-factor data), listeners and dialling, the
    goroutines that copy between sockets, WebRTC negotiation, the installer
    and updater, and the front ends: they are I/O around the parts above.  Of
    the stores, a table is a finite map of rows with the constraints of the
    schema, a transaction is one step, and an error of the database is an error
    of the operation that leaves the rows alone; revisions are assumed not to
    reach the end of [int64].  In [Lifecycle] what a publication publishes is
    its caller's, and the parts of a convergence that concern event streams,
    peer sessions and tunnel runtimes are steps that succeed or fail: what they
    do to the locks is not covered by the theorem that requests return.  Of
    the webhooks, sending a request is an answer that may be anything and may
    come late or never, and the pages of a webhook's history, its previews and
    the handlers over the store are left out.  The
    registry of browser streams, the loop of the reconciler, transport
    selection on the client, the bandwidth limiter and the retry queue of the
    peer-to-peer projection are not modelled. *)
From Stdlib Require Import ZArith Lia Ascii String Strings.Byte.
From stdpp Require Import base tactics numbers list gmap strings sorting relations.

(** ** Notation scope of the development *)
Declare Scope netsgo_scope.
Delimit Scope netsgo_scope with netsgo.
Open Scope Z_scope.

(** Go's [==] and [<] on strings (byte order). *)
Notation "s =?s t" := (String.eqb s t) (at level 70) : netsgo_scope.
Notation "s <?s t" := (String.ltb s t) (at level 70) : netsgo_scope.
Open Scope netsgo_scope.

(** ** Errors and fallible code *)

(** An argument of [fmt.Errorf]. *)
Inductive fmtarg :=
| AStr (s : string)
| AInt (z : Z).

(** A Go [error] value: the format string of [fmt.Errorf] with its arguments,
    an error wrapped with [%w], or a package level sentinel such as [io.EOF]. *)
Inductive goerror :=
| Errorf (format : string) (args : list fmtarg)
| Wrapf (format : string) (inner : goerror)
| Sentinel (name : string).

#[export] Instance fmtarg_eq_dec : EqDecision fmtarg.
Proof. intros x y. unfold Decision. decide equality; apply (decide _). Defined.
#[export] Instance goerror_eq_dec : EqDecision goerror.
Proof. intros x y. unfold Decision. decide equality; apply (decide _). Defined.

(** The pair [(value, error)] of a Go function that fails. *)
Inductive result (A : Type) :=
| Ok (a : A)
| Err (e : goerror).
Arguments Ok {A} a.
Arguments Err {A} e.

#[export] Instance result_ret : MRet result := λ A a, Ok a.
#[export] Instance result_bind : MBind result :=
  λ A B f r, match r with Ok a => f a | Err e => Err e end.
#[export] Instance result_fmap : FMap result :=
  λ A B f r, match r with Ok a => Ok (f a) | Err e => Err e end.

Definition is_ok {A} (r : result A) : bool :=
  match r with Ok _ => true | Err _ => false end.

Lemma bind_ok {A B} (f : A → result B) r b :
  r ≫= f = Ok b ↔ ∃ a, r = Ok a ∧ f a = Ok b.
Proof.
  destruct r as [a|e]; cbn; split; [by eauto| |done|].
  - by intros (? & [= <-] & ?).
  - by intros (? & ? & ?).
Qed.

Lemma is_ok_exists {A} (r : result A) : is_ok r = true ↔ ∃ a, r = Ok a.
Proof. destruct r; cbn; split; [by eauto|done|done|by intros [? ?]]. Qed.

(** ** Machine integers: uint64 and its operations wrap around *)

Definition u64_modulus : Z := 18446744073709551616.
Definition u64_max : Z := 18446744073709551615.
Definition u64_add (a b : Z) : Z := (a + b) mod u64_modulus.
Definition u64_sub (a b : Z) : Z := (a - b) mod u64_modulus.
Definition u64_succ (a : Z) : Z := u64_add a 1.
Definition is_u64 (a : Z) : Prop := 0 ≤ a < u64_modulus.

#[export] Instance is_u64_dec a : Decision (is_u64 a).
Proof. unfold is_u64. apply _. Defined.

Create HintDb u64.

Lemma u64_add_range a b : is_u64 (u64_add a b).
Proof. by apply Z.mod_pos_bound. Qed.
Lemma u64_sub_range a b : is_u64 (u64_sub a b).
Proof. by apply Z.mod_pos_bound. Qed.
Lemma u64_succ_range a : is_u64 (u64_succ a).
Proof. apply u64_add_range. Qed.
Lemma u64_0 : is_u64 0.
Proof. unfold is_u64, u64_modulus. lia. Qed.
Lemma u64_1 : is_u64 1.
Proof. unfold is_u64, u64_modulus. lia. Qed.

Lemma u64_add_small a b : is_u64 a → is_u64 b → a + b < u64_modulus → u64_add a b = a + b.
Proof. unfold is_u64, u64_add. intros. apply Z.mod_small. lia. Qed.
Lemma u64_sub_small a b : is_u64 a → is_u64 b → b ≤ a → u64_sub a b = a - b.
Proof. unfold is_u64, u64_sub. intros. apply Z.mod_small. lia. Qed.

(** Evaluates, innermost first, the wrapping operations that do not wrap. *)
Ltac u64_bounds := unfold is_u64, u64_modulus, u64_max in *; lia.
Ltac u64_simpl :=
  repeat match goal with
  | |- context [u64_sub ?a ?b] => rewrite (u64_sub_small a b) by u64_bounds
  | |- context [u64_add ?a ?b] => rewrite (u64_add_small a b) by u64_bounds
  end.
Ltac u64_simpl_in H :=
  repeat match type of H with
  | context [u64_sub ?a ?b] => rewrite (u64_sub_small a b) in H by u64_bounds
  | context [u64_add ?a ?b] => rewrite (u64_add_small a b) in H by u64_bounds
  end.

#[export] Hint Resolve u64_add_range u64_sub_range u64_succ_range u64_0 u64_1 : u64.

(** ** Time: nanoseconds since Go's zero time, durations in nanoseconds *)

Definition second : Z := 1000000000.
Definition minute : Z := 60 * second.
Definition is_zero_time (t : Z) : bool := t =? 0.

(** ** Iteration over Go maps: the order is unspecified, so code that ranges
    over a map takes the order as an argument. *)
Record range_order := RangeOrder {
  range : ∀ {A}, gmap string A → list (string * A);
  range_perm : ∀ {A} (m : gmap string A), range m ≡ₚ map_to_list m;
}.

Definition default_order : range_order :=
  RangeOrder (λ A m, map_to_list m) (λ A m, reflexivity _).

Lemma elem_of_range (o : range_order) {A} (m : gmap string A) k x :
  (k, x) ∈ range o m ↔ m !! k = Some x.
Proof. by rewrite range_perm, elem_of_map_to_list. Qed.

Lemma NoDup_range_fst (o : range_order) {A} (m : gmap string A) :
  NoDup (range o m).*1.
Proof. rewrite (range_perm o m). apply NoDup_fst_map_to_list. Qed.

Lemma mjoin_cons {A} (x : list A) (l : list (list A)) : mjoin (x :: l) = x ++ mjoin l.
Proof. done. Qed.

Lemma Forall_filter_keep {A} (P Q : A → Prop) `{∀ x, Decision (Q x)} l :
  Forall P l → Forall P (filter Q l).
Proof. rewrite !Forall_forall. intros H' x [_ Hx]%list_elem_of_filter. auto. Qed.

(** ** Sorting by a string key ([sort.Slice] with [<] on the key) *)

Definition key_le {A} (key : A → string) (x y : A) : Prop := String.le (key x) (key y).
#[export] Instance key_le_dec {A} (key : A → string) x y : Decision (key_le key x y).
Proof. unfold key_le. apply _. Defined.
#[export] Instance key_le_total {A} (key : A → string) : Total (key_le key).
Proof. intros x y. unfold key_le. apply String.le_total. Qed.
#[export] Instance key_le_trans {A} (key : A → string) : Transitive (key_le key).
Proof. intros x y z. unfold key_le. apply transitivity. Qed.

Definition sort_by {A} (key : A → string) (l : list A) : list A := merge_sort (key_le key) l.

Lemma sort_by_perm {A} (key : A → string) l : sort_by key l ≡ₚ l.
Proof. apply merge_sort_Permutation. Qed.

(** When the keys are distinct the sorted list does not depend on the order of
    the input, so an unspecified iteration order cannot be observed. *)
Lemma sort_by_unique {A} (key : A → string) (l1 l2 : list A) :
  (∀ x y, x ∈ l1 → y ∈ l1 → key x = key y → x = y) →
  l1 ≡ₚ l2 → sort_by key l1 = sort_by key l2.
Proof.
  intros Hinj Hp. eapply (Sorted_unique_strong (key_le key)).
  - intros x y Hx Hy H1 H2. rewrite sort_by_perm in Hx.
    rewrite sort_by_perm, <- Hp in Hy. apply Hinj; [done..|]. by apply (anti_symm String.le).
  - apply Sorted_merge_sort, _.
  - apply Sorted_merge_sort, _.
  - by rewrite !sort_by_perm.
Qed.

(** ** Boolean reflection used by every component *)

Lemma eqb_str_true s t : (s =?s t) = true ↔ s = t.
Proof. apply String.eqb_eq. Qed.
Lemma eqb_str_false s t : (s =?s t) = false ↔ s ≠ t.
Proof. apply String.eqb_neq. Qed.
Lemma eqb_str_refl s : (s =?s s) = true.
Proof. apply String.eqb_refl. Qed.

Lemma ltb_irrefl s : (s <?s s) = false.
Proof.
  unfold String.ltb. pose proof (String.compare_antisym s s) as A.
  by destruct (s ?= s)%string.
Qed.

(** [<] is total on distinct strings. *)
Lemma ltb_total s t : s ≠ t → (s <?s t) = false → (t <?s s) = true.
Proof.
  unfold String.ltb. rewrite (String.compare_antisym t s). intros Hne.
  pose proof (String.compare_eq_iff s t). destruct (s ?= t)%string; cbn; [|done..]. naive_solver.
Qed.

Create Rewrite HintDb netsgo.
#[export] Hint Rewrite eqb_str_true eqb_str_false orb_true_iff orb_false_iff andb_true_iff andb_false_iff
  negb_true_iff negb_false_iff Z.eqb_eq Z.eqb_neq Z.ltb_lt Z.ltb_ge Z.leb_le Z.leb_gt
  bool_decide_eq_true bool_decide_eq_false : netsgo.

(** Turns boolean guards in the context into propositions. *)
Ltac reflect_guards :=
  repeat (match goal with
          | H : _ = true |- _ => progress (autorewrite with netsgo in H)
          | H : _ = false |- _ => progress (autorewrite with netsgo in H)
          end).

(** Case analysis on the guard of the outermost conditional of the goal or of
    a hypothesis, keeping the guard's value. *)
Ltac split_if :=
  match goal with
  | |- context [if ?b then _ else _] => let E := fresh "G" in destruct b eqn:E
  | H : context [if ?b then _ else _] |- _ => let E := fresh "G" in destruct b eqn:E
  end.

(** Closes goals that follow from contradictory results. *)
Ltac guard_solve := repeat (split_if; simplify_eq/=; try done).
