(* ===== verification/GoStrings.v ===== *)
(** Go's [strings] functions the program uses, on byte strings.

    A Go string is a sequence of bytes; [String.string] is the same here, one
    [ascii] per byte.  [TrimSpace] strips Unicode white space, so its model
    knows the UTF-8 encodings of the code points of [unicode.IsSpace]. *)
From Stdlib Require Import ZArith Lia Ascii String Strings.Byte.
From stdpp Require Import base tactics numbers list gmap strings.
From S2P Require Import Prelude.

Definition bytes_str (l : list N) : string :=
  String.string_of_list_ascii (map ascii_of_N l).

(** UTF-8 encodings of the code points for which [unicode.IsSpace] holds. *)
Definition unicode_spaces : list string := map bytes_str
  [[9]; [10]; [11]; [12]; [13]; [32]; [0xC2; 0x85]; [0xC2; 0xA0];
   [0xE1; 0x9A; 0x80];
   [0xE2; 0x80; 0x80]; [0xE2; 0x80; 0x81]; [0xE2; 0x80; 0x82];
   [0xE2; 0x80; 0x83]; [0xE2; 0x80; 0x84]; [0xE2; 0x80; 0x85];
   [0xE2; 0x80; 0x86]; [0xE2; 0x80; 0x87]; [0xE2; 0x80; 0x88];
   [0xE2; 0x80; 0x89]; [0xE2; 0x80; 0x8A]; [0xE2; 0x80; 0xA8];
   [0xE2; 0x80; 0xA9]; [0xE2; 0x80; 0xAF]; [0xE2; 0x81; 0x9F];
   [0xE3; 0x80; 0x80]]%N.

(** Go's [len]. *)
Definition strlen (s : string) : Z := Z.of_nat (String.length s).

Definition reverse_string (s : string) : string :=
  String.string_of_list_ascii (rev (String.list_ascii_of_string s)).

Fixpoint strip_prefix (p s : string) : option string :=
  match p, s with
  | EmptyString, _ => Some s
  | String a p', String b s' => if Ascii.eqb a b then strip_prefix p' s' else None
  | String _ _, EmptyString => None
  end.

(** The rest of [s] after one of the encodings [ws], if [s] starts with one. *)
Fixpoint strip_any (ws : list string) (s : string) : option string :=
  match ws with
  | [] => None
  | w :: ws' => match strip_prefix w s with
                | Some r => Some r
                | None => strip_any ws' s
                end
  end.

Fixpoint trim_left (ws : list string) (fuel : nat) (s : string) : string :=
  match fuel with
  | O => s
  | S fuel' => match strip_any ws s with
               | Some r => trim_left ws fuel' r
               | None => s
               end
  end.

(** [strings.TrimSpace]: every step strips at least one byte, so the length
    of the string is enough fuel. *)
Definition trim_space (s : string) : string :=
  let l := trim_left unicode_spaces (String.length s) s in
  reverse_string
    (trim_left (map reverse_string unicode_spaces) (String.length l) (reverse_string l)).

Definition has_prefix (s p : string) : bool := String.prefix p s.

(** [strings.TrimSuffix] *)
Definition trim_suffix (s suffix : string) : string :=
  match strip_prefix (reverse_string suffix) (reverse_string s) with
  | Some r => reverse_string r
  | None => s
  end.

(** [strings.Contains] *)
Fixpoint contains (s sub : string) : bool :=
  String.prefix sub s ||
  match s with
  | EmptyString => false
  | String _ s' => contains s' sub
  end.

Definition is_ascii_byte (c : ascii) : bool := (N_of_ascii c <? 128)%N.

Fixpoint all_ascii (s : string) : bool :=
  match s with
  | EmptyString => true
  | String c s' => is_ascii_byte c && all_ascii s'
  end.

Definition lower_byte (c : ascii) : ascii :=
  let n := N_of_ascii c in
  if (65 <=? n)%N && (n <=? 90)%N then ascii_of_N (n + 32) else c.

Fixpoint lower_ascii (s : string) : string :=
  match s with
  | EmptyString => EmptyString
  | String c s' => String (lower_byte c) (lower_ascii s')
  end.

(** [strings.ToLower]: on ASCII strings the 26 letters are mapped; otherwise
    Go maps the decoded runes through the Unicode tables, the argument
    [unicode_lower]. *)
Definition to_lower (unicode_lower : string → string) (s : string) : string :=
  if all_ascii s then lower_ascii s else unicode_lower s.

(** *** Searching, splitting and joining on bytes *)

(** [strings.IndexByte(s, c) >= 0] *)
Fixpoint has_byte (c : ascii) (s : string) : bool :=
  match s with
  | EmptyString => false
  | String d s' => Ascii.eqb c d || has_byte c s'
  end.

(** [strings.ContainsAny(s, chars)] for ASCII [chars]. *)
Fixpoint contains_any (s chars : string) : bool :=
  match s with
  | EmptyString => false
  | String d s' => has_byte d chars || contains_any s' chars
  end.

(** The parts of [s] before and after the first byte [c]. *)
Fixpoint cut_byte (c : ascii) (s : string) : option (string * string) :=
  match s with
  | EmptyString => None
  | String d s' =>
      if Ascii.eqb c d then Some (EmptyString, s')
      else match cut_byte c s' with
           | Some (l, r) => Some (String d l, r)
           | None => None
           end
  end.

(** The parts of [s] before and after the last byte [c]. *)
Definition cut_last_byte (c : ascii) (s : string) : option (string * string) :=
  match cut_byte c (reverse_string s) with
  | Some (r, l) => Some (reverse_string l, reverse_string r)
  | None => None
  end.

Definition has_suffix (s p : string) : bool :=
  String.prefix (reverse_string p) (reverse_string s).

(** [strings.Split] at a one byte separator. *)
Fixpoint split_byte (c : ascii) (s : string) : list string :=
  match s with
  | EmptyString => [EmptyString]
  | String d s' =>
      if Ascii.eqb c d then EmptyString :: split_byte c s'
      else match split_byte c s' with
           | [] => [String d EmptyString]
           | w :: ws => String d w :: ws
           end
  end.

(** [strings.Join] *)
Fixpoint strings_join (l : list string) (sep : string) : string :=
  match l with
  | [] => EmptyString
  | [w] => w
  | w :: rest => w +:+ sep +:+ strings_join rest sep
  end.

(** [strings.Repeat] *)
Fixpoint strings_repeat (s : string) (count : nat) : string :=
  match count with
  | O => EmptyString
  | S count => s +:+ strings_repeat s count
  end.

Fixpoint trim_left_bytes (cutset s : string) : string :=
  match s with
  | EmptyString => EmptyString
  | String c s' => if has_byte c cutset then trim_left_bytes cutset s' else s
  end.

(** [strings.Trim(s, cutset)] for an ASCII [cutset]. *)
Definition trim_bytes (s cutset : string) : string :=
  reverse_string (trim_left_bytes cutset (reverse_string (trim_left_bytes cutset s))).

(** [strings.TrimPrefix] *)
Definition trim_prefix (s p : string) : string :=
  match strip_prefix p s with Some r => r | None => s end.

(** ** Facts *)

Lemma string_app_assoc s t u : s +:+ (t +:+ u) = (s +:+ t) +:+ u.
Proof. induction s as [|c s IH]; [done|]. exact (f_equal (String c) IH). Qed.

Lemma strip_prefix_app p s r : strip_prefix p s = Some r → s = p +:+ r.
Proof.
  revert s. induction p as [|a p IH]; intros s; cbn; [naive_solver|].
  destruct s as [|b s]; [done|]. destruct (Ascii.eqb_spec a b) as [->|]; [|done].
  intros ->%IH. done.
Qed.

Lemma strip_any_app ws s r :
  strip_any ws s = Some r → ∃ w, w ∈ ws ∧ s = w +:+ r.
Proof.
  induction ws as [|w ws IH]; cbn; [done|].
  destruct (strip_prefix w s) eqn:E.
  - intros [= ->]. exists w. split; [constructor|]. by apply strip_prefix_app.
  - intros H. destruct (IH H) as (w' & ? & ?). exists w'. split; [by constructor|done].
Qed.

Lemma trim_left_suffix ws fuel s : ∃ p, s = p +:+ trim_left ws fuel s.
Proof.
  revert s. induction fuel as [|fuel IH]; intros s; cbn; [by exists EmptyString|].
  destruct (strip_any ws s) as [r|] eqn:E; [|by exists EmptyString].
  apply strip_any_app in E as (w & _ & ->). destruct (IH r) as [p Hp].
  exists (w +:+ p). rewrite <- string_app_assoc. by rewrite <- Hp.
Qed.


Lemma string_app_nil_r s : s +:+ "" = s.
Proof. induction s as [|c s IH]; [done|]. exact (f_equal (String c) IH). Qed.

Lemma append_cons c s t : String c s +:+ t = String c (s +:+ t).
Proof. done. Qed.

Lemma sep_app c s : String c "" +:+ s = String c s.
Proof. done. Qed.

Lemma list_ascii_app s t :
  String.list_ascii_of_string (s +:+ t)
  = String.list_ascii_of_string s ++ String.list_ascii_of_string t.
Proof. induction s as [|c s IH]; [done|]. exact (f_equal (cons c) IH). Qed.

Lemma string_of_list_app l k :
  String.string_of_list_ascii (l ++ k)
  = String.string_of_list_ascii l +:+ String.string_of_list_ascii k.
Proof. induction l as [|c l IH]; [done|]. exact (f_equal (String c) IH). Qed.

Lemma reverse_app s t : reverse_string (s +:+ t) = reverse_string t +:+ reverse_string s.
Proof. unfold reverse_string. by rewrite list_ascii_app, rev_app_distr, string_of_list_app. Qed.

Lemma reverse_involutive s : reverse_string (reverse_string s) = s.
Proof.
  unfold reverse_string.
  by rewrite String.list_ascii_of_string_of_list_ascii, rev_involutive,
    String.string_of_list_ascii_of_string.
Qed.

Lemma reverse_cons c s : reverse_string (String c s) = reverse_string s +:+ String c "".
Proof. apply (reverse_app (String c "") s). Qed.

Lemma string_length_app s t : String.length (s +:+ t) = (String.length s + String.length t)%nat.
Proof. induction s as [|c s IH]; [done|]. exact (f_equal S IH). Qed.

Lemma string_length_reverse s : String.length (reverse_string s) = String.length s.
Proof.
  induction s as [|c s IH]; [done|]. rewrite reverse_cons, string_length_app, IH. cbn. lia.
Qed.

(** Properties of every byte of a string. *)
Fixpoint all_bytes (P : ascii → bool) (s : string) : bool :=
  match s with
  | EmptyString => true
  | String c s' => P c && all_bytes P s'
  end.

Lemma all_bytes_app P s t : all_bytes P (s +:+ t) = all_bytes P s && all_bytes P t.
Proof.
  induction s as [|c s IH]; [done|]. rewrite append_cons. cbn [all_bytes]. by rewrite IH, andb_assoc.
Qed.

Lemma all_bytes_reverse P s : all_bytes P (reverse_string s) = all_bytes P s.
Proof.
  induction s as [|c s IH]; [done|]. rewrite reverse_cons, all_bytes_app, IH. cbn.
  by rewrite andb_true_r, andb_comm.
Qed.

Lemma all_bytes_impl (P Q : ascii → bool) s :
  (∀ c, P c = true → Q c = true) → all_bytes P s = true → all_bytes Q s = true.
Proof.
  intros H. induction s as [|c s IH]; [done|]. cbn. intros [Hc Hs]%andb_true_iff.
  by rewrite (H _ Hc), IH.
Qed.

Lemma all_bytes_ascii s : all_ascii s = all_bytes is_ascii_byte s.
Proof. induction s as [|c s IH]; [done|]. cbn. by rewrite IH. Qed.

Lemma has_byte_false c s : has_byte c s = false ↔ all_bytes (λ d, negb (Ascii.eqb c d)) s = true.
Proof.
  induction s as [|d s IH]; [done|]. cbn.
  rewrite orb_false_iff, andb_true_iff, negb_true_iff. by rewrite IH.
Qed.

Lemma contains_any_false s chars :
  contains_any s chars = false ↔ all_bytes (λ d, negb (has_byte d chars)) s = true.
Proof.
  induction s as [|d s IH]; [done|]. cbn.
  rewrite orb_false_iff, andb_true_iff, negb_true_iff. by rewrite IH.
Qed.

Lemma cut_byte_None c s : cut_byte c s = None ↔ has_byte c s = false.
Proof.
  induction s as [|d s IH]; [done|]. cbn. destruct (Ascii.eqb c d); [done|]. cbn.
  rewrite <- IH. destruct (cut_byte c s) as [[]|]; naive_solver.
Qed.

Lemma has_byte_all_bytes P c s : all_bytes P s = true → P c = false → has_byte c s = false.
Proof.
  intros Hs Hc. apply has_byte_false. eapply all_bytes_impl; [|exact Hs].
  intros d Hd. destruct (Ascii.eqb_spec c d) as [<-|]; [congruence|done].
Qed.

Lemma has_byte_reverse c s : has_byte c (reverse_string s) = has_byte c s.
Proof.
  destruct (has_byte c s) eqn:E.
  - apply not_false_iff_true. intros Hf. rewrite has_byte_false, all_bytes_reverse in Hf.
    apply has_byte_false in Hf. congruence.
  - by rewrite has_byte_false, all_bytes_reverse, <- has_byte_false.
Qed.

Lemma cut_last_byte_None c s : cut_last_byte c s = None ↔ has_byte c s = false.
Proof.
  unfold cut_last_byte. rewrite <- (has_byte_reverse c s), <- cut_byte_None.
  destruct (cut_byte c (reverse_string s)) as [[]|]; naive_solver.
Qed.

(** *** Split and join *)

Lemma split_byte_cons c s : ∃ w ws, split_byte c s = w :: ws.
Proof.
  destruct s as [|d s]; cbn; [by eauto|]. destruct (Ascii.eqb c d); [by eauto|].
  destruct (split_byte c s); by eauto.
Qed.

Lemma join_cons w ws sep : ws ≠ [] → strings_join (w :: ws) sep = w +:+ sep +:+ strings_join ws sep.
Proof. by destruct ws. Qed.

Lemma join_split c s : strings_join (split_byte c s) (String c "") = s.
Proof.
  induction s as [|d s IH]; [done|]. cbn.
  destruct (split_byte_cons c s) as (w & ws & E).
  destruct (Ascii.eqb_spec c d) as [->|].
  - rewrite join_cons by by rewrite E. by rewrite IH.
  - rewrite E in *. destruct ws; cbn in *; by rewrite <- IH.
Qed.

Lemma split_no_byte c s : has_byte c s = false → split_byte c s = [s].
Proof.
  induction s as [|d s IH]; [done|]. cbn. intros [-> Hs]%orb_false_iff. by rewrite IH.
Qed.

Lemma split_app c w s :
  has_byte c w = false → split_byte c (w +:+ String c s) = w :: split_byte c s.
Proof.
  induction w as [|d w IH]; intros Hw.
  - change ("" +:+ String c s) with (String c s). cbn [split_byte]. by rewrite Ascii.eqb_refl.
  - apply orb_false_iff in Hw as [Hd Hw]. rewrite append_cons. cbn [split_byte]. by rewrite Hd, IH.
Qed.

Lemma split_join c ws :
  ws ≠ [] → Forall (λ w, has_byte c w = false) ws → split_byte c (strings_join ws (String c "")) = ws.
Proof.
  intros Hne Hws. induction Hws as [|w ws Hw Hws IH]; [done|].
  destruct ws as [|w' ws]; [by apply split_no_byte|].
  rewrite join_cons, sep_app, split_app by done. by rewrite IH.
Qed.

Lemma split_no_sep c s : Forall (λ w, has_byte c w = false) (split_byte c s).
Proof.
  induction s as [|d s IH]; cbn; [by repeat constructor|].
  destruct (Ascii.eqb c d) eqn:E; [by constructor|].
  destruct (split_byte_cons c s) as (w & ws & Es). rewrite Es in *.
  apply Forall_cons in IH as [Hw Hws]. constructor; [|done]. cbn. by rewrite E.
Qed.

Lemma split_all_bytes P c s :
  all_bytes P s = true → Forall (λ w, all_bytes P w = true) (split_byte c s).
Proof.
  induction s as [|d s IH]; cbn; [by repeat constructor|].
  intros [Hd Hs]%andb_true_iff. specialize (IH Hs).
  destruct (Ascii.eqb c d); [by constructor|].
  destruct (split_byte_cons c s) as (w & ws & E). rewrite E in *.
  apply Forall_cons in IH as [Hw Hws]. constructor; [|done]. cbn. by rewrite Hd.
Qed.

Lemma join_all_bytes P c ws :
  P c = true → Forall (λ w, all_bytes P w = true) ws →
  all_bytes P (strings_join ws (String c "")) = true.
Proof.
  intros Hc Hws. induction Hws as [|w ws Hw Hws IH]; [done|].
  destruct ws as [|w' ws]; [done|]. rewrite join_cons by done.
  rewrite !all_bytes_app. cbn [all_bytes]. by rewrite Hw, Hc, IH.
Qed.

(** *** Trimming *)

(** Printable ASCII bytes other than the space. *)
Definition plain_byte (c : ascii) : bool :=
  let n := N_of_ascii c in (33 <=? n)%N && (n <=? 126)%N.

Lemma strip_space_plain c s : plain_byte c = true → strip_any unicode_spaces (String c s) = None.
Proof. by destruct c as [[] [] [] [] [] [] [] []]. Qed.

Lemma strip_reverse_space_plain c s :
  plain_byte c = true → strip_any (map reverse_string unicode_spaces) (String c s) = None.
Proof. by destruct c as [[] [] [] [] [] [] [] []]. Qed.

Lemma trim_space_plain s : all_bytes plain_byte s = true → trim_space s = s.
Proof.
  intros Hs. unfold trim_space. destruct s as [|c s]; [done|].
  assert (Hc : plain_byte c = true) by by apply andb_true_iff in Hs as [? _].
  cbn [String.length trim_left]. rewrite strip_space_plain by done.
  pose proof Hs as Hr. rewrite <- all_bytes_reverse in Hr.
  assert (Hl : String.length (String c s) = S (String.length s)) by done. rewrite Hl.
  destruct (reverse_string (String c s)) as [|d r] eqn:E.
  { apply (f_equal reverse_string) in E. by rewrite reverse_involutive in E. }
  cbn [all_bytes] in Hr. apply andb_true_iff in Hr as [Hd _].
  cbn [trim_left]. rewrite strip_reverse_space_plain by done. by rewrite <- E, reverse_involutive.
Qed.

Lemma trim_suffix_none s c : last (String.list_ascii_of_string s) ≠ Some c →
  trim_suffix s (String c "") = s.
Proof.
  intros Hl. unfold trim_suffix. change (reverse_string (String c "")) with (String c "").
  destruct (strip_prefix _ _) as [r|] eqn:E; [|done].
  apply strip_prefix_app in E. rewrite sep_app in E.
  apply (f_equal reverse_string) in E. rewrite reverse_involutive in E.
  rewrite reverse_cons in E. destruct Hl. rewrite E, list_ascii_app. cbn [String.list_ascii_of_string]. by rewrite last_snoc.
Qed.

Lemma trim_suffix_app s c : trim_suffix (s +:+ String c "") (String c "") = s.
Proof.
  unfold trim_suffix. rewrite reverse_app. change (reverse_string (String c "")) with (String c "").
  rewrite sep_app. cbn [strip_prefix]. rewrite Ascii.eqb_refl. apply reverse_involutive.
Qed.

Lemma trim_suffix_cases s c :
  (s = trim_suffix s (String c "") ∧ last (String.list_ascii_of_string s) ≠ Some c) ∨
  s = trim_suffix s (String c "") +:+ String c "".
Proof.
  destruct (decide (last (String.list_ascii_of_string s) = Some c)) as [Hl|Hl].
  - right. apply last_Some in Hl as [l Hl].
    assert (s = String.string_of_list_ascii l +:+ String c "") as ->.
    { rewrite <- (String.string_of_list_ascii_of_string s), Hl. by rewrite string_of_list_app. }
    by rewrite trim_suffix_app.
  - left. by rewrite trim_suffix_none.
Qed.

Lemma trim_left_bytes_none cutset s :
  all_bytes (λ c, negb (has_byte c cutset)) s = true → trim_left_bytes cutset s = s.
Proof. destruct s as [|c s]; [done|]. cbn. by intros [->%negb_true_iff _]%andb_true_iff. Qed.

Lemma trim_bytes_none s cutset :
  all_bytes (λ c, negb (has_byte c cutset)) s = true → trim_bytes s cutset = s.
Proof.
  intros Hs. unfold trim_bytes. rewrite (trim_left_bytes_none cutset s) by done.
  rewrite trim_left_bytes_none by by rewrite all_bytes_reverse. apply reverse_involutive.
Qed.

(** *** Lower case *)

Lemma lower_ascii_app s t : lower_ascii (s +:+ t) = lower_ascii s +:+ lower_ascii t.
Proof. induction s as [|c s IH]; [done|]. exact (f_equal (String (lower_byte c)) IH). Qed.

Lemma lower_ascii_length s : String.length (lower_ascii s) = String.length s.
Proof. induction s as [|c s IH]; [done|]. cbn. by rewrite IH. Qed.

Lemma lower_byte_idem c : lower_byte (lower_byte c) = lower_byte c.
Proof. by destruct c as [[] [] [] [] [] [] [] []]. Qed.

Lemma lower_ascii_idem s : lower_ascii (lower_ascii s) = lower_ascii s.
Proof. induction s as [|c s IH]; [done|]. cbn. by rewrite lower_byte_idem, IH. Qed.

Lemma lower_ascii_fixed s : all_bytes (λ c, Ascii.eqb (lower_byte c) c) s = true → lower_ascii s = s.
Proof.
  induction s as [|c s IH]; [done|]. cbn. intros [Hc%Ascii.eqb_eq Hs]%andb_true_iff.
  by rewrite Hc, IH.
Qed.

Example trim_space_ex :
  trim_space (bytes_str [32; 9; 97; 32; 98; 0xC2; 0xA0; 10]%N) = "a b"%string.
Proof. vm_compute. reflexivity. Qed.
Example split_ex : split_byte "." "a..b." = ["a"; ""; "b"; ""]%string.
Proof. reflexivity. Qed.
Example cut_last_ex : cut_last_byte ":" "a:b:80" = Some ("a:b", "80")%string.
Proof. reflexivity. Qed.
Example trim_bytes_ex : trim_bytes "[::1]" "[]" = "::1"%string.
Proof. reflexivity. Qed.
