(* ===== verification/Protocol.v ===== *)
(** Wire data model: [pkg/protocol] (stream_header.go, p2p.go, types.go,
    message.go, socks5.go): the constants, the payload records and the
    structural validators of data stream headers and peer-to-peer messages. *)
From Stdlib Require Import ZArith Lia Ascii String Strings.Byte.
From stdpp Require Import base tactics numbers list gmap strings.
From S2P Require Import Prelude GoStrings.

(** ** Constants *)

Definition DataStreamHeaderKindTunnelStream : string := "tunnel_stream".
Definition DataStreamHeaderMagic : string := "NGDS".
Definition DataStreamHeaderVersion : Z := 1.
Definition DataStreamHeaderMaxLen : Z := 16 * 1024.
Definition DataStreamHeaderMaxStringLen : Z := 1024.
Definition DataStreamHeaderMaxTokenLen : Z := 4096.
Definition DataStreamRoleServer : string := "server".
Definition DataStreamRoleIngress : string := "ingress".
Definition DataStreamRoleTarget : string := "target".
Definition DataStreamDirectionIngressToTarget : string := "ingress_to_target".

Definition SOCKS5AuthTypeNone : string := "none".
Definition SOCKS5AuthTypeUsernamePassword : string := "username_password".
Definition SOCKS5AddrTypeIPv4 : string := "ipv4".
Definition SOCKS5AddrTypeDomain : string := "domain".
Definition SOCKS5AddrTypeIPv6 : string := "ipv6".
Definition SOCKS5DialStatusSuccess : string := "success".
Definition SOCKS5DialStatusTargetDenied : string := "target_denied".
Definition SOCKS5DialStatusNetworkUnreachable : string := "network_unreachable".
Definition SOCKS5DialStatusHostUnreachable : string := "host_unreachable".
Definition SOCKS5DialStatusConnectionRefused : string := "connection_refused".
Definition SOCKS5DialStatusDialTimeout : string := "dial_timeout".
Definition SOCKS5DialStatusGeneralFailure : string := "general_failure".

Definition ActualTransportUnknown : string := "unknown".
Definition ActualTransportServerRelay : string := "server_relay".
Definition ActualTransportPeerDirect : string := "peer_direct".
Definition ActualTransportTURNRelay : string := "turn_relay".

Definition TunnelTopologyServerExpose : string := "server_expose".
Definition TransportPolicyServerRelayOnly : string := "server_relay_only".
Definition TransportPolicyDirectPreferred : string := "direct_preferred".
Definition TransportPolicyDirectOnly : string := "direct_only".

Definition P2PStateConnected : string := "connected".
Definition P2PStateFailed : string := "failed".
Definition P2PStateClosed : string := "closed".

Definition P2PSignalOffer : string := "offer".
Definition P2PSignalAnswer : string := "answer".
Definition P2PSignalCandidate : string := "candidate".
Definition P2PRoleOfferer : string := "offerer".
Definition P2PRoleAnswerer : string := "answerer".
Definition P2PMaxSessionIDLen : Z := 128.
Definition P2PMaxClientIDLen : Z := 1024.
Definition P2PMaxSDPLen : Z := 256 * 1024.
Definition P2PMaxCandidateLen : Z := 16 * 1024.
Definition P2PMaxMIDLen : Z := 256.
Definition P2PMaxStatusErrorLen : Z := 4096.
Definition P2PMaxGrants : Z := 4096.
Definition P2PMaxCandidates : Z := 256.

Definition MsgTypeP2PSessionPrepare : string := "p2p_session_prepare".
Definition MsgTypeP2PClosed : string := "p2p_closed".
Definition MsgTypeP2PLease : string := "p2p_lease".
Definition MsgTypeP2PTunnelGrant : string := "p2p_tunnel_grant".
Definition MsgTypeP2PTunnelRevoke : string := "p2p_tunnel_revoke".

(** ** Data stream headers *)

Record DataStreamHeader := {
  dsh_Kind : string; dsh_TunnelID : string; dsh_Revision : Z;
  dsh_StreamID : string; dsh_OpenClientID : string;
  dsh_SourceRole : string; dsh_TargetRole : string;
  dsh_Direction : string; dsh_Transport : string;
  dsh_OpenToken : string; dsh_ServerAuthorized : bool;
  dsh_TargetHost : string; dsh_TargetPort : Z;
  dsh_TargetAddrType : string; dsh_OriginalHost : string;
}.

#[export] Instance DataStreamHeader_eq_dec : EqDecision DataStreamHeader.
Proof. solve_decision. Defined.

Definition isKnownDataStreamRole (role : string) : bool :=
  (role =?s DataStreamRoleServer) || (role =?s DataStreamRoleIngress)
  || (role =?s DataStreamRoleTarget).

(** The table of bounded string fields the validator walks. *)
Definition header_string_fields (h : DataStreamHeader) : list (string * string * Z) :=
  [("tunnel_id", dsh_TunnelID h, DataStreamHeaderMaxStringLen);
   ("stream_id", dsh_StreamID h, DataStreamHeaderMaxStringLen);
   ("open_client_id", dsh_OpenClientID h, DataStreamHeaderMaxStringLen);
   ("source_role", dsh_SourceRole h, DataStreamHeaderMaxStringLen);
   ("target_role", dsh_TargetRole h, DataStreamHeaderMaxStringLen);
   ("direction", dsh_Direction h, DataStreamHeaderMaxStringLen);
   ("transport", dsh_Transport h, DataStreamHeaderMaxStringLen);
   ("open_token", dsh_OpenToken h, DataStreamHeaderMaxTokenLen);
   ("target_host", dsh_TargetHost h, DataStreamHeaderMaxStringLen);
   ("target_addr_type", dsh_TargetAddrType h, DataStreamHeaderMaxStringLen);
   ("original_host", dsh_OriginalHost h, DataStreamHeaderMaxStringLen)]%string.

Fixpoint check_field_lengths (fields : list (string * string * Z)) : result unit :=
  match fields with
  | [] => Ok tt
  | (name, value, limit) :: rest =>
      if limit <? strlen value
      then Err (Errorf "data stream header %s is too long" [AStr name])
      else check_field_lengths rest
  end.

Definition ValidateDataStreamHeader (h : DataStreamHeader) : result unit :=
  if negb (dsh_Kind h =?s DataStreamHeaderKindTunnelStream)
  then Err (Errorf "unsupported data stream header kind %q" [AStr (dsh_Kind h)]) else
  if dsh_TunnelID h =?s "" then Err (Errorf "data stream header tunnel_id is required" []) else
  if dsh_Revision h <=? 0 then Err (Errorf "data stream header revision must be positive" []) else
  if dsh_StreamID h =?s "" then Err (Errorf "data stream header stream_id is required" []) else
  if dsh_OpenClientID h =?s ""
  then Err (Errorf "data stream header open_client_id is required" []) else
  if dsh_Direction h =?s "" then Err (Errorf "data stream header direction is required" []) else
  if dsh_Transport h =?s "" then Err (Errorf "data stream header transport is required" []) else
  if negb (dsh_Transport h =?s ActualTransportServerRelay)
     && negb (dsh_Transport h =?s ActualTransportPeerDirect)
     && negb (dsh_Transport h =?s ActualTransportTURNRelay)
  then Err (Errorf "unsupported data stream transport %q" [AStr (dsh_Transport h)]) else
  if negb (dsh_Direction h =?s DataStreamDirectionIngressToTarget)
  then Err (Errorf "unsupported data stream direction %q" [AStr (dsh_Direction h)]) else
  if negb (dsh_ServerAuthorized h) && (dsh_OpenToken h =?s "")
  then Err (Errorf "data stream header open_token is required" []) else
  _ ← check_field_lengths (header_string_fields h);
  if dsh_SourceRole h =?s "" then Err (Errorf "data stream header source_role is required" []) else
  if negb (isKnownDataStreamRole (dsh_SourceRole h))
  then Err (Errorf "unsupported data stream source_role %q" [AStr (dsh_SourceRole h)]) else
  if dsh_TargetRole h =?s "" then Err (Errorf "data stream header target_role is required" []) else
  if negb (isKnownDataStreamRole (dsh_TargetRole h))
  then Err (Errorf "unsupported data stream target_role %q" [AStr (dsh_TargetRole h)]) else
  _ ← (if dsh_Direction h =?s DataStreamDirectionIngressToTarget then
         if negb (dsh_SourceRole h =?s DataStreamRoleServer)
            && negb (dsh_SourceRole h =?s DataStreamRoleIngress)
         then Err (Errorf "data stream header source_role %q is invalid for direction %q"
                     [AStr (dsh_SourceRole h); AStr (dsh_Direction h)]) else
         if negb (dsh_TargetRole h =?s DataStreamRoleTarget)
         then Err (Errorf "data stream header target_role %q is invalid for direction %q"
                     [AStr (dsh_TargetRole h); AStr (dsh_Direction h)])
         else Ok tt
       else Ok tt);
  if (dsh_TargetPort h <? 0) || (65535 <? dsh_TargetPort h)
  then Err (Errorf "data stream header target_port must be in range 0-65535" []) else
  if negb (dsh_TargetAddrType h =?s "")
     && negb (dsh_TargetAddrType h =?s SOCKS5AddrTypeIPv4)
     && negb (dsh_TargetAddrType h =?s SOCKS5AddrTypeDomain)
     && negb (dsh_TargetAddrType h =?s SOCKS5AddrTypeIPv6)
  then Err (Errorf "unsupported data stream target_addr_type %q" [AStr (dsh_TargetAddrType h)])
  else Ok tt.

(** ** Peer-to-peer control messages *)

Record P2PICEServer := { ice_URLs : list string }.

Record P2PTunnelGrant := {
  tg_SessionID : string; tg_GrantID : string; tg_TunnelID : string; tg_Revision : Z;
  tg_LocalRole : string; tg_PeerRole : string; tg_LeaseSequence : Z;
  tg_ExpiresAt : Z; tg_TotalBPS : Z;
}.

Record P2PSessionPrepare := {
  sp_SessionID : string; sp_PeerClientID : string; sp_Role : string;
  sp_LocalGeneration : Z; sp_PeerGeneration : Z; sp_LeaseSequence : Z;
  sp_ExpiresAt : Z; sp_ICEServers : list P2PICEServer; sp_Grants : list P2PTunnelGrant;
}.

Record P2PSignal := {
  sig_SessionID : string; sig_Sequence : Z; sig_Kind : string; sig_SDP : string;
  sig_Candidate : string; sig_SDPMid : string; sig_MLine : Z;
}.

Record P2PSessionStatus := {
  st_SessionID : string; st_Sequence : Z; st_State : string; st_Error : string;
}.

Record P2PLease := { le_SessionID : string; le_Sequence : Z; le_ExpiresAt : Z }.

Record P2PTunnelRevoke := {
  rv_SessionID : string; rv_GrantID : string; rv_TunnelID : string;
  rv_Revision : Z; rv_Reason : string;
}.

Record P2PStatsReport := {
  sr_SessionID : string; sr_GrantID : string; sr_TunnelID : string; sr_Revision : Z;
  sr_Epoch : string; sr_Sequence : Z; sr_IngressBytes : Z; sr_EgressBytes : Z;
}.

Record P2PCreditDemand := {
  cd_SessionID : string; cd_GrantID : string; cd_TunnelID : string; cd_Revision : Z;
  cd_Sequence : Z; cd_DesiredBytes : Z;
}.

Record P2PCreditGrant := {
  cg_SessionID : string; cg_GrantID : string; cg_TunnelID : string; cg_Revision : Z;
  cg_Sequence : Z; cg_GrantedBytes : Z;
}.

Definition validateP2PIdentity (name value : string) (limit : Z) : result unit :=
  if trim_space value =?s "" then Err (Errorf "p2p %s is required" [AStr name]) else
  if limit <? strlen value then Err (Errorf "p2p %s is too long" [AStr name]) else Ok tt.

Definition isP2PTunnelRole (role : string) : bool :=
  (role =?s DataStreamRoleIngress) || (role =?s DataStreamRoleTarget).

Definition P2PSessionStatus_Validate (s : P2PSessionStatus) : result unit :=
  _ ← validateP2PIdentity "session_id" (st_SessionID s) P2PMaxSessionIDLen;
  if st_Sequence s =? 0 then Err (Errorf "p2p status sequence must be positive" []) else
  if negb (st_State s =?s P2PStateConnected) && negb (st_State s =?s P2PStateFailed)
     && negb (st_State s =?s P2PStateClosed)
  then Err (Errorf "unsupported p2p status state %q" [AStr (st_State s)]) else
  if P2PMaxStatusErrorLen <? strlen (st_Error s)
  then Err (Errorf "p2p status error is too long" []) else Ok tt.

Definition validateP2PCreditIdentity (sessionID grantID tunnelID : string)
    (revision sequence : Z) : result unit :=
  _ ← validateP2PIdentity "session_id" sessionID P2PMaxSessionIDLen;
  _ ← validateP2PIdentity "grant_id" grantID P2PMaxSessionIDLen;
  _ ← validateP2PIdentity "tunnel_id" tunnelID DataStreamHeaderMaxStringLen;
  if revision <=? 0 then Err (Errorf "p2p credit revision must be positive" []) else
  if sequence =? 0 then Err (Errorf "p2p credit sequence must be positive" []) else Ok tt.

Definition P2PCreditDemand_Validate (d : P2PCreditDemand) : result unit :=
  _ ← validateP2PCreditIdentity (cd_SessionID d) (cd_GrantID d) (cd_TunnelID d)
        (cd_Revision d) (cd_Sequence d);
  if cd_DesiredBytes d =? 0
  then Err (Errorf "p2p credit desired_bytes must be positive" []) else Ok tt.

Definition P2PCreditGrant_Validate (g : P2PCreditGrant) : result unit :=
  _ ← validateP2PCreditIdentity (cg_SessionID g) (cg_GrantID g) (cg_TunnelID g)
        (cg_Revision g) (cg_Sequence g);
  if cg_GrantedBytes g =? 0
  then Err (Errorf "p2p credit granted_bytes must be positive" []) else Ok tt.

Definition P2PStatsReport_Validate (r : P2PStatsReport) : result unit :=
  _ ← validateP2PIdentity "session_id" (sr_SessionID r) P2PMaxSessionIDLen;
  _ ← validateP2PIdentity "grant_id" (sr_GrantID r) P2PMaxSessionIDLen;
  _ ← validateP2PIdentity "tunnel_id" (sr_TunnelID r) DataStreamHeaderMaxStringLen;
  _ ← validateP2PIdentity "epoch" (sr_Epoch r) P2PMaxSessionIDLen;
  if sr_Revision r <=? 0 then Err (Errorf "p2p stats revision must be positive" []) else
  if sr_Sequence r =? 0 then Err (Errorf "p2p stats sequence must be positive" []) else Ok tt.

(** [t.After(u)] on times. *)
Definition time_after (t u : Z) : bool := u <? t.

Definition P2PTunnelGrant_Validate (now : Z) (g : P2PTunnelGrant) : result unit :=
  _ ← validateP2PIdentity "session_id" (tg_SessionID g) P2PMaxSessionIDLen;
  _ ← validateP2PIdentity "grant_id" (tg_GrantID g) P2PMaxSessionIDLen;
  _ ← validateP2PIdentity "tunnel_id" (tg_TunnelID g) DataStreamHeaderMaxStringLen;
  if tg_Revision g <=? 0 then Err (Errorf "p2p tunnel revision must be positive" []) else
  if (tg_LocalRole g =?s tg_PeerRole g) || negb (isP2PTunnelRole (tg_LocalRole g))
     || negb (isP2PTunnelRole (tg_PeerRole g))
  then Err (Errorf "invalid p2p tunnel roles local=%q peer=%q"
              [AStr (tg_LocalRole g); AStr (tg_PeerRole g)]) else
  if tg_LeaseSequence g =? 0
  then Err (Errorf "p2p grant lease sequence must be positive" []) else
  if tg_TotalBPS g <? 0 then Err (Errorf "p2p total_bps must be non-negative" []) else
  if negb (time_after (tg_ExpiresAt g) now)
  then Err (Errorf "p2p tunnel grant is expired" []) else Ok tt.

Fixpoint validate_prepare_grants (now : Z) (sessionID : string)
    (grants : list P2PTunnelGrant) : result unit :=
  match grants with
  | [] => Ok tt
  | grant :: rest =>
      _ ← P2PTunnelGrant_Validate now grant;
      if negb (tg_SessionID grant =?s sessionID)
      then Err (Errorf "p2p grant session mismatch" [])
      else validate_prepare_grants now sessionID rest
  end.

Definition P2PSessionPrepare_Validate (now : Z) (p : P2PSessionPrepare) : result unit :=
  _ ← validateP2PIdentity "session_id" (sp_SessionID p) P2PMaxSessionIDLen;
  _ ← validateP2PIdentity "peer_client_id" (sp_PeerClientID p) P2PMaxClientIDLen;
  if negb (sp_Role p =?s P2PRoleOfferer) && negb (sp_Role p =?s P2PRoleAnswerer)
  then Err (Errorf "unsupported p2p role %q" [AStr (sp_Role p)]) else
  if (sp_LocalGeneration p =? 0) || (sp_PeerGeneration p =? 0)
  then Err (Errorf "p2p generations must be positive" []) else
  if sp_LeaseSequence p =? 0
  then Err (Errorf "p2p lease sequence must be positive" []) else
  if negb (time_after (sp_ExpiresAt p) now)
  then Err (Errorf "p2p session lease is expired" []) else
  if P2PMaxGrants <? Z.of_nat (length (sp_Grants p))
  then Err (Errorf "too many p2p tunnel grants" []) else
  validate_prepare_grants now (sp_SessionID p) (sp_Grants p).

Definition P2PSignal_Validate (s : P2PSignal) : result unit :=
  _ ← validateP2PIdentity "session_id" (sig_SessionID s) P2PMaxSessionIDLen;
  if sig_Sequence s =? 0 then Err (Errorf "p2p signal sequence must be positive" []) else
  if (sig_Kind s =?s P2PSignalOffer) || (sig_Kind s =?s P2PSignalAnswer) then
    if (trim_space (sig_SDP s) =?s "") || (P2PMaxSDPLen <? strlen (sig_SDP s))
    then Err (Errorf "invalid p2p session description" []) else
    if negb (sig_Candidate s =?s "")
    then Err (Errorf "candidate is not allowed in p2p description signal" []) else Ok tt
  else if sig_Kind s =?s P2PSignalCandidate then
    if (trim_space (sig_Candidate s) =?s "") || (P2PMaxCandidateLen <? strlen (sig_Candidate s))
    then Err (Errorf "invalid p2p candidate" []) else
    if P2PMaxMIDLen <? strlen (sig_SDPMid s)
    then Err (Errorf "p2p candidate sdp_mid is too long" []) else
    if negb (sig_SDP s =?s "")
    then Err (Errorf "sdp is not allowed in p2p candidate signal" []) else Ok tt
  else Err (Errorf "unsupported p2p signal kind %q" [AStr (sig_Kind s)]).

(** ** Control messages *)

(** [json.RawMessage]: the raw bytes, [None] for a nil slice. *)
Record Message := { msg_Type : string; msg_Payload : option string }.

(** [NewMessage]: [payload] is the result of [json.Marshal] on a non-nil
    payload, [None] for a nil one. *)
Definition NewMessage (msgType : string) (payload : option (result string)) : result Message :=
  match payload with
  | Some marshalled => data ← marshalled;
                       Ok {| msg_Type := msgType; msg_Payload := Some data |}
  | None => Ok {| msg_Type := msgType; msg_Payload := None |}
  end.

Record EndpointSpec := {
  ep_Location : string; ep_ClientID : string; ep_Type : string; ep_Config : string;
}.

Record BandwidthSettings := { IngressBPS : Z; EgressBPS : Z; TotalBPS : Z }.

Record TunnelCapabilities := {
  CanResume : bool; CanStop : bool; CanEdit : bool; CanDelete : bool; CanMigrate : bool;
}.

Record SOCKS5AuthConfig := {
  auth_Type : string; auth_Username : string; auth_Password : string;
  auth_PasswordHash : string;
}.

Record SOCKS5ListenConfig := {
  lc_BindIP : string; lc_Port : Z; lc_AllowedSourceCIDRs : list string;
  lc_Auth : SOCKS5AuthConfig;
}.

Record SOCKS5DialResult := {
  dr_Status : string; dr_BoundAddr : string; dr_BoundPort : Z; dr_Message : string;
}.

#[export] Instance SOCKS5DialResult_eq_dec : EqDecision SOCKS5DialResult.
Proof. solve_decision. Defined.

Record TunnelPreflightResponse := {
  pf_RequestID : string; pf_TunnelID : string; pf_Revision : Z; pf_Role : string;
  pf_Accepted : bool; pf_Code : string; pf_Message : string;
}.

Record TunnelPreflightRequest := {
  pq_RequestID : string; pq_TunnelID : string; pq_Revision : Z; pq_Role : string;
  pq_Ingress : EndpointSpec;
}.

(** ** Declarative characterisations of the validators *)

(** Unfolds a successful chain of guards into its conditions. *)
Ltac guards_ok H :=
  repeat (match type of H with
          | (_ ≫= _) = Ok _ =>
              let u := fresh "u" in let E := fresh "V" in
              apply bind_ok in H as (u & E & H); destruct u
          | (if ?b then _ else _) = Ok _ => let E := fresh "G" in destruct b eqn:E; [discriminate H|]
          end).

(** What a data stream header must satisfy to be routed. *)
Record header_valid (h : DataStreamHeader) : Prop := {
  hv_kind : dsh_Kind h = DataStreamHeaderKindTunnelStream;
  hv_tunnel : dsh_TunnelID h ≠ ""%string;
  hv_revision : 0 < dsh_Revision h;
  hv_stream : dsh_StreamID h ≠ ""%string;
  hv_client : dsh_OpenClientID h ≠ ""%string;
  hv_transport : dsh_Transport h ∈ [ActualTransportServerRelay; ActualTransportPeerDirect;
                                    ActualTransportTURNRelay];
  hv_direction : dsh_Direction h = DataStreamDirectionIngressToTarget;
  hv_authorized : dsh_ServerAuthorized h = true ∨ dsh_OpenToken h ≠ ""%string;
  hv_lengths : Forall (λ '(_, v, limit), strlen v ≤ limit) (header_string_fields h);
  hv_source : dsh_SourceRole h = DataStreamRoleServer ∨ dsh_SourceRole h = DataStreamRoleIngress;
  hv_target : dsh_TargetRole h = DataStreamRoleTarget;
  hv_port : 0 ≤ dsh_TargetPort h ≤ 65535;
  hv_addr : dsh_TargetAddrType h ∈ [""%string; SOCKS5AddrTypeIPv4; SOCKS5AddrTypeDomain;
                                    SOCKS5AddrTypeIPv6];
}.

Lemma check_field_lengths_ok fields :
  check_field_lengths fields = Ok tt ↔ Forall (λ '(_, v, limit), strlen v ≤ limit) fields.
Proof.
  induction fields as [|[[name v] limit] fields IH]; cbn; [by split|].
  rewrite Forall_cons. destruct (Z.ltb_spec limit (strlen v)); [split; [done|lia]|].
  rewrite IH. split; [split; [lia|done]|by intros []].
Qed.

Lemma elem_of_2 {A} (x a b : A) : x ∈ [a; b] ↔ x = a ∨ x = b.
Proof. rewrite !elem_of_cons, elem_of_nil. tauto. Qed.
Lemma elem_of_3 {A} (x a b c : A) : x ∈ [a; b; c] ↔ x = a ∨ x = b ∨ x = c.
Proof. rewrite !elem_of_cons, elem_of_nil. tauto. Qed.
Lemma elem_of_4 {A} (x a b c d : A) : x ∈ [a; b; c; d] ↔ x = a ∨ x = b ∨ x = c ∨ x = d.
Proof. rewrite !elem_of_cons, elem_of_nil. tauto. Qed.

Lemma validate_header_sound h : ValidateDataStreamHeader h = Ok tt → header_valid h.
Proof.
  unfold ValidateDataStreamHeader. intros H. guards_ok H. clear H.
  reflect_guards. rewrite <- eqb_str_true in G7. rewrite G7 in V0. guards_ok V0.
  unfold isKnownDataStreamRole in *. reflect_guards.
  split; rewrite ?elem_of_3, ?elem_of_4, <- ?check_field_lengths_ok;
    first [done | lia | tauto | naive_solver].
Qed.

Lemma validate_header_complete h : header_valid h → ValidateDataStreamHeader h = Ok tt.
Proof.
  intros [Hk Ht Hr Hs Hc Htr Hd Ha Hl Hso Hta Hp Had].
  rewrite elem_of_3 in Htr. rewrite elem_of_4 in Had.
  unfold ValidateDataStreamHeader. rewrite Hk, Hd, Hta.
  rewrite (proj2 (eqb_str_false _ _) Ht), (proj2 (eqb_str_false _ _) Hs),
    (proj2 (eqb_str_false _ _) Hc), (proj2 (Z.leb_gt _ _) Hr).
  rewrite (proj2 (check_field_lengths_ok _) Hl). cbn [mbind result_bind].
  assert ((dsh_TargetPort h <? 0) || (65535 <? dsh_TargetPort h) = false) as -> by lia.
  assert (negb (dsh_ServerAuthorized h) && (dsh_OpenToken h =?s "") = false) as ->.
  { destruct Ha as [->|?%eqb_str_false]; [done|]. rewrite H. by rewrite andb_false_r. }
  destruct Htr as [-> | [-> | ->]], Hso as [-> | ->], Had as [-> | [-> | [-> | ->]]]; reflexivity.
Qed.

(** ** Properties *)

(** [ValidateDataStreamHeader] accepts exactly the headers that meet the
    declarative conditions [header_valid]: the overlapping role, transport and
    direction tests of the code collapse to "source is server or ingress,
    target is target, direction is ingress_to_target". *)
Theorem ValidateDataStreamHeader_iff h :
  ValidateDataStreamHeader h = Ok tt ↔ header_valid h.
Proof. split; auto using validate_header_sound, validate_header_complete. Qed.

(** The fields of [TunnelSpec] the modelled code reads; peer-to-peer and
    participant state, issues and timestamps are carried along unread. *)
Record TunnelSpec := {
  ts_ID : string; ts_Name : string; ts_Revision : Z;
  ts_Topology : string; ts_OwnerClientID : string;
  ts_Ingress : EndpointSpec; ts_Target : EndpointSpec; ts_TransportPolicy : string;
}.

Record TunnelProvisionRequest := {
  pr_TunnelID : string; pr_Revision : Z; pr_Role : string; pr_Spec : TunnelSpec;
}.

Record SOCKS5ConnectHandlerConfig := {
  hc_AllowedTargetCIDRs : list string; hc_AllowedTargetHosts : list string;
  hc_AllowedTargetPorts : list Z; hc_DialTimeoutSeconds : Z;
}.

(** *** Tunnel states *)

Definition ProxyDesiredStateRunning : string := "running".
Definition ProxyDesiredStateStopped : string := "stopped".
Definition ProxyRuntimeStatePending : string := "pending".
Definition ProxyRuntimeStateExposed : string := "exposed".
Definition ProxyRuntimeStateOffline : string := "offline".
Definition ProxyRuntimeStateIdle : string := "idle".
Definition ProxyRuntimeStateError : string := "error".
Definition TunnelRuntimeStateActive : string := "active".

(** [ProxyConfig] without its peer-to-peer, issue, participant and transport
    pointers, which the modelled code passes on as they are. *)
Record ProxyConfig := {
  pc_ID : string; pc_Name : string; pc_Revision : Z; pc_Type : string;
  pc_LocalIP : string; pc_LocalPort : Z; pc_RemotePort : Z; pc_BindIP : string;
  pc_Domain : string; pc_ClientID : string; pc_Topology : string; pc_OwnerClientID : string;
  pc_Ingress : option EndpointSpec; pc_Target : option EndpointSpec;
  pc_TransportPolicy : string; pc_ActualTransport : string;
  pc_Bandwidth : BandwidthSettings; pc_CreatedAt : Z;
  pc_DesiredState : string; pc_RuntimeState : string; pc_Error : string;
  pc_Capabilities : option TunnelCapabilities;
}.

Record HTTPAuthConfig := {
  ha_Type : string; ha_Username : string; ha_Password : string; ha_PasswordHash : string;
}.
Definition HTTPAuthTypeNone : string := "none".

Definition IngressTypeTCPListen : string := "tcp_listen".
Definition IngressTypeUDPListen : string := "udp_listen".
Definition IngressTypeHTTPHost : string := "http_host".
Definition IngressTypeSOCKS5Listen : string := "socks5_listen".
