(* ===== verification/Credit.v ===== *)
(** Shared bandwidth credit between the two ends of a peer-direct tunnel:
    [internal/client/shared_credit_scheduler.go] (the fair split of one token
    block) and [internal/client/p2p_credit.go] (the ingress side's
    [remoteCreditAccount], the owner side's [ownerCreditScheduler]).

    Locks make every critical section atomic, so each one is a function on the
    state; [remoteCreditAccount.Reserve], which releases the lock while it sends
    the demand and while it waits for credit, is a sequence of such steps, and
    any number of goroutines may be inside it. *)
From Stdlib Require Import ZArith Lia String.
From stdpp Require Import base tactics numbers list strings relations.
From S2P Require Import Prelude GoStrings Protocol.

(** ** The fair split (shared_credit_scheduler.go) *)

Definition sharedCreditMaxBlock : Z := 256 * 1024.

Definition minCredit (a b : Z) : Z := if a <? b then a else b.

Definition capBlock (value : Z) : Z :=
  if sharedCreditMaxBlock <? value then sharedCreditMaxBlock else value.

Definition fairCreditAllocation (available ingressDemand egressDemand : Z) : Z * Z :=
  if available =? 0 then (0, 0) else
  let ingressDemand := capBlock ingressDemand in
  let egressDemand := capBlock egressDemand in
  if ingressDemand =? 0 then (0, minCredit available egressDemand) else
  if egressDemand =? 0 then (minCredit available ingressDemand, 0) else
  let ingressShare := u64_add available 1 / 2 in
  let egressShare := available / 2 in
  let ingressGrant := minCredit ingressShare ingressDemand in
  let egressGrant := minCredit egressShare egressDemand in
  let remaining := u64_sub (u64_sub available ingressGrant) egressGrant in
  if 0 <? remaining then
    let extraIngress := minCredit remaining (u64_sub ingressDemand ingressGrant) in
    let ingressGrant := u64_add ingressGrant extraIngress in
    let remaining := u64_sub remaining extraIngress in
    (ingressGrant, u64_add egressGrant (minCredit remaining (u64_sub egressDemand egressGrant)))
  else (ingressGrant, egressGrant).

(** ** The ingress side's account *)

Record remoteCreditAccount := {
  ra_grant : P2PTunnelGrant;
  ra_desired : Z; ra_granted : Z; ra_consumed : Z;
  ra_sequence : Z; ra_grantSequence : Z;
  ra_closed : bool;
}.

Definition errP2PCreditClosed : goerror := Errorf "p2p credit account closed" [].

Definition newRemoteCreditAccount (grant : P2PTunnelGrant) : remoteCreditAccount :=
  {| ra_grant := grant; ra_desired := 0; ra_granted := 0; ra_consumed := 0;
     ra_sequence := 0; ra_grantSequence := 0; ra_closed := false |}.

(** What the first critical section of [Reserve] decides: return at once, or
    send a demand and then wait. *)
Inductive reserve_start :=
| RsReturn (r : result unit)
| RsSend (demand : P2PCreditDemand).

Definition Reserve_begin (a : remoteCreditAccount) (bytes : Z) : remoteCreditAccount * reserve_start :=
  if (bytes <=? 0) || (tg_TotalBPS (ra_grant a) =? 0) then (a, RsReturn (Ok tt)) else
  if ra_closed a then (a, RsReturn (Err errP2PCreditClosed)) else
  if u64_sub u64_max (ra_desired a) <? bytes
  then (a, RsReturn (Err (Errorf "p2p credit demand overflow" []))) else
  let a' := {| ra_grant := ra_grant a; ra_desired := u64_add (ra_desired a) bytes;
               ra_granted := ra_granted a; ra_consumed := ra_consumed a;
               ra_sequence := u64_succ (ra_sequence a); ra_grantSequence := ra_grantSequence a;
               ra_closed := ra_closed a |} in
  (a', RsSend {| cd_SessionID := tg_SessionID (ra_grant a); cd_GrantID := tg_GrantID (ra_grant a);
                 cd_TunnelID := tg_TunnelID (ra_grant a); cd_Revision := tg_Revision (ra_grant a);
                 cd_Sequence := ra_sequence a'; cd_DesiredBytes := ra_desired a' |}).

Definition Account_Close (a : remoteCreditAccount) : remoteCreditAccount :=
  if ra_closed a then a else
  {| ra_grant := ra_grant a; ra_desired := ra_desired a; ra_granted := ra_granted a;
     ra_consumed := ra_consumed a; ra_sequence := ra_sequence a;
     ra_grantSequence := ra_grantSequence a; ra_closed := true |}.

(** The second critical section, once per wake-up: [None] is another
    [cond.Wait]. *)
Definition Reserve_wake (a : remoteCreditAccount) (bytes : Z)
    : option (remoteCreditAccount * result unit) :=
  if negb (ra_closed a) && (u64_sub (ra_granted a) (ra_consumed a) <? bytes) then None else
  if ra_closed a then Some (a, Err errP2PCreditClosed) else
  Some ({| ra_grant := ra_grant a; ra_desired := ra_desired a; ra_granted := ra_granted a;
           ra_consumed := u64_add (ra_consumed a) bytes; ra_sequence := ra_sequence a;
           ra_grantSequence := ra_grantSequence a; ra_closed := ra_closed a |}, Ok tt).

Definition Account_Apply (a : remoteCreditAccount) (credit : P2PCreditGrant)
    : remoteCreditAccount * result unit :=
  match P2PCreditGrant_Validate credit with
  | Err e => (a, Err e)
  | Ok _ =>
      if (cg_Sequence credit <=? ra_grantSequence a) || (cg_GrantedBytes credit <? ra_granted a)
         || (ra_desired a <? cg_GrantedBytes credit)
      then (a, Err (Errorf "invalid or stale p2p credit grant" []))
      else ({| ra_grant := ra_grant a; ra_desired := ra_desired a;
               ra_granted := cg_GrantedBytes credit; ra_consumed := ra_consumed a;
               ra_sequence := ra_sequence a; ra_grantSequence := cg_Sequence credit;
               ra_closed := ra_closed a |}, Ok tt)
  end.

(** ** The owner side's scheduler *)

Record localCreditRequest := { lr_id : nat; lr_remaining : Z }.

Record ownerCreditScheduler := {
  os_grant : P2PTunnelGrant;
  os_remoteDesired : Z; os_remoteGranted : Z;
  os_demandSequence : Z; os_grantSequence : Z;
  os_local : list localCreditRequest;
  os_preferRemote : bool;
  os_done : bool;
}.

Definition newOwnerCreditScheduler (grant : P2PTunnelGrant) : ownerCreditScheduler :=
  {| os_grant := grant; os_remoteDesired := 0; os_remoteGranted := 0; os_demandSequence := 0;
     os_grantSequence := 0; os_local := []; os_preferRemote := false; os_done := false |}.

(** [Reserve] up to the wait for [req.done]: [Ok (Some id)] is a queued
    request, [Ok None] an immediate return. *)
Definition Owner_Reserve (s : ownerCreditScheduler) (id : nat) (bytes : Z)
    : ownerCreditScheduler * result (option nat) :=
  if (bytes <=? 0) || (tg_TotalBPS (os_grant s) =? 0) then (s, Ok None) else
  if os_done s then (s, Err errP2PCreditClosed) else
  ({| os_grant := os_grant s; os_remoteDesired := os_remoteDesired s;
      os_remoteGranted := os_remoteGranted s; os_demandSequence := os_demandSequence s;
      os_grantSequence := os_grantSequence s;
      os_local := os_local s ++ [{| lr_id := id; lr_remaining := bytes |}];
      os_preferRemote := os_preferRemote s; os_done := os_done s |}, Ok (Some id)).

Definition ApplyDemand (s : ownerCreditScheduler) (demand : P2PCreditDemand)
    : ownerCreditScheduler * result unit :=
  match P2PCreditDemand_Validate demand with
  | Err e => (s, Err e)
  | Ok _ =>
      if (cd_Sequence demand <=? os_demandSequence s)
         || (cd_DesiredBytes demand <? os_remoteDesired s)
      then (s, Err (Errorf "invalid or stale p2p credit demand" []))
      else ({| os_grant := os_grant s; os_remoteDesired := cd_DesiredBytes demand;
               os_remoteGranted := os_remoteGranted s; os_demandSequence := cd_Sequence demand;
               os_grantSequence := os_grantSequence s; os_local := os_local s;
               os_preferRemote := os_preferRemote s; os_done := os_done s |}, Ok tt)
  end.

(** The saturating sum of the queued local requests. *)
Fixpoint localOutstanding (acc : Z) (local : list localCreditRequest) : Z :=
  match local with
  | [] => acc
  | req :: rest =>
      if u64_sub u64_max acc <? lr_remaining req then u64_max
      else localOutstanding (u64_add acc (lr_remaining req)) rest
  end.

(** The loop that spends [localGrant] on the queue, head first: the requests
    completed (their [done] channel is closed), the queue left and the grant
    left.  A head that keeps a remainder has taken the whole grant, so the
    loop's next test ends it. *)
Fixpoint spend_local (localGrant : Z) (local : list localCreditRequest)
    : list nat * list localCreditRequest * Z :=
  match local with
  | [] => ([], [], localGrant)
  | req :: rest =>
      if 0 <? localGrant then
        let amount := minCredit localGrant (lr_remaining req) in
        let req' := {| lr_id := lr_id req; lr_remaining := u64_sub (lr_remaining req) amount |} in
        let localGrant := u64_sub localGrant amount in
        if lr_remaining req' =? 0 then
          let '(fin, queue, g) := spend_local localGrant rest in (lr_id req :: fin, queue, g)
        else ([], req' :: rest, localGrant)
      else ([], local, localGrant)
  end.

(** How [allocate] divides the block between the remote side and the local
    queue. *)
Definition allocate_split (preferRemote : bool) (available remoteOutstanding localOut : Z)
    : Z * Z * bool :=
  let '(remoteGrant, localGrant) := fairCreditAllocation available remoteOutstanding localOut in
  if (0 <? remoteOutstanding) && (0 <? localOut) then
    if negb preferRemote then
      let '(localGrant, remoteGrant) := fairCreditAllocation available localOut remoteOutstanding in
      (remoteGrant, localGrant, negb preferRemote)
    else (remoteGrant, localGrant, negb preferRemote)
  else (remoteGrant, localGrant, preferRemote).

(** What one [allocate] did: the state, the completed local requests, the
    grant message sent (if any) and the returned amount. *)
Record allocate_result := {
  al_state : ownerCreditScheduler;
  al_completed : list nat;
  al_sent : option P2PCreditGrant;
  al_used : Z;
}.

(** [allocate]; [send] says whether [sendCreditGrant] succeeded. *)
Definition allocate (send : P2PCreditGrant → bool) (s : ownerCreditScheduler) (available : Z)
    : allocate_result :=
  let remoteOutstanding := u64_sub (os_remoteDesired s) (os_remoteGranted s) in
  let localOut := localOutstanding 0 (os_local s) in
  let '(remoteGrant, localGrant, prefer) :=
    allocate_split (os_preferRemote s) available remoteOutstanding localOut in
  let remoteGranted := u64_add (os_remoteGranted s) remoteGrant in
  let '(completed, local, _) := spend_local localGrant (os_local s) in
  let grantSequence :=
    if 0 <? remoteGrant then u64_succ (os_grantSequence s) else os_grantSequence s in
  let msg := {| cg_SessionID := tg_SessionID (os_grant s); cg_GrantID := tg_GrantID (os_grant s);
                cg_TunnelID := tg_TunnelID (os_grant s); cg_Revision := tg_Revision (os_grant s);
                cg_Sequence := grantSequence; cg_GrantedBytes := remoteGranted |} in
  let sent := (0 <? remoteGrant) && send msg in
  let final := if (0 <? remoteGrant) && negb (send msg)
               then u64_sub remoteGranted remoteGrant else remoteGranted in
  {| al_state := {| os_grant := os_grant s; os_remoteDesired := os_remoteDesired s;
                    os_remoteGranted := final; os_demandSequence := os_demandSequence s;
                    os_grantSequence := grantSequence; os_local := local;
                    os_preferRemote := prefer; os_done := os_done s |};
     al_completed := completed;
     al_sent := if sent then Some msg else None;
     al_used := u64_add remoteGrant localGrant |}.

Definition Owner_Close (s : ownerCreditScheduler) : ownerCreditScheduler :=
  {| os_grant := os_grant s; os_remoteDesired := os_remoteDesired s;
     os_remoteGranted := os_remoteGranted s; os_demandSequence := os_demandSequence s;
     os_grantSequence := os_grantSequence s; os_local := os_local s;
     os_preferRemote := os_preferRemote s; os_done := true |}.

(** ** Facts about the fair split *)

Lemma minCredit_min a b : minCredit a b = Z.min a b.
Proof. unfold minCredit. destruct (Z.ltb_spec a b); lia. Qed.

Lemma capBlock_min v : capBlock v = Z.min v sharedCreditMaxBlock.
Proof. unfold capBlock. destruct (Z.ltb_spec sharedCreditMaxBlock v); lia. Qed.

Lemma u64_succ_cases a :
  is_u64 a → (a = u64_max ∧ u64_add a 1 = 0) ∨ (a < u64_max ∧ u64_add a 1 = a + 1).
Proof.
  unfold is_u64, u64_max. intros Ha.
  destruct (decide (a = 18446744073709551615)) as [->|]; [by left|right].
  unfold u64_modulus in Ha. split; [lia|]. apply u64_add_small; unfold is_u64, u64_modulus; lia.
Qed.

Definition fair_split (available ci ce gi ge : Z) : Prop :=
  0 ≤ gi ≤ ci ∧ 0 ≤ ge ≤ ce ∧ gi + ge = Z.min available (ci + ce) ∧
  Z.min ci (available / 2) ≤ gi ∧ Z.min ce (available / 2) ≤ ge.

Lemma fair_alloc_spec available i e gi ge :
  is_u64 available → is_u64 i → is_u64 e →
  fairCreditAllocation available i e = (gi, ge) →
  fair_split available (capBlock i) (capBlock e) gi ge.
Proof.
  intros Ha Hi He. unfold fairCreditAllocation, fair_split.
  pose proof (Z.div_mod available 2) as Hd. pose proof (Z.mod_pos_bound available 2) as Hm.
  assert (is_u64 (capBlock i) ∧ capBlock i ≤ sharedCreditMaxBlock) as [Hci Hci'].
  { rewrite capBlock_min. unfold is_u64, sharedCreditMaxBlock in *. lia. }
  assert (is_u64 (capBlock e) ∧ capBlock e ≤ sharedCreditMaxBlock) as [Hce Hce'].
  { rewrite capBlock_min. unfold is_u64, sharedCreditMaxBlock in *. lia. }
  clear Hi He. revert Hci Hce Hci' Hce'. generalize (capBlock i) (capBlock e). clear i e.
  intros i e Hi He Hi' He'. unfold is_u64, sharedCreditMaxBlock in *.
  rewrite !minCredit_min.
  destruct (Z.eqb_spec available 0) as [->|]; [intros [= <- <-]; cbn; lia|].
  destruct (Z.eqb_spec i 0) as [->|]; [intros [= <- <-]; lia|].
  destruct (Z.eqb_spec e 0) as [->|]; [intros [= <- <-]; lia|].
  pose proof (Z.div_mod (u64_add available 1) 2) as Hd1.
  pose proof (Z.mod_pos_bound (u64_add available 1) 2) as Hm1.
  revert Hd Hm Hd1 Hm1. generalize (available / 2) (available mod 2) (u64_add available 1 / 2)
    (u64_add available 1 mod 2). intros h m h1 m1 Hd Hm Hd1 Hm1.
  destruct (u64_succ_cases available Ha) as [[-> Hs]|[? Hs]]; rewrite Hs in *;
    unfold u64_max in *; u64_simpl;
    match goal with |- context [0 <? ?x] => destruct (Z.ltb_spec 0 x) end;
    u64_simpl; intros [= <- <-]; u64_simpl; lia.
Qed.

(** ** The owner's queue *)

Fixpoint queue_total (local : list localCreditRequest) : Z :=
  match local with
  | [] => 0
  | r :: rest => lr_remaining r + queue_total rest
  end.

Definition queue_ok (local : list localCreditRequest) : Prop :=
  Forall (λ r, 0 < lr_remaining r < u64_modulus) local.

Lemma queue_total_nonneg local : queue_ok local → 0 ≤ queue_total local.
Proof. unfold queue_ok. induction 1; cbn in *; lia. Qed.

Lemma queue_total_app l1 l2 : queue_total (l1 ++ l2) = queue_total l1 + queue_total l2.
Proof. induction l1; cbn; lia. Qed.

Lemma localOutstanding_saturates acc local :
  is_u64 acc → queue_ok local →
  localOutstanding acc local = Z.min u64_max (acc + queue_total local).
Proof.
  intros Ha Hq. revert acc Ha. induction Hq as [|r local Hr Hq IH]; intros acc Ha; cbn.
  { unfold is_u64, u64_modulus, u64_max in *. lia. }
  pose proof (queue_total_nonneg local Hq).
  assert (is_u64 u64_max) by (unfold is_u64, u64_modulus, u64_max; lia).
  rewrite u64_sub_small by u64_bounds.
  destruct (Z.ltb_spec (u64_max - acc) (lr_remaining r)); [u64_bounds|].
  rewrite u64_add_small by u64_bounds. rewrite IH by u64_bounds. lia.
Qed.

(** The loop spends exactly the smaller of grant and queue, completes a
    prefix of the queue in order and leaves positive remainders. *)
Lemma spend_local_spec g local fin queue g' :
  is_u64 g → queue_ok local → spend_local g local = (fin, queue, g') →
  fin ++ (lr_id <$> queue) = lr_id <$> local ∧ queue_ok queue ∧
  g' = g - Z.min g (queue_total local) ∧
  queue_total queue = queue_total local - Z.min g (queue_total local).
Proof.
  intros Hg Hq. revert g fin queue g' Hg.
  induction Hq as [|r local Hr Hq IH]; intros g fin queue g' Hg; cbn.
  { intros [= <- <- <-]. cbn. repeat split; [constructor|u64_bounds..]. }
  pose proof (queue_total_nonneg local Hq).
  destruct (Z.ltb_spec 0 g) as [Hg0|Hg0].
  2: { intros [= <- <- <-]. cbn. repeat split; [by constructor|u64_bounds..]. }
  rewrite minCredit_min. u64_simpl.
  destruct (Z.eqb_spec (lr_remaining r - g `min` lr_remaining r) 0) as [Hz|Hz].
  - destruct (spend_local _ local) as [[fin1 q1] g1] eqn:E. intros [= <- <- <-].
    apply IH in E as (Hids & Hok & -> & Ht); [|u64_bounds].
    cbn. rewrite Hids, Ht. repeat split; [done|lia..].
  - intros [= <- <- <-]. cbn. repeat split; [|lia..].
    constructor; cbn; [lia|done].
Qed.

(** ** One allocation *)

Record scheduler_ok (s : ownerCreditScheduler) : Prop := {
  so_desired : is_u64 (os_remoteDesired s);
  so_granted : 0 ≤ os_remoteGranted s ≤ os_remoteDesired s;
  so_demand_seq : is_u64 (os_demandSequence s);
  so_grant_seq : is_u64 (os_grantSequence s);
  so_queue : queue_ok (os_local s);
}.

Lemma allocate_split_spec prefer available ro lo rg lg prefer' :
  is_u64 available → is_u64 ro → is_u64 lo →
  allocate_split prefer available ro lo = (rg, lg, prefer') →
  fair_split available (capBlock ro) (capBlock lo) rg lg.
Proof.
  intros Ha Hr Hl. unfold allocate_split.
  destruct (fairCreditAllocation available ro lo) as [a b] eqn:E1.
  destruct (fairCreditAllocation available lo ro) as [c d] eqn:E2.
  apply fair_alloc_spec in E1; [|done..]. apply fair_alloc_spec in E2; [|done..].
  unfold fair_split in *.
  destruct (_ && _); [destruct (negb prefer)|]; intros [= <- <- <-]; lia.
Qed.

Definition remote_outstanding (s : ownerCreditScheduler) : Z :=
  os_remoteDesired s - os_remoteGranted s.

(** Everything [allocate] does, for both outcomes of the send. *)
Record allocate_post (s : ownerCreditScheduler) (available : Z) (r : allocate_result)
    (rg lg : Z) : Prop := {
  ap_ok : scheduler_ok (al_state r);
  ap_split : fair_split available (capBlock (remote_outstanding s))
               (capBlock (Z.min u64_max (queue_total (os_local s)))) rg lg;
  ap_exact : allocate_split (os_preferRemote s) available (remote_outstanding s)
               (Z.min u64_max (queue_total (os_local s))) =
             (rg, lg, os_preferRemote (al_state r));
  ap_used : al_used r = rg + lg;
  ap_queue : queue_total (os_local (al_state r)) = queue_total (os_local s) - lg;
  ap_fifo : al_completed r ++ (lr_id <$> os_local (al_state r)) = lr_id <$> os_local s;
  ap_remote : os_remoteGranted (al_state r) =
                os_remoteGranted s + match al_sent r with Some _ => rg | None => 0 end;
  ap_desired : os_remoteDesired (al_state r) = os_remoteDesired s;
  ap_message : ∀ m, al_sent r = Some m →
    0 < rg ∧ cg_GrantedBytes m = os_remoteGranted s + rg ∧
    cg_GrantedBytes m ≤ os_remoteDesired s ∧
    cg_Sequence m = u64_succ (os_grantSequence s) ∧
    os_grantSequence (al_state r) = cg_Sequence m;
}.

Lemma allocate_spec send s available :
  scheduler_ok s → is_u64 available →
  ∃ rg lg, allocate_post s available (allocate send s available) rg lg.
Proof.
  intros [Hd Hg Hds Hgs Hq] Ha. unfold allocate.
  pose proof (queue_total_nonneg _ Hq).
  rewrite localOutstanding_saturates by (auto using u64_0). rewrite Z.add_0_l.
  rewrite (u64_sub_small (os_remoteDesired s)) by u64_bounds.
  change (os_remoteDesired s - os_remoteGranted s) with (remote_outstanding s).
  assert (Hro : is_u64 (remote_outstanding s)) by (unfold remote_outstanding; u64_bounds).
  set (lo := Z.min u64_max (queue_total (os_local s))).
  assert (Hlo : is_u64 lo) by u64_bounds.
  destruct (allocate_split _ _ _ lo) as [[rg lg] prefer] eqn:Es.
  destruct (spend_local lg (os_local s)) as [[fin q] g'] eqn:Eq.
  exists rg, lg. pose proof Es as Hex. apply allocate_split_spec in Es; [|done..].
  pose proof Es as Es'. unfold fair_split in Es'. rewrite !capBlock_min in Es'.
  unfold remote_outstanding in *.
  apply spend_local_spec in Eq as (Hids & Hok & _ & Ht);
    [|unfold sharedCreditMaxBlock in *; u64_bounds|done].
  assert (Hrg : u64_add (os_remoteGranted s) rg = os_remoteGranted s + rg) by
    (apply u64_add_small; u64_bounds).
  assert (Hused : u64_add rg lg = rg + lg) by (apply u64_add_small; u64_bounds).
  rewrite Hrg, Hused.
  assert (Hseq : is_u64 (if 0 <? rg then u64_succ (os_grantSequence s) else os_grantSequence s))
    by (destruct (0 <? rg); auto with u64).
  split; cbn; [|done|done|done|lia|done| |done|].
  - split; cbn; [done| |done|done|done].
    destruct (_ && negb _); u64_simpl; lia.
  - destruct (Z.ltb_spec 0 rg); cbn; [|lia]. destruct (send _); cbn; u64_simpl; lia.
  - intros m. destruct (Z.ltb_spec 0 rg); cbn; [|done].
    destruct (send _); cbn; [|done]. intros [= <-]. cbn. repeat split; lia.
Qed.

(** ** The account under any interleaving of its goroutines *)

(** The account, the byte counts of the goroutines that are sending their
    demand and of those that wait for credit. *)
Record account_run := { ar_account : remoteCreditAccount; ar_sending : list Z; ar_waiting : list Z }.

Inductive account_step : account_run → account_run → Prop :=
| as_reserve a a' sending waiting bytes demand :
    0 < bytes < 2 ^ 63 → Reserve_begin a bytes = (a', RsSend demand) →
    account_step {| ar_account := a; ar_sending := sending; ar_waiting := waiting |}
      {| ar_account := a'; ar_sending := bytes :: sending; ar_waiting := waiting |}
| as_sent a s1 s2 waiting bytes :
    account_step {| ar_account := a; ar_sending := s1 ++ bytes :: s2; ar_waiting := waiting |}
      {| ar_account := a; ar_sending := s1 ++ s2; ar_waiting := bytes :: waiting |}
| as_send_failed a s1 s2 waiting bytes :
    account_step {| ar_account := a; ar_sending := s1 ++ bytes :: s2; ar_waiting := waiting |}
      {| ar_account := Account_Close a; ar_sending := s1 ++ s2; ar_waiting := waiting |}
| as_wake a a' r sending w1 w2 bytes :
    Reserve_wake a bytes = Some (a', r) →
    account_step {| ar_account := a; ar_sending := sending; ar_waiting := w1 ++ bytes :: w2 |}
      {| ar_account := a'; ar_sending := sending; ar_waiting := w1 ++ w2 |}
| as_apply a a' r sending waiting credit :
    is_u64 (cg_GrantedBytes credit) → is_u64 (cg_Sequence credit) →
    Account_Apply a credit = (a', r) →
    account_step {| ar_account := a; ar_sending := sending; ar_waiting := waiting |}
      {| ar_account := a'; ar_sending := sending; ar_waiting := waiting |}
| as_close a sending waiting :
    account_step {| ar_account := a; ar_sending := sending; ar_waiting := waiting |}
      {| ar_account := Account_Close a; ar_sending := sending; ar_waiting := waiting |}.

Fixpoint sum_list_Z (l : list Z) : Z :=
  match l with [] => 0 | x :: l' => x + sum_list_Z l' end.

Lemma sum_list_Z_app l1 l2 : sum_list_Z (l1 ++ l2) = sum_list_Z l1 + sum_list_Z l2.
Proof. induction l1; cbn; lia. Qed.

Lemma sum_list_Z_nonneg l : Forall (λ b, 0 < b) l → 0 ≤ sum_list_Z l.
Proof. induction 1; cbn in *; lia. Qed.

Definition account_pending (r : account_run) : Z :=
  sum_list_Z (ar_sending r) + sum_list_Z (ar_waiting r).

Record account_ok (r : account_run) : Prop := {
  ao_consumed : 0 ≤ ra_consumed (ar_account r) ≤ ra_granted (ar_account r);
  ao_granted : ra_granted (ar_account r) ≤ ra_desired (ar_account r);
  ao_desired : is_u64 (ra_desired (ar_account r));
  ao_sequence : is_u64 (ra_sequence (ar_account r)) ∧ is_u64 (ra_grantSequence (ar_account r));
  ao_positive : Forall (λ b, 0 < b) (ar_sending r) ∧ Forall (λ b, 0 < b) (ar_waiting r);
  ao_pending : ra_consumed (ar_account r) + account_pending r ≤ ra_desired (ar_account r);
  ao_open : ra_closed (ar_account r) = false →
            ra_consumed (ar_account r) + account_pending r = ra_desired (ar_account r);
}.

Definition account_run_init (grant : P2PTunnelGrant) : account_run :=
  {| ar_account := newRemoteCreditAccount grant; ar_sending := []; ar_waiting := [] |}.

Lemma account_init_ok grant : account_ok (account_run_init grant).
Proof. split; unfold account_pending; cbn; try lia; auto using Forall_nil_2 with u64. Qed.

Lemma Account_Close_fields a :
  ra_grant (Account_Close a) = ra_grant a ∧ ra_desired (Account_Close a) = ra_desired a ∧
  ra_granted (Account_Close a) = ra_granted a ∧ ra_consumed (Account_Close a) = ra_consumed a ∧
  ra_sequence (Account_Close a) = ra_sequence a ∧
  ra_grantSequence (Account_Close a) = ra_grantSequence a ∧ ra_closed (Account_Close a) = true.
Proof. unfold Account_Close. destruct (ra_closed a) eqn:?; cbn; auto 10. Qed.

Lemma Reserve_begin_send a bytes a' d :
  is_u64 (ra_desired a) → Reserve_begin a bytes = (a', RsSend d) →
  0 < bytes ∧ ra_closed a = false ∧ ra_desired a' = ra_desired a + bytes ∧
  is_u64 (ra_desired a') ∧ ra_consumed a' = ra_consumed a ∧
  ra_granted a' = ra_granted a ∧ ra_closed a' = ra_closed a ∧
  ra_grantSequence a' = ra_grantSequence a ∧ is_u64 (ra_sequence a') ∧
  ra_grant a' = ra_grant a ∧ cd_DesiredBytes d = ra_desired a'.
Proof.
  intros H0. unfold Reserve_begin.
  destruct (bytes <=? 0) eqn:Eb; cbn; [done|].
  destruct (tg_TotalBPS _ =? 0); cbn; [done|]. destruct (ra_closed a) eqn:Ec; [done|].
  rewrite u64_sub_small by u64_bounds.
  destruct (Z.ltb_spec (u64_max - ra_desired a) bytes); [done|].
  reflect_guards. intros [= <- <-]. cbn.
  rewrite u64_add_small by u64_bounds. split_and!; auto with u64; u64_bounds.
Qed.

Lemma Reserve_wake_some a bytes a' r :
  Reserve_wake a bytes = Some (a', r) →
  (ra_closed a = true ∧ a' = a ∧ r = Err errP2PCreditClosed) ∨
  (ra_closed a = false ∧ r = Ok tt ∧ bytes ≤ u64_sub (ra_granted a) (ra_consumed a) ∧
   ra_grant a' = ra_grant a ∧ ra_desired a' = ra_desired a ∧ ra_granted a' = ra_granted a ∧
   ra_consumed a' = u64_add (ra_consumed a) bytes ∧ ra_sequence a' = ra_sequence a ∧
   ra_grantSequence a' = ra_grantSequence a ∧ ra_closed a' = false).
Proof.
  unfold Reserve_wake. destruct (ra_closed a) eqn:Ec; cbn.
  - intros [= <- <-]. auto.
  - destruct (Z.ltb_spec (u64_sub (ra_granted a) (ra_consumed a)) bytes); [done|].
    intros [= <- <-]. right. cbn. auto 10.
Qed.

Lemma Account_Apply_cases a credit a' r :
  Account_Apply a credit = (a', r) →
  (a' = a ∧ r ≠ Ok tt) ∨
  (r = Ok tt ∧ P2PCreditGrant_Validate credit = Ok tt ∧
   ra_grantSequence a < cg_Sequence credit ∧
   ra_granted a ≤ cg_GrantedBytes credit ≤ ra_desired a ∧
   ra_grant a' = ra_grant a ∧ ra_desired a' = ra_desired a ∧
   ra_granted a' = cg_GrantedBytes credit ∧ ra_consumed a' = ra_consumed a ∧
   ra_sequence a' = ra_sequence a ∧ ra_grantSequence a' = cg_Sequence credit ∧
   ra_closed a' = ra_closed a).
Proof.
  unfold Account_Apply. destruct (P2PCreditGrant_Validate credit) as [[]|e]; [|intros [= <- <-]; by left].
  destruct (_ || _ || _) eqn:G; intros [= <- <-]; [by left|right].
  reflect_guards. cbn. destruct G as [[] ]. repeat split; lia.
Qed.

Lemma account_step_ok r r' : account_step r r' → account_ok r → account_ok r'.
Proof.
  intros Hs [Hc Hg Hd [Hq Hgq] [Hps Hpw] Hp Ho]. unfold account_pending in *.
  destruct Hs as [a a' sending waiting bytes d Hb Hr | a s1 s2 w bytes | a s1 s2 w bytes
                 | a a' r sending w1 w2 bytes Hw | a a' r sending w credit Hgb Hsq Ha | a sending w];
    cbn in *.
  - apply Reserve_begin_send in Hr as (? & Hop & ? & ? & ? & ? & Hcl & ? & ? & ? & ?); [|done].
    specialize (Ho Hop).
    split; unfold account_pending; cbn; rewrite ?Hcl; [lia|lia|done| |by split; [constructor|]|lia|lia].
    split; [done|congruence].
  - rewrite sum_list_Z_app in *; cbn in *. rewrite Forall_app, Forall_cons in Hps.
    split; unfold account_pending; cbn; rewrite ?sum_list_Z_app; [lia..|done|done| |lia|].
    + rewrite Forall_app. split; [tauto|]. constructor; tauto.
    + intros E. specialize (Ho E). lia.
  - pose proof (Account_Close_fields a) as (? & E1 & E2 & E3 & E4 & E5 & Hcl).
    rewrite sum_list_Z_app in *; cbn in *. rewrite Forall_app, Forall_cons in Hps.
    split; unfold account_pending; cbn; rewrite ?sum_list_Z_app, ?E1, ?E2, ?E3, ?E4, ?E5, ?Hcl;
      [lia..|done|done| |lia|done].
    rewrite Forall_app. tauto.
  - rewrite sum_list_Z_app in *; cbn in *. rewrite Forall_app, Forall_cons in Hpw.
    pose proof (sum_list_Z_nonneg sending Hps) as Hn1.
    assert (0 ≤ sum_list_Z w1) by (apply sum_list_Z_nonneg; tauto).
    assert (0 ≤ sum_list_Z w2) by (apply sum_list_Z_nonneg; tauto).
    apply Reserve_wake_some in Hw as [(Ec & -> & _)|(Ec & _ & Hle & _ & E1 & E2 & E3 & E4 & E5 & E6)].
    + split; unfold account_pending; cbn; rewrite ?sum_list_Z_app, ?Ec; [lia..|done|done| |lia|done].
      rewrite Forall_app. tauto.
    + specialize (Ho Ec). rewrite u64_sub_small in Hle by u64_bounds.
      rewrite u64_add_small in E3 by u64_bounds.
      split; unfold account_pending; cbn; rewrite ?sum_list_Z_app, ?E1, ?E2, ?E3, ?E4, ?E5;
        [lia..|done|done| |lia|lia].
      rewrite Forall_app. tauto.
  - apply Account_Apply_cases in Ha as [[-> _]|(_ & _ & ? & ? & _ & E1 & E2 & E3 & E4 & E5 & E6)];
      [by split|].
    split; unfold account_pending; cbn; rewrite ?E1, ?E2, ?E3, ?E4, ?E5, ?E6; auto; lia.
  - pose proof (Account_Close_fields a) as (? & E1 & E2 & E3 & E4 & E5 & Hcl).
    split; unfold account_pending; cbn; rewrite ?E1, ?E2, ?E3, ?E4, ?E5, ?Hcl; auto; lia || done.
Qed.

Lemma account_reachable_ok grant r : rtc account_step (account_run_init grant) r → account_ok r.
Proof.
  intros Hr. assert (H0 := account_init_ok grant). induction Hr; [done|].
  eauto using account_step_ok.
Qed.

(** ** The two ends together

    Demands and grants travel through the server; each direction of the
    control channel keeps its order.  Goroutines of the ingress side send
    their demands after they release the account's lock, so demands may leave
    in any order: [cs_outbox] holds those produced and not sent. *)
Record credit_system := {
  cs_account : remoteCreditAccount;
  cs_outbox : list P2PCreditDemand;
  cs_demands : list P2PCreditDemand;
  cs_owner : ownerCreditScheduler;
  cs_grants : list P2PCreditGrant;
}.

Definition credit_system_init (grant : P2PTunnelGrant) : credit_system :=
  {| cs_account := newRemoteCreditAccount grant; cs_outbox := []; cs_demands := [];
     cs_owner := newOwnerCreditScheduler grant; cs_grants := [] |}.

Inductive credit_system_step : credit_system → credit_system → Prop :=
| cs_reserve a a' out dem o g bytes d :
    Reserve_begin a bytes = (a', RsSend d) →
    credit_system_step (Build_credit_system a out dem o g) (Build_credit_system a' (d :: out) dem o g)
| cs_send_demand a o1 o2 dem o g d :
    credit_system_step (Build_credit_system a (o1 ++ d :: o2) dem o g)
      (Build_credit_system a (o1 ++ o2) (dem ++ [d]) o g)
| cs_lose_demand a o1 o2 dem o g d :
    credit_system_step (Build_credit_system a (o1 ++ d :: o2) dem o g)
      (Build_credit_system (Account_Close a) (o1 ++ o2) dem o g)
| cs_recv_demand a out d dem o o' r g :
    ApplyDemand o d = (o', r) →
    credit_system_step (Build_credit_system a out (d :: dem) o g) (Build_credit_system a out dem o' g)
| cs_local a out dem o o' r g id bytes :
    bytes < u64_modulus → Owner_Reserve o id bytes = (o', r) →
    credit_system_step (Build_credit_system a out dem o g) (Build_credit_system a out dem o' g)
| cs_allocate a out dem o g send available :
    is_u64 available → os_grantSequence o < u64_max →
    credit_system_step (Build_credit_system a out dem o g)
      (Build_credit_system a out dem (al_state (allocate send o available))
         (g ++ option_list (al_sent (allocate send o available))))
| cs_recv_grant a a' r out dem o m g :
    Account_Apply a m = (a', r) →
    credit_system_step (Build_credit_system a out dem o (m :: g)) (Build_credit_system a' out dem o g)
| cs_wake a a' r out dem o g bytes :
    Reserve_wake a bytes = Some (a', r) →
    credit_system_step (Build_credit_system a out dem o g) (Build_credit_system a' out dem o g)
| cs_close a out dem o g :
    credit_system_step (Build_credit_system a out dem o g)
      (Build_credit_system (Account_Close a) out dem o g).

(** Grant messages in flight: sequence numbers rise strictly, cumulative bytes
    never fall, from what the account has seen to what the owner has granted. *)
Fixpoint grants_chain (seq bytes : Z) (l : list P2PCreditGrant) (seq_end bytes_end : Z) : Prop :=
  match l with
  | [] => seq ≤ seq_end ∧ bytes = bytes_end
  | m :: l' => seq < cg_Sequence m ∧ bytes ≤ cg_GrantedBytes m ∧ 0 < cg_GrantedBytes m ∧
               grants_chain (cg_Sequence m) (cg_GrantedBytes m) l' seq_end bytes_end
  end.

Lemma grants_chain_bounds seq bytes l seq_end bytes_end :
  grants_chain seq bytes l seq_end bytes_end → seq ≤ seq_end ∧ bytes ≤ bytes_end.
Proof.
  revert seq bytes. induction l as [|m l IH]; intros seq bytes; cbn; [lia|].
  intros (? & ? & ? & H). apply IH in H. lia.
Qed.

Lemma grants_chain_snoc seq bytes l s b m :
  grants_chain seq bytes l s b → s < cg_Sequence m → b ≤ cg_GrantedBytes m →
  0 < cg_GrantedBytes m →
  grants_chain seq bytes (l ++ [m]) (cg_Sequence m) (cg_GrantedBytes m).
Proof.
  revert seq bytes. induction l as [|m' l IH]; intros seq bytes; cbn.
  - intros [? ->] ? ? ?. repeat split; lia.
  - intros (? & ? & ? & H) ? ? ?. repeat split; try done. by apply IH.
Qed.

Lemma grants_chain_weaken seq bytes l s s' b :
  grants_chain seq bytes l s b → s ≤ s' → grants_chain seq bytes l s' b.
Proof.
  revert seq bytes. induction l as [|m l IH]; intros seq bytes; cbn; [lia|].
  intros (? & ? & ? & H) ?. auto.
Qed.

(** The message carries the identity of the grant. *)
Definition of_grant (grant : P2PTunnelGrant) (m : P2PCreditGrant) : Prop :=
  cg_SessionID m = tg_SessionID grant ∧ cg_GrantID m = tg_GrantID grant ∧
  cg_TunnelID m = tg_TunnelID grant ∧ cg_Revision m = tg_Revision grant.

Definition demand_in_range (desired : Z) (d : P2PCreditDemand) : Prop :=
  cd_DesiredBytes d ≤ desired ∧ is_u64 (cd_DesiredBytes d) ∧ is_u64 (cd_Sequence d).

Record system_ok (grant : P2PTunnelGrant) (s : credit_system) : Prop := {
  sy_owner : scheduler_ok (cs_owner s);
  sy_grant : os_grant (cs_owner s) = grant;
  sy_account : is_u64 (ra_desired (cs_account s)) ∧ is_u64 (ra_granted (cs_account s)) ∧
               0 ≤ ra_grantSequence (cs_account s) ∧ is_u64 (ra_sequence (cs_account s));
  sy_outbox : Forall (demand_in_range (ra_desired (cs_account s))) (cs_outbox s);
  sy_demands : Forall (demand_in_range (ra_desired (cs_account s))) (cs_demands s);
  sy_desired : os_remoteDesired (cs_owner s) ≤ ra_desired (cs_account s);
  sy_grants : Forall (of_grant grant) (cs_grants s);
  sy_chain : grants_chain (ra_grantSequence (cs_account s)) (ra_granted (cs_account s))
               (cs_grants s) (os_grantSequence (cs_owner s)) (os_remoteGranted (cs_owner s));
}.

Lemma demand_in_range_mono a b l :
  a ≤ b → Forall (demand_in_range a) l → Forall (demand_in_range b) l.
Proof. intros ? H. eapply Forall_impl; [exact H|]. intros d []. split; [lia|done]. Qed.

Lemma ApplyDemand_cases o d o' r :
  ApplyDemand o d = (o', r) →
  o' = o ∨
  (os_demandSequence o < cd_Sequence d ∧ os_remoteDesired o ≤ cd_DesiredBytes d ∧
   os_remoteDesired o' = cd_DesiredBytes d ∧ os_demandSequence o' = cd_Sequence d ∧
   os_grant o' = os_grant o ∧ os_remoteGranted o' = os_remoteGranted o ∧
   os_grantSequence o' = os_grantSequence o ∧ os_local o' = os_local o).
Proof.
  unfold ApplyDemand. destruct (P2PCreditDemand_Validate d); [|intros [= <- <-]; by left].
  destruct (_ || _) eqn:G; intros [= <- <-]; [by left|right].
  reflect_guards. cbn. split_and!; auto; lia.
Qed.

Lemma Owner_Reserve_cases o id bytes o' r :
  Owner_Reserve o id bytes = (o', r) →
  o' = o ∨ (0 < bytes ∧ os_local o' = os_local o ++ [{| lr_id := id; lr_remaining := bytes |}] ∧
   os_remoteDesired o' = os_remoteDesired o ∧ os_demandSequence o' = os_demandSequence o ∧
   os_grant o' = os_grant o ∧ os_remoteGranted o' = os_remoteGranted o ∧
   os_grantSequence o' = os_grantSequence o).
Proof.
  unfold Owner_Reserve. destruct (_ || _) eqn:G; [intros [= <- <-]; by left|].
  destruct (os_done o); intros [= <- <-]; [by left|right].
  reflect_guards. cbn. split_and!; auto; lia.
Qed.

Lemma allocate_grant send o available : os_grant (al_state (allocate send o available)) = os_grant o.
Proof.
  unfold allocate. destruct (allocate_split _ _ _ _) as [[]]. by destruct (spend_local _ _) as [[]].
Qed.

Lemma allocate_sent_of_grant send o available m :
  al_sent (allocate send o available) = Some m → of_grant (os_grant o) m.
Proof.
  unfold allocate. destruct (allocate_split _ _ _ _) as [[]]. destruct (spend_local _ _) as [[]].
  cbn. destruct (_ && send _); [|done]. by intros [= <-].
Qed.

Lemma allocate_seq_mono send o available :
  is_u64 (os_grantSequence o) → os_grantSequence o < u64_max →
  os_grantSequence o ≤ os_grantSequence (al_state (allocate send o available)).
Proof.
  intros Hu Hs. unfold allocate. destruct (allocate_split _ _ _ _) as [[rg ?]].
  destruct (spend_local _ _) as [[]]. cbn.
  destruct (0 <? rg); [|lia]. unfold u64_succ. u64_simpl. lia.
Qed.

Lemma system_allocate_ok grant a out dem o g send available :
  is_u64 available → os_grantSequence o < u64_max →
  system_ok grant (Build_credit_system a out dem o g) →
  system_ok grant (Build_credit_system a out dem (al_state (allocate send o available))
                     (g ++ option_list (al_sent (allocate send o available)))).
Proof.
  intros Hav Hlt [Ho Hg Ha Hout Hdem Hd Hgs Hch]; cbn in *.
  pose proof (allocate_spec send o available Ho Hav) as (rg & lg & [P1 P2 _ P3 P4 P5 P6 P7 P8]).
  pose proof (allocate_seq_mono send o available (so_grant_seq _ Ho) Hlt) as Hmono.
  pose proof (allocate_sent_of_grant send o available) as Hof.
  rewrite <- Hg in *.
  split; cbn; rewrite ?P7, ?allocate_grant; auto.
  - apply Forall_app; split; [done|]. destruct (al_sent _) as [m|]; cbn; constructor; auto.
  - destruct (al_sent _) as [m|]; cbn.
    + destruct (P8 m eq_refl) as (? & Hgb & ? & Hsq & ->).
      rewrite P6, <- Hgb. unfold u64_succ in Hsq.
      pose proof (so_grant_seq _ Ho). pose proof (so_granted _ Ho).
      u64_simpl_in Hsq. eapply grants_chain_snoc; [done|lia..].
    + rewrite app_nil_r, P6, Z.add_0_r. by eapply grants_chain_weaken.
Qed.

(** The grant's identity passes the validators of both ends. *)
Definition grant_identity_ok (grant : P2PTunnelGrant) : Prop :=
  validateP2PCreditIdentity (tg_SessionID grant) (tg_GrantID grant) (tg_TunnelID grant)
    (tg_Revision grant) 1 = Ok tt.

Lemma validate_credit_identity_seq s g t r seq :
  validateP2PCreditIdentity s g t r 1 = Ok tt → seq ≠ 0 →
  validateP2PCreditIdentity s g t r seq = Ok tt.
Proof.
  unfold validateP2PCreditIdentity. intros H Hs. guards_ok H.
  rewrite V, V0, V1. cbn [mbind result_bind]. by apply Z.eqb_neq in Hs as ->.
Qed.

Lemma grant_message_valid grant m :
  grant_identity_ok grant → of_grant grant m → 0 < cg_Sequence m → 0 < cg_GrantedBytes m →
  P2PCreditGrant_Validate m = Ok tt.
Proof.
  intros Hid (E1 & E2 & E3 & E4) Hs Hb. unfold P2PCreditGrant_Validate.
  rewrite E1, E2, E3, E4, (validate_credit_identity_seq _ _ _ _ _ Hid) by lia. cbn.
  by rewrite (proj2 (Z.eqb_neq _ _)) by lia.
Qed.

(** The next grant message in flight is never stale nor beyond the demand. *)
Lemma system_head_accepted grant a out dem o m g :
  grant_identity_ok grant → system_ok grant (Build_credit_system a out dem o (m :: g)) →
  (Account_Apply a m).2 = Ok tt.
Proof.
  intros Hid [Ho Hg (Hu1 & Hu2 & Hu3 & Hu4) Hout Hdem Hd Hgs (Hc1 & Hc2 & Hc3 & Hc4)]; cbn in *.
  apply grants_chain_bounds in Hc4. apply Forall_cons in Hgs as [Hm _].
  pose proof (so_granted _ Ho). unfold Account_Apply.
  rewrite (grant_message_valid grant m Hid Hm) by lia.
  assert ((cg_Sequence m <=? ra_grantSequence a) || (cg_GrantedBytes m <? ra_granted a)
    || (ra_desired a <? cg_GrantedBytes m) = false) as ->; [|done].
  rewrite !orb_false_iff, Z.leb_gt, !Z.ltb_ge. lia.
Qed.

Lemma credit_system_step_ok grant s s' :
  grant_identity_ok grant → credit_system_step s s' → system_ok grant s → system_ok grant s'.
Proof.
  intros Hid Hs Hok. destruct Hs as
    [a a' out dem o g bytes d Hr|a o1 o2 dem o g d|a o1 o2 dem o g d|a out d dem o o' r g Ha
    |a out dem o o' r g id bytes Hb Ha|a out dem o g send av Hav Hlt|a a' r out dem o m g Ha
    |a a' r out dem o g bytes Ha|a out dem o g];
    [| | | | |by apply system_allocate_ok
    |pose proof (system_head_accepted _ _ _ _ _ _ _ Hid Hok) as Hacc; rewrite Ha in Hacc; cbn in Hacc| |];
    destruct Hok as [Ho Hg (Hu1 & Hu2 & Hu3 & Hu4) Hout Hdem Hd Hgs Hch]; cbn in *.
  - pose proof (f_equal snd Hr) as Hd'.
    apply Reserve_begin_send in Hr as (? & ? & E1 & E2 & E3 & E4 & E5 & E6 & E7 & E8 & E9); [|done].
    split; cbn; rewrite ?E4, ?E6; auto; [| |lia].
    + constructor; [|eapply demand_in_range_mono; [|done]; lia].
      split; [lia|]. rewrite E9. split; [done|].
      revert Hd'. unfold Reserve_begin. repeat split_if; try done. cbn. intros [= <-]. cbn. auto with u64.
    + eapply demand_in_range_mono; [|done]; lia.
  - rewrite Forall_app, Forall_cons in Hout.
    split; cbn; auto; rewrite ?Forall_app, ?Forall_cons, ?Forall_nil; tauto.
  - rewrite Forall_app, Forall_cons in Hout.
    pose proof (Account_Close_fields a) as (? & E1 & E2 & E3 & E4 & E5 & Hcl).
    split; cbn; rewrite ?E1, ?E2, ?E4, ?E5; auto. rewrite Forall_app; tauto.
  - rewrite Forall_cons in Hdem. destruct Hdem as [(Hd1 & Hd2 & Hd3) Hdem].
    apply ApplyDemand_cases in Ha as [->|(? & ? & E1 & E2 & E3 & E4 & E5 & E6)]; [by split|].
    destruct Ho. split; cbn; rewrite ?E1, ?E3, ?E4, ?E5; auto.
    split; rewrite ?E1, ?E2, ?E4, ?E5, ?E6; auto; lia.
  - apply Owner_Reserve_cases in Ha as [->|(? & E1 & E2 & E3 & E4 & E5 & E6)]; [by split|].
    destruct Ho. split; cbn; rewrite ?E2, ?E4, ?E5, ?E6; auto.
    split; rewrite ?E1, ?E2, ?E3, ?E5, ?E6; auto.
    apply Forall_app; split; [done|]. repeat constructor; cbn; lia.
  - rewrite Forall_cons in Hgs. destruct Hch as (? & ? & ? & Hch).
    pose proof (grants_chain_bounds _ _ _ _ _ Hch). pose proof (so_granted _ Ho).
    apply Account_Apply_cases in Ha as [[-> ?]|(_ & _ & ? & ? & _ & E1 & E2 & E3 & E4 & E5 & E6)].
    + done.
    + split; cbn; rewrite ?E1, ?E2, ?E4, ?E5; auto; [|tauto].
      unfold is_u64 in *. split_and!; auto; lia.
  - apply Reserve_wake_some in Ha as [(? & -> & _)|(? & _ & _ & _ & E1 & E2 & _ & E4 & E5 & _)];
      [by split|].
    split; cbn; rewrite ?E1, ?E2, ?E4, ?E5; auto.
  - pose proof (Account_Close_fields a) as (? & E1 & E2 & E3 & E4 & E5 & Hcl).
    split; cbn; rewrite ?E1, ?E2, ?E4, ?E5; auto.
Qed.

Lemma credit_system_reachable_ok grant s :
  grant_identity_ok grant → rtc credit_system_step (credit_system_init grant) s →
  system_ok grant s.
Proof.
  intros Hid Hr.
  assert (H0 : system_ok grant (credit_system_init grant)).
  { split; cbn; [split; cbn|..]; split_and?; auto with u64; try lia; constructor. }
  induction Hr; [done|]. eauto using credit_system_step_ok.
Qed.

(** ** Draining the waiters and sharing over two rounds *)

Lemma account_wake_covered a sending b waiting :
  ra_closed a = false → is_u64 (ra_granted a) → 0 ≤ ra_consumed a → 0 < b →
  ra_consumed a + b ≤ ra_granted a →
  ∃ a', Reserve_wake a b = Some (a', Ok tt) ∧
    ra_consumed a' = ra_consumed a + b ∧ ra_granted a' = ra_granted a ∧ ra_closed a' = false ∧
    account_step {| ar_account := a; ar_sending := sending; ar_waiting := b :: waiting |}
      {| ar_account := a'; ar_sending := sending; ar_waiting := waiting |}.
Proof.
  intros Hc Hg H0 Hb Hle.
  assert (E : ∃ a', Reserve_wake a b = Some (a', Ok tt)).
  { unfold Reserve_wake. rewrite Hc. cbn. u64_simpl.
    destruct (Z.ltb_spec (ra_granted a - ra_consumed a) b); [lia|]. eauto. }
  destruct E as [a' E]. exists a'. split; [done|].
  pose proof E as E'. apply Reserve_wake_some in E' as [(? & _)|(_ & _ & _ & _ & _ & -> & -> & _ & _ & ->)];
    [congruence|].
  u64_simpl. split_and!; [lia|done|done|]. by apply (as_wake a a' (Ok tt) sending [] waiting b).
Qed.

Lemma account_drain a sending waiting :
  ra_closed a = false → is_u64 (ra_granted a) → 0 ≤ ra_consumed a →
  Forall (λ b, 0 < b) waiting → ra_consumed a + sum_list_Z waiting ≤ ra_granted a →
  ∃ a', rtc account_step {| ar_account := a; ar_sending := sending; ar_waiting := waiting |}
          {| ar_account := a'; ar_sending := sending; ar_waiting := [] |} ∧
        ra_consumed a' = ra_consumed a + sum_list_Z waiting.
Proof.
  intros Hc Hg H0 Hw. revert a Hc Hg H0. induction Hw as [|b waiting Hb Hw IH]; intros a Hc Hg H0 Hle.
  { exists a. split; [apply rtc_refl|cbn; lia]. }
  pose proof (sum_list_Z_nonneg _ Hw). cbn in Hle.
  destruct (account_wake_covered a sending b waiting) as (a1 & _ & E1 & E2 & E3 & Hstep);
    [done|done|done|done|lia|].
  destruct (IH a1) as (a' & Hr & E); [done|by rewrite E2|lia|lia|].
  exists a'. split; [by eapply rtc_l|]. cbn. lia.
Qed.

(** Demands that cover both shares get exactly the shares. *)
Lemma fair_shares_covered v i e :
  0 < v < u64_max → (v + 1) / 2 ≤ capBlock i → v / 2 ≤ capBlock e → 0 ≤ e →
  fairCreditAllocation v i e = ((v + 1) / 2, v / 2).
Proof.
  intros Hv Hi He H0. unfold fairCreditAllocation.
  rewrite !minCredit_min, (u64_add_small v 1) by u64_bounds.
  assert (Hb : ∀ x, capBlock x ≤ sharedCreditMaxBlock) by (intros; rewrite capBlock_min; lia).
  pose proof (Hb i) as Hbi. pose proof (Hb e) as Hbe. unfold sharedCreditMaxBlock in *.
  assert (Hn : 0 ≤ capBlock e) by (rewrite capBlock_min; unfold sharedCreditMaxBlock; lia).
  pose proof (Z.div_mod v 2) as H1. pose proof (Z.mod_pos_bound v 2) as H2.
  pose proof (Z.div_mod (v + 1) 2) as H3. pose proof (Z.mod_pos_bound (v + 1) 2) as H4.
  revert Hi He H1 H2 H3 H4 Hn. generalize (v / 2) (v mod 2) ((v + 1) / 2) ((v + 1) mod 2).
  intros h m h1 m1 Hi He H1 H2 H3 H4 Hn.
  rewrite !(proj2 (Z.eqb_neq v _)), !(proj2 (Z.eqb_neq (capBlock i) _)) by lia.
  destruct (Z.eqb_spec (capBlock e) 0); [f_equal; lia|].
  rewrite (Z.min_l h1), (Z.min_l h) by lia. u64_simpl.
  by destruct (Z.ltb_spec 0 (v - h1 - h)); [lia|].
Qed.

Lemma split_shares prefer v ro lo :
  0 < v ≤ sharedCreditMaxBlock → (v + 1) / 2 ≤ ro → (v + 1) / 2 ≤ lo →
  allocate_split prefer v ro lo =
    if prefer then ((v + 1) / 2, v / 2, false) else (v / 2, (v + 1) / 2, true).
Proof.
  intros Hv Hr Hl.
  pose proof (Z.div_mod v 2) as H1. pose proof (Z.mod_pos_bound v 2) as H2.
  pose proof (Z.div_mod (v + 1) 2) as H3. pose proof (Z.mod_pos_bound (v + 1) 2) as H4.
  assert (Hc : ∀ x, (v + 1) / 2 ≤ x → v / 2 ≤ capBlock x ∧ (v + 1) / 2 ≤ capBlock x).
  { intros x Hx. rewrite capBlock_min. lia. }
  unfold sharedCreditMaxBlock in Hv. destruct (Hc ro Hr), (Hc lo Hl). unfold allocate_split.
  rewrite (fair_shares_covered v ro lo), (fair_shares_covered v lo ro) by (u64_bounds || lia).
  rewrite !(proj2 (Z.ltb_lt _ _)) by lia. by destruct prefer.
Qed.

(** With the send succeeding, the remote side receives its whole share. *)
Lemma allocate_conserves_all send s available :
  scheduler_ok s → (∀ m, send m = true) → is_u64 available →
  ∃ rg lg, allocate_post s available (allocate send s available) rg lg ∧
    os_remoteGranted (al_state (allocate send s available)) = os_remoteGranted s + rg.
Proof.
  intros Hs Hsend Ha. destruct (allocate_spec send s available Hs Ha) as (rg & lg & P).
  exists rg, lg. split; [done|]. destruct P as [P1 P2 P0 P3 P4 P5 P6 P7 P8]. rewrite P6.
  unfold fair_split in P2. destruct (al_sent _) eqn:E; [lia|].
  assert (rg = 0); [|lia]. revert E. unfold allocate.
  rewrite localOutstanding_saturates by (apply Hs || auto with u64). rewrite Z.add_0_l.
  rewrite (u64_sub_small (os_remoteDesired s)) by (destruct Hs; u64_bounds).
  fold (remote_outstanding s). rewrite P0. destruct (spend_local _ _) as [[]]. cbn.
  rewrite Hsend. destruct (Z.ltb_spec 0 rg); [done|lia].
Qed.

(** ** Properties *)

(** C25 [fairCreditAllocation] on any uint64 inputs, the wrap-around of
    [available + 1] included: no grant exceeds its (block-capped) demand, the
    two grants together are exactly the smaller of the block and the capped
    demands (work conserving), and neither direction gets less than the
    smaller of its capped demand and half the block. *)
Theorem fairCreditAllocation_fair available i e :
  is_u64 available → is_u64 i → is_u64 e →
  let '(gi, ge) := fairCreditAllocation available i e in
  let ci := Z.min i sharedCreditMaxBlock in
  let ce := Z.min e sharedCreditMaxBlock in
  0 ≤ gi ≤ ci ∧ 0 ≤ ge ≤ ce ∧ gi + ge = Z.min available (ci + ce) ∧
  Z.min ci (available / 2) ≤ gi ∧ Z.min ce (available / 2) ≤ ge.
Proof.
  intros Ha Hi He. destruct (fairCreditAllocation available i e) as [gi ge] eqn:E.
  apply fair_alloc_spec in E; [|done..]. unfold fair_split in E. by rewrite !capBlock_min in E.
Qed.

Lemma fairCreditAllocation_fair_witness :
  fairCreditAllocation u64_max 5 300000 = (5, 262144) ∧
  let '(gi, ge) := fairCreditAllocation u64_max 5 300000 in gi + ge = 262149.
Proof.
  split; [by vm_compute|].
  pose proof (fairCreditAllocation_fair u64_max 5 300000) as H.
  destruct (fairCreditAllocation u64_max 5 300000) as [gi ge].
  destruct H as (_ & _ & -> & _); [by split..|by vm_compute].
Defined.

(** C26 In every state the ingress account reaches, whatever the interleaving
    of reserving, sending, waiting, granting and closing goroutines, the bytes
    consumed never exceed the bytes granted and the bytes granted never exceed
    the bytes demanded; while the account is open every demanded byte is either
    consumed or held by exactly one goroutine inside [Reserve]. *)
Theorem remote_account_never_overspends grant r :
  rtc account_step (account_run_init grant) r →
  0 ≤ ra_consumed (ar_account r) ≤ ra_granted (ar_account r) ∧
  ra_granted (ar_account r) ≤ ra_desired (ar_account r) ≤ u64_max ∧
  (ra_closed (ar_account r) = false →
   ra_desired (ar_account r) = ra_consumed (ar_account r) + account_pending r).
Proof.
  intros Hr. apply account_reachable_ok in Hr as [Hc Hg Hd _ _ _ Ho].
  split; [done|]. split; [u64_bounds|]. intros E. by rewrite Ho.
Qed.

Definition sample_grant : P2PTunnelGrant :=
  {| tg_SessionID := "s"; tg_GrantID := "g"; tg_TunnelID := "t"; tg_Revision := 1;
     tg_LocalRole := "ingress"; tg_PeerRole := "target"; tg_LeaseSequence := 1;
     tg_ExpiresAt := 1; tg_TotalBPS := 1000 |}.

(** One goroutine has demanded 700 bytes and waits. *)
Definition sample_waiting : account_run :=
  {| ar_account := (Reserve_begin (newRemoteCreditAccount sample_grant) 700).1;
     ar_sending := []; ar_waiting := [700] |}.

(** ... and the owner has granted them. *)
Definition sample_granted : account_run :=
  {| ar_account := (Account_Apply (ar_account sample_waiting)
       {| cg_SessionID := "s"; cg_GrantID := "g"; cg_TunnelID := "t"; cg_Revision := 1;
          cg_Sequence := 1; cg_GrantedBytes := 700 |}).1;
     ar_sending := []; ar_waiting := [700] |}.

Lemma sample_granted_reachable : rtc account_step (account_run_init sample_grant) sample_granted.
Proof.
  eapply rtc_l; [eapply (as_reserve _ _ [] [] 700); [lia|vm_compute; reflexivity]|].
  eapply rtc_l; [apply (as_sent _ [] [] [] 700)|].
  eapply rtc_l; [|apply rtc_refl].
  by eapply (as_apply _ _ (Ok tt) [] [700] {| cg_SessionID := "s"; cg_GrantID := "g";
    cg_TunnelID := "t"; cg_Revision := 1; cg_Sequence := 1; cg_GrantedBytes := 700 |}).
Defined.

Lemma remote_account_never_overspends_witness :
  ra_granted (ar_account sample_granted) = 700 ∧
  ra_desired (ar_account sample_granted) =
    ra_consumed (ar_account sample_granted) + account_pending sample_granted.
Proof.
  split; [by vm_compute|].
  apply (remote_account_never_overspends sample_grant sample_granted);
    [apply sample_granted_reachable|by vm_compute].
Defined.

(** No waiter starves: in a reachable open state where the owner has granted
    all that was demanded and no goroutine is still sending, all waiting
    goroutines can complete one after the other, each taking its bytes. *)
Theorem remote_account_drains grant r :
  rtc account_step (account_run_init grant) r →
  ra_closed (ar_account r) = false →
  ra_granted (ar_account r) = ra_desired (ar_account r) →
  ∃ r', rtc account_step r r' ∧ ar_waiting r' = [] ∧ ar_sending r' = ar_sending r ∧
        ra_consumed (ar_account r') = ra_consumed (ar_account r) + sum_list_Z (ar_waiting r).
Proof.
  intros Hr Hc Hg. apply account_reachable_ok in Hr as [H1 H2 H3 _ [Hs Hw] Hp _].
  destruct r as [a sending waiting]; unfold account_pending in Hp; cbn in *.
  pose proof (sum_list_Z_nonneg _ Hs).
  destruct (account_drain a sending waiting) as (a' & Hr' & E);
    [done|u64_bounds|lia|done|lia|].
  eexists. split; [exact Hr'|]. by cbn.
Qed.

Lemma remote_account_drains_witness :
  ∃ r', rtc account_step sample_granted r' ∧ ar_waiting r' = [] ∧ ar_sending r' = [] ∧
        ra_consumed (ar_account r') = 700.
Proof.
  apply (remote_account_drains sample_grant sample_granted);
    [apply sample_granted_reachable|by vm_compute|by vm_compute].
Defined.

(** One [allocate] of a block by the owner: it uses no more than the block,
    completes local requests strictly in the order they were queued, reduces
    the queue by exactly the local share, raises the remote grant by exactly
    the remote share (or not at all when the send fails) and never past what
    the remote side demanded; with the send succeeding, every byte used is
    accounted to one of the two. *)
Theorem allocate_conserves send s available :
  scheduler_ok s → is_u64 available →
  let r := allocate send s available in
  scheduler_ok (al_state r) ∧ 0 ≤ al_used r ≤ available ∧
  al_completed r ++ (lr_id <$> os_local (al_state r)) = lr_id <$> os_local s ∧
  os_remoteGranted s ≤ os_remoteGranted (al_state r) ≤ os_remoteDesired s ∧
  ((∀ m, send m = true) →
   al_used r = (queue_total (os_local s) - queue_total (os_local (al_state r)))
             + (os_remoteGranted (al_state r) - os_remoteGranted s)).
Proof.
  intros Hs Ha r. destruct (allocate_spec send s available Hs Ha) as (rg & lg & P). fold r in P.
  destruct P as [P1 P2 P0 P3 P4 P5 P6 P7 P8]. unfold fair_split in P2.
  pose proof (so_granted _ P1). split; [done|]. split; [lia|]. split; [done|].
  split; [destruct (al_sent r); lia|]. intros Hsend. rewrite P3, P4.
  destruct (allocate_conserves_all send s available Hs Hsend Ha) as (rg' & lg' & Q & E).
  fold r in Q, E. destruct Q as [_ _ Q0 _ _ _ _ _ _]. rewrite P0 in Q0. injection Q0 as <- <-.
  lia.
Qed.

Definition sample_scheduler : ownerCreditScheduler :=
  {| os_grant := sample_grant; os_remoteDesired := 500; os_remoteGranted := 100;
     os_demandSequence := 3; os_grantSequence := 2;
     os_local := [{| lr_id := 7; lr_remaining := 60 |}; {| lr_id := 8; lr_remaining := 200 |}];
     os_preferRemote := false; os_done := false |}.

Lemma sample_scheduler_ok : scheduler_ok sample_scheduler.
Proof. split; cbn; try (by split); try lia. repeat constructor; cbn; done. Defined.

Lemma allocate_conserves_witness :
  al_completed (allocate (λ _, true) sample_scheduler 201) = [7%nat] ∧
  al_used (allocate (λ _, true) sample_scheduler 201) ≤ 201.
Proof.
  split; [by vm_compute|].
  apply (allocate_conserves (λ _, true) sample_scheduler 201); [apply sample_scheduler_ok|by split].
Defined.

(** Alternation makes the split exact over two rounds: while both sides stay
    backlogged, two successive blocks of [v] bytes give each side exactly [v]
    bytes in total, whoever is preferred first. *)
Theorem allocate_two_rounds_even send s v :
  scheduler_ok s → (∀ m, send m = true) → 0 < v ≤ sharedCreditMaxBlock →
  v < remote_outstanding s → v < queue_total (os_local s) →
  let r1 := allocate send s v in
  let r2 := allocate send (al_state r1) v in
  os_remoteGranted (al_state r2) = os_remoteGranted s + v ∧
  queue_total (os_local (al_state r2)) = queue_total (os_local s) - v ∧
  os_preferRemote (al_state r2) = os_preferRemote s.
Proof.
  intros Hs Hsend Hv Hr Hq r1 r2.
  assert (Ha : is_u64 v) by (unfold sharedCreditMaxBlock in *; u64_bounds).
  pose proof (Z.div_mod v 2) as D1. pose proof (Z.mod_pos_bound v 2) as D2.
  pose proof (Z.div_mod (v + 1) 2) as D3. pose proof (Z.mod_pos_bound (v + 1) 2) as D4.
  unfold sharedCreditMaxBlock in Hv.
  pose proof (allocate_conserves_all send s v Hs Hsend Ha) as (rg & lg & P & E1). fold r1 in P, E1.
  destruct P as [P1 P2 P0 P3 P4 P5 P6 P7 P8].
  pose proof (allocate_conserves_all send (al_state r1) v P1 Hsend Ha) as (rg2 & lg2 & Q & E2).
  fold r2 in Q, E2. destruct Q as [Q1 Q2 Q0 Q3 Q4 Q5 Q6 Q7 Q8].
  unfold remote_outstanding, u64_max in *. rewrite P4, E1, P7 in Q0.
  rewrite split_shares in P0 by (unfold sharedCreditMaxBlock; lia).
  rewrite Q4, E2, E1, P4.
  destruct (os_preferRemote s); injection P0 as <- <- Hp; rewrite <- Hp in Q0;
    rewrite split_shares in Q0 by (unfold sharedCreditMaxBlock; lia);
    injection Q0 as <- <- Hp2; rewrite <- Hp2; split_and!; done || lia.
Qed.

Lemma allocate_two_rounds_even_witness :
  os_remoteGranted (al_state (allocate (λ _, true)
    (al_state (allocate (λ _, true) sample_scheduler 101)) 101)) = 201.
Proof.
  apply (allocate_two_rounds_even (λ _, true) sample_scheduler 101);
    [apply sample_scheduler_ok|done|by vm_compute|by vm_compute|by vm_compute].
Defined.

(** C5 The two ends agree: in every reachable state of account, owner and the
    messages between them (demands possibly reordered, sends possibly failing),
    the next grant message is accepted by the account, never rejected as stale
    or beyond the demand; grants never run ahead of demands end to end; and
    when no grant is in flight both ends hold the same granted total. *)
Theorem credit_grants_accepted grant s :
  grant_identity_ok grant → rtc credit_system_step (credit_system_init grant) s →
  (∀ m g, cs_grants s = m :: g → (Account_Apply (cs_account s) m).2 = Ok tt) ∧
  ra_granted (cs_account s) ≤ os_remoteGranted (cs_owner s) ∧
  os_remoteGranted (cs_owner s) ≤ os_remoteDesired (cs_owner s) ∧
  os_remoteDesired (cs_owner s) ≤ ra_desired (cs_account s) ∧
  (cs_grants s = [] → ra_granted (cs_account s) = os_remoteGranted (cs_owner s)).
Proof.
  intros Hid Hr. pose proof (credit_system_reachable_ok grant s Hid Hr) as Hok.
  destruct s as [a out dem o g]. pose proof Hok as [Ho _ _ _ _ Hd _ Hch]; cbn in *.
  split; [intros m g' ->; by eapply system_head_accepted|].
  pose proof (so_granted _ Ho). apply grants_chain_bounds in Hch as Hb.
  split_and!; [lia..|]. intros ->. apply Hch.
Qed.

(** A demand of 700 bytes has reached the owner, which granted 100 of them. *)
Definition sample_demand : P2PCreditDemand :=
  {| cd_SessionID := "s"; cd_GrantID := "g"; cd_TunnelID := "t"; cd_Revision := 1;
     cd_Sequence := 1; cd_DesiredBytes := 700 |}.

Definition sample_allocation : allocate_result :=
  allocate (λ _, true) (ApplyDemand (newOwnerCreditScheduler sample_grant) sample_demand).1 100.

Definition sample_system : credit_system :=
  Build_credit_system (ar_account sample_waiting) [] [] (al_state sample_allocation)
    ([] ++ option_list (al_sent sample_allocation)).

Lemma sample_system_reachable :
  rtc credit_system_step (credit_system_init sample_grant) sample_system.
Proof.
  eapply rtc_l; [eapply (cs_reserve _ _ [] [] _ [] 700); vm_compute; reflexivity|].
  eapply rtc_l; [eapply (cs_send_demand _ [] [])|].
  eapply rtc_l; [eapply cs_recv_demand, surjective_pairing|].
  eapply rtc_l; [eapply (cs_allocate _ _ _ _ _ (λ _, true) 100); [by split|by vm_compute]|].
  apply rtc_refl.
Defined.

Lemma credit_grants_accepted_witness :
  length (cs_grants sample_system) = 1%nat ∧ os_remoteGranted (cs_owner sample_system) = 100 ∧
  ra_granted (cs_account sample_system) ≤ os_remoteGranted (cs_owner sample_system).
Proof.
  split; [by vm_compute|]. split; [by vm_compute|].
  apply (credit_grants_accepted sample_grant sample_system);
    [by vm_compute|apply sample_system_reachable].
Defined.
