(* ===== verification/Coordinator.v ===== *)
(** The server's peer-to-peer coordinator: [internal/server/p2p_coordinator.go]
    (pair sessions, tunnel grants, leases, signalling, final statistics and
    credit authorisation) with the snapshots, close messages and close reasons
    of [internal/server/p2p_lifecycle.go].

    Every exported operation of the coordinator runs with its mutex held, so it
    is one function on the state. A [*p2pPairSession] is a location: the two
    indices [byPair] and [byID] hold locations into a heap, and an update through
    one of them is seen through the other. [now] is the clock's reading while the
    mutex is held. *)
From Stdlib Require Import ZArith Lia Ascii String.
From stdpp Require Import base tactics numbers list gmap strings sorting relations.
From S2P Require Import Prelude GoStrings Protocol.

(** ** Constants *)

Definition p2pLeaseDuration : Z := 60 * second.
Definition p2pCandidateWindow : Z := 10 * second.
Definition p2pCandidatesPerWindow : Z := 64.
Definition p2pFinalStatsGrace : Z := 15 * second.

(** ** Data *)

Record p2pCandidateRate := { rate_windowStart : Z; rate_count : Z; rate_total : Z }.
Definition zero_rate : p2pCandidateRate :=
  {| rate_windowStart := 0; rate_count := 0; rate_total := 0 |}.

Record p2pGrantSpec := {
  gs_tunnelID : string; gs_ingressClientID : string; gs_targetClientID : string;
  gs_ownerUserID : string; gs_revision : Z; gs_ownerEpoch : Z;
  gs_ingressGeneration : Z; gs_targetGeneration : Z; gs_totalBPS : Z;
}.

Record p2pGrant := {
  g_sessionID : string; g_grantID : string; g_tunnelID : string; g_revision : Z;
  g_ingressClientID : string; g_targetClientID : string; g_sequence : Z;
  g_expiresAt : Z; g_totalBPS : Z;
}.

Definition forClient (g : p2pGrant) (clientID : string) : P2PTunnelGrant :=
  let '(localRole, peerRole) :=
    if clientID =?s g_ingressClientID g
    then (DataStreamRoleIngress, DataStreamRoleTarget)
    else (DataStreamRoleTarget, DataStreamRoleIngress) in
  {| tg_SessionID := g_sessionID g; tg_GrantID := g_grantID g; tg_TunnelID := g_tunnelID g;
     tg_Revision := g_revision g; tg_LocalRole := localRole; tg_PeerRole := peerRole;
     tg_LeaseSequence := g_sequence g; tg_ExpiresAt := g_expiresAt g;
     tg_TotalBPS := g_totalBPS g |}.

Record p2pStatsCursor := {
  sc_epoch : string; sc_sequence : Z; sc_ingress : Z; sc_egress : Z;
}.
Definition zero_cursor : p2pStatsCursor :=
  {| sc_epoch := ""; sc_sequence := 0; sc_ingress := 0; sc_egress := 0 |}.

Record p2pCreditCursor := { cc_sequence : Z; cc_cumulative : Z }.
Definition zero_credit : p2pCreditCursor := {| cc_sequence := 0; cc_cumulative := 0 |}.

Record p2pPairSession := PairSession {
  s_id : string; s_ownerUserID : string; s_ownerEpoch : Z;
  s_clientA : string; s_clientB : string; s_generationA : Z; s_generationB : Z;
  s_leaseSequence : Z; s_expiresAt : Z;
  s_grants : gmap string p2pGrant;
  s_lastSignal : gmap string Z; s_lastStatus : gmap string Z;
  s_candidates : gmap string p2pCandidateRate;
  s_ready : gmap string bool;
  s_stats : gmap string p2pStatsCursor;
  s_creditDemand : gmap string p2pCreditCursor;
  s_creditGrant : gmap string p2pCreditCursor;
}.

Record p2pClosedStatsGrant := {
  cl_grant : p2pGrant; cl_targetGeneration : Z; cl_cursor : p2pStatsCursor; cl_expiresAt : Z;
}.

(** The payload of an outbound control message. *)
Inductive p2pPayload :=
| PayPrepare (p : P2PSessionPrepare)
| PayLease (l : P2PLease)
| PayGrant (g : P2PTunnelGrant)
| PayRevoke (r : P2PTunnelRevoke)
| PayStatus (s : P2PSessionStatus).

Record p2pOutbound := {
  ob_clientID : string; ob_clientGeneration : Z; ob_ownerUserID : string; ob_ownerEpoch : Z;
  ob_messageType : string; ob_payload : p2pPayload;
}.

Record p2pParticipant := {
  pt_clientID : string; pt_clientGeneration : Z; pt_ownerUserID : string; pt_ownerEpoch : Z;
}.

(** [heap] holds every session ever allocated, [nextLoc] the next free location. *)
Record p2pCoordinator := {
  heap : gmap nat p2pPairSession; nextLoc : nat;
  byPair : gmap string nat; byID : gmap string nat;
  closedStats : gmap string p2pClosedStatsGrant;
}.

Definition newP2PCoordinator : p2pCoordinator :=
  {| heap := ∅; nextLoc := 0; byPair := ∅; byID := ∅; closedStats := ∅ |}.

(** A missing key of a Go map reads as the zero value. *)
Definition get_or {A} (zero : A) (m : gmap string A) (k : string) : A := default zero (m !! k).

(** ** Field updates of a session *)

Definition with_lease (s : p2pPairSession) (sequence expiresAt : Z) : p2pPairSession :=
  PairSession (s_id s) (s_ownerUserID s) (s_ownerEpoch s) (s_clientA s) (s_clientB s)
    (s_generationA s) (s_generationB s) sequence expiresAt (s_grants s)
    (s_lastSignal s) (s_lastStatus s) (s_candidates s) (s_ready s) (s_stats s)
    (s_creditDemand s) (s_creditGrant s).
Definition with_grants (s : p2pPairSession) (grants : gmap string p2pGrant) : p2pPairSession :=
  PairSession (s_id s) (s_ownerUserID s) (s_ownerEpoch s) (s_clientA s) (s_clientB s)
    (s_generationA s) (s_generationB s) (s_leaseSequence s) (s_expiresAt s) grants
    (s_lastSignal s) (s_lastStatus s) (s_candidates s) (s_ready s) (s_stats s)
    (s_creditDemand s) (s_creditGrant s).
Definition with_signal (s : p2pPairSession) (lastSignal : gmap string Z)
    (candidates : gmap string p2pCandidateRate) : p2pPairSession :=
  PairSession (s_id s) (s_ownerUserID s) (s_ownerEpoch s) (s_clientA s) (s_clientB s)
    (s_generationA s) (s_generationB s) (s_leaseSequence s) (s_expiresAt s) (s_grants s)
    lastSignal (s_lastStatus s) candidates (s_ready s) (s_stats s)
    (s_creditDemand s) (s_creditGrant s).
Definition with_ready (s : p2pPairSession) (lastStatus : gmap string Z)
    (ready : gmap string bool) : p2pPairSession :=
  PairSession (s_id s) (s_ownerUserID s) (s_ownerEpoch s) (s_clientA s) (s_clientB s)
    (s_generationA s) (s_generationB s) (s_leaseSequence s) (s_expiresAt s) (s_grants s)
    (s_lastSignal s) lastStatus (s_candidates s) ready (s_stats s)
    (s_creditDemand s) (s_creditGrant s).
Definition with_stats (s : p2pPairSession) (stats : gmap string p2pStatsCursor)
    : p2pPairSession :=
  PairSession (s_id s) (s_ownerUserID s) (s_ownerEpoch s) (s_clientA s) (s_clientB s)
    (s_generationA s) (s_generationB s) (s_leaseSequence s) (s_expiresAt s) (s_grants s)
    (s_lastSignal s) (s_lastStatus s) (s_candidates s) (s_ready s) stats
    (s_creditDemand s) (s_creditGrant s).
Definition with_credit (s : p2pPairSession) (demand grant : gmap string p2pCreditCursor)
    : p2pPairSession :=
  PairSession (s_id s) (s_ownerUserID s) (s_ownerEpoch s) (s_clientA s) (s_clientB s)
    (s_generationA s) (s_generationB s) (s_leaseSequence s) (s_expiresAt s) (s_grants s)
    (s_lastSignal s) (s_lastStatus s) (s_candidates s) (s_ready s) (s_stats s)
    demand grant.

Definition set_session (c : p2pCoordinator) (l : nat) (s : p2pPairSession) : p2pCoordinator :=
  {| heap := <[l := s]> (heap c); nextLoc := nextLoc c; byPair := byPair c; byID := byID c;
     closedStats := closedStats c |}.
Definition set_closed (c : p2pCoordinator) (m : gmap string p2pClosedStatsGrant)
    : p2pCoordinator :=
  {| heap := heap c; nextLoc := nextLoc c; byPair := byPair c; byID := byID c;
     closedStats := m |}.

(** [c.byID[id]] followed by the dereference of the pointer. *)
Definition lookup_id (c : p2pCoordinator) (id : string) : option (nat * p2pPairSession) :=
  l ← byID c !! id; s ← heap c !! l; Some (l, s).
Definition lookup_pair (c : p2pCoordinator) (key : string) : option (nat * p2pPairSession) :=
  l ← byPair c !! key; s ← heap c !! l; Some (l, s).

(** ** Lifecycle results (p2p_lifecycle.go) *)

Record p2pGrantSnapshot := {
  gn_TunnelID : string; gn_Revision : Z; gn_IngressClientID : string; gn_TargetClientID : string;
}.
Definition zero_grant_snapshot : p2pGrantSnapshot :=
  {| gn_TunnelID := ""; gn_Revision := 0; gn_IngressClientID := ""; gn_TargetClientID := "" |}.

Record p2pSessionSnapshot := {
  sn_SessionID : string; sn_ClientA : string; sn_ClientB : string;
  sn_GenerationA : Z; sn_GenerationB : Z; sn_LeaseSequence : Z; sn_Ready : bool;
  sn_Grants : list p2pGrantSnapshot;
}.
Definition zero_session_snapshot : p2pSessionSnapshot :=
  {| sn_SessionID := ""; sn_ClientA := ""; sn_ClientB := ""; sn_GenerationA := 0;
     sn_GenerationB := 0; sn_LeaseSequence := 0; sn_Ready := false; sn_Grants := [] |}.

Record P2PProjectionTransition := { tr_Mode : string; tr_SessionID : string }.
Definition P2PProjectionGathering : string := "gathering".
Definition P2PProjectionReady : string := "ready".
Definition P2PProjectionFailed : string := "failed".
Definition P2PProjectionClosed : string := "closed".
Definition zero_transition : P2PProjectionTransition := {| tr_Mode := ""; tr_SessionID := "" |}.
Definition p2pClosedProjectionTransition (reason : string) : P2PProjectionTransition :=
  {| tr_Mode := P2PProjectionClosed; tr_SessionID := "" |}.

Record p2pLifecycleResult := {
  lr_Session : p2pSessionSnapshot; lr_Grant : p2pGrantSnapshot; lr_HasGrant : bool;
  lr_SessionCreated : bool; lr_GrantCreated : bool; lr_ReportAccepted : bool;
  lr_ReadyEdge : bool; lr_FailedEdge : bool; lr_DetachedEdge : bool; lr_ClosedEdge : bool;
  lr_StatusState : string; lr_ReasonCode : string;
  lr_ActivityActions : gmap string (list p2pGrantSnapshot);
  lr_Sequence : Z; lr_Transition : P2PProjectionTransition; lr_ExpectedSessionID : string;
  lr_Outbounds : list p2pOutbound;
}.
Definition zero_lifecycle : p2pLifecycleResult :=
  {| lr_Session := zero_session_snapshot; lr_Grant := zero_grant_snapshot; lr_HasGrant := false;
     lr_SessionCreated := false; lr_GrantCreated := false; lr_ReportAccepted := false;
     lr_ReadyEdge := false; lr_FailedEdge := false; lr_DetachedEdge := false;
     lr_ClosedEdge := false; lr_StatusState := ""; lr_ReasonCode := "";
     lr_ActivityActions := ∅; lr_Sequence := 0; lr_Transition := zero_transition;
     lr_ExpectedSessionID := ""; lr_Outbounds := [] |}.

Record p2pRenewResult := {
  rr_Outbounds : list p2pOutbound; rr_Closed : list p2pLifecycleResult;
}.

Definition snapshotP2PGrant (grant : p2pGrant) : p2pGrantSnapshot :=
  {| gn_TunnelID := g_tunnelID grant; gn_Revision := g_revision grant;
     gn_IngressClientID := g_ingressClientID grant; gn_TargetClientID := g_targetClientID grant |}.

(** The comparison of [snapshotP2PSession]'s sort: tunnel, then revision. *)
Definition snapshot_le (x y : p2pGrantSnapshot) : Prop :=
  if gn_TunnelID x =?s gn_TunnelID y then gn_Revision x ≤ gn_Revision y
  else String.le (gn_TunnelID x) (gn_TunnelID y).
#[export] Instance snapshot_le_dec x y : Decision (snapshot_le x y).
Proof. unfold snapshot_le. destruct (_ =?s _); apply _. Defined.

Definition both_ready (s : p2pPairSession) : bool :=
  get_or false (s_ready s) (s_clientA s) && get_or false (s_ready s) (s_clientB s).

Definition normalizeP2PCloseReason (lower : string → string) (reason state : string) : string :=
  let reason := lower (trim_space reason) in
  if state =?s P2PStateFailed then "negotiation_failed"%string else
  if contains reason "offline" || contains reason "disconnect"
     || contains reason "session_released" then "participant_offline"%string else
  if contains reason "unhealthy" then "lease_unhealthy"%string else
  if contains reason "expired" then "lease_expired"%string else
  if contains reason "stop" || contains reason "disabled" then "tunnel_stopped"%string else
  if contains reason "delete" then "tunnel_deleted"%string else
  if contains reason "revision" || contains reason "replace" then "revision_replaced"%string
  else "unknown"%string.

Definition participant (s : p2pPairSession) (clientID : string) : p2pParticipant :=
  {| pt_clientID := clientID;
     pt_clientGeneration := if clientID =?s s_clientB s then s_generationB s else s_generationA s;
     pt_ownerUserID := s_ownerUserID s; pt_ownerEpoch := s_ownerEpoch s |}.

Definition outbound (s : p2pPairSession) (clientID messageType : string) (payload : p2pPayload)
    : p2pOutbound :=
  let p := participant s clientID in
  {| ob_clientID := pt_clientID p; ob_clientGeneration := pt_clientGeneration p;
     ob_ownerUserID := pt_ownerUserID p; ob_ownerEpoch := pt_ownerEpoch p;
     ob_messageType := messageType; ob_payload := payload |}.

Definition p2pClosedOutbounds (s : p2pPairSession) (reason : string) : list p2pOutbound :=
  let status := {| st_SessionID := s_id s; st_Sequence := u64_succ (s_leaseSequence s);
                   st_State := P2PStateClosed; st_Error := reason |} in
  [outbound s (s_clientA s) MsgTypeP2PClosed (PayStatus status);
   outbound s (s_clientB s) MsgTypeP2PClosed (PayStatus status)].

(** ** Pair keys *)

Definition NUL : string := String.String "000"%char String.EmptyString.
Definition pair_key (a b : string) : string := a +:+ NUL +:+ b.
Definition session_key (s : p2pPairSession) : string := pair_key (s_clientA s) (s_clientB s).

Definition normalizeP2PPair (spec : p2pGrantSpec) : string * string * Z * Z :=
  if gs_ingressClientID spec <?s gs_targetClientID spec
  then (gs_ingressClientID spec, gs_targetClientID spec,
        gs_ingressGeneration spec, gs_targetGeneration spec)
  else (gs_targetClientID spec, gs_ingressClientID spec,
        gs_targetGeneration spec, gs_ingressGeneration spec).

(** ** Operations *)

Section ops.
(** The order of [range] over a map, the clock, and [strings.ToLower]. *)
Context (o : range_order) (now : Z) (lower : string → string).

Definition snapshotP2PSession (s : p2pPairSession) : p2pSessionSnapshot :=
  {| sn_SessionID := s_id s; sn_ClientA := s_clientA s; sn_ClientB := s_clientB s;
     sn_GenerationA := s_generationA s; sn_GenerationB := s_generationB s;
     sn_LeaseSequence := s_leaseSequence s; sn_Ready := both_ready s;
     sn_Grants := merge_sort snapshot_le
                    ((λ kg, snapshotP2PGrant kg.2) <$> range o (s_grants s)) |}.

Definition closed_grant (s : p2pPairSession) (grant : p2pGrant) : p2pClosedStatsGrant :=
  let targetGeneration :=
    if g_targetClientID grant =?s s_clientB s then s_generationB s else s_generationA s in
  {| cl_grant := grant; cl_targetGeneration := targetGeneration;
     cl_cursor := get_or zero_cursor (s_stats s) (g_grantID grant);
     cl_expiresAt := now + p2pFinalStatsGrace |}.

Definition archiveGrant (s : p2pPairSession) (closed : gmap string p2pClosedStatsGrant)
    (grant : p2pGrant) : gmap string p2pClosedStatsGrant :=
  <[g_grantID grant := closed_grant s grant]> closed.

Definition deleteSession (c : p2pCoordinator) (s : p2pPairSession) : p2pCoordinator :=
  {| heap := heap c; nextLoc := nextLoc c;
     byPair := delete (session_key s) (byPair c); byID := delete (s_id s) (byID c);
     closedStats := foldl (λ m kg, archiveGrant s m kg.2) (closedStats c)
                      (range o (s_grants s)) |}.

Definition expireClosedStats (c : p2pCoordinator) : p2pCoordinator :=
  set_closed c (filter (λ kc, now < cl_expiresAt kc.2) (closedStats c)).

(** What a closed session reports: the record [closeSession], [closeClients],
    [closeClient] and [renew] fill in. *)
Definition closed_result (s : p2pPairSession) (reasonCode reason : string)
    (outbounds : list p2pOutbound) : p2pLifecycleResult :=
  {| lr_Session := snapshotP2PSession s; lr_Grant := zero_grant_snapshot;
     lr_HasGrant := false; lr_SessionCreated := false; lr_GrantCreated := false;
     lr_ReportAccepted := false; lr_ReadyEdge := false; lr_FailedEdge := false;
     lr_DetachedEdge := false; lr_ClosedEdge := true; lr_StatusState := P2PStateClosed;
     lr_ReasonCode := reasonCode; lr_ActivityActions := ∅;
     lr_Sequence := u64_succ (s_leaseSequence s);
     lr_Transition := p2pClosedProjectionTransition reason;
     lr_ExpectedSessionID := s_id s; lr_Outbounds := outbounds |}.

Definition new_session (id a b : string) (genA genB : Z) (spec : p2pGrantSpec)
    : p2pPairSession :=
  PairSession id (gs_ownerUserID spec) (gs_ownerEpoch spec) a b genA genB
    1 (now + p2pLeaseDuration) ∅ ∅ ∅ ∅ ∅ ∅ ∅ ∅.

Definition new_grant (s : p2pPairSession) (grantID : string) (spec : p2pGrantSpec) : p2pGrant :=
  {| g_sessionID := s_id s; g_grantID := grantID; g_tunnelID := gs_tunnelID spec;
     g_revision := gs_revision spec; g_ingressClientID := gs_ingressClientID spec;
     g_targetClientID := gs_targetClientID spec; g_sequence := 1;
     g_expiresAt := now + p2pLeaseDuration; g_totalBPS := gs_totalBPS spec |}.

Definition grant_result (s : p2pPairSession) (grant : p2pGrant)
    (sessionCreated grantCreated : bool) (sequence : Z) : p2pLifecycleResult :=
  {| lr_Session := snapshotP2PSession s; lr_Grant := snapshotP2PGrant grant;
     lr_HasGrant := true; lr_SessionCreated := sessionCreated;
     lr_GrantCreated := grantCreated; lr_ReportAccepted := false; lr_ReadyEdge := false;
     lr_FailedEdge := false; lr_DetachedEdge := false; lr_ClosedEdge := false;
     lr_StatusState := ""; lr_ReasonCode := ""; lr_ActivityActions := ∅;
     lr_Sequence := sequence; lr_Transition := zero_transition;
     lr_ExpectedSessionID := ""; lr_Outbounds := [] |}.

Definition check_grant_spec (spec : p2pGrantSpec) : result unit :=
  if (gs_tunnelID spec =?s "") || (gs_revision spec <=? 0)
     || (gs_ingressClientID spec =?s "") || (gs_targetClientID spec =?s "")
     || (gs_ingressClientID spec =?s gs_targetClientID spec)
  then Err (Errorf "invalid p2p grant spec" []) else
  if (gs_ingressGeneration spec =? 0) || (gs_targetGeneration spec =? 0)
  then Err (Errorf "p2p client generations must be positive" []) else
  if negb (Bool.eqb (gs_ownerUserID spec =?s "") (gs_ownerEpoch spec =? 0))
  then Err (Errorf "p2p owner identity and epoch must be provided together" []) else
  if gs_totalBPS spec <? 0
  then Err (Errorf "p2p total_bps must be non-negative" []) else Ok tt.

Definition session_matches (s : p2pPairSession) (genA genB : Z) (spec : p2pGrantSpec) : bool :=
  negb (negb (s_generationA s =? genA) || negb (s_generationB s =? genB)
        || negb (s_ownerUserID s =?s gs_ownerUserID spec)
        || negb (s_ownerEpoch s =? gs_ownerEpoch spec)).

(** The last part of [ensureGrant]: the grant for the session at [l]. *)
Definition ensure_in_session (c : p2pCoordinator) (l : nat) (s : p2pPairSession)
    (createdSession : bool) (spec : p2pGrantSpec) (gid : result string)
    : p2pCoordinator * result (p2pGrant * p2pLifecycleResult) :=
  let create :=
    match gid with
    | Err e => (c, Err e)
    | Ok grantID =>
        let grant := new_grant s grantID spec in
        let s := if createdSession then s
                 else with_lease s (u64_succ (s_leaseSequence s)) (now + p2pLeaseDuration) in
        let s := with_grants s (<[gs_tunnelID spec := grant]> (s_grants s)) in
        (set_session c l s,
         Ok (grant, grant_result s grant createdSession true (s_leaseSequence s)))
    end in
  match s_grants s !! gs_tunnelID spec with
  | Some current =>
      if g_revision current =? gs_revision spec
      then (c, Ok (current, grant_result s current false false 0))
      else create
  | None => create
  end.

(** [sid] and [gid] are the results of the (at most two) calls of [newP2PID]. *)
Definition ensureGrant (c : p2pCoordinator) (spec : p2pGrantSpec)
    (sid gid : result string) : p2pCoordinator * result (p2pGrant * p2pLifecycleResult) :=
  match check_grant_spec spec with
  | Err e => (c, Err e)
  | Ok _ =>
    let '(a, b, genA, genB) := normalizeP2PPair spec in
    let key := pair_key a b in
    let create c :=
      match sid with
      | Err e => (c, Err e)
      | Ok id =>
          let s := new_session id a b genA genB spec in
          let l := nextLoc c in
          ensure_in_session
            {| heap := <[l := s]> (heap c); nextLoc := S l;
               byPair := <[key := l]> (byPair c); byID := <[id := l]> (byID c);
               closedStats := closedStats c |} l s true spec gid
      end in
    match lookup_pair c key with
    | Some (l, s) =>
        if session_matches s genA genB spec then ensure_in_session c l s false spec gid
        else create (deleteSession c s)
    | None => create c
    end
  end.

(** [s == nil || !s.expiresAt.After(c.now())] is the usual guard. *)
Definition live_session (c : p2pCoordinator) (id : string) : option (nat * p2pPairSession) :=
  match lookup_id c id with
  | Some (l, s) => if time_after (s_expiresAt s) now then Some (l, s) else None
  | None => None
  end.

Definition errNoSession : goerror := Errorf "unknown or expired p2p session" [].

Definition signal_peer (s : p2pPairSession) (clientID : string) (generation : Z)
    : option string :=
  if (clientID =?s s_clientA s) && (generation =? s_generationA s) then Some (s_clientB s) else
  if (clientID =?s s_clientB s) && (generation =? s_generationB s) then Some (s_clientA s)
  else None.

(** The candidate limiter inside [authorizeSignal]. *)
Definition admit_candidate (rate : p2pCandidateRate) : result p2pCandidateRate :=
  let rate := if is_zero_time (rate_windowStart rate)
                 || (p2pCandidateWindow <=? now - rate_windowStart rate)
              then {| rate_windowStart := now; rate_count := 0; rate_total := rate_total rate |}
              else rate in
  if P2PMaxCandidates <=? rate_total rate
  then Err (Errorf "p2p candidate limit exceeded" []) else
  if p2pCandidatesPerWindow <=? rate_count rate
  then Err (Errorf "p2p candidate rate limit exceeded" []) else
  Ok {| rate_windowStart := rate_windowStart rate; rate_count := rate_count rate + 1;
        rate_total := rate_total rate + 1 |}.

Definition authorizeSignal (c : p2pCoordinator) (clientID : string) (generation : Z)
    (signal : P2PSignal) : p2pCoordinator * result p2pParticipant :=
  match P2PSignal_Validate signal with
  | Err e => (c, Err e)
  | Ok _ =>
    match live_session c (sig_SessionID signal) with
    | None => (c, Err errNoSession)
    | Some (l, s) =>
      match signal_peer s clientID generation with
      | None => (c, Err (Errorf "p2p signal sender does not match current session generation" []))
      | Some peer =>
        if sig_Sequence signal <=? get_or 0 (s_lastSignal s) clientID
        then (c, Err (Errorf "stale p2p signal sequence" [])) else
        if ((sig_Kind signal =?s P2PSignalOffer) && negb (clientID =?s s_clientA s))
           || ((sig_Kind signal =?s P2PSignalAnswer) && negb (clientID =?s s_clientB s))
        then (c, Err (Errorf "p2p description sender role mismatch" [])) else
        let lastSignal := <[clientID := sig_Sequence signal]> (s_lastSignal s) in
        if sig_Kind signal =?s P2PSignalCandidate then
          match admit_candidate (get_or zero_rate (s_candidates s) clientID) with
          | Err e => (c, Err e)
          | Ok rate =>
              let s' := with_signal s lastSignal (<[clientID := rate]> (s_candidates s)) in
              (set_session c l s', Ok (participant s' peer))
          end
        else
          let s' := with_signal s lastSignal (s_candidates s) in
          (set_session c l s', Ok (participant s' peer))
      end
    end
  end.

Definition prepareMessagesLocked (s : p2pPairSession) : list p2pOutbound :=
  let message clientID peerID role localGen peerGen :=
    PayPrepare
      {| sp_SessionID := s_id s; sp_PeerClientID := peerID; sp_Role := role;
         sp_LocalGeneration := localGen; sp_PeerGeneration := peerGen;
         sp_LeaseSequence := s_leaseSequence s; sp_ExpiresAt := s_expiresAt s;
         sp_ICEServers := [];
         sp_Grants := sort_by tg_TunnelID
                        ((λ kg, forClient kg.2 clientID) <$> range o (s_grants s)) |} in
  [outbound s (s_clientA s) MsgTypeP2PSessionPrepare
     (message (s_clientA s) (s_clientB s) P2PRoleOfferer (s_generationA s) (s_generationB s));
   outbound s (s_clientB s) MsgTypeP2PSessionPrepare
     (message (s_clientB s) (s_clientA s) P2PRoleAnswerer (s_generationB s) (s_generationA s))].

Definition prepareMessages (c : p2pCoordinator) (sessionID : string) : result (list p2pOutbound) :=
  match lookup_id c sessionID with
  | None => Err (Errorf "unknown p2p session" [])
  | Some (_, s) => Ok (prepareMessagesLocked s)
  end.

(** *** Lease renewal *)

Definition renew_grant (s : p2pPairSession) (grant : p2pGrant) : p2pGrant :=
  {| g_sessionID := g_sessionID grant; g_grantID := g_grantID grant;
     g_tunnelID := g_tunnelID grant; g_revision := g_revision grant;
     g_ingressClientID := g_ingressClientID grant; g_targetClientID := g_targetClientID grant;
     g_sequence := u64_succ (g_sequence grant); g_expiresAt := s_expiresAt s;
     g_totalBPS := g_totalBPS grant |}.

Definition renew_grant_messages (s : p2pPairSession) (grant : p2pGrant) : list p2pOutbound :=
  let grant := renew_grant s grant in
  [outbound s (s_clientA s) MsgTypeP2PTunnelGrant (PayGrant (forClient grant (s_clientA s)));
   outbound s (s_clientB s) MsgTypeP2PTunnelGrant (PayGrant (forClient grant (s_clientB s)))].

Definition renew_session (s : p2pPairSession) : p2pPairSession * list p2pOutbound :=
  let s := with_lease s (u64_succ (s_leaseSequence s)) (now + p2pLeaseDuration) in
  let lease := PayLease {| le_SessionID := s_id s; le_Sequence := s_leaseSequence s;
                           le_ExpiresAt := s_expiresAt s |} in
  (with_grants s (renew_grant s <$> s_grants s),
   [outbound s (s_clientA s) MsgTypeP2PLease lease; outbound s (s_clientB s) MsgTypeP2PLease lease]
     ++ mjoin ((λ kg, renew_grant_messages s kg.2) <$> range o (s_grants s))).

(** The body of [renew]'s loop over [byID]. *)
Definition renew_one (healthy : option (string → Z → bool))
    (st : p2pCoordinator * p2pRenewResult) (entry : string * nat)
    : p2pCoordinator * p2pRenewResult :=
  let '(c, r) := st in
  match heap c !! entry.2 with
  | None => (c, r)
  | Some s =>
      let close reason :=
        (deleteSession c s,
         {| rr_Outbounds := rr_Outbounds r;
            rr_Closed := rr_Closed r ++
              [closed_result s reason reason (p2pClosedOutbounds s reason)] |}) in
      let unhealthy :=
        match healthy with
        | Some h => negb (h (s_clientA s) (s_generationA s))
                    || negb (h (s_clientB s) (s_generationB s))
        | None => false
        end in
      if unhealthy then close "lease_unhealthy"%string else
      if negb (time_after (s_expiresAt s) now) then close "lease_expired"%string else
      let '(s', messages) := renew_session s in
      (set_session c entry.2 s',
       {| rr_Outbounds := rr_Outbounds r ++ messages; rr_Closed := rr_Closed r |})
  end.

Definition renew (c : p2pCoordinator) (healthy : option (string → Z → bool))
    : p2pCoordinator * p2pRenewResult :=
  let c := expireClosedStats c in
  foldl (renew_one healthy) (c, {| rr_Outbounds := []; rr_Closed := [] |}) (range o (byID c)).

(** *** Closing sessions *)

Definition closeClient_one (clientID : string) (generation : Z) (reason : string)
    (st : p2pCoordinator * list p2pLifecycleResult) (entry : string * nat)
    : p2pCoordinator * list p2pLifecycleResult :=
  let '(c, results) := st in
  match heap c !! entry.2 with
  | None => (c, results)
  | Some s =>
      if (negb (s_clientA s =?s clientID) || negb (s_generationA s =? generation))
         && (negb (s_clientB s =?s clientID) || negb (s_generationB s =? generation))
      then (c, results) else
      let outbounds := p2pClosedOutbounds s reason in
      let outbounds := if s_clientA s =?s clientID then drop 1 outbounds
                       else take 1 outbounds in
      (deleteSession c s,
       results ++ [closed_result s (normalizeP2PCloseReason lower reason P2PStateClosed)
                     reason outbounds])
  end.

Definition closeClient (c : p2pCoordinator) (clientID : string) (generation : Z)
    (reason : string) : p2pCoordinator * list p2pLifecycleResult :=
  foldl (closeClient_one clientID generation reason) (c, []) (range o (byID c)).

Definition generation_matches (participants : gmap string Z) (clientID : string)
    (generation : Z) : bool :=
  match participants !! clientID with
  | Some generation' => generation' =? generation
  | None => false
  end.

Definition closeClients_one (ownerUserID : string) (participants : gmap string Z)
    (reason : string) (st : p2pCoordinator * list p2pLifecycleResult) (entry : string * nat)
    : p2pCoordinator * list p2pLifecycleResult :=
  let '(c, results) := st in
  match heap c !! entry.2 with
  | None => (c, results)
  | Some s =>
      if (ownerUserID =?s "") || negb (s_ownerUserID s =?s ownerUserID) then (c, results) else
      if negb (generation_matches participants (s_clientA s) (s_generationA s))
         && negb (generation_matches participants (s_clientB s) (s_generationB s))
      then (c, results) else
      (deleteSession c s,
       results ++ [closed_result s (normalizeP2PCloseReason lower reason P2PStateClosed)
                     reason (p2pClosedOutbounds s reason)])
  end.

Definition closeClients (c : p2pCoordinator) (ownerUserID : string)
    (participants : gmap string Z) (reason : string)
    : p2pCoordinator * list p2pLifecycleResult :=
  foldl (closeClients_one ownerUserID participants reason) (c, []) (range o (byID c)).

Definition closeSession (c : p2pCoordinator) (sessionID reason : string)
    : p2pCoordinator * p2pLifecycleResult :=
  match lookup_id c sessionID with
  | None => (c, zero_lifecycle)
  | Some (_, s) =>
      (deleteSession c s,
       closed_result s (normalizeP2PCloseReason lower reason P2PStateClosed) reason
         (p2pClosedOutbounds s reason))
  end.

(** *** Status reports *)

Definition matchesGeneration (s : p2pPairSession) (clientID : string) (generation : Z) : bool :=
  ((s_clientA s =?s clientID) && (s_generationA s =? generation))
  || ((s_clientB s =?s clientID) && (s_generationB s =? generation)).

Definition recordReady (c : p2pCoordinator) (clientID : string) (generation : Z)
    (status : P2PSessionStatus) : p2pCoordinator * result p2pLifecycleResult :=
  match P2PSessionStatus_Validate status with
  | Err e => (c, Err e)
  | Ok _ =>
    if st_State status =?s P2PStateClosed
    then (c, Err (Errorf "client cannot report closed p2p status" [])) else
    match live_session c (st_SessionID status) with
    | None => (c, Err errNoSession)
    | Some (l, s) =>
      if (negb (clientID =?s s_clientA s) || negb (generation =? s_generationA s))
         && (negb (clientID =?s s_clientB s) || negb (generation =? s_generationB s))
      then (c, Err (Errorf "p2p status sender mismatch" [])) else
      if st_Sequence status <=? get_or 0 (s_lastStatus s) clientID
      then (c, Err (Errorf "stale p2p status sequence" [])) else
      let s' := with_ready s (<[clientID := st_Sequence status]> (s_lastStatus s))
                  (<[clientID := st_State status =?s P2PStateConnected]> (s_ready s)) in
      (set_session c l s',
       Ok {| lr_Session := snapshotP2PSession s'; lr_Grant := zero_grant_snapshot;
             lr_HasGrant := false; lr_SessionCreated := false; lr_GrantCreated := false;
             lr_ReportAccepted := true; lr_ReadyEdge := negb (both_ready s) && both_ready s';
             lr_FailedEdge := st_State status =?s P2PStateFailed;
             lr_DetachedEdge := false; lr_ClosedEdge := false;
             lr_StatusState := st_State status;
             lr_ReasonCode := normalizeP2PCloseReason lower (st_Error status) (st_State status);
             lr_ActivityActions := ∅; lr_Sequence := st_Sequence status;
             lr_Transition := zero_transition; lr_ExpectedSessionID := "";
             lr_Outbounds := [] |})
    end
  end.

(** *** Traffic statistics *)

Definition report_cursor (report : P2PStatsReport) : p2pStatsCursor :=
  {| sc_epoch := sr_Epoch report; sc_sequence := sr_Sequence report;
     sc_ingress := sr_IngressBytes report; sc_egress := sr_EgressBytes report |}.

Definition acceptClosedStats (c : p2pCoordinator) (clientID : string) (generation : Z)
    (report : P2PStatsReport) : p2pCoordinator * result (Z * Z) :=
  match closedStats c !! sr_GrantID report with
  | None => (c, Err errNoSession)
  | Some closed =>
    if negb (time_after (cl_expiresAt closed) now)
       || negb (g_sessionID (cl_grant closed) =?s sr_SessionID report)
       || negb (g_tunnelID (cl_grant closed) =?s sr_TunnelID report)
       || negb (g_revision (cl_grant closed) =? sr_Revision report)
    then (c, Err errNoSession) else
    if negb (clientID =?s g_targetClientID (cl_grant closed))
       || negb (generation =? cl_targetGeneration closed)
    then (c, Err (Errorf "p2p final stats sender is not tunnel owner" [])) else
    let cursor := cl_cursor closed in
    if negb (sc_sequence cursor =? 0) && negb (sc_epoch cursor =?s sr_Epoch report)
    then (c, Err (Errorf "p2p final stats epoch changed" [])) else
    if (sr_Sequence report <=? sc_sequence cursor)
       || (sr_IngressBytes report <? sc_ingress cursor)
       || (sr_EgressBytes report <? sc_egress cursor)
    then (c, Err (Errorf "stale p2p final stats" [])) else
    (set_closed c
       (<[sr_GrantID report :=
            {| cl_grant := cl_grant closed; cl_targetGeneration := cl_targetGeneration closed;
               cl_cursor := report_cursor report; cl_expiresAt := cl_expiresAt closed |}]>
          (closedStats c)),
     Ok (u64_sub (sr_IngressBytes report) (sc_ingress cursor),
         u64_sub (sr_EgressBytes report) (sc_egress cursor)))
  end.

Definition live_grant (s : p2pPairSession) (report : P2PStatsReport) : option p2pGrant :=
  match s_grants s !! sr_TunnelID report with
  | Some grant =>
      if negb (g_grantID grant =?s sr_GrantID report)
         || negb (g_revision grant =? sr_Revision report)
         || negb (time_after (g_expiresAt grant) now)
      then None else Some grant
  | None => None
  end.

Definition acceptStats (c : p2pCoordinator) (clientID : string) (generation : Z)
    (report : P2PStatsReport) : p2pCoordinator * result (Z * Z) :=
  match P2PStatsReport_Validate report with
  | Err e => (c, Err e)
  | Ok _ =>
    match live_session c (sr_SessionID report) with
    | None => acceptClosedStats c clientID generation report
    | Some (l, s) =>
      match live_grant s report with
      | None => acceptClosedStats c clientID generation report
      | Some grant =>
        let targetGeneration :=
          if g_targetClientID grant =?s s_clientB s then s_generationB s
          else s_generationA s in
        if negb (clientID =?s g_targetClientID grant) || negb (generation =? targetGeneration)
        then (c, Err (Errorf "p2p stats sender is not tunnel owner" [])) else
        let cursor := get_or zero_cursor (s_stats s) (g_grantID grant) in
        if negb (sc_sequence cursor =? 0) && negb (sc_epoch cursor =?s sr_Epoch report)
        then (c, Err (Errorf "p2p stats epoch changed" [])) else
        if sr_Sequence report <=? sc_sequence cursor
        then (c, Err (Errorf "stale p2p stats sequence" [])) else
        if (sr_IngressBytes report <? sc_ingress cursor)
           || (sr_EgressBytes report <? sc_egress cursor)
        then (c, Err (Errorf "p2p cumulative counters decreased" [])) else
        (set_session c l
           (with_stats s (<[g_grantID grant := report_cursor report]> (s_stats s))),
         Ok (u64_sub (sr_IngressBytes report) (sc_ingress cursor),
             u64_sub (sr_EgressBytes report) (sc_egress cursor)))
      end
    end
  end.

(** *** Credit authorisation *)

Definition creditGrantLocked (c : p2pCoordinator) (sessionID grantID tunnelID : string)
    (revision : Z) : result (nat * p2pPairSession * p2pGrant) :=
  match live_session c sessionID with
  | None => Err errNoSession
  | Some (l, s) =>
    match s_grants s !! tunnelID with
    | None => Err (Errorf "unknown, unlimited, or expired p2p grant" [])
    | Some grant =>
        if negb (g_grantID grant =?s grantID) || negb (g_revision grant =? revision)
           || (g_totalBPS grant <=? 0) || negb (time_after (g_expiresAt grant) now)
        then Err (Errorf "unknown, unlimited, or expired p2p grant" [])
        else Ok (l, s, grant)
    end
  end.

Definition authorizeCreditDemand (c : p2pCoordinator) (clientID : string) (generation : Z)
    (demand : P2PCreditDemand) : p2pCoordinator * result p2pParticipant :=
  match P2PCreditDemand_Validate demand with
  | Err e => (c, Err e)
  | Ok _ =>
    match creditGrantLocked c (cd_SessionID demand) (cd_GrantID demand) (cd_TunnelID demand)
            (cd_Revision demand) with
    | Err e => (c, Err e)
    | Ok (l, s, grant) =>
      if negb (clientID =?s g_ingressClientID grant) || negb (matchesGeneration s clientID generation)
      then (c, Err (Errorf "p2p credit demand sender is not ingress" [])) else
      let cursor := get_or zero_credit (s_creditDemand s) (g_grantID grant) in
      if (cd_Sequence demand <=? cc_sequence cursor)
         || (cd_DesiredBytes demand <? cc_cumulative cursor)
      then (c, Err (Errorf "stale p2p credit demand" [])) else
      let s' := with_credit s
                  (<[g_grantID grant := {| cc_sequence := cd_Sequence demand;
                                           cc_cumulative := cd_DesiredBytes demand |}]>
                     (s_creditDemand s)) (s_creditGrant s) in
      (set_session c l s', Ok (participant s' (g_targetClientID grant)))
    end
  end.

Definition authorizeCreditGrant (c : p2pCoordinator) (clientID : string) (generation : Z)
    (credit : P2PCreditGrant) : p2pCoordinator * result p2pParticipant :=
  match P2PCreditGrant_Validate credit with
  | Err e => (c, Err e)
  | Ok _ =>
    match creditGrantLocked c (cg_SessionID credit) (cg_GrantID credit) (cg_TunnelID credit)
            (cg_Revision credit) with
    | Err e => (c, Err e)
    | Ok (l, s, grant) =>
      if negb (clientID =?s g_targetClientID grant) || negb (matchesGeneration s clientID generation)
      then (c, Err (Errorf "p2p credit grant sender is not owner" [])) else
      let cursor := get_or zero_credit (s_creditGrant s) (g_grantID grant) in
      if (cg_Sequence credit <=? cc_sequence cursor)
         || (cg_GrantedBytes credit <? cc_cumulative cursor)
         || (cc_cumulative (get_or zero_credit (s_creditDemand s) (g_grantID grant))
             <? cg_GrantedBytes credit)
      then (c, Err (Errorf "invalid or stale p2p credit grant" [])) else
      let s' := with_credit s (s_creditDemand s)
                  (<[g_grantID grant := {| cc_sequence := cg_Sequence credit;
                                           cc_cumulative := cg_GrantedBytes credit |}]>
                     (s_creditGrant s)) in
      (set_session c l s', Ok (participant s' (g_ingressClientID grant)))
    end
  end.

(** *** Revocation and expiry *)

(** The first session of the iteration that holds the tunnel at a revision not
    above [revision] ([revision <= 0] stands for any). *)
Fixpoint find_tunnel (c : p2pCoordinator) (entries : list (string * nat)) (tunnelID : string)
    (revision : Z) : option (nat * p2pPairSession * p2pGrant) :=
  match entries with
  | [] => None
  | (_, l) :: rest =>
      match heap c !! l with
      | None => find_tunnel c rest tunnelID revision
      | Some candidate =>
          match s_grants candidate !! tunnelID with
          | Some g => if (revision <=? 0) || (g_revision g <=? revision)
                      then Some (l, candidate, g) else find_tunnel c rest tunnelID revision
          | None => find_tunnel c rest tunnelID revision
          end
      end
  end.

Definition revokeTunnel (c : p2pCoordinator) (tunnelID : string) (revision : Z)
    (reason : string) : p2pCoordinator * p2pLifecycleResult :=
  match find_tunnel c (range o (byID c)) tunnelID revision with
  | None => (c, zero_lifecycle)
  | Some (l, session, grant) =>
      let s := with_grants session (delete tunnelID (s_grants session)) in
      let c := set_session c l s in
      let c := set_closed c (archiveGrant s (closedStats c) grant) in
      let revoke := PayRevoke {| rv_SessionID := s_id s; rv_GrantID := g_grantID grant;
                                 rv_TunnelID := g_tunnelID grant; rv_Revision := g_revision grant;
                                 rv_Reason := reason |} in
      let closed := bool_decide (s_grants s = ∅) in
      let outbounds := [outbound s (s_clientA s) MsgTypeP2PTunnelRevoke revoke;
                        outbound s (s_clientB s) MsgTypeP2PTunnelRevoke revoke]
                       ++ (if closed then p2pClosedOutbounds s reason else []) in
      (if closed then deleteSession c s else c,
       {| lr_Session := snapshotP2PSession session; lr_Grant := snapshotP2PGrant grant;
          lr_HasGrant := true; lr_SessionCreated := false; lr_GrantCreated := false;
          lr_ReportAccepted := false; lr_ReadyEdge := false; lr_FailedEdge := false;
          lr_DetachedEdge := true; lr_ClosedEdge := closed; lr_StatusState := P2PStateClosed;
          lr_ReasonCode := normalizeP2PCloseReason lower reason P2PStateClosed;
          lr_ActivityActions := ∅; lr_Sequence := u64_succ (s_leaseSequence s);
          lr_Transition := p2pClosedProjectionTransition reason;
          lr_ExpectedSessionID := s_id s; lr_Outbounds := outbounds |})
  end.

Definition expire_one (st : p2pCoordinator * list string) (entry : string * nat)
    : p2pCoordinator * list string :=
  let '(c, expired) := st in
  match heap c !! entry.2 with
  | None => (c, expired)
  | Some s => if negb (time_after (s_expiresAt s) now)
              then (deleteSession c s, expired ++ [s_id s]) else (c, expired)
  end.

Definition expire (c : p2pCoordinator) : p2pCoordinator * list string :=
  let c := expireClosedStats c in
  let '(c, expired) := foldl expire_one (c, []) (range o (byID c)) in
  (c, merge_sort String.le expired).

(** *** Queries *)

Definition sessionCount (c : p2pCoordinator) : nat := size (byID c).

Definition sessionReady (c : p2pCoordinator) (sessionID : string) : bool :=
  match live_session c sessionID with
  | Some (_, s) => both_ready s
  | None => false
  end.

Definition statsForTunnel (c : p2pCoordinator) (sessionID tunnelID : string)
    : Z * Z * bool :=
  match lookup_id c sessionID with
  | None => (0, 0, false)
  | Some (_, s) =>
      match s_grants s !! tunnelID with
      | None => (0, 0, false)
      | Some grant =>
          let cursor := get_or zero_cursor (s_stats s) (g_grantID grant) in
          (sc_ingress cursor, sc_egress cursor, bool_decide (is_Some (s_stats s !! g_grantID grant)))
      end
  end.
End ops.

(** *** Operations as data *)

Inductive coord_op :=
| OpEnsure (spec : p2pGrantSpec) (sid gid : result string)
| OpSignal (clientID : string) (generation : Z) (signal : P2PSignal)
| OpRenew (healthy : option (string → Z → bool))
| OpCloseClient (clientID : string) (generation : Z) (reason : string)
| OpCloseClients (ownerUserID : string) (participants : gmap string Z) (reason : string)
| OpCloseSession (sessionID reason : string)
| OpReady (clientID : string) (generation : Z) (status : P2PSessionStatus)
| OpStats (clientID : string) (generation : Z) (report : P2PStatsReport)
| OpDemand (clientID : string) (generation : Z) (demand : P2PCreditDemand)
| OpCredit (clientID : string) (generation : Z) (credit : P2PCreditGrant)
| OpRevoke (tunnelID : string) (revision : Z) (reason : string)
| OpExpire.

Inductive coord_out :=
| OutGrant (r : result (p2pGrant * p2pLifecycleResult))
| OutPeer (r : result p2pParticipant)
| OutRenew (r : p2pRenewResult)
| OutClosed (rs : list p2pLifecycleResult)
| OutLifecycle (r : result p2pLifecycleResult)
| OutStats (r : result (Z * Z))
| OutExpired (ids : list string).

Definition apply_op (o : range_order) (now : Z) (lower : string → string)
    (c : p2pCoordinator) (op : coord_op) : p2pCoordinator * coord_out :=
  match op with
  | OpEnsure spec sid gid =>
      let '(c, r) := ensureGrant o now c spec sid gid in (c, OutGrant r)
  | OpSignal clientID generation signal =>
      let '(c, r) := authorizeSignal now c clientID generation signal in (c, OutPeer r)
  | OpRenew healthy => let '(c, r) := renew o now c healthy in (c, OutRenew r)
  | OpCloseClient clientID generation reason =>
      let '(c, rs) := closeClient o now lower c clientID generation reason in (c, OutClosed rs)
  | OpCloseClients ownerUserID participants reason =>
      let '(c, rs) := closeClients o now lower c ownerUserID participants reason in (c, OutClosed rs)
  | OpCloseSession sessionID reason =>
      let '(c, r) := closeSession o now lower c sessionID reason in (c, OutLifecycle (Ok r))
  | OpReady clientID generation status =>
      let '(c, r) := recordReady o now lower c clientID generation status in (c, OutLifecycle r)
  | OpStats clientID generation report =>
      let '(c, r) := acceptStats now c clientID generation report in (c, OutStats r)
  | OpDemand clientID generation demand =>
      let '(c, r) := authorizeCreditDemand now c clientID generation demand in (c, OutPeer r)
  | OpCredit clientID generation credit =>
      let '(c, r) := authorizeCreditGrant now c clientID generation credit in (c, OutPeer r)
  | OpRevoke tunnelID revision reason =>
      let '(c, r) := revokeTunnel o now lower c tunnelID revision reason in (c, OutLifecycle (Ok r))
  | OpExpire => let '(c, ids) := expire o now c in (c, OutExpired ids)
  end.
