(* ===== verification/CoordinatorInv.v ===== *)
(** The coordinator's representation invariant and its abstraction: the heap
    with its two indices is a finite map from session ids to sessions, and every
    operation is described on that map. *)
From Stdlib Require Import ZArith Lia Ascii String.
From stdpp Require Import base tactics numbers list gmap strings sorting relations.
From S2P Require Import Prelude GoStrings Protocol Coordinator.

(** ** The sessions a coordinator serves *)

Definition sessions (c : p2pCoordinator) : gmap string p2pPairSession :=
  omap (λ l, heap c !! l) (byID c).

Lemma sessions_lookup c id s :
  sessions c !! id = Some s ↔ ∃ l, byID c !! id = Some l ∧ heap c !! l = Some s.
Proof. unfold sessions. rewrite lookup_omap_Some. naive_solver. Qed.

Lemma sessions_lookup_id c id :
  sessions c !! id = snd <$> lookup_id c id.
Proof.
  unfold sessions, lookup_id. rewrite lookup_omap.
  destruct (byID c !! id) as [l|]; [|done]. cbn. by destruct (heap c !! l).
Qed.

Lemma lookup_id_Some c id l s :
  lookup_id c id = Some (l, s) ↔ byID c !! id = Some l ∧ heap c !! l = Some s.
Proof.
  unfold lookup_id. destruct (byID c !! id) as [l'|]; cbn; [|naive_solver].
  destruct (heap c !! l') as [s'|] eqn:E; cbn; naive_solver.
Qed.

Lemma lookup_pair_Some c k l s :
  lookup_pair c k = Some (l, s) ↔ byPair c !! k = Some l ∧ heap c !! l = Some s.
Proof.
  unfold lookup_pair. destruct (byPair c !! k) as [l'|]; cbn; [|naive_solver].
  destruct (heap c !! l') as [s'|] eqn:E; cbn; naive_solver.
Qed.

(** ** The invariant *)

Definition nul_free (s : string) : Prop := ∀ a b, s ≠ a +:+ NUL +:+ b.

(** What identifies a session and never changes while it lives. *)
Definition same_session (s s' : p2pPairSession) : Prop :=
  s_id s' = s_id s ∧ s_clientA s' = s_clientA s ∧ s_clientB s' = s_clientB s
  ∧ s_generationA s' = s_generationA s ∧ s_generationB s' = s_generationB s
  ∧ s_ownerUserID s' = s_ownerUserID s ∧ s_ownerEpoch s' = s_ownerEpoch s.

Record grant_wf (s : p2pPairSession) (tunnelID : string) (g : p2pGrant) : Prop := {
  gw_tunnel : g_tunnelID g = tunnelID;
  gw_tunnel_ne : tunnelID ≠ ""%string;
  gw_session : g_sessionID g = s_id s;
  gw_pair : (g_ingressClientID g = s_clientA s ∧ g_targetClientID g = s_clientB s)
            ∨ (g_ingressClientID g = s_clientB s ∧ g_targetClientID g = s_clientA s);
  gw_revision : 0 < g_revision g;
  gw_bps : 0 ≤ g_totalBPS g;
}.

Definition rate_wf (r : p2pCandidateRate) : Prop :=
  0 ≤ rate_count r ≤ p2pCandidatesPerWindow ∧ rate_count r ≤ rate_total r ≤ P2PMaxCandidates.

Record session_wf (s : p2pPairSession) : Prop := {
  sw_order : (s_clientA s <?s s_clientB s) = true;
  sw_clientA : s_clientA s ≠ ""%string ∧ nul_free (s_clientA s);
  sw_clientB : s_clientB s ≠ ""%string ∧ nul_free (s_clientB s);
  sw_generations : s_generationA s ≠ 0 ∧ s_generationB s ≠ 0;
  sw_owner : s_ownerUserID s = ""%string ↔ s_ownerEpoch s = 0;
  sw_grants : map_Forall (grant_wf s) (s_grants s);
  sw_candidates : map_Forall (λ _, rate_wf) (s_candidates s);
  sw_credit : ∀ gid, cc_cumulative (get_or zero_credit (s_creditGrant s) gid)
                     ≤ cc_cumulative (get_or zero_credit (s_creditDemand s) gid);
}.

(** A grant of a session the coordinator serves. *)
Definition live_gid (c : p2pCoordinator) (gid id tid : string) (s : p2pPairSession)
    (g : p2pGrant) : Prop :=
  sessions c !! id = Some s ∧ s_grants s !! tid = Some g ∧ g_grantID g = gid.

(** [used] holds the identifiers issued so far. *)
Record coord_inv (used : gset string) (c : p2pCoordinator) : Prop := {
  ci_id : ∀ id l, byID c !! id = Some l →
    ∃ s, heap c !! l = Some s ∧ s_id s = id ∧ byPair c !! session_key s = Some l;
  ci_pair : ∀ k l, byPair c !! k = Some l →
    ∃ s, heap c !! l = Some s ∧ session_key s = k ∧ byID c !! s_id s = Some l;
  ci_loc : ∀ l s, heap c !! l = Some s → (l < nextLoc c)%nat;
  ci_wf : ∀ id s, sessions c !! id = Some s → session_wf s;
  ci_used : ∀ id s, sessions c !! id = Some s → id ∈ used ∧ dom (s_stats s) ⊆ used;
  ci_used_grant : ∀ gid id tid s g, live_gid c gid id tid s g → gid ∈ used;
  ci_used_closed : ∀ gid cl, closedStats c !! gid = Some cl →
    gid ∈ used ∧ g_grantID (cl_grant cl) = gid;
  ci_unique : ∀ gid id tid s g id' tid' s' g',
    live_gid c gid id tid s g → live_gid c gid id' tid' s' g' → id' = id ∧ tid' = tid;
  ci_disjoint : ∀ gid id tid s g, live_gid c gid id tid s g → closedStats c !! gid = None;
}.

Lemma sessions_id used c id s : coord_inv used c → sessions c !! id = Some s → s_id s = id.
Proof.
  intros I (l & Hl & Hs)%sessions_lookup. destruct (ci_id _ _ I _ _ Hl) as (s' & Hs' & ? & _).
  by simplify_eq.
Qed.

(** Two ids never share a location. *)
Lemma byID_inj used c id id' l :
  coord_inv used c → byID c !! id = Some l → byID c !! id' = Some l → id = id'.
Proof.
  intros I H1 H2. destruct (ci_id _ _ I _ _ H1) as (s & Hs & <- & _).
  destruct (ci_id _ _ I _ _ H2) as (s' & Hs' & <- & _). by simplify_eq.
Qed.

(** ** The three kinds of state change, on the session map *)

Lemma sessions_set used c id l s' :
  coord_inv used c → byID c !! id = Some l →
  sessions (set_session c l s') = <[id := s']> (sessions c).
Proof.
  intros I Hl. apply map_eq. intros id'. unfold sessions, set_session. cbn.
  rewrite lookup_omap. destruct (decide (id' = id)) as [->|Hne].
  - rewrite Hl, lookup_insert_eq. cbn. by rewrite lookup_insert_eq.
  - rewrite lookup_insert_ne, lookup_omap by done.
    destruct (byID c !! id') as [l'|] eqn:E; [|done]. cbn.
    rewrite lookup_insert_ne; [done|]. intros ->. by pose proof (byID_inj _ _ _ _ _ I E Hl).
Qed.

Lemma sessions_delete o now c s :
  sessions (deleteSession o now c s) = delete (s_id s) (sessions c).
Proof. unfold sessions, deleteSession. cbn. by rewrite omap_delete. Qed.

Lemma sessions_closed c m : sessions (set_closed c m) = sessions c.
Proof. done. Qed.

(** ** Archiving *)

(** After archiving the grants of [s], a closed entry is an old one or the
    record of one of the grants. *)
Lemma archive_fold_inv now s (l : list (string * p2pGrant)) m gid cl :
  foldl (λ m kg, archiveGrant now s m kg.2) m l !! gid = Some cl →
  (m !! gid = Some cl ∧ gid ∉ (g_grantID ∘ snd) <$> l)
  ∨ ∃ kg, kg ∈ l ∧ g_grantID kg.2 = gid ∧ cl = closed_grant now s kg.2.
Proof.
  induction l as [|kg l IH] using rev_ind; cbn.
  { intros. left. split; [done|]. set_solver. }
  rewrite foldl_app. cbn. unfold archiveGrant at 1.
  destruct (decide (g_grantID kg.2 = gid)) as [<-|Hne].
  - rewrite lookup_insert_eq. intros [= <-]. right. exists kg. set_solver.
  - rewrite lookup_insert_ne by done. intros [[? Hn]|(kg' & ? & ? & ?)]%IH.
    + left. split; [done|]. rewrite fmap_app, elem_of_app. cbn. set_solver.
    + right. exists kg'. set_solver.
Qed.

(** With distinct grant ids every grant is archived. *)
Lemma archive_fold_elem now s (l : list (string * p2pGrant)) m kg :
  NoDup ((g_grantID ∘ snd) <$> l) → kg ∈ l →
  foldl (λ m kg, archiveGrant now s m kg.2) m l !! g_grantID kg.2 = Some (closed_grant now s kg.2).
Proof.
  induction l as [|kg' l IH] using rev_ind; cbn; [set_solver|].
  rewrite fmap_app, foldl_app, NoDup_app. cbn. intros (Hnd & Hdisj & _) Hin.
  unfold archiveGrant at 1. rewrite elem_of_app, list_elem_of_singleton in Hin.
  destruct Hin as [Hin| ->]; [|apply lookup_insert_eq].
  rewrite lookup_insert_ne; [by apply IH|]. intros Heq.
  apply (Hdisj (g_grantID kg.2)); [by apply (list_elem_of_fmap_2 (g_grantID ∘ snd))|].
  rewrite <- Heq. set_solver.
Qed.

Lemma archive_fold_other now s (l : list (string * p2pGrant)) m gid :
  gid ∉ (g_grantID ∘ snd) <$> l →
  foldl (λ m kg, archiveGrant now s m kg.2) m l !! gid = m !! gid.
Proof.
  induction l as [|kg l IH] using rev_ind; cbn; [done|].
  rewrite fmap_app, foldl_app, not_elem_of_app. cbn. intros [? ?].
  unfold archiveGrant at 1. rewrite lookup_insert_ne by set_solver. by apply IH.
Qed.

Lemma delete_closed_inv o now c s gid cl :
  closedStats (deleteSession o now c s) !! gid = Some cl →
  (closedStats c !! gid = Some cl ∧ ∀ tid g, s_grants s !! tid = Some g → g_grantID g ≠ gid)
  ∨ ∃ tid g, s_grants s !! tid = Some g ∧ g_grantID g = gid ∧ cl = closed_grant now s g.
Proof.
  cbn. intros [[H Hn]|([tid g] & Hin & ? & ?)]%archive_fold_inv.
  - left. split; [done|]. intros tid g Hg Heq. apply Hn.
    apply list_elem_of_fmap. exists (tid, g). by rewrite elem_of_range.
  - right. exists tid, g. by rewrite elem_of_range in Hin.
Qed.

(** ** Preservation of the invariant by the kinds of state change *)

Lemma inv_mono used used' c : used ⊆ used' → coord_inv used c → coord_inv used' c.
Proof.
  intros Hsub []. split; try done.
  - intros id s H. destruct (ci_used0 id s H). set_solver.
  - intros gid id tid s g H. eauto.
  - intros gid cl H. destruct (ci_used_closed0 gid cl H). auto.
Qed.

Lemma session_key_same s s' : same_session s s' → session_key s' = session_key s.
Proof. unfold session_key. by intros (_ & -> & -> & _). Qed.

(** An update of a served session in place; [new] are the grants it adds. *)
Lemma inv_set used used' c id l s s' (new : string → string → Prop) :
  coord_inv used c → used ⊆ used' →
  byID c !! id = Some l → heap c !! l = Some s →
  same_session s s' → session_wf s' → dom (s_stats s') ⊆ used' →
  (∀ tid g', s_grants s' !! tid = Some g' →
     (∃ g, s_grants s !! tid = Some g ∧ g_grantID g = g_grantID g') ∨ new tid (g_grantID g')) →
  (∀ tid gid, new tid gid → (gid ∉ used) ∧ gid ∈ used') →
  (∀ tid tid' gid, new tid gid → new tid' gid → tid' = tid) →
  coord_inv used' (set_session c l s').
Proof.
  intros I Hsub Hl Hs Hsame Hwf Hstats Hg Hnew Huniq.
  pose proof (sessions_set used c id l s' I Hl) as HS.
  assert (Hsess : sessions c !! id = Some s) by (apply sessions_lookup; eauto).
  assert (Hlive : ∀ gid id' tid s'' g, live_gid (set_session c l s') gid id' tid s'' g →
            (∃ s0 g0, live_gid c gid id' tid s0 g0) ∨ (id' = id ∧ new tid gid)).
  { intros gid id' tid s'' g (H1 & H2 & H3). rewrite HS in H1.
    destruct (decide (id' = id)) as [->|Hne].
    - rewrite lookup_insert_eq in H1. injection H1 as <-.
      destruct (Hg _ _ H2) as [(g0 & ? & ?)|?]; [left|right; subst; eauto].
      exists s, g0. repeat split; [done..|]. congruence.
    - rewrite lookup_insert_ne in H1 by done. left. by exists s'', g. }
  split.
  - intros id' l' H. destruct (ci_id _ _ I _ _ H) as (s0 & H0 & Hid & Hp). cbn in *.
    destruct (decide (l' = l)) as [->|Hne].
    + exists s'. rewrite lookup_insert_eq. simplify_eq.
      rewrite (session_key_same _ _ Hsame). by destruct Hsame as (-> & _).
    + exists s0. by rewrite lookup_insert_ne.
  - intros k l' H. destruct (ci_pair _ _ I _ _ H) as (s0 & H0 & Hk & Hid). cbn in *.
    destruct (decide (l' = l)) as [->|Hne].
    + exists s'. rewrite lookup_insert_eq. simplify_eq.
      rewrite (session_key_same _ _ Hsame). by destruct Hsame as (-> & _).
    + exists s0. by rewrite lookup_insert_ne.
  - intros l' s0 H. cbn in *. destruct (decide (l' = l)) as [->|Hne].
    + by eapply ci_loc.
    + rewrite lookup_insert_ne in H by done. by eapply ci_loc.
  - intros id' s0. rewrite HS. destruct (decide (id' = id)) as [->|Hne].
    + rewrite lookup_insert_eq. by intros [= <-].
    + rewrite lookup_insert_ne by done. by eapply ci_wf.
  - intros id' s0. rewrite HS. destruct (decide (id' = id)) as [->|Hne].
    + rewrite lookup_insert_eq. intros [= <-].
      destruct (ci_used _ _ I _ _ Hsess). split; [set_solver|done].
    + rewrite lookup_insert_ne by done. intros [? ?]%(ci_used _ _ I). set_solver.
  - intros gid id' tid s0 g [(? & ? & ?%(ci_used_grant _ _ I))|[_ ?%Hnew]]%Hlive; set_solver.
  - intros gid cl H. destruct (ci_used_closed _ _ I gid cl H). set_solver.
  - intros gid id1 tid1 s1 g1 id2 tid2 s2 g2 H1%Hlive H2%Hlive.
    destruct H1 as [(? & ? & H1)|[-> H1]], H2 as [(? & ? & H2)|[-> H2]].
    + by eapply (ci_unique _ _ I).
    + apply (ci_used_grant _ _ I) in H1. by apply Hnew in H2 as [].
    + apply (ci_used_grant _ _ I) in H2. by apply Hnew in H1 as [].
    + split; [done|]. by eapply Huniq.
  - intros gid id' tid s0 g [(? & ? & H)|[_ [Hn _]%Hnew]]%Hlive; cbn.
    + by eapply (ci_disjoint _ _ I).
    + destruct (closedStats c !! gid) as [cl|] eqn:E; [|done].
      by destruct (ci_used_closed _ _ I _ _ E).
Qed.

(** Removing a served session. *)
Lemma inv_delete o now used c id s :
  coord_inv used c → sessions c !! id = Some s → coord_inv used (deleteSession o now c s).
Proof.
  intros I Hs. pose proof (sessions_delete o now c s) as HS.
  pose proof (sessions_id _ _ _ _ I Hs) as Hid.
  apply sessions_lookup in Hs as Hs'. destruct Hs' as (l & Hl & Hheap).
  assert (Hsub : ∀ id' s', sessions (deleteSession o now c s) !! id' = Some s' →
            id' ≠ id ∧ sessions c !! id' = Some s').
  { intros id' s'. rewrite HS, Hid, lookup_delete_Some. naive_solver. }
  assert (Hlive : ∀ gid id' tid s' g, live_gid (deleteSession o now c s) gid id' tid s' g →
            id' ≠ id ∧ live_gid c gid id' tid s' g).
  { intros gid id' tid s' g ([? ?]%Hsub & ? & ?). split; [done|]. by repeat split. }
  split.
  - intros id' l' H. cbn in H. apply lookup_delete_Some in H as [Hne H].
    destruct (ci_id _ _ I _ _ H) as (s' & Hs' & <- & Hp). exists s'. split_and!; [done..|].
    cbn. rewrite lookup_delete_ne; [done|]. intros Heq.
    destruct (ci_id _ _ I _ _ Hl) as (s0 & Hs0 & Hid0 & Hp0).
    rewrite Heq in Hp0 || rewrite <- Heq in Hp. by simplify_eq.
  - intros k l' H. cbn in H. apply lookup_delete_Some in H as [Hne H].
    destruct (ci_pair _ _ I _ _ H) as (s' & Hs' & <- & Hp). exists s'. split_and!; [done..|].
    cbn. rewrite lookup_delete_ne; [done|]. intros Heq. rewrite <- Heq in Hp. congruence.
  - apply (ci_loc _ _ I).
  - intros id' s' [_ ?]%Hsub. by eapply ci_wf.
  - intros id' s' [_ ?]%Hsub. by eapply ci_used.
  - intros gid id' tid s' g [_ ?]%Hlive. by eapply ci_used_grant.
  - intros gid cl [[H _]|(tid & g & Hg & <- & ->)]%delete_closed_inv.
    + by eapply ci_used_closed.
    + split; [|done]. eapply (ci_used_grant _ _ I). by repeat split.
  - intros gid id1 tid1 s1 g1 id2 tid2 s2 g2 [_ ?]%Hlive [_ ?]%Hlive. by eapply ci_unique.
  - intros gid id' tid s' g [Hne H]%Hlive.
    destruct (closedStats (deleteSession o now c s) !! gid) as [cl|] eqn:E; [exfalso|done].
    apply delete_closed_inv in E as [[E _]|(tid' & g' & Hg & Hgid & ->)].
    + rewrite (ci_disjoint _ _ I _ _ _ _ _ H) in E. done.
    + edestruct (ci_unique _ _ I gid id tid' s g') as [? _]; [|exact H|congruence].
      by repeat split.
Qed.

(** Adding a session under a fresh identifier and a free pair key. *)
Lemma inv_alloc used c (id : string) s :
  coord_inv used c → id ∉ used → s_id s = id →
  byPair c !! session_key s = None → session_wf s → s_grants s = ∅ → s_stats s = ∅ →
  let c' := {| heap := <[nextLoc c := s]> (heap c); nextLoc := S (nextLoc c);
               byPair := <[session_key s := nextLoc c]> (byPair c);
               byID := <[id := nextLoc c]> (byID c); closedStats := closedStats c |} in
  coord_inv ({[id]} ∪ used) c' ∧ sessions c' = <[id := s]> (sessions c).
Proof.
  intros I Hfresh Hid Hp Hwf Hg Hst c'.
  assert (Hold : ∀ l s0, heap c !! l = Some s0 → l ≠ nextLoc c).
  { intros l s0 ?%(ci_loc _ _ I). lia. }
  assert (Hnone : sessions c !! id = None).
  { destruct (sessions c !! id) eqn:E; [|done]. by destruct (ci_used _ _ I _ _ E). }
  assert (HS : sessions c' = <[id := s]> (sessions c)).
  { apply map_eq. intros id'. unfold sessions, c'. cbn. rewrite lookup_omap.
    destruct (decide (id' = id)) as [->|Hne].
    - rewrite !lookup_insert_eq. cbn. by rewrite lookup_insert_eq.
    - rewrite !lookup_insert_ne, lookup_omap by done.
      destruct (byID c !! id') as [l'|] eqn:E; [|done]. cbn.
      destruct (ci_id _ _ I _ _ E) as (s0 & H0 & _). rewrite lookup_insert_ne; [done|].
      intros <-. by apply Hold in H0. }
  assert (Hlive : ∀ gid id' tid s' g, live_gid c' gid id' tid s' g →
            live_gid c gid id' tid s' g).
  { intros gid id' tid s' g (H & Hg' & ?). rewrite HS in H.
    destruct (decide (id' = id)) as [->|Hne].
    - rewrite lookup_insert_eq in H. injection H as <-. by rewrite Hg in Hg'.
    - rewrite lookup_insert_ne in H by done. by repeat split. }
  split; [|done]. split.
  - intros id' l'. unfold c'. cbn. rewrite lookup_insert_Some. intros [[<- <-]|[Hne H]].
    + exists s. by rewrite !lookup_insert_eq.
    + destruct (ci_id _ _ I _ _ H) as (s0 & H0 & <- & Hp0). exists s0.
      rewrite lookup_insert_ne by (apply not_eq_sym; eauto).
      rewrite lookup_insert_ne by (intros Heq; rewrite <- Heq in Hp0; congruence). done.
  - intros k l'. unfold c'. cbn. rewrite lookup_insert_Some. intros [[<- <-]|[Hne H]].
    + exists s. rewrite !lookup_insert_eq, Hid, lookup_insert_eq. done.
    + destruct (ci_pair _ _ I _ _ H) as (s0 & H0 & <- & Hp0). exists s0.
      rewrite lookup_insert_ne by (apply not_eq_sym; eauto).
      rewrite lookup_insert_ne; [done|]. intros Heq. apply Hfresh. rewrite Heq.
      edestruct (ci_used _ _ I) as [? _]; [apply sessions_lookup; eauto|done].
  - intros l' s0. unfold c'. cbn. rewrite lookup_insert_Some.
    intros [[<- _]|[_ ?%(ci_loc _ _ I)]]; lia.
  - intros id' s0. rewrite HS, lookup_insert_Some. intros [[_ <-]|[_ ?]]; [done|].
    by eapply ci_wf.
  - intros id' s0. rewrite HS, lookup_insert_Some. intros [[<- <-]|[_ [? ?]%(ci_used _ _ I)]].
    + rewrite Hst. set_solver.
    + set_solver.
  - intros gid id' tid s0 g ?%Hlive%(ci_used_grant _ _ I). set_solver.
  - intros gid cl [? ?]%(ci_used_closed _ _ I). set_solver.
  - intros gid id1 tid1 s1 g1 id2 tid2 s2 g2 ?%Hlive ?%Hlive. by eapply ci_unique.
  - intros gid id' tid s0 g ?%Hlive. by eapply (ci_disjoint _ _ I).
Qed.

(** Changing the archive without adding a grant. *)
Lemma inv_closed used c m :
  coord_inv used c →
  (∀ gid cl, m !! gid = Some cl → g_grantID (cl_grant cl) = gid ∧ is_Some (closedStats c !! gid)) →
  coord_inv used (set_closed c m).
Proof.
  intros I Hm. split; [apply I..| | |].
  - intros gid cl [? [cl' ?]]%Hm. split; [|done]. by eapply (ci_used_closed _ _ I).
  - apply I.
  - intros gid id tid s g H. cbn. destruct (m !! gid) as [cl|] eqn:E; [|done].
    apply Hm in E as [_ [? E]]. by rewrite (ci_disjoint _ _ I _ _ _ _ _ H) in E.
Qed.

Lemma expireClosed_lookup now c gid cl :
  closedStats (expireClosedStats now c) !! gid = Some cl ↔
  closedStats c !! gid = Some cl ∧ now < cl_expiresAt cl.
Proof. cbn. by rewrite map_lookup_filter_Some. Qed.

Lemma inv_expireClosed now used c :
  coord_inv used c → coord_inv used (expireClosedStats now c).
Proof.
  intros I. apply inv_closed; [done|]. intros gid cl [H _]%expireClosed_lookup.
  split; [|by eexists]. by eapply (ci_used_closed _ _ I).
Qed.

(** ** Loops over the sessions *)

(** Every loop over [byID] treats each session by itself: [None] deletes it,
    [Some s'] leaves it as [s']. *)
Definition visit (o : range_order) (now : Z) (d : p2pPairSession → option p2pPairSession)
    (c : p2pCoordinator) (l : nat) : p2pCoordinator :=
  match heap c !! l with
  | None => c
  | Some s => match d s with
              | None => deleteSession o now c s
              | Some s' => set_session c l s'
              end
  end.

Lemma set_session_id c l s : heap c !! l = Some s → set_session c l s = c.
Proof. destruct c. cbn. intros H. unfold set_session. cbn. by rewrite insert_id. Qed.

Lemma foldl_visit o now {R} (f : p2pCoordinator * R → string * nat → p2pCoordinator * R) d es c r :
  (∀ c r e, (f (c, r) e).1 = visit o now d c e.2) →
  (foldl f (c, r) es).1 = foldl (λ c e, visit o now d c e.2) c es.
Proof.
  intros Hf. revert c r. induction es as [|e es IH]; intros c r; [done|]. cbn.
  rewrite <- (Hf c r e). destruct (f (c, r) e) as [c' r']. apply IH.
Qed.

(** A decision that keeps a session keeps what the invariant needs. *)
Definition keeps (used : gset string) (s s' : p2pPairSession) : Prop :=
  same_session s s' ∧ session_wf s' ∧ dom (s_stats s') ⊆ used
  ∧ ∀ tid g', s_grants s' !! tid = Some g' →
      ∃ g, s_grants s !! tid = Some g ∧ g_grantID g = g_grantID g'.

Definition archived (now : Z) (c : p2pCoordinator) (P : string → p2pPairSession → Prop)
    (gid : string) (cl : p2pClosedStatsGrant) : Prop :=
  ∃ id s tid g, P id s ∧ live_gid c gid id tid s g ∧ cl = closed_grant now s g.

Lemma live_gids_distinct used c id s :
  coord_inv used c → sessions c !! id = Some s →
  ∀ o, NoDup ((g_grantID ∘ snd) <$> range o (s_grants s)).
Proof.
  intros I Hs o. rewrite (range_perm o (s_grants s)).
  apply NoDup_fmap_2_strong; [|apply NoDup_map_to_list].
  intros [t1 g1] [t2 g2] H1%elem_of_map_to_list H2%elem_of_map_to_list Heq. cbn in *.
  destruct (ci_unique _ _ I (g_grantID g1) id t1 s g1 id t2 s g2) as [_ ->];
    [by repeat split..|]. congruence.
Qed.

(** The archive after a deletion, both ways. *)
Lemma delete_closed used o now c id s :
  coord_inv used c → sessions c !! id = Some s →
  (∀ gid cl, closedStats (deleteSession o now c s) !! gid = Some cl ↔
     closedStats c !! gid = Some cl ∨ archived now c (λ _ s', s' = s) gid cl).
Proof.
  intros I Hs gid cl. split.
  - intros [[? _]|(tid & g & ? & ? & ->)]%delete_closed_inv; [by left|].
    right. exists id, s, tid, g. repeat split; done.
  - intros [H|(id' & s' & tid & g & -> & (Hs' & Hg & <-) & ->)].
    + cbn. rewrite archive_fold_other; [done|].
      intros ([tid g] & -> & Hin%elem_of_range)%list_elem_of_fmap. cbn in *.
      rewrite (ci_disjoint _ _ I (g_grantID g) id tid s g) in H; [done|]. by repeat split.
    + cbn. apply (archive_fold_elem _ _ _ _ (tid, g)).
      * by eapply live_gids_distinct.
      * by apply elem_of_range.
Qed.

(** What one pass over a list of entries does. *)
Record pass (used : gset string) (now : Z) (d : p2pPairSession → option p2pPairSession)
    (ids : list string) (c c' : p2pCoordinator) : Prop := {
  ps_inv : coord_inv used c';
  ps_byID : ∀ id, id ∉ ids → byID c' !! id = byID c !! id;
  ps_sessions : ∀ id, sessions c' !! id =
    if decide (id ∈ ids) then sessions c !! id ≫= d else sessions c !! id;
  ps_closed : ∀ gid cl, closedStats c' !! gid = Some cl ↔
    closedStats c !! gid = Some cl ∨ archived now c (λ id s, id ∈ ids ∧ d s = None) gid cl;
}.

Lemma visit_pass used o now d es c :
  coord_inv used c → NoDup es.*1 →
  (∀ id l, (id, l) ∈ es → byID c !! id = Some l) →
  (∀ id s s', sessions c !! id = Some s → d s = Some s' → keeps used s s') →
  pass used now d es.*1 c (foldl (λ c e, visit o now d c e.2) c es).
Proof.
  intros I. induction es as [|[id l] es IH] using rev_ind; intros Hnd Hes Hd.
  { cbn. split; [done|done|..].
    - intros id. by rewrite decide_False by apply not_elem_of_nil.
    - intros gid cl. split; [by left|]. intros [H|(? & ? & ? & ? & [[]%not_elem_of_nil _] & _)]. done. }
  rewrite fmap_app, NoDup_app in Hnd. cbn in Hnd. destruct Hnd as (Hnd & Hdj & _).
  assert (Hid : id ∉ es.*1) by (intros H; apply (Hdj _ H); set_solver).
  specialize (IH Hnd ltac:(intros; apply Hes; set_solver) Hd).
  rewrite foldl_app. cbn [foldl]. set (c1 := foldl _ c es) in *.
  destruct IH as [I1 Hb1 Hs1 Hc1].
  assert (Hl : byID c1 !! id = Some l) by (rewrite Hb1 by done; apply Hes; set_solver).
  destruct (ci_id _ _ I1 _ _ Hl) as (s & Hheap & Hsid & _).
  assert (Hss1 : sessions c1 !! id = Some s) by (apply sessions_lookup; eauto).
  assert (Hss : sessions c !! id = Some s) by (by rewrite Hs1, decide_False in Hss1).
  unfold visit. cbn [snd]. rewrite Hheap. destruct (d s) as [s'|] eqn:Ed.
  - destruct (Hd _ _ _ Hss Ed) as (Hk1 & Hk2 & Hk3 & Hk4).
    pose proof (sessions_set _ _ _ _ s' I1 Hl) as HS. split.
    + eapply (inv_set used used _ id l s s' (λ _ _, False)); eauto; try done.
    + intros id' Hid'. cbn. apply Hb1. set_solver.
    + intros id'. rewrite HS. destruct (decide (id' = id)) as [->|Hne].
      * rewrite lookup_insert_eq, decide_True by set_solver. by rewrite Hss.
      * rewrite lookup_insert_ne, Hs1 by done. rewrite fmap_app. cbn.
        destruct (decide (id' ∈ es.*1)); [by rewrite decide_True by set_solver|].
        by rewrite decide_False by set_solver.
    + intros gid cl. cbn [closedStats set_session]. rewrite Hc1.
      rewrite fmap_app. cbn. apply or_iff_compat_l.
      split; intros (id0 & s0 & tid & g & [Hin Hn] & Hlive & Hcl);
        exists id0, s0, tid, g; split_and!; try done; [set_solver|].
      apply elem_of_app in Hin as [|Hin%list_elem_of_singleton]; [done|]. subst id0.
      destruct Hlive as (H & _). congruence.
  - pose proof (sessions_delete o now c1 s) as HS. rewrite Hsid in HS. split.
    + by eapply inv_delete.
    + intros id' Hid'. cbn. rewrite fmap_app in Hid'. cbn in Hid'.
      rewrite lookup_delete_ne by set_solver. apply Hb1. set_solver.
    + intros id'. rewrite HS. destruct (decide (id' = id)) as [->|Hne].
      * rewrite lookup_delete_eq, decide_True by set_solver. by rewrite Hss.
      * rewrite lookup_delete_ne, Hs1 by done. rewrite fmap_app. cbn.
        destruct (decide (id' ∈ es.*1)); [by rewrite decide_True by set_solver|].
        by rewrite decide_False by set_solver.
    + intros gid cl. rewrite (delete_closed used) by done. rewrite Hc1, fmap_app. cbn.
      split.
      * intros [[?|(id0 & s0 & tid & g & [Hin Hn] & Hlive & Hcl)]|
                (id0 & s0 & tid & g & -> & (Hlive & Hg & Hgid) & Hcl)]; [by left|right..].
        { exists id0, s0, tid, g. split_and!; try done. set_solver. }
        assert (id0 = id) as -> by (rewrite <- Hsid; symmetry; by eapply sessions_id).
        exists id, s, tid, g. split_and!; try done. set_solver.
      * intros [?|(id0 & s0 & tid & g & [Hin Hn] & Hlive & Hcl)]; [by left; left|].
        apply elem_of_app in Hin as [|Hin%list_elem_of_singleton].
        { left. right. exists id0, s0, tid, g. done. }
        subst id0. right. destruct Hlive as (Hl0 & Hg & Hgid).
        assert (s0 = s) as -> by congruence. exists id, s, tid, g. done.
Qed.

Lemma range_entries o c : NoDup (range o (byID c)).*1 ∧
  ∀ id l, (id, l) ∈ range o (byID c) → byID c !! id = Some l.
Proof. split; [apply NoDup_range_fst|]. intros id l. by rewrite elem_of_range. Qed.

(** A full loop: the decision applied to every session. *)
Lemma loop_sessions used o now {R} (f : p2pCoordinator * R → string * nat → p2pCoordinator * R)
    d c r :
  coord_inv used c →
  (∀ c r e, (f (c, r) e).1 = visit o now d c e.2) →
  (∀ id s s', sessions c !! id = Some s → d s = Some s' → keeps used s s') →
  let c' := (foldl f (c, r) (range o (byID c))).1 in
  coord_inv used c' ∧ sessions c' = omap d (sessions c) ∧
  ∀ gid cl, closedStats c' !! gid = Some cl ↔
    closedStats c !! gid = Some cl ∨ archived now c (λ _ s, d s = None) gid cl.
Proof.
  intros I Hf Hd c'. destruct (range_entries o c) as [Hnd Hes].
  destruct (visit_pass used o now d _ c I Hnd Hes Hd) as [I' _ Hs Hc].
  rewrite <- (foldl_visit o now f d _ c r Hf) in *. fold c' in I', Hs, Hc.
  assert (Hin : ∀ id s, sessions c !! id = Some s → id ∈ (range o (byID c)).*1).
  { intros id s (l & Hl & _)%sessions_lookup. apply list_elem_of_fmap.
    exists (id, l). by rewrite elem_of_range. }
  split_and!; [done|..].
  - apply map_eq. intros id. rewrite Hs, lookup_omap.
    destruct (sessions c !! id) as [s|] eqn:E; [|by destruct (decide _)].
    rewrite decide_True by eauto. done.
  - intros gid cl. rewrite Hc. apply or_iff_compat_l.
    split.
    + intros (id & s & tid & g & [_ Hn] & ?). by exists id, s, tid, g.
    + intros (id & s & tid & g & Hn & Hlive & Hcl). exists id, s, tid, g.
      split_and!; try done. destruct Hlive as (? & _). eauto.
Qed.
