(* ===== verification/CoordinatorSpec.v ===== *)
(** What each coordinator operation does, on the abstract state of
    CoordinatorInv: acceptance rules as propositions, the frame of every
    operation, and the invariant over whole runs. *)
From Stdlib Require Import ZArith Lia Ascii String.
From stdpp Require Import base tactics numbers list gmap strings sorting relations.
From S2P Require Import Prelude GoStrings Protocol Coordinator CoordinatorInv.

(** ** Well-formed sessions under the updates of the operations *)

Lemma grant_wf_same s s' tid g : same_session s s' → grant_wf s tid g → grant_wf s' tid g.
Proof.
  intros (Hid & Ha & Hb & _) []. split; try done; [by rewrite Hid|by rewrite Ha, Hb].
Qed.

Lemma grants_wf_same s s' (m : gmap string p2pGrant) : same_session s s' →
  map_Forall (grant_wf s) m → map_Forall (grant_wf s') m.
Proof. intros Hs Hm tid g Hg. eapply grant_wf_same; eauto. Qed.

(** A session that differs from a well-formed one only in its grants,
    candidates and credit cursors is well-formed when those are. *)
Lemma session_wf_update s s' :
  session_wf s → same_session s s' →
  map_Forall (grant_wf s) (s_grants s') →
  map_Forall (λ _, rate_wf) (s_candidates s') →
  (∀ gid, cc_cumulative (get_or zero_credit (s_creditGrant s') gid)
          ≤ cc_cumulative (get_or zero_credit (s_creditDemand s') gid)) →
  session_wf s'.
Proof.
  intros [] Hs Hg Hc Hcr. pose proof Hs as (Hid & Ha & Hb & HA & HB & Ho & He).
  split; rewrite ?Ha, ?Hb, ?HA, ?HB, ?Ho, ?He; try done. by eapply grants_wf_same.
Qed.

Lemma get_or_insert {A} (zero : A) m k v k' :
  get_or zero (<[k := v]> m) k' = if decide (k' = k) then v else get_or zero m k'.
Proof.
  unfold get_or. destruct (decide (k' = k)) as [->|];
    [by rewrite lookup_insert_eq|by rewrite lookup_insert_ne].
Qed.

Lemma same_session_refl s : same_session s s.
Proof. by repeat split. Qed.

Lemma live_session_Some now c id l s :
  live_session now c id = Some (l, s) ↔
  byID c !! id = Some l ∧ heap c !! l = Some s ∧ now < s_expiresAt s.
Proof.
  unfold live_session, time_after.
  destruct (lookup_id c id) as [[l' s']|] eqn:E.
  - apply lookup_id_Some in E as [? ?].
    destruct (Z.ltb_spec now (s_expiresAt s')); naive_solver lia.
  - split; [done|]. intros (H1 & H2 & _).
    assert (lookup_id c id = Some (l, s)) by (by apply lookup_id_Some). congruence.
Qed.

Lemma live_session_sessions now c id l s :
  live_session now c id = Some (l, s) → sessions c !! id = Some s ∧ now < s_expiresAt s.
Proof. intros (? & ? & ?)%live_session_Some. split; [|done]. apply sessions_lookup. eauto. Qed.

(** ** Acceptance rules *)

(** [p] is the other participant of the session than the sender, who is named by
    client id and generation. *)
Definition signal_route (s : p2pPairSession) (clientID : string) (generation : Z)
    (p : p2pParticipant) : Prop :=
  (clientID = s_clientA s ∧ generation = s_generationA s
   ∧ p = {| pt_clientID := s_clientB s; pt_clientGeneration := s_generationB s;
            pt_ownerUserID := s_ownerUserID s; pt_ownerEpoch := s_ownerEpoch s |})
  ∨ (clientID = s_clientB s ∧ generation = s_generationB s
   ∧ p = {| pt_clientID := s_clientA s; pt_clientGeneration := s_generationA s;
            pt_ownerUserID := s_ownerUserID s; pt_ownerEpoch := s_ownerEpoch s |}).

(** When a signal of [clientID] is forwarded and what it leaves behind. *)
Record signal_accepted (now : Z) (s : p2pPairSession) (clientID : string) (generation : Z)
    (signal : P2PSignal) (s' : p2pPairSession) (p : p2pParticipant) : Prop := {
  sa_valid : P2PSignal_Validate signal = Ok tt;
  sa_live : now < s_expiresAt s;
  sa_route : signal_route s clientID generation p;
  sa_fresh : get_or 0 (s_lastSignal s) clientID < sig_Sequence signal;
  sa_offer : sig_Kind signal = P2PSignalOffer → clientID = s_clientA s;
  sa_answer : sig_Kind signal = P2PSignalAnswer → clientID = s_clientB s;
  sa_state : ∃ candidates,
    s' = with_signal s (<[clientID := sig_Sequence signal]> (s_lastSignal s)) candidates
    ∧ if decide (sig_Kind signal = P2PSignalCandidate)
      then ∃ rate, admit_candidate now (get_or zero_rate (s_candidates s) clientID) = Ok rate
                   ∧ candidates = <[clientID := rate]> (s_candidates s)
      else candidates = s_candidates s;
}.

Lemma client_ne s : session_wf s → s_clientA s ≠ s_clientB s.
Proof. intros Hwf Heq. pose proof (sw_order s Hwf) as H. by rewrite Heq, ltb_irrefl in H. Qed.

Lemma participant_route s clientID generation p :
  session_wf s →
  signal_route s clientID generation p ↔
  ∃ peer, signal_peer s clientID generation = Some peer ∧ p = participant s peer.
Proof.
  intros Hwf. pose proof (client_ne s Hwf) as Hne.
  pose proof (proj2 (eqb_str_false _ _) Hne) as EA.
  pose proof (proj2 (eqb_str_false _ _) (not_eq_sym Hne)) as EB.
  unfold signal_route, signal_peer, participant. split.
  - intros [(-> & -> & ->)|(-> & -> & ->)].
    + exists (s_clientB s). by rewrite !eqb_str_refl, Z.eqb_refl.
    + exists (s_clientA s). by rewrite EA, EB, eqb_str_refl, Z.eqb_refl.
  - intros (peer & H & ->).
    destruct (_ && _) eqn:E in H; [|destruct (_ && _) eqn:E' in H; [|done]];
      injection H as <-; [left|right].
    + apply andb_true_iff in E as [->%eqb_str_true ->%Z.eqb_eq]. by rewrite eqb_str_refl.
    + apply andb_true_iff in E' as [->%eqb_str_true ->%Z.eqb_eq]. by rewrite EA.
Qed.

(** ** Functional descriptions of the operations *)

(** Case analysis on the guards of an operation in hypothesis [H]. *)
Ltac op_cases H :=
  repeat match type of H with
         | context [match ?x with _ => _ end] =>
             let E := fresh "E" in destruct x eqn:E; simplify_eq/=
         end.

Lemma unit_ok (r : result unit) u : r = Ok u → r = Ok tt.
Proof. by destruct u. Qed.

Lemma authorizeSignal_error now c clientID generation signal c' e :
  authorizeSignal now c clientID generation signal = (c', Err e) → c' = c.
Proof. unfold authorizeSignal. intros H. by op_cases H. Qed.

Lemma authorizeSignal_ok used now c clientID generation signal c' p :
  coord_inv used c →
  authorizeSignal now c clientID generation signal = (c', Ok p) ↔
  ∃ l s s', byID c !! sig_SessionID signal = Some l ∧ heap c !! l = Some s
    ∧ signal_accepted now s clientID generation signal s' p ∧ c' = set_session c l s'.
Proof.
  intros I. unfold authorizeSignal. split.
  - intros H.
    destruct (P2PSignal_Validate signal) as [[]|] eqn:EV; [|done].
    destruct (live_session now c (sig_SessionID signal)) as [[l s]|] eqn:EL; [|done].
    pose proof (live_session_sessions _ _ _ _ _ EL) as [Hs Hnow].
    apply live_session_Some in EL as (Hl & Hheap & _).
    pose proof (ci_wf _ _ I _ _ Hs) as Hwf.
    destruct (signal_peer s clientID generation) as [peer|] eqn:EP; [|done].
    destruct (_ <=? _) eqn:EQ in H; [done|]. destruct (_ || _) eqn:ER in H; [done|].
    destruct (_ =?s P2PSignalCandidate) eqn:EC in H.
    + destruct (admit_candidate _ _) as [rate|] eqn:EA; [|done]. simplify_eq.
      eexists l, s, _. split_and!; [done..| |done]. reflect_guards. split; try done; try lia.
      * apply participant_route; [done|]. by exists peer.
      * tauto.
      * tauto.
      * eexists. split; [done|]. rewrite decide_True by done. by exists rate.
    + simplify_eq. eexists l, s, _. split_and!; [done..| |done].
      reflect_guards. split; try done; try lia.
      * apply participant_route; [done|]. by exists peer.
      * tauto.
      * tauto.
      * eexists. split; [done|]. by rewrite decide_False.
  - intros (l & s & s' & Hl & Hheap & [Hv Hn Hr Hf Ho Ha (cands & -> & Hc)] & ->).
    rewrite Hv. rewrite (proj2 (live_session_Some now c _ l s)) by done.
    assert (Hs : sessions c !! sig_SessionID signal = Some s) by (apply sessions_lookup; eauto).
    pose proof (ci_wf _ _ I _ _ Hs) as Hwf.
    apply participant_route in Hr as (peer & -> & ->); [|done].
    rewrite (proj2 (Z.leb_gt _ _) Hf).
    replace (_ || _) with false.
    2: { symmetry. rewrite orb_false_iff, !andb_false_iff, !negb_false_iff, !eqb_str_true,
           !eqb_str_false.
         split; [destruct (decide (sig_Kind signal = P2PSignalOffer))
                |destruct (decide (sig_Kind signal = P2PSignalAnswer))]; auto. }
    destruct (decide _) as [HC|HC].
    + destruct Hc as (rate & -> & ->). rewrite (proj2 (eqb_str_true _ _) HC). done.
    + subst cands. by rewrite (proj2 (eqb_str_false _ _) HC).
Qed.

(** *** Status reports *)

Record ready_accepted (now : Z) (s : p2pPairSession) (clientID : string) (generation : Z)
    (status : P2PSessionStatus) (s' : p2pPairSession) : Prop := {
  ra_valid : P2PSessionStatus_Validate status = Ok tt;
  ra_state : st_State status ≠ P2PStateClosed;
  ra_live : now < s_expiresAt s;
  ra_sender : (clientID = s_clientA s ∧ generation = s_generationA s)
              ∨ (clientID = s_clientB s ∧ generation = s_generationB s);
  ra_fresh : get_or 0 (s_lastStatus s) clientID < st_Sequence status;
  ra_result : s' = with_ready s (<[clientID := st_Sequence status]> (s_lastStatus s))
                (<[clientID := st_State status =?s P2PStateConnected]> (s_ready s));
}.

Lemma recordReady_error o now lower c clientID generation status c' e :
  recordReady o now lower c clientID generation status = (c', Err e) → c' = c.
Proof. unfold recordReady. intros H. by op_cases H. Qed.

Lemma recordReady_ok o now lower c clientID generation status c' r :
  recordReady o now lower c clientID generation status = (c', Ok r) →
  ∃ l s s', byID c !! st_SessionID status = Some l ∧ heap c !! l = Some s
    ∧ ready_accepted now s clientID generation status s' ∧ c' = set_session c l s'
    ∧ lr_Session r = snapshotP2PSession o s'
    ∧ lr_ReadyEdge r = negb (both_ready s) && both_ready s'.
Proof.
  unfold recordReady. intros H.
  destruct (P2PSessionStatus_Validate status) as [[]|] eqn:EV; [|done].
  destruct (_ =?s P2PStateClosed) eqn:EC in H; [done|].
  destruct (live_session now c (st_SessionID status)) as [[l s]|] eqn:EL; [|done].
  apply live_session_Some in EL as (Hl & Hheap & Hnow).
  destruct (_ && _) eqn:ES in H; [done|]. destruct (_ <=? _) eqn:EQ in H; [done|].
  simplify_eq. eexists l, s, _. split_and!; [done..| |done|done|done].
  reflect_guards. split; try done.
Qed.

(** *** Statistics *)

Definition cursor_admits (k : p2pStatsCursor) (report : P2PStatsReport) : Prop :=
  (sc_sequence k = 0 ∨ sc_epoch k = sr_Epoch report) ∧ sc_sequence k < sr_Sequence report
  ∧ sc_ingress k ≤ sr_IngressBytes report ∧ sc_egress k ≤ sr_EgressBytes report.

Definition stats_delta (k : p2pStatsCursor) (report : P2PStatsReport) : Z * Z :=
  (u64_sub (sr_IngressBytes report) (sc_ingress k), u64_sub (sr_EgressBytes report) (sc_egress k)).

Definition target_generation (s : p2pPairSession) (g : p2pGrant) : Z :=
  if g_targetClientID g =?s s_clientB s then s_generationB s else s_generationA s.

Lemma acceptClosedStats_error now c clientID generation report c' e :
  acceptClosedStats now c clientID generation report = (c', Err e) → c' = c.
Proof. unfold acceptClosedStats. intros H. by op_cases H. Qed.

Lemma acceptStats_error now c clientID generation report c' e :
  acceptStats now c clientID generation report = (c', Err e) → c' = c.
Proof.
  unfold acceptStats. intros H.
  destruct (P2PStatsReport_Validate report); [|by simplify_eq].
  destruct (live_session _ _ _) as [[l s]|]; [|by eapply acceptClosedStats_error].
  destruct (live_grant _ _ _) as [g|]; [|by eapply acceptClosedStats_error].
  by op_cases H.
Qed.

(** The grant of a live session, its owner and the cursor it has reached. *)
Definition stats_live (now : Z) (c : p2pCoordinator) (clientID : string) (generation : Z)
    (report : P2PStatsReport) (c' : p2pCoordinator) (d : Z * Z) : Prop :=
  ∃ l s g, byID c !! sr_SessionID report = Some l ∧ heap c !! l = Some s ∧ now < s_expiresAt s
    ∧ s_grants s !! sr_TunnelID report = Some g ∧ g_grantID g = sr_GrantID report
    ∧ g_revision g = sr_Revision report ∧ now < g_expiresAt g
    ∧ clientID = g_targetClientID g ∧ generation = target_generation s g
    ∧ cursor_admits (get_or zero_cursor (s_stats s) (sr_GrantID report)) report
    ∧ d = stats_delta (get_or zero_cursor (s_stats s) (sr_GrantID report)) report
    ∧ c' = set_session c l (with_stats s (<[sr_GrantID report := report_cursor report]> (s_stats s))).

Definition closed_with_cursor (cl : p2pClosedStatsGrant) (k : p2pStatsCursor)
    : p2pClosedStatsGrant :=
  {| cl_grant := cl_grant cl; cl_targetGeneration := cl_targetGeneration cl;
     cl_cursor := k; cl_expiresAt := cl_expiresAt cl |}.

Definition stats_closed (now : Z) (c : p2pCoordinator) (clientID : string) (generation : Z)
    (report : P2PStatsReport) (c' : p2pCoordinator) (d : Z * Z) : Prop :=
  ∃ cl, closedStats c !! sr_GrantID report = Some cl ∧ now < cl_expiresAt cl
    ∧ g_sessionID (cl_grant cl) = sr_SessionID report
    ∧ g_tunnelID (cl_grant cl) = sr_TunnelID report
    ∧ g_revision (cl_grant cl) = sr_Revision report
    ∧ clientID = g_targetClientID (cl_grant cl) ∧ generation = cl_targetGeneration cl
    ∧ cursor_admits (cl_cursor cl) report ∧ d = stats_delta (cl_cursor cl) report
    ∧ c' = set_closed c (<[sr_GrantID report := closed_with_cursor cl (report_cursor report)]>
                           (closedStats c)).

Lemma acceptClosedStats_ok now c clientID generation report c' d :
  acceptClosedStats now c clientID generation report = (c', Ok d) →
  stats_closed now c clientID generation report c' d.
Proof.
  unfold acceptClosedStats, time_after. intros H.
  destruct (closedStats c !! _) as [cl|] eqn:E; [|done]. exists cl.
  destruct (_ || _) eqn:E1 in H; [done|]. destruct (_ || _) eqn:E2 in H; [done|].
  destruct (_ && _) eqn:E3 in H; [done|]. destruct (_ || _) eqn:E4 in H; [done|].
  simplify_eq. reflect_guards. unfold cursor_admits.
  destruct E1 as [[[? ?] ?] ?], E2, E4 as [[? ?] ?]. split_and!; try done; try lia.
Qed.

Lemma acceptStats_ok now c clientID generation report c' d :
  acceptStats now c clientID generation report = (c', Ok d) →
  stats_live now c clientID generation report c' d
  ∨ stats_closed now c clientID generation report c' d.
Proof.
  unfold acceptStats. intros H.
  destruct (P2PStatsReport_Validate report); [|done].
  destruct (live_session _ _ _) as [[l s]|] eqn:EL; [|right; by apply acceptClosedStats_ok].
  destruct (live_grant _ _ _) as [g|] eqn:EG; [|right; by apply acceptClosedStats_ok].
  left. apply live_session_Some in EL as (Hl & Hheap & Hnow).
  unfold live_grant, time_after in EG. destruct (s_grants s !! _) as [g'|] eqn:Eg; [|done].
  destruct (_ || _) eqn:E0 in EG; [done|]. simplify_eq.
  destruct (_ || _) eqn:E1 in H; [done|]. destruct (_ && _) eqn:E2 in H; [done|].
  destruct (_ <=? _) eqn:E3 in H; [done|]. destruct (_ || _) eqn:E4 in H; [done|].
  simplify_eq. exists l, s, g. reflect_guards.
  destruct E0 as [[E00 ?] ?], E1, E4. unfold cursor_admits. rewrite <- E00.
  split_and!; try done; try lia.
Qed.

(** *** Credit *)

Record credit_target (now : Z) (s : p2pPairSession) (grantID tunnelID : string) (revision : Z)
    (g : p2pGrant) : Prop := {
  ct_live : now < s_expiresAt s;
  ct_grant : s_grants s !! tunnelID = Some g;
  ct_gid : g_grantID g = grantID;
  ct_revision : g_revision g = revision;
  ct_limited : 0 < g_totalBPS g;
  ct_grant_live : now < g_expiresAt g;
}.

Lemma creditGrantLocked_ok now c sessionID grantID tunnelID revision l s g :
  creditGrantLocked now c sessionID grantID tunnelID revision = Ok (l, s, g) ↔
  byID c !! sessionID = Some l ∧ heap c !! l = Some s
  ∧ credit_target now s grantID tunnelID revision g.
Proof.
  unfold creditGrantLocked, time_after. split.
  - intros H. destruct (live_session _ _ _) as [[l' s']|] eqn:EL; [|done].
    apply live_session_Some in EL as (? & ? & ?).
    destruct (s_grants s' !! tunnelID) as [g'|] eqn:EG; [|done].
    destruct (_ || _) eqn:E in H; [done|]. simplify_eq. reflect_guards.
    split_and!; [done..|]. split; try done; tauto.
  - intros (Hl & Hheap & []). rewrite (proj2 (live_session_Some now c _ l s)) by done.
    rewrite ct_grant0. subst.
    assert (_ || _ = false) as ->; [|done].
    rewrite eqb_str_refl, Z.eqb_refl. cbn. lia.
Qed.

Definition cursor_of (m : gmap string p2pCreditCursor) (gid : string) : p2pCreditCursor :=
  get_or zero_credit m gid.

Definition demand_cursor (d : P2PCreditDemand) : p2pCreditCursor :=
  {| cc_sequence := cd_Sequence d; cc_cumulative := cd_DesiredBytes d |}.
Definition grant_cursor (g : P2PCreditGrant) : p2pCreditCursor :=
  {| cc_sequence := cg_Sequence g; cc_cumulative := cg_GrantedBytes g |}.

Record demand_accepted (now : Z) (s : p2pPairSession) (clientID : string) (generation : Z)
    (d : P2PCreditDemand) (s' : p2pPairSession) (p : p2pParticipant) : Prop := {
  da_valid : P2PCreditDemand_Validate d = Ok tt;
  da_target : ∃ g, credit_target now s (cd_GrantID d) (cd_TunnelID d) (cd_Revision d) g
                   ∧ clientID = g_ingressClientID g ∧ p = participant s (g_targetClientID g);
  da_generation : matchesGeneration s clientID generation = true;
  da_sequence : cc_sequence (cursor_of (s_creditDemand s) (cd_GrantID d)) < cd_Sequence d;
  da_monotone : cc_cumulative (cursor_of (s_creditDemand s) (cd_GrantID d)) ≤ cd_DesiredBytes d;
  da_state : s' = with_credit s (<[cd_GrantID d := demand_cursor d]> (s_creditDemand s))
                    (s_creditGrant s);
}.

Record credit_accepted (now : Z) (s : p2pPairSession) (clientID : string) (generation : Z)
    (g : P2PCreditGrant) (s' : p2pPairSession) (p : p2pParticipant) : Prop := {
  ca_valid : P2PCreditGrant_Validate g = Ok tt;
  ca_target : ∃ gr, credit_target now s (cg_GrantID g) (cg_TunnelID g) (cg_Revision g) gr
                   ∧ clientID = g_targetClientID gr ∧ p = participant s (g_ingressClientID gr);
  ca_generation : matchesGeneration s clientID generation = true;
  ca_sequence : cc_sequence (cursor_of (s_creditGrant s) (cg_GrantID g)) < cg_Sequence g;
  ca_monotone : cc_cumulative (cursor_of (s_creditGrant s) (cg_GrantID g)) ≤ cg_GrantedBytes g;
  ca_demanded : cg_GrantedBytes g ≤ cc_cumulative (cursor_of (s_creditDemand s) (cg_GrantID g));
  ca_state : s' = with_credit s (s_creditDemand s)
                    (<[cg_GrantID g := grant_cursor g]> (s_creditGrant s));
}.

Lemma authorizeCreditDemand_error now c clientID generation d c' e :
  authorizeCreditDemand now c clientID generation d = (c', Err e) → c' = c.
Proof. unfold authorizeCreditDemand. intros H. by op_cases H. Qed.

Lemma authorizeCreditGrant_error now c clientID generation g c' e :
  authorizeCreditGrant now c clientID generation g = (c', Err e) → c' = c.
Proof. unfold authorizeCreditGrant. intros H. by op_cases H. Qed.

Lemma authorizeCreditDemand_ok now c clientID generation d c' p :
  authorizeCreditDemand now c clientID generation d = (c', Ok p) →
  ∃ l s s', byID c !! cd_SessionID d = Some l ∧ heap c !! l = Some s
    ∧ demand_accepted now s clientID generation d s' p ∧ c' = set_session c l s'.
Proof.
  unfold authorizeCreditDemand. intros H.
  destruct (P2PCreditDemand_Validate d) as [[]|] eqn:EV; [|done].
  destruct (creditGrantLocked _ _ _ _ _ _) as [[[l s] g]|] eqn:EL; [|done].
  apply creditGrantLocked_ok in EL as (? & ? & HT). pose proof (ct_gid _ _ _ _ _ _ HT) as Hg.
  destruct (_ || _) eqn:E1 in H; [done|]. destruct (_ || _) eqn:E2 in H; [done|].
  simplify_eq. eexists l, s, _. rewrite Hg in *. split_and!; [done..| |done].
  reflect_guards. destruct E1, E2. split; try done. by exists g.
Qed.

Lemma authorizeCreditGrant_ok now c clientID generation g c' p :
  authorizeCreditGrant now c clientID generation g = (c', Ok p) →
  ∃ l s s', byID c !! cg_SessionID g = Some l ∧ heap c !! l = Some s
    ∧ credit_accepted now s clientID generation g s' p ∧ c' = set_session c l s'.
Proof.
  unfold authorizeCreditGrant. intros H.
  destruct (P2PCreditGrant_Validate g) as [[]|] eqn:EV; [|done].
  destruct (creditGrantLocked _ _ _ _ _ _) as [[[l s] gr]|] eqn:EL; [|done].
  apply creditGrantLocked_ok in EL as (? & ? & HT). pose proof (ct_gid _ _ _ _ _ _ HT) as Hg.
  destruct (_ || _) eqn:E1 in H; [done|]. destruct (_ || _) eqn:E2 in H; [done|].
  simplify_eq. eexists l, s, _. rewrite Hg in *. split_and!; [done..| |done].
  reflect_guards. destruct E1, E2 as [[? ?] ?]. split; try done. by exists gr.
Qed.

(** ** The frame of every operation *)

(** Two states of one session between which nothing was accepted: leases and
    grants may change, cursors and sequence numbers do not. *)
Definition quiet (s s' : p2pPairSession) : Prop :=
  same_session s s' ∧ s_lastSignal s' = s_lastSignal s ∧ s_lastStatus s' = s_lastStatus s
  ∧ s_candidates s' = s_candidates s ∧ s_ready s' = s_ready s ∧ s_stats s' = s_stats s
  ∧ s_creditDemand s' = s_creditDemand s ∧ s_creditGrant s' = s_creditGrant s.

Definition blank (s : p2pPairSession) : Prop :=
  s_lastSignal s = ∅ ∧ s_lastStatus s = ∅ ∧ s_candidates s = ∅ ∧ s_ready s = ∅
  ∧ s_stats s = ∅ ∧ s_creditDemand s = ∅ ∧ s_creditGrant s = ∅.

(** The operation was not an accepted report or request. *)
Definition accepts_nothing (op : coord_op) (out : coord_out) : Prop :=
  match op, out with
  | OpReady _ _ _, OutLifecycle (Ok _) => False
  | _, OutPeer (Ok _) | _, OutStats (Ok _) => False
  | _, _ => True
  end.

Record quiet_step (now : Z) (op : coord_op) (c c' : p2pCoordinator) : Prop := {
  qs_sessions : ∀ id s', sessions c' !! id = Some s' →
    (∃ s, sessions c !! id = Some s ∧ quiet s s')
    ∨ (blank s' ∧ ∃ spec gid, op = OpEnsure spec (Ok id) gid);
  qs_grants : ∀ gid id tid s' g, live_gid c' gid id tid s' g →
    (∃ s g0, live_gid c gid id tid s g0) ∨ ∃ spec sid, op = OpEnsure spec sid (Ok gid);
  qs_closed : ∀ gid cl, closedStats c' !! gid = Some cl →
    closedStats c !! gid = Some cl ∨ archived now c (λ _ _, True) gid cl;
}.

(** One accepted report or request changes one session or one archive entry. *)
Inductive coord_effect (now : Z) (op : coord_op) (out : coord_out) (c c' : p2pCoordinator)
    : Prop :=
| ce_quiet :
    accepts_nothing op out → quiet_step now op c c' → coord_effect now op out c c'
| ce_signal clientID generation signal p s s' :
    op = OpSignal clientID generation signal → out = OutPeer (Ok p) →
    sessions c !! sig_SessionID signal = Some s →
    signal_accepted now s clientID generation signal s' p →
    sessions c' = <[sig_SessionID signal := s']> (sessions c) →
    closedStats c' = closedStats c → coord_effect now op out c c'
| ce_ready clientID generation status r s s' :
    op = OpReady clientID generation status → out = OutLifecycle (Ok r) →
    sessions c !! st_SessionID status = Some s →
    ready_accepted now s clientID generation status s' →
    sessions c' = <[st_SessionID status := s']> (sessions c) →
    closedStats c' = closedStats c → coord_effect now op out c c'
| ce_stats_live clientID generation report d s g :
    op = OpStats clientID generation report → out = OutStats (Ok d) →
    live_gid c (sr_GrantID report) (sr_SessionID report) (sr_TunnelID report) s g →
    cursor_admits (get_or zero_cursor (s_stats s) (sr_GrantID report)) report →
    d = stats_delta (get_or zero_cursor (s_stats s) (sr_GrantID report)) report →
    sessions c' = <[sr_SessionID report :=
      with_stats s (<[sr_GrantID report := report_cursor report]> (s_stats s))]> (sessions c) →
    closedStats c' = closedStats c → coord_effect now op out c c'
| ce_stats_closed clientID generation report d cl :
    op = OpStats clientID generation report → out = OutStats (Ok d) →
    closedStats c !! sr_GrantID report = Some cl →
    cursor_admits (cl_cursor cl) report → d = stats_delta (cl_cursor cl) report →
    sessions c' = sessions c →
    closedStats c' = <[sr_GrantID report := closed_with_cursor cl (report_cursor report)]>
                       (closedStats c) → coord_effect now op out c c'
| ce_demand clientID generation d p s s' :
    op = OpDemand clientID generation d → out = OutPeer (Ok p) →
    sessions c !! cd_SessionID d = Some s →
    demand_accepted now s clientID generation d s' p →
    sessions c' = <[cd_SessionID d := s']> (sessions c) →
    closedStats c' = closedStats c → coord_effect now op out c c'
| ce_credit clientID generation g p s s' :
    op = OpCredit clientID generation g → out = OutPeer (Ok p) →
    sessions c !! cg_SessionID g = Some s →
    credit_accepted now s clientID generation g s' p →
    sessions c' = <[cg_SessionID g := s']> (sessions c) →
    closedStats c' = closedStats c → coord_effect now op out c c'.

Lemma quiet_refl s : quiet s s.
Proof. by repeat split. Qed.

Lemma quiet_step_refl now op c : quiet_step now op c c.
Proof.
  split; [|by eauto|by left]. intros id s' H. left. exists s'. split; [done|apply quiet_refl].
Qed.

(** Identifiers an operation issues, and what its arguments must satisfy. *)
Definition ok_list (r : result string) : list string :=
  match r with Ok x => [x] | Err _ => [] end.
Definition issued_op (op : coord_op) : list string :=
  match op with OpEnsure _ sid gid => ok_list sid ++ ok_list gid | _ => [] end.

Definition op_ok (op : coord_op) : Prop :=
  match op with
  | OpEnsure spec _ _ => nul_free (gs_ingressClientID spec) ∧ nul_free (gs_targetClientID spec)
  | OpStats _ _ report => is_u64 (sr_IngressBytes report) ∧ is_u64 (sr_EgressBytes report)
  | OpCredit _ _ credit => is_u64 (cg_GrantedBytes credit)
  | _ => True
  end.

Section steps.
Context (o : range_order) (now : Z) (lower : string → string).
Context (used : gset string) (c : p2pCoordinator) (I : coord_inv used c).

(** An accepted message rewrites one session in place. *)
Lemma inv_update id l s s' :
  byID c !! id = Some l → heap c !! l = Some s →
  same_session s s' → session_wf s' → dom (s_stats s') ⊆ used → s_grants s' = s_grants s →
  coord_inv used (set_session c l s').
Proof using I.
  intros Hl Hs Hsame Hwf Hst Hg.
  eapply (inv_set used used c id l s s' (λ _ _, False)); eauto; [|done..].
  intros tid g. rewrite Hg. eauto.
Qed.

Lemma update_effect id l s s' :
  byID c !! id = Some l → heap c !! l = Some s →
  sessions c !! id = Some s ∧ session_wf s ∧ dom (s_stats s) ⊆ used
  ∧ sessions (set_session c l s') = <[id := s']> (sessions c).
Proof using I.
  intros Hl Hs. assert (Hss : sessions c !! id = Some s) by (apply sessions_lookup; eauto).
  destruct (ci_used _ _ I _ _ Hss). split_and!; [done| |done|by eapply sessions_set].
  by eapply ci_wf.
Qed.

Lemma admit_candidate_wf r r' :
  rate_wf r ∨ r = zero_rate → admit_candidate now r = Ok r' →
  rate_wf r' ∧ rate_total r' = rate_total r + 1.
Proof using Type.
  unfold admit_candidate, rate_wf, zero_rate, p2pCandidatesPerWindow, P2PMaxCandidates.
  intros Hr H. repeat (split_if; try done); simplify_eq/=;
    reflect_guards; destruct Hr as [Hr| ->]; cbn in *; lia.
Qed.

Lemma signal_accepted_wf s clientID generation signal s' p :
  session_wf s → signal_accepted now s clientID generation signal s' p →
  session_wf s' ∧ same_session s s' ∧ s_grants s' = s_grants s ∧ s_stats s' = s_stats s.
Proof using Type.
  intros Hwf [_ _ _ _ _ _ (cands & -> & Hc)]. split_and!; try done.
  apply (session_wf_update s); try done; try apply Hwf. cbn.
  destruct (decide _); [|subst; apply Hwf].
  destruct Hc as (rate & Ha & ->). apply map_Forall_insert_2; [|apply Hwf].
  eapply admit_candidate_wf; [|exact Ha]. unfold get_or.
  destruct (s_candidates s !! clientID) as [r|] eqn:E; [left|by right].
  by eapply (sw_candidates s Hwf).
Qed.

Lemma step_signal clientID generation signal c' out :
  apply_op o now lower c (OpSignal clientID generation signal) = (c', out) →
  coord_inv used c' ∧ coord_effect now (OpSignal clientID generation signal) out c c'.
Proof using I.
  cbn. destruct (authorizeSignal _ _ _ _ _) as [c1 r] eqn:E. intros [= <- <-].
  destruct r as [p|e].
  - apply (authorizeSignal_ok _ _ _ _ _ _ _ _ I) in E as (l & s & s' & Hl & Hs & Ha & ->).
    destruct (update_effect _ _ _ s' Hl Hs) as (Hss & Hwf & Hst & HS).
    destruct (signal_accepted_wf _ _ _ _ _ _ Hwf Ha) as (? & ? & ? & Hstats).
    split; [|by eapply ce_signal]. eapply inv_update; eauto. by rewrite Hstats.
  - apply authorizeSignal_error in E as ->. split; [done|].
    apply ce_quiet; [done|apply quiet_step_refl].
Qed.

Lemma step_ready clientID generation status c' out :
  apply_op o now lower c (OpReady clientID generation status) = (c', out) →
  coord_inv used c' ∧ coord_effect now (OpReady clientID generation status) out c c'.
Proof using I.
  cbn. destruct (recordReady _ _ _ _ _ _ _) as [c1 r] eqn:E. intros [= <- <-].
  destruct r as [p|e].
  - apply recordReady_ok in E as (l & s & s' & Hl & Hs & Ha & -> & _).
    destruct (update_effect _ _ _ s' Hl Hs) as (Hss & Hwf & Hst & HS).
    split; [|by eapply ce_ready]. destruct Ha as [_ _ _ _ _ ->].
    eapply inv_update; eauto; [done| |done..].
    apply (session_wf_update s); try done; apply Hwf.
  - apply recordReady_error in E as ->. split; [done|].
    apply ce_quiet; [done|apply quiet_step_refl].
Qed.

Lemma step_demand clientID generation d c' out :
  apply_op o now lower c (OpDemand clientID generation d) = (c', out) →
  coord_inv used c' ∧ coord_effect now (OpDemand clientID generation d) out c c'.
Proof using I.
  cbn. destruct (authorizeCreditDemand _ _ _ _ _) as [c1 r] eqn:E. intros [= <- <-].
  destruct r as [p|e].
  - apply authorizeCreditDemand_ok in E as (l & s & s' & Hl & Hs & Ha & ->).
    destruct (update_effect _ _ _ s' Hl Hs) as (Hss & Hwf & Hst & HS).
    split; [|by eapply ce_demand]. destruct Ha as [_ _ _ Hseq Hmono ->].
    eapply inv_update; eauto; [done| |done..].
    apply (session_wf_update s); try done; try apply Hwf. cbn. intros gid.
    pose proof (sw_credit s Hwf gid). rewrite get_or_insert.
    destruct (decide _) as [->|]; [|done]. cbn. unfold cursor_of in *. lia.
  - apply authorizeCreditDemand_error in E as ->. split; [done|].
    apply ce_quiet; [done|apply quiet_step_refl].
Qed.

Lemma step_credit clientID generation g c' out :
  apply_op o now lower c (OpCredit clientID generation g) = (c', out) →
  coord_inv used c' ∧ coord_effect now (OpCredit clientID generation g) out c c'.
Proof using I.
  cbn. destruct (authorizeCreditGrant _ _ _ _ _) as [c1 r] eqn:E. intros [= <- <-].
  destruct r as [p|e].
  - apply authorizeCreditGrant_ok in E as (l & s & s' & Hl & Hs & Ha & ->).
    destruct (update_effect _ _ _ s' Hl Hs) as (Hss & Hwf & Hst & HS).
    split; [|by eapply ce_credit]. destruct Ha as [_ _ _ Hseq Hmono Hle ->].
    eapply inv_update; eauto; [done| |done..].
    apply (session_wf_update s); try done; try apply Hwf. cbn. intros gid.
    pose proof (sw_credit s Hwf gid). rewrite get_or_insert.
    destruct (decide _) as [->|]; [|done]. cbn. unfold cursor_of in *. lia.
  - apply authorizeCreditGrant_error in E as ->. split; [done|].
    apply ce_quiet; [done|apply quiet_step_refl].
Qed.

Lemma step_stats clientID generation report c' out :
  apply_op o now lower c (OpStats clientID generation report) = (c', out) →
  coord_inv used c' ∧ coord_effect now (OpStats clientID generation report) out c c'.
Proof using I.
  cbn. destruct (acceptStats _ _ _ _ _) as [c1 r] eqn:E. intros [= <- <-].
  destruct r as [d|e].
  - apply acceptStats_ok in E as [(l & s & g & Hl & Hs & _ & Hg & Hgid & _ & _ & _ & _ & Hk & Hd & ->)
                                 |(cl & Hcl & _ & _ & _ & _ & _ & _ & Hk & Hd & ->)].
    + destruct (update_effect _ _ _ (with_stats s (<[sr_GrantID report := report_cursor report]>
        (s_stats s))) Hl Hs) as (Hss & Hwf & Hst & HS).
      split; [|by eapply ce_stats_live].
      eapply inv_update; eauto; [done| |].
      * apply (session_wf_update s); try done; apply Hwf.
      * cbn. rewrite dom_insert. assert (sr_GrantID report ∈ used); [|set_solver].
        eapply (ci_used_grant _ _ I). by repeat split.
    + split; [|by eapply ce_stats_closed]. apply inv_closed; [done|].
      intros gid cl'. rewrite lookup_insert_Some. intros [[<- <-]|[_ H]].
      * split; [|by eexists]. by apply (ci_used_closed _ _ I) in Hcl as [_ ?].
      * split; [|by eexists]. by eapply (ci_used_closed _ _ I).
  - apply acceptStats_error in E as ->. split; [done|].
    apply ce_quiet; [done|apply quiet_step_refl].
Qed.
End steps.
