(* ===== verification/CoordinatorSteps.v ===== *)
(** The coordinator operations that create, renew and remove sessions: what each
    leaves of the session map and of the archive, and the step theorem that
    gathers the frame of all twelve operations. *)
From Stdlib Require Import ZArith Lia Ascii String.
From stdpp Require Import base tactics numbers list gmap strings sorting relations.
From S2P Require Import Prelude GoStrings Protocol Coordinator CoordinatorInv CoordinatorSpec.

(** ** Loops as decisions per session *)

(** [renew] deletes unhealthy and expired sessions and renews the others. *)
Definition renew_reason (now : Z) (healthy : option (string → Z → bool)) (s : p2pPairSession)
    : option string :=
  if match healthy with
     | Some h => negb (h (s_clientA s) (s_generationA s))
                 || negb (h (s_clientB s) (s_generationB s))
     | None => false
     end then Some "lease_unhealthy"%string else
  if negb (time_after (s_expiresAt s) now) then Some "lease_expired"%string else None.

Definition renewed (now : Z) (s : p2pPairSession) : p2pPairSession :=
  let s' := with_lease s (u64_succ (s_leaseSequence s)) (now + p2pLeaseDuration) in
  with_grants s' (renew_grant s' <$> s_grants s).

Definition renew_decision now healthy (s : p2pPairSession) : option p2pPairSession :=
  match renew_reason now healthy s with Some _ => None | None => Some (renewed now s) end.

(** A session of [clientID] at exactly this generation. *)
Definition involves (clientID : string) (generation : Z) (s : p2pPairSession) : bool :=
  ((s_clientA s =?s clientID) && (s_generationA s =? generation))
  || ((s_clientB s =?s clientID) && (s_generationB s =? generation)).

Definition keep_unless (p : p2pPairSession → bool) (s : p2pPairSession) : option p2pPairSession :=
  if p s then None else Some s.

Definition owned_by (ownerUserID : string) (participants : gmap string Z) (s : p2pPairSession)
    : bool :=
  negb (ownerUserID =?s "") && (s_ownerUserID s =?s ownerUserID)
  && (generation_matches participants (s_clientA s) (s_generationA s)
      || generation_matches participants (s_clientB s) (s_generationB s)).

Definition expired (now : Z) (s : p2pPairSession) : bool := negb (time_after (s_expiresAt s) now).

Section loops.
Context (o : range_order) (now : Z) (lower : string → string).

Lemma renew_one_visit healthy c r e :
  (renew_one o now healthy (c, r) e).1 = visit o now (renew_decision now healthy) c e.2.
Proof.
  unfold renew_one, visit, renew_decision, renew_reason. destruct (heap c !! e.2) as [s|]; [|done].
  destruct (match healthy with Some _ => _ | None => _ end); [done|].
  by destruct (negb (time_after _ _)).
Qed.

Lemma closeClient_one_visit clientID generation reason c r e :
  (closeClient_one o now lower clientID generation reason (c, r) e).1
  = visit o now (keep_unless (involves clientID generation)) c e.2.
Proof.
  unfold closeClient_one, visit, keep_unless, involves.
  destruct (heap c !! e.2) as [s|] eqn:E; [|done].
  destruct (s_clientA s =?s clientID), (s_generationA s =? generation),
    (s_clientB s =?s clientID), (s_generationB s =? generation); cbn;
    by rewrite ?set_session_id.
Qed.

Lemma closeClients_one_visit ownerUserID participants reason c r e :
  (closeClients_one o now lower ownerUserID participants reason (c, r) e).1
  = visit o now (keep_unless (owned_by ownerUserID participants)) c e.2.
Proof.
  unfold closeClients_one, visit, keep_unless, owned_by.
  destruct (heap c !! e.2) as [s|] eqn:E; [|done].
  destruct (ownerUserID =?s ""), (s_ownerUserID s =?s ownerUserID); cbn;
    rewrite ?set_session_id by done; try done.
  destruct (generation_matches _ (s_clientA s) _), (generation_matches _ (s_clientB s) _); cbn;
    by rewrite ?set_session_id.
Qed.

Lemma expire_one_visit c r e :
  (expire_one o now (c, r) e).1 = visit o now (keep_unless (expired now)) c e.2.
Proof.
  unfold expire_one, visit, keep_unless, expired. destruct (heap c !! e.2) as [s|] eqn:E; [|done].
  destruct (negb _); [done|]. by rewrite set_session_id.
Qed.

(** The session map and the archive after a loop with decision [d]. *)
Definition swept (used : gset string) (c c' : p2pCoordinator)
    (d : p2pPairSession → option p2pPairSession) : Prop :=
  coord_inv used c' ∧ sessions c' = omap d (sessions c) ∧
  ∀ gid cl, closedStats c' !! gid = Some cl ↔
    closedStats c !! gid = Some cl ∨ archived now c (λ _ s, d s = None) gid cl.

Context (used : gset string) (c : p2pCoordinator) (I : coord_inv used c).

Lemma keeps_refl id s : sessions c !! id = Some s → keeps used s s.
Proof using I.
  intros Hs. split_and!; [apply same_session_refl|by eapply ci_wf| |by eauto].
  by destruct (ci_used _ _ I _ _ Hs).
Qed.

Lemma renewed_keeps id s : sessions c !! id = Some s → keeps used s (renewed now s).
Proof using I.
  intros Hs. pose proof (ci_wf _ _ I _ _ Hs) as Hwf.
  assert (Hsame : same_session s (renewed now s)) by (by repeat split).
  split_and!; [done| |by destruct (ci_used _ _ I _ _ Hs)|].
  - apply (session_wf_update s); try done; try apply Hwf. cbn.
    intros tid g (g0 & <- & Hg)%lookup_fmap_Some.
    destruct (sw_grants s Hwf _ _ Hg). by split.
  - cbn. intros tid g (g0 & <- & Hg)%lookup_fmap_Some. by exists g0.
Qed.

Lemma keep_unless_keeps p id s s' :
  sessions c !! id = Some s → keep_unless p s = Some s' → keeps used s s'.
Proof using I. unfold keep_unless. intros. destruct (p s); simplify_eq. by eapply keeps_refl. Qed.

Lemma closeClient_swept clientID generation reason :
  swept used c (closeClient o now lower c clientID generation reason).1
    (keep_unless (involves clientID generation)).
Proof using I.
  apply (loop_sessions used o now _ _ c [] I); [apply closeClient_one_visit|].
  intros. by eapply keep_unless_keeps.
Qed.

Lemma closeClients_swept ownerUserID participants reason :
  swept used c (closeClients o now lower c ownerUserID participants reason).1
    (keep_unless (owned_by ownerUserID participants)).
Proof using I.
  apply (loop_sessions used o now _ _ c [] I); [apply closeClients_one_visit|].
  intros. by eapply keep_unless_keeps.
Qed.
End loops.

Lemma renew_swept o now used c healthy :
  coord_inv used c →
  swept now used (expireClosedStats now c) (renew o now c healthy).1 (renew_decision now healthy).
Proof.
  intros I. apply (loop_sessions used o now); [by apply inv_expireClosed|apply renew_one_visit|].
  unfold renew_decision. intros id s s' Hs H. destruct (renew_reason _ _ _); [done|].
  injection H as <-. by eapply renewed_keeps.
Qed.

Lemma expire_swept o now used c :
  coord_inv used c →
  swept now used (expireClosedStats now c) (expire o now c).1 (keep_unless (expired now)).
Proof.
  intros I. assert (I' : coord_inv used (expireClosedStats now c)) by (by apply inv_expireClosed).
  pose proof (loop_sessions used o now (expire_one o now) (keep_unless (expired now)) _ [] I'
    (expire_one_visit o now)) as H.
  unfold expire, swept. destruct (foldl _ _ _) as [c' ids]. cbn in *. apply H.
  intros. by eapply (keep_unless_keeps used (expireClosedStats now c)).
Qed.

Lemma closeSession_swept o now lower used c sessionID reason :
  coord_inv used c →
  swept now used c (closeSession o now lower c sessionID reason).1
    (keep_unless (λ s, s_id s =?s sessionID)).
Proof.
  intros I. unfold closeSession, swept, keep_unless.
  destruct (lookup_id c sessionID) as [[l s]|] eqn:E; cbn [fst].
  - apply lookup_id_Some in E as [Hl Hs].
    assert (Hss : sessions c !! sessionID = Some s) by (apply sessions_lookup; eauto).
    pose proof (sessions_id _ _ _ _ I Hss) as Hid. split_and!.
    + by eapply inv_delete.
    + rewrite sessions_delete, Hid. apply map_eq. intros id. rewrite lookup_omap.
      destruct (decide (id = sessionID)) as [->|Hne].
      * rewrite lookup_delete_eq, Hss. cbn. by rewrite Hid, eqb_str_refl.
      * rewrite lookup_delete_ne by done. destruct (sessions c !! id) as [s'|] eqn:E; [|done].
        cbn. rewrite (sessions_id _ _ _ _ I E). by rewrite (proj2 (eqb_str_false _ _) Hne).
    + intros gid cl. rewrite (delete_closed used) by done. apply or_iff_compat_l.
      split; intros (id & s' & tid & g & Hn & (Hs' & Hg & Hgid) & ->); exists id, s', tid, g.
      * subst s'. rewrite Hid, eqb_str_refl. by repeat split.
      * rewrite (sessions_id _ _ _ _ I Hs') in Hn.
        destruct (String.eqb_spec id sessionID) as [->|]; [|done].
        split_and!; [congruence| |done]. by repeat split.
  - split_and!; [done| |].
    + apply map_eq. intros id. rewrite lookup_omap.
      destruct (sessions c !! id) as [s'|] eqn:E'; [|done]. cbn.
      rewrite (sessions_id _ _ _ _ I E'). destruct (String.eqb_spec id sessionID) as [->|]; [|done].
      rewrite sessions_lookup_id, E in E'. done.
    + intros gid cl. split; [by left|]. intros [?|(id & s' & tid & g & Hn & (Hs' & _) & _)]; [done|].
      rewrite (sessions_id _ _ _ _ I Hs') in Hn.
      destruct (String.eqb_spec id sessionID) as [->|]; [|done].
      rewrite sessions_lookup_id, E in Hs'. done.
Qed.

(** A sweep accepts nothing. *)
Lemma swept_quiet now used c0 c c' d op :
  swept now used c c' d → sessions c = sessions c0 →
  (∀ gid cl, closedStats c !! gid = Some cl → closedStats c0 !! gid = Some cl) →
  (∀ s s', d s = Some s' → quiet s s') →
  (∀ s s' tid g', d s = Some s' → s_grants s' !! tid = Some g' →
     ∃ g, s_grants s !! tid = Some g ∧ g_grantID g = g_grantID g') →
  quiet_step now op c0 c'.
Proof.
  intros (I & HS & HC) HS0 HC0 Hq Hg. rewrite HS0 in HS. split.
  - intros id s'. rewrite HS, lookup_omap_Some. intros (s & Hd & Hs). left. eauto.
  - intros gid id tid s' g (H & Hg' & <-). rewrite HS, lookup_omap_Some in H.
    destruct H as (s & Hd & Hs). left. destruct (Hg _ _ _ _ Hd Hg') as (g0 & ? & ?).
    exists s, g0. by repeat split.
  - intros gid cl [H|(id & s & tid & g & _ & (H1 & H2 & H3) & ->)]%HC.
    + left. by apply HC0.
    + right. exists id, s, tid, g. split_and!; try done. split; [by rewrite <- HS0|done].
Qed.

Lemma keep_unless_quiet p s s' : keep_unless p s = Some s' → s' = s.
Proof. unfold keep_unless. by destruct (p s); intros; simplify_eq. Qed.

Section sweeps.
Context (o : range_order) (now : Z) (lower : string → string).
Context (used : gset string) (c : p2pCoordinator) (I : coord_inv used c).

Lemma keep_sweep_effect op out c' c1 p :
  swept now used c1 c' (keep_unless p) → accepts_nothing op out →
  sessions c1 = sessions c →
  (∀ gid cl, closedStats c1 !! gid = Some cl → closedStats c !! gid = Some cl) →
  coord_inv used c' ∧ coord_effect now op out c c'.
Proof using Type.
  intros Hsw Hout HS HC. split; [by apply Hsw|]. apply ce_quiet; [done|].
  eapply swept_quiet; eauto.
  - intros s s' ->%keep_unless_quiet. apply quiet_refl.
  - intros s s' tid g ->%keep_unless_quiet. eauto.
Qed.

Lemma step_renew healthy c' out :
  apply_op o now lower c (OpRenew healthy) = (c', out) →
  coord_inv used c' ∧ coord_effect now (OpRenew healthy) out c c'.
Proof using I.
  pose proof (renew_swept o now used c healthy I) as Hsw. cbn.
  destruct (renew _ _ _ _) as [c1 r]. intros [= <- <-]. split; [by apply Hsw|].
  apply ce_quiet; [done|]. eapply swept_quiet; [exact Hsw|done|..].
  - by intros gid cl [? _]%expireClosed_lookup.
  - unfold renew_decision. intros s s' H. destruct (renew_reason _ _ _); [done|].
    injection H as <-. by repeat split.
  - unfold renew_decision. intros s s' tid g' H Hg. destruct (renew_reason _ _ _); [done|].
    injection H as <-. cbn in Hg. apply lookup_fmap_Some in Hg as (g & <- & Hg). by exists g.
Qed.

Lemma step_expire c' out :
  apply_op o now lower c OpExpire = (c', out) →
  coord_inv used c' ∧ coord_effect now OpExpire out c c'.
Proof using I.
  pose proof (expire_swept o now used c I) as Hsw. cbn.
  destruct (expire _ _ _) as [c1 r]. intros [= <- <-].
  eapply keep_sweep_effect; [exact Hsw|done|done|]. by intros gid cl [? _]%expireClosed_lookup.
Qed.

Lemma step_closeClient clientID generation reason c' out :
  apply_op o now lower c (OpCloseClient clientID generation reason) = (c', out) →
  coord_inv used c' ∧ coord_effect now (OpCloseClient clientID generation reason) out c c'.
Proof using I.
  pose proof (closeClient_swept o now lower used c I clientID generation reason) as Hsw. cbn.
  destruct (closeClient _ _ _ _ _ _ _) as [c1 r]. intros [= <- <-].
  by eapply keep_sweep_effect.
Qed.

Lemma step_closeClients ownerUserID participants reason c' out :
  apply_op o now lower c (OpCloseClients ownerUserID participants reason) = (c', out) →
  coord_inv used c'
  ∧ coord_effect now (OpCloseClients ownerUserID participants reason) out c c'.
Proof using I.
  pose proof (closeClients_swept o now lower used c I ownerUserID participants reason) as Hsw.
  cbn. destruct (closeClients _ _ _ _ _ _ _) as [c1 r]. intros [= <- <-].
  by eapply keep_sweep_effect.
Qed.

Lemma step_closeSession sessionID reason c' out :
  apply_op o now lower c (OpCloseSession sessionID reason) = (c', out) →
  coord_inv used c' ∧ coord_effect now (OpCloseSession sessionID reason) out c c'.
Proof using I.
  pose proof (closeSession_swept o now lower used c sessionID reason I) as Hsw.
  cbn. destruct (closeSession _ _ _ _ _ _) as [c1 r]. intros [= <- <-].
  by eapply keep_sweep_effect.
Qed.
End sweeps.

(** ** Revocation *)

Lemma inv_archive used c gid cl :
  coord_inv used c → gid ∈ used → (∀ id tid s g, ¬ live_gid c gid id tid s g) →
  g_grantID (cl_grant cl) = gid →
  coord_inv used (set_closed c (<[gid := cl]> (closedStats c))).
Proof.
  intros I Hu Hn Hg. split; [apply I..| | |].
  - intros gid' cl'. cbn. rewrite lookup_insert_Some.
    intros [[<- <-]|[_ ?]]; [done|by eapply (ci_used_closed _ _ I)].
  - apply I.
  - intros gid' id tid s g H. cbn. rewrite lookup_insert_ne; [by eapply (ci_disjoint _ _ I)|].
    intros ->. by apply Hn in H.
Qed.

Lemma find_tunnel_Some c es tunnelID revision l s g :
  find_tunnel c es tunnelID revision = Some (l, s, g) →
  l ∈ es.*2 ∧ heap c !! l = Some s ∧ s_grants s !! tunnelID = Some g
  ∧ (revision ≤ 0 ∨ g_revision g ≤ revision).
Proof.
  induction es as [|[id l'] es IH]; [done|]. cbn.
  destruct (heap c !! l') as [s'|] eqn:E; [|set_solver].
  destruct (s_grants s' !! tunnelID) as [g'|] eqn:E'; [|set_solver].
  destruct (_ || _) eqn:EC; [|set_solver]. intros [= -> -> ->]. reflect_guards.
  split_and!; [set_solver|done..].
Qed.

Lemma find_tunnel_None c es tunnelID revision :
  find_tunnel c es tunnelID revision = None →
  ∀ l s g, l ∈ es.*2 → heap c !! l = Some s → s_grants s !! tunnelID = Some g →
  0 < revision < g_revision g.
Proof.
  induction es as [|[id l'] es IH]; [set_solver|]. cbn. intros H l s g Hin Hs Hg.
  apply elem_of_cons in Hin as [->|Hin].
  - rewrite Hs, Hg in H. destruct (_ || _) eqn:E in H; [done|]. reflect_guards. lia.
  - eapply IH; eauto. destruct (heap c !! l') as [s'|]; [|done].
    destruct (s_grants s' !! tunnelID); [|done]. by destruct (_ || _).
Qed.

(** The revoked grant, and the session it leaves. *)
Lemma revoke_cases o now lower used c tunnelID revision reason :
  coord_inv used c →
  let c' := (revokeTunnel o now lower c tunnelID revision reason).1 in
  (c' = c ∧ (∀ id s g, sessions c !! id = Some s → s_grants s !! tunnelID = Some g →
               0 < revision < g_revision g))
  ∨ ∃ id s g, live_gid c (g_grantID g) id tunnelID s g
      ∧ (revision ≤ 0 ∨ g_revision g ≤ revision)
      ∧ let s' := with_grants s (delete tunnelID (s_grants s)) in
        coord_inv used c' ∧ closedStats c' = archiveGrant now s' (closedStats c) g
        ∧ sessions c' = if decide (delete tunnelID (s_grants s) = ∅)
                        then delete id (sessions c) else <[id := s']> (sessions c).
Proof.
  intros I. unfold revokeTunnel.
  destruct (find_tunnel _ _ _ _) as [[[l s] g]|] eqn:E; cbn [fst].
  2: { left. split; [done|]. intros id s g (l & Hl & Hs)%sessions_lookup Hg.
       eapply find_tunnel_None; eauto. apply list_elem_of_fmap. exists (id, l).
       by rewrite elem_of_range. }
  right. apply find_tunnel_Some in E as (Hin & Hs & Hg & Hrev).
  apply list_elem_of_fmap in Hin as ([id l'] & -> & Hin%elem_of_range). cbn [snd] in *.
  assert (Hss : sessions c !! id = Some s) by (apply sessions_lookup; eauto).
  exists id, s, g. split; [by repeat split|]. split; [done|]. cbv zeta.
  set (s' := with_grants s (delete tunnelID (s_grants s))).
  pose proof (sessions_set _ _ _ _ s' I Hin) as HS.
  pose proof (ci_wf _ _ I _ _ Hss) as Hwf. destruct (ci_used _ _ I _ _ Hss) as [_ Hst].
  assert (Hsub : ∀ tid g', s_grants s' !! tid = Some g' →
            tid ≠ tunnelID ∧ s_grants s !! tid = Some g').
  { intros tid g'. cbn. rewrite lookup_delete_Some. naive_solver. }
  assert (I1 : coord_inv used (set_session c l' s')).
  { eapply (inv_set used used c id l' s s' (λ _ _, False)); eauto; try done.
    - apply (session_wf_update s); try done; try apply Hwf.
      intros tid g' [_ ?]%Hsub. by apply (sw_grants s Hwf).
    - intros tid g' [_ ?]%Hsub. eauto. }
  set (c2 := set_closed (set_session c l' s') (archiveGrant now s' (closedStats c) g)).
  assert (I2 : coord_inv used c2).
  { apply (inv_archive used (set_session c l' s') (g_grantID g)); [done| | |done].
    - eapply (ci_used_grant _ _ I). by repeat split.
    - intros id' tid s0 g0 (H1 & H2 & H3). rewrite HS in H1.
      destruct (decide (id' = id)) as [->|Hne].
      + rewrite lookup_insert_eq in H1. injection H1 as <-. apply Hsub in H2 as [Hne H2].
        apply Hne. edestruct (ci_unique _ _ I (g_grantID g) id tunnelID s g id tid s g0)
          as [_ ?]; by repeat split.
      + rewrite lookup_insert_ne in H1 by done. apply Hne.
        edestruct (ci_unique _ _ I (g_grantID g) id tunnelID s g id' tid s0 g0)
          as [? _]; by repeat split. }
  assert (HS2 : sessions c2 !! id = Some s') by (unfold c2; by rewrite sessions_closed, HS, lookup_insert_eq).
  destruct (decide (delete tunnelID (s_grants s) = ∅)) as [He|He].
  - rewrite bool_decide_eq_true_2 by done. split_and!.
    + by eapply inv_delete.
    + unfold deleteSession. cbn [closedStats]. assert (range o (s_grants s') = []) as ->; [|done].
      apply Permutation_nil. rewrite range_perm. cbn. by rewrite He, map_to_list_empty.
    + rewrite sessions_delete, (sessions_id _ _ _ _ I2 HS2). unfold c2.
      by rewrite sessions_closed, HS, delete_insert_eq.
  - rewrite bool_decide_eq_false_2 by done. split_and!; [done|done|]. unfold c2.
    by rewrite sessions_closed, HS.
Qed.

Lemma step_revoke o now lower used c tunnelID revision reason c' out :
  coord_inv used c →
  apply_op o now lower c (OpRevoke tunnelID revision reason) = (c', out) →
  coord_inv used c' ∧ coord_effect now (OpRevoke tunnelID revision reason) out c c'.
Proof.
  intros I. pose proof (revoke_cases o now lower used c tunnelID revision reason I) as H. cbn.
  destruct (revokeTunnel _ _ _ _ _ _ _) as [c1 r]. intros [= <- <-]. cbn in H.
  destruct H as [[-> _]|(id & s & g & Hlive & _ & I' & HC & HS)].
  { split; [done|]. apply ce_quiet; [done|apply quiet_step_refl]. }
  split; [done|]. apply ce_quiet; [done|].
  assert (HS' : ∀ id' s', sessions c1 !! id' = Some s' →
     ∃ s0, sessions c !! id' = Some s0 ∧ quiet s0 s'
           ∧ ∀ tid g', s_grants s' !! tid = Some g' → s_grants s0 !! tid = Some g').
  { intros id' s'. rewrite HS. destruct Hlive as (H1 & H2 & _).
    assert (Hq : sessions c !! id' = Some s' → ∃ s0, sessions c !! id' = Some s0 ∧ quiet s0 s'
      ∧ ∀ tid g', s_grants s' !! tid = Some g' → s_grants s0 !! tid = Some g').
    { intros ?. exists s'. split_and!; [done|apply quiet_refl|done]. }
    destruct (decide _).
    - intros [_ ?]%lookup_delete_Some. auto.
    - rewrite lookup_insert_Some. intros [[<- <-]|[_ ?]]; [|auto]. exists s.
      split_and!; [done|by repeat split|]. cbn. by intros tid g' [_ ?]%lookup_delete_Some. }
  split.
  - intros id' s' (s0 & ? & ? & _)%HS'. left. eauto.
  - intros gid id' tid s' g' ((s0 & ? & _ & Hg)%HS' & Hg' & <-). left.
    exists s0, g'. repeat split; [done|by apply Hg].
  - intros gid cl. rewrite HC. unfold archiveGrant. rewrite lookup_insert_Some.
    intros [[<- <-]|[_ ?]]; [right|by left]. exists id, s, tunnelID, g. by split_and!.
Qed.

(** ** Granting *)

Lemma nul_free_cons ch s : nul_free (String.String ch s) → ch ≠ "000"%char ∧ nul_free s.
Proof.
  intros H. split.
  - intros ->. by apply (H EmptyString s).
  - intros a b ->. by apply (H (String.String ch a) b).
Qed.

Lemma pair_key_inj a b a' b' :
  nul_free a → nul_free a' → pair_key a b = pair_key a' b' → a = a' ∧ b = b'.
Proof.
  unfold pair_key. revert a'. induction a as [|ch a IH]; intros [|ch' a'] Ha Ha' H; cbn in H.
  - by simplify_eq.
  - injection H as <- _. by apply nul_free_cons in Ha' as [].
  - injection H as -> _. by apply nul_free_cons in Ha as [].
  - injection H as <- H. apply nul_free_cons in Ha as [_ Ha]. apply nul_free_cons in Ha' as [_ Ha'].
    by destruct (IH a' Ha Ha' H) as [-> ->].
Qed.

(** An accepted grant specification. *)
Record spec_wf (spec : p2pGrantSpec) : Prop := {
  sp_tunnel : gs_tunnelID spec ≠ ""%string;
  sp_revision : 0 < gs_revision spec;
  sp_clients : gs_ingressClientID spec ≠ ""%string ∧ gs_targetClientID spec ≠ ""%string
               ∧ gs_ingressClientID spec ≠ gs_targetClientID spec;
  sp_generations : gs_ingressGeneration spec ≠ 0 ∧ gs_targetGeneration spec ≠ 0;
  sp_owner : gs_ownerUserID spec = ""%string ↔ gs_ownerEpoch spec = 0;
  sp_bps : 0 ≤ gs_totalBPS spec;
}.

Lemma check_grant_spec_iff spec : check_grant_spec spec = Ok tt ↔ spec_wf spec.
Proof.
  unfold check_grant_spec. split.
  - intros H. guards_ok H. reflect_guards. split; try tauto; try lia.
    destruct (String.eqb_spec (gs_ownerUserID spec) ""),
      (Z.eqb_spec (gs_ownerEpoch spec) 0); cbn in *; try done; tauto.
  - intros [H1 H2 (H3 & H4 & H5) [H6 H7] H8 H9].
    rewrite (proj2 (eqb_str_false _ _) H1), (proj2 (eqb_str_false _ _) H3),
      (proj2 (eqb_str_false _ _) H4), (proj2 (eqb_str_false _ _) H5),
      (proj2 (Z.leb_gt _ _) H2), (proj2 (Z.eqb_neq _ _) H6), (proj2 (Z.eqb_neq _ _) H7).
    cbn. destruct (String.eqb_spec (gs_ownerUserID spec) ""),
      (Z.eqb_spec (gs_ownerEpoch spec) 0); cbn; try tauto;
      by rewrite (proj2 (Z.ltb_ge _ _) H9).
Qed.

(** The session serves exactly the clients, generations and owner of the spec. *)
Record session_for (s : p2pPairSession) (spec : p2pGrantSpec) : Prop := {
  sf_pair : normalizeP2PPair spec
            = (s_clientA s, s_clientB s, s_generationA s, s_generationB s);
  sf_owner : s_ownerUserID s = gs_ownerUserID spec ∧ s_ownerEpoch s = gs_ownerEpoch spec;
}.

Lemma normalize_order spec a b genA genB :
  normalizeP2PPair spec = (a, b, genA, genB) → spec_wf spec →
  (a <?s b) = true ∧ genA ≠ 0 ∧ genB ≠ 0 ∧ a ≠ ""%string ∧ b ≠ ""%string
  ∧ ((gs_ingressClientID spec = a ∧ gs_targetClientID spec = b)
     ∨ (gs_ingressClientID spec = b ∧ gs_targetClientID spec = a)).
Proof.
  unfold normalizeP2PPair. intros H [_ _ (? & ? & Hne) [? ?] _ _].
  destruct (gs_ingressClientID spec <?s gs_targetClientID spec) eqn:E; simplify_eq.
  - split_and!; auto.
  - split_and!; auto. by apply ltb_total.
Qed.

Lemma new_session_wf now id a b genA genB spec :
  normalizeP2PPair spec = (a, b, genA, genB) → spec_wf spec → nul_free a → nul_free b →
  session_wf (new_session now id a b genA genB spec)
  ∧ session_for (new_session now id a b genA genB spec) spec.
Proof.
  intros H Hwf Ha Hb. destruct (normalize_order _ _ _ _ _ H Hwf) as (? & ? & ? & ? & ? & _).
  split; [|by split]. split; cbn; try done. by apply Hwf.
Qed.

Lemma new_grant_wf now s gid spec :
  session_for s spec → spec_wf spec → grant_wf s (gs_tunnelID spec) (new_grant now s gid spec).
Proof.
  intros [Hp Ho] Hwf. destruct (normalize_order _ _ _ _ _ Hp Hwf) as (_ & _ & _ & _ & _ & Hc).
  split; cbn; try done; apply Hwf.
Qed.

Lemma ensure_in_session_cases o now c l s created spec gid used :
  coord_inv used c → byID c !! s_id s = Some l → heap c !! l = Some s →
  session_for s spec → spec_wf spec → (∀ x, gid = Ok x → x ∉ used) →
  let '(c', r) := ensure_in_session o now c l s created spec gid in
  coord_inv (list_to_set (ok_list gid) ∪ used) c' ∧ closedStats c' = closedStats c
  ∧ (c' = c ∨ ∃ x s', gid = Ok x ∧ sessions c' = <[s_id s := s']> (sessions c) ∧ quiet s s'
       ∧ s_grants s' = <[gs_tunnelID spec := new_grant now s x spec]> (s_grants s)).
Proof.
  intros I Hl Hs Hfor Hspec Hfresh.
  assert (Hss : sessions c !! s_id s = Some s) by (apply sessions_lookup; eauto).
  pose proof (ci_wf _ _ I _ _ Hss) as Hwf. destruct (ci_used _ _ I _ _ Hss) as [_ Hst].
  assert (Hsame : coord_inv (list_to_set (ok_list gid) ∪ used) c) by (eapply inv_mono; [|done]; set_solver).
  assert (Hcreate : ∀ x, gid = Ok x →
    let s' := with_grants (if created then s else
       with_lease s (u64_succ (s_leaseSequence s)) (now + p2pLeaseDuration))
       (<[gs_tunnelID spec := new_grant now s x spec]> (s_grants s)) in
    coord_inv (list_to_set (ok_list gid) ∪ used) (set_session c l s')
    ∧ sessions (set_session c l s') = <[s_id s := s']> (sessions c) ∧ quiet s s').
  { intros x -> s'. assert (Hq : quiet s s') by (by destruct created; repeat split).
    split_and!; [|by eapply sessions_set|done]. pose proof Hq as (Hid & _ & _ & Hca & _ & Hstats & Hcd & Hcg).
    eapply (inv_set used _ c (s_id s) l s s' (λ t g, t = gs_tunnelID spec ∧ g = x)); eauto.
    - set_solver.
    - apply (session_wf_update s); rewrite ?Hca, ?Hcd, ?Hcg; try done; try apply Hwf.
      assert (s_grants s' = <[gs_tunnelID spec := new_grant now s x spec]> (s_grants s)) as ->
        by (by destruct created).
      apply map_Forall_insert_2; [by apply new_grant_wf|apply Hwf].
    - rewrite Hstats. set_solver.
    - assert (s_grants s' = <[gs_tunnelID spec := new_grant now s x spec]> (s_grants s)) as ->
        by (by destruct created).
      intros tid g'. rewrite lookup_insert_Some. intros [[<- <-]|[_ ?]]; [by right|left; eauto].
    - intros tid g [-> ->]. split; [by apply Hfresh|cbn; set_solver].
    - by intros tid tid' g [-> _] [-> _]. }
  unfold ensure_in_session.
  destruct (match s_grants s !! _ with Some _ => _ | None => _ end) as [c' r] eqn:E.
  assert (Hcases : c' = c ∨ ∃ x, gid = Ok x ∧ c' = set_session c l (with_grants (if created then s else
       with_lease s (u64_succ (s_leaseSequence s)) (now + p2pLeaseDuration))
       (<[gs_tunnelID spec := new_grant now s x spec]> (s_grants s)))).
  { destruct (s_grants s !! _) as [cur|]; [destruct (_ =? _); [by simplify_eq; left|]|];
      (destruct gid as [x|e]; [|by simplify_eq; left]); simplify_eq; right; exists x;
      by destruct created. }
  destruct Hcases as [->|(x & -> & ->)]; [by split_and!; [| |left]|].
  destruct (Hcreate x eq_refl) as (? & ? & ?). split_and!; [done|done|]. right.
  eexists x, _. split_and!; [done..|]. by destruct created.
Qed.

Lemma matched_session_for used c key l s spec a b genA genB :
  coord_inv used c → byPair c !! key = Some l → heap c !! l = Some s →
  normalizeP2PPair spec = (a, b, genA, genB) → key = pair_key a b → nul_free a →
  session_matches s genA genB spec = true → session_for s spec ∧ byID c !! s_id s = Some l.
Proof.
  intros I Hk Hs Hn -> Ha Hm. destruct (ci_pair _ _ I _ _ Hk) as (s0 & Hs0 & Hkey & Hid).
  simplify_eq. split; [|done].
  assert (Hss : sessions c !! s_id s = Some s) by (apply sessions_lookup; eauto).
  pose proof (ci_wf _ _ I _ _ Hss) as Hwf. destruct (sw_clientA s Hwf) as [_ HA].
  destruct (pair_key_inj _ _ _ _ HA Ha Hkey) as [<- <-].
  unfold session_matches in Hm. reflect_guards. destruct Hm as [[[<- <-] ?] ?]. by split.
Qed.

(** The creating half of [ensureGrant], from a state with no session for the pair. *)
Definition create_session (o : range_order) (now : Z) (c : p2pCoordinator) (spec : p2pGrantSpec)
    (a b : string) (genA genB : Z) (sid gid : result string)
    : p2pCoordinator * result (p2pGrant * p2pLifecycleResult) :=
  match sid with
  | Err e => (c, Err e)
  | Ok id =>
      ensure_in_session o now
        {| heap := <[nextLoc c := new_session now id a b genA genB spec]> (heap c);
           nextLoc := S (nextLoc c); byPair := <[pair_key a b := nextLoc c]> (byPair c);
           byID := <[id := nextLoc c]> (byID c); closedStats := closedStats c |}
        (nextLoc c) (new_session now id a b genA genB spec) true spec gid
  end.

Lemma create_session_cases o now used c spec a b genA genB sid gid :
  coord_inv used c → normalizeP2PPair spec = (a, b, genA, genB) → spec_wf spec →
  nul_free a → nul_free b → NoDup (ok_list sid ++ ok_list gid) →
  (∀ x, x ∈ ok_list sid ++ ok_list gid → x ∉ used) →
  byPair c !! pair_key a b = None →
  let c' := (create_session o now c spec a b genA genB sid gid).1 in
  coord_inv (list_to_set (ok_list sid ++ ok_list gid) ∪ used) c' ∧ closedStats c' = closedStats c
  ∧ (c' = c ∨ ∃ id s', sid = Ok id ∧ sessions c' = <[id := s']> (sessions c) ∧ blank s'
       ∧ session_for s' spec
       ∧ ∀ tid g, s_grants s' !! tid = Some g → gid = Ok (g_grantID g)).
Proof.
  intros I Hn Hspec Hna Hnb Hnd Hfresh Hp. unfold create_session.
  destruct sid as [id|e]; cbn [fst].
  2: { split_and!; [|done|by left]. eapply inv_mono; [|done]. set_solver. }
  cbn in Hnd, Hfresh. apply NoDup_cons in Hnd as [Hidg _].
  destruct (new_session_wf now id a b genA genB spec Hn Hspec Hna Hnb) as [Hwf Hfor].
  set (s := new_session now id a b genA genB spec) in *.
  destruct (inv_alloc used c id s I) as [I1 HS1]; try done; [by apply Hfresh; set_solver|].
  set (c1 := {| heap := _ |}). change (coord_inv ({[id]} ∪ used) c1) in I1.
  change (sessions c1 = <[id := s]> (sessions c)) in HS1.
  pose proof (ensure_in_session_cases o now c1 (nextLoc c) s true spec gid ({[id]} ∪ used) I1) as HE.
  destruct (ensure_in_session _ _ _ _ _ _ _ _) as [c2 r].
  destruct HE as (I2 & HC2 & Hcases); [by apply lookup_insert_eq..|done|done| |].
  { intros x ->. cbn in Hidg. assert (x ∉ used) by (apply Hfresh; set_solver). set_solver. }
  cbn [fst]. split_and!; [eapply inv_mono; [|exact I2]; cbn; set_solver|done|]. right. exists id.
  destruct Hcases as [->|(x & s' & -> & -> & Hqs & Hg)].
  - exists s. split_and!; [done..|by repeat split|done|done].
  - exists s'. rewrite HS1. cbn. rewrite insert_insert_eq.
    destruct Hqs as ((_ & Ha & Hb & HA & HB & Ho & He) & H1 & H2 & H3 & H4 & H5 & H6 & H7).
    split_and!; [done..| | |].
    + unfold blank. by rewrite H1, H2, H3, H4, H5, H6, H7.
    + destruct Hfor as [Hf1 Hf2]. split; by rewrite ?Ha, ?Hb, ?HA, ?HB, ?Ho, ?He.
    + rewrite Hg. cbn. by intros tid g [[_ <-]|[_ ?]]%lookup_insert_Some.
Qed.

(** [ensureGrant] as a choice between the matching session and a new one. *)
Lemma ensureGrant_unfold o now c spec sid gid a b genA genB :
  check_grant_spec spec = Ok tt → normalizeP2PPair spec = (a, b, genA, genB) →
  ensureGrant o now c spec sid gid =
  match lookup_pair c (pair_key a b) with
  | Some (l, s) =>
      if session_matches s genA genB spec then ensure_in_session o now c l s false spec gid
      else create_session o now (deleteSession o now c s) spec a b genA genB sid gid
  | None => create_session o now c spec a b genA genB sid gid
  end.
Proof. unfold ensureGrant. by intros -> ->. Qed.

Lemma quiet_step_insert now op c c' id s s' tid0 g0 :
  sessions c !! id = Some s → sessions c' = <[id := s']> (sessions c) →
  closedStats c' = closedStats c → quiet s s' → s_grants s' = <[tid0 := g0]> (s_grants s) →
  (∃ spec sid, op = OpEnsure spec sid (Ok (g_grantID g0))) → quiet_step now op c c'.
Proof.
  intros Hs HS HC Hq Hg Hop. split.
  - intros id' s''. rewrite HS, lookup_insert_Some.
    intros [[<- <-]|[_ ?]]; left; [by exists s|exists s''; split; [done|apply quiet_refl]].
  - intros gid' id' tid s'' g (H1 & H2 & H3). rewrite HS, lookup_insert_Some in H1.
    destruct H1 as [[<- <-]|[_ H1]]; [|left; by exists s'', g].
    rewrite Hg, lookup_insert_Some in H2. destruct H2 as [[<- <-]|[_ H2]].
    + right. by rewrite <- H3.
    + left. by exists s, g.
  - intros gid' cl. rewrite HC. by left.
Qed.

Lemma quiet_step_create now spec sid gid c c' id s' :
  sid = Ok id → sessions c' = <[id := s']> (sessions c) →
  closedStats c' = closedStats c → blank s' →
  (∀ tid g, s_grants s' !! tid = Some g → gid = Ok (g_grantID g)) →
  quiet_step now (OpEnsure spec sid gid) c c'.
Proof.
  intros -> HS HC Hb Hg. split.
  - intros id' s''. rewrite HS, lookup_insert_Some. intros [[<- <-]|[_ ?]].
    + right. split; [done|]. by exists spec, gid.
    + left. exists s''. split; [done|apply quiet_refl].
  - intros gid' id' tid s'' g (H1 & H2 & <-). rewrite HS, lookup_insert_Some in H1.
    destruct H1 as [[<- <-]|[_ H1]].
    + right. exists spec, (Ok id). f_equal. eauto.
    + left. by exists s'', g.
  - intros gid' cl. rewrite HC. by left.
Qed.

Lemma quiet_step_delete o now op c c' s :
  sessions c !! s_id s = Some s → quiet_step now op (deleteSession o now c s) c' →
  quiet_step now op c c'.
Proof.
  intros Hs [H1 H2 H3].
  assert (Hdel : ∀ id s0, sessions (deleteSession o now c s) !! id = Some s0 →
            sessions c !! id = Some s0).
  { intros id s0. rewrite sessions_delete, lookup_delete_Some. by intros []. }
  split.
  - intros id s' [(s0 & ?%Hdel & ?)|?]%H1; [left; eauto|by right].
  - intros gid id tid s' g [(s0 & g0 & ?%Hdel & ?)|?]%H2; [left; by exists s0, g0|by right].
  - intros gid cl [[[? _]|(tid & g & ? & ? & ->)]%delete_closed_inv|
                   (id & s0 & tid & g & _ & (?%Hdel & ?) & ->)]%H3; [by left|right..].
    + by exists (s_id s), s, tid, g.
    + by exists id, s0, tid, g.
Qed.

(** What [ensureGrant] leaves: at most a stale session removed, at most a new
    session, at most one new grant. *)
Lemma step_ensure o now lower used c spec sid gid c' out :
  coord_inv used c → op_ok (OpEnsure spec sid gid) →
  NoDup (issued_op (OpEnsure spec sid gid)) →
  (∀ x, x ∈ issued_op (OpEnsure spec sid gid) → x ∉ used) →
  apply_op o now lower c (OpEnsure spec sid gid) = (c', out) →
  coord_inv (list_to_set (issued_op (OpEnsure spec sid gid)) ∪ used) c'
  ∧ coord_effect now (OpEnsure spec sid gid) out c c'.
Proof.
  intros I [Hni Hnt] Hnd Hfresh. cbn [apply_op issued_op] in *.
  destruct (ensureGrant o now c spec sid gid) as [c1 r] eqn:E. intros [= <- <-].
  cut (coord_inv (list_to_set (ok_list sid ++ ok_list gid) ∪ used) c1
       ∧ quiet_step now (OpEnsure spec sid gid) c c1).
  { intros [? ?]. split; [done|]. by apply ce_quiet. }
  destruct (check_grant_spec spec) as [[]|e] eqn:Hck.
  2: { unfold ensureGrant in E. rewrite Hck in E. simplify_eq.
       split; [eapply inv_mono; [|done]; set_solver|apply quiet_step_refl]. }
  apply check_grant_spec_iff in Hck as Hspec.
  destruct (normalizeP2PPair spec) as [[[a b] genA] genB] eqn:Hn.
  rewrite (ensureGrant_unfold _ _ _ _ _ _ _ _ _ _ Hck Hn) in E.
  destruct (normalize_order _ _ _ _ _ Hn Hspec) as (_ & _ & _ & _ & _ & Hab).
  assert (nul_free a ∧ nul_free b) as [Hna Hnb] by (destruct Hab as [[<- <-]|[<- <-]]; auto).
  assert (Hcreate : ∀ c0, coord_inv used c0 → byPair c0 !! pair_key a b = None →
    create_session o now c0 spec a b genA genB sid gid = (c1, r) →
    coord_inv (list_to_set (ok_list sid ++ ok_list gid) ∪ used) c1
    ∧ quiet_step now (OpEnsure spec sid gid) c0 c1).
  { intros c0 I0 Hp H. destruct (create_session_cases o now used c0 spec a b genA genB sid gid)
      as (I1 & HC & Hcases); try done. rewrite H in I1, HC, Hcases. cbn in *. split; [done|].
    destruct Hcases as [->|(id & s' & Hid & HS & Hb & _ & Hg)]; [apply quiet_step_refl|].
    by eapply quiet_step_create. }
  destruct (lookup_pair c (pair_key a b)) as [[l s]|] eqn:EP.
  - apply lookup_pair_Some in EP as [Hkl Hs].
    destruct (ci_pair _ _ I _ _ Hkl) as (s0 & Hs0 & Hkey & Hid). simplify_eq.
    assert (Hss : sessions c !! s_id s = Some s) by (apply sessions_lookup; eauto).
    destruct (session_matches s genA genB spec) eqn:EM.
    + destruct (matched_session_for _ _ _ _ _ _ _ _ _ _ I Hkl Hs Hn eq_refl Hna EM) as [Hfor _].
      pose proof (ensure_in_session_cases o now c l s false spec gid used I Hid Hs Hfor Hspec) as HE.
      rewrite E in HE. destruct HE as (I1 & HC & Hcases); [intros x ->; apply Hfresh; set_solver|].
      split; [eapply inv_mono; [|exact I1]; set_solver|].
      destruct Hcases as [->|(x & s' & -> & HS & Hq & Hg)]; [apply quiet_step_refl|].
      eapply quiet_step_insert; eauto.
    + destruct (Hcreate (deleteSession o now c s)) as [? ?]; [by eapply inv_delete| |done|].
      * cbn. by rewrite Hkey, lookup_delete_eq.
      * split; [done|]. by eapply quiet_step_delete.
  - apply Hcreate; [done| |done].
    destruct (byPair c !! pair_key a b) as [l|] eqn:Hb; [|done].
    destruct (ci_pair _ _ I _ _ Hb) as (s & Hs & _).
    assert (lookup_pair c (pair_key a b) = Some (l, s)) by (by apply lookup_pair_Some). congruence.
Qed.

(** ** Every operation *)

Lemma step_effect o now lower used c op c' out :
  coord_inv used c → op_ok op → NoDup (issued_op op) → (∀ x, x ∈ issued_op op → x ∉ used) →
  apply_op o now lower c op = (c', out) →
  coord_inv (list_to_set (issued_op op) ∪ used) c' ∧ coord_effect now op out c c'.
Proof.
  intros I Hok Hnd Hfr H. destruct op; [by eapply step_ensure|..].
  all: assert (list_to_set [] ∪ used = used :> gset string) as HE by set_solver;
    cbn [issued_op]; rewrite HE.
  - by eapply step_signal.
  - by eapply step_renew.
  - by eapply step_closeClient.
  - by eapply step_closeClients.
  - by eapply step_closeSession.
  - by eapply step_ready.
  - by eapply step_stats.
  - by eapply step_demand.
  - by eapply step_credit.
  - by eapply step_revoke.
  - by eapply step_expire.
Qed.
