(* ===== verification/CoordinatorRuns.v ===== *)
(** Runs of the coordinator: any sequence of its operations, in any order and at
    any times, with identifiers that never repeat. The safety properties of the
    peer-to-peer control plane over whole runs, and the postconditions of the
    operations that maintain sessions. *)
From Stdlib Require Import ZArith Lia Ascii String Sorted.
From stdpp Require Import base tactics numbers list gmap strings sorting relations.
From S2P Require Import Prelude GoStrings Protocol Coordinator CoordinatorInv CoordinatorSpec.
From S2P Require Import CoordinatorSteps.

(** ** Runs *)

Record coord_event := { ev_order : range_order; ev_now : Z; ev_op : coord_op }.
Abbreviation entry := (coord_event * coord_out)%type.

Definition run_step (lower : string → string) (st : p2pCoordinator * list entry)
    (ev : coord_event) : p2pCoordinator * list entry :=
  let '(c, out) := apply_op (ev_order ev) (ev_now ev) lower st.1 (ev_op ev) in
  (c, st.2 ++ [(ev, out)]).

Definition run (lower : string → string) (evs : list coord_event)
    : p2pCoordinator * list entry :=
  foldl (run_step lower) (newP2PCoordinator, []) evs.

Definition issued (evs : list coord_event) : list string :=
  mjoin ((issued_op ∘ ev_op) <$> evs).

(** [newP2PID] never returns the same identifier twice; client ids hold no NUL
    and byte counters are uint64. *)
Definition run_ok (evs : list coord_event) : Prop :=
  Forall (op_ok ∘ ev_op) evs ∧ NoDup (issued evs).

Lemma run_snoc lower evs ev :
  run lower (evs ++ [ev]) = run_step lower (run lower evs) ev.
Proof. unfold run. by rewrite foldl_app. Qed.

Lemma issued_snoc evs ev : issued (evs ++ [ev]) = issued evs ++ issued_op (ev_op ev).
Proof. unfold issued. rewrite fmap_app, join_app. cbn. by rewrite app_nil_r. Qed.

Lemma run_ok_snoc evs ev :
  run_ok (evs ++ [ev]) ↔ run_ok evs ∧ op_ok (ev_op ev) ∧ NoDup (issued_op (ev_op ev))
    ∧ ∀ x, x ∈ issued_op (ev_op ev) → x ∉ issued evs.
Proof.
  unfold run_ok. rewrite Forall_app, Forall_singleton, issued_snoc, NoDup_app.
  split.
  - intros [[? ?] (? & Hd & ?)]. split_and!; try done. intros x Hx Hx'. by eapply Hd.
  - intros ([? ?] & ? & ? & Hd). split_and!; try done. intros x Hx Hx'. by eapply Hd.
Qed.

Lemma inv_init : coord_inv ∅ newP2PCoordinator.
Proof.
  assert (HS : sessions newP2PCoordinator = ∅) by reflexivity.
  split; cbn; intros *; rewrite ?lookup_empty; try done.
  all: try (rewrite HS, lookup_empty; done).
  all: unfold live_gid; rewrite HS, lookup_empty; naive_solver.
Qed.

(** Induction over runs: the invariant and the frame of the last step. *)
Lemma run_induction lower (P : list coord_event → p2pCoordinator → list entry → Prop) :
  P [] newP2PCoordinator [] →
  (∀ evs ev c log c' out,
     run_ok (evs ++ [ev]) → coord_inv (list_to_set (issued evs)) c →
     coord_inv (list_to_set (issued (evs ++ [ev]))) c' →
     coord_effect (ev_now ev) (ev_op ev) out c c' →
     P evs c log → P (evs ++ [ev]) c' (log ++ [(ev, out)])) →
  ∀ evs, run_ok evs → coord_inv (list_to_set (issued evs)) (run lower evs).1
                      ∧ P evs (run lower evs).1 (run lower evs).2.
Proof.
  intros H0 HS evs. induction evs as [|ev evs IH] using rev_ind; intros Hok.
  { split; [apply inv_init|done]. }
  pose proof Hok as Hok'. apply run_ok_snoc in Hok' as (Hok1 & Hop & Hnd & Hfr).
  destruct (IH Hok1) as [I HP]. rewrite run_snoc. unfold run_step.
  destruct (apply_op _ _ _ _ _) as [c' out] eqn:E.
  apply (step_effect _ _ _ (list_to_set (issued evs))) in E as [I' Heff]; try done.
  2: { intros x Hx. rewrite elem_of_list_to_set. auto. }
  assert (I'' : coord_inv (list_to_set (issued (evs ++ [ev]))) c').
  { rewrite issued_snoc. eapply inv_mono; [|exact I']. set_solver. }
  split; [done|]. by eapply HS.
Qed.

(** ** What a log records *)

Definition billed_entry (gid : string) (e : entry) : Z * Z :=
  match ev_op e.1, e.2 with
  | OpStats _ _ report, OutStats (Ok d) => if sr_GrantID report =?s gid then d else (0, 0)
  | _, _ => (0, 0)
  end.

(** The bytes accepted so far for one grant: the sum of all accepted deltas. *)
Fixpoint billed (gid : string) (log : list entry) : Z * Z :=
  match log with
  | [] => (0, 0)
  | e :: log => ((billed_entry gid e).1 + (billed gid log).1,
                 (billed_entry gid e).2 + (billed gid log).2)
  end.

Definition accepted_signal (e : entry) : option (string * P2PSignal) :=
  match ev_op e.1, e.2 with
  | OpSignal clientID _ signal, OutPeer (Ok _) => Some (clientID, signal)
  | _, _ => None
  end.

(** The signals of one client that were forwarded within one session. *)
Definition forwarded (sid clientID : string) (log : list entry) : list P2PSignal :=
  omap (λ e, cs ← accepted_signal e;
             if (cs.1 =?s clientID) && (sig_SessionID cs.2 =?s sid) then Some cs.2 else None) log.

Definition candidates_of (l : list P2PSignal) : list P2PSignal :=
  filter (λ s, sig_Kind s = P2PSignalCandidate) l.

Definition accepted_demand (e : entry) : option P2PCreditDemand :=
  match ev_op e.1, e.2 with
  | OpDemand _ _ d, OutPeer (Ok _) => Some d
  | _, _ => None
  end.

Lemma billed_snoc gid log e :
  billed gid (log ++ [e]) = ((billed gid log).1 + (billed_entry gid e).1,
                             (billed gid log).2 + (billed_entry gid e).2).
Proof.
  induction log as [|e' log IH]; cbn.
  - f_equal; lia.
  - rewrite IH. cbn. f_equal; lia.
Qed.

Lemma forwarded_snoc sid clientID log e :
  forwarded sid clientID (log ++ [e]) =
  forwarded sid clientID log ++
  match accepted_signal e with
  | Some (cl, s) => if (cl =?s clientID) && (sig_SessionID s =?s sid) then [s] else []
  | None => []
  end.
Proof.
  unfold forwarded. rewrite omap_app. f_equal. cbn.
  destruct (accepted_signal e) as [[cl s]|]; [|done]. cbn. by destruct (_ && _).
Qed.

(** ** Frame facts of the effects *)

Lemma effect_sessions now op out c c' id s' :
  coord_effect now op out c c' → sessions c' !! id = Some s' →
  (∃ s, sessions c !! id = Some s) ∨ (blank s' ∧ ∃ spec gid, op = OpEnsure spec (Ok id) gid).
Proof.
  intros H Hs'. destruct H as [_ [Hq _ _]|* _ _ Hs _ HS _|* _ _ Hs _ HS _|* _ _ [Hs _] _ _ HS _
    |* _ _ _ _ _ HS _|* _ _ Hs _ HS _|* _ _ Hs _ HS _].
  1: { destruct (Hq _ _ Hs') as [(s & ? & _)|?]; eauto. }
  all: left; rewrite HS in Hs'; try (by eauto).
  all: apply lookup_insert_Some in Hs' as [[<- _]|[_ ?]]; eauto.
Qed.

(** ** Traffic is billed exactly once *)

Definition cursor_counts (k : p2pStatsCursor) (b : Z * Z) : Prop :=
  sc_ingress k = b.1 ∧ sc_egress k = b.2.

(** The cursor of a grant, wherever it is kept, is what has been billed. *)
Record bill_inv (gid : string) (used : gset string) (c : p2pCoordinator) (b : Z * Z) : Prop := {
  bi_live : ∀ id tid s g, live_gid c gid id tid s g →
    cursor_counts (get_or zero_cursor (s_stats s) gid) b;
  bi_closed : ∀ cl, closedStats c !! gid = Some cl → cursor_counts (cl_cursor cl) b;
  bi_fresh : gid ∉ used → b = (0, 0);
  bi_u64 : is_u64 b.1 ∧ is_u64 b.2;
}.

Lemma bill_frame gid used used' c c' b :
  bill_inv gid used c b → used ⊆ used' →
  (∀ id tid s' g, live_gid c' gid id tid s' g →
     (∃ s g0, live_gid c gid id tid s g0
        ∧ get_or zero_cursor (s_stats s') gid = get_or zero_cursor (s_stats s) gid)
     ∨ ((gid ∉ used) ∧ get_or zero_cursor (s_stats s') gid = zero_cursor)) →
  (∀ cl, closedStats c' !! gid = Some cl →
     closedStats c !! gid = Some cl
     ∨ ∃ id tid s g, live_gid c gid id tid s g
         ∧ cl_cursor cl = get_or zero_cursor (s_stats s) gid) →
  bill_inv gid used' c' b.
Proof.
  intros [H1 H2 H3 H4] Hsub Hlive Hcl. split.
  - intros id tid s' g [(s & g0 & Hl & ->)|[Hn ->]]%Hlive; [by eapply H1|]. by rewrite (H3 Hn).
  - intros cl [?|(id & tid & s & g & Hl & ->)]%Hcl; [by apply H2|by eapply H1].
  - intros ?. apply H3. set_solver.
  - done.
Qed.

Lemma stats_fresh used c id s gid :
  coord_inv used c → sessions c !! id = Some s → gid ∉ used →
  get_or zero_cursor (s_stats s) gid = zero_cursor.
Proof.
  intros I Hs Hn. destruct (ci_used _ _ I _ _ Hs) as [_ Hd]. unfold get_or.
  destruct (s_stats s !! gid) eqn:E; [|done]. apply elem_of_dom_2 in E. set_solver.
Qed.

Lemma bill_quiet used used' now op c c' gid b :
  coord_inv used c → quiet_step now op c c' → used ⊆ used' →
  (∀ x, x ∈ issued_op op → x ∉ used) → bill_inv gid used c b → bill_inv gid used' c' b.
Proof.
  intros I [H1 H2 H3] Hsub Hfr Hb. eapply bill_frame; [done|done|..].
  - intros id tid s' g Hl. destruct (H2 _ _ _ _ _ Hl) as [(s & g0 & Hl0)|(spec & sid & ->)].
    + left. exists s, g0. split; [done|]. destruct Hl as (Hs' & _). pose proof Hl0 as (Hs & _).
      destruct (H1 _ _ Hs') as [(s0 & Hs0 & Hq)|(_ & spec & gid' & ->)].
      * simplify_eq. destruct Hq as (_ & _ & _ & _ & _ & -> & _). congruence.
      * destruct (Hfr id); [cbn; set_solver|]. by apply (ci_used _ _ I) in Hs as [].
    + right. assert (Hn : gid ∉ used).
      { apply Hfr. cbn. destruct sid; cbn; set_solver. }
      split; [done|]. destruct Hl as (Hs' & _).
      destruct (H1 _ _ Hs') as [(s0 & Hs0 & Hq)|((_ & _ & _ & _ & -> & _) & _)].
      * destruct Hq as (_ & _ & _ & _ & _ & -> & _). by eapply stats_fresh.
      * unfold get_or. by rewrite lookup_empty.
  - intros cl [?|(id & s & tid & g & _ & Hl & ->)]%H3; [by left|right].
    exists id, tid, s, g. split; [done|]. cbn. destruct Hl as (_ & _ & ->). done.
Qed.

(** A message that leaves grants and statistics alone. *)
Lemma bill_update used used' c c' id s s' gid b :
  sessions c !! id = Some s → sessions c' = <[id := s']> (sessions c) →
  closedStats c' = closedStats c → s_grants s' = s_grants s → s_stats s' = s_stats s →
  used ⊆ used' → bill_inv gid used c b → bill_inv gid used' c' b.
Proof.
  intros Hs HS HC Hg Hst Hsub Hb. eapply bill_frame; [done|done|..].
  - intros id' tid s0 g (H1 & H2 & H3). left. rewrite HS, lookup_insert_Some in H1.
    destruct H1 as [[<- <-]|[_ H1]].
    + exists s, g. rewrite Hst. split; [|done]. split; [done|]. by rewrite <- Hg.
    + by exists s0, g.
  - rewrite HC. by left.
Qed.

Lemma stats_delta_sum k report b :
  cursor_admits k report → cursor_counts k b → is_u64 b.1 → is_u64 b.2 →
  is_u64 (sr_IngressBytes report) → is_u64 (sr_EgressBytes report) →
  b.1 + (stats_delta k report).1 = sr_IngressBytes report
  ∧ b.2 + (stats_delta k report).2 = sr_EgressBytes report.
Proof.
  intros (_ & _ & H1 & H2) [E1 E2] Hb1 Hb2 Hi He. unfold stats_delta. cbn.
  rewrite <- E1, <- E2 in *. rewrite !u64_sub_small by assumption. lia.
Qed.

Section bill.
Context (used used' : gset string) (c c' : p2pCoordinator) (report : P2PStatsReport).
Context (gid : string) (b : Z * Z) (I : coord_inv used c) (Hsub : used ⊆ used').
Context (Hu : is_u64 (sr_IngressBytes report) ∧ is_u64 (sr_EgressBytes report)).
Context (Hb : bill_inv gid used c b).

(** The bill after the report's delta [d] is added, if it is for [gid]. *)
Definition bill_after (d : Z * Z) : Z * Z :=
  if sr_GrantID report =?s gid then (b.1 + d.1, b.2 + d.2) else b.

Lemma bill_live s g :
  live_gid c (sr_GrantID report) (sr_SessionID report) (sr_TunnelID report) s g →
  cursor_admits (get_or zero_cursor (s_stats s) (sr_GrantID report)) report →
  sessions c' = <[sr_SessionID report :=
    with_stats s (<[sr_GrantID report := report_cursor report]> (s_stats s))]> (sessions c) →
  closedStats c' = closedStats c →
  bill_inv gid used' c'
    (bill_after (stats_delta (get_or zero_cursor (s_stats s) (sr_GrantID report)) report)).
Proof using I Hsub Hu Hb.
  intros Hl Hk HS HC. unfold bill_after. destruct (String.eqb_spec (sr_GrantID report) gid) as [Hg|Hne].
  - rewrite Hg in *.
    destruct (stats_delta_sum _ report b Hk) as [-> ->]; [by eapply bi_live|by apply Hb|by apply Hb|by apply Hu|by apply Hu|].
    split; [| | |done].
    + intros id tid s0 g0 (H1 & H2 & H3). rewrite HS, lookup_insert_Some in H1.
      destruct H1 as [[<- <-]|[Hne H1]]; [by cbn; rewrite get_or_insert, decide_True|].
      edestruct (ci_unique _ _ I _ _ _ _ _ id tid s0 g0 Hl) as [? _]; [by repeat split|done].
    + rewrite HC, (ci_disjoint _ _ I _ _ _ _ _ Hl). done.
    + apply (ci_used_grant _ _ I) in Hl. intros []. set_solver.
  - eapply bill_frame; [done|done|..].
    + intros id tid s0 g0 (H1 & H2 & H3). left. rewrite HS, lookup_insert_Some in H1.
      destruct H1 as [[<- <-]|[_ H1]]; [|by exists s0, g0].
      exists s, g0. split; [|cbn; by rewrite get_or_insert, decide_False].
      by destruct Hl as (? & _).
    + rewrite HC. by left.
Qed.

Lemma bill_closed cl :
  closedStats c !! sr_GrantID report = Some cl → cursor_admits (cl_cursor cl) report →
  sessions c' = sessions c →
  closedStats c' = <[sr_GrantID report := closed_with_cursor cl (report_cursor report)]>
                     (closedStats c) →
  bill_inv gid used' c' (bill_after (stats_delta (cl_cursor cl) report)).
Proof using I Hsub Hu Hb.
  intros Hcl Hk HS HC. unfold bill_after. destruct (String.eqb_spec (sr_GrantID report) gid) as [Hg|Hne].
  - rewrite Hg in *.
    destruct (stats_delta_sum _ report b Hk) as [-> ->]; [by eapply bi_closed|by apply Hb|by apply Hb|by apply Hu|by apply Hu|].
    split; [| | |done].
    + intros id tid s0 g0 (H1 & H2 & H3). rewrite HS in H1.
      rewrite (ci_disjoint _ _ I gid id tid s0 g0) in Hcl; [done|by repeat split].
    + rewrite HC, lookup_insert_eq. by intros cl' [= <-].
    + apply (ci_used_closed _ _ I) in Hcl as [? _]. intros []. set_solver.
  - eapply bill_frame; [done|done|..].
    + intros id tid s0 g0 (H1 & H2 & H3). left. rewrite HS in H1. by exists s0, g0.
    + rewrite HC, lookup_insert_ne by done. by left.
Qed.
End bill.

Lemma bill_step used used' ev out c c' gid log :
  coord_inv used c → used ⊆ used' → op_ok (ev_op ev) →
  (∀ x, x ∈ issued_op (ev_op ev) → x ∉ used) →
  coord_effect (ev_now ev) (ev_op ev) out c c' →
  bill_inv gid used c (billed gid log) → bill_inv gid used' c' (billed gid (log ++ [(ev, out)])).
Proof.
  intros I Hsub Hop Hfr Heff Hb. rewrite billed_snoc.
  assert (Hzero : billed_entry gid (ev, out) = (0, 0) →
    bill_inv gid used' c' (billed gid log) →
    bill_inv gid used' c' ((billed gid log).1 + (billed_entry gid (ev, out)).1,
                           (billed gid log).2 + (billed_entry gid (ev, out)).2)).
  { intros ->. cbn. rewrite !Z.add_0_r. by destruct (billed gid log). }
  assert (Hafter : ∀ cl gen report d, ev_op ev = OpStats cl gen report → out = OutStats (Ok d) →
    ((billed gid log).1 + (billed_entry gid (ev, out)).1,
     (billed gid log).2 + (billed_entry gid (ev, out)).2) = bill_after report gid (billed gid log) d).
  { intros cl gen report d Eop ->. unfold billed_entry, bill_after. cbn. rewrite Eop.
    destruct (_ =?s _); [done|]. cbn. rewrite !Z.add_0_r. by destruct (billed gid log). }
  destruct Heff as [Hout Hq|cl gen sig p s s' Eop -> Hs Ha HS HC|cl gen st r s s' Eop -> Hs Ha HS HC
    |cl gen report d s g Eop Hd Hl Hk -> HS HC|cl gen report d e Eop Hd He Hk -> HS HC
    |cl gen dm p s s' Eop -> Hs Ha HS HC|cl gen cr p s s' Eop -> Hs Ha HS HC].
  - apply Hzero; [|by eapply bill_quiet]. unfold billed_entry. cbn.
    destruct (ev_op ev), out as [| | | | |[]|]; done.
  - apply Hzero; [by unfold billed_entry; cbn; rewrite Eop|].
    destruct Ha as [_ _ _ _ _ _ (cands & -> & _)]. by eapply bill_update.
  - apply Hzero; [by unfold billed_entry; cbn; rewrite Eop|].
    destruct Ha as [_ _ _ _ _ ->]. by eapply bill_update.
  - rewrite (Hafter _ _ _ _ Eop Hd). rewrite Eop in Hop. by eapply bill_live.
  - rewrite (Hafter _ _ _ _ Eop Hd). rewrite Eop in Hop. by eapply bill_closed.
  - apply Hzero; [by unfold billed_entry; cbn; rewrite Eop|].
    destruct Ha as [_ _ _ _ _ ->]. by eapply bill_update.
  - apply Hzero; [by unfold billed_entry; cbn; rewrite Eop|].
    destruct Ha as [_ _ _ _ _ _ ->]. by eapply bill_update.
Qed.

Lemma run_ok_step evs ev :
  run_ok (evs ++ [ev]) →
  (list_to_set (issued evs) : gset string) ⊆ list_to_set (issued (evs ++ [ev]))
  ∧ op_ok (ev_op ev)
  ∧ ∀ x, x ∈ issued_op (ev_op ev) → x ∉ (list_to_set (issued evs) : gset string).
Proof.
  intros (_ & Hop & _ & Hfr)%run_ok_snoc. rewrite issued_snoc. split_and!; [set_solver|done|].
  intros x Hx. rewrite elem_of_list_to_set. auto.
Qed.

Lemma run_bill lower gid evs :
  run_ok evs → bill_inv gid (list_to_set (issued evs)) (run lower evs).1
                 (billed gid (run lower evs).2).
Proof.
  intros Hok. eapply (run_induction lower (λ evs c log,
    bill_inv gid (list_to_set (issued evs)) c (billed gid log))); [..|done].
  - split; [|done|done|by split].
    intros id tid s g (H & _). apply sessions_lookup in H as (l & H & _). done.
  - intros evs0 ev c log c' out Hok0 I I' Heff IH.
    destruct (run_ok_step _ _ Hok0) as (? & ? & ?). by eapply (bill_step (list_to_set (issued evs0)) _ ev out c).
Qed.

(** ** Signals are forwarded in order, never twice, and candidates are bounded *)

Record signal_inv (sid cl : string) (used : gset string) (c : p2pCoordinator)
    (l : list P2PSignal) : Prop := {
  si_sorted : StronglySorted Z.lt (sig_Sequence <$> l);
  si_bound : Z.of_nat (length (candidates_of l)) ≤ P2PMaxCandidates;
  si_fresh : sid ∉ used → l = [];
  si_state : ∀ s, sessions c !! sid = Some s →
    (∀ x, x ∈ l → sig_Sequence x ≤ get_or 0 (s_lastSignal s) cl)
    ∧ Z.of_nat (length (candidates_of l)) = rate_total (get_or zero_rate (s_candidates s) cl);
}.

Lemma signal_frame sid cl used used' c c' l :
  signal_inv sid cl used c l → used ⊆ used' →
  (∀ s', sessions c' !! sid = Some s' →
     (∃ s, sessions c !! sid = Some s ∧ get_or 0 (s_lastSignal s') cl = get_or 0 (s_lastSignal s) cl
           ∧ get_or zero_rate (s_candidates s') cl = get_or zero_rate (s_candidates s) cl)
     ∨ (blank s' ∧ (sid ∉ used))) →
  signal_inv sid cl used' c' l.
Proof.
  intros [H1 H2 H3 H4] Hsub Hs'. split; [done|done|intros; apply H3; set_solver|].
  intros s' [(s & Hs & -> & ->)|[(Hl & _ & Hc & _) Hn]]%Hs'; [by apply H4|].
  rewrite (H3 Hn), Hl, Hc. split; [set_solver|done].
Qed.

Lemma signal_quiet sid cl used used' now op c c' l :
  quiet_step now op c c' → used ⊆ used' → (∀ x, x ∈ issued_op op → x ∉ used) →
  signal_inv sid cl used c l → signal_inv sid cl used' c' l.
Proof.
  intros [H1 _ _] Hsub Hfr Hi. eapply signal_frame; [done|done|].
  intros s' [(s & Hs & Hq)|(Hb & spec & gid & ->)]%H1.
  - left. exists s. by destruct Hq as (_ & -> & _ & -> & _).
  - right. split; [done|]. apply Hfr. cbn. set_solver.
Qed.

(** A message of another kind. *)
Lemma signal_update sid cl used used' c c' id s s' l :
  sessions c !! id = Some s → sessions c' = <[id := s']> (sessions c) →
  s_lastSignal s' = s_lastSignal s → s_candidates s' = s_candidates s →
  used ⊆ used' → signal_inv sid cl used c l → signal_inv sid cl used' c' l.
Proof.
  intros Hs HS Hl Hc Hsub Hi. eapply signal_frame; [done|done|].
  intros s0. rewrite HS, lookup_insert_Some. intros [[<- <-]|[_ H]]; left.
  - exists s. by rewrite Hl, Hc.
  - by exists s0.
Qed.

Lemma sorted_lt_snoc l x :
  StronglySorted Z.lt l → (∀ y, y ∈ l → y < x) → StronglySorted Z.lt (l ++ [x]).
Proof.
  intros Hl Hx. apply StronglySorted_app_2; [|done|by repeat constructor].
  intros y z Hy ->%list_elem_of_singleton. auto.
Qed.

Lemma candidates_snoc l x :
  length (candidates_of (l ++ [x])) =
  (length (candidates_of l) + if decide (sig_Kind x = P2PSignalCandidate) then 1 else 0)%nat.
Proof.
  unfold candidates_of. rewrite filter_app, length_app. f_equal. rewrite filter_cons.
  by destruct (decide _).
Qed.

(** The state after an accepted signal of [clientID] within the session. *)
Lemma signal_accepted_step now s clientID generation sig s' p cl l :
  session_wf s → signal_accepted now s clientID generation sig s' p →
  (∀ x, x ∈ l → sig_Sequence x ≤ get_or 0 (s_lastSignal s) cl) →
  Z.of_nat (length (candidates_of l)) = rate_total (get_or zero_rate (s_candidates s) cl) →
  let l' := if clientID =?s cl then l ++ [sig] else l in
  (∀ x, x ∈ l' → sig_Sequence x ≤ get_or 0 (s_lastSignal s') cl)
  ∧ Z.of_nat (length (candidates_of l')) = rate_total (get_or zero_rate (s_candidates s') cl).
Proof.
  intros Hwf [_ _ _ Hf _ _ (cands & -> & Hc)] Hl Hn l'. unfold l'. cbn. rewrite get_or_insert.
  destruct (String.eqb_spec clientID cl) as [->|Hne].
  - rewrite decide_True by done. split.
    + intros x [Hx| ->%list_elem_of_singleton]%elem_of_app; [|done]. specialize (Hl _ Hx). lia.
    + rewrite candidates_snoc. destruct (decide _).
      * destruct Hc as (rate & Ha & ->). rewrite get_or_insert, decide_True by done.
        assert (rate_wf (get_or zero_rate (s_candidates s) cl)
                ∨ get_or zero_rate (s_candidates s) cl = zero_rate) as Hr.
        { unfold get_or. destruct (s_candidates s !! cl) as [r|] eqn:E; [left|by right].
          by eapply (sw_candidates s Hwf). }
        apply (admit_candidate_wf now _ _ Hr) in Ha as [_ ->]. lia.
      * subst. lia.
  - rewrite decide_False by done. split; [done|]. destruct (decide _); [|by subst].
    destruct Hc as (rate & Ha & ->). by rewrite get_or_insert, decide_False.
Qed.

Lemma signal_after sid cl used used' now c c' clientID generation sig s s' p l :
  coord_inv used c → coord_inv used' c' → used ⊆ used' →
  sessions c !! sig_SessionID sig = Some s →
  signal_accepted now s clientID generation sig s' p →
  sessions c' = <[sig_SessionID sig := s']> (sessions c) →
  signal_inv sid cl used c l →
  signal_inv sid cl used' c'
    (l ++ if (clientID =?s cl) && (sig_SessionID sig =?s sid) then [sig] else []).
Proof.
  intros I I' Hsub Hs Ha HS Hi.
  destruct (String.eqb_spec (sig_SessionID sig) sid) as [Hsid|Hne].
  2: { rewrite andb_false_r, app_nil_r. eapply signal_frame; [done|done|].
       intros s0. rewrite HS, lookup_insert_ne by done. intros H. left. by exists s0. }
  rewrite andb_true_r. subst sid. pose proof (ci_wf _ _ I _ _ Hs) as Hwf.
  destruct (si_state _ _ _ _ _ Hi _ Hs) as [Hle Hn].
  destruct (signal_accepted_step _ _ _ _ _ _ _ cl l Hwf Ha Hle Hn) as [Hle' Hn'].
  assert (Heq : (l ++ if clientID =?s cl then [sig] else []) = if clientID =?s cl then l ++ [sig] else l)
    by (destruct (_ =?s _); [done|by rewrite app_nil_r]).
  rewrite Heq. assert (Hs' : sessions c' !! sig_SessionID sig = Some s') by (by rewrite HS, lookup_insert_eq).
  split.
  - destruct (String.eqb_spec clientID cl) as [->|]; [|apply Hi]. rewrite fmap_app. cbn.
    apply sorted_lt_snoc; [apply Hi|]. intros y (x & -> & Hx)%list_elem_of_fmap.
    specialize (Hle _ Hx). pose proof (sa_fresh _ _ _ _ _ _ _ Ha). lia.
  - rewrite Hn'. destruct (ci_wf _ _ I' _ _ Hs') as [_ _ _ _ _ _ Hr _]. unfold get_or.
    destruct (s_candidates s' !! cl) as [r|] eqn:E; [|done]. cbn. by destruct (Hr _ _ E) as [_ [_ ?]].
  - intros []. apply (ci_used _ _ I) in Hs as [? _]. set_solver.
  - intros s0. rewrite Hs'. by intros [= <-].
Qed.

Lemma run_signals lower sid cl evs :
  run_ok evs → signal_inv sid cl (list_to_set (issued evs)) (run lower evs).1
                 (forwarded sid cl (run lower evs).2).
Proof.
  intros Hok. eapply (run_induction lower (λ evs c log,
    signal_inv sid cl (list_to_set (issued evs)) c (forwarded sid cl log))); [..|done].
  - split; [constructor|done|done|]. intros s (l & H & _)%sessions_lookup. done.
  - intros evs0 ev c log c' out Hok0 I I' Heff IH.
    destruct (run_ok_step _ _ Hok0) as (Hsub & _ & Hfr). rewrite forwarded_snoc.
    unfold accepted_signal. cbn.
    destruct Heff as [Hout Hq|? ? ? ? ? ? -> -> Hs Ha HS HC|? ? ? ? ? ? -> -> Hs Ha HS HC
      |? ? ? ? ? ? -> -> Hl Hk _ HS HC|? ? ? ? ? -> -> He Hk _ HS HC
      |? ? ? ? ? ? -> -> Hs Ha HS HC|? ? ? ? ? ? -> -> Hs Ha HS HC].
    2: by eapply (signal_after sid cl (list_to_set (issued evs0))).
    all: try rewrite app_nil_r.
    + assert (match ev_op ev, out with
              | OpSignal _ _ _, OutPeer (Ok _) => False | _, _ => True end) as Hno
        by (destruct (ev_op ev), out as [|[]| | |[]|[]|]; done).
      assert (match (match ev_op ev with OpSignal clientID _ signal =>
                match out with OutPeer (Ok _) => Some (clientID, signal) | _ => None end
              | _ => None end) with Some (cl0, s) =>
                if (cl0 =?s cl) && (sig_SessionID s =?s sid) then [s] else [] | None => [] end = []) as ->
        by (destruct (ev_op ev), out as [|[]| | |[]|[]|]; done).
      rewrite app_nil_r. by eapply signal_quiet.
    + destruct Ha as [_ _ _ _ _ ->]. by eapply (signal_update sid cl (list_to_set (issued evs0)) _ c).
    + destruct Hl as (Hs & _). by eapply (signal_update sid cl (list_to_set (issued evs0)) _ c).
    + eapply signal_frame; [exact IH|done|]. rewrite HS. intros s' Hs'. left. by exists s'.
    + destruct Ha as [_ _ _ _ _ ->]. by eapply (signal_update sid cl (list_to_set (issued evs0)) _ c).
    + destruct Ha as [_ _ _ _ _ _ ->]. by eapply (signal_update sid cl (list_to_set (issued evs0)) _ c).
Qed.

(** ** Credit is granted only against earlier demand *)

Definition demanded (log : list entry) (sid gid : string) (n : Z) : Prop :=
  ∃ e d, e ∈ log ∧ accepted_demand e = Some d ∧ cd_SessionID d = sid ∧ cd_GrantID d = gid
         ∧ cd_DesiredBytes d = n.

Definition demand_inv (c : p2pCoordinator) (log : list entry) : Prop :=
  ∀ id s gid, sessions c !! id = Some s →
    let n := cc_cumulative (cursor_of (s_creditDemand s) gid) in n = 0 ∨ demanded log id gid n.

Lemma demanded_mono log e sid gid n : demanded log sid gid n → demanded (log ++ [e]) sid gid n.
Proof. intros (e0 & d & ? & ?). exists e0, d. set_solver. Qed.

Lemma demand_frame c c' log e :
  demand_inv c log →
  (∀ id s', sessions c' !! id = Some s' →
     s_creditDemand s' = ∅ ∨ ∃ s, sessions c !! id = Some s ∧ s_creditDemand s' = s_creditDemand s) →
  demand_inv c' (log ++ [e]).
Proof.
  intros Hi Hf id s' gid Hs'. cbv zeta.
  destruct (Hf _ _ Hs') as [->|(s & Hs & ->)]; [by left|].
  destruct (Hi id s gid Hs) as [->|?]; [by left|right; by apply demanded_mono].
Qed.

Lemma demand_update c c' log e id s s' :
  demand_inv c log → sessions c !! id = Some s → sessions c' = <[id := s']> (sessions c) →
  s_creditDemand s' = s_creditDemand s → demand_inv c' (log ++ [e]).
Proof.
  intros Hi Hs HS Hd. eapply demand_frame; [done|]. intros id' s0. rewrite HS, lookup_insert_Some.
  intros [[<- <-]|[_ ?]]; right; eauto.
Qed.

Lemma run_demand lower evs :
  run_ok evs → demand_inv (run lower evs).1 (run lower evs).2.
Proof.
  intros Hok. eapply (run_induction lower (λ _ c log, demand_inv c log)); [..|done].
  - intros id s gid (l & H & _)%sessions_lookup. done.
  - intros evs0 ev c log c' out Hok0 I I' Heff IH.
    destruct Heff as [Hout Hq|? ? ? ? ? ? Eop -> Hs Ha HS HC|? ? ? ? ? ? Eop -> Hs Ha HS HC
      |? ? ? ? ? ? Eop -> Hl Hk _ HS HC|? ? ? ? ? Eop -> He Hk _ HS HC
      |? ? d ? s s' Eop -> Hs Ha HS HC|? ? ? ? ? ? Eop -> Hs Ha HS HC].
    + eapply demand_frame; [done|]. intros id s' [(s & ? & Hqs)|(Hb & _)]%Hq.
      * right. exists s. by destruct Hqs as (_ & _ & _ & _ & _ & _ & -> & _).
      * left. by destruct Hb as (_ & _ & _ & _ & _ & -> & _).
    + eapply demand_update; [done..|]. by destruct Ha as [_ _ _ _ _ _ (? & -> & _)].
    + eapply demand_update; [done..|]. by destruct Ha as [_ _ _ _ _ ->].
    + destruct Hl as (Hs & _). by eapply demand_update.
    + eapply demand_frame; [done|]. rewrite HS. intros id s' ?. right. eauto.
    + intros id s0 gid Hs0. cbv zeta. rewrite HS, lookup_insert_Some in Hs0.
      destruct Hs0 as [[<- <-]|[_ Hs0]].
      * destruct Ha as [_ _ _ _ _ ->]. unfold cursor_of. cbn. rewrite get_or_insert.
        destruct (decide (gid = cd_GrantID d)) as [->|].
        -- right. eexists _, d. split; [apply elem_of_app; right; by apply list_elem_of_singleton|].
           unfold accepted_demand. cbn. by rewrite Eop.
        -- destruct (IH _ _ gid Hs) as [E|E]; [left; exact E|right; by apply demanded_mono].
      * destruct (IH _ _ gid Hs0) as [->|?]; [by left|right; by apply demanded_mono].
    + eapply demand_update; [done..|]. by destruct Ha as [_ _ _ _ _ _ ->].
Qed.
