(* ===== verification/CoordinatorProps.v ===== *)
(** The properties of the peer-to-peer coordinator, each with a concrete run or
    state at which its hypotheses hold. *)
From Stdlib Require Import ZArith Lia Ascii String Sorted.
From stdpp Require Import base tactics numbers list gmap strings sorting relations.
From S2P Require Import Prelude GoStrings Protocol Coordinator CoordinatorInv CoordinatorSpec.
From S2P Require Import CoordinatorSteps CoordinatorRuns.

(** ** Results collected by the loops *)

Definition at_loc {X} (emit : p2pPairSession → list X) (c : p2pCoordinator) (l : nat) : list X :=
  match heap c !! l with Some s => emit s | None => [] end.

Lemma visit_heap o now d c l l' : l' ≠ l → heap (visit o now d c l) !! l' = heap c !! l'.
Proof.
  intros Hne. unfold visit. destruct (heap c !! l) as [s|]; [|done].
  destruct (d s); [|done]. cbn. by rewrite lookup_insert_ne.
Qed.

(** Each entry contributes what its session was when the loop started. *)
Lemma loop_results {R X} o now (f : p2pCoordinator * R → string * nat → p2pCoordinator * R)
    (proj : R → list X) emit d es c r :
  (∀ c r e, (f (c, r) e).1 = visit o now d c e.2) →
  (∀ c r e, proj (f (c, r) e).2 = proj r ++ at_loc emit c e.2) →
  NoDup es.*2 →
  proj (foldl f (c, r) es).2 = proj r ++ mjoin ((λ e, at_loc emit c e.2) <$> es).
Proof.
  intros Hf Hp. revert c r. induction es as [|e es IH]; intros c r Hnd; cbn.
  - by rewrite app_nil_r.
  - apply NoDup_cons in Hnd as [Hn Hnd]. pose proof (Hf c r e) as H1. pose proof (Hp c r e) as H2.
    destruct (f (c, r) e) as [c' r']. cbn in H1, H2. rewrite IH, H2, <- app_assoc by done.
    f_equal. f_equal. f_equal. apply list_fmap_ext. intros i e' He'. unfold at_loc.
    rewrite H1, visit_heap; [done|]. intros Heq. apply Hn. rewrite <- Heq.
    apply list_elem_of_fmap. exists e'. split; [done|]. by eapply list_elem_of_lookup_2.
Qed.

Lemma range_locs_NoDup o used c : coord_inv used c → NoDup (range o (byID c)).*2.
Proof.
  intros I. rewrite (range_perm o (byID c)). apply NoDup_fmap_2_strong; [|apply NoDup_map_to_list].
  intros [id l] [id' l'] H1%elem_of_map_to_list H2%elem_of_map_to_list Heq. cbn in *. subst l'.
  by rewrite (byID_inj _ _ _ _ _ I H1 H2).
Qed.

Lemma elem_of_results {X} o used c (emit : p2pPairSession → list X) x :
  coord_inv used c →
  x ∈ mjoin ((λ e, at_loc emit c e.2) <$> range o (byID c)) ↔
  ∃ id s, sessions c !! id = Some s ∧ x ∈ emit s.
Proof.
  intros I. rewrite list_elem_of_join. split.
  - intros (l & Hx & ([id loc] & -> & Hin%elem_of_range)%list_elem_of_fmap).
    unfold at_loc in Hx. cbn in Hx. destruct (heap c !! loc) as [s|] eqn:E; [|by apply not_elem_of_nil in Hx].
    exists id, s. split; [|done]. apply sessions_lookup. eauto.
  - intros (id & s & (l & Hl & Hs)%sessions_lookup & Hx). exists (at_loc emit c l).
    split; [unfold at_loc; by rewrite Hs|]. apply list_elem_of_fmap. exists (id, l).
    by rewrite elem_of_range.
Qed.

Section results.
Context (o : range_order) (now : Z) (lower : string → string).
Context (used : gset string) (c : p2pCoordinator) (I : coord_inv used c).

Lemma renew_closed_elem healthy x :
  x ∈ rr_Closed (renew o now c healthy).2 ↔
  ∃ id s reason, sessions c !! id = Some s ∧ renew_reason now healthy s = Some reason
    ∧ x = closed_result o s reason reason (p2pClosedOutbounds s reason).
Proof using I.
  assert (I' : coord_inv used (expireClosedStats now c)) by (by apply inv_expireClosed).
  unfold renew. rewrite (loop_results o now _ rr_Closed
    (λ s, match renew_reason now healthy s with
          | Some reason => [closed_result o s reason reason (p2pClosedOutbounds s reason)]
          | None => [] end) (renew_decision now healthy)).
  - cbn [rr_Closed app]. rewrite (elem_of_results o used) by done.
    split; [intros (id & s & Hs & Hx)|intros (id & s & reason & Hs & Hr & ->)].
    + destruct (renew_reason now healthy s) as [reason|] eqn:E; [|by apply not_elem_of_nil in Hx].
      apply list_elem_of_singleton in Hx. by exists id, s, reason.
    + exists id, s. split; [done|]. rewrite Hr. by apply list_elem_of_singleton.
  - intros c0 r e. apply renew_one_visit.
  - intros c0 r e. unfold renew_one, at_loc, renew_reason. destruct (heap c0 !! e.2) as [s|]; cbn;
      [|by rewrite app_nil_r].
    destruct (match healthy with Some _ => _ | None => _ end); [done|].
    destruct (negb _); [done|]. cbn. by rewrite app_nil_r.
  - by eapply (range_locs_NoDup o used (expireClosedStats now c)).
Qed.

Lemma renew_outbounds_elem healthy x :
  x ∈ rr_Outbounds (renew o now c healthy).2 ↔
  ∃ id s, sessions c !! id = Some s ∧ renew_reason now healthy s = None
    ∧ x ∈ (renew_session o now s).2.
Proof using I.
  assert (I' : coord_inv used (expireClosedStats now c)) by (by apply inv_expireClosed).
  unfold renew. rewrite (loop_results o now _ rr_Outbounds
    (λ s, match renew_reason now healthy s with
          | Some reason => [] | None => (renew_session o now s).2 end)
    (renew_decision now healthy)).
  - cbn [rr_Outbounds app]. rewrite (elem_of_results o used) by done.
    split; [intros (id & s & Hs & Hx)|intros (id & s & Hs & Hr & Hx)]; exists id, s.
    + by destruct (renew_reason now healthy s); [by apply not_elem_of_nil in Hx|].
    + by rewrite Hr.
  - intros c0 r e. apply renew_one_visit.
  - intros c0 r e. unfold renew_one, at_loc, renew_reason. destruct (heap c0 !! e.2) as [s|]; cbn;
      [|by rewrite app_nil_r].
    destruct (match healthy with Some _ => _ | None => _ end); [by rewrite app_nil_r|].
    destruct (negb _); [by rewrite app_nil_r|]. done.
  - by eapply (range_locs_NoDup o used (expireClosedStats now c)).
Qed.

(** The message a closing client's peer gets. *)
Definition peer_closed (clientID reason : string) (s : p2pPairSession) : list p2pOutbound :=
  if s_clientA s =?s clientID then drop 1 (p2pClosedOutbounds s reason)
  else take 1 (p2pClosedOutbounds s reason).

Lemma closeClient_results clientID generation reason x :
  x ∈ (closeClient o now lower c clientID generation reason).2 ↔
  ∃ id s, sessions c !! id = Some s ∧ involves clientID generation s = true
    ∧ x = closed_result o s (normalizeP2PCloseReason lower reason P2PStateClosed) reason
            (peer_closed clientID reason s).
Proof using I.
  pose proof (loop_results o now (closeClient_one o now lower clientID generation reason)
    (λ r, r) (λ s, if involves clientID generation s then
       [closed_result o s (normalizeP2PCloseReason lower reason P2PStateClosed) reason
            (peer_closed clientID reason s)] else [])
    (keep_unless (involves clientID generation)) (range o (byID c)) c []) as HR.
  cbn beta in HR. unfold closeClient. rewrite HR; clear HR.
  - cbn [app]. rewrite (elem_of_results o used) by done.
    split; [intros (i & s & Hs & Hx)|intros (i & s & Hs & Hi & ->)]; exists i, s.
    + destruct (involves _ _ _) eqn:E; [|by apply not_elem_of_nil in Hx].
      by apply list_elem_of_singleton in Hx.
    + rewrite Hi. split; [done|]. by apply list_elem_of_singleton.
  - intros. apply closeClient_one_visit.
  - intros c0 r e. unfold closeClient_one, at_loc, involves, peer_closed.
    destruct (heap c0 !! e.2) as [s|]; cbn; [|by rewrite app_nil_r].
    destruct (s_clientA s =?s clientID), (s_generationA s =? generation),
      (s_clientB s =?s clientID), (s_generationB s =? generation); cbn;
      by rewrite ?app_nil_r.
  - by eapply range_locs_NoDup.
Qed.
End results.

(** ** Client prepare messages *)

Lemma validate_prepare_grants_ok now sid l :
  Forall (λ g, P2PTunnelGrant_Validate now g = Ok tt ∧ tg_SessionID g = sid) l →
  validate_prepare_grants now sid l = Ok tt.
Proof.
  induction 1 as [|g l [Hv Hs] _ IH]; [done|]. cbn. rewrite Hv. cbn.
  by rewrite Hs, eqb_str_refl.
Qed.

(** What a client requires of the identifiers in a message. *)
Definition identity_ok (value : string) (limit : Z) : Prop :=
  trim_space value ≠ ""%string ∧ strlen value ≤ limit.

Lemma validate_identity_ok name value limit :
  identity_ok value limit → validateP2PIdentity name value limit = Ok tt.
Proof.
  intros [Hne Hl]. unfold validateP2PIdentity.
  rewrite (proj2 (eqb_str_false _ _) Hne). by rewrite (proj2 (Z.ltb_ge _ _) Hl).
Qed.

Record grant_sendable (now : Z) (g : p2pGrant) : Prop := {
  gd_gid : identity_ok (g_grantID g) P2PMaxSessionIDLen;
  gd_tunnel : identity_ok (g_tunnelID g) DataStreamHeaderMaxStringLen;
  gd_sequence : g_sequence g ≠ 0;
  gd_expiry : now < g_expiresAt g;
}.

(** A session whose prepare messages fit the client's limits. *)
Record session_sendable (now : Z) (s : p2pPairSession) : Prop := {
  sd_id : identity_ok (s_id s) P2PMaxSessionIDLen;
  sd_clientA : identity_ok (s_clientA s) P2PMaxClientIDLen;
  sd_clientB : identity_ok (s_clientB s) P2PMaxClientIDLen;
  sd_sequence : s_leaseSequence s ≠ 0;
  sd_live : now < s_expiresAt s;
  sd_count : Z.of_nat (size (s_grants s)) ≤ P2PMaxGrants;
  sd_grants : map_Forall (λ _, grant_sendable now) (s_grants s);
}.

Lemma forClient_valid now s tid g clientID :
  grant_wf s tid g → grant_sendable now g → identity_ok (s_id s) P2PMaxSessionIDLen →
  P2PTunnelGrant_Validate now (forClient g clientID) = Ok tt
  ∧ tg_SessionID (forClient g clientID) = s_id s.
Proof.
  intros [_ _ Hse _ Hrev Hbps] [Hg Ht Hs He] Hid. unfold forClient, P2PTunnelGrant_Validate, time_after.
  destruct (clientID =?s g_ingressClientID g); cbn; rewrite Hse; (split; [|done]);
    rewrite !validate_identity_ok by done; cbn;
    rewrite (proj2 (Z.leb_gt _ _) Hrev), (proj2 (Z.eqb_neq _ _) Hs),
      (proj2 (Z.ltb_ge _ _) Hbps), (proj2 (Z.ltb_lt _ _) He); done.
Qed.

Definition prepare_of (o : range_order) (s : p2pPairSession) (clientID peerID role : string)
    (localGen peerGen : Z) : P2PSessionPrepare :=
  {| sp_SessionID := s_id s; sp_PeerClientID := peerID; sp_Role := role;
     sp_LocalGeneration := localGen; sp_PeerGeneration := peerGen;
     sp_LeaseSequence := s_leaseSequence s; sp_ExpiresAt := s_expiresAt s;
     sp_ICEServers := [];
     sp_Grants := sort_by tg_TunnelID
                    ((λ kg, forClient kg.2 clientID) <$> range o (s_grants s)) |}.

Lemma prepare_valid o now s clientID peerID role localGen peerGen :
  session_wf s → session_sendable now s → identity_ok peerID P2PMaxClientIDLen →
  (role = P2PRoleOfferer ∨ role = P2PRoleAnswerer) → localGen ≠ 0 → peerGen ≠ 0 →
  P2PSessionPrepare_Validate now (prepare_of o s clientID peerID role localGen peerGen) = Ok tt.
Proof.
  intros Hwf [Hid _ _ Hseq Hlive Hcount Hgr] Hpeer Hrole Hl Hp.
  unfold P2PSessionPrepare_Validate, prepare_of, time_after. cbn -[sort_by].
  rewrite !validate_identity_ok by done. cbn -[sort_by].
  assert (negb (role =?s P2PRoleOfferer) && negb (role =?s P2PRoleAnswerer) = false) as ->
    by (destruct Hrole as [-> | ->]; reflexivity).
  rewrite (proj2 (Z.eqb_neq _ _) Hl), (proj2 (Z.eqb_neq _ _) Hp), (proj2 (Z.eqb_neq _ _) Hseq),
    (proj2 (Z.ltb_lt _ _) Hlive). cbn -[sort_by].
  rewrite (proj2 (Z.ltb_ge _ _)).
  2: { rewrite sort_by_perm, length_fmap, (range_perm o). by rewrite length_map_to_list. }
  apply validate_prepare_grants_ok. apply Forall_forall. intros g.
  rewrite sort_by_perm. intros ([tid g0] & -> & Hin%elem_of_range)%list_elem_of_fmap. cbn.
  eapply forClient_valid; [by eapply (sw_grants s Hwf)|by eapply Hgr|done].
Qed.

(** The sorted grant list does not depend on the iteration order of the map. *)
Lemma prepare_order o1 o2 s clientID peerID role localGen peerGen :
  session_wf s → prepare_of o1 s clientID peerID role localGen peerGen
                 = prepare_of o2 s clientID peerID role localGen peerGen.
Proof.
  intros Hwf. unfold prepare_of. f_equal. apply sort_by_unique.
  - intros x y ([t1 g1] & -> & H1%elem_of_range)%list_elem_of_fmap
      ([t2 g2] & -> & H2%elem_of_range)%list_elem_of_fmap. cbn.
    assert (∀ g, tg_TunnelID (forClient g clientID) = g_tunnelID g) as Ht
      by (intros g; unfold forClient; by destruct (_ =?s _)).
    rewrite !Ht. pose proof (sw_grants s Hwf _ _ H1) as [<- _ _ _ _ _].
    pose proof (sw_grants s Hwf _ _ H2) as [<- _ _ _ _ _]. cbn in *. intros Heq. congruence.
  - apply Permutation_map. by rewrite (range_perm o1), (range_perm o2).
Qed.

(** ** Grants *)

Lemma ensure_in_session_ok o now c l s created spec gid c' g r :
  heap c !! l = Some s → ensure_in_session o now c l s created spec gid = (c', Ok (g, r)) →
  ∃ s', heap c' !! l = Some s' ∧ byID c' = byID c ∧ byPair c' = byPair c ∧ same_session s s'
    ∧ s_grants s' !! gs_tunnelID spec = Some g ∧ g_revision g = gs_revision spec
    ∧ (lr_GrantCreated r = true → g = new_grant now s (g_grantID g) spec ∧ gid = Ok (g_grantID g)).
Proof.
  intros Hs. unfold ensure_in_session.
  assert (Hcreate : ∀ c' g r,
    match gid with
    | Err e => (c, Err e)
    | Ok grantID =>
        let grant := new_grant now s grantID spec in
        let s := if created then s
                 else with_lease s (u64_succ (s_leaseSequence s)) (now + p2pLeaseDuration) in
        let s := with_grants s (<[gs_tunnelID spec := grant]> (s_grants s)) in
        (set_session c l s, Ok (grant, grant_result o s grant created true (s_leaseSequence s)))
    end = (c', Ok (g, r)) →
    ∃ s', heap c' !! l = Some s' ∧ byID c' = byID c ∧ byPair c' = byPair c ∧ same_session s s'
    ∧ s_grants s' !! gs_tunnelID spec = Some g ∧ g_revision g = gs_revision spec
    ∧ (lr_GrantCreated r = true → g = new_grant now s (g_grantID g) spec ∧ gid = Ok (g_grantID g))).
  { intros c0 g0 r0. destruct gid as [x|e]; [|done]. cbv zeta. intros [= <- <- <-].
    eexists. split_and!; [apply lookup_insert_eq|done|done|by destruct created|..|done|done].
    cbn. apply lookup_insert_eq. }
  destruct (s_grants s !! gs_tunnelID spec) as [cur|] eqn:E; [|by apply Hcreate].
  destruct (Z.eqb_spec (g_revision cur) (gs_revision spec)) as [Hr|]; [|by apply Hcreate].
  intros [= <- <- <-]. exists s. by split_and!.
Qed.

Lemma session_matches_for s spec a b genA genB :
  normalizeP2PPair spec = (a, b, genA, genB) → session_for s spec →
  session_matches s genA genB spec = true ∧ session_key s = pair_key a b.
Proof.
  intros Hn [Hp [Ho He]]. rewrite Hn in Hp. injection Hp as -> -> -> ->. split; [|done].
  unfold session_matches. by rewrite !Z.eqb_refl, Ho, He, eqb_str_refl, Z.eqb_refl.
Qed.

Lemma session_for_same s s' spec : same_session s s' → session_for s spec → session_for s' spec.
Proof. intros (_ & Ha & Hb & HA & HB & Ho & He) [H1 H2]. split; by rewrite ?Ha, ?Hb, ?HA, ?HB, ?Ho, ?He. Qed.

(** The pair's session serves the tunnel with grant [g]; a grant reported as
    created is new and carries the issued identifier. *)
Definition granted (now : Z) (c : p2pCoordinator) (spec : p2pGrantSpec) (gid : result string)
    (g : p2pGrant) (r : p2pLifecycleResult) : Prop :=
  ∃ l s, heap c !! l = Some s ∧ byID c !! s_id s = Some l ∧ byPair c !! session_key s = Some l
    ∧ session_for s spec ∧ s_grants s !! gs_tunnelID spec = Some g
    ∧ g_revision g = gs_revision spec
    ∧ (lr_GrantCreated r = true → g = new_grant now s (g_grantID g) spec ∧ gid = Ok (g_grantID g)).

Lemma ensure_in_session_granted o now c l s created spec gid c' g r :
  heap c !! l = Some s → byID c !! s_id s = Some l → byPair c !! session_key s = Some l →
  session_for s spec → ensure_in_session o now c l s created spec gid = (c', Ok (g, r)) →
  granted now c' spec gid g r.
Proof.
  intros Hs Hid Hp Hfor H.
  destruct (ensure_in_session_ok _ _ _ _ _ _ _ _ _ _ _ Hs H) as (s' & H1 & H2 & H3 & H4 & H5 & H6 & H7).
  exists l, s'. rewrite H2, H3, (session_key_same _ _ H4).
  pose proof H4 as (-> & _). split_and!; try done; [by eapply session_for_same|].
  intros Hc. destruct (H7 Hc) as [-> ->]. split; [|done]. unfold new_grant. cbn.
  by destruct H4 as (-> & _).
Qed.

Lemma create_session_granted o now c spec a b genA genB sid gid c' g r :
  normalizeP2PPair spec = (a, b, genA, genB) → spec_wf spec → nul_free a → nul_free b →
  create_session o now c spec a b genA genB sid gid = (c', Ok (g, r)) →
  granted now c' spec gid g r.
Proof.
  intros Hn Hspec Hna Hnb H. unfold create_session in H. destruct sid as [id|e]; [|done].
  destruct (new_session_wf now id a b genA genB spec Hn Hspec Hna Hnb) as [_ Hfor].
  eapply ensure_in_session_granted; [..|exact H]; [apply lookup_insert_eq..|done].
Qed.

Lemma ensureGrant_granted o now used c spec sid gid c' g r :
  coord_inv used c → nul_free (gs_ingressClientID spec) → nul_free (gs_targetClientID spec) →
  ensureGrant o now c spec sid gid = (c', Ok (g, r)) →
  check_grant_spec spec = Ok tt ∧ granted now c' spec gid g r.
Proof.
  intros I Hni Hnt E. destruct (check_grant_spec spec) as [[]|e] eqn:Hck.
  2: { unfold ensureGrant in E. by rewrite Hck in E. }
  apply check_grant_spec_iff in Hck as Hspec. split; [done|].
  destruct (normalizeP2PPair spec) as [[[a b] genA] genB] eqn:Hn.
  rewrite (ensureGrant_unfold _ _ _ _ _ _ _ _ _ _ Hck Hn) in E.
  destruct (normalize_order _ _ _ _ _ Hn Hspec) as (_ & _ & _ & _ & _ & Hab).
  assert (nul_free a ∧ nul_free b) as [Hna Hnb] by (destruct Hab as [[<- <-]|[<- <-]]; auto).
  destruct (lookup_pair c (pair_key a b)) as [[l s]|] eqn:EP;
    [|by eapply create_session_granted].
  destruct (session_matches s genA genB spec) eqn:EM; [|by eapply create_session_granted].
  apply lookup_pair_Some in EP as [Hkl Hs].
  destruct (matched_session_for _ _ _ _ _ _ _ _ _ _ I Hkl Hs Hn eq_refl Hna EM) as [Hfor Hid].
  destruct (session_matches_for _ _ _ _ _ _ Hn Hfor) as [_ Hkey].
  eapply ensure_in_session_granted; [..|exact E]; try done. by rewrite Hkey.
Qed.

(** Asking again for what is granted changes nothing. *)
Lemma granted_again o now now' c spec sid gid gid' g r :
  check_grant_spec spec = Ok tt → granted now c spec gid' g r →
  ∃ r', ensureGrant o now' c spec sid gid = (c, Ok (g, r')) ∧ lr_GrantCreated r' = false
        ∧ lr_SessionCreated r' = false.
Proof.
  intros Hck (l & s & Hs & _ & Hp & Hfor & Hg & Hr & _).
  destruct (normalizeP2PPair spec) as [[[a b] genA] genB] eqn:Hn.
  rewrite (ensureGrant_unfold _ _ _ _ _ _ _ _ _ _ Hck Hn).
  destruct (session_matches_for _ _ _ _ _ _ Hn Hfor) as [Hm Hkey]. rewrite Hkey in Hp.
  rewrite (proj2 (lookup_pair_Some c _ l s)) by done. rewrite Hm.
  unfold ensure_in_session. rewrite Hg, Hr, Z.eqb_refl. by eexists.
Qed.

(** ** The candidate window *)

(** The times at which a burst of candidates is let through. *)
Fixpoint admitted (r : p2pCandidateRate) (ts : list Z) : list Z :=
  match ts with
  | [] => []
  | t :: ts => match admit_candidate t r with
               | Ok r' => t :: admitted r' ts
               | Err _ => admitted r ts
               end
  end.

Definition in_window (t0 : Z) (ts : list Z) : Z :=
  Z.of_nat (length (filter (λ t, t0 ≤ t < t0 + p2pCandidateWindow) ts)).

Lemma in_window_cons t0 t ts :
  in_window t0 (t :: ts) =
  (if decide (t0 ≤ t < t0 + p2pCandidateWindow) then 1 else 0) + in_window t0 ts.
Proof. unfold in_window. rewrite filter_cons. destruct (decide _); cbn [length]; lia. Qed.

Lemma in_window_late t0 r ts :
  Forall (λ t, t0 + p2pCandidateWindow ≤ t) ts → in_window t0 (admitted r ts) = 0.
Proof.
  revert r. induction ts as [|t ts IH]; intros r Hts; [done|].
  apply Forall_cons in Hts as [Ht Hts]. cbn. destruct (admit_candidate t r); [|by apply IH].
  rewrite in_window_cons, decide_False by lia. rewrite IH; [done|done].
Qed.

(** How many more candidates the window at [t0] can see from state [r]. *)
Definition window_budget (t0 : Z) (r : p2pCandidateRate) : Z :=
  if decide (t0 ≤ rate_windowStart r) then p2pCandidatesPerWindow - rate_count r
  else if decide (t0 < rate_windowStart r + p2pCandidateWindow)
  then 2 * p2pCandidatesPerWindow - rate_count r else 2 * p2pCandidatesPerWindow.

Lemma admit_candidate_cases t r r' :
  admit_candidate t r = Ok r' → rate_windowStart r ≠ 0 →
  (rate_windowStart r' = rate_windowStart r ∧ t < rate_windowStart r + p2pCandidateWindow
   ∧ rate_count r' = rate_count r + 1 ∧ rate_count r < p2pCandidatesPerWindow)
  ∨ (rate_windowStart r' = t ∧ rate_windowStart r + p2pCandidateWindow ≤ t ∧ rate_count r' = 1).
Proof.
  unfold admit_candidate, is_zero_time. intros H Hz.
  rewrite (proj2 (Z.eqb_neq _ _) Hz) in H. cbn [orb] in H.
  destruct (Z.leb_spec p2pCandidateWindow (t - rate_windowStart r)); cbn in H;
    repeat (split_if; try done); simplify_eq/=; reflect_guards; [right|left];
    split_and!; try done; try lia.
Qed.

Lemma admitted_budget t0 r ts :
  0 ≤ rate_count r ≤ p2pCandidatesPerWindow → 0 < rate_windowStart r →
  StronglySorted Z.le ts → Forall (λ t, rate_windowStart r ≤ t) ts →
  in_window t0 (admitted r ts) ≤ window_budget t0 r.
Proof.
  revert r. induction ts as [|t ts IH]; intros r Hc Hw Hs Hr.
  { unfold window_budget. cbn. change (in_window t0 []) with 0.
    unfold p2pCandidatesPerWindow in *. repeat case_decide; lia. }
  apply StronglySorted_cons in Hs as [Hle Hs]. apply Forall_cons in Hr as [Hrt Hr]. cbn [admitted].
  destruct (admit_candidate t r) as [r'|] eqn:E; [|by apply IH].
  rewrite in_window_cons.
  destruct (admit_candidate_cases _ _ _ E) as [(H1 & H2 & H3 & H4)|(H1 & H2 & H3)]; [lia|..].
  - assert (in_window t0 (admitted r' ts) ≤ window_budget t0 r') as Hb
      by (apply IH; [lia|lia|done|by rewrite H1]).
    revert Hb. unfold window_budget. rewrite H1, H3. repeat case_decide; lia.
  - assert (in_window t0 (admitted r' ts) ≤ window_budget t0 r') as Hb
      by (apply IH; [unfold p2pCandidatesPerWindow; lia|unfold p2pCandidateWindow, second in *; lia|done|by rewrite H1]).
    assert (t0 + p2pCandidateWindow ≤ t → in_window t0 (admitted r' ts) = 0) as Hlate.
    { intros Ht. apply in_window_late. eapply Forall_impl; [exact Hle|]. cbn. lia. }
    destruct (decide (t0 + p2pCandidateWindow ≤ t)) as [Ht|Ht]; [rewrite (Hlate Ht) in *|];
      revert Hb; unfold window_budget; rewrite H1, H3;
      unfold p2pCandidatesPerWindow, p2pCandidateWindow, second in *;
      repeat case_decide; lia.
Qed.

Lemma admitted_bound t0 ts :
  StronglySorted Z.le ts → Forall (λ t, 0 < t) ts →
  in_window t0 (admitted zero_rate ts) ≤ 2 * p2pCandidatesPerWindow.
Proof.
  intros Hs Hp. destruct ts as [|t ts]; [done|].
  apply StronglySorted_cons in Hs as [Hle Hs]. apply Forall_cons in Hp as [Ht _].
  cbn [admitted]. unfold admit_candidate, zero_rate. cbn -[in_window admitted].
  change (0 + 1) with 1.
  rewrite in_window_cons.
  set (r' := {| rate_windowStart := t; rate_count := 1; rate_total := 1 |}).
  assert (in_window t0 (admitted r' ts) ≤ window_budget t0 r') as Hb
    by (apply admitted_budget; [done|done|done|exact Hle]).
  revert Hb. unfold window_budget, r'. cbn [rate_windowStart rate_count].
  unfold p2pCandidatesPerWindow, p2pCandidateWindow, second in *.
  repeat case_decide; lia.
Qed.

(** ** A concrete run *)

Fixpoint has_nul (s : string) : bool :=
  match s with
  | String.EmptyString => false
  | String.String ch s => Ascii.eqb ch "000"%char || has_nul s
  end.

Lemma has_nul_free s : has_nul s = false → nul_free s.
Proof.
  intros H a b ->. induction a as [|ch a IH]; cbn in H; [done|].
  apply orb_false_iff in H as [_ H]. auto.
Qed.

Module Sample.
Definition at_time (t : Z) (op : coord_op) : coord_event :=
  {| ev_order := default_order; ev_now := t * second; ev_op := op |}.
Definition spec : p2pGrantSpec :=
  {| gs_tunnelID := "t1"; gs_ingressClientID := "cb"; gs_targetClientID := "ca";
     gs_ownerUserID := "u1"; gs_revision := 1; gs_ownerEpoch := 1;
     gs_ingressGeneration := 3; gs_targetGeneration := 4; gs_totalBPS := 1000 |}.
Definition signal (kind sdp candidate : string) (seq : Z) : P2PSignal :=
  {| sig_SessionID := "s1"; sig_Sequence := seq; sig_Kind := kind; sig_SDP := sdp;
     sig_Candidate := candidate; sig_SDPMid := ""; sig_MLine := 0 |}.
Definition report (seq ingress egress : Z) : P2PStatsReport :=
  {| sr_SessionID := "s1"; sr_GrantID := "g1"; sr_TunnelID := "t1"; sr_Revision := 1;
     sr_Epoch := "e"; sr_Sequence := seq; sr_IngressBytes := ingress; sr_EgressBytes := egress |}.
Definition demand : P2PCreditDemand :=
  {| cd_SessionID := "s1"; cd_GrantID := "g1"; cd_TunnelID := "t1"; cd_Revision := 1;
     cd_Sequence := 1; cd_DesiredBytes := 500 |}.
Definition credit : P2PCreditGrant :=
  {| cg_SessionID := "s1"; cg_GrantID := "g1"; cg_TunnelID := "t1"; cg_Revision := 1;
     cg_Sequence := 1; cg_GrantedBytes := 300 |}.
(** A grant, an offer, a candidate, a report, a demand. *)
Definition opening : list coord_event :=
  [at_time 100 (OpEnsure spec (Ok "s1"%string) (Ok "g1"%string));
   at_time 101 (OpSignal "ca" 4 (signal P2PSignalOffer "sdp" "" 1));
   at_time 102 (OpSignal "cb" 3 (signal P2PSignalCandidate "" "candidate" 1));
   at_time 103 (OpStats "ca" 4 (report 1 100 50));
   at_time 104 (OpDemand "cb" 3 demand)].
Definition grant : p2pGrant :=
  {| g_sessionID := "s1"; g_grantID := "g1"; g_tunnelID := "t1"; g_revision := 1;
     g_ingressClientID := "cb"; g_targetClientID := "ca"; g_sequence := 1;
     g_expiresAt := 160 * second; g_totalBPS := 1000 |}.
(** The session after [opening]. *)
Definition session : p2pPairSession :=
  PairSession "s1" "u1" 1 "ca" "cb" 4 3 1 (160 * second) {["t1"%string := grant]}
    {["ca"%string := 1; "cb"%string := 1]} ∅
    {["cb"%string := {| rate_windowStart := 102 * second; rate_count := 1; rate_total := 1 |}]} ∅
    {["g1"%string := {| sc_epoch := "e"; sc_sequence := 1; sc_ingress := 100; sc_egress := 50 |}]}
    {["g1"%string := {| cc_sequence := 1; cc_cumulative := 500 |}]} ∅.
Definition credit_event : coord_event := at_time 105 (OpCredit "ca" 4 credit).
(** The ingress client leaves, then the final report arrives. *)
Definition closing : list coord_event :=
  opening ++ [at_time 106 (OpCloseClient "cb" 3 "offline")].
Definition final_event : coord_event := at_time 107 (OpStats "ca" 4 (report 2 150 70)).
End Sample.

Lemma sample_closing_ok : run_ok (Sample.closing ++ [Sample.final_event]).
Proof.
  split; [|apply (bool_decide_unpack _); vm_compute; exact I].
  cbn. repeat (apply Forall_cons_2; [cbn|]); [| | | | | | |apply Forall_nil_2]; try done.
  split; apply has_nul_free; reflexivity.
Qed.

Lemma sample_credit_ok : run_ok (Sample.opening ++ [Sample.credit_event]).
Proof.
  split; [|apply (bool_decide_unpack _); vm_compute; exact I].
  cbn. repeat (apply Forall_cons_2; [cbn|]); [| | | | | |apply Forall_nil_2]; try done.
  split; apply has_nul_free; reflexivity.
Qed.

Lemma sample_opening_ok : run_ok Sample.opening.
Proof. apply (proj1 (run_ok_snoc Sample.opening Sample.credit_event) sample_credit_ok). Qed.

(** ** Properties *)

(** C6 Whatever sequence of operations the coordinator sees, with any clock
    readings and map iteration orders, its indices stay consistent: [byID] and
    [byPair] name the same sessions, one per client pair; every session is
    well-formed (ordered clients, positive generations, grants for exactly this
    pair, candidate counters and credit within their limits), grant ids are
    unique and a grant is either live or archived, never both. *)
Theorem coordinator_invariant lower evs :
  run_ok evs → coord_inv (list_to_set (issued evs)) (run lower evs).1.
Proof.
  intros Hok. by eapply (run_induction lower (λ _ _ _, True)).
Qed.

Lemma coordinator_invariant_witness :
  run_ok Sample.closing ∧ coord_inv (list_to_set (issued Sample.closing)) (run lower_ascii Sample.closing).1.
Proof.
  assert (run_ok Sample.closing) as Hok
    by apply (proj1 (run_ok_snoc Sample.closing Sample.final_event) sample_closing_ok).
  split; [exact Hok|]. apply coordinator_invariant. exact Hok.
Defined.

(** C15 Traffic of a peer-direct grant is billed exactly once: whenever a
    statistics report is accepted, in the session or during the grace period
    after it closed, the deltas accepted for the grant since it was issued add
    up to exactly the cumulative counters of this report. *)
Theorem traffic_billed_once lower evs ev clientID generation report d :
  run_ok (evs ++ [ev]) →
  ev_op ev = OpStats clientID generation report →
  (apply_op (ev_order ev) (ev_now ev) lower (run lower evs).1 (ev_op ev)).2 = OutStats (Ok d) →
  billed (sr_GrantID report) (run lower (evs ++ [ev])).2
  = (sr_IngressBytes report, sr_EgressBytes report).
Proof.
  intros Hok Eop Hout.
  pose proof (run_bill lower (sr_GrantID report) _ Hok) as Hb.
  apply run_ok_snoc in Hok as (Hok & Hop & Hnd & Hfr).
  pose proof (run_induction lower (λ _ _ _, True) I (λ _ _ _ _ _ _ _ _ _ _ _, I) _ Hok) as [I _].
  revert Hb. rewrite run_snoc. unfold run_step.
  destruct (apply_op _ _ _ _ _) as [c' out] eqn:E. cbn in Hout. subst out. cbn [fst snd].
  apply (step_effect _ _ _ (list_to_set (issued evs))) in E as [I' Heff]; try done.
  2: { intros x Hx. rewrite elem_of_list_to_set. auto. }
  generalize (billed (sr_GrantID report) ((run lower evs).2 ++ [(ev, OutStats (Ok d))])).
  intros b Hb. rewrite Eop in Heff.
  destruct Heff as [[]|? ? ? ? ? ? [=]|? ? ? ? ? ? [=]|? ? ? ? s g [= <- <- <-] [= <-] Hl Hk _ HS HC
    |? ? ? ? cl [= <- <- <-] [= <-] He Hk _ HS HC|? ? ? ? ? ? [=]|? ? ? ? ? ? [=]].
  - destruct Hl as (H1 & H2 & H3).
    destruct (bi_live _ _ _ _ Hb (sr_SessionID report) (sr_TunnelID report)
      (with_stats s (<[sr_GrantID report := report_cursor report]> (s_stats s))) g) as [E1 E2].
    { split; [by rewrite HS, lookup_insert_eq|done]. }
    cbn in E1, E2. rewrite get_or_insert, decide_True in E1, E2 by done.
    destruct b. cbn in *. congruence.
  - destruct (bi_closed _ _ _ _ Hb (closed_with_cursor cl (report_cursor report))) as [E1 E2];
      [by rewrite HC, lookup_insert_eq|].
    destruct b. cbn in *. congruence.
Qed.

Lemma traffic_billed_once_witness :
  billed "g1" (run lower_ascii (Sample.closing ++ [Sample.final_event])).2 = (150, 70).
Proof.
  apply (traffic_billed_once lower_ascii Sample.closing Sample.final_event "ca" 4
           (Sample.report 2 150 70) (50, 20)).
  - exact sample_closing_ok.
  - reflexivity.
  - vm_compute. reflexivity.
Defined.

(** C27 In one session, the signals of one client that are forwarded have strictly
    increasing sequence numbers (none is replayed or reordered), and over the
    whole life of the session at most 256 candidates of a client are forwarded. *)
Theorem signals_in_order lower evs sid clientID :
  run_ok evs →
  StronglySorted Z.lt (sig_Sequence <$> forwarded sid clientID (run lower evs).2)
  ∧ Z.of_nat (length (candidates_of (forwarded sid clientID (run lower evs).2))) ≤ P2PMaxCandidates.
Proof. intros Hok. destruct (run_signals lower sid clientID evs Hok). done. Qed.

Lemma signals_in_order_witness :
  forwarded "s1" "cb" (run lower_ascii Sample.opening).2
    = [Sample.signal P2PSignalCandidate "" "candidate" 1]
  ∧ StronglySorted Z.lt (sig_Sequence <$> forwarded "s1" "cb" (run lower_ascii Sample.opening).2).
Proof.
  split; [vm_compute; reflexivity|].
  apply (signals_in_order lower_ascii Sample.opening "s1" "cb" sample_opening_ok).
Defined.

(** Candidates are admitted in windows: for any attempt times in
    non-decreasing order, every interval of 10 seconds sees at most 128 of the
    admitted candidates of one client (64 of one window and 64 of the next). *)
Theorem candidate_window_bound t0 ts :
  StronglySorted Z.le ts → Forall (λ t, 0 < t) ts →
  in_window t0 (admitted zero_rate ts) ≤ 2 * p2pCandidatesPerWindow.
Proof. apply admitted_bound. Qed.

Lemma candidate_window_bound_witness :
  in_window (6 * second) (admitted zero_rate
    (second :: replicate 70 (10 * second) ++ replicate 70 (11 * second))) = 127
  ∧ in_window (6 * second) (admitted zero_rate
      (second :: replicate 70 (10 * second) ++ replicate 70 (11 * second)))
    ≤ 2 * p2pCandidatesPerWindow.
Proof.
  split; [vm_compute; reflexivity|]. apply candidate_window_bound.
  - apply (bool_decide_unpack _). vm_compute. exact I.
  - apply (bool_decide_unpack _). vm_compute. exact I.
Defined.

(** The server forwards credit only against demand: an accepted credit grant
    was preceded, in the same session and for the same grant, by an accepted
    demand of at least as many bytes. *)
Theorem credit_within_demand lower evs ev clientID generation g p :
  run_ok (evs ++ [ev]) →
  ev_op ev = OpCredit clientID generation g →
  (apply_op (ev_order ev) (ev_now ev) lower (run lower evs).1 (ev_op ev)).2 = OutPeer (Ok p) →
  ∃ n, demanded (run lower evs).2 (cg_SessionID g) (cg_GrantID g) n ∧ 0 < cg_GrantedBytes g ≤ n.
Proof.
  intros Hok Eop Hout. apply run_ok_snoc in Hok as (Hok & Hop & Hnd & Hfr).
  pose proof (run_demand lower _ Hok) as Hd.
  pose proof (run_induction lower (λ _ _ _, True) I (λ _ _ _ _ _ _ _ _ _ _ _, I) _ Hok) as [I _].
  destruct (apply_op _ _ _ _ _) as [c' out] eqn:E. cbn in Hout. subst out.
  apply (step_effect _ _ _ (list_to_set (issued evs))) in E as [I' Heff]; try done.
  2: { intros x Hx. rewrite elem_of_list_to_set. auto. }
  rewrite Eop in Heff, Hop. cbn in Hop.
  destruct Heff as [[]|? ? ? ? ? ? [=]|? ? ? ? ? ? [=]|? ? ? ? ? ? [=]|? ? ? ? ? [=]|? ? ? ? ? ? [=]
    |? ? ? ? s s' [= <- <- <-] [= <-] Hs Ha HS HC].
  destruct Ha as [Hv _ _ _ _ Hle _].
  assert (0 < cg_GrantedBytes g) as Hpos.
  { unfold P2PCreditGrant_Validate in Hv. guards_ok Hv. reflect_guards. destruct Hop. lia. }
  eexists. split; [|split; [done|exact Hle]].
  destruct (Hd _ _ (cg_GrantID g) Hs) as [Hz|]; [lia|done].
Qed.

Lemma credit_within_demand_witness :
  ∃ n, demanded (run lower_ascii Sample.opening).2 "s1" "g1" n ∧ 0 < 300 ≤ n.
Proof.
  apply (credit_within_demand lower_ascii Sample.opening Sample.credit_event "ca" 4 Sample.credit
    {| pt_clientID := "cb"; pt_clientGeneration := 3; pt_ownerUserID := "u1"; pt_ownerEpoch := 1 |}).
  - exact sample_credit_ok.
  - reflexivity.
  - vm_compute. reflexivity.
Defined.

(** [renew] keeps exactly the sessions whose two clients are healthy and whose
    lease has not run out, extends each of them and every grant in it to one
    lease from now, announces each closed session with its reason and the close
    messages for both clients, and archives the final statistics cursors of the
    closed sessions' grants (dropping archive entries past their grace). *)
Theorem renew_leases o now used c healthy :
  coord_inv used c →
  let '(c', r) := renew o now c healthy in
  (∀ id s', sessions c' !! id = Some s' ↔
     ∃ s, sessions c !! id = Some s ∧ renew_reason now healthy s = None ∧ s' = renewed now s)
  ∧ (∀ id s', sessions c' !! id = Some s' →
       s_expiresAt s' = now + p2pLeaseDuration
       ∧ map_Forall (λ _ g, g_expiresAt g = now + p2pLeaseDuration) (s_grants s'))
  ∧ (∀ x, x ∈ rr_Closed r ↔ ∃ id s reason, sessions c !! id = Some s
       ∧ renew_reason now healthy s = Some reason
       ∧ x = closed_result o s reason reason (p2pClosedOutbounds s reason))
  ∧ (∀ gid cl, closedStats c' !! gid = Some cl ↔
       (closedStats c !! gid = Some cl ∧ now < cl_expiresAt cl)
       ∨ archived now c (λ _ s, renew_reason now healthy s ≠ None) gid cl).
Proof.
  intros I. destruct (renew_swept o now used c healthy I) as (_ & HS & HC).
  pose proof (renew_closed_elem o now used c I healthy) as HR.
  destruct (renew o now c healthy) as [c' r]. cbn in HS, HC, HR.
  assert (Hs : ∀ id s', sessions c' !! id = Some s' ↔
     ∃ s, sessions c !! id = Some s ∧ renew_reason now healthy s = None ∧ s' = renewed now s).
  { intros id s'. rewrite HS, lookup_omap_Some. unfold renew_decision. split.
    - intros (s & Hd & Hs). exists s. by destruct (renew_reason now healthy s); simplify_eq.
    - intros (s & Hs & Hr & ->). exists s. by rewrite Hr. }
  split_and!; [exact Hs| |exact HR|].
  - intros id s' (s & _ & _ & ->)%Hs. split; [done|].
    by intros tid g (g0 & <- & _)%lookup_fmap_Some.
  - intros gid cl. rewrite HC, map_lookup_filter_Some. apply or_iff_compat_l.
    unfold renew_decision.
    split; intros (id & s & tid & g & Hd & Hl & ->); exists id, s, tid, g; split_and!; try done;
      by destruct (renew_reason now healthy s).
Qed.

(** The coordinator after the sample run, and its invariant. *)
Definition sample_state : p2pCoordinator := (run lower_ascii Sample.opening).1.
Lemma sample_inv : coord_inv (list_to_set (issued Sample.opening)) sample_state.
Proof. by apply (run_induction lower_ascii (λ _ _ _, True)); [..|apply sample_opening_ok]. Qed.

Lemma sample_session : sessions sample_state !! "s1"%string = Some Sample.session.
Proof. vm_compute. reflexivity. Qed.

Lemma renew_leases_witness :
  sessions sample_state !! "s1"%string = Some Sample.session
  ∧ ∀ id s', sessions (renew default_order (120 * second) sample_state None).1 !! id = Some s' →
      s_expiresAt s' = 120 * second + p2pLeaseDuration.
Proof.
  split; [exact sample_session|]. intros id s'.
  pose proof (renew_leases default_order (120 * second) _ _ None sample_inv) as H.
  destruct (renew default_order (120 * second) sample_state None) as [c' r].
  destruct H as (_ & H & _). apply H.
Defined.

(** [closeClient] removes exactly the sessions in which the client takes part
    at this generation; for each of them it reports one close with the message
    for the other participant only, and the final statistics of its grants stay
    acceptable. Every other session is untouched. *)
Theorem closeClient_closes o now lower used c clientID generation reason :
  coord_inv used c →
  let '(c', results) := closeClient o now lower c clientID generation reason in
  (∀ id s, sessions c' !! id = Some s ↔
     sessions c !! id = Some s ∧ involves clientID generation s = false)
  ∧ (∀ x, x ∈ results ↔ ∃ id s, sessions c !! id = Some s ∧ involves clientID generation s = true
       ∧ x = closed_result o s (normalizeP2PCloseReason lower reason P2PStateClosed) reason
               (peer_closed clientID reason s))
  ∧ (∀ x ob, x ∈ results → ob ∈ lr_Outbounds x →
       ob_clientID ob ≠ clientID ∧ ob_messageType ob = MsgTypeP2PClosed)
  ∧ (∀ id tid gid s g, live_gid c gid id tid s g → involves clientID generation s = true →
       closedStats c' !! gid = Some (closed_grant now s g)).
Proof.
  intros I. destruct (closeClient_swept o now lower used c I clientID generation reason)
    as (_ & HS & HC).
  pose proof (closeClient_results o now lower used c I clientID generation reason) as HR.
  destruct (closeClient o now lower c clientID generation reason) as [c' results]. cbn in HS, HC, HR.
  split_and!; [|exact HR|..].
  - intros id s. rewrite HS, lookup_omap_Some. unfold keep_unless. split.
    + intros (s0 & Hd & Hs). by destruct (involves _ _ s0) eqn:E; simplify_eq.
    + intros [Hs Hn]. exists s. by rewrite Hn.
  - intros x ob (id & s & Hs & Hi & ->)%HR. cbn. unfold peer_closed.
    pose proof (client_ne s (ci_wf _ _ I _ _ Hs)) as Hne.
    destruct (String.eqb_spec (s_clientA s) clientID) as [<-|HA]; cbn.
    + intros ->%list_elem_of_singleton. by split; [apply not_eq_sym|].
    + intros ->%list_elem_of_singleton. done.
  - intros id tid gid s g Hl Hi. rewrite HC. right. exists id, s, tid, g. split_and!; try done.
    unfold keep_unless. by rewrite Hi.
Qed.

Lemma closeClient_closes_witness :
  involves "cb" 3 Sample.session = true
  ∧ sessions (closeClient default_order (106 * second) lower_ascii sample_state "cb" 3 "offline").1
      !! "s1"%string = None.
Proof.
  split; [reflexivity|].
  pose proof (closeClient_closes default_order (106 * second) lower_ascii _ _ "cb" 3 "offline"
    sample_inv) as H.
  destruct (closeClient default_order (106 * second) lower_ascii sample_state "cb" 3 "offline")
    as [c' results] eqn:E. destruct H as (H & _). cbn.
  destruct (sessions c' !! "s1"%string) as [s|] eqn:Es; [exfalso|reflexivity].
  apply H in Es as [Hs Hi]. rewrite sample_session in Hs. injection Hs as <-. discriminate.
Defined.

(** The prepare messages of a session are acceptable to the clients that get
    them: for a session within the client's limits the two messages go to the two
    participants at their generations, both pass the client's validation, one
    client is told to offer and the other to answer, each grant carries opposite
    roles at the two ends, and neither message depends on the iteration order of
    the grant map. *)
Theorem prepare_messages_valid o now used c id s :
  coord_inv used c → sessions c !! id = Some s → session_sendable now s →
  let pa := prepare_of o s (s_clientA s) (s_clientB s) P2PRoleOfferer
              (s_generationA s) (s_generationB s) in
  let pb := prepare_of o s (s_clientB s) (s_clientA s) P2PRoleAnswerer
              (s_generationB s) (s_generationA s) in
  prepareMessages o c id
  = Ok [outbound s (s_clientA s) MsgTypeP2PSessionPrepare (PayPrepare pa);
        outbound s (s_clientB s) MsgTypeP2PSessionPrepare (PayPrepare pb)]
  ∧ P2PSessionPrepare_Validate now pa = Ok tt ∧ P2PSessionPrepare_Validate now pb = Ok tt
  ∧ (∀ o', prepareMessages o' c id = prepareMessages o c id)
  ∧ (∀ tid g, s_grants s !! tid = Some g →
       tg_LocalRole (forClient g (s_clientA s)) = tg_PeerRole (forClient g (s_clientB s))
       ∧ tg_PeerRole (forClient g (s_clientA s)) = tg_LocalRole (forClient g (s_clientB s))
       ∧ forClient g (s_clientA s) ∈ sp_Grants pa ∧ forClient g (s_clientB s) ∈ sp_Grants pb).
Proof.
  intros I Hs Hsend pa pb. pose proof (ci_wf _ _ I _ _ Hs) as Hwf.
  assert (Hmsg : ∀ o', prepareMessages o' c id = Ok (prepareMessagesLocked o' s)).
  { intros o'. unfold prepareMessages. rewrite sessions_lookup_id in Hs.
    destruct (lookup_id c id) as [[l s0]|]; [|done]. cbn in Hs. by injection Hs as ->. }
  destruct (sw_generations s Hwf) as [HA HB].
  split_and!.
  - apply Hmsg.
  - apply prepare_valid; try done; [apply Hsend|by left].
  - apply prepare_valid; try done; [apply Hsend|by right].
  - intros o'. rewrite !Hmsg. unfold prepareMessagesLocked. do 2 f_equal.
    + f_equal. f_equal. by apply (prepare_order o' o).
    + f_equal. f_equal. f_equal. by apply (prepare_order o' o).
  - intros tid g Hg. pose proof (sw_grants s Hwf _ _ Hg) as [_ _ _ Hpair _ _].
    pose proof (client_ne s Hwf) as Hne.
    pose proof (proj2 (eqb_str_false _ _) Hne). pose proof (proj2 (eqb_str_false _ _) (not_eq_sym Hne)).
    assert (∀ cl, forClient g cl ∈ sort_by tg_TunnelID ((λ kg, forClient kg.2 cl) <$> range o (s_grants s)))
      as Hin.
    { intros cl. rewrite sort_by_perm. apply list_elem_of_fmap. exists (tid, g).
      by rewrite elem_of_range. }
    unfold pa, pb, prepare_of, forClient. cbn [sp_Grants]. split_and!; [..|apply Hin|apply Hin];
      destruct Hpair as [[-> _]|[-> _]]; rewrite ?eqb_str_refl, ?H, ?H0; done.
Qed.

Lemma sample_sendable : session_sendable (106 * second) Sample.session.
Proof.
  split; try (split; [discriminate|vm_compute; discriminate]); try (vm_compute; discriminate);
    try (vm_compute; reflexivity).
  apply map_Forall_singleton.
  split; try (split; [discriminate|vm_compute; discriminate]); vm_compute; try discriminate;
    reflexivity.
Qed.

Lemma prepare_messages_valid_witness :
  P2PSessionPrepare_Validate (106 * second)
    (prepare_of default_order Sample.session "ca" "cb" P2PRoleOfferer 4 3) = Ok tt.
Proof.
  apply (prepare_messages_valid default_order (106 * second) _ _ "s1" Sample.session sample_inv
    sample_session sample_sendable).
Defined.

(** A successful [ensureGrant] leaves one session for the pair, with the
    clients in byte order, the generations and the owner of the request, that
    serves the tunnel at the requested revision with the returned grant; a grant
    it creates carries the request's roles and limit and the issued id. Asking
    again, at any time, returns the same grant and changes nothing. *)
Theorem ensureGrant_idempotent o now used c spec sid gid c' g r :
  coord_inv used c → nul_free (gs_ingressClientID spec) → nul_free (gs_targetClientID spec) →
  ensureGrant o now c spec sid gid = (c', Ok (g, r)) →
  granted now c' spec gid g r
  ∧ ∀ o' now' sid' gid', ∃ r', ensureGrant o' now' c' spec sid' gid' = (c', Ok (g, r'))
      ∧ lr_GrantCreated r' = false ∧ lr_SessionCreated r' = false.
Proof.
  intros I Hni Hnt H. destruct (ensureGrant_granted _ _ _ _ _ _ _ _ _ _ I Hni Hnt H) as [Hck Hg].
  split; [done|]. intros o' now' sid' gid'. by eapply granted_again.
Qed.

Lemma ensureGrant_idempotent_witness :
  granted (100 * second) (run lower_ascii (take 1 Sample.opening)).1 Sample.spec
    (Ok "g1"%string) Sample.grant
    (grant_result default_order
       (PairSession "s1" "u1" 1 "ca" "cb" 4 3 1 (160 * second) {["t1"%string := Sample.grant]}
          ∅ ∅ ∅ ∅ ∅ ∅ ∅) Sample.grant true true 1).
Proof.
  apply (ensureGrant_idempotent default_order (100 * second) ∅ newP2PCoordinator Sample.spec
           (Ok "s1"%string)).
  - exact inv_init.
  - apply has_nul_free. reflexivity.
  - apply has_nul_free. reflexivity.
  - vm_compute. reflexivity.
Defined.

(** [revokeTunnel] removes one grant of the tunnel at a revision not above the
    requested one (any revision when it is not positive): the grant's session
    keeps all its other grants, or is removed with its last one; nothing else
    changes, and the final statistics of the revoked grant stay acceptable with
    their cursor. When it does nothing, no served session had such a grant. *)
Theorem revokeTunnel_revokes o now lower used c tunnelID revision reason :
  coord_inv used c →
  let c' := (revokeTunnel o now lower c tunnelID revision reason).1 in
  (c' = c ∧ ∀ id s g, sessions c !! id = Some s → s_grants s !! tunnelID = Some g →
              0 < revision < g_revision g)
  ∨ ∃ id s g, live_gid c (g_grantID g) id tunnelID s g
      ∧ (revision ≤ 0 ∨ g_revision g ≤ revision)
      ∧ sessions c' = (if decide (delete tunnelID (s_grants s) = ∅) then delete id (sessions c)
                       else <[id := with_grants s (delete tunnelID (s_grants s))]> (sessions c))
      ∧ closedStats c' = <[g_grantID g := closed_grant now s g]> (closedStats c).
Proof.
  intros I. destruct (revoke_cases o now lower used c tunnelID revision reason I)
    as [?|(id & s & g & Hl & Hr & _ & HC & HS)]; [by left|right].
  exists id, s, g. by split_and!.
Qed.

Lemma revokeTunnel_revokes_witness :
  sessions (revokeTunnel default_order (106 * second) lower_ascii sample_state "t1" 1 "stopped").1
    !! "s1"%string = None.
Proof.
  destruct (revokeTunnel_revokes default_order (106 * second) lower_ascii _ sample_state "t1" 1
    "stopped" sample_inv) as [[_ H]|(id & s & g & (Hs & Hg & _) & _ & HS & _)].
  - destruct (H _ _ Sample.grant sample_session) as [_ H']; [reflexivity|].
    vm_compute in H'. discriminate H'.
  - vm_compute. reflexivity.
Defined.
