(* ===== verification/RateLimiter.v ===== *)
(** The per-IP rate limiter of [internal/server/rate_limiter.go]: a sliding
    window of accepted requests, a lockout after consecutive failures, and a
    background cleanup of idle entries.

    An operation on one IP holds that entry's mutex, so it is a function on the
    table of entries; [now] is what [time.Now] returns while it is held. *)
From Stdlib Require Import ZArith Lia String Sorted.
From stdpp Require Import base tactics numbers list gmap strings sorting.
From S2P Require Import Prelude.

(** ** Data *)

Record RateLimiterConfig := {
  WindowSize : Z; MaxRequests : Z; MaxFailures : Z; LockoutPeriod : Z; CleanupInterval : Z;
}.

Record rateLimitEntry := {
  rl_timestamps : list Z; rl_failures : Z; rl_lockedUntil : Z; rl_lastActivity : Z;
}.

(** [RateLimiter]: the configuration is fixed, the entries change. *)
Abbreviation RateLimiter := (gmap string rateLimitEntry).

Record RateLimitSnapshot := {
  ss_IP : string; ss_RequestCount : Z; ss_MaxRequests : Z; ss_FailureCount : Z;
  ss_MaxFailures : Z; ss_Limited : bool; ss_Reason : string; ss_RetryAfterSeconds : Z;
  ss_LockedUntil : option Z; ss_LastActivity : Z; ss_WindowSeconds : Z; ss_LockoutSeconds : Z;
}.

Definition NewRateLimiter : RateLimiter := ∅.

(** [int(d.Seconds())]: whole seconds, truncated towards zero (exact while [d]
    is below 2^22 seconds, where the float64 sum does not round up). *)
Definition whole_seconds (d : Z) : Z := Z.quot d second.

Definition retryAfterSeconds (d : Z) : Z :=
  let secs := whole_seconds d in if secs <? 1 then 1 else secs.

(** The order of [Snapshot]: limited first, then most recent activity, then IP. *)
Definition snapshot_before (x y : RateLimitSnapshot) : bool :=
  if negb (Bool.eqb (ss_Limited x) (ss_Limited y)) then ss_Limited x else
  if negb (ss_LastActivity x =? ss_LastActivity y) then ss_LastActivity y <? ss_LastActivity x
  else ss_IP x <?s ss_IP y.
Definition snapshot_not_after (x y : RateLimitSnapshot) : Prop := snapshot_before y x = false.
#[export] Instance snapshot_not_after_dec x y : Decision (snapshot_not_after x y).
Proof. unfold snapshot_not_after. apply _. Defined.

(** ** Operations *)

Section ops.
Context (config : RateLimiterConfig).

Definition getOrCreate (rl : RateLimiter) (now : Z) (ip : string) : rateLimitEntry :=
match rl !! ip with
| Some entry => entry
| None => {| rl_timestamps := []; rl_failures := 0; rl_lockedUntil := 0; rl_lastActivity := now |}
end.

(** [Allow] on the locked entry. *)
Definition allow_entry (now : Z) (entry : rateLimitEntry) : rateLimitEntry * (bool * Z) :=
if now <? rl_lockedUntil entry then
  ({| rl_timestamps := rl_timestamps entry; rl_failures := rl_failures entry;
      rl_lockedUntil := rl_lockedUntil entry; rl_lastActivity := now |},
   (false, rl_lockedUntil entry - now))
else
  let windowStart := now - WindowSize config in
  let valid := filter (λ t, windowStart < t) (rl_timestamps entry) in
  let pruned ts := {| rl_timestamps := ts; rl_failures := rl_failures entry;
                      rl_lockedUntil := rl_lockedUntil entry; rl_lastActivity := now |} in
  if (0 <? MaxRequests config) && (MaxRequests config <=? Z.of_nat (length valid)) then
    let retryAfter := hd 0 valid + WindowSize config - now in
    (pruned valid, (false, if retryAfter <? 0 then second else retryAfter))
  else (pruned (valid ++ [now]), (true, 0)).

Definition Allow (rl : RateLimiter) (now : Z) (ip : string) : RateLimiter * (bool * Z) :=
let '(entry, r) := allow_entry now (getOrCreate rl now ip) in (<[ip := entry]> rl, r).

Definition RecordFailure (rl : RateLimiter) (now : Z) (ip : string) : RateLimiter :=
let entry := getOrCreate rl now ip in
let failures := rl_failures entry + 1 in
let lockout := (0 <? MaxFailures config) && (MaxFailures config <=? failures) in
<[ip := {| rl_timestamps := rl_timestamps entry;
           rl_failures := if lockout then 0 else failures;
           rl_lockedUntil := if lockout then now + LockoutPeriod config
                             else rl_lockedUntil entry;
           rl_lastActivity := now |}]> rl.

Definition ResetFailures (rl : RateLimiter) (now : Z) (ip : string) : RateLimiter :=
let entry := getOrCreate rl now ip in
<[ip := {| rl_timestamps := rl_timestamps entry; rl_failures := 0;
           rl_lockedUntil := rl_lockedUntil entry;
           rl_lastActivity := rl_lastActivity entry |}]> rl.

Definition Delete (rl : RateLimiter) (ip : string) : RateLimiter * bool :=
(delete ip rl, bool_decide (is_Some (rl !! ip))).

Definition maxIdle : Z :=
let idle := WindowSize config + LockoutPeriod config in
if idle <? minute then minute else idle.

Definition cleanup (rl : RateLimiter) (now : Z) : RateLimiter :=
filter (λ ie, ¬ (maxIdle < now - rl_lastActivity ie.2)) rl.

(** The earliest timestamp of the window, by the scan of [Snapshot]. *)
Definition scan_window (windowStart : Z) (ts : list Z) : Z * Z :=
foldl (λ '(validCount, earliestValid) t,
         if windowStart <? t
         then (validCount + 1, if (validCount =? 0) || (t <? earliestValid) then t else earliestValid)
         else (validCount, earliestValid)) (0, 0) ts.

Definition snapshot_entry (now : Z) (ip : string) (entry : rateLimitEntry) : RateLimitSnapshot :=
let '(validCount, earliestValid) := scan_window (now - WindowSize config) (rl_timestamps entry) in
let locked := now <? rl_lockedUntil entry in
let full := (0 <? MaxRequests config) && (MaxRequests config <=? validCount)
            && negb (is_zero_time earliestValid) in
{| ss_IP := ip; ss_RequestCount := validCount; ss_MaxRequests := MaxRequests config;
   ss_FailureCount := rl_failures entry; ss_MaxFailures := MaxFailures config;
   ss_Limited := locked || full;
   ss_Reason := if locked then "lockout"%string else if full then "window"%string else ""%string;
   ss_RetryAfterSeconds :=
     if locked then retryAfterSeconds (rl_lockedUntil entry - now)
     else if full then retryAfterSeconds (earliestValid + WindowSize config - now) else 0;
   ss_LockedUntil := if locked then Some (rl_lockedUntil entry) else None;
   ss_LastActivity := rl_lastActivity entry;
   ss_WindowSeconds := whole_seconds (WindowSize config);
   ss_LockoutSeconds := whole_seconds (LockoutPeriod config) |}.

(** [time_now] is the clock, read when the caller passes the zero time. *)
Definition Snapshot (o : range_order) (rl : RateLimiter) (now time_now : Z)
  : list RateLimitSnapshot :=
let now := if is_zero_time now then time_now else now in
merge_sort snapshot_not_after ((λ ie, snapshot_entry now ie.1 ie.2) <$> range o rl).
End ops.

(** ** Runs *)

Inductive rl_op :=
| RlAllow (now : Z) (ip : string)
| RlFailure (now : Z) (ip : string)
| RlReset (now : Z) (ip : string)
| RlDelete (now : Z) (ip : string)
| RlCleanup (now : Z).

Definition op_time (op : rl_op) : Z :=
  match op with
  | RlAllow t _ | RlFailure t _ | RlReset t _ | RlDelete t _ | RlCleanup t => t
  end.

(** One operation; the answer of [Allow] is what a run records. *)
Definition rl_step (config : RateLimiterConfig) (rl : RateLimiter) (op : rl_op)
    : RateLimiter * option (bool * Z) :=
  match op with
  | RlAllow now ip => let '(rl, r) := Allow config rl now ip in (rl, Some r)
  | RlFailure now ip => (RecordFailure config rl now ip, None)
  | RlReset now ip => (ResetFailures rl now ip, None)
  | RlDelete _ ip => ((Delete rl ip).1, None)
  | RlCleanup now => (cleanup config rl now, None)
  end.

Fixpoint rl_run (config : RateLimiterConfig) (rl : RateLimiter) (ops : list rl_op)
    : RateLimiter * list (rl_op * option (bool * Z)) :=
  match ops with
  | [] => (rl, [])
  | op :: ops => let '(rl', r) := rl_step config rl op in
                 let '(rl'', log) := rl_run config rl' ops in (rl'', (op, r) :: log)
  end.


(** ** Lemmas *)

(** What the operations keep true of an entry last touched no later than [t]. *)
Record entry_wf (config : RateLimiterConfig) (t : Z) (e : rateLimitEntry) : Prop := {
  ew_activity : rl_lastActivity e ≤ t;
  ew_times : Forall (λ x, 0 < x ≤ rl_lastActivity e) (rl_timestamps e);
  ew_locked : rl_lockedUntil e ≤ Z.max 0 (rl_lastActivity e + LockoutPeriod config);
}.

Definition limiter_wf (config : RateLimiterConfig) (t : Z) (rl : RateLimiter) : Prop :=
  map_Forall (λ _, entry_wf config t) rl.

Definition config_wf (config : RateLimiterConfig) : Prop :=
  0 ≤ WindowSize config ∧ 0 ≤ LockoutPeriod config.

Lemma entry_wf_later config t t' e : t ≤ t' → entry_wf config t e → entry_wf config t' e.
Proof. intros ? [? ? ?]. split; [lia|done..]. Qed.

Lemma getOrCreate_wf config t rl ip :
  0 < t → config_wf config → limiter_wf config t rl → entry_wf config t (getOrCreate rl t ip).
Proof.
  intros Ht [_ Hl] Hwf. unfold getOrCreate. destruct (rl !! ip) as [e|] eqn:E; [by eapply Hwf|].
  split; cbn; [lia|constructor|lia].
Qed.

Lemma allow_entry_wf config t e :
  0 < t → entry_wf config t e → entry_wf config t (allow_entry config t e).1.
Proof.
  intros Ht [Ha Ht' Hl]. unfold allow_entry.
  assert (Forall (λ x, 0 < x ≤ t) (rl_timestamps e)) as Hts.
  { eapply Forall_impl; [exact Ht'|]. cbn. lia. }
  destruct (_ <? _); cbn; [split; cbn; [lia|done|lia]|].
  destruct (_ && _); cbn; split; cbn; try lia.
  - by apply Forall_filter_keep.
  - apply Forall_app. split; [by apply Forall_filter_keep|]. apply Forall_singleton. lia.
Qed.

Lemma rl_step_wf config t rl op :
  0 < t → config_wf config → limiter_wf config t rl → t ≤ op_time op →
  limiter_wf config (op_time op) (rl_step config rl op).1.
Proof.
  intros Ht Hc Hwf0 Hle.
  assert (Hwf : limiter_wf config (op_time op) rl).
  { intros ip e He. eapply entry_wf_later; [exact Hle|]. by eapply Hwf0. }
  assert (Hg : ∀ ip, entry_wf config (op_time op) (getOrCreate rl (op_time op) ip))
    by (intros; apply getOrCreate_wf; [lia|done|done]).
  destruct op as [now ip|now ip|now ip|now ip|now]; cbn in *.
  - unfold Allow. pose proof (allow_entry_wf config now _ ltac:(lia) (Hg ip)) as He.
    destruct (allow_entry _ _ _) as [e r]. by apply map_Forall_insert_2.
  - unfold RecordFailure. apply map_Forall_insert_2; [|done]. destruct (Hg ip) as [Ha Hts Hl].
    split; cbn; [lia| |destruct (_ && _); lia].
    eapply Forall_impl; [exact Hts|]. cbn. lia.
  - unfold ResetFailures. apply map_Forall_insert_2; [|done]. by destruct (Hg ip).
  - by apply map_Forall_delete.
  - intros ip e [He _]%map_lookup_filter_Some. by eapply Hwf.
Qed.

(** *** The sliding window *)

(** The timestamps of [ip] that a check at time [x] still counts. *)
Definition recent (config : RateLimiterConfig) (x : Z) (ts : list Z) : list Z :=
  filter (λ y, x - WindowSize config < y) ts.





Lemma recent_old config x ts :
  Forall (λ y, y ≤ x - WindowSize config) ts → recent config x ts = [].
Proof.
  induction 1 as [|y ts Hy _ IH]; [done|]. unfold recent in *. rewrite filter_cons_False; [done|lia].
Qed.









Definition never_deleted (ip : string) (op : rl_op) : Prop :=
  match op with RlDelete _ ip' => ip' ≠ ip | _ => True end.







(** *** Lockout *)

(** The entry of [ip] is locked at least until [u], and recent enough to survive
    a cleanup before [u]. *)
Definition locked_until (config : RateLimiterConfig) (rl : RateLimiter) (ip : string) (u : Z) : Prop :=
  ∃ e, rl !! ip = Some e ∧ u ≤ rl_lockedUntil e ∧ u - LockoutPeriod config ≤ rl_lastActivity e.

Lemma locked_step config t rl ip u op :
  config_wf config → limiter_wf config t rl → t ≤ op_time op → op_time op < u →
  never_deleted ip op → locked_until config rl ip u →
  locked_until config (rl_step config rl op).1 ip u
  ∧ ∀ now, op = RlAllow now ip → ∃ retry, (rl_step config rl op).2 = Some (false, retry)
                                   ∧ u - now ≤ retry.
Proof.
  intros [Hw Hl] Hwf Hle Hu Hnd (e & He & Hlock & Hact). pose proof (Hwf _ _ He) as Hewf. destruct Hewf as [Hlast _ _].
  assert (Hother : ∀ ip' e', ip' ≠ ip → locked_until config (<[ip' := e']> rl) ip u)
    by (intros; exists e; by rewrite lookup_insert_ne).
  destruct op as [now ip'|now ip'|now ip'|now ip'|now]; cbn in *.
  - unfold Allow. destruct (decide (ip' = ip)) as [->|Hne].
    + unfold getOrCreate, allow_entry. rewrite He, (proj2 (Z.ltb_lt _ _)) by lia. cbn. split.
      * eexists. rewrite lookup_insert_eq. split; [done|]. cbn. lia.
      * intros now' [= <-]. eexists. split; [done|]. lia.
    + destruct (allow_entry _ _ _) as [e' r]. split; [by apply Hother|]. intros ? [= _ ?]. done.
  - split; [|done]. unfold RecordFailure. destruct (decide (ip' = ip)) as [->|Hne]; [|by apply Hother].
    unfold getOrCreate. rewrite He. eexists. rewrite lookup_insert_eq. split; [done|]. cbn.
    destruct (_ && _); lia.
  - split; [|done]. unfold ResetFailures. destruct (decide (ip' = ip)) as [->|Hne]; [|by apply Hother].
    unfold getOrCreate. rewrite He. eexists. rewrite lookup_insert_eq. split; [done|]. cbn. lia.
  - split; [|done]. exists e. by rewrite lookup_delete_ne.
  - split; [|done]. exists e. split; [|done]. apply map_lookup_filter_Some. split; [done|]. cbn.
    unfold maxIdle. destruct (_ <? _) eqn:E; reflect_guards; lia.
Qed.

Lemma locked_run config ip u ops t rl :
  0 < t → config_wf config → limiter_wf config t rl → locked_until config rl ip u →
  StronglySorted Z.le (t :: (op_time <$> ops)) → Forall (λ op, op_time op < u) ops →
  Forall (never_deleted ip) ops →
  ∀ now r, (RlAllow now ip, Some r) ∈ (rl_run config rl ops).2 → r.1 = false ∧ u - now ≤ r.2.
Proof.
  revert t rl. induction ops as [|op ops IH]; intros t rl Ht Hc Hwf Hlk Hs Hu Hd now r Hin.
  { by apply not_elem_of_nil in Hin. }
  cbn [rl_run] in Hin. cbn in Hs. apply StronglySorted_cons in Hs as [Hle Hs].
  apply Forall_cons in Hle as [Hle _]. apply Forall_cons in Hd as [Hd1 Hd].
  apply Forall_cons in Hu as [Hu1 Hu].
  destruct (locked_step config t rl ip u op Hc Hwf Hle Hu1 Hd1 Hlk) as [Hlk' Hdeny].
  pose proof (rl_step_wf _ _ _ op Ht Hc Hwf Hle) as Hwf'.
  destruct (rl_step config rl op) as [rl' r']. cbn [fst snd] in *.
  specialize (IH (op_time op) rl' ltac:(lia) Hc Hwf' Hlk' Hs Hu Hd now r).
  destruct (rl_run config rl' ops) as [rl'' log]. cbn [snd] in *.
  apply elem_of_cons in Hin as [[= <- Hr]|Hin]; [|by apply IH].
  destruct (Hdeny _ eq_refl) as (retry & Hr' & ?). rewrite Hr' in Hr. by injection Hr as ->.
Qed.

(** Failures in a row at the given times. *)
Definition fail_at (config : RateLimiterConfig) (ip : string) (rl : RateLimiter) (ts : list Z)
    : RateLimiter := foldl (λ rl t, RecordFailure config rl t ip) rl ts.

Lemma fail_count config ip ts rl n :
  0 < MaxFailures config → (∀ now, rl_failures (getOrCreate rl now ip) = n) →
  0 ≤ n → n + Z.of_nat (length ts) < MaxFailures config →
  ∀ now, rl_failures (getOrCreate (fail_at config ip rl ts) now ip) = n + Z.of_nat (length ts).
Proof.
  revert rl n. induction ts as [|t ts IH]; intros rl n Hm Hn H0 Hlt now; [cbn; rewrite Hn; lia|].
  cbn [fail_at foldl] in *. cbn [length] in *.
  rewrite (IH (RecordFailure config rl t ip) (n + 1)); [lia|done| |lia|lia].
  intros now'. unfold RecordFailure, getOrCreate at 1. rewrite lookup_insert_eq. cbn.
  rewrite Hn. destruct (_ && _) eqn:E; [reflect_guards; lia|done].
Qed.

Lemma fail_locks config ip ts t0 rl :
  0 < MaxFailures config → (∀ now, rl_failures (getOrCreate rl now ip) = 0) →
  Z.of_nat (length (ts ++ [t0])) = MaxFailures config →
  locked_until config (fail_at config ip rl (ts ++ [t0])) ip (t0 + LockoutPeriod config).
Proof.
  intros Hm H0 Hlen. rewrite length_app in Hlen. cbn in Hlen. unfold fail_at. rewrite foldl_app. cbn.
  pose proof (fail_count config ip ts rl 0 Hm H0 ltac:(lia) ltac:(lia) t0) as Hn. unfold fail_at in Hn.
  unfold RecordFailure at 1. eexists. rewrite lookup_insert_eq. split; [done|]. cbn. rewrite Hn.
  destruct (_ && _) eqn:E; reflect_guards; [lia|]. destruct E; lia.
Qed.

Lemma fail_wf config ip ts t T rl :
  0 < t → config_wf config → limiter_wf config t rl → StronglySorted Z.le (t :: ts) →
  t ≤ T → Forall (λ x, x ≤ T) ts → limiter_wf config T (fail_at config ip rl ts).
Proof.
  revert t rl. induction ts as [|t' ts IH]; intros t rl Ht Hc Hwf Hs HT Hts.
  - intros ip' e He. eapply entry_wf_later; [exact HT|]. by eapply Hwf.
  - apply StronglySorted_cons in Hs as [Hle Hs]. apply Forall_cons in Hle as [Hle _].
    apply Forall_cons in Hts as [Ht' Hts].
    pose proof (rl_step_wf config t rl (RlFailure t' ip) Ht Hc Hwf Hle) as Hwf'.
    apply (IH t'); try done; lia.
Qed.

(** *** Snapshots and cleanup *)

Lemma scan_window_spec w ts :
  Forall (λ x, 0 < x) ts →
  (scan_window w ts).1 = Z.of_nat (length (filter (λ t, w < t) ts))
  ∧ (0 < (scan_window w ts).1 → 0 < (scan_window w ts).2).
Proof.
  unfold scan_window. induction ts as [|t ts IH] using rev_ind; intros Hp; [done|].
  apply Forall_app in Hp as [Hp Ht]. apply Forall_cons in Ht as [Ht _]. specialize (IH Hp).
  rewrite foldl_app, filter_app, length_app, filter_cons, filter_nil. cbn [foldl].
  destruct (foldl _ _ ts) as [n early].
  cbn [fst snd] in IH. destruct IH as [-> Hpos].
  destruct (Z.ltb_spec w t); cbn [fst snd].
  - rewrite decide_True by done. cbn [length]. split; [lia|]. intros _.
    destruct (_ || _) eqn:E; [done|]. reflect_guards. apply Hpos. lia.
  - rewrite decide_False by lia. cbn [length]. split; [lia|]. intros ?. apply Hpos. lia.
Qed.

Lemma snapshot_limited config now ip e :
  Forall (λ x, 0 < x) (rl_timestamps e) →
  ss_Limited (snapshot_entry config now ip e) = negb (allow_entry config now e).2.1.
Proof.
  intros Hp. unfold snapshot_entry, allow_entry, is_zero_time.
  destruct (scan_window_spec (now - WindowSize config) _ Hp) as [Hn Hpos].
  destruct (scan_window _ _) as [n early]. cbn in Hn, Hpos. rewrite <- Hn. cbn.
  destruct (now <? rl_lockedUntil e); [done|]. cbn.
  destruct (Z.ltb_spec 0 (MaxRequests config)), (Z.leb_spec (MaxRequests config) n); cbn; try done.
  assert (0 < early) by (apply Hpos; lia). by rewrite (proj2 (Z.eqb_neq early 0)) by lia.
Qed.

Lemma cleanup_allow config t now now' rl ip :
  0 < t → config_wf config → limiter_wf config t rl → t ≤ now → now ≤ now' →
  (Allow config (cleanup config rl now) now' ip).2 = (Allow config rl now' ip).2.
Proof.
  intros Ht [Hw Hl] Hwf Hle Hle'. unfold Allow, getOrCreate, cleanup. rewrite map_lookup_filter.
  destruct (rl !! ip) as [e|] eqn:E; cbn; [|by destruct (allow_entry _ _ _)].
  case_guard as Hidle; cbn; [by destruct (allow_entry _ _ _)|].
  destruct (Hwf _ _ E) as [Ha Hts Hlk]. unfold maxIdle in Hidle. cbn in Hidle.
  assert (rl_lastActivity e + WindowSize config + LockoutPeriod config < now)
    by (destruct (Z.ltb_spec (WindowSize config + LockoutPeriod config) minute); lia).
  unfold allow_entry. cbn [rl_lockedUntil rl_timestamps].
  rewrite (proj2 (Z.ltb_ge now' 0)), (proj2 (Z.ltb_ge now' (rl_lockedUntil e))) by lia.
  assert (filter (λ x, now' - WindowSize config < x) (rl_timestamps e) = []) as ->.
  { apply (recent_old config now'). eapply Forall_impl; [exact Hts|]. cbn. lia. }
  change (filter _ []) with (@nil Z). by destruct (_ && _).
Qed.

(** ** Properties *)

(** The configuration of the login limiter. *)
Definition sample_config : RateLimiterConfig :=
  {| WindowSize := 10 * second; MaxRequests := 2; MaxFailures := 2; LockoutPeriod := 30 * second;
     CleanupInterval := 0 |}.


Definition sample_ops : list rl_op :=
  [RlAllow (1 * second) "a"; RlAllow (2 * second) "a"; RlAllow (3 * second) "a";
   RlFailure (4 * second) "b"; RlCleanup (90 * second); RlAllow (91 * second) "a"]%string.


(** Lockout: [MaxFailures] failures in a row (here from an entry with none)
    lock the IP out for [LockoutPeriod] from the last one: whatever happens
    meanwhile, further failures, resets and cleanups included, every request
    before that time is refused with a retry delay that reaches it, unless an
    administrator deletes the entry. *)
Theorem lockout_holds config ip t rl ts t0 ops :
  0 < t → config_wf config → limiter_wf config t rl → 0 < MaxFailures config →
  (∀ now, rl_failures (getOrCreate rl now ip) = 0) →
  Z.of_nat (length (ts ++ [t0])) = MaxFailures config →
  StronglySorted Z.le (t :: ts ++ [t0]) →
  StronglySorted Z.le (t0 :: (op_time <$> ops)) →
  Forall (λ op, op_time op < t0 + LockoutPeriod config) ops → Forall (never_deleted ip) ops →
  ∀ now r, (RlAllow now ip, Some r) ∈ (rl_run config (fail_at config ip rl (ts ++ [t0])) ops).2 →
    r.1 = false ∧ t0 + LockoutPeriod config - now ≤ r.2.
Proof.
  intros Ht Hc Hwf Hm H0 Hlen Hs Hs' Hu Hd.
  assert (Hall : t ≤ t0 ∧ Forall (λ x, x ≤ t0) (ts ++ [t0])).
  { rewrite app_comm_cons in Hs. apply StronglySorted_app in Hs as [H _]. split.
    - apply H; set_solver.
    - apply Forall_app. split; [|by apply Forall_singleton]. apply Forall_forall.
      intros x Hx. apply H; set_solver. }
  destruct Hall as [Htt Hall].
  apply (locked_run config ip _ ops t0); try done; [lia| |by apply fail_locks].
  by apply (fail_wf config ip (ts ++ [t0]) t).
Qed.

Definition sample_locked : RateLimiter :=
  fail_at sample_config "b" NewRateLimiter [1 * second; 2 * second].
Definition sample_attempts : list rl_op :=
  [RlCleanup (5 * second); RlAllow (20 * second) "b"%string].

Lemma lockout_holds_witness :
  ∃ r, (RlAllow (20 * second) "b"%string, Some r) ∈ (rl_run sample_config sample_locked sample_attempts).2 ∧
    r.1 = false ∧ 2 * second + 30 * second - 20 * second ≤ r.2.
Proof.
  eexists. split.
  - apply (list_elem_of_lookup_2 _ 1). vm_compute. reflexivity.
  - apply (lockout_holds sample_config "b" 1 NewRateLimiter [1 * second] (2 * second) sample_attempts).
    + reflexivity.
    + split; vm_compute; discriminate.
    + apply map_Forall_empty.
    + reflexivity.
    + reflexivity.
    + reflexivity.
    + apply (bool_decide_unpack _). vm_compute. exact I.
    + apply (bool_decide_unpack _). vm_compute. exact I.
    + repeat constructor.
    + repeat constructor.
    + apply (list_elem_of_lookup_2 _ 1). vm_compute. reflexivity.
Defined.

(** Cleanup is invisible to admission: removing the idle entries at any time
    changes neither the decision nor the retry delay of any later request. *)
Theorem cleanup_invisible config t now now' rl ip :
  0 < t → config_wf config → limiter_wf config t rl → t ≤ now → now ≤ now' →
  (Allow config (cleanup config rl now) now' ip).2 = (Allow config rl now' ip).2.
Proof. apply cleanup_allow. Qed.

Lemma cleanup_invisible_witness :
  size (cleanup sample_config (rl_run sample_config NewRateLimiter sample_ops).1 (200 * second)) = 0%nat
  ∧ (Allow sample_config (cleanup sample_config (rl_run sample_config NewRateLimiter sample_ops).1
       (200 * second)) (201 * second) "a").2
    = (Allow sample_config (rl_run sample_config NewRateLimiter sample_ops).1 (201 * second) "a").2.
Proof.
  split; [vm_compute; reflexivity|].
  apply (cleanup_invisible sample_config (91 * second)).
  - reflexivity.
  - split; vm_compute; discriminate.
  - apply (map_Forall_to_list _ _). vm_compute.
    repeat constructor; vm_compute; discriminate.
  - vm_compute. discriminate.
  - vm_compute. discriminate.
Defined.

(** The administrative snapshot tells the truth: every tracked IP appears, and
    it is marked limited exactly when a request of it at that time would be
    refused. *)
Theorem snapshot_matches_allow config o t rl now time_now :
  limiter_wf config t rl → now ≠ 0 →
  (∀ ip, ip ∈ ss_IP <$> Snapshot config o rl now time_now ↔ is_Some (rl !! ip))
  ∧ ∀ sn, sn ∈ Snapshot config o rl now time_now →
      ss_Limited sn = negb (Allow config rl now (ss_IP sn)).2.1.
Proof.
  intros Hwf Hnow. unfold Snapshot, is_zero_time. rewrite (proj2 (Z.eqb_neq _ _) Hnow).
  assert (Hip : ∀ ip e, ss_IP (snapshot_entry config now ip e) = ip)
    by (intros; unfold snapshot_entry; by destruct (scan_window _ _)).
  split.
  - intros ip. rewrite merge_sort_Permutation, <- list_fmap_compose, list_elem_of_fmap. split.
    + intros ([ip' e] & -> & Hin%elem_of_range). cbn. rewrite Hip. by eexists.
    + intros [e He]. exists (ip, e). cbn. by rewrite Hip, elem_of_range.
  - intros sn. rewrite merge_sort_Permutation.
    intros ([ip e] & -> & Hin%elem_of_range)%list_elem_of_fmap. cbn. rewrite Hip.
    rewrite snapshot_limited.
    + unfold Allow, getOrCreate. rewrite Hin. by destruct (allow_entry _ _ _).
    + destruct (Hwf _ _ Hin) as [_ Hts _]. eapply Forall_impl; [exact Hts|]. cbn. lia.
Qed.

Definition sample_reached : RateLimiter :=
  (rl_run sample_config NewRateLimiter (take 3 sample_ops)).1.

Lemma snapshot_matches_allow_witness :
  (∀ ip, ip ∈ ss_IP <$> Snapshot sample_config default_order sample_reached (4 * second) 0
         ↔ is_Some (sample_reached !! ip))
  ∧ ∀ sn, sn ∈ Snapshot sample_config default_order sample_reached (4 * second) 0 →
      ss_Limited sn = negb (Allow sample_config sample_reached (4 * second) (ss_IP sn)).2.1.
Proof.
  apply (snapshot_matches_allow sample_config default_order (3 * second)).
  - apply (map_Forall_to_list _ _). vm_compute. repeat constructor; vm_compute; discriminate.
  - discriminate.
Defined.
