(* ===== verification/Traffic.v ===== *)
(** The in-memory traffic accumulator of [internal/server/traffic_accumulator.go]:
    byte counts of tunnels are merged per second in 32 shards chosen by an FNV
    hash of the identity, and drained to storage in batches. [checkedTrafficAdd],
    [secondFloorUTC], [minuteFloorUTC] and [TrafficDelta] are those of
    [internal/server/traffic_store.go].

    The read-write lock makes [AddDelta] atomic with respect to [ResetTunnel] and
    [evictDeletedOwner]; the shard mutexes make it atomic with respect to
    [Drain] on one shard. *)
From Stdlib Require Import ZArith Lia Ascii String.
From stdpp Require Import base tactics numbers list gmap strings sorting.
From S2P Require Import Prelude Protocol.

(** ** Data *)

Definition trafficAccumulatorShardCount : Z := 32.

Record TrafficDelta := {
  td_TunnelID : string; td_Revision : Z; td_ClientID : string; td_OwnerUserID : string;
  td_OwnerClientID : string; td_IngressClientID : string; td_TargetClientID : string;
  td_Topology : string; td_Transport : string; td_TunnelName : string; td_TunnelType : string;
  td_SecondStart : Z; td_MinuteStart : Z; td_IngressBytes : Z; td_EgressBytes : Z;
}.

#[export] Instance delta_eq_dec : EqDecision TrafficDelta.
Proof. solve_decision. Defined.

Record trafficAccumulatorKey := Key {
  tk_tunnelID : string; tk_revision : Z; tk_clientID : string; tk_ownerUserID : string;
  tk_tunnelName : string; tk_tunnelType : string; tk_transport : string;
  tk_secondStart : Z; tk_minuteStart : Z;
}.

#[export] Instance key_eq_dec : EqDecision trafficAccumulatorKey.
Proof. solve_decision. Defined.
#[export] Program Instance key_countable : Countable trafficAccumulatorKey :=
  inj_countable'
    (λ k, (tk_tunnelID k, tk_revision k, tk_clientID k, tk_ownerUserID k, tk_tunnelName k,
           tk_tunnelType k, tk_transport k, tk_secondStart k, tk_minuteStart k))
    (λ '(a, b, c, d, e, f, g, h, i), Key a b c d e f g h i) _.
Next Obligation. by intros []. Qed.

Abbreviation pending_map := (gmap trafficAccumulatorKey TrafficDelta).

(** [shards] has one map per index; maps absent from Go's zero value are empty. *)
Record trafficAccumulator := {
  acc_shards : list pending_map;
  acc_minimumRevision : gmap string Z;
  acc_deletedOwners : gset string;
}.

Definition newTrafficAccumulator : trafficAccumulator :=
  {| acc_shards := replicate (Z.to_nat trafficAccumulatorShardCount) ∅;
     acc_minimumRevision := ∅; acc_deletedOwners := ∅ |}.

(** ** Hashing and time *)

Definition u32_modulus : Z := 4294967296.

Fixpoint trafficAccumulatorHashString (hash : Z) (value : string) : Z :=
  match value with
  | String.EmptyString => hash
  | String.String c rest =>
      trafficAccumulatorHashString
        (Z.lxor hash (Z.of_nat (nat_of_ascii c)) * 16777619 mod u32_modulus) rest
  end.

Definition trafficAccumulatorShardIndex (key : trafficAccumulatorKey) : Z :=
  let hash := trafficAccumulatorHashString 2166136261 (tk_tunnelID key) in
  let hash := trafficAccumulatorHashString hash (tk_clientID key) in
  let hash := trafficAccumulatorHashString hash (tk_ownerUserID key) in
  let hash := trafficAccumulatorHashString hash (tk_tunnelName key) in
  let hash := trafficAccumulatorHashString hash (tk_tunnelType key) in
  let hash := trafficAccumulatorHashString hash (tk_transport key) in
  hash mod trafficAccumulatorShardCount.

(** Seconds from Go's zero time (year 1) to the Unix epoch. *)
Definition unix_epoch : Z := 62135596800.
(** [secondFloorUTC(t).Unix()] and [minuteFloorUTC(t).Unix()]. *)
Definition secondFloorUTC (t : Z) : Z := t / second - unix_epoch.
Definition minuteFloorUTC (t : Z) : Z := t / minute * 60 - unix_epoch.

Definition checkedTrafficAdd (field : string) (a b : Z) : result Z :=
  if u64_sub u64_max b <? a
  then Err (Errorf "%s overflow adding %d + %d" [AStr field; AInt a; AInt b])
  else Ok (u64_add a b).

(** ** Operations *)

Definition with_start (delta : TrafficDelta) (secondStart minuteStart : Z) : TrafficDelta :=
  {| td_TunnelID := td_TunnelID delta; td_Revision := td_Revision delta;
     td_ClientID := td_ClientID delta; td_OwnerUserID := td_OwnerUserID delta;
     td_OwnerClientID := td_OwnerClientID delta; td_IngressClientID := td_IngressClientID delta;
     td_TargetClientID := td_TargetClientID delta; td_Topology := td_Topology delta;
     td_Transport := td_Transport delta; td_TunnelName := td_TunnelName delta;
     td_TunnelType := td_TunnelType delta; td_SecondStart := secondStart;
     td_MinuteStart := minuteStart; td_IngressBytes := td_IngressBytes delta;
     td_EgressBytes := td_EgressBytes delta |}.

Definition delta_key (delta : TrafficDelta) : trafficAccumulatorKey :=
  {| tk_tunnelID := td_TunnelID delta; tk_revision := td_Revision delta;
     tk_clientID := td_ClientID delta; tk_ownerUserID := td_OwnerUserID delta;
     tk_tunnelName := td_TunnelName delta; tk_tunnelType := td_TunnelType delta;
     tk_transport := td_Transport delta; tk_secondStart := td_SecondStart delta;
     tk_minuteStart := td_MinuteStart delta |}.

Definition first_set (existing new : string) : string :=
  if existing =?s "" then new else existing.

(** [mergeTrafficDeltaMetadata] with the merged byte counts. *)
Definition mergeTrafficDeltaMetadata (existing delta : TrafficDelta) (ingress egress : Z)
    : TrafficDelta :=
  {| td_TunnelID := td_TunnelID existing; td_Revision := td_Revision existing;
     td_ClientID := td_ClientID existing;
     td_OwnerUserID := first_set (td_OwnerUserID existing) (td_OwnerUserID delta);
     td_OwnerClientID := first_set (td_OwnerClientID existing) (td_OwnerClientID delta);
     td_IngressClientID := first_set (td_IngressClientID existing) (td_IngressClientID delta);
     td_TargetClientID := first_set (td_TargetClientID existing) (td_TargetClientID delta);
     td_Topology := first_set (td_Topology existing) (td_Topology delta);
     td_Transport :=
       if (td_Transport existing =?s "") || (td_Transport existing =?s ActualTransportUnknown)
       then td_Transport delta else td_Transport existing;
     td_TunnelName := td_TunnelName existing; td_TunnelType := td_TunnelType existing;
     td_SecondStart := td_SecondStart existing; td_MinuteStart := td_MinuteStart existing;
     td_IngressBytes := ingress; td_EgressBytes := egress |}.

(** The early returns of [AddDelta]: the observation is ignored. *)
Definition ignored (a : trafficAccumulator) (delta : TrafficDelta) : bool :=
  ((td_ClientID delta =?s "") || (td_TunnelName delta =?s "") || (td_TunnelType delta =?s ""))
  || ((td_IngressBytes delta =? 0) && (td_EgressBytes delta =? 0))
  || bool_decide (td_OwnerUserID delta ∈ acc_deletedOwners a)
  || (negb (td_TunnelID delta =?s "")
      && (td_Revision delta <? default 0 (acc_minimumRevision a !! td_TunnelID delta))).

(** The update of the shard. *)
Definition add_pending (pending : pending_map) (key : trafficAccumulatorKey)
    (delta : TrafficDelta) : result pending_map :=
  match pending !! key with
  | Some existing =>
      mergedIngress ← checkedTrafficAdd "traffic accumulator ingress_bytes"
        (td_IngressBytes existing) (td_IngressBytes delta);
      mergedEgress ← checkedTrafficAdd "traffic accumulator egress_bytes"
        (td_EgressBytes existing) (td_EgressBytes delta);
      Ok (<[key := mergeTrafficDeltaMetadata existing delta mergedIngress mergedEgress]> pending)
  | None => Ok (<[key := delta]> pending)
  end.

Definition with_shards (a : trafficAccumulator) (shards : list pending_map) : trafficAccumulator :=
  {| acc_shards := shards; acc_minimumRevision := acc_minimumRevision a;
     acc_deletedOwners := acc_deletedOwners a |}.

(** [delta] with the second and minute of the observation. *)
Definition stamped (now : Z) (delta : TrafficDelta) : TrafficDelta :=
  with_start delta (secondFloorUTC now) (minuteFloorUTC now).

Definition AddDelta (a : trafficAccumulator) (now : Z) (delta : TrafficDelta)
    : trafficAccumulator * result unit :=
  if ignored a delta then (a, Ok tt) else
  let delta := stamped now delta in
  let key := delta_key delta in
  let i := Z.to_nat (trafficAccumulatorShardIndex key) in
  match acc_shards a !! i with
  | None => (a, Ok tt)   (* an index below 32 is always present *)
  | Some pending =>
      match add_pending pending key delta with
      | Err e => (a, Err e)
      | Ok pending => (with_shards a (<[i := pending]> (acc_shards a)), Ok tt)
      end
  end.

Definition Add (a : trafficAccumulator) (now : Z)
    (tunnelID clientID tunnelName tunnelType : string) (ingressBytes egressBytes : Z)
    : trafficAccumulator * result unit :=
  AddDelta a now
    {| td_TunnelID := tunnelID; td_Revision := 0; td_ClientID := clientID; td_OwnerUserID := "";
       td_OwnerClientID := ""; td_IngressClientID := ""; td_TargetClientID := "";
       td_Topology := ""; td_Transport := ""; td_TunnelName := tunnelName;
       td_TunnelType := tunnelType; td_SecondStart := 0; td_MinuteStart := 0;
       td_IngressBytes := ingressBytes; td_EgressBytes := egressBytes |}.

Definition evictDeletedOwner (a : trafficAccumulator) (ownerUserID : string) : trafficAccumulator :=
  if ownerUserID =?s "" then a else
  {| acc_shards := (λ m : pending_map, filter (λ kd, tk_ownerUserID kd.1 ≠ ownerUserID) m) <$> acc_shards a;
     acc_minimumRevision := acc_minimumRevision a;
     acc_deletedOwners := {[ownerUserID]} ∪ acc_deletedOwners a |}.

Definition ResetTunnel (a : trafficAccumulator) (tunnelID : string) (minimumRevision : Z)
    : trafficAccumulator :=
  if (tunnelID =?s "") || (minimumRevision <=? 0) then a else
  if minimumRevision <=? default 0 (acc_minimumRevision a !! tunnelID) then a else
  {| acc_shards := (λ m : pending_map, filter (λ kd, ¬ (tk_tunnelID kd.1 = tunnelID ∧ tk_revision kd.1 < minimumRevision)) m)
                     <$> acc_shards a;
     acc_minimumRevision := <[tunnelID := minimumRevision]> (acc_minimumRevision a);
     acc_deletedOwners := acc_deletedOwners a |}.

(** The comparison of [Drain]'s sort; the transport takes no part in it. *)
Definition delta_before (x y : TrafficDelta) : bool :=
  if negb (td_TunnelID x =?s td_TunnelID y) then td_TunnelID x <?s td_TunnelID y else
  if negb (td_Revision x =? td_Revision y) then td_Revision x <? td_Revision y else
  if negb (td_ClientID x =?s td_ClientID y) then td_ClientID x <?s td_ClientID y else
  if negb (td_OwnerUserID x =?s td_OwnerUserID y) then td_OwnerUserID x <?s td_OwnerUserID y else
  if negb (td_TunnelName x =?s td_TunnelName y) then td_TunnelName x <?s td_TunnelName y else
  if negb (td_TunnelType x =?s td_TunnelType y) then td_TunnelType x <?s td_TunnelType y else
  if negb (td_SecondStart x =? td_SecondStart y) then td_SecondStart x <? td_SecondStart y
  else td_MinuteStart x <? td_MinuteStart y.
Definition delta_not_after (x y : TrafficDelta) : Prop := delta_before y x = false.
#[export] Instance delta_not_after_dec x y : Decision (delta_not_after x y).
Proof. unfold delta_not_after. apply _. Defined.

(** [order] is the iteration order of a shard's map. *)
Definition Drain (order : pending_map → list (trafficAccumulatorKey * TrafficDelta))
    (a : trafficAccumulator) : trafficAccumulator * list TrafficDelta :=
  (with_shards a ((λ _, ∅) <$> acc_shards a),
   merge_sort delta_not_after (mjoin ((λ m, (order m).*2) <$> acc_shards a))).

Definition Len (a : trafficAccumulator) : nat := sum_list (size <$> acc_shards a).

Definition relayTrafficTransport (actual : string) : string :=
  if (actual =?s "") || (actual =?s ActualTransportUnknown)
  then ActualTransportServerRelay else actual.

(** *** Recording and flushing (the server's use of the accumulator) *)

(** The accumulator and everything handed to [trafficStore.ApplyDeltas] so far. *)
Record traffic_state := { ts_acc : trafficAccumulator; ts_applied : list TrafficDelta }.

Definition flushTrafficObservations
    (order : pending_map → list (trafficAccumulatorKey * TrafficDelta))
    (s : traffic_state) : traffic_state :=
  let '(acc, deltas) := Drain order (ts_acc s) in
  match deltas with
  | [] => {| ts_acc := acc; ts_applied := ts_applied s |}
  | _ => {| ts_acc := acc; ts_applied := ts_applied s ++ deltas |}
  end.

Definition with_identity (delta : TrafficDelta) (tunnelID : string) (revision : Z) (owner : string)
    : TrafficDelta :=
  {| td_TunnelID := tunnelID; td_Revision := revision; td_ClientID := td_ClientID delta;
     td_OwnerUserID := owner; td_OwnerClientID := td_OwnerClientID delta;
     td_IngressClientID := td_IngressClientID delta; td_TargetClientID := td_TargetClientID delta;
     td_Topology := td_Topology delta; td_Transport := td_Transport delta;
     td_TunnelName := td_TunnelName delta; td_TunnelType := td_TunnelType delta;
     td_SecondStart := td_SecondStart delta; td_MinuteStart := td_MinuteStart delta;
     td_IngressBytes := td_IngressBytes delta; td_EgressBytes := td_EgressBytes delta |}.

(** The identity [recordTrafficDeltaAt] fills in: [resolve] is the live or stored
    tunnel of a client and name, [owner_of] the owner lookup. *)
Definition resolve_delta (resolve : string → string → string → string * Z)
    (owner_of : TrafficDelta → string) (delta : TrafficDelta) : TrafficDelta :=
  let '(tunnelID, revision) :=
    if (td_TunnelID delta =?s "") || (td_Revision delta <=? 0) then
      let '(resolvedID, resolvedRevision) :=
        resolve (td_ClientID delta) (td_TunnelName delta) (td_TunnelType delta) in
      let id := if td_TunnelID delta =?s "" then resolvedID else td_TunnelID delta in
      (id, if (td_Revision delta <=? 0) && (resolvedID =?s id) then resolvedRevision
           else td_Revision delta)
    else (td_TunnelID delta, td_Revision delta) in
  let delta := with_identity delta tunnelID revision (td_OwnerUserID delta) in
  if td_OwnerUserID delta =?s "" then with_identity delta tunnelID revision (owner_of delta)
  else delta.

Definition recordTrafficDeltaAt
    (order : pending_map → list (trafficAccumulatorKey * TrafficDelta))
    (resolve : string → string → string → string * Z) (owner_of : TrafficDelta → string)
    (s : traffic_state) (now : Z) (delta : TrafficDelta) : traffic_state :=
  if (td_IngressBytes delta =? 0) && (td_EgressBytes delta =? 0) then s else
  let delta := resolve_delta resolve owner_of delta in
  if td_OwnerUserID delta =?s "" then s else
  let '(acc, r) := AddDelta (ts_acc s) now delta in
  match r with
  | Ok _ => {| ts_acc := acc; ts_applied := ts_applied s |}
  | Err _ =>
      let s := flushTrafficObservations order {| ts_acc := acc; ts_applied := ts_applied s |} in
      let '(acc, r) := AddDelta (ts_acc s) now delta in
      match r with
      | Ok _ => {| ts_acc := acc; ts_applied := ts_applied s |}
      | Err _ => {| ts_acc := acc; ts_applied := ts_applied s ++ [stamped now delta] |}
      end
  end.

(** ** Well-formed accumulators *)

Definition key_index (k : trafficAccumulatorKey) : nat := Z.to_nat (trafficAccumulatorShardIndex k).

Lemma key_index_lt k : (key_index k < 32)%nat.
Proof.
  unfold key_index, trafficAccumulatorShardIndex, trafficAccumulatorShardCount.
  match goal with |- context [?h mod 32] => pose proof (Z.mod_pos_bound h 32) end. lia.
Qed.

(** What is queued under [k]. *)
Definition pending (a : trafficAccumulator) (k : trafficAccumulatorKey) : option TrafficDelta :=
  m ← acc_shards a !! key_index k; m !! k.

(** A tombstone or a revision floor forbids the key. *)
Definition forbidden (a : trafficAccumulator) (k : trafficAccumulatorKey) : Prop :=
  tk_ownerUserID k ∈ acc_deletedOwners a
  ∨ (tk_tunnelID k ≠ ""%string
     ∧ tk_revision k < default 0 (acc_minimumRevision a !! tk_tunnelID k)).

Record acc_wf (a : trafficAccumulator) : Prop := {
  aw_length : length (acc_shards a) = 32%nat;
  aw_entry : ∀ i m k d, acc_shards a !! i = Some m → m !! k = Some d →
    key_index k = i ∧ delta_key d = k ∧ is_u64 (td_IngressBytes d) ∧ is_u64 (td_EgressBytes d)
    ∧ ¬ forbidden a k;
}.

Lemma pending_new k : pending newTrafficAccumulator k = None.
Proof.
  unfold pending. destruct (acc_shards newTrafficAccumulator !! key_index k) as [m|] eqn:E; [|done].
  cbn -[replicate] in E. apply lookup_replicate in E as [-> _]. apply lookup_empty.
Qed.

Definition delta_typed (d : TrafficDelta) : Prop :=
  is_u64 (td_IngressBytes d) ∧ is_u64 (td_EgressBytes d).

Lemma new_wf : acc_wf newTrafficAccumulator.
Proof.
  split; [done|]. intros i m k d Hm Hk. cbn -[replicate] in Hm.
  apply lookup_replicate in Hm as [-> _]. by rewrite lookup_empty in Hk.
Qed.

Lemma checkedTrafficAdd_spec field a b :
  is_u64 a → is_u64 b →
  checkedTrafficAdd field a b =
  if decide (a + b < u64_modulus) then Ok (a + b)
  else Err (Errorf "%s overflow adding %d + %d" [AStr field; AInt a; AInt b]).
Proof.
  intros Ha Hb. unfold checkedTrafficAdd.
  rewrite u64_sub_small by u64_bounds.
  destruct (Z.ltb_spec (u64_max - b) a), (decide _); try (unfold u64_max, u64_modulus in *; lia); [done|].
  by rewrite u64_add_small by done.
Qed.

(** The queued delta after a merge keeps its key. *)
Lemma merge_key e d x y : delta_key e = delta_key d →
  delta_key (mergeTrafficDeltaMetadata e d x y) = delta_key e.
Proof.
  unfold delta_key, mergeTrafficDeltaMetadata, first_set. intros [= H1 H2 H3 H4 H5 H6 H7 H8 H9].
  cbn. rewrite H4, H7. destruct (td_OwnerUserID d =?s ""), (_ || _); done.
Qed.

(** Both sums fit. *)
Definition fits (e d : TrafficDelta) : Prop :=
  td_IngressBytes e + td_IngressBytes d < u64_modulus
  ∧ td_EgressBytes e + td_EgressBytes d < u64_modulus.
#[export] Instance fits_dec e d : Decision (fits e d).
Proof. unfold fits. apply _. Defined.

Lemma add_pending_spec m k d :
  delta_typed d → (∀ e, m !! k = Some e → delta_typed e) →
  match m !! k with
  | Some e => if decide (fits e d)
              then add_pending m k d = Ok (<[k := mergeTrafficDeltaMetadata e d
                     (td_IngressBytes e + td_IngressBytes d) (td_EgressBytes e + td_EgressBytes d)]> m)
              else ∃ err, add_pending m k d = Err err
  | None => add_pending m k d = Ok (<[k := d]> m)
  end.
Proof.
  intros [Hi He] Hm. unfold add_pending. destruct (m !! k) as [e|]; [|done].
  destruct (Hm e eq_refl) as [Hi' He']. rewrite !checkedTrafficAdd_spec by done.
  unfold fits. destruct (decide (_ ∧ _)) as [[H1 H2]|Hn].
  - by rewrite !decide_True by done.
  - destruct (decide (td_IngressBytes e + _ < _)); cbn; [|by eexists].
    destruct (decide (td_EgressBytes e + _ < _)); cbn; [tauto|by eexists].
Qed.

Lemma pending_wf a k d : acc_wf a → pending a k = Some d →
  delta_key d = k ∧ delta_typed d ∧ ¬ forbidden a k.
Proof.
  intros [_ Hw] H. unfold pending in H. apply bind_Some in H as (m & Hm & Hk).
  destruct (Hw _ _ _ _ Hm Hk) as (_ & ? & ? & ? & ?). done.
Qed.

Lemma ignored_false a now d :
  ignored a d = false → ¬ forbidden a (delta_key (stamped now d)).
Proof.
  unfold ignored, forbidden. intros H. reflect_guards. cbn.
  destruct H as [[_ H2] H3]. intros [?|[? ?]]; [done|]. destruct H3 as [H3|H3]; [done|lia].
Qed.

(** What [AddDelta] does, key by key. *)
Lemma AddDelta_spec a now d :
  acc_wf a → delta_typed d → ignored a d = false →
  let d' := stamped now d in
  let k := delta_key d' in
  let '(a', r) := AddDelta a now d in
  match pending a k with
  | Some e =>
      if decide (fits e d')
      then r = Ok tt ∧ acc_wf a' ∧ ∀ k', pending a' k' =
             if decide (k' = k)
             then Some (mergeTrafficDeltaMetadata e d' (td_IngressBytes e + td_IngressBytes d)
                          (td_EgressBytes e + td_EgressBytes d))
             else pending a k'
      else (∃ err, r = Err err) ∧ a' = a
  | None => r = Ok tt ∧ acc_wf a'
            ∧ ∀ k', pending a' k' = if decide (k' = k) then Some d' else pending a k'
  end.
Proof.
  intros Hwf Hd Hig d' k. unfold AddDelta. rewrite Hig. fold d'. fold k. fold (key_index k).
  pose proof (ignored_false a now d Hig) as Hforb. fold d' in Hforb. fold k in Hforb.
  destruct (lookup_lt_is_Some_2 (acc_shards a) (key_index k)) as [m Hm].
  { rewrite (aw_length a Hwf). apply key_index_lt. }
  rewrite Hm. assert (Hp : pending a k = m !! k) by (unfold pending; by rewrite Hm).
  assert (Hins : ∀ e, delta_key e = k → delta_typed e →
    acc_wf (with_shards a (<[key_index k := <[k := e]> m]> (acc_shards a)))
    ∧ ∀ k', pending (with_shards a (<[key_index k := <[k := e]> m]> (acc_shards a))) k'
            = if decide (k' = k) then Some e else pending a k').
  { intros e Hek [Hei Hee]. split; [split|].
    - cbn. rewrite length_insert. apply Hwf.
    - intros i m' k' d0 Hm' Hk'. cbn in Hm'. apply list_lookup_insert_Some in Hm'.
      destruct Hm' as [(<- & <- & _)|[Hne Hm']]; [|by apply (aw_entry a Hwf i m')].
      apply lookup_insert_Some in Hk' as [[<- <-]|[_ Hk']]; [done|].
      by apply (aw_entry a Hwf _ m).
    - intros k'. unfold pending. cbn. destruct (decide (key_index k' = key_index k)) as [He|Hne].
      + rewrite He, list_lookup_insert_eq, Hm by (rewrite (aw_length a Hwf); apply key_index_lt). cbn.
        destruct (decide (k' = k)) as [->|]; [by rewrite lookup_insert_eq|by rewrite lookup_insert_ne].
      + rewrite list_lookup_insert_ne by done. by rewrite decide_False by congruence. }
  assert (Hty : ∀ e, m !! k = Some e → delta_typed e).
  { intros e He. destruct (aw_entry a Hwf _ _ _ _ Hm He) as (_ & _ & ? & ? & _). done. }
  pose proof (add_pending_spec m k d' Hd Hty) as Hadd. rewrite Hp.
  destruct (m !! k) as [e|] eqn:Ek.
  - destruct (decide (fits e d')) as [[F1 F2]|Hn].
    + rewrite Hadd. split; [done|]. destruct (aw_entry a Hwf _ _ _ _ Hm Ek) as (_ & Hek & Hi & He & _).
      apply Hins; [by rewrite merge_key|]. destruct Hd as [Hdi Hde]. cbn in F1, F2.
      split; cbn; u64_bounds.
    + destruct Hadd as [err ->]. split; [by eexists|done].
  - rewrite Hadd. split; [done|]. by apply Hins.
Qed.

(** *** Discarding *)

Lemma pending_filter a P `{∀ kd : trafficAccumulatorKey * TrafficDelta, Decision (P kd)} minimum deleted k :
  pending {| acc_shards := (λ m : pending_map, filter P m) <$> acc_shards a;
             acc_minimumRevision := minimum; acc_deletedOwners := deleted |} k
  = d ← pending a k; guard (P (k, d)) ;; Some d.
Proof.
  unfold pending. cbn. rewrite list_lookup_fmap.
  destruct (acc_shards a !! key_index k) as [m|]; [|done]. cbn. by rewrite map_lookup_filter.
Qed.

(** A filter that drops what becomes forbidden keeps the accumulator well-formed. *)
Lemma filter_wf a P `{∀ kd : trafficAccumulatorKey * TrafficDelta, Decision (P kd)} minimum deleted :
  acc_wf a →
  let a' := {| acc_shards := (λ m : pending_map, filter P m) <$> acc_shards a;
               acc_minimumRevision := minimum; acc_deletedOwners := deleted |} in
  (∀ k d, P (k, d) → ¬ forbidden a k → ¬ forbidden a' k) → acc_wf a'.
Proof.
  intros [Hl Hw] a' Hf. split; [by cbn; rewrite length_fmap|].
  intros i m k d Hm Hk. cbn in Hm. apply list_lookup_fmap_Some in Hm as (m0 & -> & Hm0).
  apply map_lookup_filter_Some in Hk as [Hk HP].
  destruct (Hw _ _ _ _ Hm0 Hk) as (? & ? & ? & ? & ?). split_and!; try done. by eapply Hf.
Qed.

Lemma ResetTunnel_spec a tunnelID minimumRevision :
  acc_wf a →
  let a' := ResetTunnel a tunnelID minimumRevision in
  acc_wf a' ∧ (∀ k, forbidden a k → forbidden a' k)
  ∧ (tunnelID ≠ ""%string → 0 < minimumRevision →
     ∀ k, tk_tunnelID k = tunnelID → tk_revision k < minimumRevision → forbidden a' k)
  ∧ ∀ k, pending a' k = if decide (tunnelID ≠ ""%string ∧ 0 < minimumRevision
                                   ∧ tk_tunnelID k = tunnelID ∧ tk_revision k < minimumRevision)
                        then None else pending a k.
Proof.
  intros Hwf. unfold ResetTunnel. destruct (_ || _) eqn:E1; reflect_guards; cbv zeta.
  { split_and!; [done|done|intros ? ?; destruct E1; [done|lia]|].
    intros k. rewrite decide_False; [done|]. intros (? & ? & _). destruct E1; [done|lia]. }
  destruct E1 as [Ht Hm]. destruct (Z.leb_spec minimumRevision (default 0 (acc_minimumRevision a !! tunnelID))) as [Hle|Hgt].
  { assert (Hf : ∀ k, tk_tunnelID k = tunnelID → tk_revision k < minimumRevision → forbidden a k).
    { intros k Hk Hr. unfold forbidden. rewrite Hk. right. split; [done|lia]. }
    split_and!; [done|done|by intros _ _; apply Hf|].
    intros k. destruct (decide _) as [(_ & _ & Hk & Hr)|]; [|done].
    destruct (pending a k) as [d|] eqn:E; [|done].
    destruct (pending_wf a k d Hwf E) as (_ & _ & Hn). by destruct (Hn (Hf k Hk Hr)). }
  assert (Hmono : ∀ k a', acc_deletedOwners a' = acc_deletedOwners a →
    acc_minimumRevision a' = <[tunnelID := minimumRevision]> (acc_minimumRevision a) →
    forbidden a' k ↔ forbidden a k ∨ (tk_tunnelID k = tunnelID ∧ tk_revision k < minimumRevision)).
  { intros k a' Hd Hmr. unfold forbidden. rewrite Hd, Hmr.
    destruct (decide (tk_tunnelID k = tunnelID)) as [->|Hne].
    - rewrite lookup_insert_eq. cbn. split; [intros [?|[_ ?]]; tauto|].
      intros [[?|[? ?]]|[_ ?]]; [by left|right..]; split; try done; lia.
    - rewrite lookup_insert_ne by done. tauto. }
  split_and!.
  - apply filter_wf; [done|]. cbn. intros k d Hk Hf. rewrite (Hmono k) by done. tauto.
  - intros k Hf. rewrite (Hmono k) by done. by left.
  - intros _ _ k ? ?. rewrite (Hmono k) by done. by right.
  - intros k. rewrite pending_filter. cbn. destruct (pending a k) as [d|]; cbn; [|by destruct (decide _)].
    destruct (decide (tunnelID ≠ ""%string ∧ _)) as [(_ & _ & Hk)|Hn].
    + by rewrite option_guard_False by tauto.
    + by rewrite option_guard_True by tauto.
Qed.

Lemma evictDeletedOwner_spec a ownerUserID :
  acc_wf a →
  let a' := evictDeletedOwner a ownerUserID in
  acc_wf a' ∧ (∀ k, forbidden a k → forbidden a' k)
  ∧ (ownerUserID ≠ ""%string → ∀ k, tk_ownerUserID k = ownerUserID → forbidden a' k)
  ∧ ∀ k, pending a' k = if decide (ownerUserID ≠ ""%string ∧ tk_ownerUserID k = ownerUserID)
                        then None else pending a k.
Proof.
  intros Hwf. unfold evictDeletedOwner. destruct (String.eqb_spec ownerUserID "") as [->|Hne]; cbv zeta.
  { split_and!; [done|done|done|]. intros k. by rewrite decide_False by naive_solver. }
  unfold forbidden. cbn. split_and!.
  - apply filter_wf; [done|]. unfold forbidden. cbn. set_solver.
  - set_solver.
  - set_solver.
  - intros k. rewrite pending_filter. cbn. destruct (pending a k) as [d|]; cbn; [|by destruct (decide _)].
    destruct (decide (ownerUserID ≠ ""%string ∧ _)) as [[_ Hk]|Hn].
    + by rewrite option_guard_False by tauto.
    + by rewrite option_guard_True by tauto.
Qed.

(** *** Draining *)

(** The bytes listed under key [k]; [f] is [td_IngressBytes] or [td_EgressBytes]. *)
Fixpoint amount (f : TrafficDelta → Z) (k : trafficAccumulatorKey) (l : list TrafficDelta) : Z :=
  match l with
  | [] => 0
  | d :: l => (if decide (delta_key d = k) then f d else 0) + amount f k l
  end.

Lemma amount_app f k l1 l2 : amount f k (l1 ++ l2) = amount f k l1 + amount f k l2.
Proof. induction l1 as [|d l1 IH]; cbn; [done|]. rewrite IH. lia. Qed.

#[export] Instance amount_perm f k : Proper ((≡ₚ) ==> eq) (amount f k).
Proof. intros l1 l2. induction 1; cbn; lia. Qed.

Lemma amount_none f k l : Forall (λ d, delta_key d ≠ k) l → amount f k l = 0.
Proof. induction 1 as [|d l Hd _ IH]; cbn; [done|]. by rewrite decide_False, IH. Qed.

Definition pending_amount (f : TrafficDelta → Z) (a : trafficAccumulator)
    (k : trafficAccumulatorKey) : Z :=
  match pending a k with Some d => f d | None => 0 end.

Lemma amount_map f k (m : pending_map) :
  (∀ k' d, m !! k' = Some d → delta_key d = k') →
  amount f k ((map_to_list m).*2) = match m !! k with Some d => f d | None => 0 end.
Proof.
  intros Hm.
  assert (Hnone : ∀ m' : pending_map, (∀ k' d, m' !! k' = Some d → delta_key d = k') → m' !! k = None →
    amount f k ((map_to_list m').*2) = 0).
  { intros m' Hm' Hk. apply amount_none, Forall_forall.
    intros d ([k' d'] & -> & Hin%elem_of_map_to_list)%list_elem_of_fmap. cbn.
    rewrite (Hm' _ _ Hin). intros ->. congruence. }
  destruct (m !! k) as [d|] eqn:E; [|by apply Hnone].
  rewrite <- (insert_delete_id m k d E), map_to_list_insert by apply lookup_delete_eq.
  cbn. rewrite decide_True by (by apply Hm). rewrite Hnone; [lia| |apply lookup_delete_eq].
  intros k' d' [_ ?]%lookup_delete_Some. by apply Hm.
Qed.

Definition map_order (order : pending_map → list (trafficAccumulatorKey * TrafficDelta)) : Prop :=
  ∀ m, order m ≡ₚ map_to_list m.

Lemma amount_shards f k order (l : list pending_map) i m :
  map_order order →
  (∀ j mj, l !! j = Some mj → ∀ k' d, mj !! k' = Some d → delta_key d = k' ∧ key_index k' = j) →
  l !! i = Some m → key_index k = i →
  amount f k (mjoin ((λ m, (order m).*2) <$> l)) = match m !! k with Some d => f d | None => 0 end.
Proof.
  intros Ho Hl Hm Hi.
  assert (Hz : ∀ l', (∀ mj, mj ∈ l' → ∀ k' d, mj !! k' = Some d → delta_key d = k' ∧ key_index k' ≠ i) →
    amount f k (mjoin ((λ m, (order m).*2) <$> l')) = 0).
  { intros l' Hl'. apply amount_none, Forall_forall.
    intros d (ds & Hd & (mj & -> & Hmj)%list_elem_of_fmap)%list_elem_of_join.
    apply list_elem_of_fmap in Hd as ([k' d'] & -> & Hin). rewrite (Ho mj) in Hin.
    apply elem_of_map_to_list in Hin. destruct (Hl' _ Hmj _ _ Hin) as [Hk1 Hk2]. cbn in *. congruence. }
  rewrite <- (take_drop_middle l i m Hm). rewrite fmap_app, join_app, fmap_cons, mjoin_cons, !amount_app.
  rewrite !Hz.
  - rewrite (Ho m). rewrite amount_map; [lia|]. intros k' d Hk. by destruct (Hl _ _ Hm _ _ Hk).
  - intros mj (j & Hj)%list_elem_of_lookup k' d Hk. rewrite lookup_drop in Hj.
    destruct (Hl _ _ Hj _ _ Hk) as [? Hk2]. split; [done|lia].
  - intros mj (j & [Hj Hlt]%lookup_take_Some)%list_elem_of_lookup k' d Hk.
    destruct (Hl _ _ Hj _ _ Hk) as [? Hk2]. split; [done|lia].
Qed.

Lemma Drain_spec order a :
  map_order order → acc_wf a →
  let '(a', deltas) := Drain order a in
  acc_wf a' ∧ (∀ k, pending a' k = None) ∧ (∀ k, forbidden a' k ↔ forbidden a k)
  ∧ (∀ f k, amount f k deltas = pending_amount f a k)
  ∧ ∀ d, d ∈ deltas → pending a (delta_key d) = Some d.
Proof.
  intros Ho [Hl Hw]. unfold Drain. split_and!.
  - split; [by cbn; rewrite length_fmap|]. intros i m k d Hm Hk. cbn in Hm.
    apply list_lookup_fmap_Some in Hm as (m0 & -> & _). by rewrite lookup_empty in Hk.
  - intros k. unfold pending. cbn. rewrite list_lookup_fmap.
    by destruct (acc_shards a !! key_index k).
  - done.
  - intros f k. rewrite merge_sort_Permutation. unfold pending_amount, pending.
    destruct (lookup_lt_is_Some_2 (acc_shards a) (key_index k)) as [m Hm]; [rewrite Hl; apply key_index_lt|].
    rewrite (amount_shards f k order _ (key_index k) m Ho); [by rewrite Hm| |done|done].
    intros j mj Hj k' d Hk. destruct (Hw _ _ _ _ Hj Hk) as (? & ? & _). done.
  - intros d. rewrite merge_sort_Permutation.
    intros (ds & Hd & (m & -> & (i & Hm)%list_elem_of_lookup)%list_elem_of_fmap)%list_elem_of_join.
    apply list_elem_of_fmap in Hd as ([k d'] & -> & Hin). rewrite (Ho m) in Hin.
    apply elem_of_map_to_list in Hin. destruct (Hw _ _ _ _ Hm Hin) as (Hi & Hk & _). cbn.
    unfold pending. by rewrite Hk, Hi, Hm.
Qed.

(** ** Runs of the recorder *)

(** One event: traffic observed (with what the lookups return at that moment), a
    flush, a tunnel reset or the deletion of an owner. *)
Inductive traffic_op :=
| TRecord (resolve : string → string → string → string * Z) (owner_of : TrafficDelta → string)
    (now : Z) (delta : TrafficDelta)
| TFlush
| TReset (tunnelID : string) (minimumRevision : Z)
| TEvict (ownerUserID : string).

Definition traffic_step (order : pending_map → list (trafficAccumulatorKey * TrafficDelta))
    (s : traffic_state) (op : traffic_op) : traffic_state :=
  match op with
  | TRecord resolve owner_of now delta => recordTrafficDeltaAt order resolve owner_of s now delta
  | TFlush => flushTrafficObservations order s
  | TReset tunnelID minimumRevision =>
      {| ts_acc := ResetTunnel (ts_acc s) tunnelID minimumRevision; ts_applied := ts_applied s |}
  | TEvict ownerUserID =>
      {| ts_acc := evictDeletedOwner (ts_acc s) ownerUserID; ts_applied := ts_applied s |}
  end.

Definition traffic_run order (s : traffic_state) (ops : list traffic_op) : traffic_state :=
  foldl (traffic_step order) s ops.

Lemma traffic_run_cons order s op ops :
  traffic_run order s (op :: ops) = traffic_run order (traffic_step order s op) ops.
Proof. done. Qed.

Definition traffic_init : traffic_state := {| ts_acc := newTrafficAccumulator; ts_applied := [] |}.

Definition traffic_op_typed (op : traffic_op) : Prop :=
  match op with TRecord _ _ _ delta => delta_typed delta | _ => True end.

(** The bytes an observation adds under key [k]: none when it is dropped (no
    bytes, no owner, a deleted owner, an outdated revision). *)
Definition recorded (f : TrafficDelta → Z) (k : trafficAccumulatorKey) (s : traffic_state)
    (op : traffic_op) : Z :=
  match op with
  | TRecord resolve owner_of now delta =>
      if (td_IngressBytes delta =? 0) && (td_EgressBytes delta =? 0) then 0 else
      let d := resolve_delta resolve owner_of delta in
      if (td_OwnerUserID d =?s "") || ignored (ts_acc s) d then 0 else
      if decide (delta_key (stamped now d) = k) then f d else 0
  | _ => 0
  end.

Fixpoint total_recorded f k order (s : traffic_state) (ops : list traffic_op) : Z :=
  match ops with
  | [] => 0
  | op :: ops => recorded f k s op + total_recorded f k order (traffic_step order s op) ops
  end.

(** The two byte counters. *)
Definition is_counter (f : TrafficDelta → Z) : Prop := f = td_IngressBytes ∨ f = td_EgressBytes.

Lemma counter_merge f e d :
  is_counter f →
  f (mergeTrafficDeltaMetadata e d (td_IngressBytes e + td_IngressBytes d)
       (td_EgressBytes e + td_EgressBytes d)) = f e + f d.
Proof. by intros [-> | ->]. Qed.

Lemma counter_stamped f now d : is_counter f → f (stamped now d) = f d.
Proof. by intros [-> | ->]. Qed.

Lemma resolve_bytes resolve owner_of d :
  td_IngressBytes (resolve_delta resolve owner_of d) = td_IngressBytes d
  ∧ td_EgressBytes (resolve_delta resolve owner_of d) = td_EgressBytes d.
Proof.
  unfold resolve_delta. destruct (_ || _).
  - destruct (resolve _ _ _) as [id rev]. by destruct (td_OwnerUserID _ =?s "").
  - by destruct (td_OwnerUserID _ =?s "").
Qed.

(** Applied and queued bytes together. *)
Definition settled f k (s : traffic_state) : Z :=
  amount f k (ts_applied s) + pending_amount f (ts_acc s) k.

Lemma flush_spec order s :
  map_order order → acc_wf (ts_acc s) →
  let s' := flushTrafficObservations order s in
  acc_wf (ts_acc s') ∧ (∀ k, pending (ts_acc s') k = None)
  ∧ (∀ k, forbidden (ts_acc s') k ↔ forbidden (ts_acc s) k)
  ∧ acc_deletedOwners (ts_acc s') = acc_deletedOwners (ts_acc s)
  ∧ acc_minimumRevision (ts_acc s') = acc_minimumRevision (ts_acc s)
  ∧ ∀ f k, settled f k s' = settled f k s.
Proof.
  intros Ho Hwf. pose proof (Drain_spec order _ Ho Hwf) as H. unfold flushTrafficObservations.
  assert (acc_deletedOwners (Drain order (ts_acc s)).1 = acc_deletedOwners (ts_acc s)) as Hd by done.
  assert (acc_minimumRevision (Drain order (ts_acc s)).1 = acc_minimumRevision (ts_acc s)) as Hm by done.
  destruct (Drain order (ts_acc s)) as [acc deltas]. destruct H as (H1 & H2 & H3 & H4 & _).
  assert (∀ f k, settled f k {| ts_acc := acc; ts_applied := ts_applied s ++ deltas |} = settled f k s).
  { intros f k. unfold settled. cbn. rewrite amount_app, H4.
    unfold pending_amount at 2. rewrite H2. lia. }
  destruct deltas as [|d ds]; cbn [ts_acc] in *; split_and!; try done.
  intros f k. rewrite <- H. by rewrite app_nil_r.
Qed.

(** Adding to an accumulator that has room. *)
Lemma AddDelta_settled f k a now d applied :
  is_counter f → acc_wf a → delta_typed d → ignored a d = false →
  (∀ e, pending a (delta_key (stamped now d)) = Some e → fits e (stamped now d)) →
  let '(a', r) := AddDelta a now d in
  r = Ok tt ∧ acc_wf a' ∧
  settled f k {| ts_acc := a'; ts_applied := applied |}
  = settled f k {| ts_acc := a; ts_applied := applied |}
    + (if decide (delta_key (stamped now d) = k) then f d else 0).
Proof.
  intros Hf Hwf Hd Hig Hfit. pose proof (AddDelta_spec a now d Hwf Hd Hig) as H. cbv zeta in H.
  destruct (AddDelta a now d) as [a' r]. unfold settled, pending_amount. cbn [ts_acc ts_applied].
  destruct (pending a (delta_key (stamped now d))) as [e|] eqn:E.
  - rewrite decide_True in H by auto. destruct H as (-> & Hwf' & Hp). split_and!; [done..|].
    rewrite Hp. destruct (decide (delta_key (stamped now d) = k)) as [<-|Hne].
    + rewrite decide_True, E by done. pose proof (counter_merge f e (stamped now d) Hf) as Hm.
      rewrite (counter_stamped f) in Hm by done. cbn in Hm |- *. rewrite Hm. lia.
    + rewrite decide_False by congruence. lia.
  - destruct H as (-> & Hwf' & Hp). split_and!; [done..|].
    rewrite Hp. destruct (decide (delta_key (stamped now d) = k)) as [<-|Hne].
    + rewrite decide_True, E, (counter_stamped f) by done. lia.
    + rewrite decide_False by congruence. lia.
Qed.

Lemma AddDelta_full a now d e :
  acc_wf a → delta_typed d → ignored a d = false →
  pending a (delta_key (stamped now d)) = Some e → ¬ fits e (stamped now d) →
  ∃ err, AddDelta a now d = (a, Err err).
Proof.
  intros Hwf Hd Hig He Hn. pose proof (AddDelta_spec a now d Hwf Hd Hig) as H. cbv zeta in H.
  destruct (AddDelta a now d) as [a' r]. rewrite He, decide_False in H by done.
  destruct H as ([err ->] & ->). by exists err.
Qed.

Lemma ignored_same a a' d :
  acc_deletedOwners a' = acc_deletedOwners a → acc_minimumRevision a' = acc_minimumRevision a →
  ignored a' d = ignored a d.
Proof. unfold ignored. by intros -> ->. Qed.

Lemma AddDelta_owners a now d :
  acc_deletedOwners (AddDelta a now d).1 = acc_deletedOwners a
  ∧ acc_minimumRevision (AddDelta a now d).1 = acc_minimumRevision a.
Proof.
  unfold AddDelta. destruct (ignored a d); [done|].
  destruct (acc_shards a !! _) as [m|]; [|done]. by destruct (add_pending _ _ _).
Qed.

(** One recorded observation ends up queued or applied, exactly once, whether or
    not the queue had to be flushed because a counter would overflow. *)
Lemma record_spec order resolve owner_of s now delta :
  map_order order → acc_wf (ts_acc s) → delta_typed delta →
  let s' := recordTrafficDeltaAt order resolve owner_of s now delta in
  acc_wf (ts_acc s') ∧ acc_deletedOwners (ts_acc s') = acc_deletedOwners (ts_acc s)
  ∧ acc_minimumRevision (ts_acc s') = acc_minimumRevision (ts_acc s)
  ∧ ∀ f k, is_counter f →
      settled f k s' = settled f k s + recorded f k s (TRecord resolve owner_of now delta).
Proof.
  intros Ho Hwf Hty. unfold recordTrafficDeltaAt, recorded.
  destruct (_ && _); [split_and!; try done; intros; lia|].
  set (d := resolve_delta resolve owner_of delta).
  assert (Hd : delta_typed d).
  { unfold d, delta_typed. destruct (resolve_bytes resolve owner_of delta) as [-> ->]. done. }
  destruct (td_OwnerUserID d =?s ""); [split_and!; try done; intros; cbn; lia|]. cbn [orb].
  destruct (AddDelta_owners (ts_acc s) now d) as [HO HM].
  destruct (ignored (ts_acc s) d) eqn:Hig.
  { unfold AddDelta. rewrite Hig. cbn. split_and!; try done. intros. destruct s. cbn. lia. }
  set (k0 := delta_key (stamped now d)).
  assert ((∃ e, pending (ts_acc s) k0 = Some e ∧ ¬ fits e (stamped now d))
          ∨ ∀ e, pending (ts_acc s) k0 = Some e → fits e (stamped now d))
    as [(e & He & Hn)|Hfit'].
  { destruct (pending (ts_acc s) k0) as [e|]; [|by right].
    destruct (decide (fits e (stamped now d))); [right|left; by exists e]. by intros e' [= <-]. }
  - destruct (AddDelta_full _ now d e Hwf Hd Hig He Hn) as [err ->].
    destruct s as [acc applied]. cbn [ts_acc ts_applied] in *.
    set (s0 := {| ts_acc := acc; ts_applied := applied |}).
    destruct (flush_spec order s0 Ho Hwf) as (Hwf1 & Hp1 & _ & HO1 & HM1 & Hs1).
    set (s1 := flushTrafficObservations order s0) in *. change (ts_acc s0) with acc in *.
    assert (Hig1 : ignored (ts_acc s1) d = false) by (by rewrite (ignored_same acc)).
    destruct (AddDelta_owners (ts_acc s1) now d) as [HO2 HM2].
    assert (H2 : ∀ f k, is_counter f → _) by (intros f k Hf;
      apply (AddDelta_settled f k (ts_acc s1) now d (ts_applied s1) Hf Hwf1 Hd Hig1);
      intros e'; by rewrite Hp1).
    destruct (AddDelta (ts_acc s1) now d) as [a' r]. cbn [fst] in *.
    destruct (H2 td_IngressBytes k0 (or_introl eq_refl)) as (-> & Hwf2 & _). cbn [ts_acc].
    split_and!; [done|congruence|congruence|]. intros f k Hf.
    destruct (H2 f k Hf) as (_ & _ & ->). rewrite <- (Hs1 f k). by destruct s1.
  - assert (H2 : ∀ f k, is_counter f → _) by (intros f k Hf;
      exact (AddDelta_settled f k (ts_acc s) now d (ts_applied s) Hf Hwf Hd Hig Hfit')).
    destruct (AddDelta (ts_acc s) now d) as [a' r]. cbn [fst] in *.
    destruct (H2 td_IngressBytes k0 (or_introl eq_refl)) as (-> & Hwf2 & _). cbn [ts_acc].
    split_and!; [done|done|done|]. intros f k Hf. destruct (H2 f k Hf) as (_ & _ & ->). by destruct s.
Qed.

Lemma traffic_step_spec order s op :
  map_order order → acc_wf (ts_acc s) → traffic_op_typed op →
  let s' := traffic_step order s op in
  acc_wf (ts_acc s') ∧ (∀ k, forbidden (ts_acc s) k → forbidden (ts_acc s') k)
  ∧ ∀ f k, is_counter f → ¬ forbidden (ts_acc s') k →
      settled f k s' = settled f k s + recorded f k s op.
Proof.
  intros Ho Hwf Hty. destruct op as [resolve owner_of now delta| |tunnelID minimumRevision|owner];
    cbn [traffic_step traffic_op_typed] in *.
  - destruct (record_spec order resolve owner_of s now delta Ho Hwf Hty) as (H1 & H2 & H3 & H4).
    split_and!; [done| |by intros; apply H4]. unfold forbidden. by rewrite H2, H3.
  - destruct (flush_spec order s Ho Hwf) as (H1 & _ & H3 & _ & _ & H4).
    split_and!; [done|intros k; by rewrite H3|]. intros f k _ _. rewrite H4. cbn. lia.
  - destruct (ResetTunnel_spec (ts_acc s) tunnelID minimumRevision Hwf) as (H1 & H2 & H3 & H4).
    split_and!; [done|done|]. intros f k _ Hn. unfold settled, pending_amount. cbn [ts_acc ts_applied recorded].
    rewrite H4, decide_False; [lia|]. intros (Ht & Hm & Hk & Hr). apply Hn. cbn. by apply H3.
  - destruct (evictDeletedOwner_spec (ts_acc s) owner Hwf) as (H1 & H2 & H3 & H4).
    split_and!; [done|done|]. intros f k _ Hn. unfold settled, pending_amount. cbn [ts_acc ts_applied recorded].
    rewrite H4, decide_False; [lia|]. intros (Ht & Hk). apply Hn. cbn. by apply H3.
Qed.

Lemma traffic_run_wf order ops s :
  map_order order → acc_wf (ts_acc s) → Forall traffic_op_typed ops →
  acc_wf (ts_acc (traffic_run order s ops))
  ∧ ∀ k, forbidden (ts_acc s) k → forbidden (ts_acc (traffic_run order s ops)) k.
Proof.
  intros Ho. revert s. induction ops as [|op ops IH]; intros s Hwf Hty; [done|].
  apply Forall_cons in Hty as [H1 H2]. cbn.
  destruct (traffic_step_spec order s op Ho Hwf H1) as (Hwf' & Hf & _).
  destruct (IH _ Hwf' H2) as [? ?]. auto.
Qed.

Lemma recorded_forbidden f k s op : forbidden (ts_acc s) k → recorded f k s op = 0.
Proof.
  intros Hf. destruct op as [resolve owner_of now delta| | |]; try done. cbn.
  destruct (_ && _); [done|].
  set (d := resolve_delta resolve owner_of delta).
  destruct (_ || _) eqn:E; [done|]. destruct (decide _) as [<-|]; [|done].
  apply orb_false_iff in E as [_ E]. by destruct (ignored_false _ now d E).
Qed.

Lemma pending_forbidden a k : acc_wf a → forbidden a k → pending a k = None.
Proof.
  intros Hwf Hf. destruct (pending a k) as [d|] eqn:E; [|done].
  by destruct (pending_wf a k d Hwf E) as (_ & _ & Hn).
Qed.

Lemma forbidden_step order s op k f :
  map_order order → acc_wf (ts_acc s) → traffic_op_typed op → is_counter f →
  forbidden (ts_acc s) k →
  amount f k (ts_applied (traffic_step order s op)) = amount f k (ts_applied s).
Proof.
  intros Ho Hwf Hty Hc Hf.
  destruct (traffic_step_spec order s op Ho Hwf Hty) as (Hwf' & Hmono & _).
  assert (Hset : ∀ s0, acc_wf (ts_acc s0) → forbidden (ts_acc s0) k → settled f k s0 = amount f k (ts_applied s0)).
  { intros s0 H1 H2. unfold settled, pending_amount. rewrite (pending_forbidden _ _ H1 H2). lia. }
  rewrite <- (Hset s), <- (Hset (traffic_step order s op)) by auto.
  destruct op as [resolve owner_of now delta| | |]; cbn [traffic_step] in *.
  - destruct (record_spec order resolve owner_of s now delta Ho Hwf Hty) as (_ & _ & _ & H4).
    rewrite H4 by done. rewrite recorded_forbidden by done. lia.
  - destruct (flush_spec order s Ho Hwf) as (_ & _ & _ & _ & _ & H4). apply H4.
  - rewrite !Hset by auto. done.
  - rewrite !Hset by auto. done.
Qed.

Lemma forbidden_run order ops s k :
  map_order order → acc_wf (ts_acc s) → Forall traffic_op_typed ops → forbidden (ts_acc s) k →
  pending (ts_acc (traffic_run order s ops)) k = None
  ∧ ∀ f, is_counter f →
      amount f k (ts_applied (traffic_run order s ops)) = amount f k (ts_applied s).
Proof.
  intros Ho Hwf Hty Hf. split.
  - destruct (traffic_run_wf order ops s Ho Hwf Hty). apply pending_forbidden; auto.
  - intros f Hc. revert s Hwf Hf. induction ops as [|op ops IH]; intros s Hwf Hf; [done|].
    apply Forall_cons in Hty as [H1 H2]. rewrite traffic_run_cons.
    destruct (traffic_step_spec order s op Ho Hwf H1) as (Hwf' & Hmono & _).
    rewrite IH by auto. by apply forbidden_step.
Qed.

Lemma conserved_run order f k ops s :
  map_order order → acc_wf (ts_acc s) → Forall traffic_op_typed ops → is_counter f →
  ¬ forbidden (ts_acc (traffic_run order s ops)) k →
  settled f k (traffic_run order s ops) = settled f k s + total_recorded f k order s ops.
Proof.
  intros Ho Hwf Hty Hc Hn. revert s Hwf Hn. induction ops as [|op ops IH]; intros s Hwf Hn; [cbn; lia|].
  apply Forall_cons in Hty as [H1 H2]. cbn [total_recorded]. rewrite traffic_run_cons in *.
  destruct (traffic_step_spec order s op Ho Hwf H1) as (Hwf' & _ & Hs).
  rewrite (IH H2 _ Hwf' Hn), Hs; [lia|done|]. intros Hf. apply Hn.
  by apply (traffic_run_wf order ops _ Ho Hwf' H2).
Qed.

Lemma NoDup_amount l : (∀ k, amount (λ _, 1) k l ≤ 1) → NoDup (delta_key <$> l).
Proof.
  induction l as [|d l IH]; intros H; cbn; [constructor|].
  assert (Hpos : ∀ k l, 0 ≤ amount (λ _, 1) k l) by (intros k l'; induction l'; cbn; [lia|case_decide; lia]).
  constructor.
  - intros (d' & Hk & Hin)%list_elem_of_fmap. specialize (H (delta_key d)). cbn in H.
    rewrite decide_True in H by done.
    apply list_elem_of_split in Hin as (l1 & l2 & ->). rewrite amount_app in H. cbn in H.
    rewrite decide_True in H by done. pose proof (Hpos (delta_key d) l1).
    pose proof (Hpos (delta_key d) l2). lia.
  - apply IH. intros k. specialize (H k). cbn in H. case_decide; lia.
Qed.

(** ** Properties *)

Module Sample.
Definition resolve (clientID tunnelName tunnelType : string) : string * Z := ("t1"%string, 3).
Definition owner_of (d : TrafficDelta) : string := "u1".
Definition delta (ingress egress : Z) : TrafficDelta :=
  {| td_TunnelID := ""; td_Revision := 0; td_ClientID := "c1"; td_OwnerUserID := "";
     td_OwnerClientID := ""; td_IngressClientID := ""; td_TargetClientID := "";
     td_Topology := ""; td_Transport := ActualTransportServerRelay; td_TunnelName := "web";
     td_TunnelType := "tcp"; td_SecondStart := 0; td_MinuteStart := 0;
     td_IngressBytes := ingress; td_EgressBytes := egress |}.
Definition now : Z := (unix_epoch + 61) * second.
Definition key : trafficAccumulatorKey :=
  Key "t1" 3 "c1" "u1" "web" "tcp" ActualTransportServerRelay 61 60.
(** The second observation overflows the queued counter. *)
Definition ops : list traffic_op :=
  [TRecord resolve owner_of now (delta (u64_max - 1) 5); TRecord resolve owner_of now (delta 7 6)].
Definition order : pending_map → list (trafficAccumulatorKey * TrafficDelta) := map_to_list.
End Sample.

Lemma sample_ops_typed : Forall traffic_op_typed Sample.ops.
Proof. repeat constructor; vm_compute; discriminate. Qed.

(** C29 No traffic is lost or counted twice: over any run of observations, flushes,
    tunnel resets and owner deletions, for every key that was not discarded, the
    bytes observed equal the bytes handed to storage plus the bytes still queued.
    Counter overflow only moves the queued bytes to storage earlier. *)
Theorem traffic_conserved order f k ops :
  map_order order → Forall traffic_op_typed ops → is_counter f →
  let s := traffic_run order traffic_init ops in
  ¬ forbidden (ts_acc s) k →
  total_recorded f k order traffic_init ops
  = amount f k (ts_applied s) + pending_amount f (ts_acc s) k.
Proof.
  intros Ho Hty Hc s Hn. pose proof (conserved_run order f k ops traffic_init Ho new_wf Hty Hc Hn) as H.
  fold s in H. unfold settled, pending_amount in H. cbn [traffic_init ts_acc ts_applied] in H.
  rewrite pending_new in H. cbn [amount] in H. unfold pending_amount. lia.
Qed.

Lemma traffic_conserved_witness :
  total_recorded td_IngressBytes Sample.key Sample.order traffic_init Sample.ops = u64_max + 6
  ∧ total_recorded td_IngressBytes Sample.key Sample.order traffic_init Sample.ops
    = amount td_IngressBytes Sample.key
        (ts_applied (traffic_run Sample.order traffic_init Sample.ops))
      + pending_amount td_IngressBytes
          (ts_acc (traffic_run Sample.order traffic_init Sample.ops)) Sample.key.
Proof.
  split; [vm_compute; reflexivity|].
  apply (traffic_conserved Sample.order td_IngressBytes Sample.key Sample.ops).
  - intros m. reflexivity.
  - exact sample_ops_typed.
  - left. reflexivity.
  - vm_compute. intros [H|[_ H]]; [set_solver|discriminate].
Defined.

(** Discarding is for good: once an owner is deleted, or a tunnel reset to a
    minimum revision, no byte of that owner, or of an older revision of that
    tunnel, is ever queued or handed to storage again, whatever arrives late. *)
Theorem discarded_for_good order s op k ops :
  map_order order → acc_wf (ts_acc s) → Forall traffic_op_typed ops →
  (op = TEvict (tk_ownerUserID k) ∧ tk_ownerUserID k ≠ ""%string
   ∨ ∃ minimumRevision, op = TReset (tk_tunnelID k) minimumRevision ∧ tk_tunnelID k ≠ ""%string
       ∧ 0 < minimumRevision ∧ tk_revision k < minimumRevision) →
  let s' := traffic_run order (traffic_step order s op) ops in
  pending (ts_acc s') k = None
  ∧ ∀ f, is_counter f → amount f k (ts_applied s') = amount f k (ts_applied s).
Proof.
  intros Ho Hwf Hty Hop. cbv zeta.
  assert (H : acc_wf (ts_acc (traffic_step order s op)) ∧ forbidden (ts_acc (traffic_step order s op)) k
              ∧ ts_applied (traffic_step order s op) = ts_applied s).
  { destruct Hop as [(-> & Hne)|(minRev & -> & Hne & Hm & Hr)]; cbn [traffic_step ts_acc ts_applied].
    - destruct (evictDeletedOwner_spec (ts_acc s) (tk_ownerUserID k) Hwf) as (? & _ & H & _). auto.
    - destruct (ResetTunnel_spec (ts_acc s) (tk_tunnelID k) minRev Hwf) as (? & _ & H & _). auto. }
  destruct H as (Hwf' & Hf & Happ).
  destruct (forbidden_run order ops _ k Ho Hwf' Hty Hf) as [H1 H2]. split; [done|].
  intros f Hc. by rewrite H2, Happ.
Qed.

Lemma discarded_for_good_witness :
  let s' := traffic_run Sample.order (traffic_step Sample.order
    (traffic_run Sample.order traffic_init Sample.ops) (TEvict "u1")) Sample.ops in
  pending (ts_acc s') Sample.key = None.
Proof.
  apply (discarded_for_good Sample.order (traffic_run Sample.order traffic_init Sample.ops)
           (TEvict "u1") Sample.key Sample.ops).
  - intros m. reflexivity.
  - apply traffic_run_wf; [intros m; reflexivity|exact new_wf|exact sample_ops_typed].
  - exact sample_ops_typed.
  - left. split; [reflexivity|discriminate].
Defined.

(** [AddDelta] on an observation it does not ignore: a key not yet queued is
    queued with the bytes; a queued key gets the sums when both fit 64 bits;
    otherwise the call fails and changes nothing. No other key is touched. *)
Theorem AddDelta_merges a now d :
  acc_wf a → delta_typed d → ignored a d = false →
  let d' := stamped now d in
  let k := delta_key d' in
  let '(a', r) := AddDelta a now d in
  match pending a k with
  | Some e =>
      if decide (fits e d')
      then r = Ok tt ∧ acc_wf a' ∧ ∀ k', pending a' k' =
             if decide (k' = k)
             then Some (mergeTrafficDeltaMetadata e d' (td_IngressBytes e + td_IngressBytes d)
                          (td_EgressBytes e + td_EgressBytes d))
             else pending a k'
      else (∃ err, r = Err err) ∧ a' = a
  | None => r = Ok tt ∧ acc_wf a'
            ∧ ∀ k', pending a' k' = if decide (k' = k) then Some d' else pending a k'
  end.
Proof. apply AddDelta_spec. Qed.

Definition sample_delta : TrafficDelta := resolve_delta Sample.resolve Sample.owner_of (Sample.delta 7 6).

Lemma AddDelta_merges_witness :
  pending (AddDelta newTrafficAccumulator Sample.now sample_delta).1 Sample.key
  = Some (stamped Sample.now sample_delta).
Proof.
  pose proof (AddDelta_merges newTrafficAccumulator Sample.now sample_delta) as H.
  destruct H as (_ & _ & H).
  - exact new_wf.
  - split; vm_compute; split; discriminate || reflexivity.
  - reflexivity.
  - exact (H Sample.key).
Defined.

(** [Drain] hands out every queued delta exactly once and leaves nothing
    queued, for any iteration order of the shard maps: the sharding by hash never
    splits or hides a key. *)
Theorem drain_complete order a :
  map_order order → acc_wf a →
  let '(a', deltas) := Drain order a in
  (∀ d, d ∈ deltas ↔ pending a (delta_key d) = Some d)
  ∧ NoDup (delta_key <$> deltas) ∧ (∀ k, pending a' k = None) ∧ acc_wf a'.
Proof.
  intros Ho Hwf. pose proof (Drain_spec order a Ho Hwf) as H.
  destruct (Drain order a) as [a' deltas] eqn:E. destruct H as (H1 & H2 & _ & H4 & H5).
  split_and!; [|apply NoDup_amount|done|done].
  - intros d. split; [apply H5|]. intros Hp.
    destruct (decide (d ∈ deltas)) as [|Hn]; [done|exfalso].
    pose proof (H4 (λ _, 1) (delta_key d)) as Ha. unfold pending_amount in Ha. rewrite Hp in Ha.
    rewrite amount_none in Ha; [done|]. apply Forall_forall. intros d0 Hd0 Hk.
    pose proof (H5 d0 Hd0) as Hp0. rewrite Hk, Hp in Hp0. by injection Hp0 as ->.
  - intros k. rewrite H4. unfold pending_amount. by destruct (pending a k).
Qed.

Lemma drain_complete_witness :
  let a := ts_acc (traffic_run Sample.order traffic_init Sample.ops) in
  NoDup (delta_key <$> (Drain Sample.order a).2) ∧ length (Drain Sample.order a).2 = 1%nat.
Proof.
  split; [|vm_compute; reflexivity].
  pose proof (drain_complete Sample.order (ts_acc (traffic_run Sample.order traffic_init Sample.ops))) as H.
  destruct (Drain Sample.order _) as [a' deltas]. apply H.
  - intros m. reflexivity.
  - apply traffic_run_wf; [intros m; reflexivity|exact new_wf|exact sample_ops_typed].
Defined.
