(* ===== verification/GoIO.v ===== *)
(** Go's [io] package as the program uses it: bytes and their big endian
    integers, the interfaces [io.Reader] and [io.Writer] as type classes,
    [io.ReadFull], and the contracts the theorems on framed streams are
    proved against.

    A reader's contract is the predicate [delivers e r bs]: whatever sizes it
    is asked for, [r] hands out the bytes [bs] in order, in segments of its
    own choosing, and then fails with [e].  Nothing is assumed about where
    the segments end, so a theorem with this hypothesis holds for every way
    the network cuts the stream. *)
From Stdlib Require Import ZArith Lia Ascii String Strings.Byte.
From stdpp Require Import base tactics numbers list gmap strings.
From S2P Require Import Prelude GoStrings.

(** ** Bytes *)

Abbreviation bytes := (list byte).

#[export] Instance byte_eq_decision : EqDecision byte := Byte.byte_eq_dec.

Definition byte_of_Z (z : Z) : byte :=
  match Byte.of_N (Z.to_N (z mod 256)) with Some b => b | None => x00 end.
Definition Z_of_byte (b : byte) : Z := Z.of_N (Byte.to_N b).
Definition blen (bs : bytes) : Z := Z.of_nat (length bs).

(** [int(bs[i])] *)
Definition byte_at (bs : bytes) (i : nat) : Z :=
  match bs !! i with Some b => Z_of_byte b | None => 0 end.

(** [[]byte(s)] and [string(bs)] *)
Definition to_bytes (s : string) : bytes := String.list_byte_of_string s.
Definition of_bytes (bs : bytes) : string := String.string_of_list_byte bs.

(** [binary.BigEndian.PutUint16(buf, uint16(n))] and its inverse. *)
Definition put_uint16 (n : Z) : bytes := [byte_of_Z (n / 256); byte_of_Z n].
Definition uint16_of (bs : bytes) : Z :=
  match bs with
  | a :: b :: _ => Z_of_byte a * 256 + Z_of_byte b
  | _ => 0
  end.

(** [binary.BigEndian.PutUint32(buf, uint32(n))] and its inverse. *)
Definition put_uint32 (n : Z) : bytes :=
  [byte_of_Z (n / 16777216); byte_of_Z (n / 65536); byte_of_Z (n / 256); byte_of_Z n].
Definition uint32_of (bs : bytes) : Z :=
  match bs with
  | a :: b :: c :: d :: _ =>
      ((Z_of_byte a * 256 + Z_of_byte b) * 256 + Z_of_byte c) * 256 + Z_of_byte d
  | _ => 0
  end.

(** The slice [l[a:b]]. *)
Definition slice (a b : Z) (l : bytes) : bytes :=
  take (Z.to_nat (b - a)) (drop (Z.to_nat a) l).

Lemma Z_of_byte_range b : 0 ≤ Z_of_byte b < 256.
Proof. unfold Z_of_byte. pose proof (Byte.to_N_bounded b). lia. Qed.

Lemma Z_of_byte_of_Z z : Z_of_byte (byte_of_Z z) = z mod 256.
Proof.
  unfold Z_of_byte, byte_of_Z. pose proof (Z.mod_pos_bound z 256 ltac:(lia)).
  destruct (Byte.of_N (Z.to_N (z mod 256))) as [b|] eqn:E.
  - apply Byte.to_of_N in E. lia.
  - apply Byte.of_N_None_iff in E. lia.
Qed.

Lemma byte_of_Z_of_byte b : byte_of_Z (Z_of_byte b) = b.
Proof.
  unfold byte_of_Z. rewrite Z.mod_small by apply Z_of_byte_range.
  unfold Z_of_byte. rewrite N2Z.id, Byte.of_to_N. done.
Qed.

Lemma uint16_put n rest : uint16_of (put_uint16 n ++ rest) = n mod 65536.
Proof.
  cbn [put_uint16 app uint16_of]. rewrite !Z_of_byte_of_Z.
  change 65536 with (256 * 256). rewrite Z.rem_mul_r by lia. lia.
Qed.

Lemma byte_of_Z_mod z k : byte_of_Z (z + k * 256) = byte_of_Z z.
Proof. unfold byte_of_Z. by rewrite Z_mod_plus_full. Qed.

Lemma put_uint16_of a b : put_uint16 (uint16_of [a; b]) = [a; b].
Proof.
  unfold put_uint16, uint16_of. pose proof (Z_of_byte_range a). pose proof (Z_of_byte_range b).
  rewrite Z.add_comm, byte_of_Z_mod, byte_of_Z_of_byte, Z.div_add by lia.
  rewrite Z.div_small, Z.add_0_l by lia. by rewrite byte_of_Z_of_byte.
Qed.

Lemma uint32_put n rest : uint32_of (put_uint32 n ++ rest) = n mod 4294967296.
Proof.
  cbn [put_uint32 app uint32_of]. rewrite !Z_of_byte_of_Z.
  change 4294967296 with (256 * (256 * (256 * 256))). rewrite !Z.rem_mul_r by lia.
  change 16777216 with (256 * 256 * 256). change 65536 with (256 * 256).
  rewrite <- !Z.div_div by lia. lia.
Qed.

Lemma put_uint32_of a b c d : put_uint32 (uint32_of [a; b; c; d]) = [a; b; c; d].
Proof.
  unfold put_uint32, uint32_of. pose proof (Z_of_byte_range a). pose proof (Z_of_byte_range b).
  pose proof (Z_of_byte_range c). pose proof (Z_of_byte_range d).
  change 16777216 with (256 * (256 * 256)). change 65536 with (256 * 256).
  rewrite <- !Z.div_div by lia.
  assert (Hs : ∀ x y, 0 ≤ y < 256 → (x * 256 + y) / 256 = x)
    by (intros x y Hy; rewrite Z.div_add_l, Z.div_small by lia; lia).
  assert (Hb : ∀ x y, byte_of_Z (x * 256 + Z_of_byte y) = y)
    by (intros x y; by rewrite Z.add_comm, byte_of_Z_mod, byte_of_Z_of_byte).
  rewrite !Hs by lia. by rewrite !Hb, byte_of_Z_of_byte.
Qed.

Lemma uint32_range bs : 0 ≤ uint32_of bs < 4294967296.
Proof.
  unfold uint32_of. destruct bs as [|a [|b [|c [|d bs]]]]; [lia..|].
  pose proof (Z_of_byte_range a). pose proof (Z_of_byte_range b).
  pose proof (Z_of_byte_range c). pose proof (Z_of_byte_range d). lia.
Qed.

Lemma uint16_range bs : 0 ≤ uint16_of bs < 65536.
Proof.
  unfold uint16_of. destruct bs as [|a [|b bs]]; [lia..|].
  pose proof (Z_of_byte_range a). pose proof (Z_of_byte_range b). lia.
Qed.

Lemma to_of_bytes bs : to_bytes (of_bytes bs) = bs.
Proof. apply String.list_byte_of_string_of_list_byte. Qed.

Lemma of_to_bytes s : of_bytes (to_bytes s) = s.
Proof. apply String.string_of_list_byte_of_string. Qed.

Lemma blen_to_bytes s : blen (to_bytes s) = strlen s.
Proof.
  unfold blen, strlen, to_bytes, String.list_byte_of_string. rewrite List.length_map.
  f_equal. induction s as [|c s IH]; cbn; congruence.
Qed.

Lemma slice_app_l a b l k : 0 ≤ a → b ≤ blen l → slice a b (l ++ k) = slice a b l.
Proof.
  unfold slice, blen. intros Ha Hb. destruct (decide (b ≤ a)).
  { by replace (Z.to_nat (b - a)) with 0%nat by lia. }
  rewrite drop_app_le, take_app_le; [done|rewrite ?length_drop; lia..].
Qed.

Lemma slice_app_r a b l k :
  blen l ≤ a → slice a b (l ++ k) = slice (a - blen l) (b - blen l) k.
Proof.
  unfold slice, blen. intros Ha. rewrite drop_app_ge by lia.
  f_equal; [lia|f_equal; lia].
Qed.

Lemma slice_all l : slice 0 (blen l) l = l.
Proof. unfold slice, blen. rewrite drop_0, take_ge; [done|lia]. Qed.

Lemma blen_app l k : blen (l ++ k) = blen l + blen k.
Proof. unfold blen. rewrite length_app. lia. Qed.

Lemma blen_nonneg l : 0 ≤ blen l.
Proof. unfold blen. lia. Qed.

(** ** Sentinel errors *)

Definition io_EOF : goerror := Sentinel "EOF".
Definition io_ErrUnexpectedEOF : goerror := Sentinel "unexpected EOF".
Definition io_ErrNoProgress : goerror := Sentinel "multiple Read calls return no data or error".
Definition io_ErrShortWrite : goerror := Sentinel "short write".

(** ** [io.Reader] *)

(** [Read r n]: the bytes put into a buffer of [n] bytes, the error, and the
    reader afterwards. *)
Class Reader (R : Type) := Read : R → nat → bytes * option goerror * R.

(** The contract of a stream reader, see the head of the file. *)
Inductive delivers {R} `{Reader R} (e : goerror) : R → bytes → Prop :=
| delivers_data r bs :
    bs ≠ [] →
    (∀ n, (0 < n)%nat →
       (Read r n).1.2 = None ∧ (Read r n).1.1 ≠ [] ∧ (length (Read r n).1.1 ≤ n)%nat ∧
       (Read r n).1.1 `prefix_of` bs) →
    (∀ n, (0 < n)%nat → delivers e (Read r n).2 (drop (length (Read r n).1.1) bs)) →
    delivers e r bs
| delivers_end r :
    (∀ n, (0 < n)%nat → (Read r n).1 = ([], Some e)) →
    delivers e r [].

Section ReadFull.
Context {R : Type} `{Reader R}.

(** The loop of [io.ReadAtLeast(r, buf, min)] with [len(buf) = min]; [None]
    when it has not ended after [fuel] calls of [Read]. *)
Fixpoint read_at_least (fuel n : nat) (acc : bytes) (r : R)
  : option (bytes * option goerror * R) :=
  if (n <=? length acc)%nat then Some (acc, None, r) else
  match fuel with
  | O => None
  | S fuel' =>
      match Read r (n - length acc) with
      | (d, None, r') => read_at_least fuel' n (acc ++ d) r'
      | (d, Some e, r') => Some (acc ++ d, Some e, r')
      end
  end.

(** [io.ReadFull(r, buf)] with [len(buf) = n]. *)
Definition ReadFull (fuel n : nat) (r : R) : option (result bytes * R) :=
  '(bs, err, r') ← read_at_least fuel n [] r;
  Some (if (n <=? length bs)%nat then Ok bs else
        match err with
        | Some e => if (0 <? length bs)%nat && bool_decide (e = io_EOF)
                    then Err io_ErrUnexpectedEOF else Err e
        | None => Ok bs
        end, r').

Lemma read_at_least_enough fuel n acc r bs e :
  delivers e r bs → (length acc ≤ n)%nat → (n ≤ length acc + length bs)%nat →
  (n - length acc ≤ fuel)%nat →
  ∃ r', read_at_least fuel n acc r = Some (acc ++ take (n - length acc) bs, None, r') ∧
        delivers e r' (drop (n - length acc) bs).
Proof.
  revert acc r bs. induction fuel as [|fuel IH]; intros acc r bs Hd Hle Hn Hf; cbn [read_at_least].
  - destruct (Nat.leb_spec n (length acc)); [|lia]. exists r.
    replace (n - length acc)%nat with 0%nat by lia. by rewrite take_0, drop_0, app_nil_r.
  - destruct (Nat.leb_spec n (length acc)).
    + exists r. replace (n - length acc)%nat with 0%nat by lia.
      by rewrite take_0, drop_0, app_nil_r.
    + destruct Hd as [r bs Hne Hread Hrest | r Hend]; [|cbn in Hn; lia].
      specialize (Hread (n - length acc)%nat ltac:(lia)).
      specialize (Hrest (n - length acc)%nat ltac:(lia)).
      destruct (Read r (n - length acc)) as [[d err] r']. cbn in Hread, Hrest.
      destruct Hread as (-> & Hd0 & Hlen & [rest ->]).
      assert (0 < length d)%nat by (destruct d; [done|cbn; lia]).
      rewrite drop_app_length in Hrest.
      destruct (IH (acc ++ d) r' rest Hrest) as (r'' & -> & Hd');
        [rewrite ?length_app in *; lia..|].
      exists r''. rewrite length_app in *.
      replace (n - length acc)%nat with (length d + (n - (length acc + length d)))%nat by lia.
      rewrite take_app_add, drop_app_add. by rewrite app_assoc.
Qed.

Lemma read_at_least_short fuel n acc r bs e :
  delivers e r bs → (length acc + length bs < n)%nat → (length bs < fuel)%nat →
  ∃ r', read_at_least fuel n acc r = Some (acc ++ bs, Some e, r').
Proof.
  revert acc r bs. induction fuel as [|fuel IH]; intros acc r bs Hd Hn Hf; [lia|].
  cbn [read_at_least]. destruct (Nat.leb_spec n (length acc)); [lia|].
  destruct Hd as [r bs Hne Hread Hrest | r Hend].
  - specialize (Hread (n - length acc)%nat ltac:(lia)).
    specialize (Hrest (n - length acc)%nat ltac:(lia)).
    destruct (Read r (n - length acc)) as [[d err] r']. cbn in Hread, Hrest.
    destruct Hread as (-> & Hd0 & Hlen & [rest ->]).
    assert (0 < length d)%nat by (destruct d; [done|cbn; lia]).
    rewrite drop_app_length in Hrest. rewrite length_app in *.
    destruct (IH (acc ++ d) r' rest Hrest) as (r'' & ->); [rewrite ?length_app; lia..|].
    exists r''. by rewrite app_assoc.
  - specialize (Hend (n - length acc)%nat ltac:(lia)).
    destruct (Read r (n - length acc)) as [[d err] r']. cbn in Hend. simplify_eq.
    by eexists.
Qed.

(** A stream that still holds [n] bytes: [ReadFull] returns exactly them. *)
Lemma ReadFull_ok fuel n r bs e :
  delivers e r bs → (n ≤ length bs)%nat → (n ≤ fuel)%nat →
  ∃ r', ReadFull fuel n r = Some (Ok (take n bs), r') ∧ delivers e r' (drop n bs).
Proof.
  intros Hd Hn Hf.
  destruct (read_at_least_enough fuel n [] r bs e Hd) as (r' & E & Hd'); [cbn; lia..|].
  cbn in E, Hd'. rewrite Nat.sub_0_r in E, Hd'. exists r'. split; [|done].
  unfold ReadFull. rewrite E. cbn. rewrite length_take.
  destruct (Nat.leb_spec n (n `min` length bs)); [done|lia].
Qed.

Lemma ReadFull_app fuel n r bs rest e :
  delivers e r (bs ++ rest) → length bs = n → (n ≤ fuel)%nat →
  ∃ r', ReadFull fuel n r = Some (Ok bs, r') ∧ delivers e r' rest.
Proof.
  intros Hd <- Hf. destruct (ReadFull_ok fuel (length bs) r (bs ++ rest) e Hd) as (r' & E & Hd').
  { rewrite length_app. lia. } { done. }
  rewrite take_app_length in E. rewrite drop_app_length in Hd'. by exists r'.
Qed.

(** The error of a stream that ends after [bs], too early. *)
Definition early_end (e : goerror) (bs : bytes) : goerror :=
  if (0 <? length bs)%nat && bool_decide (e = io_EOF) then io_ErrUnexpectedEOF else e.

Lemma ReadFull_short fuel n r bs e :
  delivers e r bs → (length bs < n)%nat → (length bs < fuel)%nat →
  ∃ r', ReadFull fuel n r = Some (Err (early_end e bs), r').
Proof.
  intros Hd Hn Hf. destruct (read_at_least_short fuel n [] r bs e Hd) as (r' & E);
    [cbn; lia..|].
  exists r'. unfold ReadFull, early_end. rewrite E. cbn.
  destruct (Nat.leb_spec n (length bs)); [lia|]. by destruct (_ && _).
Qed.
End ReadFull.

(** ** Parsers: a reader threaded through fallible code

    [None] stands for a loop of [io.ReadFull] that has not ended. *)
Definition parser (R A : Type) : Type := R → option (result A * R).

#[export] Instance parser_ret {R} : MRet (parser R) := λ A a r, Some (Ok a, r).
#[export] Instance parser_bind {R} : MBind (parser R) := λ A B f p r,
  match p r with
  | Some (Ok a, r') => f a r'
  | Some (Err e, r') => Some (Err e, r')
  | None => None
  end.

Definition pfail {R A} (e : goerror) : parser R A := λ r, Some (Err e, r).

(** [fmt.Errorf("...: %w", err)] around a failed parser. *)
Definition wrap_error {R A} (format : string) (p : parser R A) : parser R A := λ r,
  match p r with
  | Some (Err e, r') => Some (Err (Wrapf format e), r')
  | o => o
  end.

Lemma parser_bind_ok {R A B} (p : parser R A) (f : A → parser R B) r a r' :
  p r = Some (Ok a, r') → (p ≫= f) r = f a r'.
Proof. intros E. unfold mbind, parser_bind. by rewrite E. Qed.

Lemma parser_bind_err {R A B} (p : parser R A) (f : A → parser R B) r e r' :
  p r = Some (Err e, r') → (p ≫= f) r = Some (Err e, r').
Proof. intros E. unfold mbind, parser_bind. by rewrite E. Qed.

Lemma parser_bind_inv {R A B} (p : parser R A) (f : A → parser R B) r b r' :
  (p ≫= f) r = Some (Ok b, r') → ∃ a r1, p r = Some (Ok a, r1) ∧ f a r1 = Some (Ok b, r').
Proof.
  unfold mbind, parser_bind. destruct (p r) as [[[a|e] r1]|]; [by eauto|done..].
Qed.

Lemma wrap_error_ok {R A} fmt (p : parser R A) r a r' :
  p r = Some (Ok a, r') → wrap_error fmt p r = Some (Ok a, r').
Proof. intros E. unfold wrap_error. by rewrite E. Qed.

Lemma wrap_error_inv {R A} fmt (p : parser R A) r a r' :
  wrap_error fmt p r = Some (Ok a, r') → p r = Some (Ok a, r').
Proof. unfold wrap_error. by destruct (p r) as [[[]]|]. Qed.

(** ** A reader over the segments the network delivered, then an error *)

Record segments := { sg_data : list bytes; sg_end : goerror }.

#[export] Instance segments_reader : Reader segments := λ r n,
  match sg_data r with
  | [] => ([], Some (sg_end r), r)
  | seg :: rest =>
      if (length seg <=? n)%nat then (seg, None, {| sg_data := rest; sg_end := sg_end r |})
      else (take n seg, None, {| sg_data := drop n seg :: rest; sg_end := sg_end r |})
  end.

(** However a byte string is cut into non-empty segments, it is delivered. *)
Lemma segments_delivers e segs :
  Forall (λ s, s ≠ []) segs →
  delivers e {| sg_data := segs; sg_end := e |} (mjoin segs).
Proof.
  remember (length (mjoin segs)) as k eqn:Hk. revert segs Hk.
  induction (lt_wf k) as [k _ IH]. intros segs -> Hne.
  destruct segs as [|seg segs]; [by constructor|].
  apply Forall_cons in Hne as [Hseg Hne]. rewrite mjoin_cons.
  assert (0 < length seg)%nat by (destruct seg; [done|cbn; lia]).
  constructor.
  - by destruct seg.
  - intros n Hn. unfold Read, segments_reader. cbn.
    destruct (Nat.leb_spec (length seg) n); cbn.
    + repeat split; [done|lia|]. by eexists.
    + repeat split; [|rewrite length_take; lia|].
      * destruct seg, n; cbn; (done || lia).
      * exists (drop n seg ++ mjoin segs). by rewrite app_assoc, take_drop.
  - intros n Hn. unfold Read, segments_reader. cbn.
    destruct (Nat.leb_spec (length seg) n); cbn.
    + rewrite drop_app_length. eapply IH; [|done|done].
      rewrite mjoin_cons, length_app. lia.
    + rewrite length_take, Nat.min_l, drop_app_le by lia. rewrite <- mjoin_cons.
      eapply (IH (length (mjoin (drop n seg :: segs)))).
      * rewrite !mjoin_cons, !length_app, length_drop. lia.
      * done.
      * constructor; [|done]. intros E%(f_equal length). rewrite length_drop in E. cbn in E. lia.
Qed.

(** ** [io.Writer] *)

(** [Write w p]: the count and the error returned, and the writer after. *)
Class Writer (W : Type) := Write : W → bytes → Z * option goerror * W.

(** Successive calls of [Write], with their results. *)
Fixpoint write_each {W} `{Writer W} (w : W) (ps : list bytes) : list (Z * option goerror) * W :=
  match ps with
  | [] => ([], w)
  | p :: ps => let '(n, err, w) := Write w p in
               let '(results, w) := write_each w ps in ((n, err) :: results, w)
  end.

(** The contract of a writer into a byte stream: [sent w] is what has gone out
    so far, a call appends the prefix it reports, and a call that reports
    fewer bytes than it was given returns an error. *)
Class StreamWriter (W : Type) `{Writer W} := {
  sent : W → bytes;
  write_count : ∀ w p n err w', Write w p = (n, err, w') → 0 ≤ n ≤ blen p;
  write_sent : ∀ w p n err w', Write w p = (n, err, w') → sent w' = sent w ++ take (Z.to_nat n) p;
  write_short : ∀ w p n err w', Write w p = (n, err, w') → n < blen p → err ≠ None;
}.

Lemma write_all {W} `{StreamWriter W} w p n w' :
  Write w p = (n, None, w') → sent w' = sent w ++ p.
Proof.
  intros E. rewrite (write_sent _ _ _ _ _ E). pose proof (write_count _ _ _ _ _ E).
  destruct (decide (n < blen p)) as [Hn|Hn]; [by destruct (write_short _ _ _ _ _ E Hn)|].
  rewrite take_ge; [done|]. unfold blen in *. lia.
Qed.

(** A stream that accepts [sk_budget] more bytes and then breaks. *)
Record sink := { sk_out : bytes; sk_budget : nat }.

#[export] Instance sink_writer : Writer sink := λ w p,
  let n := (length p `min` sk_budget w)%nat in
  (Z.of_nat n, if (n <? length p)%nat then Some (Sentinel "broken pipe") else None,
   {| sk_out := sk_out w ++ take n p; sk_budget := sk_budget w - n |}).

#[export] Instance sink_stream : StreamWriter sink.
Proof.
  refine {| sent := sk_out |}; unfold Write, sink_writer, blen; intros w p n err w' [= <- <- <-].
  - lia.
  - cbn. by rewrite Nat2Z.id.
  - intros Hn. destruct (Nat.ltb_spec (length p `min` sk_budget w) (length p)); [done|lia].
Defined.
