(* ===== verification/UDPFrames.v ===== *)
(** UDP datagrams over byte streams (pkg/mux/udp_frame.go): the length
    prefixed frame, its writer and reader, and the two directions of
    [UDPRelayWithTraffic].

    The two goroutines of the relay share no data but the two connections, so
    each is a function of its own that runs until its direction ends; the
    closing of the connections and the grace period that follow only decide
    when the other direction sees its end of stream, which is an argument
    here. *)
From Stdlib Require Import ZArith Lia Ascii String Strings.Byte.
From stdpp Require Import base tactics numbers list gmap strings.
From S2P Require Import Prelude GoStrings GoIO.

Definition MaxUDPPayload : Z := 65507.

(** ** Frames *)

(** [w.(interface{ ReservePayload(int) error })]: writers that reserve credit
    before a payload is sent. *)
Class Reserver (W : Type) := ReservePayload : option (W → Z → option goerror * W).

Section Writing.
Context {W : Type} `{Writer W} `{Reserver W}.

(** The loop ends: every round that goes on has shortened the payload. *)
Fixpoint write_loop (fuel : nat) (w : W) (payload : bytes) : option goerror * W :=
  match payload with
  | [] => (None, w)
  | _ =>
      match fuel with
      | O => (None, w)
      | S fuel' =>
          let '(n, err, w') := Write w payload in
          if (n <? 0) || (blen payload <? n)
          then (Some (Errorf "invalid UDP frame write count %d" [AInt n]), w') else
          match err with
          | Some e => (Some e, w')
          | None => if n =? 0 then (Some io_ErrNoProgress, w')
                    else write_loop fuel' w' (drop (Z.to_nat n) payload)
          end
      end
  end.

Definition writeUDPFrameBytes (w : W) (payload : bytes) : option goerror * W :=
  write_loop (length payload) w payload.

Definition WriteUDPFrame (w : W) (payload : bytes) : option goerror * W :=
  if MaxUDPPayload <? blen payload
  then (Some (Errorf "UDP payload too large: %d > %d" [AInt (blen payload); AInt MaxUDPPayload]), w)
  else
    let '(err, w) := match ReservePayload with
                     | Some reserve => reserve w (blen payload)
                     | None => (None, w)
                     end in
    match err with
    | Some e => (Some e, w)
    | None =>
        let '(err, w) := writeUDPFrameBytes w (put_uint16 (blen payload)) in
        match err with
        | Some e => (Some e, w)
        | None => writeUDPFrameBytes w payload
        end
    end.
End Writing.

Section Reading.
Context {R : Type} `{Reader R} (fuel : nat).

Definition ReadUDPFrame : parser R bytes :=
  lenBuf ← ReadFull fuel 2;
  let payloadLen := uint16_of lenBuf in
  if MaxUDPPayload <? payloadLen
  then pfail (Errorf "invalid UDP frame length: %d" [AInt payloadLen])
  else ReadFull fuel (Z.to_nat payloadLen).
End Reading.

(** ** The relay *)

Section Relay.
Context {S U : Type} `{Reader S} `{Writer S} `{Reserver S} `{Reader U} `{Writer U}.

(** The goroutine stream → UDP: the stream, the UDP connection and the bytes
    given to [observe] when it returns; [None] when [rounds] frames were not
    enough to reach its end. *)
Fixpoint relay_stream_to_udp (fuel rounds : nat) (stream : S) (udpConn : U) (observed : Z)
  : option (S * U * Z) :=
  match rounds with
  | O => None
  | Datatypes.S rounds' =>
      match ReadUDPFrame fuel stream with
      | None => None
      | Some (Err _, stream') => Some (stream', udpConn, observed)
      | Some (Ok payload, stream') =>
          match Write udpConn payload with
          | (_, Some _, udpConn') => Some (stream', udpConn', observed)
          | (_, None, udpConn') =>
              relay_stream_to_udp fuel rounds' stream' udpConn' (observed + blen payload)
          end
      end
  end.

(** The goroutine UDP → stream. *)
Fixpoint relay_udp_to_stream (rounds : nat) (stream : S) (udpConn : U) (observed : Z)
  : option (S * U * Z) :=
  match rounds with
  | O => None
  | Datatypes.S rounds' =>
      match Read udpConn (Z.to_nat MaxUDPPayload) with
      | (_, Some _, udpConn') => Some (stream, udpConn', observed)
      | (buf, None, udpConn') =>
          match WriteUDPFrame stream buf with
          | (Some _, stream') => Some (stream', udpConn', observed)
          | (None, stream') =>
              relay_udp_to_stream rounds' stream' udpConn' (observed + blen buf)
          end
      end
  end.
End Relay.

(** ** Facts *)

(** The frame of a datagram on the stream. *)
Definition udp_frame (payload : bytes) : bytes := put_uint16 (blen payload) ++ payload.

(** Credit reservation sends nothing itself. *)
Class QuietReserver (W : Type) `{StreamWriter W} `{Reserver W} :=
  reserve_sent : ∀ reserve w n err w',
    ReservePayload = Some reserve → reserve w n = (err, w') → sent w' = sent w.

Section WritingFacts.
Context {W : Type} `{QuietReserver W}.

Lemma write_loop_sent fuel w p err w' :
  (length p ≤ fuel)%nat → write_loop fuel w p = (err, w') →
  ∃ q, q `prefix_of` p ∧ sent w' = sent w ++ q ∧ (err = None → q = p).
Proof.
  revert w p. induction fuel as [|fuel IH]; intros w p Hlen.
  { destruct p; [|cbn in Hlen; lia]. cbn. intros [= <- <-]. exists []. by rewrite app_nil_r. }
  cbn [write_loop]. destruct p as [|b p0] eqn:Hp.
  { intros [= <- <-]. exists []. by rewrite app_nil_r. }
  rewrite <- Hp in *. clear b p0 Hp.
  destruct (Write w p) as [[n e] w1] eqn:E.
  pose proof (write_count _ _ _ _ _ E) as Hn. pose proof (write_sent _ _ _ _ _ E) as Hs.
  assert (Hpre : take (Z.to_nat n) p `prefix_of` p)
    by (exists (drop (Z.to_nat n) p); by rewrite take_drop).
  destruct (Z.ltb_spec n 0); [lia|]. destruct (Z.ltb_spec (blen p) n); [lia|]. cbn [orb].
  destruct e as [e|].
  { intros [= <- <-]. eexists. by split_and!. }
  destruct (Z.eqb_spec n 0).
  { intros [= <- <-]. eexists. by split_and!. }
  intros E'. unfold blen in *. apply IH in E' as (q & Hq & Hs' & Hok).
  2:{ rewrite length_drop. lia. }
  exists (take (Z.to_nat n) p ++ q). split_and!.
  - destruct Hq as [k Hk]. exists k. by rewrite <- app_assoc, <- Hk, take_drop.
  - by rewrite Hs', Hs, app_assoc.
  - intros He. by rewrite (Hok He), take_drop.
Qed.

(** What a call of [WriteUDPFrame] puts on the stream: the frame when it
    succeeds, a prefix of it when it fails, nothing for an oversized datagram. *)
Lemma WriteUDPFrame_sent w p err w' :
  WriteUDPFrame w p = (err, w') →
  ∃ q, q `prefix_of` udp_frame p ∧ sent w' = sent w ++ q ∧
       (err = None → q = udp_frame p) ∧ (q = [] ∨ blen p ≤ MaxUDPPayload).
Proof.
  unfold WriteUDPFrame. destruct (Z.ltb_spec MaxUDPPayload (blen p)) as [|Hle].
  { intros [= <- <-]. exists []. rewrite app_nil_r. split_and!; [apply prefix_nil|done|done|by left]. }
  assert (Hres : ∀ e1 w1,
    (match ReservePayload with Some reserve => reserve w (blen p) | None => (None, w) end)
      = (e1, w1) → sent w1 = sent w).
  { intros e1 w1. destruct ReservePayload eqn:Er; [by eapply reserve_sent|by intros [= _ <-]]. }
  destruct (match ReservePayload with Some reserve => reserve w (blen p) | None => (None, w) end)
    as [e1 w1]. specialize (Hres e1 w1 eq_refl).
  destruct e1 as [e1|].
  { intros [= <- <-]. exists []. rewrite app_nil_r. split_and!; [apply prefix_nil|done|done|by left]. }
  unfold writeUDPFrameBytes.
  destruct (write_loop _ w1 _) as [e2 w2] eqn:E2.
  apply write_loop_sent in E2 as (q2 & Hq2 & Hs2 & Hok2); [|done].
  destruct e2 as [e2|].
  { intros [= <- <-]. exists q2. rewrite Hs2, Hres. split_and!; [|done|done|by right].
    destruct Hq2 as [k Hk]. exists (k ++ p). unfold udp_frame. by rewrite Hk, app_assoc. }
  intros E3. apply write_loop_sent in E3 as (q3 & [k3 Hk3] & Hs3 & Hok3); [|done].
  rewrite (Hok2 eq_refl) in *. eexists (_ ++ q3). split_and!.
  - exists k3. unfold udp_frame. by rewrite <- app_assoc, <- Hk3.
  - by rewrite Hs3, Hs2, Hres, app_assoc.
  - intros He. by rewrite (Hok3 He).
  - by right.
Qed.
End WritingFacts.

Section ReadingFacts.
Context {R : Type} `{Reader R}.

(** A frame at the head of the stream is read whole, whatever follows. *)
Lemma ReadUDPFrame_frame fuel r p rest e :
  delivers e r (udp_frame p ++ rest) → blen p ≤ MaxUDPPayload →
  (length (udp_frame p) ≤ fuel)%nat →
  ∃ r', ReadUDPFrame fuel r = Some (Ok p, r') ∧ delivers e r' rest.
Proof.
  unfold udp_frame. rewrite <- app_assoc. intros Hd Hlen Hf. rewrite length_app in Hf.
  cbn in Hf. apply (ReadFull_app fuel 2) in Hd as (r1 & E1 & Hd); [|done|lia].
  assert (Hu : uint16_of (put_uint16 (blen p)) = blen p).
  { rewrite <- (app_nil_r (put_uint16 _)), uint16_put. apply Z.mod_small.
    unfold blen, MaxUDPPayload in *. lia. }
  apply (ReadFull_app fuel (Z.to_nat (blen p))) in Hd as (r2 & E2 & Hd2);
    [|unfold blen; lia|unfold blen; lia].
  exists r2. split; [|done]. unfold ReadUDPFrame. erewrite parser_bind_ok by exact E1.
  cbv zeta. rewrite Hu. destruct (Z.ltb_spec MaxUDPPayload (blen p)); [lia|done].
Qed.

(** A stream that ends within a frame yields an error, never a datagram. *)
Lemma ReadUDPFrame_cut fuel r p bs e :
  delivers e r bs → bs `prefix_of` udp_frame p → bs ≠ udp_frame p →
  blen p ≤ MaxUDPPayload → (length bs < fuel)%nat →
  ∃ err r', ReadUDPFrame fuel r = Some (Err err, r').
Proof.
  intros Hd Hpre Hne Hlen Hf. unfold ReadUDPFrame.
  assert (Hlt : (length bs < length (udp_frame p))%nat).
  { destruct Hpre as [k Hk]. rewrite Hk, length_app.
    destruct k; [rewrite app_nil_r in Hk; congruence|cbn; lia]. }
  unfold udp_frame in Hlt. rewrite length_app in Hlt. cbn in Hlt.
  destruct (decide (length bs < 2)%nat) as [Hs|Hs].
  { apply (ReadFull_short fuel 2) in Hd as (r' & E); [|done|done].
    eexists _, r'. by erewrite parser_bind_err by exact E. }
  destruct bs as [|a [|b bs]]; [cbn in Hs; lia..|]. cbn [length] in *.
  change (a :: b :: bs) with ([a; b] ++ bs) in *.
  apply (ReadFull_app fuel 2) in Hd as (r1 & E1 & Hd); [|done|lia].
  erewrite parser_bind_ok by exact E1. cbv zeta.
  assert (Hu : uint16_of [a; b] = blen p).
  { destruct Hpre as [k Hk]. unfold udp_frame, put_uint16 in Hk. cbn [app] in Hk.
    injection Hk as Ha Hb _. rewrite <- Ha, <- Hb.
    change (uint16_of [_; _]) with (uint16_of (put_uint16 (blen p) ++ [])).
    rewrite uint16_put. apply Z.mod_small. unfold blen, MaxUDPPayload in *. lia. }
  rewrite Hu. destruct (Z.ltb_spec MaxUDPPayload (blen p)); [lia|].
  apply (ReadFull_short fuel (Z.to_nat (blen p))) in Hd as (r' & E);
    [by eexists _, r'|unfold blen; lia|lia].
Qed.
End ReadingFacts.

(** *** Datagram sockets *)

(** [datagrams e u ds]: reads of the UDP connection [u] with the relay's
    buffer return the datagrams [ds] one by one and then fail with [e]. *)
Inductive datagrams {U} `{Reader U} (e : goerror) : U → list bytes → Prop :=
| datagrams_next u d ds :
    (Read u (Z.to_nat MaxUDPPayload)).1 = (d, None) →
    datagrams e (Read u (Z.to_nat MaxUDPPayload)).2 ds →
    datagrams e u (d :: ds)
| datagrams_end u d :
    (Read u (Z.to_nat MaxUDPPayload)).1 = (d, Some e) → datagrams e u [].

(** A UDP connection sends each datagram it accepts as it is. *)
Class DatagramWriter (U : Type) `{Writer U} := {
  udp_out : U → list bytes;
  udp_write_ok : ∀ u p n u', Write u p = (n, None, u') → udp_out u' = udp_out u ++ [p];
  udp_write_err : ∀ u p n e u', Write u p = (n, Some e, u') → udp_out u' = udp_out u;
}.

Definition total_bytes (ds : list bytes) : Z := foldr (λ d acc, blen d + acc) 0 ds.
Definition udp_frames (ds : list bytes) : bytes := mjoin (udp_frame <$> ds).

Lemma total_bytes_app ds ds' : total_bytes (ds ++ ds') = total_bytes ds + total_bytes ds'.
Proof. induction ds as [|d ds IH]; cbn; [done|]. unfold total_bytes in *. lia. Qed.

(** The sending half: the stream carries the frames of the datagrams that
    were observed, cut off within the next one when a write fails. *)
Lemma relay_udp_to_stream_sends {S U} `{QuietReserver S} `{Reader U}
    rounds (s : S) (u : U) ds e observed :
  datagrams e u ds → (length ds < rounds)%nat →
  ∃ s' u' ds' rest q,
    relay_udp_to_stream rounds s u observed = Some (s', u', observed + total_bytes ds') ∧
    ds = ds' ++ rest ∧ Forall (λ d, blen d ≤ MaxUDPPayload) ds' ∧
    sent s' = sent s ++ udp_frames ds' ++ q ∧
    (q = [] ∨ ∃ d, head rest = Some d ∧ q `prefix_of` udp_frame d ∧ blen d ≤ MaxUDPPayload).
Proof.
  intros Hd. revert rounds s observed.
  induction Hd as [u d ds Hread _ IH | u d Hread]; intros rounds s observed Hr;
    (destruct rounds as [|rounds]; [cbn in Hr; lia|]); cbn [relay_udp_to_stream];
    destruct (Read u (Z.to_nat MaxUDPPayload)) as [[d' err] u1]; cbn in *; simplify_eq.
  - destruct (WriteUDPFrame s d) as [err s1] eqn:Ew.
    apply WriteUDPFrame_sent in Ew as (q & Hq & Hs & Hok & Hlen).
    destruct err as [err|].
    + exists s1, u1, [], (d :: ds), q. cbn. rewrite Z.add_0_r.
      split_and!; try done. destruct Hlen; [by left|]. right. by exists d.
    + rewrite (Hok eq_refl) in *.
      destruct (IH rounds s1 (observed + blen d)) as
        (s' & u' & ds' & rest & q' & -> & Hds & Hf & Hs' & Hq'); [cbn in Hr; lia|].
      exists s', u', (d :: ds'), rest, q'. split_and!; [|by rewrite Hds| | |done].
      * do 2 f_equal. cbn. fold (total_bytes ds'). lia.
      * constructor; [|done]. by destruct Hlen.
      * rewrite Hs', Hs. unfold udp_frames. cbn [fmap list_fmap]. rewrite mjoin_cons.
        by rewrite !app_assoc.
  - exists s, u1, [], [], []. cbn. rewrite Z.add_0_r, app_nil_r. split_and!; try done. by left.
Qed.

(** The receiving half on any cut of such a stream. *)
Lemma relay_stream_to_udp_receives {S U} `{Reader S} `{DatagramWriter U}
    fuel rounds (s : S) (u : U) ds bs e observed :
  delivers e s bs → bs `prefix_of` udp_frames ds →
  Forall (λ d, blen d ≤ MaxUDPPayload) ds →
  (length ds < rounds)%nat → (length bs < fuel)%nat →
  ∃ s' u' ds' rest,
    relay_stream_to_udp fuel rounds s u observed = Some (s', u', observed + total_bytes ds') ∧
    ds = ds' ++ rest ∧ udp_out u' = udp_out u ++ ds' ∧
    (∀ k, (k ≤ length ds)%nat → udp_frames (take k ds) `prefix_of` bs →
          (∀ u p, (Write (W := U) u p).1.2 = None) → (k ≤ length ds')%nat).
Proof.
  revert rounds s u bs observed.
  induction ds as [|d ds IH]; intros rounds s u bs observed Hd Hpre Hf Hr Hfuel;
    (destruct rounds as [|rounds]; [cbn in Hr; lia|]); cbn [relay_stream_to_udp].
  - apply prefix_nil_inv in Hpre as ->.
    assert (E : ∃ err s', ReadUDPFrame fuel s = Some (Err err, s')).
    { apply (ReadUDPFrame_cut fuel s [] [] e); [done|apply prefix_nil|done|done|done]. }
    destruct E as (err & s' & ->). exists s', u, [], []. cbn. by rewrite Z.add_0_r, app_nil_r.
  - apply Forall_cons in Hf as [Hlen Hf].
    unfold udp_frames in Hpre. cbn [fmap list_fmap] in Hpre. rewrite mjoin_cons in Hpre.
    fold (udp_frames ds) in Hpre.
    destruct (decide (udp_frame d `prefix_of` bs)) as [[k ->]|Hcut].
    + apply ReadUDPFrame_frame with (fuel := fuel) in Hd as (s1 & -> & Hd);
        [|done|rewrite length_app in Hfuel; lia].
      destruct (Write u d) as [[n err] u1] eqn:Ew. destruct err as [err|].
      * exists s1, u1, [], (d :: ds). rewrite (udp_write_err _ _ _ _ _ Ew).
        cbn. rewrite Z.add_0_r, app_nil_r. split_and!; try done.
        intros ? _ _ Hrel. specialize (Hrel u d). by rewrite Ew in Hrel.
      * destruct (IH rounds s1 u1 k (observed + blen d)) as (s' & u' & ds' & rest & -> & -> & Ho & Hall);
          [done|by eapply prefix_app_inv|done|cbn in Hr; lia|rewrite length_app in Hfuel; lia|].
        exists s', u', (d :: ds'), rest. split_and!; try done.
        -- do 2 f_equal. cbn. fold (total_bytes ds'). lia.
        -- by rewrite Ho, (udp_write_ok _ _ _ _ Ew), <- app_assoc.
        -- intros [|j] Hj Hk Hrel; [lia|]. cbn [length] in *. apply le_n_S.
           apply Hall; [lia| |done]. revert Hk. unfold udp_frames. cbn [take fmap list_fmap].
           rewrite mjoin_cons. apply prefix_app_inv.
    + destruct (prefix_weak_total bs (udp_frame d) (udp_frame d ++ udp_frames ds)) as [Hp|Hp];
        [done|by eexists| |done].
      assert (bs ≠ udp_frame d) by (by intros ->; apply Hcut).
      destruct (ReadUDPFrame_cut fuel s d bs e) as (err & s' & ->); [done..|].
      exists s', u, [], (d :: ds). cbn. rewrite Z.add_0_r, app_nil_r. split_and!; try done.
      intros [|j] Hj Hk _; [cbn; lia|]. exfalso. apply Hcut. revert Hk.
      unfold udp_frames. cbn [take fmap list_fmap]. rewrite mjoin_cons. apply prefix_app_l.
Qed.

(** *** The relay end to end *)

(** C30: datagrams cross the relay unchanged.  One peer relays the datagrams
    [ds] of its UDP socket into a stream; the other peer's relay reads any
    prefix of the bytes that were put on that stream, cut into segments in
    any way, and forwards to its own UDP socket.  The second socket then sends
    exactly the first [nrecv] datagrams of [ds], in order, none merged, split
    or truncated, and both sides report to [observe] exactly the payload bytes
    of the datagrams they passed on.  The receiver never passes on more than
    the sender reported, but for the one datagram whose write the sender saw
    fail; and when the whole stream arrives and the socket accepts every
    datagram, nothing the sender reported is missing. *)
Theorem udp_relay_faithful {SA UA SB UB}
    `{QuietReserver SA} `{Reader UA} `{Reader SB} `{DatagramWriter UB}
    (a : SA) (ua : UA) (b : SB) (ub : UB) (ds : list bytes) (ea eb : goerror)
    (rounds fuel : nat) (bs : bytes) :
  datagrams ea ua ds → (length ds < rounds)%nat →
  ∃ a' ua' nsent,
    relay_udp_to_stream rounds a ua 0 = Some (a', ua', total_bytes (take nsent ds)) ∧
    (nsent ≤ length ds)%nat ∧
    (delivers eb b bs → bs `prefix_of` drop (length (sent a)) (sent a') →
     (length bs < fuel)%nat →
     ∃ b' ub' nrecv,
       relay_stream_to_udp fuel rounds b ub 0 = Some (b', ub', total_bytes (take nrecv ds)) ∧
       udp_out ub' = udp_out ub ++ take nrecv ds ∧
       (nrecv ≤ S nsent)%nat ∧ (nrecv ≤ length ds)%nat ∧
       (bs = drop (length (sent a)) (sent a') → (∀ u p, (Write (W := UB) u p).1.2 = None) →
        (nsent ≤ nrecv)%nat)).
Proof.
  intros Hds Hr.
  destruct (relay_udp_to_stream_sends rounds a ua ds ea 0 Hds Hr) as
    (a' & ua' & ds1 & rest & q & -> & -> & Hf & Hsent & Hq).
  exists a', ua', (length ds1). rewrite take_app_length, length_app.
  split_and!; [done|lia|]. rewrite Hsent, drop_app_length. intros Hd Hpre Hfuel.
  assert (Hex : ∃ ds2, ds1 `prefix_of` ds2 ∧ ds2 `prefix_of` ds1 ++ rest ∧
    (length ds2 ≤ S (length ds1))%nat ∧ Forall (λ d, blen d ≤ MaxUDPPayload) ds2 ∧
    udp_frames ds1 ++ q `prefix_of` udp_frames ds2).
  { destruct Hq as [->|(d & Hd0 & Hq & Hlen)].
    - exists ds1. rewrite app_nil_r. split_and!; [done|by eexists|lia|done|done].
    - destruct rest as [|d0 rest]; [done|]. injection Hd0 as ->.
      exists (ds1 ++ [d]). split_and!.
      + by eexists.
      + exists rest. by rewrite <- app_assoc.
      + rewrite length_app. cbn. lia.
      + by apply Forall_app_2, Forall_singleton.
      + unfold udp_frames. rewrite fmap_app, join_app. cbn [fmap list_fmap].
        rewrite mjoin_cons. cbn [mjoin list_join]. rewrite app_nil_r. by apply prefix_app. }
  destruct Hex as (ds2 & [x Hx] & [y Hy] & Hlen2 & Hf2 & Hpre2).
  destruct (relay_stream_to_udp_receives fuel rounds b ub ds2 bs eb 0) as
    (b' & ub' & ds' & rest' & -> & -> & Ho & Hall);
    [done|by etrans|done| |done|].
  { apply (f_equal length) in Hy. rewrite !length_app in *. lia. }
  exists b', ub', (length ds').
  assert (Ht : take (length ds') (ds1 ++ rest) = ds').
  { by rewrite Hy, <- app_assoc, take_app_length. }
  rewrite Ht. apply (f_equal length) in Hy as Hy'. rewrite !length_app in *.
  split_and!; [done|done|lia|lia|]. intros -> Hrel. apply Hall; [| |done].
  - apply (f_equal length) in Hx. rewrite !length_app in Hx. lia.
  - rewrite Hx, take_app_length. by eexists.
Qed.

(** *** A concrete socket, and the relay run on it *)

Record socket := { so_in : list bytes; so_out : list bytes }.

#[export] Instance socket_reader : Reader socket := λ u n,
  match so_in u with
  | [] => ([], Some (Sentinel "use of closed network connection"), u)
  | d :: rest => (take n d, None, {| so_in := rest; so_out := so_out u |})
  end.
#[export] Instance socket_writer : Writer socket := λ u p,
  (blen p, None, {| so_in := so_in u; so_out := so_out u ++ [p] |}).
#[export] Instance socket_datagrams : DatagramWriter socket.
Proof.
  refine {| udp_out := so_out |}; unfold Write, socket_writer; [|done].
  intros u p n u'. by intros [= _ <-].
Defined.
#[export] Instance sink_reserver : Reserver sink := None.
#[export] Instance sink_quiet : QuietReserver sink.
Proof. by intros reserve w n err w'. Defined.

Section Witness.
Definition wit_datagrams : list bytes := [[x01; x02]; []; [x03]; [x04; x05; x06]].
Definition wit_socket : socket := {| so_in := wit_datagrams; so_out := [] |}.
Definition wit_segments : segments :=
  {| sg_data := [[x00]; [x02; x01]; [x02; x00; x00; x00; x01]; [x03; x00]]; sg_end := io_EOF |}.

(** The sender's stream breaks within the fourth frame; the receiver gets the
    bytes in segments that cut through prefixes and payloads. *)
Lemma udp_relay_faithful_witness :
  datagrams (Sentinel "use of closed network connection") wit_socket wit_datagrams ∧
  ∃ b' ub' nrecv,
    relay_stream_to_udp 20 5 wit_segments {| so_in := []; so_out := [] |} 0
      = Some (b', ub', total_bytes (take nrecv wit_datagrams)) ∧
    udp_out ub' = take nrecv wit_datagrams ∧ (nrecv ≤ 4)%nat.
Proof.
  assert (Hd : datagrams (Sentinel "use of closed network connection") wit_socket wit_datagrams).
  { do 4 (eapply datagrams_next; [reflexivity|]). by eapply datagrams_end. }
  split; [exact Hd|].
  assert (Hs : delivers io_EOF wit_segments (mjoin (sg_data wit_segments))).
  { apply (segments_delivers io_EOF (sg_data wit_segments)). by repeat constructor. }
  destruct (udp_relay_faithful {| sk_out := []; sk_budget := 11 |} wit_socket wit_segments
    {| so_in := []; so_out := [] |} wit_datagrams _ io_EOF 5 20 (mjoin (sg_data wit_segments)) Hd ltac:(cbn; lia))
    as (a' & ua' & nsent & Ha & Hn & Hrecv).
  vm_compute in Ha. injection Ha as <- _ _.
  destruct (Hrecv Hs) as (b' & ub' & nrecv & Hb & Ho & _ & Hle & _).
  - apply (bool_decide_unpack _). vm_compute. exact I.
  - vm_compute. lia.
  - exists b', ub', nrecv. by split_and!.
Defined.
End Witness.
