(* ===== verification/Framing.v ===== *)
(** Framing of the data plane: the data channel handshake
    (pkg/protocol/data_channel.go) and the header every tunnel stream starts
    with (pkg/protocol/stream_header.go, re-exported by
    pkg/mux/data_stream_header.go).

    [encoding/json] is the argument [header_json] of the header's encoder and
    decoder; what they rely on is the record [header_json_laws]. *)
From Stdlib Require Import ZArith Lia Ascii String Strings.Byte.
From stdpp Require Import base tactics numbers list gmap strings.
From S2P Require Import Prelude GoStrings GoIO Protocol.

(** ** The data channel handshake *)

Definition DataHandshakeOK : Z := 0.
Definition DataHandshakeFail : Z := 1.
Definition DataHandshakeAuthFail : Z := 2.
Definition DataHandshakeMaxClientIDLen : Z := 1024.
Definition DataHandshakeMaxTokenLen : Z := 256.
Definition MaxDataHandshakePayloadLen : Z :=
  2 + DataHandshakeMaxClientIDLen + 2 + DataHandshakeMaxTokenLen.

Definition EncodeDataHandshake (clientID dataToken : string) : bytes :=
  let clientIDBytes := to_bytes clientID in
  let tokenBytes := to_bytes dataToken in
  put_uint16 (blen clientIDBytes) ++ clientIDBytes
  ++ put_uint16 (blen tokenBytes) ++ tokenBytes.

Definition DecodeDataHandshake (payload : bytes) : result (string * string) :=
  if blen payload <? 4 then Err (Errorf "payload too short" []) else
  if MaxDataHandshakePayloadLen <? blen payload then Err (Errorf "payload too large" []) else
  let clientIDLen := uint16_of (slice 0 2 payload) in
  if (clientIDLen =? 0) || (DataHandshakeMaxClientIDLen <? clientIDLen)
  then Err (Errorf "invalid client id length" []) else
  let offset := 2 + clientIDLen in
  if blen payload <? offset + 2
  then Err (Errorf "payload truncated before token length" []) else
  let clientID := of_bytes (slice 2 offset payload) in
  let tokenLen := uint16_of (slice offset (offset + 2) payload) in
  if (tokenLen =? 0) || (DataHandshakeMaxTokenLen <? tokenLen)
  then Err (Errorf "invalid token length" []) else
  if negb (blen payload =? offset + 2 + tokenLen)
  then Err (Errorf "payload length mismatch" []) else
  let dataToken := of_bytes (slice (offset + 2) (blen payload) payload) in
  Ok (clientID, dataToken).

(** ** [unicode/utf8] *)

Definition in_range (lo hi : Z) (b : byte) : bool :=
  (lo <=? Z_of_byte b) && (Z_of_byte b <=? hi).

(** [utf8.Valid]: the well-formed byte sequences of the Unicode standard. *)
Fixpoint utf8_valid (bs : bytes) : bool :=
  match bs with
  | [] => true
  | b0 :: t0 =>
      if in_range 0 0x7F b0 then utf8_valid t0 else
      match t0 with
      | [] => false
      | b1 :: t1 =>
          if in_range 0xC2 0xDF b0 then in_range 0x80 0xBF b1 && utf8_valid t1 else
          match t1 with
          | [] => false
          | b2 :: t2 =>
              let second := if in_range 0xE0 0xE0 b0 then in_range 0xA0 0xBF b1
                            else if in_range 0xED 0xED b0 then in_range 0x80 0x9F b1
                            else in_range 0xE1 0xEF b0 && in_range 0x80 0xBF b1 in
              if in_range 0xE0 0xEF b0
              then second && in_range 0x80 0xBF b2 && utf8_valid t2 else
              match t2 with
              | [] => false
              | b3 :: t3 =>
                  (if in_range 0xF0 0xF0 b0 then in_range 0x90 0xBF b1
                   else if in_range 0xF4 0xF4 b0 then in_range 0x80 0x8F b1
                   else in_range 0xF1 0xF3 b0 && in_range 0x80 0xBF b1)
                  && in_range 0x80 0xBF b2 && in_range 0x80 0xBF b3 && utf8_valid t3
              end
          end
      end
  end.

(** ** The data stream header *)

(** [encoding/json] on [DataStreamHeader]. *)
Record header_json := {
  (* [json.Marshal(header)] *)
  json_Marshal : DataStreamHeader → result bytes;
  (* [dec.Decode(&header)] with [DisallowUnknownFields]: the header and the
     input after the decoded value *)
  json_Decode : bytes → result (DataStreamHeader * bytes);
  (* the next [dec.Decode(&trailing)] returns [io.EOF] *)
  json_AtEOF : bytes → bool;
}.

Section Header.
Context (js : header_json).

Section Encoder.
Context {W : Type} `{Writer W}.

(** [w.Write] and [fmt.Errorf(format, err)] on failure. *)
Definition write_wrapped (format : string) (w : W) (p : bytes) : option goerror * W :=
  let '(_, err, w) := Write w p in
  (match err with Some e => Some (Wrapf format e) | None => None end, w).

Definition EncodeDataStreamHeader (w : W) (header : DataStreamHeader) : option goerror * W :=
  match ValidateDataStreamHeader header with
  | Err e => (Some e, w)
  | Ok _ =>
      match json_Marshal js header with
      | Err e => (Some e, w)
      | Ok payload =>
          if (blen payload =? 0) || (DataStreamHeaderMaxLen <? blen payload)
          then (Some (Errorf "data stream header length %d exceeds limit" [AInt (blen payload)]), w)
          else
            let prefix := to_bytes DataStreamHeaderMagic
                          ++ [byte_of_Z DataStreamHeaderVersion] ++ put_uint32 (blen payload) in
            let '(err, w) := write_wrapped "write data stream header prefix: %w" w prefix in
            match err with
            | Some e => (Some e, w)
            | None => write_wrapped "write data stream header payload: %w" w payload
            end
      end
  end.
End Encoder.

Section Decoder.
Context {R : Type} `{Reader R} (fuel : nat).

(** The part after the payload has been read. *)
Definition decode_header_payload (payload : bytes) : result DataStreamHeader :=
  if negb (utf8_valid payload) then Err (Errorf "data stream header is not utf-8" []) else
  match json_Decode js payload with
  | Err e => Err (Wrapf "decode data stream header json: %w" e)
  | Ok (header, rest) =>
      if negb (json_AtEOF js rest)
      then Err (Errorf "data stream header must be one json object" []) else
      match ValidateDataStreamHeader header with
      | Err e => Err e
      | Ok _ => Ok header
      end
  end.

Definition DecodeDataStreamHeader : parser R DataStreamHeader :=
  prefix ← wrap_error "read data stream header prefix: %w" (ReadFull fuel 9);
  if negb (of_bytes (slice 0 4 prefix) =?s DataStreamHeaderMagic)
  then pfail (Errorf "invalid data stream header magic" []) else
  let version := byte_at prefix 4 in
  if negb (version =? DataStreamHeaderVersion)
  then pfail (Errorf "unsupported data stream header version %d" [AInt version]) else
  let len := uint32_of (slice 5 9 prefix) in
  if (len =? 0) || (DataStreamHeaderMaxLen <? len)
  then pfail (Errorf "invalid data stream header length %d" [AInt len]) else
  payload ← wrap_error "read data stream header payload: %w" (ReadFull fuel (Z.to_nat len));
  match decode_header_payload payload with
  | Ok header => mret header
  | Err e => pfail e
  end.
End Decoder.
End Header.

(** [bytes.Buffer]: writes never fail. *)
Record buffer := { buf_bytes : bytes }.
#[export] Instance buffer_writer : Writer buffer := λ w p,
  (blen p, None, {| buf_bytes := buf_bytes w ++ p |}).
#[export] Instance buffer_stream : StreamWriter buffer.
Proof.
  refine {| sent := buf_bytes |}; unfold Write, buffer_writer, blen; intros w p n err w' [= <- <- <-].
  - lia.
  - cbn. by rewrite Nat2Z.id, firstn_all.
  - lia.
Defined.

Definition WriteDataStreamHeaderToBytes (js : header_json) (header : DataStreamHeader)
  : result bytes :=
  match EncodeDataStreamHeader js {| buf_bytes := [] |} header with
  | (Some e, _) => Err e
  | (None, b) => Ok (buf_bytes b)
  end.

(** pkg/mux/data_stream_header.go *)
Definition WriteDataStreamHeader {W} `{Writer W} (js : header_json) (w : W)
    (header : DataStreamHeader) : option goerror * W := EncodeDataStreamHeader js w header.
Definition ReadDataStreamHeader {R} `{Reader R} (js : header_json) (fuel : nat)
  : parser R DataStreamHeader := DecodeDataStreamHeader js fuel.



(** ** Facts *)

(** The decoder on a payload in the encoder's shape, with any two length
    fields [n] and [m] that fit in sixteen bits. *)
Lemma DecodeDataHandshake_shape n cb m tb :
  0 ≤ n < 65536 → blen cb = n → 0 ≤ m < 65536 →
  DecodeDataHandshake (put_uint16 n ++ cb ++ put_uint16 m ++ tb) =
    if MaxDataHandshakePayloadLen <? 4 + n + blen tb then Err (Errorf "payload too large" []) else
    if (n =? 0) || (DataHandshakeMaxClientIDLen <? n)
    then Err (Errorf "invalid client id length" []) else
    if (m =? 0) || (DataHandshakeMaxTokenLen <? m)
    then Err (Errorf "invalid token length" []) else
    if negb (blen tb =? m) then Err (Errorf "payload length mismatch" []) else
    Ok (of_bytes cb, of_bytes tb).
Proof.
  intros Hn Hcb Hm. pose proof (blen_nonneg tb) as Htb. unfold DecodeDataHandshake.
  assert (H2 : ∀ z, blen (put_uint16 z) = 2) by done.
  rewrite !blen_app, !H2, Hcb.
  rewrite (slice_app_l 0 2 (put_uint16 n)) by (rewrite ?H2; lia).
  change (slice 0 2 (put_uint16 n)) with (put_uint16 n).
  rewrite <- (app_nil_r (put_uint16 n)), uint16_put, app_nil_r, Z.mod_small by lia.
  destruct (Z.ltb_spec (2 + (n + (2 + blen tb))) 4); [lia|].
  replace (2 + (n + (2 + blen tb))) with (4 + n + blen tb) by lia.
  destruct (MaxDataHandshakePayloadLen <? _); [done|].
  destruct ((n =? 0) || _); [done|].
  destruct (Z.ltb_spec (4 + n + blen tb) (2 + n + 2)); [lia|].
  rewrite !(slice_app_r _ _ (put_uint16 n)) by (rewrite H2; lia). rewrite !H2.
  rewrite (slice_app_l (2 - 2) _ cb) by lia.
  replace (2 + n - 2) with (blen cb) by lia. rewrite slice_all.
  rewrite !(slice_app_r _ _ cb) by lia.
  rewrite (slice_app_l _ _ (put_uint16 m)) by (rewrite ?H2; lia).
  replace (blen cb - blen cb) with 0 by lia.
  replace (2 + n + 2 - 2 - blen cb) with 2 by lia.
  change (slice 0 2 (put_uint16 m)) with (put_uint16 m).
  rewrite <- (app_nil_r (put_uint16 m)), uint16_put, app_nil_r, Z.mod_small by lia.
  destruct ((m =? 0) || _); [done|].
  replace (4 + n + blen tb =? 2 + n + 2 + m) with (blen tb =? m)
    by (apply eq_true_iff_eq; rewrite !Z.eqb_eq; lia).
  destruct (negb _); [done|]. do 2 f_equal.
  rewrite slice_app_r by (rewrite H2; lia). rewrite H2.
  replace (2 - 2) with 0 by lia. replace (4 + n + blen tb - 2 - blen cb - 2) with (blen tb) by lia.
  by rewrite slice_all.
Qed.

(** Every payload the decoder looks into has the encoder's shape. *)
Lemma handshake_payload_shape p c t :
  DecodeDataHandshake p = Ok (c, t) →
  ∃ n cb m tb, p = put_uint16 n ++ cb ++ put_uint16 m ++ tb ∧
    0 ≤ n < 65536 ∧ blen cb = n ∧ 0 ≤ m < 65536.
Proof.
  unfold DecodeDataHandshake. destruct (Z.ltb_spec (blen p) 4) as [|H4]; [done|].
  destruct (MaxDataHandshakePayloadLen <? blen p); [done|]. unfold blen in *.
  destruct p as [|a [|b p]]; [cbn in H4; lia..|].
  change (slice 0 2 (a :: b :: p)) with [a; b]. set (n := uint16_of [a; b]) in *.
  destruct ((n =? 0) || _); [done|].
  destruct (Z.ltb_spec (Z.of_nat (length (a :: b :: p))) (2 + n + 2)) as [|Hlen]; [done|].
  intros _. pose proof (uint16_range [a; b]) as Hn. fold n in Hn. cbn [length] in Hlen.
  destruct (drop (Z.to_nat n) p) as [|x [|y tb]] eqn:E;
    [apply (f_equal length) in E; rewrite length_drop in E; cbn [length] in E; lia..|].
  exists n, (take (Z.to_nat n) p), (uint16_of [x; y]), tb. split_and!.
  - unfold n. rewrite !put_uint16_of. cbn [app]. do 2 f_equal.
    rewrite <- (take_drop (Z.to_nat n) p) at 1. by rewrite E.
  - lia.
  - lia.
  - rewrite length_take. lia.
  - apply uint16_range.
  - apply uint16_range.
Qed.

(** The data channel handshake is a bijection between the admissible
    credentials and the payloads the decoder accepts.  A payload decodes to
    [(c, t)] exactly when it is the encoding of [c] and [t] and their lengths
    are in the documented bounds.  In particular an over-long client ID or
    token, whose sixteen bit length field wraps around, is never accepted
    as somebody else's. *)
Theorem handshake_bijection (p : bytes) (c t : string) :
  DecodeDataHandshake p = Ok (c, t) ↔
  p = EncodeDataHandshake c t ∧
  1 ≤ strlen c ≤ DataHandshakeMaxClientIDLen ∧ 1 ≤ strlen t ≤ DataHandshakeMaxTokenLen.
Proof.
  unfold DataHandshakeMaxClientIDLen, DataHandshakeMaxTokenLen. split.
  - intros Hd. destruct (handshake_payload_shape _ _ _ Hd) as (n & cb & m & tb & -> & Hn & Hcb & Hm).
    rewrite DecodeDataHandshake_shape in Hd by done.
    unfold MaxDataHandshakePayloadLen, DataHandshakeMaxClientIDLen, DataHandshakeMaxTokenLen in Hd.
    repeat case_match; simplify_eq; reflect_guards.
    unfold EncodeDataHandshake. rewrite !to_of_bytes, <- !blen_to_bytes, !to_of_bytes.
    split_and!; [congruence|lia..].
  - intros (-> & Hc & Ht). unfold EncodeDataHandshake. rewrite !blen_to_bytes.
    rewrite DecodeDataHandshake_shape by (rewrite ?blen_to_bytes; lia).
    rewrite !blen_to_bytes, !of_to_bytes.
    unfold MaxDataHandshakePayloadLen, DataHandshakeMaxClientIDLen, DataHandshakeMaxTokenLen.
    repeat case_match; reflect_guards; (done || lia).
Qed.

Example handshake_ex :
  DecodeDataHandshake (EncodeDataHandshake "client-7" "tok") = Ok ("client-7", "tok")%string.
Proof. vm_compute. reflexivity. Qed.

Example handshake_truncated_ex :
  DecodeDataHandshake (removelast (EncodeDataHandshake "client-7" "tok"))
  = Err (Errorf "payload length mismatch" []).
Proof. vm_compute. reflexivity. Qed.

(** *** Header frames *)

(** The bytes of a header frame with the given payload. *)
Definition header_frame (payload : bytes) : bytes :=
  to_bytes DataStreamHeaderMagic ++ [byte_of_Z DataStreamHeaderVersion]
  ++ put_uint32 (blen payload) ++ payload.


Section HeaderFacts.
Context (js : header_json).



Section Decoding.
Context {R : Type} `{Reader R}.

End Decoding.
End HeaderFacts.


(** The header decoder on arbitrary input.  On every stream it returns,
    however the stream is cut and wherever it ends.  What it accepts is a valid
    header in a frame with the right magic, version and a length of at most
    16 KiB, decoded from exactly the frame's payload, and the rest of the
    stream is left unread. *)
Theorem stream_header_decode_sound {R} `{Reader R} (js : header_json)
    (r : R) (bs : bytes) (e : goerror) (fuel : nat) :
  delivers e r bs → (length bs < fuel)%nat →
  ∃ res r', DecodeDataStreamHeader js fuel r = Some (res, r') ∧
  ∀ h, res = Ok h →
    ValidateDataStreamHeader h = Ok tt ∧
    ∃ payload rest,
      bs = header_frame payload ++ rest ∧ 1 ≤ blen payload ≤ DataStreamHeaderMaxLen ∧
      decode_header_payload js payload = Ok h ∧ delivers e r' rest.
Proof.
  intros Hd Hf.
  assert (Hval : ∀ payload h, decode_header_payload js payload = Ok h →
                              ValidateDataStreamHeader h = Ok tt).
  { intros payload h. unfold decode_header_payload. repeat case_match; try done.
    intros [= <-]. by match goal with x : unit |- _ => destruct x end. }
  destruct (decide (length bs < 9)%nat) as [Hs|Hs].
  { destruct (ReadFull_short fuel 9 r bs e Hd Hs Hf) as (r' & E).
    eexists _, r'. split.
    - unfold DecodeDataStreamHeader. erewrite parser_bind_err; [done|].
      unfold wrap_error. by rewrite E.
    - done. }
  destruct (ReadFull_ok fuel 9 r bs e Hd ltac:(lia) ltac:(lia)) as (r1 & E1 & Hd1).
  destruct bs as [|m0 [|m1 [|m2 [|m3 [|v [|l0 [|l1 [|l2 [|l3 bs]]]]]]]]];
    [cbn [length] in Hs; lia..|]. cbn [length] in Hf.
  cbn [take] in E1. rewrite take_0 in E1. cbn [drop] in Hd1. rewrite ?drop_0 in Hd1.
  unfold DecodeDataStreamHeader. erewrite parser_bind_ok by (apply wrap_error_ok; exact E1).
  change (slice 0 4 _) with [m0; m1; m2; m3]. change (byte_at _ 4) with (Z_of_byte v).
  change (slice 5 9 _) with [l0; l1; l2; l3]. cbv zeta.
  destruct (String.eqb_spec (of_bytes [m0; m1; m2; m3]) DataStreamHeaderMagic) as [Hmagic|];
    cbn [negb]; [|by eexists _, _].
  destruct (Z.eqb_spec (Z_of_byte v) DataStreamHeaderVersion) as [Hver|];
    cbn [negb]; [|by eexists _, _].
  set (n := uint32_of [l0; l1; l2; l3]).
  destruct ((n =? 0) || (DataStreamHeaderMaxLen <? n)) eqn:G; [by eexists _, _|].
  pose proof (uint32_range [l0; l1; l2; l3]) as Hn. fold n in Hn.
  apply orb_false_iff in G as [G1%Z.eqb_neq G2%Z.ltb_ge].
  destruct (decide (length bs < Z.to_nat n)%nat) as [Hshort|Hfull].
  { destruct (ReadFull_short fuel (Z.to_nat n) r1 bs e Hd1 Hshort ltac:(lia)) as (r2 & E2).
    eexists _, r2. split.
    - erewrite parser_bind_err; [done|]. unfold wrap_error. by rewrite E2.
    - done. }
  destruct (ReadFull_ok fuel (Z.to_nat n) r1 bs e Hd1 ltac:(lia) ltac:(lia)) as (r2 & E2 & Hd2).
  erewrite parser_bind_ok by (apply wrap_error_ok; exact E2).
  set (payload := take (Z.to_nat n) bs).
  exists (decode_header_payload js payload), r2. split.
  { by destruct (decode_header_payload js payload). }
  intros h Hh. split; [by eapply Hval|].
  assert (Hpn : blen payload = n) by (unfold blen, payload; rewrite length_take; lia).
  exists payload, (drop (Z.to_nat n) bs). rewrite Hpn. split_and!; [|lia|lia|done|done].
  unfold header_frame. rewrite Hpn, <- Hver, byte_of_Z_of_byte. unfold n. rewrite put_uint32_of.
  rewrite <- Hmagic, to_of_bytes. cbn [app]. unfold payload. by rewrite take_drop.
Qed.

(** *** A concrete header *)

Module HeaderSample.
Definition header : DataStreamHeader := {|
  dsh_Kind := DataStreamHeaderKindTunnelStream; dsh_TunnelID := "t1"; dsh_Revision := 3;
  dsh_StreamID := "s1"; dsh_OpenClientID := "c1"; dsh_SourceRole := DataStreamRoleServer;
  dsh_TargetRole := DataStreamRoleTarget; dsh_Direction := DataStreamDirectionIngressToTarget;
  dsh_Transport := ActualTransportServerRelay; dsh_OpenToken := "tok";
  dsh_ServerAuthorized := false; dsh_TargetHost := ""; dsh_TargetPort := 0;
  dsh_TargetAddrType := ""; dsh_OriginalHost := "" |}.

(** JSON text with its double quotes written as single ones. *)
Definition json_text (s : string) : bytes :=
  map (λ b, if decide (b = x27) then x22 else b) (to_bytes s).

Definition text : bytes := json_text
  "{'kind':'tunnel_stream','tunnel_id':'t1','revision':3,'stream_id':'s1','open_client_id':'c1','source_role':'server','target_role':'target','direction':'ingress_to_target','transport':'server_relay','open_token':'tok'}".

(** [encoding/json] on this header and this text. *)
Definition codec : header_json := {|
  json_Marshal := λ h, if decide (h = header) then Ok text else Err (Errorf "other" []);
  json_Decode := λ p, if decide (p = text) then Ok (header, []) else Err (Errorf "other" []);
  json_AtEOF := λ p, bool_decide (p = []) |}.



Definition segs : segments :=
  {| sg_data := [take 6 (header_frame text); drop 6 (header_frame text) ++ [x41]; [x42]];
     sg_end := io_EOF |}.

Lemma header_segs_delivered : delivers io_EOF segs (header_frame text ++ [x41; x42]).
Proof.
  assert (Hs : delivers io_EOF segs (mjoin (sg_data segs))).
  { apply (segments_delivers io_EOF (sg_data segs)). by repeat constructor. }
  exact Hs.
Qed.
End HeaderSample.


Lemma stream_header_decode_sound_witness :
  ∃ res r', DecodeDataStreamHeader HeaderSample.codec 300 HeaderSample.segs = Some (res, r') ∧
  ∀ h, res = Ok h → ValidateDataStreamHeader h = Ok tt ∧ ∃ payload rest,
    header_frame HeaderSample.text ++ [x41; x42] = header_frame payload ++ rest ∧
    1 ≤ blen payload ≤ DataStreamHeaderMaxLen ∧
    decode_header_payload HeaderSample.codec payload = Ok h ∧ delivers io_EOF r' rest.
Proof.
  apply (stream_header_decode_sound HeaderSample.codec HeaderSample.segs
    (header_frame HeaderSample.text ++ [x41; x42]) io_EOF 300).
  - exact HeaderSample.header_segs_delivered.
  - vm_compute. lia.
Defined.
