(* ===== verification/Streams.v ===== *)
(** Byte streams over message transports: [WSConn] over a websocket
    (pkg/mux/wsconn.go) and [dataChannelByteStream] over a WebRTC data channel
    (pkg/p2p/datachannel_stream.go).

    The websocket of gorilla/websocket and the data channel of pion are third
    party code: type classes of operations with the laws the adapters rely on.
    Both adapters are readers whose [delivers] contract is discharged here,
    so every theorem on framed streams applies to them. *)
From Stdlib Require Import ZArith Lia Ascii String Strings.Byte.
From stdpp Require Import base tactics numbers list gmap strings.
From S2P Require Import Prelude GoStrings GoIO.

(** ** WSConn *)

Definition BinaryMessage : Z := 2.

(** [*websocket.Conn] with its open message reader and writer. *)
Class WebsocketConn (C : Type) := {
  NextReader : C → (Z + goerror) * C;
  MessageRead : C → nat → bytes * option goerror * C;
  NextWriter : C → Z → option goerror * C;
  MessageWrite : C → bytes → Z * option goerror * C;
  MessageClose : C → option goerror * C;
}.

(** [ws_reader]: the field [reader] is not nil, the open message of the
    connection is being read. *)
Record WSConn (C : Type) := { ws_conn : C; ws_reader : bool }.
Arguments ws_conn {C} w. Arguments ws_reader {C} w. Arguments Build_WSConn {C}.

Definition NewWSConn {C} (conn : C) : WSConn C := Build_WSConn conn false.

Section WSConn.
Context {C : Type} `{WebsocketConn C}.

(** The loop of [Read], [None] when it has not returned after [fuel] rounds. *)
Fixpoint ws_read_loop (fuel : nat) (w : WSConn C) (n : nat)
  : option (bytes * option goerror * WSConn C) :=
  match fuel with
  | O => None
  | S fuel' =>
      let opened :=
        if ws_reader w then inl (ws_conn w) else
        match NextReader (ws_conn w) with
        | (inr err, c) => inr (err, c)
        | (inl messageType, c) =>
            if negb (messageType =? BinaryMessage)
            then inr (Errorf "unexpected websocket message type: %d" [AInt messageType], c)
            else inl c
        end in
      match opened with
      | inr (err, c) => Some ([], Some err, Build_WSConn c false)
      | inl c =>
          let '(d, err, c) := MessageRead c n in
          if bool_decide (err = Some io_EOF) then
            let w := Build_WSConn c false in
            if (0 <? length d)%nat then Some (d, None, w) else ws_read_loop fuel' w n
          else Some (d, err, Build_WSConn c true)
      end
  end.

(** [Read(p)] with [len(p) = n]; nothing is returned as long as the loop goes
    on, which it does only over empty messages. *)
Definition ws_Read (fuel : nat) (w : WSConn C) (n : nat) : bytes * option goerror * WSConn C :=
  if (n =? 0)%nat then ([], None, w) else
  match ws_read_loop fuel w n with
  | Some r => r
  | None => ([], None, w)
  end.

Definition ws_Write (w : WSConn C) (p : bytes) : Z * option goerror * WSConn C :=
  let set c := Build_WSConn c (ws_reader w) in
  match NextWriter (ws_conn w) BinaryMessage with
  | (Some err, c) => (0, Some err, set c)
  | (None, c) =>
      let '(n, writeErr, c) := MessageWrite c p in
      let '(closeErr, c) := MessageClose c in
      (n, match writeErr, closeErr with
          | Some we, Some _ => Some (Wrapf "write failed: %w; close failed: %v" we)
          | Some we, None => Some we
          | None, Some ce => Some ce
          | None, None => if negb (n =? blen p) then Some io_ErrShortWrite else None
          end, set c)
  end.
End WSConn.

#[export] Instance WSConn_writer {C} `{WebsocketConn C} : Writer (WSConn C) := ws_Write.

(** ** dataChannelByteStream *)

Definition dataChannelStreamChunkSize : Z := 16 * 1024.

(** [readPending] is a slice of [readBuffer], which [Read] overwrites only
    when nothing is pending. *)
Record dataChannelByteStream (T : Type) := {
  transport : T; readPending : bytes; readErr : option goerror;
}.
Arguments transport {T} d. Arguments readPending {T} d. Arguments readErr {T} d.
Arguments Build_dataChannelByteStream {T}.

Definition newDataChannelByteStream {T} (t : T) : dataChannelByteStream T :=
  Build_dataChannelByteStream t [] None.

Section DataChannel.
Context {T : Type} `{Reader T} `{Writer T}.

Definition dc_Read (s : dataChannelByteStream T) (n : nat)
  : bytes * option goerror * dataChannelByteStream T :=
  if (n =? 0)%nat then ([], None, s) else
  if (0 <? length (readPending s))%nat then
    (take n (readPending s), None,
     Build_dataChannelByteStream (transport s) (drop n (readPending s)) (readErr s))
  else
  match readErr s with
  | Some err => ([], Some err, Build_dataChannelByteStream (transport s) (readPending s) None)
  | None =>
      let '(m, err, t) := Read (transport s) (Z.to_nat dataChannelStreamChunkSize) in
      if (length m =? 0)%nat then
        ([], Some (match err with Some e => e | None => io_ErrNoProgress end),
         Build_dataChannelByteStream t (readPending s) None)
      else
        let copied := (n `min` length m)%nat in
        (take n m, None,
         Build_dataChannelByteStream t
           (if (copied <? length m)%nat then drop copied m else readPending s) err)
  end.

(** The loop of [Write]: [None] when it has not ended after [fuel] rounds. *)
Fixpoint dc_write_loop (fuel : nat) (t : T) (p : bytes) (written : Z)
  : option (Z * option goerror * T) :=
  if written <? blen p then
    match fuel with
    | O => None
    | S fuel' =>
        let end_ := Z.min (written + dataChannelStreamChunkSize) (blen p) in
        let '(n, err, t) := Write t (slice written end_ p) in
        let written := written + n in
        match err with
        | Some e => Some (written, Some e, t)
        | None => if n =? 0 then Some (written, Some io_ErrNoProgress, t)
                  else dc_write_loop fuel' t p written
        end
    end
  else Some (written, None, t).

Definition dc_Write (fuel : nat) (s : dataChannelByteStream T) (p : bytes)
  : option (Z * option goerror * dataChannelByteStream T) :=
  if (length p =? 0)%nat then Some (0, None, s) else
  '(n, err, t) ← dc_write_loop fuel (transport s) p 0;
  Some (n, err, Build_dataChannelByteStream t (readPending s) (readErr s)).
End DataChannel.

(** The loop of [Write] is over after at most [len(p)] rounds. *)
#[export] Instance dataChannel_writer {T} `{Writer T} : Writer (dataChannelByteStream T) := λ s p,
  match dc_Write (length p) s p with Some r => r | None => (0, None, s) end.
#[export] Instance dataChannel_reader {T} `{Reader T} : Reader (dataChannelByteStream T) := dc_Read.

(** ** Contracts of the transports *)

(** A websocket delivers the queued messages one after the other and then
    fails; a message can be read in pieces, the end of the message is [io.EOF],
    alone or with the last piece; a message written without error is sent. *)
Class WebsocketLaws (C : Type) `{WebsocketConn C} := {
  ws_open : C → bytes;
  ws_queue : C → list (Z * bytes);
  ws_error : C → goerror;
  ws_out : C → list (Z * bytes);
  next_reader_message : ∀ c t m q, ws_queue c = (t, m) :: q →
    ∃ c', NextReader c = (inl t, c') ∧ ws_open c' = m ∧ ws_queue c' = q ∧ ws_error c' = ws_error c;
  next_reader_end : ∀ c, ws_queue c = [] → (NextReader c).1 = inr (ws_error c);
  message_read : ∀ c n, (0 < n)%nat →
    ∃ d err c', MessageRead c n = (d, err, c') ∧ ws_queue c' = ws_queue c ∧
      ws_error c' = ws_error c ∧ ws_open c = d ++ ws_open c' ∧ (length d ≤ n)%nat ∧
      (err = None ∧ d ≠ [] ∨ err = Some io_EOF ∧ ws_open c' = []);
  message_write : ∀ c c1 c2 c3 t p n,
    NextWriter c t = (None, c1) → MessageWrite c1 p = (n, None, c2) → n = blen p →
    MessageClose c2 = (None, c3) → ws_out c3 = ws_out c ++ [(t, p)];
}.

(** A detached data channel: a read returns the next message whole when the
    buffer is large enough, possibly with the error that ends the channel
    when it is the last one; a write sends one message. *)
Class MessageTransport (T : Type) `{Reader T} `{Writer T} := {
  mt_in : T → list bytes;
  mt_error : T → goerror;
  mt_out : T → list bytes;
  mt_read : ∀ t n m q, mt_in t = m :: q → (length m ≤ n)%nat →
    ∃ err t', Read t n = (m, err, t') ∧ mt_in t' = q ∧ mt_error t' = mt_error t ∧
      (err = None ∨ err = Some (mt_error t) ∧ q = []);
  mt_read_end : ∀ t n, mt_in t = [] → (Read t n).1 = ([], Some (mt_error t));
  mt_write : ∀ t p n t', Write t p = (n, None, t') → n = blen p ∧ mt_out t' = mt_out t ++ [p];
}.

(** ** Facts *)

Definition binary (m : bytes) : Z * bytes := (BinaryMessage, m).

(** Why a websocket stream ends: the connection failed, or a message that is
    not binary arrived. *)
Definition stream_stop (conn_error : goerror) (tail : list (Z * bytes)) : goerror :=
  match tail with
  | [] => conn_error
  | (t, _) :: _ => Errorf "unexpected websocket message type: %d" [AInt t]
  end.

Section WSFacts.
Context {C : Type} `{WebsocketLaws C}.

(** The bytes [bs] still to be read from [w] are in the open message and the
    [k] binary messages queued before the stream stops with [e]. *)
Definition ws_pending (e : goerror) (w : WSConn C) (bs : bytes) (k : nat) : Prop :=
  ∃ bins tail,
    ws_queue (ws_conn w) = (binary <$> bins) ++ tail ∧
    (∀ t m, head tail = Some (t, m) → t ≠ BinaryMessage) ∧
    e = stream_stop (ws_error (ws_conn w)) tail ∧
    bs = (if ws_reader w then ws_open (ws_conn w) else []) ++ mjoin bins ∧
    k = ((if ws_reader w then 1 else 0) + length bins)%nat.

(** Reading on in the open message. *)
Lemma message_read_pending e c bs k n :
  ws_pending e (Build_WSConn c true) bs k → (0 < n)%nat →
  ∃ d err c', MessageRead c n = (d, err, c') ∧ (length d ≤ n)%nat ∧
    ((err = None ∧ d ≠ [] ∧ ∃ bs', bs = d ++ bs' ∧ ws_pending e (Build_WSConn c' true) bs' k) ∨
     (err = Some io_EOF ∧ ∃ bs' k', bs = d ++ bs' ∧ k = S k' ∧
        ws_pending e (Build_WSConn c' false) bs' k')).
Proof.
  intros (bins & tail & Hq & Ht & He & Hbs & Hk) Hn. cbn in *.
  destruct (message_read c n Hn) as (d & err & c' & E & Hq' & He' & Ho & Hlen & Hcase).
  exists d, err, c'. split_and!; [done|done|]. destruct Hcase as [[-> Hd]|[-> Ho']].
  - left. split_and!; [done|done|]. exists (ws_open c' ++ mjoin bins). split.
    { by rewrite Hbs, Ho, app_assoc. }
    exists bins, tail. cbn. by rewrite Hq', He'.
  - right. split; [done|]. exists (mjoin bins), (length bins). split_and!.
    + by rewrite Hbs, Ho, Ho', app_nil_r.
    + done.
    + exists bins, tail. cbn. by rewrite Hq', He'.
Qed.

(** One call of [Read]. *)
Lemma ws_read_loop_pending e fuel w bs k n :
  ws_pending e w bs k → (k < fuel)%nat → (0 < n)%nat →
  ∃ d err w', ws_read_loop fuel w n = Some (d, err, w') ∧
    ((bs = [] ∧ d = [] ∧ err = Some e) ∨
     (err = None ∧ d ≠ [] ∧ (length d ≤ n)%nat ∧
      ∃ bs' k', bs = d ++ bs' ∧ ws_pending e w' bs' k' ∧ (k' ≤ k)%nat)).
Proof.
  revert w bs k. induction fuel as [|fuel IH]; intros w bs k Hp Hk Hn; [lia|].
  cbn [ws_read_loop].
  assert (Hread : ∀ c j, ws_pending e (Build_WSConn c true) bs j → j = k →
    ∃ d err w', (let '(d, err, c) := MessageRead c n in
      if bool_decide (err = Some io_EOF) then
        let w := Build_WSConn c false in
        if (0 <? length d)%nat then Some (d, None, w) else ws_read_loop fuel w n
      else Some (d, err, Build_WSConn c true)) = Some (d, err, w') ∧
    ((bs = [] ∧ d = [] ∧ err = Some e) ∨
     (err = None ∧ d ≠ [] ∧ (length d ≤ n)%nat ∧
      ∃ bs' k', bs = d ++ bs' ∧ ws_pending e w' bs' k' ∧ (k' ≤ k)%nat))).
  { intros c j Hc ->.
    destruct (message_read_pending e c bs k n Hc Hn) as
      (d & err & c' & -> & Hlen & [(-> & Hd & bs' & -> & Hp')|(-> & bs' & k' & -> & -> & Hp')]).
    - rewrite bool_decide_false by done. eexists _, _, _. split; [done|]. right.
      split_and!; try done. by exists bs', k.
    - rewrite bool_decide_true by done. cbv zeta.
      destruct (Nat.ltb_spec 0 (length d)) as [Hd|Hd].
      + eexists _, _, _. split; [done|]. right.
        split_and!; [done|by destruct d; cbn in Hd; [lia|]|done|]. exists bs', k'.
        split_and!; [done|done|lia].
      + destruct d; [|cbn in Hd; lia].
        destruct (IH _ bs' k' Hp' ltac:(lia) Hn) as (d & err & w' & -> & Hcase).
        eexists _, _, _. split; [done|]. destruct Hcase as [?|(-> & ? & ? & bs'' & k'' & -> & ? & ?)];
          [by left|right]. split_and!; try done. exists bs'', k''. split_and!; [done|done|lia]. }
  destruct (ws_reader w) eqn:Er.
  - apply (Hread (ws_conn w) k); [|done]. destruct w. cbn in *. by subst.
  - destruct Hp as (bins & tail & Hq & Ht & He & Hbs & Hk'). rewrite Er in Hbs, Hk'. cbn in Hbs, Hk'.
    destruct bins as [|m bins]; [destruct tail as [|[t m] tail]|].
    + pose proof (next_reader_end _ Hq) as E. destruct (NextReader (ws_conn w)) as [o c].
      cbn in E. subst o. eexists _, _, _. split; [done|]. left. by rewrite He, Hbs.
    + destruct (next_reader_message _ _ _ _ Hq) as (c & -> & _).
      specialize (Ht t m eq_refl). destruct (Z.eqb_spec t BinaryMessage); [done|]. cbn [negb].
      eexists _, _, _. split; [done|]. left. by rewrite He, Hbs.
    + destruct (next_reader_message _ _ _ _ Hq) as (c & -> & Ho & Hq' & He').
      rewrite Z.eqb_refl. cbn [negb]. apply (Hread c k); [|done].
      exists bins, tail. cbn. rewrite He', Ho. split_and!; done.
Qed.

Lemma ws_pending_delivers e fuel w bs k :
  ws_pending e w bs k → (k < fuel)%nat →
  delivers (H := λ w n, ws_Read fuel w n) e w bs.
Proof.
  remember (length bs) as len eqn:Hlen. revert w bs k Hlen.
  induction (lt_wf len) as [len _ IH]. intros w bs k -> Hp Hk.
  assert (Hone : ∀ n, (0 < n)%nat → ∃ d err w', ws_Read fuel w n = (d, err, w') ∧
    ((bs = [] ∧ d = [] ∧ err = Some e) ∨
     (err = None ∧ d ≠ [] ∧ (length d ≤ n)%nat ∧
      ∃ bs' k', bs = d ++ bs' ∧ ws_pending e w' bs' k' ∧ (k' ≤ k)%nat))).
  { intros n Hn. destruct (ws_read_loop_pending e fuel w bs k n Hp Hk Hn) as (d & err & w' & E & ?).
    exists d, err, w'. split; [|done]. unfold ws_Read. destruct (Nat.eqb_spec n 0); [lia|].
    by rewrite E. }
  destruct bs as [|b bs].
  - apply delivers_end. intros n Hn. unfold Read.
    destruct (Hone n Hn) as (d & err & w' & -> & [(_ & -> & ->)|(_ & Hd & _ & bs' & k' & Hbs & _)]);
      [done|]. by destruct d.
  - apply delivers_data; [done| |]; intros n Hn; unfold Read;
      destruct (Hone n Hn) as (d & err & w' & -> & [(? & _)|(-> & Hd & Hl & bs' & k' & Hbs & Hp' & Hk')]);
      [done| |done|]; cbn [fst snd]; rewrite Hbs.
    + split_and!; [done|done|done|by eexists].
    + rewrite drop_app_length. eapply IH; [|done|done|lia].
      rewrite Hbs, length_app. destruct d; [done|cbn; lia].
Qed.
End WSFacts.

(** *** The websocket stream end to end *)

Lemma ws_Write_sent {C} `{WebsocketLaws C} (w w' : WSConn C) p n :
  ws_Write w p = (n, None, w') →
  n = blen p ∧ ws_out (ws_conn w') = ws_out (ws_conn w) ++ [binary p].
Proof.
  unfold ws_Write. destruct (NextWriter (ws_conn w) BinaryMessage) as [[?|] c1] eqn:E1; [done|].
  destruct (MessageWrite c1 p) as [[m we] c2] eqn:E2.
  destruct (MessageClose c2) as [ce c3] eqn:E3.
  destruct we, ce; try done. destruct (Z.eqb_spec m (blen p)) as [Hm|]; cbn [negb]; [|done].
  intros [= <- <-]. split; [done|]. cbn. by eapply message_write.
Qed.

Lemma ws_writes_sent {C} `{WebsocketLaws C} (w w' : WSConn C) ps results :
  write_each w ps = (results, w') → Forall (λ r, r.2 = None) results →
  results = (λ p, (blen p, None)) <$> ps ∧
  ws_out (ws_conn w') = ws_out (ws_conn w) ++ (binary <$> ps).
Proof.
  revert w results. induction ps as [|p ps IH]; intros w results; cbn [write_each].
  - intros [= <- <-] _. by rewrite app_nil_r.
  - destruct (Write w p) as [[n err] w1] eqn:E1. destruct (write_each w1 ps) as [rs w2] eqn:E2.
    intros [= <- <-] [Herr Hall]%Forall_cons. cbn in Herr. subst err.
    apply ws_Write_sent in E1 as [-> Ho]. destruct (IH w1 rs E2 Hall) as [-> Ho2].
    split; [done|]. by rewrite Ho2, Ho, <- app_assoc.
Qed.

(** C24: a websocket carries a byte stream.  When one side's writes [ps] return
    no error, each has reported all its bytes, and the other side's [Read],
    called with buffers of any sizes, returns the concatenation of [ps] in
    order: empty messages are skipped and a message may be read in many
    pieces.  The stream then ends with the connection's error, or with an
    error for the first message that is not binary; no byte of that message
    is delivered. *)
Theorem websocket_stream {A B} `{WebsocketLaws A} `{WebsocketLaws B}
    (a a' : WSConn A) (b : B) (ps : list bytes) (results : list (Z * option goerror))
    (tail : list (Z * bytes)) (fuel : nat) :
  write_each a ps = (results, a') → Forall (λ r, r.2 = None) results →
  ws_queue b = drop (length (ws_out (ws_conn a))) (ws_out (ws_conn a')) ++ tail →
  (∀ t m, head tail = Some (t, m) → t ≠ BinaryMessage) →
  (length ps < fuel)%nat →
  results = (λ p, (blen p, None)) <$> ps ∧
  delivers (H := λ w n, ws_Read fuel w n) (stream_stop (ws_error b) tail)
    (NewWSConn b) (mjoin ps).
Proof.
  intros Hw Hok Hb Ht Hf. destruct (ws_writes_sent _ _ _ _ Hw Hok) as [Hr Ho].
  split; [done|]. rewrite Ho, drop_app_length in Hb.
  apply (ws_pending_delivers _ fuel _ _ (length ps)); [|done]. by exists ps, tail.
Qed.

(** *** The data channel stream end to end *)

Definition sctp_message (m : bytes) : Prop := 0 < blen m ≤ dataChannelStreamChunkSize.

Section DCFacts.
Context {T : Type} `{MessageTransport T}.

Lemma dc_write_loop_sent fuel (t : T) p written :
  0 ≤ written ≤ blen p → blen p - written ≤ Z.of_nat fuel →
  ∃ n err t', dc_write_loop fuel t p written = Some (n, err, t') ∧
    (err = None → n = blen p ∧ ∃ chunks, mt_out t' = mt_out t ++ chunks ∧
       mjoin chunks = drop (Z.to_nat written) p ∧ Forall sctp_message chunks).
Proof.
  revert t written. induction fuel as [|fuel IH]; intros t written Hw Hf; cbn [dc_write_loop];
    destruct (Z.ltb_spec written (blen p)) as [Hlt|Hge]; try lia.
  1,3: exists written, None, t; split; [done|]; intros _; split; [lia|];
    exists []; rewrite app_nil_r, drop_ge by (unfold blen in *; lia); by split_and!.
  set (end_ := Z.min (written + dataChannelStreamChunkSize) (blen p)).
  assert (Hend : written < end_ ≤ blen p ∧ end_ - written ≤ dataChannelStreamChunkSize)
    by (unfold end_, dataChannelStreamChunkSize; lia).
  destruct (Write t (slice written end_ p)) as [[n err] t1] eqn:E. destruct err as [err|].
  { by eexists _, _, _. }
  apply mt_write in E as [-> Ho].
  assert (Hlen : blen (slice written end_ p) = end_ - written).
  { unfold slice, blen in *. rewrite length_take, length_drop. lia. }
  rewrite Hlen in *. destruct (Z.eqb_spec (end_ - written) 0); [lia|].
  replace (written + (end_ - written)) with end_ by lia.
  destruct (IH t1 end_ ltac:(lia) ltac:(lia)) as (n2 & err & t' & -> & Hok).
  exists n2, err, t'. split; [done|]. intros He. destruct (Hok He) as (-> & chunks & Ho' & Hj & Hc).
  split; [done|]. exists (slice written end_ p :: chunks). split_and!.
  - by rewrite Ho', Ho, <- app_assoc.
  - rewrite mjoin_cons, Hj. unfold slice.
    replace (Z.to_nat end_) with (Z.to_nat written + Z.to_nat (end_ - written))%nat by lia.
    rewrite <- drop_drop. by rewrite take_drop.
  - constructor; [|done]. unfold sctp_message. lia.
Qed.

Lemma dc_Write_sent (s s' : dataChannelByteStream T) p n :
  Write s p = (n, None, s') →
  n = blen p ∧ ∃ chunks, mt_out (transport s') = mt_out (transport s) ++ chunks ∧
    mjoin chunks = p ∧ Forall sctp_message chunks.
Proof.
  unfold Write, dataChannel_writer, dc_Write. destruct (Nat.eqb_spec (length p) 0) as [Hp|Hp].
  { destruct p; [|done]. intros [= <- <-]. split; [done|]. exists []. by rewrite app_nil_r. }
  destruct (dc_write_loop_sent (length p) (transport s) p 0) as (m & err & t' & -> & Hok);
    [unfold blen; lia..|].
  cbn. intros [= -> -> <-]. destruct (Hok eq_refl) as (-> & chunks & ? & Hj & ?).
  split; [done|]. exists chunks. by rewrite Hj, drop_0.
Qed.

Lemma dc_writes_sent (s s' : dataChannelByteStream T) ps results :
  write_each s ps = (results, s') → Forall (λ r, r.2 = None) results →
  results = (λ p, (blen p, None)) <$> ps ∧
  ∃ chunks, mt_out (transport s') = mt_out (transport s) ++ chunks ∧
    mjoin chunks = mjoin ps ∧ Forall sctp_message chunks.
Proof.
  revert s results. induction ps as [|p ps IH]; intros s results; cbn [write_each].
  - intros [= <- <-] _. split; [done|]. exists []. by rewrite app_nil_r.
  - destruct (Write s p) as [[n err] s1] eqn:E1. destruct (write_each s1 ps) as [rs s2] eqn:E2.
    intros [= <- <-] [Herr Hall]%Forall_cons. cbn in Herr. subst err.
    apply dc_Write_sent in E1 as (-> & c1 & Ho1 & Hj1 & Hf1).
    destruct (IH s1 rs E2 Hall) as (-> & c2 & Ho2 & Hj2 & Hf2).
    split; [done|]. exists (c1 ++ c2). split_and!.
    + by rewrite Ho2, Ho1, <- app_assoc.
    + by rewrite join_app, mjoin_cons, Hj1, Hj2.
    + by apply Forall_app_2.
Qed.

(** The bytes [bs] still to be read from [s]. *)
Definition dc_remaining (e : goerror) (s : dataChannelByteStream T) (bs : bytes) : Prop :=
  bs = readPending s ++ mjoin (mt_in (transport s)) ∧
  Forall sctp_message (mt_in (transport s)) ∧
  (readErr s = None ∧ e = mt_error (transport s) ∨
   readErr s = Some e ∧ mt_in (transport s) = []).

Lemma dc_Read_remaining e s bs n :
  dc_remaining e s bs → (0 < n)%nat →
  ∃ d err s', dc_Read s n = (d, err, s') ∧
    ((bs = [] ∧ d = [] ∧ err = Some e) ∨
     (err = None ∧ d ≠ [] ∧ (length d ≤ n)%nat ∧ ∃ bs', bs = d ++ bs' ∧ dc_remaining e s' bs')).
Proof.
  intros (Hbs & Hf & He) Hn. unfold dc_Read.
  destruct (Nat.eqb_spec n 0) as [|_]; [lia|].
  destruct (Nat.ltb_spec 0 (length (readPending s))) as [Hp|Hp].
  { eexists _, _, _. split; [done|]. right. split_and!; [done| |rewrite length_take; lia|].
    - intros E%(f_equal length). rewrite length_take in E. cbn in E. lia.
    - exists (drop n (readPending s) ++ mjoin (mt_in (transport s))). split.
      + by rewrite app_assoc, take_drop.
      + by split_and!. }
  assert (Hp0 : readPending s = []) by (destruct (readPending s); [done|cbn in Hp; lia]).
  rewrite Hp0 in *. cbn in Hbs.
  destruct He as [[Her ->]|[Her Hin]]; rewrite Her; [|rewrite Hin in Hbs; by eexists _, _, _; split; [|left]].
  destruct (mt_in (transport s)) as [|m q] eqn:Hin.
  - pose proof (mt_read_end _ (Z.to_nat dataChannelStreamChunkSize) Hin) as E.
    destruct (Read (transport s) _) as [[d err] t]. cbn in E. injection E as -> ->.
    eexists _, _, _. split; [done|]. by left.
  - apply Forall_cons in Hf as [Hm Hf]. unfold sctp_message, blen in Hm.
    destruct (mt_read _ (Z.to_nat dataChannelStreamChunkSize) _ _ Hin) as
      (err & t' & -> & Hin' & He' & Herr); [lia|].
    destruct (Nat.eqb_spec (length m) 0); [lia|].
    eexists _, _, _. split; [done|]. right. split_and!; [done| |rewrite length_take; lia|].
    + intros E%(f_equal length). rewrite length_take in E. cbn in E. lia.
    + exists (drop n m ++ mjoin q). split.
      { by rewrite Hbs, mjoin_cons, app_assoc, take_drop. }
      unfold dc_remaining. cbn [transport readPending readErr]. rewrite Hin', He'. split_and!; [|done|].
      * f_equal. destruct (Nat.ltb_spec (n `min` length m) (length m)).
        -- by rewrite Nat.min_l by lia.
        -- by rewrite drop_ge by lia.
      * destruct Herr as [->|[-> ->]]; [by left|by right].
Qed.

Lemma dc_remaining_delivers e s bs : dc_remaining e s bs → delivers e s bs.
Proof.
  remember (length bs) as len eqn:Hlen. revert s bs Hlen.
  induction (lt_wf len) as [len _ IH]. intros s bs -> Hp.
  destruct bs as [|b bs].
  - apply delivers_end. intros n Hn. unfold Read, dataChannel_reader.
    destruct (dc_Read_remaining e s [] n Hp Hn) as
      (d & err & s' & -> & [(_ & -> & ->)|(_ & Hd & _ & bs' & Hbs & _)]); [done|]. by destruct d.
  - apply delivers_data; [done| |]; intros n Hn; unfold Read, dataChannel_reader;
      destruct (dc_Read_remaining e s (b :: bs) n Hp Hn) as
        (d & err & s' & -> & [(? & _)|(-> & Hd & Hl & bs' & Hbs & Hp')]);
      [done| |done|]; cbn [fst snd]; rewrite Hbs.
    + split_and!; [done|done|done|by eexists].
    + rewrite drop_app_length. eapply IH; [|done|done].
      rewrite Hbs, length_app. destruct d; [done|cbn; lia].
Qed.
End DCFacts.

(** A data channel carries a byte stream.  When one side's writes [ps]
    return no error, each has reported all its bytes and every SCTP message it
    sent holds between 1 byte and 16 KiB, so no read of the other side can
    hit a short buffer: [Read] there, with buffers of any sizes, returns
    the concatenation of [ps] in order and then the channel's error, also
    when the channel reports the error together with its last message. *)
Theorem datachannel_stream {A B} `{MessageTransport A} `{MessageTransport B}
    (a a' : dataChannelByteStream A) (b : B) (ps : list bytes)
    (results : list (Z * option goerror)) :
  write_each a ps = (results, a') → Forall (λ r, r.2 = None) results →
  mt_in b = drop (length (mt_out (transport a))) (mt_out (transport a')) →
  results = (λ p, (blen p, None)) <$> ps ∧
  Forall sctp_message (mt_in b) ∧
  delivers (mt_error b) (newDataChannelByteStream b) (mjoin ps).
Proof.
  intros Hw Hok Hb. destruct (dc_writes_sent _ _ _ _ Hw Hok) as (Hr & chunks & Ho & Hj & Hf).
  rewrite Ho, drop_app_length in Hb. split_and!; [done|by rewrite Hb|].
  apply dc_remaining_delivers. unfold dc_remaining. cbn. rewrite Hb.
  split_and!; [done|done|]. by left.
Qed.

(** *** Concrete transports *)

Module WireSample.
Record wire := { w_queue : list (Z * bytes); w_open : bytes; w_kind : Z; w_buf : bytes;
                 w_out : list (Z * bytes) }.

#[export] Instance wire_conn : WebsocketConn wire := {|
  NextReader := λ c, match w_queue c with
    | [] => (inr (Sentinel "close 1006"), c)
    | (t, m) :: q => (inl t, {| w_queue := q; w_open := m; w_kind := w_kind c;
                                w_buf := w_buf c; w_out := w_out c |})
    end;
  MessageRead := λ c n, match w_open c with
    | [] => ([], Some io_EOF, c)
    | _ => (take n (w_open c), None,
            {| w_queue := w_queue c; w_open := drop n (w_open c); w_kind := w_kind c;
               w_buf := w_buf c; w_out := w_out c |})
    end;
  NextWriter := λ c t, (None, {| w_queue := w_queue c; w_open := w_open c; w_kind := t;
                                 w_buf := []; w_out := w_out c |});
  MessageWrite := λ c p, (blen p, None,
    {| w_queue := w_queue c; w_open := w_open c; w_kind := w_kind c; w_buf := w_buf c ++ p;
       w_out := w_out c |});
  MessageClose := λ c, (None,
    {| w_queue := w_queue c; w_open := w_open c; w_kind := w_kind c; w_buf := [];
       w_out := w_out c ++ [(w_kind c, w_buf c)] |}) |}.

#[export] Instance wire_laws : WebsocketLaws wire.
Proof.
  refine {| ws_open := w_open; ws_queue := w_queue; ws_out := w_out;
            ws_error := λ _, Sentinel "close 1006" |}; cbn.
  - intros c t m q E. rewrite E. by eexists.
  - intros c E. by rewrite E.
  - intros c n Hn. destruct (w_open c) as [|b o] eqn:E.
    + exists [], (Some io_EOF), c. split_and!; [done..|cbn; lia|]. by right.
    + eexists _, _, _. split_and!; [done..| | |].
      * cbn [w_open]. by rewrite take_drop.
      * rewrite length_take. lia.
      * left. split; [done|]. by destruct n; [lia|].
  - intros c c1 c2 c3 t p n [= <-] [= _ <-] _ [= <-]. done.
Defined.

Record channel := { ch_in : list bytes; ch_out : list bytes }.
#[export] Instance channel_reader : Reader channel := λ c n,
  match ch_in c with
  | [] => ([], Some io_EOF, c)
  | m :: q => if (length m <=? n)%nat then (m, None, {| ch_in := q; ch_out := ch_out c |})
              else ([], Some (Sentinel "short buffer"), c)
  end.
#[export] Instance channel_writer : Writer channel := λ c p,
  (blen p, None, {| ch_in := ch_in c; ch_out := ch_out c ++ [p] |}).
#[export] Instance channel_laws : MessageTransport channel.
Proof.
  refine {| mt_in := ch_in; mt_out := ch_out; mt_error := λ _, io_EOF |};
    unfold Read, Write, channel_reader, channel_writer.
  - intros t n m q E Hn. rewrite E. destruct (Nat.leb_spec (length m) n); [|lia].
    eexists _, _. split_and!; [done..|]. by left.
  - intros t n E. by rewrite E.
  - intros t p n t'. by intros [= <- <-].
Defined.

Definition idle_wire : wire :=
  {| w_queue := []; w_open := []; w_kind := 0; w_buf := []; w_out := [(2, [x09])] |}.
Definition writes : list bytes := [[x01; x02]; []; [x03; x04; x05]].
Definition peer_wire : wire :=
  {| w_queue := (binary <$> writes) ++ [(1, [x06])]; w_open := []; w_kind := 0; w_buf := [];
     w_out := [] |}.

(** One write of more than 16 KiB among small ones. *)
Definition big_writes : list bytes := [[x01; x02]; replicate (Z.to_nat 16390) x07; []; [x03]].
Definition idle_channel : channel := {| ch_in := []; ch_out := [] |}.
Definition peer_channel : channel :=
  {| ch_in := [[x01; x02]; replicate (Z.to_nat 16384) x07; replicate 6 x07; [x03]]; ch_out := [] |}.
End WireSample.
Import WireSample.

Lemma websocket_stream_witness :
  ∃ results a', write_each (NewWSConn WireSample.idle_wire) WireSample.writes = (results, a') ∧
  results = (λ p, (blen p, None)) <$> WireSample.writes ∧
  delivers (H := λ w n, ws_Read 5 w n)
    (Errorf "unexpected websocket message type: %d" [AInt 1])
    (NewWSConn WireSample.peer_wire) [x01; x02; x03; x04; x05].
Proof.
  destruct (write_each (NewWSConn WireSample.idle_wire) WireSample.writes) as [results a'] eqn:E.
  exists results, a'. split; [done|].
  apply (websocket_stream (NewWSConn WireSample.idle_wire) a' WireSample.peer_wire
    WireSample.writes results [(1, [x06])] 5).
  - exact E.
  - vm_compute in E. injection E as <- _. by repeat constructor.
  - vm_compute in E. injection E as _ <-. reflexivity.
  - by intros t m [= <- _].
  - cbn. lia.
Defined.

Lemma datachannel_stream_witness :
  ∃ results a',
    write_each (newDataChannelByteStream WireSample.idle_channel) WireSample.big_writes
      = (results, a') ∧
    delivers io_EOF (newDataChannelByteStream WireSample.peer_channel)
      (mjoin WireSample.big_writes).
Proof.
  destruct (write_each (newDataChannelByteStream WireSample.idle_channel) WireSample.big_writes)
    as [results a'] eqn:E.
  exists results, a'. split; [done|].
  refine (proj2 (proj2 (datachannel_stream (newDataChannelByteStream WireSample.idle_channel) a'
    WireSample.peer_channel WireSample.big_writes results _ _ _))).
  - exact E.
  - vm_compute in E. injection E as <- _. by repeat constructor.
  - vm_compute in E. injection E as _ <-. vm_compute. reflexivity.
Defined.
