(* ===== verification/GoNet.v ===== *)
(** Go's [net.IP] and [net.IPNet] as the program uses them: an address is its
    4 or 16 bytes. *)
From Stdlib Require Import ZArith Lia Ascii String Strings.Byte.
From stdpp Require Import base tactics numbers list gmap strings pretty.
From S2P Require Import Prelude GoStrings GoIO.

Abbreviation IP := bytes.

(** The prefix of IPv4 addresses in their 16 byte form. *)
Definition v4InV6Prefix : bytes := replicate 10 x00 ++ [xff; xff].

(** [ip.To4()] and [ip.To16()], [None] for nil. *)
Definition To4 (ip : IP) : option IP :=
  if (length ip =? 4)%nat then Some ip
  else if (length ip =? 16)%nat && bool_decide (take 12 ip = v4InV6Prefix)
  then Some (drop 12 ip) else None.

Definition To16 (ip : IP) : option IP :=
  if (length ip =? 4)%nat then Some (v4InV6Prefix ++ ip)
  else if (length ip =? 16)%nat then Some ip else None.

(** *** [ip.String()] *)

Definition ipv4_string (ip : IP) : string :=
  strings_join ((λ b, pretty (Byte.to_N b)) <$> ip) ".".

Definition hex_digit (d : Z) : ascii :=
  ascii_of_N (Z.to_N (if d <? 10 then 48 + d else 87 + d)).

(** Lower case hexadecimal without leading zeros, for numbers below 65536. *)
Fixpoint hex_string_from (fuel : nat) (z : Z) (acc : string) : string :=
  match fuel with
  | O => acc
  | S fuel' =>
      let acc := String (hex_digit (z mod 16)) acc in
      if z / 16 =? 0 then acc else hex_string_from fuel' (z / 16) acc
  end.
Definition hex_string (z : Z) : string := hex_string_from 4 z "".

Fixpoint ipv6_groups (ip : IP) : list Z :=
  match ip with
  | a :: b :: rest => uint16_of [a; b] :: ipv6_groups rest
  | _ => []
  end.

Fixpoint leading_zeros (groups : list Z) : nat :=
  match groups with
  | 0 :: rest => S (leading_zeros rest)
  | _ => O
  end.

(** Start and length of the first longest run of at least two zero groups. *)
Fixpoint zero_run (i : nat) (groups : list Z) (best : nat * nat) : nat * nat :=
  match groups with
  | [] => best
  | _ :: rest =>
      let l := leading_zeros groups in
      zero_run (S i) rest (if ((2 <=? l) && (best.2 <? l))%nat then (i, l) else best)
  end.

Definition ipv6_string (ip : IP) : string :=
  let groups := ipv6_groups ip in
  let '(start, len) := zero_run 0 groups (0, 0)%nat in
  if (len =? 0)%nat then strings_join (hex_string <$> groups) ":"
  else strings_join (hex_string <$> take start groups) ":" +:+ "::"
       +:+ strings_join (hex_string <$> drop (start + len) groups) ":".

(** On addresses of 4 and 16 bytes, the lengths the program has. *)
Definition IP_String (ip : IP) : string :=
  match To4 ip with
  | Some ip4 => ipv4_string ip4
  | None => ipv6_string ip
  end.

Example ipv4_string_ex : IP_String [xc0; xa8; x00; x01] = "192.168.0.1"%string.
Proof. vm_compute. reflexivity. Qed.
Example ipv6_string_ex :
  IP_String [x20; x01; x0d; xb8; x00; x00; x00; x00; x00; x01; x00; x00; x00; x00; x00; x01]
  = "2001:db8::1:0:0:1"%string.
Proof. vm_compute. reflexivity. Qed.
Example ipv6_loopback_ex : IP_String (replicate 15 x00 ++ [x01]) = "::1"%string.
Proof. vm_compute. reflexivity. Qed.
Example ipv4_mapped_ex : IP_String (v4InV6Prefix ++ [x0a; x00; x00; x01]) = "10.0.0.1"%string.
Proof. vm_compute. reflexivity. Qed.

(** *** [net.IPNet] *)

Record IPNet := { net_IP : IP; net_Mask : bytes }.

Definition and_bytes (a b : bytes) : list Z :=
  zip_with (λ x y, Z.land (Z_of_byte x) (Z_of_byte y)) a b.

Definition networkNumberAndMask (n : IPNet) : option (IP * bytes) :=
  ip ← match To4 (net_IP n) with
       | Some ip4 => Some ip4
       | None => if (length (net_IP n) =? 16)%nat then Some (net_IP n) else None
       end;
  if (length (net_Mask n) =? 4)%nat then
    if (length ip =? 4)%nat then Some (ip, net_Mask n) else None
  else if (length (net_Mask n) =? 16)%nat then
    Some (ip, if (length ip =? 4)%nat then drop 12 (net_Mask n) else net_Mask n)
  else None.

(** [n.Contains(ip)] *)
Definition IPNet_Contains (n : IPNet) (ip : IP) : bool :=
  match networkNumberAndMask n with
  | None => (length ip =? 0)%nat
  | Some (nn, m) =>
      let ip := match To4 ip with Some x => x | None => ip end in
      (length ip =? length nn)%nat && bool_decide (and_bytes nn m = and_bytes ip m)
  end.

Example contains_ex :
  let cidr := {| net_IP := [x0a; x00; x00; x00]; net_Mask := [xff; x00; x00; x00] |} in
  IPNet_Contains cidr (v4InV6Prefix ++ [x0a; x07; x00; x01]) = true ∧
  IPNet_Contains cidr [x0b; x00; x00; x01] = false.
Proof. vm_compute. done. Qed.

(** *** [net.ParseIP] *)

Definition is_digit (c : ascii) : bool :=
  let n := N_of_ascii c in (48 <=? n)%N && (n <=? 57)%N.

Definition digit_value (c : ascii) : Z := Z.of_N (N_of_ascii c) - 48.

(** The value of a string of decimal digits. *)
Definition decimal_value (s : string) : Z :=
  foldl (λ v c, v * 10 + digit_value c) 0 (String.list_ascii_of_string s).

(** A field of a dotted address: no leading zero, at most 255. *)
Definition ipv4_field (s : string) : option byte :=
  if (0 <? strlen s) && all_bytes is_digit s
     && ((strlen s =? 1) || negb (has_prefix s "0")) && (decimal_value s <=? 255)
  then Some (byte_of_Z (decimal_value s)) else None.

Definition parseIPv4 (s : string) : option bytes :=
  if (length (split_byte "." s) =? 4)%nat then mapM ipv4_field (split_byte "." s) else None.

Definition hex_value (c : ascii) : option Z :=
  let n := Z.of_N (N_of_ascii c) in
  if is_digit c then Some (n - 48)
  else if (97 <=? n) && (n <=? 102) then Some (n - 87)
  else if (65 <=? n) && (n <=? 70) then Some (n - 55) else None.

(** The leading hexadecimal digits: how many, their value, and the rest. *)
Fixpoint span_hex (s : string) (count : nat) (acc : Z) : nat * Z * string :=
  match s with
  | String c s' =>
      match hex_value c with
      | Some d => span_hex s' (S count) (acc * 16 + d)
      | None => (count, acc, s)
      end
  | EmptyString => (count, acc, s)
  end.

(** The groups of an IPv6 address, each up to four digits, with the position
    of the ellipsis if there was one; [fuel] groups have room. *)
Fixpoint ipv6_groups_of (fuel : nat) (s : string) (ip : bytes) (ellipsis : option nat)
  : option (bytes * option nat) :=
  match fuel with
  | O => if s =?s "" then Some (ip, ellipsis) else None
  | S fuel =>
      let '(count, acc, rest) := span_hex s 0 0 in
      if (count =? 0)%nat || (4 <? count)%nat then None else
      match rest with
      | EmptyString => Some (ip ++ put_uint16 acc, ellipsis)
      | String "." _ =>
          if (bool_decide (ellipsis = None) && negb (length ip =? 12)%nat)
             || (16 <? length ip + 4)%nat then None
          else ip4 ← parseIPv4 s; Some (ip ++ ip4, ellipsis)
      | String ":" EmptyString => None
      | String ":" (String ":" rest) =>
          let ip := ip ++ put_uint16 acc in
          match ellipsis with
          | Some _ => None
          | None => if rest =?s "" then Some (ip, Some (length ip))
                    else ipv6_groups_of fuel rest ip (Some (length ip))
          end
      | String ":" rest => ipv6_groups_of fuel rest (ip ++ put_uint16 acc) ellipsis
      | String _ _ => None
      end
  end.

Definition expand_ellipsis (ip : bytes) (ellipsis : option nat) : option bytes :=
  if (length ip <? 16)%nat then
    match ellipsis with
    | Some e => Some (take e ip ++ replicate (16 - length ip) x00 ++ drop e ip)
    | None => None
    end
  else match ellipsis with Some _ => None | None => Some ip end.

Definition parseIPv6 (s : string) : option bytes :=
  match s with
  | String ":" (String ":" rest) =>
      if rest =?s "" then Some (replicate 16 x00)
      else '(ip, e) ← ipv6_groups_of 8 rest [] (Some 0%nat); expand_ellipsis ip e
  | _ => '(ip, e) ← ipv6_groups_of 8 s [] None; expand_ellipsis ip e
  end.

(** [net.ParseIP(s)], [None] for nil; a zone is refused.  The first of the
    bytes [.] and [:] decides the family. *)
Definition ParseIP (s : string) : option IP :=
  if has_byte "%" s then None else
  match cut_byte ":" s with
  | Some (before, _) =>
      if has_byte "." before then None else parseIPv6 s
  | None => ip ← parseIPv4 s; Some (v4InV6Prefix ++ ip)
  end.

Example ParseIP_ex :
  ParseIP "192.168.0.1" = Some (v4InV6Prefix ++ [xc0; xa8; x00; x01]) ∧
  ParseIP "::1" = Some (replicate 15 x00 ++ [x01]) ∧
  ParseIP "2001:db8::1:0:0:1" =
    Some [x20; x01; x0d; xb8; x00; x00; x00; x00; x00; x01; x00; x00; x00; x00; x00; x01] ∧
  ParseIP "::ffff:10.0.0.1" = Some (v4InV6Prefix ++ [x0a; x00; x00; x01]) ∧
  ParseIP "1::" = Some ([x00; x01] ++ replicate 14 x00).
Proof. vm_compute. done. Qed.
Example ParseIP_bad_ex :
  ParseIP "1.2.3" = None ∧ ParseIP "1.2.3.04" = None ∧ ParseIP "1.2.3.256" = None ∧
  ParseIP "1:2:3:4:5:6:7:8:9" = None ∧ ParseIP "1::2::3" = None ∧ ParseIP ":1" = None ∧
  ParseIP "1:" = None ∧ ParseIP "fe80::1%eth0" = None ∧ ParseIP "12345::" = None ∧
  ParseIP "1:2:3:4:5:6:7::8" = None ∧
  ParseIP "a.b:c" = None ∧ ParseIP "" = None.
Proof. vm_compute. done. Qed.

(** *** [net.SplitHostPort] *)

(** Host and port, [None] for an error. *)
Definition SplitHostPort (hostport : string) : option (string * string) :=
  '(before, port) ← cut_last_byte ":" hostport;
  match hostport with
  | String "[" rest =>
      '(host, after) ← cut_byte "]" rest;
      (* the first [ ] ] is just before the last colon *)
      if (String.length after =? S (String.length port))%nat && has_prefix after ":" then
        if has_byte "[" rest || has_byte "]" after then None else Some (host, port)
      else None
  | _ =>
      if has_byte ":" before || has_byte "[" hostport || has_byte "]" hostport then None
      else Some (before, port)
  end.

Example SplitHostPort_ex :
  SplitHostPort "a.b:80" = Some ("a.b", "80")%string ∧
  SplitHostPort "[::1]:443" = Some ("::1", "443")%string ∧
  SplitHostPort "a.b" = None ∧ SplitHostPort "::1" = None ∧ SplitHostPort "[::1]" = None ∧
  SplitHostPort "[::1]x:1" = None ∧ SplitHostPort "a]:1" = None ∧ SplitHostPort "a:" = Some ("a", "")%string.
Proof. vm_compute. done. Qed.
