(* ===== verification/GoCIDR.v ===== *)
(** Go's [net.ParseCIDR] and [IPNet.String] as the program uses them, and that
    the second writes what the first reads. *)
From Stdlib Require Import ZArith Lia Ascii String Strings.Byte.
From stdpp Require Import base tactics numbers list gmap strings pretty.
From S2P Require Import Prelude GoStrings GoIO GoNet.

(** [netip.ParseAddr(s)] without zone: 4 or 16 bytes, so an IPv4 address
    mapped into IPv6 has 16. *)
Definition ParseAddr (s : string) : option bytes :=
  if has_byte "%" s then None else
  match cut_byte ":" s with
  | Some (before, _) => if has_byte "." before then None else parseIPv6 s
  | None => parseIPv4 s
  end.

(** [net.dtoi(s)] when it consumes all of [s]. *)
Definition dtoi (s : string) : option Z :=
  if (0 <? strlen s) && all_bytes is_digit s && (decimal_value s <? 16777215)
  then Some (decimal_value s) else None.

(** [net.CIDRMask(ones, 8 * count)] for [0 <= ones <= 8 * count] *)
Fixpoint CIDRMask (count : nat) (ones : Z) : bytes :=
  match count with
  | O => []
  | S count =>
      if 8 <=? ones then xff :: CIDRMask count (ones - 8)
      else byte_of_Z (Z.lxor 255 (Z.shiftr 255 ones)) :: CIDRMask count 0
  end.

Definition mask_with (ip mask : bytes) : bytes :=
  zip_with (λ x y, byte_of_Z (Z.land (Z_of_byte x) (Z_of_byte y))) ip mask.

(** [ip.Mask(mask)] for a 16 byte address; [None] for nil. *)
Definition IP_Mask (ip : IP) (mask : bytes) : option IP :=
  let ip := if (length mask =? 4)%nat && (length ip =? 16)%nat
               && bool_decide (take 12 ip = v4InV6Prefix)
            then drop 12 ip else ip in
  if (length ip =? length mask)%nat then Some (mask_with ip mask) else None.

(** The network of [net.ParseCIDR(s)], [None] for an error. *)
Definition ParseCIDR (s : string) : option IPNet :=
  '(addr, mask) ← cut_byte "/" s;
  ipAddr ← ParseAddr addr;
  n ← dtoi mask;
  if 8 * Z.of_nat (length ipAddr) <? n then None else
  let m := CIDRMask (length ipAddr) n in
  addr16 ← To16 ipAddr;
  network ← IP_Mask addr16 m;
  Some {| net_IP := network; net_Mask := m |}.

(** [net.simpleMaskLength(mask)] for a mask of leading ones; [-1] otherwise. *)
Definition leading_ones (v : Z) : Z :=
  if Z.testbit v 7 then if Z.testbit v 6 then if Z.testbit v 5 then if Z.testbit v 4 then
  if Z.testbit v 3 then if Z.testbit v 2 then if Z.testbit v 1 then if Z.testbit v 0
  then 8 else 7 else 6 else 5 else 4 else 3 else 2 else 1 else 0.

Fixpoint simpleMaskLength (mask : bytes) : Z :=
  match mask with
  | [] => 0
  | v :: rest =>
      if Z_of_byte v =? 255 then
        let n := simpleMaskLength rest in if n =? -1 then -1 else 8 + n
      else
        let n := leading_ones (Z_of_byte v) in
        if (Z.land (Z.shiftl (Z_of_byte v) n) 255 =? 0) && forallb (λ b, Z_of_byte b =? 0) rest
        then n else -1
  end.

(** [mask.String()]: two hexadecimal digits for each byte. *)
Definition IPMask_String (mask : bytes) : string :=
  if (length mask =? 0)%nat then "<nil>" else
  foldr (λ b acc, String (hex_digit (Z_of_byte b / 16)) (String (hex_digit (Z_of_byte b mod 16)) acc))
        "" mask.

(** [n.String()] *)
Definition IPNet_String (n : IPNet) : string :=
  match networkNumberAndMask n with
  | None => "<nil>"
  | Some (nn, m) =>
      let l := simpleMaskLength m in
      IP_String nn +:+ "/" +:+ (if l =? -1 then IPMask_String m else pretty l)
  end.

Example ParseCIDR_ex :
  (IPNet_String <$> ParseCIDR "10.1.2.3/8") = Some "10.0.0.0/8"%string ∧
  (IPNet_String <$> ParseCIDR "0.0.0.0/0") = Some "0.0.0.0/0"%string ∧
  (IPNet_String <$> ParseCIDR "::/0") = Some "::/0"%string ∧
  (IPNet_String <$> ParseCIDR "2001:db8:0:1::7/60") = Some "2001:db8::/60"%string ∧
  (IPNet_String <$> ParseCIDR "::ffff:10.1.2.3/104") = Some "10.0.0.0/8"%string ∧
  (IPNet_String <$> ParseCIDR "::ffff:10.1.2.3/90") = Some "::ffc0:0:0/90"%string ∧
  ParseCIDR "10.0.0.0/33" = None ∧ ParseCIDR "10.0.0.0" = None ∧ ParseCIDR "10.0.0.0/" = None ∧
  ParseCIDR "::1%eth0/64" = None ∧ ParseCIDR "10.0.0.0/+8" = None ∧
  (IPNet_String <$> ParseCIDR "10.0.0.0/08") = Some "10.0.0.0/8"%string.
Proof. vm_compute. done. Qed.

(** ** Writing an address and reading it back *)

Lemma ipv4_field_pretty b : ipv4_field (pretty (Byte.to_N b)) = Some b.
Proof. destruct b; vm_compute; reflexivity. Qed.

Lemma pretty_byte_digits b : all_bytes is_digit (pretty (Byte.to_N b)) = true.
Proof. destruct b; vm_compute; reflexivity. Qed.

Definition digit_or_dot (c : ascii) : bool := is_digit c || Ascii.eqb c ".".

Lemma ipv4_string_bytes ip : all_bytes digit_or_dot (ipv4_string ip) = true.
Proof.
  apply join_all_bytes; [done|]. apply Forall_fmap, Forall_true. intros b. cbn.
  eapply all_bytes_impl, pretty_byte_digits. intros c Hc. unfold digit_or_dot. by rewrite Hc.
Qed.

Lemma parseIPv4_string ip : length ip = 4%nat → parseIPv4 (ipv4_string ip) = Some ip.
Proof.
  intros Hl. unfold parseIPv4, ipv4_string. rewrite split_join.
  - rewrite length_fmap, Hl. cbn [Nat.eqb].
    clear Hl. induction ip as [|b ip IH]; [done|]. cbn. rewrite ipv4_field_pretty. cbn.
    by setoid_rewrite IH.
  - by destruct ip.
  - apply Forall_fmap, Forall_true. intros b. cbn.
    eapply has_byte_all_bytes; [apply pretty_byte_digits|done].
Qed.

Lemma cut_byte_app c s t : has_byte c s = false → cut_byte c (s +:+ String c t) = Some (s, t).
Proof.
  induction s as [|d s IH].
  - intros _. change ("" +:+ String c t) with (String c t). cbn. by rewrite Ascii.eqb_refl.
  - cbn [has_byte]. intros [Hd Hs]%orb_false_iff. rewrite append_cons. cbn [cut_byte].
    by rewrite Hd, IH.
Qed.

Lemma ParseAddr_ipv4 ip : length ip = 4%nat → ParseAddr (ipv4_string ip) = Some ip.
Proof.
  intros Hl. unfold ParseAddr. pose proof (ipv4_string_bytes ip) as Hb.
  rewrite (has_byte_all_bytes _ "%" _ Hb) by done.
  rewrite (proj2 (cut_byte_None ":" _)) by by eapply has_byte_all_bytes.
  by apply parseIPv4_string.
Qed.

(** *** IPv6 *)

Definition is_hex (c : ascii) : bool := bool_decide (is_Some (hex_value c)).
Definition group (z : Z) : Prop := 0 ≤ z < 65536.

Lemma hex_value_digit d : 0 ≤ d < 16 → hex_value (hex_digit d) = Some d.
Proof.
  intros Hd. assert (d ∈ seqZ 0 16) as Hin by (apply elem_of_seqZ; lia). clear Hd.
  revert d Hin. apply Forall_forall. repeat (constructor; [reflexivity|]). constructor.
Qed.

(** A number below [16 ^ fuel] is written in at most [fuel] digits, which
    reading turns back into the number. *)
Lemma hex_string_from_spec fuel z acc :
  0 ≤ z < 16 ^ Z.of_nat (S fuel) →
  ∃ s n, hex_string_from (S fuel) z acc = s +:+ acc ∧ (1 ≤ n ≤ S fuel)%nat ∧
    all_bytes is_hex s = true ∧
    ∀ c a rest, span_hex (s +:+ rest) c a = span_hex rest (c + n) (a * 16 ^ Z.of_nat n + z).
Proof.
  revert z acc. induction fuel as [|fuel IH]; intros z acc Hz;
    pose proof (Z.mod_pos_bound z 16 ltac:(lia)) as Hd; pose proof (hex_value_digit _ Hd) as Hv;
    pose proof (Z.div_mod z 16 ltac:(lia)) as Hdm;
    assert (Hone : ∀ c a rest, span_hex (String (hex_digit (z mod 16)) rest) c a
                               = span_hex rest (S c) (a * 16 + z mod 16))
      by (intros; cbn [span_hex]; by rewrite Hv);
    assert (Hhex : is_hex (hex_digit (z mod 16)) = true)
      by (apply bool_decide_eq_true; rewrite Hv; by eexists).
  - change (16 ^ Z.of_nat 1) with 16 in Hz. rewrite Z.mod_small in * by lia.
    exists (String (hex_digit z) ""), 1%nat. cbn [hex_string_from].
    rewrite Z.div_small, Z.mod_small by lia. cbn [Z.eqb all_bytes].
    split_and!; [done|lia|lia|by rewrite Hhex|]. intros c a rest.
    rewrite append_cons. change ("" +:+ rest) with rest. rewrite Hone. f_equal; lia.
  - change (hex_string_from (S (S fuel)) z acc) with
      (if z / 16 =? 0 then String (hex_digit (z mod 16)) acc
       else hex_string_from (S fuel) (z / 16) (String (hex_digit (z mod 16)) acc)).
    destruct (Z.eqb_spec (z / 16) 0) as [E|E].
    + exists (String (hex_digit (z mod 16)) ""), 1%nat. cbn [all_bytes].
      split_and!; [done|lia|lia|by rewrite Hhex|]. intros c a rest.
      rewrite append_cons. change ("" +:+ rest) with rest. rewrite Hone. f_equal; lia.
    + destruct (IH (z / 16) (String (hex_digit (z mod 16)) acc)) as (s & n & -> & Hn & Hs & Hr).
      { rewrite Nat2Z.inj_succ, Z.pow_succ_r in Hz by lia.
        split; [apply Z.div_pos|apply Z.div_lt_upper_bound]; lia. }
      exists (s +:+ String (hex_digit (z mod 16)) ""), (S n).
      rewrite <- string_app_assoc, all_bytes_app, Hs. cbn [all_bytes].
      split_and!; [done|lia|lia|by rewrite Hhex|]. intros c a rest.
      rewrite <- string_app_assoc, append_cons. change ("" +:+ rest) with rest.
      rewrite Hr, Hone, Nat2Z.inj_succ, Z.pow_succ_r by lia. f_equal; lia.
Qed.

(** [rest] does not continue a group. *)
Definition stops (rest : string) : Prop :=
  match rest with EmptyString => True | String c _ => hex_value c = None end.

Lemma span_stops rest c a : stops rest → span_hex rest c a = (c, a, rest).
Proof. destruct rest as [|d rest]; [done|]. cbn. by intros ->. Qed.

Lemma hex_string_spec z :
  group z →
  ∃ n, (1 ≤ n ≤ 4)%nat ∧ all_bytes is_hex (hex_string z) = true ∧
    ∀ rest, stops rest → span_hex (hex_string z +:+ rest) 0 0 = (n, z, rest).
Proof.
  intros Hz. destruct (hex_string_from_spec 3 z "" Hz) as (s & n & E & Hn & Hs & Hr).
  exists n. unfold hex_string. rewrite E, string_app_nil_r. split_and!; [lia|lia|done|].
  intros rest Hrest. by rewrite Hr, span_stops by done.
Qed.

#[local] Arguments hex_string z : simpl never.

Definition group_bytes (gs : list Z) : bytes := mjoin (put_uint16 <$> gs).
Definition groups_string (gs : list Z) : string := strings_join (hex_string <$> gs) ":".

Lemma ipv6_groups_of_step fuel z rest ip e :
  group z → stops rest →
  ipv6_groups_of (S fuel) (hex_string z +:+ rest) ip e =
  match rest with
  | EmptyString => Some (ip ++ put_uint16 z, e)
  | String "." _ =>
      if (bool_decide (e = None) && negb (length ip =? 12)%nat) || (16 <? length ip + 4)%nat
      then None else ip4 ← parseIPv4 (hex_string z +:+ rest); Some (ip ++ ip4, e)
  | String ":" EmptyString => None
  | String ":" (String ":" rest) =>
      match e with
      | Some _ => None
      | None => if rest =?s "" then Some (ip ++ put_uint16 z, Some (length (ip ++ put_uint16 z)))
                else ipv6_groups_of fuel rest (ip ++ put_uint16 z) (Some (length (ip ++ put_uint16 z)))
      end
  | String ":" rest => ipv6_groups_of fuel rest (ip ++ put_uint16 z) e
  | String _ _ => None
  end.
Proof.
  intros Hz Hr. destruct (hex_string_spec z Hz) as (n & Hn & _ & Hs).
  cbn [ipv6_groups_of]. rewrite (Hs _ Hr).
  destruct (Nat.eqb_spec n 0); [lia|]. destruct (Nat.ltb_spec 4 n); [lia|]. done.
Qed.

(** A formatted group starts with a digit, so neither with a dot nor a colon. *)
Lemma hex_string_cons z :
  group z → ∃ c s, hex_string z = String c s ∧ is_hex c = true.
Proof.
  intros Hz. destruct (hex_string_spec z Hz) as (n & Hn & Hh & Hs).
  destruct (hex_string z) as [|c s] eqn:E.
  - pose proof (Hs "" I) as H. cbn in H. injection H. lia.
  - exists c, s. split; [done|]. cbn in Hh. by apply andb_true_iff in Hh as [? _].
Qed.

Lemma is_hex_not_colon c : is_hex c = true → c ≠ ":"%char.
Proof. by intros H ->. Qed.

Lemma groups_string_cons z gs :
  group z → ∃ c s, groups_string (z :: gs) = String c s ∧ is_hex c = true.
Proof.
  intros Hz. destruct (hex_string_cons z Hz) as (c & s & E & Hc). unfold groups_string. cbn.
  destruct gs as [|g gs]; cbn; rewrite E; [by eexists _, _|]. rewrite append_cons. by eexists _, _.
Qed.

(** Groups up to the end of the address or up to the ellipsis. *)
Lemma ipv6_groups_of_join gs fuel ip e :
  Forall group gs → gs ≠ [] → (length gs ≤ fuel)%nat →
  ipv6_groups_of fuel (groups_string gs) ip e = Some (ip ++ group_bytes gs, e).
Proof.
  intros Hgs. revert fuel ip. induction Hgs as [|z gs Hz Hgs IH]; intros fuel ip Hne Hf; [done|].
  destruct fuel as [|fuel]; [cbn in Hf; lia|]. cbn in Hf. destruct gs as [|g gs].
  - change (groups_string [z]) with (hex_string z). rewrite <- (string_app_nil_r (hex_string z)).
    by rewrite ipv6_groups_of_step.
  - change (groups_string (z :: g :: gs)) with (hex_string z +:+ (String ":" (groups_string (g :: gs)))).
    rewrite ipv6_groups_of_step by done.
    destruct (groups_string_cons g gs) as (c & s & E & Hc); [by inversion Hgs|].
    specialize (IH fuel (ip ++ put_uint16 z) ltac:(done) ltac:(cbn in *; lia)).
    rewrite E in *.
    pose proof (is_hex_not_colon _ Hc).
    replace (group_bytes (z :: g :: gs)) with (put_uint16 z ++ group_bytes (g :: gs)) by done.
    rewrite app_assoc, <- IH.
    destruct c as [[] [] [] [] [] [] [] []]; done.
Qed.

Lemma ipv6_groups_of_ellipsis gs hs fuel ip :
  Forall group gs → Forall group hs → gs ≠ [] → (length gs + length hs ≤ fuel)%nat →
  ipv6_groups_of fuel (groups_string gs +:+ "::" +:+ groups_string hs) ip None
  = Some (ip ++ group_bytes gs ++ group_bytes hs, Some (length (ip ++ group_bytes gs))).
Proof.
  intros Hgs Hhs. revert fuel ip. induction Hgs as [|z gs Hz Hgs IH]; intros fuel ip Hne Hf; [done|].
  destruct fuel as [|fuel]; [cbn in Hf; lia|]. cbn in Hf. destruct gs as [|g gs].
  - change (groups_string [z]) with (hex_string z). change ("::" +:+ groups_string hs) with
      (String ":" (String ":" (groups_string hs))).
    rewrite ipv6_groups_of_step by done.
    change (group_bytes [z]) with (put_uint16 z ++ []). rewrite app_nil_r.
    destruct hs as [|h hs].
    + change (group_bytes []) with (@nil byte). by rewrite app_nil_r.
    + destruct (groups_string_cons h hs) as (c & s & E & Hc); [by inversion Hhs|].
      rewrite E. cbn [String.eqb]. rewrite <- E, ipv6_groups_of_join by (done || cbn in *; lia).
      by rewrite app_assoc.
  - change (groups_string (z :: g :: gs)) with (hex_string z +:+ (String ":" (groups_string (g :: gs)))).
    rewrite <- string_app_assoc, append_cons.
    rewrite ipv6_groups_of_step by done.
    destruct (groups_string_cons g gs) as (c & s & E & Hc); [by inversion Hgs|].
    specialize (IH fuel (ip ++ put_uint16 z) ltac:(done) ltac:(cbn in *; lia)).
    pose proof (is_hex_not_colon _ Hc).
    replace (group_bytes (z :: g :: gs)) with (put_uint16 z ++ group_bytes (g :: gs)) by done.
    rewrite <- (app_assoc (put_uint16 z)). rewrite !(app_assoc ip (put_uint16 z)).
    rewrite <- IH, E, append_cons. destruct c as [[] [] [] [] [] [] [] []]; done.
Qed.

(** The run that is left out of the text consists of zeros. *)
Definition zeros_at (gs : list Z) (run : nat * nat) : Prop :=
  run.2 = 0%nat ∨ ((1 ≤ run.2)%nat ∧ (run.1 + run.2 ≤ length gs)%nat ∧
                   take run.2 (drop run.1 gs) = replicate run.2 0).

Lemma leading_zeros_spec gs :
  (leading_zeros gs ≤ length gs)%nat ∧ take (leading_zeros gs) gs = replicate (leading_zeros gs) 0.
Proof.
  induction gs as [|z gs [IHl IHt]]; [done|]. destruct z; cbn; [|split; [lia|done]..].
  split; [lia|]. by rewrite IHt.
Qed.

Lemma zero_run_spec all i gs best :
  drop i all = gs → (i ≤ length all)%nat → zeros_at all best → zeros_at all (zero_run i gs best).
Proof.
  revert i best. induction gs as [|z gs IH]; intros i best Hd Hi Hb; [done|].
  assert (Hlt : (i < length all)%nat)
    by (apply (f_equal length) in Hd; rewrite length_drop in Hd; cbn in Hd; lia).
  cbn [zero_run]. apply IH; [|lia|].
  - rewrite <- Nat.add_1_r, <- drop_drop, Hd. done.
  - destruct (Nat.leb_spec 2 (leading_zeros (z :: gs))), (Nat.ltb_spec best.2 (leading_zeros (z :: gs)));
      cbn [andb]; try done.
    right. cbn [fst snd]. destruct (leading_zeros_spec (z :: gs)) as [Hl Ht].
    rewrite Hd, Ht. split_and!; [lia| |done].
    apply (f_equal length) in Hd. rewrite length_drop in Hd. lia.
Qed.

Lemma group_bytes_app gs hs : group_bytes (gs ++ hs) = group_bytes gs ++ group_bytes hs.
Proof. unfold group_bytes. by rewrite fmap_app, join_app. Qed.

Lemma group_bytes_zeros n : group_bytes (replicate n 0) = replicate (2 * n) x00.
Proof.
  induction n as [|n IH]; [done|].
  change (group_bytes (replicate (S n) 0)) with (put_uint16 0 ++ group_bytes (replicate n 0)).
  rewrite IH. replace (2 * S n)%nat with (S (S (2 * n))) by lia. done.
Qed.

Lemma length_group_bytes gs : length (group_bytes gs) = (2 * length gs)%nat.
Proof.
  induction gs as [|z gs IH]; [done|].
  change (group_bytes (z :: gs)) with (put_uint16 z ++ group_bytes gs).
  rewrite length_app, IH. cbn. lia.
Qed.

Lemma list_two_ind (P : bytes → Prop) :
  P [] → (∀ a, P [a]) → (∀ a b l, P l → P (a :: b :: l)) → ∀ l, P l.
Proof.
  intros H0 H1 H2. fix IH 1. intros [|a [|b l]]; [done|done|]. apply H2, IH.
Qed.

Lemma ipv6_groups_spec ip :
  Forall group (ipv6_groups ip) ∧ length (ipv6_groups ip) = (length ip / 2)%nat ∧
  (Nat.Even (length ip) → group_bytes (ipv6_groups ip) = ip).
Proof.
  induction ip as [|a|a b ip (IHg & IHl & IHb)] using list_two_ind.
  - split_and!; [constructor|done|done].
  - split_and!; [constructor|done|]. intros [k Hk]. cbn in Hk. lia.
  - cbn [ipv6_groups length]. rewrite IHl. split_and!.
    + constructor; [|done]. unfold group, uint16_of.
      pose proof (Z_of_byte_range a). pose proof (Z_of_byte_range b). lia.
    + replace (S (S (length ip))) with (length ip + 1 * 2)%nat by lia.
      rewrite Nat.div_add by lia. lia.
    + intros He. change (group_bytes (uint16_of [a; b] :: ipv6_groups ip))
        with (put_uint16 (uint16_of [a; b]) ++ group_bytes (ipv6_groups ip)).
      rewrite put_uint16_of, IHb; [done|]. destruct He as [k Hk]. exists (k - 1)%nat. lia.
Qed.

Lemma parseIPv6_groups s c rest :
  s = String c rest → is_hex c = true →
  parseIPv6 s = '(ip, e) ← ipv6_groups_of 8 s [] None; expand_ellipsis ip e.
Proof.
  intros -> Hc. pose proof (is_hex_not_colon _ Hc).
  destruct c as [[] [] [] [] [] [] [] []]; done.
Qed.

Lemma expand_at (p q : bytes) n :
  (0 < n)%nat → (length p + length q + n = 16)%nat →
  expand_ellipsis (p ++ q) (Some (length p)) = Some (p ++ replicate n x00 ++ q).
Proof.
  intros Hn Hl. unfold expand_ellipsis. rewrite length_app, take_app_length, drop_app_length.
  destruct (Nat.ltb_spec (length p + length q) 16); [|lia]. do 4 f_equal. lia.
Qed.

Lemma parseIPv6_string ip : length ip = 16%nat → parseIPv6 (ipv6_string ip) = Some ip.
Proof.
  intros Hl. destruct (ipv6_groups_spec ip) as (Hg & Hlen & Hb). rewrite Hl in *.
  specialize (Hb ltac:(by exists 8%nat)). change (16 / 2)%nat with 8%nat in Hlen.
  unfold ipv6_string. set (gs := ipv6_groups ip) in *. clearbody gs.
  assert (Hrun : zeros_at gs (zero_run 0 gs (0, 0)%nat)) by (apply zero_run_spec; [done|lia|by left]).
  destruct (zero_run 0 gs (0, 0)%nat) as [start len].
  destruct Hrun as [E|(Hn & Hle & Hz)]; cbn [fst snd] in *.
  - rewrite E. cbn [Nat.eqb]. destruct gs as [|g gs]; [done|].
    destruct (groups_string_cons g gs) as (c & s & Es & Hc); [by inversion Hg|].
    unfold groups_string in Es. rewrite (parseIPv6_groups _ _ _ Es Hc).
    fold (groups_string (g :: gs)).
    rewrite ipv6_groups_of_join by (done || lia). cbn [mbind option_bind].
    rewrite app_nil_l, Hb. unfold expand_ellipsis. by rewrite Hl.
  - destruct (Nat.eqb_spec len 0); [lia|].
    fold (groups_string (take start gs)). fold (groups_string (drop (start + len) gs)).
    assert (Hsplit : gs = take start gs ++ replicate len 0 ++ drop (start + len) gs).
    { rewrite <- Hz, <- drop_drop, take_drop, take_drop. done. }
    assert (Hip : ip = group_bytes (take start gs) ++ replicate (2 * len) x00
                       ++ group_bytes (drop (start + len) gs)).
    { rewrite <- Hb at 1. rewrite Hsplit at 1. by rewrite !group_bytes_app, group_bytes_zeros. }
    assert (Hlp : length (take start gs) = start) by (rewrite length_take; lia).
    assert (Hlq : length (drop (start + len) gs) = (8 - (start + len))%nat) by (rewrite length_drop; lia).
    assert (Hgp : Forall group (take start gs)) by by apply Forall_take.
    assert (Hgq : Forall group (drop (start + len) gs)) by by apply Forall_drop.
    clear Hb Hsplit Hz. revert Hip Hlp Hlq Hgp Hgq.
    generalize (take start gs) as p, (drop (start + len) gs) as q. intros p q Hip Hlp Hlq Hgp Hgq.
    assert (Hexp : expand_ellipsis (group_bytes p ++ group_bytes q) (Some (length (group_bytes p)))
                   = Some ip).
    { rewrite (expand_at _ _ (2 * len)), Hip; [done|lia|]. rewrite !length_group_bytes. lia. }
    destruct p as [|z p].
    + change (groups_string [] +:+ "::" +:+ groups_string q) with (String ":" (String ":" (groups_string q))).
      cbn [parseIPv6]. destruct q as [|h q].
      * cbn. cbn in Hexp. cbn in Hip. by rewrite Hip, app_nil_r; cbn in *; replace len with 8%nat by lia.
      * destruct (groups_string_cons h q) as (c & s & Es & Hc); [by inversion Hgq|].
        rewrite Es. cbn [String.eqb]. rewrite <- Es.
        rewrite ipv6_groups_of_join by (done || lia). cbn [mbind option_bind].
        rewrite app_nil_l. exact Hexp.
    + destruct (groups_string_cons z p) as (c & s & Es & Hc); [by inversion Hgp|].
      erewrite parseIPv6_groups; [|rewrite Es, append_cons; done|done].
      rewrite ipv6_groups_of_ellipsis by (done || lia). cbn [mbind option_bind].
      rewrite !app_nil_l. exact Hexp.
Qed.

(** *** The text of an address has no separator of a network *)

Definition hex_or_colon (c : ascii) : bool := is_hex c || Ascii.eqb c ":".

Lemma groups_string_bytes gs : Forall group gs → all_bytes hex_or_colon (groups_string gs) = true.
Proof.
  intros Hgs. apply join_all_bytes; [done|]. apply Forall_fmap.
  eapply Forall_impl; [exact Hgs|]. intros z Hz. cbn. destruct (hex_string_spec z Hz) as (_ & _ & Hh & _).
  eapply all_bytes_impl, Hh. intros c Hc. unfold hex_or_colon. by rewrite Hc.
Qed.

Lemma ipv6_string_bytes ip : all_bytes hex_or_colon (ipv6_string ip) = true.
Proof.
  destruct (ipv6_groups_spec ip) as (Hg & _). unfold ipv6_string.
  destruct (zero_run _ _ _) as [start len].
  fold (groups_string (ipv6_groups ip)). fold (groups_string (take start (ipv6_groups ip))).
  fold (groups_string (drop (start + len) (ipv6_groups ip))).
  destruct (len =? 0)%nat; [by apply groups_string_bytes|].
  rewrite !all_bytes_app, !groups_string_bytes by (done || by apply Forall_take || by apply Forall_drop).
  done.
Qed.

Lemma cut_byte_Some c s l r : cut_byte c s = Some (l, r) → s = l +:+ String c r.
Proof.
  revert l. induction s as [|d s IH]; intros l; [done|]. cbn.
  destruct (Ascii.eqb_spec c d) as [->|]; [by intros [= <- ->]|].
  destruct (cut_byte c s) as [[l' r']|] eqn:E; [|done]. intros [= <- ->].
  rewrite append_cons. by rewrite (IH l').
Qed.

Lemma cut_byte_fst c s l r : cut_byte c s = Some (l, r) → has_byte c l = false.
Proof.
  revert l. induction s as [|d s IH]; intros l; [done|]. cbn.
  destruct (Ascii.eqb c d) eqn:Ed; [by intros [= <- <-]|].
  destruct (cut_byte c s) as [[l' r']|] eqn:E; [|done]. intros [= <- <-].
  cbn. by rewrite Ed, (IH l').
Qed.

Lemma has_colon_of_ellipsis p q : has_byte ":" (p +:+ ":" +:+ q) = true.
Proof.
  induction p as [|c p IH]; [done|]. rewrite append_cons. cbn [has_byte]. by rewrite IH, orb_true_r.
Qed.

Lemma ipv6_string_colon ip : length ip = 16%nat → has_byte ":" (ipv6_string ip) = true.
Proof.
  intros Hl. destruct (ipv6_groups_spec ip) as (Hg & Hlen & _). rewrite Hl in Hlen.
  change (16 / 2)%nat with 8%nat in Hlen. unfold ipv6_string.
  destruct (zero_run _ _ _) as [start len]. destruct (len =? 0)%nat.
  - destruct (ipv6_groups ip) as [|a [|b gs]]; [done|done|].
    change (strings_join (hex_string <$> a :: b :: gs) ":")
      with (hex_string a +:+ ":" +:+ strings_join (hex_string <$> b :: gs) ":").
    apply has_colon_of_ellipsis.
  - apply (has_colon_of_ellipsis _ (":" +:+ _)).
Qed.

Lemma ParseAddr_ipv6 ip : length ip = 16%nat → ParseAddr (ipv6_string ip) = Some ip.
Proof.
  intros Hl. unfold ParseAddr. pose proof (ipv6_string_bytes ip) as Hb.
  rewrite (has_byte_all_bytes _ "%" _ Hb) by done.
  destruct (cut_byte ":" (ipv6_string ip)) as [[before after]|] eqn:E.
  - rewrite (has_byte_all_bytes hex_or_colon "." before), parseIPv6_string; try done.
    rewrite (cut_byte_Some _ _ _ _ E), all_bytes_app in Hb. by apply andb_true_iff in Hb as [? _].
  - apply cut_byte_None in E. by rewrite ipv6_string_colon in E.
Qed.

(** The networks [IPNet.String] is applied to: the number is in its shortest
    form. *)
Definition network_number (ip : IP) : Prop :=
  length ip = 4%nat ∨ (length ip = 16%nat ∧ To4 ip = None).

Lemma ParseAddr_String ip : network_number ip → ParseAddr (IP_String ip) = Some ip.
Proof.
  unfold IP_String. intros [Hl|[Hl ->]]; [|by apply ParseAddr_ipv6].
  unfold To4. rewrite Hl. cbn [Nat.eqb]. by apply ParseAddr_ipv4.
Qed.

Lemma IP_String_no_slash ip : has_byte "/" (IP_String ip) = false.
Proof.
  unfold IP_String. destruct (To4 ip).
  - eapply has_byte_all_bytes; [apply ipv4_string_bytes|done].
  - eapply has_byte_all_bytes; [apply ipv6_string_bytes|done].
Qed.

(** ** Masks *)

Lemma length_CIDRMask count ones : length (CIDRMask count ones) = count.
Proof. revert ones. induction count as [|c IH]; intros ones; cbn; [done|]. destruct (8 <=? ones); cbn; by rewrite IH. Qed.

Lemma CIDRMask_0 count : CIDRMask count 0 = replicate count x00.
Proof. induction count as [|c IH]; [done|]. cbn. by rewrite IH. Qed.

(** The first byte of a mask that is not all ones: its leading ones counted by
    [simpleMaskLength]. *)
Lemma partial_mask_byte k :
  0 ≤ k < 8 →
  let v := Z_of_byte (byte_of_Z (Z.lxor 255 (Z.shiftr 255 k))) in
  (v =? 255) = false ∧ leading_ones v = k ∧ (Z.land (Z.shiftl v k) 255 =? 0) = true.
Proof.
  intros Hk. assert (k ∈ seqZ 0 8) as Hin by (apply elem_of_seqZ; lia). clear Hk.
  revert k Hin. apply Forall_forall. repeat (constructor; [by vm_compute|]). constructor.
Qed.

Lemma simpleMaskLength_CIDRMask count ones :
  0 ≤ ones ≤ 8 * Z.of_nat count → simpleMaskLength (CIDRMask count ones) = ones.
Proof.
  revert ones. induction count as [|count IH]; intros ones Ho; [cbn in *; lia|].
  cbn [CIDRMask]. destruct (Z.leb_spec 8 ones).
  - cbn [simpleMaskLength]. change (Z_of_byte xff =? 255) with true. cbn iota.
    rewrite IH by lia. destruct (Z.eqb_spec (ones - 8) (-1)); lia.
  - cbn [simpleMaskLength]. destruct (partial_mask_byte ones) as (-> & -> & ->); [lia|].
    cbn iota. rewrite CIDRMask_0. cbn [andb].
    replace (forallb (λ b, Z_of_byte b =? 0) (replicate count x00)) with true; [done|].
    clear. induction count; [done|]. cbn. done.
Qed.

Lemma drop_CIDRMask j count ones :
  8 * Z.of_nat j ≤ ones → drop j (CIDRMask (j + count) ones) = CIDRMask count (ones - 8 * Z.of_nat j).
Proof.
  revert ones. induction j as [|j IH]; intros ones Ho;
    [by replace (ones - 8 * Z.of_nat 0) with ones by lia|].
  cbn [Nat.add CIDRMask]. destruct (Z.leb_spec 8 ones); [|lia].
  cbn [drop]. rewrite IH by lia. f_equal; lia.
Qed.

Lemma CIDRMask_full count ones i :
  0 ≤ ones → CIDRMask count ones !! i = Some xff → 8 * (Z.of_nat i + 1) ≤ ones.
Proof.
  revert ones i. induction count as [|count IH]; intros ones i Ho; [done|].
  cbn [CIDRMask]. destruct (Z.leb_spec 8 ones) as [H|H].
  - destruct i as [|i]; [lia|]. cbn. intros Hi%IH; lia.
  - destruct i as [|i].
    + cbn. intros [= E]. destruct (partial_mask_byte ones) as (Hf & _); [lia|].
      rewrite E in Hf. done.
    + cbn. rewrite CIDRMask_0. intros Hi%lookup_replicate. naive_solver.
Qed.

Lemma Z_land_bytes x y :
  Z_of_byte (byte_of_Z (Z.land (Z_of_byte x) (Z_of_byte y))) = Z.land (Z_of_byte x) (Z_of_byte y).
Proof.
  rewrite Z_of_byte_of_Z. change 256 with (2 ^ 8).
  rewrite <- Z.land_ones, <- Z.land_assoc by lia. f_equal.
  rewrite Z.land_ones by lia. apply Z.mod_small, Z_of_byte_range.
Qed.

Lemma mask_with_idem ip m : mask_with (mask_with ip m) m = mask_with ip m.
Proof.
  revert m. induction ip as [|b ip IH]; intros [|v m]; try done.
  unfold mask_with in *. cbn. rewrite IH, Z_land_bytes, <- Z.land_assoc, Z.land_diag. done.
Qed.

Lemma length_mask_with ip m : length (mask_with ip m) = (length ip `min` length m)%nat.
Proof. apply length_zip_with. Qed.

Lemma drop_mask_with j ip m : drop j (mask_with ip m) = mask_with (drop j ip) (drop j m).
Proof.
  revert ip m. induction j as [|j IH]; intros ip m; [done|].
  destruct ip as [|b ip]; [by cbn|]. destruct m as [|v m]; [by destruct (drop (S j) (b :: ip))|].
  apply IH.
Qed.

(** ** Networks *)

(** A network as [ParseCIDR] leaves it and [IPNet.String] sees it: its number,
    of 4 or 16 bytes, and the length of its mask. *)
Record network (nn : IP) (k : Z) : Prop := {
  nw_number : network_number nn;
  nw_length : 0 ≤ k ≤ 8 * Z.of_nat (length nn);
  nw_masked : mask_with nn (CIDRMask (length nn) k) = nn;
}.

Lemma network_String n nn k :
  networkNumberAndMask n = Some (nn, CIDRMask (length nn) k) → network nn k →
  IPNet_String n = (IP_String nn +:+ "/" +:+ pretty k).
Proof.
  intros E Hn. unfold IPNet_String. rewrite E, simpleMaskLength_CIDRMask by apply Hn.
  destruct (Z.eqb_spec k (-1)); [|done]. destruct (nw_length _ _ Hn). lia.
Qed.

(** A mapped address keeps its prefix only under a mask that covers it. *)
Lemma masked_prefix ip k :
  0 ≤ k → length ip = 16%nat → take 12 (mask_with ip (CIDRMask 16 k)) = v4InV6Prefix → 96 ≤ k.
Proof.
  intros Hk Hl Ht.
  assert (Hb : mask_with ip (CIDRMask 16 k) !! 11%nat = Some xff).
  { rewrite <- (lookup_take_lt _ 12) by lia. by rewrite Ht. }
  unfold mask_with in Hb. apply lookup_zip_with_Some in Hb as (x & y & Hxy & Hx & Hy).
  pose proof (f_equal Z_of_byte Hxy) as Hz. rewrite Z_land_bytes in Hz.
  assert (y = xff) as ->.
  { assert (Hy' : Z.land (Z_of_byte y) 255 = 255).
    { change (Z_of_byte xff) with 255 in Hz. rewrite Hz.
      by rewrite (Z.land_comm (Z_of_byte x)), Z.land_assoc, Z.land_diag. }
    change 255 with (Z.ones 8) in Hy' at 1. rewrite Z.land_ones in Hy' by lia.
    rewrite Z.mod_small in Hy' by apply Z_of_byte_range.
    by rewrite <- (byte_of_Z_of_byte y), Hy'. }
  pose proof (CIDRMask_full _ _ _ Hk Hy). lia.
Qed.

Lemma dtoi_range s k : dtoi s = Some k → 0 ≤ k.
Proof.
  unfold dtoi. destruct (_ && _) eqn:E; [|done]. intros [= <-].
  apply andb_true_iff in E as [[_ Hd]%andb_true_iff _]. unfold decimal_value.
  assert (H : ∀ acc, 0 ≤ acc → 0 ≤ foldl (λ v c, v * 10 + digit_value c) acc (String.list_ascii_of_string s));
    [|by apply H].
  induction s as [|c s IH]; intros acc Hacc; [done|]. cbn in *.
  apply andb_true_iff in Hd as [Hc Hd]. apply IH; [done|].
  unfold is_digit in Hc. apply andb_true_iff in Hc as [Hc%N.leb_le _]. unfold digit_value. lia.
Qed.

Lemma ipv6_groups_of_length fuel s ip e ip' e' :
  ipv6_groups_of fuel s ip e = Some (ip', e') → (length ip + 2 * fuel ≤ 16)%nat →
  (length ip' ≤ 16)%nat.
Proof.
  revert s ip e. induction fuel as [|fuel IH]; intros s ip e.
  { cbn. case_match; [|done]. intros [= -> ->]. lia. }
  cbn [ipv6_groups_of]. destruct (span_hex s 0 0) as [[count acc] rest].
  destruct (_ || _); [done|]. intros H Hf.
  assert (Hg : length (ip ++ put_uint16 acc) = (length ip + 2)%nat) by (rewrite length_app; done).
  repeat (case_match; try done); subst;
    try (injection H as <- _; rewrite Hg; lia);
    try (eapply IH; [exact H|rewrite Hg; lia]).
  apply bind_Some in H as (ip4 & Hip4 & [= <- _]).
  match goal with E : (_ || _) = false |- _ => apply orb_false_iff in E as [_ E%Nat.ltb_ge] end.
  unfold parseIPv4 in Hip4. case_match eqn:E4; [|done]. apply Nat.eqb_eq in E4.
  apply length_mapM in Hip4. rewrite length_app. lia.
Qed.

Lemma expand_ellipsis_length ip e ip' :
  expand_ellipsis ip e = Some ip' → (length ip ≤ 16)%nat → length ip' = 16%nat.
Proof.
  unfold expand_ellipsis. destruct (Nat.ltb_spec (length ip) 16).
  - destruct e as [e|]; [|done]. intros [= <-] _.
    rewrite !length_app, length_replicate, length_take, length_drop. lia.
  - destruct e; [done|]. intros [= <-]. lia.
Qed.

Lemma parseIPv6_length s ip : parseIPv6 s = Some ip → length ip = 16%nat.
Proof.
  assert (Hg : ∀ t e, ('(i, e) ← ipv6_groups_of 8 t [] e; expand_ellipsis i e) = Some ip →
                      length ip = 16%nat).
  { intros t e H. apply bind_Some in H as ([i e'] & Hi & He).
    apply (expand_ellipsis_length _ _ _ He), (ipv6_groups_of_length _ _ _ _ _ _ Hi). done. }
  unfold parseIPv6. repeat (case_match; try (by apply Hg)). by intros [= <-].
Qed.

Lemma ParseAddr_length s ip : ParseAddr s = Some ip → length ip = 4%nat ∨ length ip = 16%nat.
Proof.
  unfold ParseAddr. repeat (case_match; try done).
  - intros H'%parseIPv6_length. by right.
  - unfold parseIPv4. case_match eqn:E4; [|done]. apply Nat.eqb_eq in E4.
    intros Hip%length_mapM. left. lia.
Qed.

Lemma To4_other ip : length ip = 16%nat → take 12 ip ≠ v4InV6Prefix → To4 ip = None.
Proof. intros Hl Ht. unfold To4. rewrite Hl. cbn [Nat.eqb andb]. by rewrite bool_decide_eq_false_2. Qed.

Lemma To4_mapped ip : length ip = 16%nat → take 12 ip = v4InV6Prefix → To4 ip = Some (drop 12 ip).
Proof. intros Hl Ht. unfold To4. rewrite Hl. cbn [Nat.eqb andb]. by rewrite bool_decide_eq_true_2. Qed.

Lemma To4_short ip : length ip = 4%nat → To4 ip = Some ip.
Proof. intros Hl. unfold To4. by rewrite Hl. Qed.

Lemma IP_Mask_mapped ip m :
  length ip = 4%nat → length m = 4%nat → IP_Mask (v4InV6Prefix ++ ip) m = Some (mask_with ip m).
Proof.
  intros Hl Hm. destruct ip as [|a [|b [|c [|d []]]]]; try done.
  destruct m as [|a' [|b' [|c' [|d' []]]]]; done.
Qed.

Lemma IP_Mask_same ip m :
  length ip = 16%nat → length m = 16%nat → IP_Mask ip m = Some (mask_with ip m).
Proof. intros Hl Hm. unfold IP_Mask. rewrite Hl, Hm. cbn [Nat.eqb andb]. by rewrite Hl. Qed.

(** The network of an address and the length of its mask. *)
Lemma masked_network ip k :
  length ip = 4%nat ∨ length ip = 16%nat → 0 ≤ k ≤ 8 * Z.of_nat (length ip) →
  ∃ nn j, networkNumberAndMask {| net_IP := mask_with ip (CIDRMask (length ip) k);
                                  net_Mask := CIDRMask (length ip) k |}
          = Some (nn, CIDRMask (length nn) j) ∧ network nn j ∧
          (network ip k → nn = ip ∧ j = k).
Proof.
  intros Hl Hk. set (m := CIDRMask (length ip) k).
  assert (Hlm : length (mask_with ip m) = length ip)
    by (unfold m; rewrite length_mask_with, length_CIDRMask; lia).
  assert (Hsame : network_number (mask_with ip m) →
    network (mask_with ip m) k ∧ CIDRMask (length (mask_with ip m)) k = m).
  { intros Hn. assert (Hm : CIDRMask (length (mask_with ip m)) k = m) by by rewrite Hlm.
    split; [|done]. split; [done|by rewrite Hlm|]. rewrite Hm. apply mask_with_idem. }
  assert (Hid : network ip k → mask_with ip m = ip) by (intros []; done).
  unfold networkNumberAndMask. cbn [net_IP net_Mask].
  assert (Hm : length m = length ip) by apply length_CIDRMask. rewrite Hm.
  destruct Hl as [Hl|Hl]; rewrite Hl in *.
  - rewrite To4_short by done. cbn [mbind option_bind Nat.eqb]. rewrite Hlm. cbn [Nat.eqb].
    destruct Hsame as [Hn Em]; [by left|]. exists (mask_with ip m), k. rewrite Em.
    split_and!; [done|done|]. intros Hnw. split; [by apply Hid|done].
  - destruct (decide (take 12 (mask_with ip m) = v4InV6Prefix)) as [Ht|Ht].
    + rewrite To4_mapped by done. cbn [mbind option_bind Nat.eqb].
      assert (Hd : length (drop 12 (mask_with ip m)) = 4%nat) by (rewrite length_drop; lia).
      rewrite Hd. cbn [Nat.eqb].
      assert (Hm16 : m = CIDRMask 16 k) by (unfold m; by rewrite Hl).
      assert (Hk96 : 96 ≤ k) by (apply (masked_prefix ip); [lia|done|by rewrite <- Hm16]).
      assert (Hdm : drop 12 m = CIDRMask 4 (k - 96)) by (rewrite Hm16; apply (drop_CIDRMask 12 4); lia).
      exists (drop 12 (mask_with ip m)), (k - 96). rewrite Hd, Hdm. split_and!; [done| |].
      * split; [by left|rewrite Hd; lia|]. rewrite Hd, <- Hdm, <- drop_mask_with.
        by rewrite mask_with_idem.
      * intros Hnw. rewrite Hid in Ht by done. destruct (nw_number _ _ Hnw) as [|[_ Hno]]; [lia|].
        by rewrite To4_mapped in Hno.
    + rewrite To4_other by done. rewrite Hlm. cbn [mbind option_bind Nat.eqb]. rewrite Hlm. cbn [Nat.eqb].
      destruct Hsame as [Hn Em]; [right; split; [done|by apply To4_other]|].
      exists (mask_with ip m), k. rewrite Em.
      split_and!; [done|done|]. intros Hnw. split; [by apply Hid|done].
Qed.

Lemma ParseCIDR_masked addr mask ip k :
  has_byte "/" addr = false → ParseAddr addr = Some ip → dtoi mask = Some k →
  ParseCIDR (addr +:+ String "/" mask) =
  if 8 * Z.of_nat (length ip) <? k then None else
  Some {| net_IP := mask_with ip (CIDRMask (length ip) k); net_Mask := CIDRMask (length ip) k |}.
Proof.
  intros Hs Hip Hk. unfold ParseCIDR. rewrite cut_byte_app by done. cbn [mbind option_bind].
  rewrite Hip. cbn [mbind option_bind]. rewrite Hk. cbn [mbind option_bind].
  destruct (_ <? _); [done|].
  destruct (ParseAddr_length _ _ Hip) as [Hl|Hl]; unfold To16; rewrite Hl; cbn [Nat.eqb mbind option_bind].
  - rewrite IP_Mask_mapped; [done|done|apply length_CIDRMask].
  - rewrite IP_Mask_same; [done|done|apply length_CIDRMask].
Qed.

Lemma ParseCIDR_inv s n :
  ParseCIDR s = Some n →
  ∃ addr mask ip k, s = addr +:+ String "/" mask ∧ has_byte "/" addr = false ∧
    ParseAddr addr = Some ip ∧ dtoi mask = Some k ∧ 0 ≤ k ≤ 8 * Z.of_nat (length ip) ∧
    n = {| net_IP := mask_with ip (CIDRMask (length ip) k); net_Mask := CIDRMask (length ip) k |}.
Proof.
  intros H. pose proof H as H'. unfold ParseCIDR in H'.
  apply bind_Some in H' as ([addr mask] & Hc & H').
  apply bind_Some in H' as (ip & Hip & H'). apply bind_Some in H' as (k & Hk & _).
  pose proof (cut_byte_fst _ _ _ _ Hc) as Hs. apply cut_byte_Some in Hc as ->.
  rewrite (ParseCIDR_masked _ _ _ _ Hs Hip Hk) in H.
  destruct (Z.ltb_spec (8 * Z.of_nat (length ip)) k); [done|]. injection H as <-.
  pose proof (dtoi_range _ _ Hk). by exists addr, mask, ip, k.
Qed.

Lemma dtoi_pretty k : 0 ≤ k ≤ 128 → dtoi (pretty k) = Some k.
Proof.
  intros Hk. assert (k ∈ seqZ 0 129) as Hin by (apply elem_of_seqZ; lia). clear Hk.
  revert k Hin. apply Forall_forall. repeat (constructor; [by vm_compute|]). constructor.
Qed.

(** The canonical text of a parsed network is read back as a network with the
    same number and mask. *)
Lemma ParseCIDR_String s n :
  ParseCIDR s = Some n →
  ∃ n', ParseCIDR (IPNet_String n) = Some n' ∧ networkNumberAndMask n' = networkNumberAndMask n ∧
    trim_space (IPNet_String n) = IPNet_String n ∧ IPNet_String n ≠ ""%string.
Proof.
  intros (addr & _ & ip & k & _ & _ & Hip & _ & Hk & ->)%ParseCIDR_inv.
  destruct (masked_network ip k (ParseAddr_length _ _ Hip) Hk) as (nn & j & Hnn & Hnw & _).
  rewrite (network_String _ _ _ Hnn Hnw). pose proof (nw_length _ _ Hnw) as Hj.
  assert (Hl : length nn = 4%nat ∨ length nn = 16%nat) by (destruct (nw_number _ _ Hnw) as [|[]]; auto).
  pose proof (ParseCIDR_masked (IP_String nn) (pretty j) nn j (IP_String_no_slash nn)
    (ParseAddr_String _ (nw_number _ _ Hnw)) (dtoi_pretty j ltac:(lia))) as Hp.
  destruct (Z.ltb_spec (8 * Z.of_nat (length nn)) j); [lia|].
  destruct (masked_network nn j Hl Hj) as (nn' & j' & Hnn' & _ & Hid).
  destruct (Hid Hnw) as [-> ->].
  eexists. split_and!; [exact Hp|by rewrite Hnn'| |].
  - apply trim_space_plain. rewrite !all_bytes_app. rewrite !andb_true_iff. split_and!; [|done|].
    + unfold IP_String. destruct (To4 nn).
      * eapply all_bytes_impl, ipv4_string_bytes. intros [[] [] [] [] [] [] [] []]; done.
      * eapply all_bytes_impl, ipv6_string_bytes. intros [[] [] [] [] [] [] [] []]; done.
    + assert (Hin : j ∈ seqZ 0 129) by (apply elem_of_seqZ; lia). clear -Hin.
      revert j Hin. apply Forall_forall. repeat (constructor; [by vm_compute|]). constructor.
  - intros E%(f_equal String.length). rewrite !string_length_app in E. cbn in E. lia.
Qed.

Lemma IPNet_Contains_same n n' ip :
  networkNumberAndMask n' = networkNumberAndMask n → IPNet_Contains n' ip = IPNet_Contains n ip.
Proof. intros E. unfold IPNet_Contains. by rewrite E. Qed.

Lemma IPNet_String_same n n' :
  networkNumberAndMask n' = networkNumberAndMask n → IPNet_String n' = IPNet_String n.
Proof. intros E. unfold IPNet_String. by rewrite E. Qed.
