(* ===== verification/Socks5.v ===== *)
(** SOCKS5 (internal/socks5wire/wire.go): the server side of the handshake,
    replies, and the dial result that crosses the data stream.

    A [net.Conn] is full duplex: its state is a pair of a reader and a writer
    that do not affect each other.  Password verification (argon2), the
    Unicode part of [strings.ToLower], [net.ParseIP] and [encoding/json] are
    arguments. *)
From Stdlib Require Import ZArith Lia Ascii String Strings.Byte.
From stdpp Require Import base tactics numbers list gmap strings.
From S2P Require Import Prelude GoStrings GoIO GoNet Protocol.

Definition Version : Z := 0x05.
Definition MethodNoAuth : Z := 0x00.
Definition MethodUsernamePass : Z := 0x02.
Definition MethodNoAcceptable : Z := 0xff.
Definition AuthVersion : Z := 0x01.
Definition CommandConnect : Z := 0x01.
Definition CommandBind : Z := 0x02.
Definition CommandUDPAssociate : Z := 0x03.
Definition AddrIPv4 : Z := 0x01.
Definition AddrDomain : Z := 0x03.
Definition AddrIPv6 : Z := 0x04.
Definition RepSuccess : Z := 0x00.
Definition RepGeneralFailure : Z := 0x01.
Definition RepNotAllowed : Z := 0x02.
Definition RepNetworkUnreachable : Z := 0x03.
Definition RepHostUnreachable : Z := 0x04.
Definition RepConnectionRefused : Z := 0x05.
Definition RepCommandUnsupported : Z := 0x07.
Definition RepAddrUnsupported : Z := 0x08.
Definition maxDialResultLen : Z := 16 * 1024.

Record ConnectRequest := {
  cr_Host : string; cr_Port : Z; cr_AddrType : string; cr_OriginalHost : string;
}.

(** ** Sessions on a connection *)

(** A computation on a connection; [None] while a read has not returned. *)
Definition session (R W A : Type) : Type := R * W → option (A * (R * W)).

#[export] Instance session_ret {R W} : MRet (session R W) := λ A a c, Some (a, c).
#[export] Instance session_bind {R W} : MBind (session R W) := λ A B f m c,
  match m c with Some (a, c') => f a c' | None => None end.

Section Wire.
Context {R W : Type} `{Reader R} `{Writer W} (fuel : nat).
Context (VerifyPassword : string → string → bool).
Context (unicode_lower : string → string).
Context (ParseIP : string → option IP).

(** [io.ReadFull(conn, buf)] *)
Definition recv (n : Z) : session R W (result bytes) := λ '(r, w),
  '(res, r) ← ReadFull fuel (Z.to_nat n) r; Some (res, (r, w)).

(** [conn.Write(p)] *)
Definition send (p : bytes) : session R W (option goerror) := λ '(r, w),
  let '(_, err, w) := Write w p in Some (err, (r, w)).

Definition NegotiateMethod (authType : string) : session R W (Z * bool) :=
  header ← recv 2;
  match header with
  | Err _ => mret (0, false)
  | Ok header =>
      if negb (byte_at header 0 =? Version) || (byte_at header 1 =? 0) then mret (0, false) else
      methods ← recv (byte_at header 1);
      match methods with
      | Err _ => mret (0, false)
      | Ok methods =>
          let offers m := bool_decide (byte_of_Z m ∈ methods) in
          let selected :=
            if authType =?s SOCKS5AuthTypeUsernamePassword then
              if offers MethodUsernamePass then MethodUsernamePass else MethodNoAcceptable
            else if offers MethodNoAuth then MethodNoAuth else MethodNoAcceptable in
          _ ← send [byte_of_Z Version; byte_of_Z selected];
          mret (selected, negb (selected =? MethodNoAcceptable))
      end
  end.

(** [subtle.ConstantTimeCompare] compares the bytes. *)
Definition Authenticate (auth : SOCKS5AuthConfig) : session R W bool :=
  header ← recv 2;
  match header with
  | Err _ => mret false
  | Ok header =>
      if negb (byte_at header 0 =? AuthVersion) then mret false else
      username ← recv (byte_at header 1);
      match username with
      | Err _ => mret false
      | Ok username =>
          passLen ← recv 1;
          match passLen with
          | Err _ => mret false
          | Ok passLen =>
              password ← recv (byte_at passLen 0);
              match password with
              | Err _ => mret false
              | Ok password =>
                  let ok := bool_decide (username = to_bytes (auth_Username auth))
                            && VerifyPassword (auth_PasswordHash auth) (of_bytes password) in
                  _ ← send [byte_of_Z AuthVersion; if ok then x00 else x01];
                  mret ok
              end
          end
      end
  end.

(** The host and address type, or the reply code of a failure. *)
Definition ReadAddress (atyp : Z) : session R W ((string * string) + Z) :=
  if atyp =? AddrIPv4 then
    raw ← recv 4;
    mret (match raw with
          | Err _ => inr RepGeneralFailure
          | Ok raw => inl (IP_String raw, SOCKS5AddrTypeIPv4)
          end)
  else if atyp =? AddrIPv6 then
    raw ← recv 16;
    mret (match raw with
          | Err _ => inr RepGeneralFailure
          | Ok raw => inl (IP_String raw, SOCKS5AddrTypeIPv6)
          end)
  else if atyp =? AddrDomain then
    length ← recv 1;
    match length with
    | Err _ => mret (inr RepGeneralFailure)
    | Ok length =>
        if byte_at length 0 =? 0 then mret (inr RepGeneralFailure) else
        raw ← recv (byte_at length 0);
        mret (match raw with
              | Err _ => inr RepGeneralFailure
              | Ok raw => inl (to_lower unicode_lower (of_bytes raw), SOCKS5AddrTypeDomain)
              end)
    end
  else mret (inr RepAddrUnsupported).

(** The request, or the reply code of a failure. *)
Definition ReadConnectRequest : session R W (ConnectRequest + Z) :=
  header ← recv 4;
  match header with
  | Err _ => mret (inr RepGeneralFailure)
  | Ok header =>
      if negb (byte_at header 0 =? Version) then mret (inr RepGeneralFailure) else
      if negb (byte_at header 2 =? 0) then mret (inr RepGeneralFailure) else
      if byte_at header 1 =? CommandConnect then
        address ← ReadAddress (byte_at header 3);
        match address with
        | inr rep => mret (inr rep)
        | inl (host, addrType) =>
            portRaw ← recv 2;
            match portRaw with
            | Err _ => mret (inr RepGeneralFailure)
            | Ok portRaw =>
                let port := uint16_of portRaw in
                if port <? 1 then mret (inr RepGeneralFailure) else
                mret (inl {| cr_Host := host; cr_Port := port; cr_AddrType := addrType;
                             cr_OriginalHost := host |})
            end
        end
      else mret (inr RepCommandUnsupported)
  end.

(** The bytes of a reply: a bound address that does not parse is reported as
    0.0.0.0:0. *)
Definition reply_bytes (rep : Z) (boundAddr : string) (boundPort : Z) : bytes :=
  let head atyp := [byte_of_Z Version; byte_of_Z rep; x00; byte_of_Z atyp] in
  match ParseIP boundAddr with
  | Some ip =>
      match To4 ip with
      | Some ip4 => head AddrIPv4 ++ ip4 ++ put_uint16 boundPort
      | None =>
          match To16 ip with
          | Some ip16 => head AddrIPv6 ++ ip16 ++ put_uint16 boundPort
          | None => head AddrIPv4 ++ [x00; x00; x00; x00; x00; x00]
          end
      end
  | None => head AddrIPv4 ++ [x00; x00; x00; x00; x00; x00]
  end.

Definition WriteReply (rep : Z) (boundAddr : string) (boundPort : Z)
  : session R W (option goerror) := send (reply_bytes rep boundAddr boundPort).

Definition ServeHandshake (cfg : SOCKS5ListenConfig) : session R W (option ConnectRequest) :=
  negotiated ← NegotiateMethod (auth_Type (lc_Auth cfg));
  let '(method, ok) := negotiated in
  if negb ok then mret None else
  authenticated ← (if method =? MethodUsernamePass then Authenticate (lc_Auth cfg) else mret true);
  if negb authenticated then mret None else
  request ← ReadConnectRequest;
  match request with
  | inr rep => _ ← WriteReply rep "" 0; mret None
  | inl req => mret (Some req)
  end.
End Wire.

Definition ReplyForDialStatus (status : string) : Z :=
  if status =?s SOCKS5DialStatusSuccess then RepSuccess else
  if status =?s SOCKS5DialStatusTargetDenied then RepNotAllowed else
  if status =?s SOCKS5DialStatusNetworkUnreachable then RepNetworkUnreachable else
  if status =?s SOCKS5DialStatusHostUnreachable then RepHostUnreachable else
  if status =?s SOCKS5DialStatusConnectionRefused then RepConnectionRefused else
  if status =?s SOCKS5DialStatusDialTimeout then RepHostUnreachable else
  RepGeneralFailure.

(** ** The dial result *)

(** [json.Marshal(result)] and [json.Unmarshal(raw, &result)]. *)
Record dial_json := {
  dial_Marshal : SOCKS5DialResult → result bytes;
  dial_Unmarshal : bytes → result SOCKS5DialResult;
}.

Definition WriteDialResult {W} `{Writer W} (js : dial_json) (w : W) (result : SOCKS5DialResult)
  : option goerror * W :=
  match dial_Marshal js result with
  | Err e => (Some e, w)
  | Ok raw =>
      if maxDialResultLen <? blen raw then (Some (Errorf "SOCKS5 dial result too large" []), w) else
      let '(_, err, w) := Write w (put_uint32 (blen raw)) in
      match err with
      | Some e => (Some e, w)
      | None => let '(_, err, w) := Write w raw in (err, w)
      end
  end.

Definition ReadDialResult {R} `{Reader R} (js : dial_json) (fuel : nat)
  : parser R SOCKS5DialResult :=
  prefix ← ReadFull fuel 4;
  let length := uint32_of prefix in
  if (length =? 0) || (maxDialResultLen <? length)
  then pfail (Errorf "invalid SOCKS5 dial result length %d" [AInt length]) else
  raw ← ReadFull fuel (Z.to_nat length);
  match dial_Unmarshal js raw with
  | Err e => pfail e
  | Ok result =>
      if dr_Status result =?s ""
      then pfail (Errorf "SOCKS5 dial result missing status" []) else mret result
  end.

(** ** A program logic for sessions *)

(** The session returns, in a state that satisfies [Q]. *)
Definition runs {R W A} (m : session R W A) (c : R * W) (Q : A → R → W → Prop) : Prop :=
  ∃ a r w, m c = Some (a, (r, w)) ∧ Q a r w.

Section Rules.
Context {R W : Type} `{Reader R} `{Writer W}.

Lemma runs_ret {A} (a : A) r w (Q : A → R → W → Prop) : Q a r w → runs (mret a) (r, w) Q.
Proof. intros HQ. by exists a, r, w. Qed.

Lemma runs_bind {A B} (m : session R W A) (f : A → session R W B) c (Q : B → R → W → Prop) :
  runs m c (λ a r w, runs (f a) (r, w) Q) → runs (m ≫= f) c Q.
Proof.
  intros (a & r & w & E & b & r' & w' & E' & HQ). exists b, r', w'. split; [|done].
  unfold mbind, session_bind. by rewrite E.
Qed.

Lemma runs_mono {A} (m : session R W A) c (Q Q' : A → R → W → Prop) :
  runs m c Q → (∀ a r w, Q a r w → Q' a r w) → runs m c Q'.
Proof. intros (a & r & w & E & HQ) Hmono. exists a, r, w. eauto. Qed.

Lemma runs_send p r w (Q : option goerror → R → W → Prop) :
  (∀ err, Q err r (Write w p).2) → runs (send p) (r, w) Q.
Proof.
  intros HQ. unfold runs, send. destruct (Write w p) as [[n err] w'] eqn:E.
  exists err, r, w'. split; [done|]. apply HQ.
Qed.

(** A read of [n] bytes gets the next [n] bytes of the stream, or fails
    because fewer are left. *)
Lemma runs_recv fuel n r w e bs (Q : result bytes → R → W → Prop) :
  delivers e r bs → (length bs < fuel)%nat → 0 ≤ n →
  (∀ d rest r', bs = d ++ rest → blen d = n → delivers e r' rest →
     (length rest < fuel)%nat → Q (Ok d) r' w) →
  (blen bs < n → ∀ err r', Q (Err err) r' w) →
  runs (recv fuel n) (r, w) Q.
Proof.
  intros Hd Hf Hn Hok Herr. unfold runs, recv. destruct (decide (n ≤ blen bs)) as [Hle|Hgt].
  - destruct (ReadFull_ok fuel (Z.to_nat n) r bs e Hd) as (r' & -> & Hd');
      [unfold blen in *; lia..|].
    exists (Ok (take (Z.to_nat n) bs)), r', w. split; [done|].
    apply (Hok _ (drop (Z.to_nat n) bs)); [by rewrite take_drop| |done|].
    + unfold blen in *. rewrite length_take. lia.
    + rewrite length_drop. lia.
  - destruct (ReadFull_short fuel (Z.to_nat n) r bs e Hd) as (r' & ->);
      [unfold blen in *; lia..|].
    eexists _, r', w. split; [done|]. apply Herr. lia.
Qed.

(** A read of exactly the bytes known to come next. *)
Lemma runs_recv_app fuel n r w e d rest (Q : result bytes → R → W → Prop) :
  delivers e r (d ++ rest) → (length (d ++ rest) < fuel)%nat → blen d = n →
  (∀ r', delivers e r' rest → (length rest < fuel)%nat → Q (Ok d) r' w) →
  runs (recv fuel n) (r, w) Q.
Proof.
  intros Hd Hf Hn HQ. eapply runs_recv; [done|done|unfold blen in *; lia| |].
  - intros d' rest' r' Heq Hn' Hd' Hf'.
    apply app_inj_1 in Heq as [<- <-]; [by apply HQ|unfold blen in *; lia].
  - intros Hlt. exfalso. unfold blen in *. rewrite length_app in Hlt. lia.
Qed.
End Rules.

Lemma blen_1 d : blen d = 1 → ∃ a, d = [a].
Proof. destruct d as [|a [|b d]]; cbn; [done|by eauto|unfold blen; cbn; lia]. Qed.
Lemma blen_2 d : blen d = 2 → ∃ a b, d = [a; b].
Proof. destruct d as [|a [|b [|c d]]]; unfold blen; cbn [length]; (lia || by eauto). Qed.
Lemma blen_4 d : blen d = 4 → ∃ a b c x, d = [a; b; c; x].
Proof. destruct d as [|a [|b [|c [|x [|y d]]]]]; unfold blen; cbn [length]; (lia || by eauto 6). Qed.

Lemma Z_of_byte_inv b n : Z_of_byte b = n → b = byte_of_Z n.
Proof. intros <-. by rewrite byte_of_Z_of_byte. Qed.

(** ** The protocol *)

(** Method selection, username/password and request messages of RFC 1928 and
    RFC 1929 as a client sends them. *)
Definition greeting (methods : bytes) : bytes := [x05; byte_of_Z (blen methods)] ++ methods.
Definition credentials (user pass : bytes) : bytes :=
  [x01; byte_of_Z (blen user)] ++ user ++ [byte_of_Z (blen pass)] ++ pass.
Definition connect_request (address : bytes) (port : Z) : bytes :=
  [x05; x01; x00] ++ address ++ put_uint16 port.

Section Protocol.
Context (VerifyPassword : string → string → bool) (unicode_lower : string → string).

(** Address type and address on the wire, with the host and type they mean. *)
Inductive socks_address : bytes → string → string → Prop :=
| socks_ipv4 raw : blen raw = 4 →
    socks_address (x01 :: raw) (IP_String raw) SOCKS5AddrTypeIPv4
| socks_ipv6 raw : blen raw = 16 →
    socks_address (x04 :: raw) (IP_String raw) SOCKS5AddrTypeIPv6
| socks_domain raw : 1 ≤ blen raw ≤ 255 →
    socks_address (x03 :: byte_of_Z (blen raw) :: raw)
      (to_lower unicode_lower (of_bytes raw)) SOCKS5AddrTypeDomain.

(** The authentication part a client has to send, given the methods it
    offered. *)
Definition authenticated (auth : SOCKS5AuthConfig) (methods part : bytes) : Prop :=
  if auth_Type auth =?s SOCKS5AuthTypeUsernamePassword then
    x02 ∈ methods ∧ ∃ pass,
      part = credentials (to_bytes (auth_Username auth)) pass ∧
      blen (to_bytes (auth_Username auth)) ≤ 255 ∧ blen pass ≤ 255 ∧
      VerifyPassword (auth_PasswordHash auth) (of_bytes pass) = true
  else x00 ∈ methods ∧ part = [].

(** What the server answers to an accepted client. *)
Definition handshake_replies (auth : SOCKS5AuthConfig) : list bytes :=
  if auth_Type auth =?s SOCKS5AuthTypeUsernamePassword then [[x05; x02]; [x01; x00]]
  else [[x05; x00]].

(** A stream that starts with a complete handshake asking for [req]. *)
Definition accepted (cfg : SOCKS5ListenConfig) (bs : bytes) (req : ConnectRequest)
    (rest : bytes) : Prop :=
  ∃ methods auth address,
    bs = greeting methods ++ auth ++ connect_request address (cr_Port req) ++ rest ∧
    1 ≤ blen methods ≤ 255 ∧ authenticated (lc_Auth cfg) methods auth ∧
    socks_address address (cr_Host req) (cr_AddrType req) ∧
    1 ≤ cr_Port req ≤ 65535 ∧ cr_OriginalHost req = cr_Host req.
End Protocol.

Section Handshake.
Context {R W : Type} `{Reader R} `{StreamWriter W} (fuel : nat).
Context (VerifyPassword : string → string → bool) (unicode_lower : string → string).
Context (ParseIP : string → option IP) (e : goerror).

Implicit Types (r : R) (w : W).

(** The byte that follows a length byte is always in range. *)
Local Ltac step := apply runs_bind; eapply runs_recv; [done|done|apply Z_of_byte_range || lia| |].
Local Ltac ret := apply runs_ret.

(** *** What a returning handshake has read *)

Lemma NegotiateMethod_reads authType r w bs :
  delivers e r bs → (length bs < fuel)%nat →
  runs (NegotiateMethod fuel authType) (r, w) (λ res r' w', res.2 = true →
    ∃ methods rest, bs = greeting methods ++ rest ∧ 1 ≤ blen methods ≤ 255 ∧
      byte_of_Z res.1 ∈ methods ∧ delivers e r' rest ∧ (length rest < fuel)%nat ∧
      res.1 = (if authType =?s SOCKS5AuthTypeUsernamePassword then MethodUsernamePass
               else MethodNoAuth) ∧
      w' = (Write w [x05; byte_of_Z res.1]).2).
Proof.
  intros Hd Hf. unfold NegotiateMethod. step; [|by intros; ret].
  intros d rest r1 -> Hlen Hd1 Hf1. apply blen_2 in Hlen as (v & m & ->).
  change (byte_at [v; m] 0) with (Z_of_byte v). change (byte_at [v; m] 1) with (Z_of_byte m).
  destruct (_ || _) eqn:G; [by ret|]. reflect_guards. destruct G as [Gv Gm].
  step; [|by intros; ret]. intros methods rest' r2 -> Hlen Hd2 Hf2.
  apply runs_bind, runs_send. intros _. ret. cbn [fst snd].
  set (offers k := bool_decide (byte_of_Z k ∈ methods)).
  intros Hsel. pose proof (Z_of_byte_range m). exists methods, rest'. split_and!; try done; try lia.
  - unfold greeting. rewrite Hlen, byte_of_Z_of_byte. apply Z_of_byte_inv in Gv as ->. done.
  - revert Hsel. unfold offers. repeat case_match; try done; intros _;
      by eapply bool_decide_eq_true_1.
  - revert Hsel. by repeat case_match.
Qed.

Lemma Authenticate_reads auth r w bs :
  delivers e r bs → (length bs < fuel)%nat →
  runs (Authenticate fuel VerifyPassword auth) (r, w) (λ res r' w', res = true →
    ∃ pass rest, bs = credentials (to_bytes (auth_Username auth)) pass ++ rest ∧
      blen (to_bytes (auth_Username auth)) ≤ 255 ∧ blen pass ≤ 255 ∧
      VerifyPassword (auth_PasswordHash auth) (of_bytes pass) = true ∧
      delivers e r' rest ∧ (length rest < fuel)%nat ∧ w' = (Write w [x01; x00]).2).
Proof.
  intros Hd Hf. unfold Authenticate. step; [|by intros; ret].
  intros d rest r1 -> Hlen Hd1 Hf1. apply blen_2 in Hlen as (v & m & ->).
  change (byte_at [v; m] 0) with (Z_of_byte v). change (byte_at [v; m] 1) with (Z_of_byte m).
  destruct (Z.eqb_spec (Z_of_byte v) AuthVersion) as [Hv|]; cbn [negb]; [|by ret].
  step; [|by intros; ret]. intros user rest1 r2 -> Hu Hd2 Hf2.
  step; [|by intros; ret]. intros pl rest2 r3 -> Hpl Hd3 Hf3.
  apply blen_1 in Hpl as (n & ->). change (byte_at [n] 0) with (Z_of_byte n).
  step; [|by intros; ret]. intros pass rest3 r4 -> Hp Hd4 Hf4.
  apply runs_bind, runs_send. intros _. ret. intros Hok. rewrite Hok.
  apply andb_true_iff in Hok as [Huser Hpass]. apply bool_decide_eq_true in Huser. subst user.
  pose proof (Z_of_byte_range m). pose proof (Z_of_byte_range n).
  exists pass, rest3. split_and!; try done; try lia.
  unfold credentials. rewrite Hu, Hp, !byte_of_Z_of_byte. apply Z_of_byte_inv in Hv as ->.
  by rewrite <- !app_assoc.
Qed.

Lemma ReadAddress_reads atyp r w bs :
  delivers e r bs → (length bs < fuel)%nat → 0 ≤ atyp < 256 →
  runs (ReadAddress fuel unicode_lower atyp) (r, w) (λ res r' w', ∀ host kind,
    res = inl (host, kind) →
    ∃ address rest, byte_of_Z atyp :: bs = address ++ rest ∧
      socks_address unicode_lower address host kind ∧
      delivers e r' rest ∧ (length rest < fuel)%nat ∧ w' = w).
Proof.
  intros Hd Hf Hat. unfold ReadAddress.
  destruct (Z.eqb_spec atyp AddrIPv4) as [->|_].
  { step; [|by intros; ret]. intros raw rest r1 -> Hlen Hd1 Hf1. ret.
    intros host kind [= <- <-]. exists (x01 :: raw), rest. split_and!; try done. by constructor. }
  destruct (Z.eqb_spec atyp AddrIPv6) as [->|_].
  { step; [|by intros; ret]. intros raw rest r1 -> Hlen Hd1 Hf1. ret.
    intros host kind [= <- <-]. exists (x04 :: raw), rest. split_and!; try done. by constructor. }
  destruct (Z.eqb_spec atyp AddrDomain) as [->|_]; [|by ret].
  step; [|by intros; ret]. intros d rest r1 -> Hlen Hd1 Hf1. apply blen_1 in Hlen as (n & ->).
  change (byte_at [n] 0) with (Z_of_byte n).
  destruct (Z.eqb_spec (Z_of_byte n) 0) as [|Hn]; [by ret|].
  step; [|by intros; ret]. intros raw rest' r2 -> Hlen Hd2 Hf2. ret.
  intros host kind [= <- <-]. pose proof (Z_of_byte_range n).
  exists (x03 :: byte_of_Z (blen raw) :: raw), rest'. split_and!; try done.
  - by rewrite Hlen, byte_of_Z_of_byte.
  - constructor. lia.
Qed.

Lemma ReadConnectRequest_reads r w bs :
  delivers e r bs → (length bs < fuel)%nat →
  runs (ReadConnectRequest fuel unicode_lower) (r, w) (λ res r' w', ∀ req, res = inl req →
    ∃ address rest, bs = connect_request address (cr_Port req) ++ rest ∧
      socks_address unicode_lower address (cr_Host req) (cr_AddrType req) ∧
      1 ≤ cr_Port req ≤ 65535 ∧ cr_OriginalHost req = cr_Host req ∧
      delivers e r' rest ∧ w' = w).
Proof.
  intros Hd Hf. unfold ReadConnectRequest. step; [|by intros; ret].
  intros d rest r1 -> Hlen Hd1 Hf1. apply blen_4 in Hlen as (v & c & z & atyp & ->).
  change (byte_at _ 0) with (Z_of_byte v). change (byte_at _ 1) with (Z_of_byte c).
  change (byte_at _ 2) with (Z_of_byte z). change (byte_at _ 3) with (Z_of_byte atyp).
  destruct (Z.eqb_spec (Z_of_byte v) Version) as [Hv|]; cbn [negb]; [|by ret].
  destruct (Z.eqb_spec (Z_of_byte z) 0) as [Hz|]; cbn [negb]; [|by ret].
  destruct (Z.eqb_spec (Z_of_byte c) CommandConnect) as [Hc|]; [|by ret].
  apply runs_bind. eapply runs_mono; [by apply ReadAddress_reads, Z_of_byte_range|].
  intros [[host kind]|rep] r2 w2 Haddr; [|by ret].
  destruct (Haddr host kind eq_refl) as (address & rest2 & Heq & Hsock & Hd2 & Hf2 & ->).
  step; [|by intros; ret]. intros p rest3 r3 -> Hlen Hd3 Hf3. apply blen_2 in Hlen as (p1 & p2 & ->).
  destruct (Z.ltb_spec (uint16_of [p1; p2]) 1); [by ret|]. ret. intros req [= <-].
  cbn [cr_Port cr_Host cr_AddrType cr_OriginalHost].
  change (Z_of_byte p1 * 256 + Z_of_byte p2) with (uint16_of [p1; p2]) in *.
  pose proof (uint16_range [p1; p2]).
  exists address, rest3. split_and!; try done; try lia.
  rewrite byte_of_Z_of_byte in Heq. unfold connect_request. rewrite put_uint16_of.
  apply Z_of_byte_inv in Hv as ->. apply Z_of_byte_inv in Hz as ->. apply Z_of_byte_inv in Hc as ->.
  cbn [app]. rewrite <- app_assoc. cbn [app] in Heq |- *. by rewrite Heq.
Qed.

Lemma ServeHandshake_reads cfg r w bs :
  delivers e r bs → (length bs < fuel)%nat →
  runs (ServeHandshake fuel VerifyPassword unicode_lower ParseIP cfg) (r, w)
    (λ res r' w', ∀ req, res = Some req →
      ∃ rest, accepted VerifyPassword unicode_lower cfg bs req rest ∧ delivers e r' rest ∧
        w' = foldl (λ w p, (Write w p).2) w (handshake_replies (lc_Auth cfg))).
Proof.
  intros Hd Hf. unfold ServeHandshake. apply runs_bind.
  eapply runs_mono; [by apply NegotiateMethod_reads|].
  intros [method ok] r1 w1 Hneg. cbn [fst snd] in Hneg. destruct ok; cbn [negb]; [|by ret].
  destruct (Hneg eq_refl) as (methods & rest1 & -> & Hlen & Hin & Hd1 & Hf1 & -> & ->).
  clear Hneg. unfold accepted, authenticated, handshake_replies. apply runs_bind.
  destruct (auth_Type (lc_Auth cfg) =?s SOCKS5AuthTypeUsernamePassword).
  - change (MethodUsernamePass =? MethodUsernamePass) with true. cbv iota.
    eapply runs_mono; [by apply Authenticate_reads|]. intros [] r2 w2 Hauth; [|by ret].
    destruct (Hauth eq_refl) as (pass & rest2 & -> & Hu & Hp & Hv & Hd2 & Hf2 & ->).
    cbn [negb]. apply runs_bind. eapply runs_mono; [by apply ReadConnectRequest_reads|].
    intros [req|rep] r3 w3 Hreq; [|by apply runs_bind, runs_send; intros _; ret].
    ret. intros req' [= <-].
    destruct (Hreq req eq_refl) as (address & rest3 & -> & Ha & Hport & Ho & Hd3 & ->).
    exists rest3. split_and!; [|done|done]. eexists methods, _, address.
    split_and!; try done; try lia. exists pass. by split_and!.
  - change (MethodNoAuth =? MethodUsernamePass) with false. cbv iota. ret.
    cbn [negb]. apply runs_bind. eapply runs_mono; [by apply ReadConnectRequest_reads|].
    intros [req|rep] r3 w3 Hreq; [|by apply runs_bind, runs_send; intros _; ret].
    ret. intros req' [= <-].
    destruct (Hreq req eq_refl) as (address & rest3 & -> & Ha & Hport & Ho & Hd3 & ->).
    exists rest3. split_and!; [|done|done]. exists methods, [], address.
    split_and!; try done; lia.
Qed.

(** *** What a complete handshake makes the server do *)

Local Ltac next n := apply runs_bind;
  eapply (runs_recv_app fuel n); [eassumption|eassumption|done|].

Lemma byte_len_small d : blen d ≤ 255 → Z_of_byte (byte_of_Z (blen d)) = blen d.
Proof. intros Hl. rewrite Z_of_byte_of_Z. apply Z.mod_small. unfold blen in *. lia. Qed.

Lemma NegotiateMethod_accepts authType r w methods rest :
  delivers e r (greeting methods ++ rest) → (length (greeting methods ++ rest) < fuel)%nat →
  1 ≤ blen methods ≤ 255 →
  let m := if authType =?s SOCKS5AuthTypeUsernamePassword then MethodUsernamePass
           else MethodNoAuth in
  byte_of_Z m ∈ methods →
  runs (NegotiateMethod fuel authType) (r, w) (λ res r' w', res = (m, true) ∧
    delivers e r' rest ∧ (length rest < fuel)%nat ∧ w' = (Write w [x05; byte_of_Z m]).2).
Proof.
  intros Hd Hf Hlen m Hin. unfold NegotiateMethod, greeting in *.
  rewrite <- app_assoc in Hd, Hf. next 2. intros r1 Hd1 Hf1.
  change (byte_at _ 0) with Version. change (byte_at _ 1) with (Z_of_byte (byte_of_Z (blen methods))).
  rewrite byte_len_small by lia. rewrite Z.eqb_refl. destruct (Z.eqb_spec (blen methods) 0); [lia|].
  cbn [negb orb]. next (blen methods). intros r2 Hd2 Hf2.
  apply runs_bind, runs_send. intros _. apply runs_ret. unfold m in *.
  destruct (authType =?s _); rewrite bool_decide_eq_true_2 by done; by split_and!.
Qed.

Lemma Authenticate_accepts auth r w pass rest :
  let part := credentials (to_bytes (auth_Username auth)) pass in
  delivers e r (part ++ rest) → (length (part ++ rest) < fuel)%nat →
  blen (to_bytes (auth_Username auth)) ≤ 255 → blen pass ≤ 255 →
  VerifyPassword (auth_PasswordHash auth) (of_bytes pass) = true →
  runs (Authenticate fuel VerifyPassword auth) (r, w) (λ res r' w', res = true ∧
    delivers e r' rest ∧ (length rest < fuel)%nat ∧ w' = (Write w [x01; x00]).2).
Proof.
  unfold credentials. set (user := to_bytes (auth_Username auth)). cbv zeta.
  rewrite <- !app_assoc. intros Hd Hf Hu Hp Hv. unfold Authenticate. next 2. intros r1 Hd1 Hf1.
  change (byte_at [x01; byte_of_Z (blen user)] 0) with AuthVersion.
  change (byte_at [x01; byte_of_Z (blen user)] 1) with (Z_of_byte (byte_of_Z (blen user))).
  rewrite byte_len_small by lia. rewrite Z.eqb_refl. cbn [negb].
  next (blen user). intros r2 Hd2 Hf2. next 1. intros r3 Hd3 Hf3.
  change (byte_at _ 0) with (Z_of_byte (byte_of_Z (blen pass))). rewrite byte_len_small by lia.
  next (blen pass). intros r4 Hd4 Hf4. apply runs_bind, runs_send. intros _. apply runs_ret.
  rewrite bool_decide_eq_true_2, Hv by done. by split_and!.
Qed.

Lemma ReadConnectRequest_accepts r w address host kind port rest :
  delivers e r (connect_request address port ++ rest) →
  (length (connect_request address port ++ rest) < fuel)%nat →
  socks_address unicode_lower address host kind → 1 ≤ port ≤ 65535 →
  runs (ReadConnectRequest fuel unicode_lower) (r, w) (λ res r' w',
    res = inl {| cr_Host := host; cr_Port := port; cr_AddrType := kind; cr_OriginalHost := host |} ∧
    delivers e r' rest ∧ w' = w).
Proof.
  unfold connect_request. rewrite <- !app_assoc. intros Hd Hf Haddr Hport.
  assert (Hshape : ∃ atyp raw, address = atyp :: raw) by (destruct Haddr; eauto).
  destruct Hshape as (atyp & raw & ->).
  change ([x05; x01; x00] ++ (atyp :: raw) ++ put_uint16 port ++ rest)
    with ([x05; x01; x00; atyp] ++ raw ++ put_uint16 port ++ rest) in Hd, Hf.
  unfold ReadConnectRequest. next 4. intros r1 Hd1 Hf1.
  change (byte_at _ 0 =? Version) with true. change (byte_at _ 2 =? 0) with true.
  change (byte_at _ 1 =? CommandConnect) with true. change (byte_at _ 3) with (Z_of_byte atyp).
  cbn [negb]. apply runs_bind.
  apply runs_mono with (Q := λ res r' w', res = inl (host, kind) ∧
    delivers e r' (put_uint16 port ++ rest) ∧ (length (put_uint16 port ++ rest) < fuel)%nat ∧ w' = w).
  - unfold ReadAddress. inversion Haddr; subst.
    + change (Z_of_byte x01 =? AddrIPv4) with true. next 4. intros r2 Hd2 Hf2.
      apply runs_ret. by split_and!.
    + change (Z_of_byte x04 =? AddrIPv4) with false. change (Z_of_byte x04 =? AddrIPv6) with true.
      next 16. intros r2 Hd2 Hf2. apply runs_ret. by split_and!.
    + change (Z_of_byte x03 =? AddrIPv4) with false. change (Z_of_byte x03 =? AddrIPv6) with false.
      change (Z_of_byte x03 =? AddrDomain) with true. rename raw0 into raw.
      change ((byte_of_Z (blen raw) :: raw) ++ put_uint16 port ++ rest)
        with ([byte_of_Z (blen raw)] ++ raw ++ put_uint16 port ++ rest) in Hd1, Hf1.
      next 1. intros r2 Hd2 Hf2.
      change (byte_at _ 0) with (Z_of_byte (byte_of_Z (blen raw))). rewrite byte_len_small by lia.
      destruct (Z.eqb_spec (blen raw) 0); [lia|]. next (blen raw). intros r3 Hd3 Hf3.
      apply runs_ret. by split_and!.
  - intros res r2 w2 (-> & Hd2 & Hf2 & ->). next 2. intros r3 Hd3 Hf3.
    rewrite <- (app_nil_r (put_uint16 port)), uint16_put, Z.mod_small by lia.
    destruct (Z.ltb_spec port 1); [lia|]. apply runs_ret. by split_and!.
Qed.

Lemma ServeHandshake_accepts cfg r w bs req rest :
  delivers e r bs → (length bs < fuel)%nat →
  accepted VerifyPassword unicode_lower cfg bs req rest →
  runs (ServeHandshake fuel VerifyPassword unicode_lower ParseIP cfg) (r, w)
    (λ res r' w', res = Some req ∧ delivers e r' rest).
Proof.
  intros Hd Hf (methods & auth & address & -> & Hlen & Hauth & Haddr & Hport & Ho).
  assert (Hreq : req = {| cr_Host := cr_Host req; cr_Port := cr_Port req;
    cr_AddrType := cr_AddrType req; cr_OriginalHost := cr_Host req |})
    by (destruct req; cbn in *; by subst).
  unfold ServeHandshake. apply runs_bind. unfold authenticated in Hauth.
  eapply runs_mono.
  { eapply (NegotiateMethod_accepts (auth_Type (lc_Auth cfg)) r w methods); [done|done|done|].
    destruct (auth_Type (lc_Auth cfg) =?s _); by destruct Hauth. }
  intros res r1 w1 (-> & Hd1 & Hf1 & ->). cbn [negb]. apply runs_bind.
  apply runs_mono with (Q := λ res r' w', res = true ∧
    delivers e r' (connect_request address (cr_Port req) ++ rest) ∧
    (length (connect_request address (cr_Port req) ++ rest) < fuel)%nat).
  - destruct (auth_Type (lc_Auth cfg) =?s _).
    + change (MethodUsernamePass =? MethodUsernamePass) with true. cbv iota.
      destruct Hauth as (_ & pass & -> & Hu & Hp & Hv).
      eapply runs_mono; [by apply (Authenticate_accepts _ _ _ pass)|].
      intros res r2 w2 (-> & Hd2 & Hf2 & _). done.
    + change (MethodNoAuth =? MethodUsernamePass) with false. cbv iota.
      destruct Hauth as [_ ->]. by apply runs_ret.
  - intros res r2 w2 (-> & Hd2 & Hf2). cbn [negb]. apply runs_bind.
    eapply runs_mono; [by eapply ReadConnectRequest_accepts|].
    intros res r3 w3 (-> & Hd3 & _). apply runs_ret. by rewrite <- Hreq.
Qed.
End Handshake.

(** C32: the SOCKS5 handshake admits exactly the clients it should.  On any
    stream the handshake returns; it yields the request [req] if and only if
    the client's bytes are a method offer containing the configured method,
    then, when the endpoint is password protected, the configured user name
    with a password that verifies against its hash, then a CONNECT request
    for [req] with a port in 1..65535.  In particular no request is read
    from an unauthenticated client.  The bytes behind the request stay
    unread for the relay, and an accepted client has been sent exactly the
    method selection and authentication replies. *)
Theorem socks5_handshake {R W} `{Reader R} `{StreamWriter W} (fuel : nat)
    (VerifyPassword : string → string → bool) (unicode_lower : string → string)
    (ParseIP : string → option IP) (cfg : SOCKS5ListenConfig)
    (r : R) (w : W) (bs : bytes) (e : goerror) :
  delivers e r bs → (length bs < fuel)%nat →
  ∃ res r' w',
    ServeHandshake fuel VerifyPassword unicode_lower ParseIP cfg (r, w) = Some (res, (r', w')) ∧
    (∀ req rest, accepted VerifyPassword unicode_lower cfg bs req rest →
       res = Some req ∧ delivers e r' rest) ∧
    (∀ req, res = Some req → ∃ rest,
       accepted VerifyPassword unicode_lower cfg bs req rest ∧ delivers e r' rest ∧
       w' = foldl (λ w p, (Write w p).2) w (handshake_replies (lc_Auth cfg))).
Proof.
  intros Hd Hf.
  destruct (ServeHandshake_reads fuel VerifyPassword unicode_lower ParseIP e cfg r w bs Hd Hf)
    as (res & r' & w' & E & Hreads).
  exists res, r', w'. split_and!; [done| |done]. intros req rest Hacc.
  destruct (ServeHandshake_accepts fuel VerifyPassword unicode_lower ParseIP e cfg r w bs req rest
    Hd Hf Hacc) as (res' & r'' & w'' & E' & Hres).
  rewrite E in E'. by injection E' as <- <- <-.
Qed.

(** ** The dial result round trip *)

(** What the dial result relies on of [encoding/json]: marshalled objects are
    not empty and unmarshal to the marshalled value (strings are UTF-8, see
    [ok]). *)
Record dial_json_laws (js : dial_json) (ok : SOCKS5DialResult → bool) : Prop := {
  dial_nonempty : ∀ d p, dial_Marshal js d = Ok p → p ≠ [];
  dial_unmarshal_marshal : ∀ d p, ok d = true → dial_Marshal js d = Ok p →
    dial_Unmarshal js p = Ok d;
}.

(** The dial result crosses the data stream unchanged.  When the target
    side's write succeeds, the ingress side, reading the stream in any
    segments, gets the same status, bound address and message and leaves every
    byte relayed behind it on the stream; a result without a status is
    refused by the reader, so that a failed dial is never taken for a
    success. *)
Theorem dial_result_roundtrip {W R} `{StreamWriter W} `{Reader R} (js : dial_json)
    (ok : SOCKS5DialResult → bool) (w w' : W) (d : SOCKS5DialResult) (r : R) (rest : bytes)
    (e : goerror) (fuel : nat) :
  dial_json_laws js ok → ok d = true → WriteDialResult js w d = (None, w') →
  delivers e r (drop (length (sent w)) (sent w') ++ rest) → (length (sent w') ≤ fuel)%nat →
  ∃ res r', ReadDialResult js fuel r = Some (res, r') ∧ delivers e r' rest ∧
    res = if dr_Status d =?s "" then Err (Errorf "SOCKS5 dial result missing status" [])
          else Ok d.
Proof.
  intros Hlaws Hok Hw Hd Hf. revert Hw. unfold WriteDialResult.
  destruct (dial_Marshal js d) as [raw|] eqn:Em; [|done].
  destruct (Z.ltb_spec maxDialResultLen (blen raw)) as [|Hlen]; [done|].
  destruct (Write w _) as [[n1 err1] w1] eqn:E1. destruct err1; [done|].
  destruct (Write w1 raw) as [[n2 err2] w2] eqn:E2. intros [= -> ->].
  apply write_all in E1. apply write_all in E2. rewrite E1 in E2. clear E1.
  rewrite E2, <- app_assoc in Hd. rewrite drop_app_length, <- app_assoc in Hd.
  rewrite E2, !length_app in Hf. cbn [length put_uint32] in Hf.
  pose proof (dial_nonempty _ _ Hlaws _ _ Em) as Hne.
  assert (0 < blen raw) by (destruct raw; [done|unfold blen; cbn; lia]).
  destruct (ReadFull_app fuel 4 r (put_uint32 (blen raw)) (raw ++ rest) e Hd) as (r1 & R1 & Hd1);
    [done|lia|].
  destruct (ReadFull_app fuel (Z.to_nat (blen raw)) r1 raw rest e Hd1) as (r2 & R2 & Hd2);
    [unfold blen; lia|unfold blen; lia|].
  eexists _, r2. split; [|split; [exact Hd2|reflexivity]].
  unfold ReadDialResult. erewrite parser_bind_ok by exact R1. cbv zeta.
  rewrite <- (app_nil_r (put_uint32 _)), uint32_put, Z.mod_small
    by (unfold maxDialResultLen in *; lia).
  destruct (Z.eqb_spec (blen raw) 0); [lia|].
  destruct (Z.ltb_spec maxDialResultLen (blen raw)); [lia|]. cbn [orb].
  erewrite parser_bind_ok by exact R2.
  rewrite (dial_unmarshal_marshal _ _ Hlaws _ _ Hok Em). by destruct (dr_Status d =?s "").
Qed.

(** *** Concrete clients *)

Module Socks5Sample.
Definition cfg : SOCKS5ListenConfig := {|
  lc_BindIP := "127.0.0.1"; lc_Port := 1080; lc_AllowedSourceCIDRs := ["127.0.0.0/8"%string];
  lc_Auth := {| auth_Type := SOCKS5AuthTypeUsernamePassword; auth_Username := "alice";
                auth_Password := ""; auth_PasswordHash := "hash-of-secret" |} |}.

Definition verify (hash password : string) : bool :=
  (hash =?s "hash-of-secret") && (password =?s "secret").

Definition request : ConnectRequest := {|
  cr_Host := "example.org"; cr_Port := 443; cr_AddrType := SOCKS5AddrTypeDomain;
  cr_OriginalHost := "example.org" |}.

(** The client offers both methods and asks for Example.ORG:443. *)
Definition client_bytes : bytes :=
  greeting [x00; x02] ++ credentials (to_bytes "alice") (to_bytes "secret")
  ++ connect_request (x03 :: x0b :: to_bytes "Example.ORG") 443.

Definition segs : segments :=
  {| sg_data := [take 3 client_bytes; drop 3 client_bytes ++ [x16; x03]]; sg_end := io_EOF |}.

Lemma client_segs_delivered : delivers io_EOF segs (client_bytes ++ [x16; x03]).
Proof.
  assert (Hs : delivers io_EOF segs (mjoin (sg_data segs))).
  { apply (segments_delivers io_EOF (sg_data segs)). by repeat constructor. }
  exact Hs.
Qed.

Definition dial : SOCKS5DialResult := {|
  dr_Status := SOCKS5DialStatusSuccess; dr_BoundAddr := "10.0.0.5"; dr_BoundPort := 40123;
  dr_Message := "" |}.

Definition text : bytes := map (λ b, if decide (b = x27) then x22 else b)
  (to_bytes "{'status':'success','bound_addr':'10.0.0.5','bound_port':40123}").

(** [encoding/json] on this result and this text. *)
Definition codec : dial_json := {|
  dial_Marshal := λ d, if decide (d = dial) then Ok text else Err (Errorf "other" []);
  dial_Unmarshal := λ p, if decide (p = text) then Ok dial else Err (Errorf "other" []) |}.

Lemma dial_codec_laws : dial_json_laws codec (λ _, true).
Proof.
  split.
  - intros d p. cbn. case_decide; [|done]. by intros [= <-].
  - intros d p _. cbn. case_decide as E; [|done]. intros [= <-]. by rewrite decide_True, E.
Qed.

Definition reply_segs : segments :=
  {| sg_data := [put_uint32 (blen text); text ++ [x48]]; sg_end := io_EOF |}.

Lemma reply_segs_delivered : delivers io_EOF reply_segs ((put_uint32 (blen text) ++ text) ++ [x48]).
Proof.
  assert (Hs : delivers io_EOF reply_segs (mjoin (sg_data reply_segs))).
  { apply (segments_delivers io_EOF (sg_data reply_segs)). by repeat constructor. }
  exact Hs.
Qed.
End Socks5Sample.

Lemma socks5_handshake_witness :
  ∃ r' w',
    ServeHandshake 60 Socks5Sample.verify id (λ _, None) Socks5Sample.cfg
      (Socks5Sample.segs, {| sk_out := []; sk_budget := 100 |})
      = Some (Some Socks5Sample.request, (r', w')) ∧
    delivers io_EOF r' [x16; x03].
Proof.
  destruct (socks5_handshake 60 Socks5Sample.verify id (λ _, None) Socks5Sample.cfg
    Socks5Sample.segs {| sk_out := []; sk_budget := 100 |}
    (Socks5Sample.client_bytes ++ [x16; x03]) io_EOF) as (res & r' & w' & E & Hacc & _).
  - exact Socks5Sample.client_segs_delivered.
  - vm_compute. lia.
  - destruct (Hacc Socks5Sample.request [x16; x03]) as [-> Hd].
    + exists [x00; x02], (credentials (to_bytes "alice") (to_bytes "secret")),
        (x03 :: x0b :: to_bytes "Example.ORG").
      split; [vm_compute; reflexivity|].
      split; [vm_compute; split; congruence|].
      split; [split; [apply (bool_decide_unpack _); vm_compute; exact I|]|].
      { exists (to_bytes "secret"). split; [reflexivity|].
        split; [vm_compute; congruence|]. split; [vm_compute; congruence|reflexivity]. }
      split; [|split; [vm_compute; split; congruence|reflexivity]].
      apply (socks_domain id (to_bytes "Example.ORG")). vm_compute. split; congruence.
    + by exists r', w'.
Defined.

Lemma dial_result_roundtrip_witness :
  ∃ res r', ReadDialResult Socks5Sample.codec 100 Socks5Sample.reply_segs = Some (res, r') ∧
    delivers io_EOF r' [x48] ∧ res = Ok Socks5Sample.dial.
Proof.
  apply (dial_result_roundtrip Socks5Sample.codec (λ _, true) {| sk_out := []; sk_budget := 100 |}
    {| sk_out := put_uint32 (blen Socks5Sample.text) ++ Socks5Sample.text;
       sk_budget := 100 - length (put_uint32 (blen Socks5Sample.text) ++ Socks5Sample.text) |}
    Socks5Sample.dial).
  - exact Socks5Sample.dial_codec_laws.
  - reflexivity.
  - vm_compute. reflexivity.
  - exact Socks5Sample.reply_segs_delivered.
  - vm_compute. lia.
Defined.
