(* ===== verification/Socks5Target.v ===== *)
(** The target side of a SOCKS5 tunnel (internal/client/socks5.go): the
    policy of a provisioned target, and dialling under that policy.

    Name resolution, dialling and the clock are oracles of the environment;
    [encoding/json], [net.ParseCIDR], [net.ParseIP] and the Unicode part of
    [strings.ToLower] are arguments.  Every call of [net.DialTimeout] is
    recorded, so the theorems speak of the connections that were attempted. *)
From Stdlib Require Import ZArith Lia Ascii String Strings.Byte.
From stdpp Require Import base tactics numbers list gmap strings.
From S2P Require Import Prelude GoStrings GoIO GoNet Protocol.

Record clientSOCKS5TargetRuntime := {
  rt_tunnelID : string; rt_revision : Z; rt_spec : TunnelSpec;
  rt_config : SOCKS5ConnectHandlerConfig;
  rt_targetCIDRs : list IPNet; rt_targetHosts : gset string; rt_targetPorts : gset Z;
}.

(** [targetAcceptsDataTransport] of internal/client/client.go *)
Definition targetAcceptsDataTransport (header : DataStreamHeader) : bool :=
  (dsh_Transport header =?s ActualTransportServerRelay)
  || ((dsh_Transport header =?s ActualTransportPeerDirect) && dsh_ServerAuthorized header).

Section Policy.
Context (Unmarshal : string → result SOCKS5ConnectHandlerConfig).
Context (ParseCIDR : string → result IPNet).
Context (unicode_lower : string → string).

Fixpoint parseCIDRs (values : list string) : result (list IPNet) :=
  match values with
  | [] => Ok []
  | value :: values =>
      match ParseCIDR (trim_space value) with
      | Err e => Err (Wrapf "invalid CIDR %q: %w" e)
      | Ok ipNet => out ← parseCIDRs values; Ok (ipNet :: out)
      end
  end.

Definition normalize_host (host : string) : string :=
  to_lower unicode_lower (trim_suffix (trim_space host) ".").

Fixpoint host_set (hosts : list string) : gset string :=
  match hosts with
  | [] => ∅
  | host :: hosts => let normalized := normalize_host host in
                     if normalized =?s "" then host_set hosts
                     else {[ normalized ]} ∪ host_set hosts
  end.

Fixpoint port_set (ports : list Z) : result (gset Z) :=
  match ports with
  | [] => Ok ∅
  | port :: ports =>
      if (port <? 1) || (65535 <? port)
      then Err (Errorf "allowed_target_ports values must be in range 1-65535" [])
      else set ← port_set ports; Ok ({[ port ]} ∪ set)
  end.

Definition newClientSOCKS5TargetRuntime (req : TunnelProvisionRequest)
  : result clientSOCKS5TargetRuntime :=
  match Unmarshal (ep_Config (ts_Target (pr_Spec req))) with
  | Err e => Err (Wrapf "decode SOCKS5 target config: %w" e)
  | Ok cfg =>
      if (length (hc_AllowedTargetCIDRs cfg) =? 0)%nat
      then Err (Errorf "allowed_target_cidrs is required" []) else
      cidrs ← parseCIDRs (hc_AllowedTargetCIDRs cfg);
      let cfg := {| hc_AllowedTargetCIDRs := hc_AllowedTargetCIDRs cfg;
                    hc_AllowedTargetHosts := hc_AllowedTargetHosts cfg;
                    hc_AllowedTargetPorts := hc_AllowedTargetPorts cfg;
                    hc_DialTimeoutSeconds :=
                      if hc_DialTimeoutSeconds cfg <=? 0 then 10 else hc_DialTimeoutSeconds cfg |} in
      let hostSet := host_set (hc_AllowedTargetHosts cfg) in
      portSet ← port_set (hc_AllowedTargetPorts cfg);
      Ok {| rt_tunnelID := pr_TunnelID req; rt_revision := pr_Revision req;
            rt_spec := pr_Spec req; rt_config := cfg; rt_targetCIDRs := cidrs;
            rt_targetHosts := hostSet; rt_targetPorts := portSet |}
  end.

Definition dataStreamHeaderMatchesSOCKS5Target (header : DataStreamHeader)
    (target : clientSOCKS5TargetRuntime) : bool :=
  if negb (dsh_TunnelID header =?s rt_tunnelID target)
     || negb (dsh_Revision header =? rt_revision target) then false else
  if negb (dsh_TargetRole header =?s DataStreamRoleTarget) then false else
  if negb (dsh_SourceRole header =?s DataStreamRoleServer)
     && negb (dsh_SourceRole header =?s DataStreamRoleIngress) then false else
  if negb (dsh_Direction header =?s DataStreamDirectionIngressToTarget)
     || negb (targetAcceptsDataTransport header) then false else
  if (ts_TransportPolicy (rt_spec target) =?s TransportPolicyDirectOnly)
     && negb (dsh_Transport header =?s ActualTransportPeerDirect) then false else
  if (dsh_TargetHost header =?s "") || (dsh_TargetPort header <? 1)
     || (65535 <? dsh_TargetPort header) then false else true.

Definition targetAllowsHostPort (host : string) (port : Z)
    (target : clientSOCKS5TargetRuntime) : bool :=
  if bool_decide (rt_targetPorts target ≠ ∅) && bool_decide (port ∉ rt_targetPorts target)
  then false
  else if bool_decide (rt_targetHosts target = ∅) then true
  else bool_decide (normalize_host host ∈ rt_targetHosts target).

Definition targetAllowsResolvedIPs (ips : list IP) (cidrs : list IPNet) : bool :=
  if (length ips =? 0)%nat || (length cidrs =? 0)%nat then false
  else forallb (λ ip, existsb (λ cidr, IPNet_Contains cidr ip) cidrs) ips.

(** *** Dialling *)

Context (ParseIP : string → option IP).
(** [resolver.LookupIP(ctx, "ip", host)] *)
Context (LookupIP : string → Z → result (list IP)).
(** [time.Until(deadline)] before the [i]-th attempt. *)
Context (remaining : nat → Z).
(** [net.DialTimeout] of the [i]-th attempt: the local TCP address of the
    connection, [None] when it is not a TCP address. *)
Context (DialTimeout : nat → IP → Z → Z → result (option (IP * Z))).
(** [netErr.Timeout()], [errors.Is(err, syscall.ECONNREFUSED)], [err.Error()] *)
Context (is_timeout is_refused : goerror → bool) (error_text : goerror → string).

Definition resolveTargetIPs (host : string) (timeout : Z) : result (list IP) :=
  match ParseIP host with
  | Some ip => Ok [ip]
  | None => LookupIP host timeout
  end.

(** The result and the attempts made, from the [i]-th on. *)
Fixpoint dial_loop (i : nat) (ips : list IP) (port : Z) (lastErr : option goerror)
  : result (option (IP * Z)) * list (IP * Z) :=
  let fail := match lastErr with
              | Some e => Err e
              | None => Err (Errorf "dial timeout" [])
              end in
  match ips with
  | [] => (fail, [])
  | ip :: ips =>
      if remaining i <=? 0 then (fail, []) else
      match DialTimeout i ip port (remaining i) with
      | Ok conn => (Ok conn, [(ip, port)])
      | Err e => let '(res, attempts) := dial_loop (S i) ips port (Some e) in
                 (res, (ip, port) :: attempts)
      end
  end.

Definition dialResolvedSOCKS5TargetIPs (ips : list IP) (port : Z)
  : result (option (IP * Z)) * list (IP * Z) := dial_loop 0 ips port None.

Definition failed_result (status message : string) : SOCKS5DialResult :=
  {| dr_Status := status; dr_BoundAddr := ""; dr_BoundPort := 0; dr_Message := message |}.

(** On a non-nil error, the only way it is called. *)
Definition socks5DialResultFromError (err : goerror) : SOCKS5DialResult :=
  failed_result (if is_timeout err then SOCKS5DialStatusDialTimeout
                 else if is_refused err then SOCKS5DialStatusConnectionRefused
                 else SOCKS5DialStatusGeneralFailure) (error_text err).

(** The result sent to the ingress side, and the connections attempted. *)
Definition dialSOCKS5Target (header : DataStreamHeader) (target : clientSOCKS5TargetRuntime)
  : SOCKS5DialResult * list (IP * Z) :=
  let host := trim_space (dsh_TargetHost header) in
  let port := dsh_TargetPort header in
  if negb (targetAllowsHostPort host port target)
  then (failed_result SOCKS5DialStatusTargetDenied "target denied by policy", []) else
  let timeout := hc_DialTimeoutSeconds (rt_config target) * second in
  match resolveTargetIPs host timeout with
  | Err e => (failed_result SOCKS5DialStatusHostUnreachable (error_text e), [])
  | Ok ips =>
      if negb (targetAllowsResolvedIPs ips (rt_targetCIDRs target))
      then (failed_result SOCKS5DialStatusTargetDenied "resolved target IP denied by policy", [])
      else
        let '(res, attempts) := dialResolvedSOCKS5TargetIPs ips port in
        match res with
        | Err e => (socks5DialResultFromError e, attempts)
        | Ok conn =>
            ({| dr_Status := SOCKS5DialStatusSuccess;
                dr_BoundAddr := match conn with Some (ip, _) => IP_String ip | None => "" end;
                dr_BoundPort := match conn with Some (_, p) => p | None => 0 end;
                dr_Message := "" |}, attempts)
        end
  end.
End Policy.

(** ** Facts *)

Section Facts.
Context (Unmarshal : string → result SOCKS5ConnectHandlerConfig).
Context (ParseCIDR : string → result IPNet) (unicode_lower : string → string).

Lemma parseCIDRs_elem values cidrs :
  parseCIDRs ParseCIDR values = Ok cidrs →
  length cidrs = length values ∧
  ∀ n, n ∈ cidrs → ∃ value, value ∈ values ∧ ParseCIDR (trim_space value) = Ok n.
Proof.
  revert cidrs. induction values as [|value values IH]; intros cidrs; cbn [parseCIDRs].
  { intros [= <-]. split; [done|]. by intros n ?%elem_of_nil. }
  destruct (ParseCIDR (trim_space value)) as [n0|] eqn:E; [|done].
  intros (out & Hout & [= <-])%bind_ok. destruct (IH _ Hout) as [Hlen IH'].
  split; [cbn; congruence|]. intros n [->|Hn]%elem_of_cons.
  - exists value. split; [by left|done].
  - destruct (IH' n Hn) as (v & ? & ?). exists v. split; [by right|done].
Qed.

Lemma host_set_elem hosts h :
  h ∈ host_set unicode_lower hosts ↔
  h ≠ ""%string ∧ ∃ host, host ∈ hosts ∧ normalize_host unicode_lower host = h.
Proof.
  induction hosts as [|host hosts IH]; cbn [host_set].
  { split; [by intros ?%elem_of_empty|]. intros (_ & x & ?%elem_of_nil & _). done. }
  destruct (String.eqb_spec (normalize_host unicode_lower host) "") as [E|E].
  - rewrite IH. split.
    + intros (? & x & ? & ?). split; [done|]. exists x. by split; [right|].
    + intros (? & x & [->|?]%elem_of_cons & ?); [congruence|]. split; [done|]. by exists x.
  - rewrite elem_of_union, elem_of_singleton, IH. split.
    + intros [->|(? & x & ? & ?)].
      * split; [done|]. exists host. by split; [left|].
      * split; [done|]. exists x. by split; [right|].
    + intros (? & x & [->|?]%elem_of_cons & ?); [by left|]. right. split; [done|]. by exists x.
Qed.

Lemma port_set_elem ports set :
  port_set ports = Ok set → Forall (λ p, 1 ≤ p ≤ 65535) ports ∧ ∀ p, p ∈ set ↔ p ∈ ports.
Proof.
  revert set. induction ports as [|port ports IH]; intros set; cbn [port_set].
  { intros [= <-]. split; [done|]. set_solver. }
  destruct (_ || _) eqn:G; [done|]. reflect_guards.
  intros (s & Hs & [= <-])%bind_ok. destruct (IH _ Hs) as [Hf Hin].
  split; [constructor; [lia|done]|]. intros p.
  rewrite elem_of_union, elem_of_singleton, Hin, elem_of_cons. done.
Qed.

Context (ParseIP : string → option IP) (LookupIP : string → Z → result (list IP)).
Context (remaining : nat → Z).
Context (DialTimeout : nat → IP → Z → Z → result (option (IP * Z))).

(** Only the given addresses are dialled, at most once each and in order, and
    a connection comes from the last attempt. *)
Lemma dial_loop_attempts i ips port lastErr res attempts :
  dial_loop remaining DialTimeout i ips port lastErr = (res, attempts) →
  attempts `prefix_of` ((λ ip, (ip, port)) <$> ips) ∧
  (is_ok res = true → attempts ≠ []).
Proof.
  revert i lastErr res attempts.
  induction ips as [|ip ips IH]; intros i lastErr res attempts; cbn [dial_loop].
  { destruct lastErr; intros [= <- <-]; by split. }
  destruct (remaining i <=? 0).
  { destruct lastErr; intros [= <- <-]; (split; [apply prefix_nil|done]). }
  destruct (DialTimeout i ip port (remaining i)) as [conn|err].
  { intros [= <- <-]. split; [|done]. by exists ((λ ip, (ip, port)) <$> ips). }
  destruct (dial_loop _ _ (S i) ips port (Some err)) as [res' attempts'] eqn:E.
  intros [= <- <-]. destruct (IH _ _ _ _ E) as [Hp _]. split; [|done].
  cbn. by apply prefix_cons.
Qed.
End Facts.

(** C33: a SOCKS5 target never dials outside its policy.  For a target
    provisioned from a configuration, whatever the requested host resolves to
    and whatever the dial attempts return: every connection attempted goes to
    the requested port, which is in the allowed ports when there are any; the
    requested host is in the allowed hosts when there are any; and the address
    is one of the addresses of a single resolution, all of which are inside
    the allowed networks, so that a name cannot be re-resolved between the
    check and the dial.  A denied request attempts nothing, and success
    is only reported after an attempt. *)
Theorem socks5_target_policy
    (Unmarshal : string → result SOCKS5ConnectHandlerConfig) (ParseCIDR : string → result IPNet)
    (unicode_lower : string → string) (ParseIP : string → option IP)
    (LookupIP : string → Z → result (list IP)) (remaining : nat → Z)
    (DialTimeout : nat → IP → Z → Z → result (option (IP * Z)))
    (is_timeout is_refused : goerror → bool) (error_text : goerror → string)
    (req : TunnelProvisionRequest) (cfg : SOCKS5ConnectHandlerConfig)
    (target : clientSOCKS5TargetRuntime) (header : DataStreamHeader)
    (res : SOCKS5DialResult) (attempts : list (IP * Z)) :
  newClientSOCKS5TargetRuntime Unmarshal ParseCIDR unicode_lower req = Ok target →
  Unmarshal (ep_Config (ts_Target (pr_Spec req))) = Ok cfg →
  dialSOCKS5Target unicode_lower ParseIP LookupIP remaining DialTimeout
    is_timeout is_refused error_text header target = (res, attempts) →
  (attempts ≠ [] →
    (hc_AllowedTargetPorts cfg ≠ [] → dsh_TargetPort header ∈ hc_AllowedTargetPorts cfg) ∧
    ((∃ h, h ∈ hc_AllowedTargetHosts cfg ∧ normalize_host unicode_lower h ≠ ""%string) →
      ∃ h, h ∈ hc_AllowedTargetHosts cfg ∧
        normalize_host unicode_lower h
        = normalize_host unicode_lower (trim_space (dsh_TargetHost header))) ∧
    ∃ ips,
      resolveTargetIPs ParseIP LookupIP (trim_space (dsh_TargetHost header))
        (hc_DialTimeoutSeconds (rt_config target) * second) = Ok ips ∧
      attempts `prefix_of` ((λ ip, (ip, dsh_TargetPort header)) <$> ips) ∧
      ∀ ip, ip ∈ ips → ∃ value n, value ∈ hc_AllowedTargetCIDRs cfg ∧
        ParseCIDR (trim_space value) = Ok n ∧ IPNet_Contains n ip = true) ∧
  (dr_Status res = SOCKS5DialStatusTargetDenied → attempts = []) ∧
  (dr_Status res = SOCKS5DialStatusSuccess → attempts ≠ []).
Proof.
  intros Hnew Hcfg. unfold newClientSOCKS5TargetRuntime in Hnew. rewrite Hcfg in Hnew.
  destruct (length (hc_AllowedTargetCIDRs cfg) =? 0)%nat; [done|].
  apply bind_ok in Hnew as (cidrs & Hcidrs & Hnew). cbv zeta in Hnew.
  apply bind_ok in Hnew as (ports & Hports & [= <-]). cbn [hc_AllowedTargetPorts] in Hports.
  unfold dialSOCKS5Target. cbn [rt_targetCIDRs rt_config hc_DialTimeoutSeconds].
  destruct (targetAllowsHostPort _ _ _ _) eqn:Gpolicy; cbn [negb]; [|by intros [= <- <-]].
  destruct (resolveTargetIPs _ _ _ _) as [ips|err]; [|by intros [= <- <-]].
  destruct (targetAllowsResolvedIPs ips cidrs) eqn:Gips; cbn [negb]; [|by intros [= <- <-]].
  destruct (dialResolvedSOCKS5TargetIPs _ _ ips _) as [dialled tried] eqn:Edial.
  apply dial_loop_attempts in Edial as [Hprefix Hok].
  intros Hres. assert (Htried : tried = attempts) by (by destruct dialled; injection Hres).
  subst tried. split_and!.
  - intros Hne. unfold targetAllowsHostPort in Gpolicy.
    cbn [rt_targetPorts rt_targetHosts hc_AllowedTargetHosts] in Gpolicy.
    destruct (port_set_elem _ _ Hports) as [_ Hpin].
    destruct (_ && _) eqn:Gp; [done|]. split_and!.
    + intros Hp. apply Hpin. apply andb_false_iff in Gp as [Gp|Gp]; apply bool_decide_eq_false in Gp.
      * exfalso. apply Gp. destruct (hc_AllowedTargetPorts cfg) as [|p ps]; [done|].
        intros Hempty. apply (not_elem_of_empty (C := gset Z) p). rewrite <- Hempty.
        apply Hpin. by left.
      * by apply dec_stable.
    + intros (h & Hh & Hn). destruct (bool_decide (host_set _ _ = ∅)) eqn:Gh.
      * exfalso. apply bool_decide_eq_true in Gh.
        apply (not_elem_of_empty (C := gset string) (normalize_host unicode_lower h)).
        rewrite <- Gh. apply host_set_elem. split; [done|]. by exists h.
      * apply bool_decide_eq_true, host_set_elem in Gpolicy as (_ & h' & ? & ?). by exists h'.
    + exists ips. split_and!; [done|done|]. intros ip Hip.
      unfold targetAllowsResolvedIPs in Gips. destruct (_ || _); [done|].
      rewrite forallb_forall in Gips. specialize (Gips ip ltac:(by apply list_elem_of_In)).
      apply existsb_exists in Gips as (n & Hn%list_elem_of_In & Hc).
      destruct (proj2 (parseCIDRs_elem _ _ _ Hcidrs) n Hn) as (value & ? & ?).
      by exists value, n.
  - destruct dialled as [|err]; injection Hres as <-; cbn; [done|].
    by destruct (is_timeout err), (is_refused err).
  - destruct dialled as [|err]; injection Hres as <-; cbn; [by intros _; apply Hok|].
    by destruct (is_timeout err), (is_refused err).
Qed.

(** *** A target reached through DNS *)

Module TargetSample.
Definition cfg : SOCKS5ConnectHandlerConfig := {|
  hc_AllowedTargetCIDRs := ["10.0.0.0/8"%string]; hc_AllowedTargetHosts := ["DB.internal."%string];
  hc_AllowedTargetPorts := [5432; 443]; hc_DialTimeoutSeconds := 0 |}.
Definition ParseCIDR (s : string) : result IPNet :=
  if s =?s "10.0.0.0/8" then Ok {| net_IP := [x0a; x00; x00; x00]; net_Mask := [xff; x00; x00; x00] |}
  else Err (Errorf "invalid CIDR address" []).
Definition endpoint : EndpointSpec := {|
  ep_Location := "client"; ep_ClientID := "c2"; ep_Type := "socks5_connect_handler"; ep_Config := "cfg" |}.
Definition req : TunnelProvisionRequest := {|
  pr_TunnelID := "t1"; pr_Revision := 3; pr_Role := "target";
  pr_Spec := {| ts_ID := "t1"; ts_Name := "db"; ts_Revision := 3; ts_Topology := "server_expose";
                ts_OwnerClientID := "c2"; ts_Ingress := endpoint; ts_Target := endpoint;
                ts_TransportPolicy := TransportPolicyServerRelayOnly |} |}.
Definition header : DataStreamHeader := {|
  dsh_Kind := DataStreamHeaderKindTunnelStream; dsh_TunnelID := "t1"; dsh_Revision := 3;
  dsh_StreamID := "s1"; dsh_OpenClientID := "c1"; dsh_SourceRole := DataStreamRoleServer;
  dsh_TargetRole := DataStreamRoleTarget; dsh_Direction := DataStreamDirectionIngressToTarget;
  dsh_Transport := ActualTransportServerRelay; dsh_OpenToken := "tok";
  dsh_ServerAuthorized := false; dsh_TargetHost := "db.internal"; dsh_TargetPort := 5432;
  dsh_TargetAddrType := SOCKS5AddrTypeDomain; dsh_OriginalHost := "db.internal" |}.
(** The name has two addresses, and the first refuses the connection. *)
Definition LookupIP (host : string) (timeout : Z) : result (list IP) :=
  Ok [[x0a; x00; x00; x01]; [x0a; x00; x00; x02]].
Definition DialTimeout (i : nat) (ip : IP) (port timeout : Z) : result (option (IP * Z)) :=
  if (i =? 0)%nat then Err (Sentinel "connection refused") else Ok (Some ([x0a; x00; x00; x09], 40000)).
Definition target : result clientSOCKS5TargetRuntime :=
  newClientSOCKS5TargetRuntime (λ _, Ok cfg) ParseCIDR id req.
Definition outcome (t : clientSOCKS5TargetRuntime) : SOCKS5DialResult * list (IP * Z) :=
  dialSOCKS5Target id (λ _, None) LookupIP (λ _, second) DialTimeout (λ _, false) (λ _, true)
    (λ _, ""%string) header t.
End TargetSample.

Lemma socks5_target_policy_witness :
  ∃ t, TargetSample.target = Ok t ∧ dr_Status (TargetSample.outcome t).1 = SOCKS5DialStatusSuccess ∧
    5432 ∈ hc_AllowedTargetPorts TargetSample.cfg.
Proof.
  destruct TargetSample.target as [t|] eqn:E; [|vm_compute in E; discriminate E].
  exists t.
  destruct (socks5_target_policy (λ _, Ok TargetSample.cfg) TargetSample.ParseCIDR id (λ _, None)
    TargetSample.LookupIP (λ _, second) TargetSample.DialTimeout (λ _, false) (λ _, true)
    (λ _, ""%string) TargetSample.req TargetSample.cfg t TargetSample.header
    (TargetSample.outcome t).1 (TargetSample.outcome t).2 E eq_refl) as (Hpol & _ & _).
  { apply surjective_pairing. }
  injection E as <-. split_and!; [done|vm_compute; reflexivity|].
  apply Hpol; [vm_compute; congruence|done].
Defined.
