(* ===== verification/TunnelState.v ===== *)
(** Tunnel states and the client view of a tunnel
    (internal/server/tunnel_state.go), with the endpoint redaction it uses
    ([endpointConfigForView] in unified_tunnel_api.go and socks5_config.go).

    A Go panic is a value of [panicking]. [encoding/json] on the endpoint
    configurations is the argument [endpoint_json]. *)
From Stdlib Require Import ZArith Lia Ascii String.
From stdpp Require Import base tactics numbers list gmap strings.
From S2P Require Import Prelude GoStrings Protocol.

Inductive panicking (A : Type) :=
| Returns (a : A)
| Panics (e : goerror).
Arguments Returns {A} a.
Arguments Panics {A} e.

#[export] Instance panicking_ret : MRet panicking := λ A a, Returns a.
#[export] Instance panicking_bind : MBind panicking := λ A B f m,
  match m with Returns a => f a | Panics e => Panics e end.

Definition canonicalDesiredState (desiredState : string) : string :=
  if desiredState =?s "paused" then ProxyDesiredStateStopped else desiredState.

Definition tunnelErrorForRuntimeState (runtimeState errMsg : string) : string :=
  if runtimeState =?s ProxyRuntimeStateError then errMsg else "".

Definition validateTunnelStates (desiredState runtimeState errMsg : string) : result unit :=
  let desiredState := canonicalDesiredState desiredState in
  _ ← (if desiredState =?s ProxyDesiredStateRunning then
         if (runtimeState =?s ProxyRuntimeStatePending)
            || (runtimeState =?s ProxyRuntimeStateExposed)
            || (runtimeState =?s ProxyRuntimeStateOffline)
            || (runtimeState =?s ProxyRuntimeStateError) then Ok tt
         else Err (Errorf "running desired_state does not support runtime_state=%q"
                     [AStr runtimeState])
       else if desiredState =?s ProxyDesiredStateStopped then
         if negb (runtimeState =?s ProxyRuntimeStateIdle)
         then Err (Errorf "desired_state=%q only allows runtime_state=idle, got %q"
                     [AStr desiredState; AStr runtimeState])
         else Ok tt
       else Err (Errorf "unknown desired_state=%q" [AStr desiredState]));
  if negb (runtimeState =?s ProxyRuntimeStateError) && negb (errMsg =?s "")
  then Err (Errorf "error must be empty when runtime_state=%q" [AStr runtimeState])
  else Ok tt.

Definition mustValidateTunnelStates (desiredState runtimeState errMsg : string)
  : panicking unit :=
  match validateTunnelStates desiredState runtimeState errMsg with
  | Err err => Panics err
  | Ok _ => Returns tt
  end.

Definition with_states (config : ProxyConfig) (desired runtime err : string) : ProxyConfig := {|
  pc_ID := pc_ID config; pc_Name := pc_Name config; pc_Revision := pc_Revision config;
  pc_Type := pc_Type config; pc_LocalIP := pc_LocalIP config; pc_LocalPort := pc_LocalPort config;
  pc_RemotePort := pc_RemotePort config; pc_BindIP := pc_BindIP config;
  pc_Domain := pc_Domain config; pc_ClientID := pc_ClientID config;
  pc_Topology := pc_Topology config; pc_OwnerClientID := pc_OwnerClientID config;
  pc_Ingress := pc_Ingress config; pc_Target := pc_Target config;
  pc_TransportPolicy := pc_TransportPolicy config; pc_ActualTransport := pc_ActualTransport config;
  pc_Bandwidth := pc_Bandwidth config; pc_CreatedAt := pc_CreatedAt config;
  pc_DesiredState := desired; pc_RuntimeState := runtime; pc_Error := err;
  pc_Capabilities := pc_Capabilities config |}.

(** The update through the pointer [config]. *)
Definition setProxyConfigStates (config : ProxyConfig) (desiredState runtimeState errMsg : string)
  : panicking ProxyConfig :=
  let desiredState := canonicalDesiredState desiredState in
  _ ← mustValidateTunnelStates desiredState runtimeState errMsg;
  mret (with_states config desiredState runtimeState
          (tunnelErrorForRuntimeState runtimeState errMsg)).

Definition isTunnelExposed (config : ProxyConfig) : bool :=
  (pc_DesiredState config =?s ProxyDesiredStateRunning)
  && (pc_RuntimeState config =?s ProxyRuntimeStateExposed).

Definition isActiveRuntimeState (runtimeState : string) : bool :=
  (runtimeState =?s ProxyRuntimeStateExposed) || (runtimeState =?s TunnelRuntimeStateActive).

Definition isTunnelOffline (config : ProxyConfig) : bool :=
  (pc_DesiredState config =?s ProxyDesiredStateRunning)
  && (pc_RuntimeState config =?s ProxyRuntimeStateOffline).

Definition canResumeTunnel (config : ProxyConfig) : bool :=
  let desiredState := canonicalDesiredState (pc_DesiredState config) in
  ((desiredState =?s ProxyDesiredStateStopped)
   && (pc_RuntimeState config =?s ProxyRuntimeStateIdle))
  || ((pc_DesiredState config =?s ProxyDesiredStateRunning)
      && (pc_RuntimeState config =?s ProxyRuntimeStateError)).

Definition canEditOrDeleteLiveTunnel (config : ProxyConfig) : bool :=
  let desiredState := canonicalDesiredState (pc_DesiredState config) in
  ((desiredState =?s ProxyDesiredStateStopped)
   && (pc_RuntimeState config =?s ProxyRuntimeStateIdle))
  || ((pc_DesiredState config =?s ProxyDesiredStateRunning)
      && (pc_RuntimeState config =?s ProxyRuntimeStateError)).

Definition computeTunnelCapabilities (config : ProxyConfig) : TunnelCapabilities := {|
  CanResume := canResumeTunnel config;
  CanStop := isTunnelExposed config || isTunnelOffline config;
  CanEdit := canEditOrDeleteLiveTunnel config || isTunnelOffline config;
  CanDelete := negb (pc_RuntimeState config =?s ProxyRuntimeStatePending);
  CanMigrate := negb (pc_RuntimeState config =?s ProxyRuntimeStatePending)
                && negb (pc_ID config =?s "") && (0 <? pc_Revision config) |}.

(** ** Endpoint configurations in the view *)

(** Slices that may be nil. *)
Record tcpListenConfigAPI := {
  tl_BindIP : string; tl_Port : Z; tl_AllowedSourceCIDRs : option (list string);
}.
Record httpHostConfigAPI := {
  hh_Domain : string; hh_AllowedSourceCIDRs : option (list string); hh_Auth : HTTPAuthConfig;
}.
(** The map [redactSOCKS5ListenConfig] marshals; no user name key when it is
    empty. *)
Record socks5_view := {
  sv_bind_ip : string; sv_port : Z; sv_allowed_source_cidrs : list string;
  sv_auth_type : string; sv_username : option string;
}.

(** [json.Unmarshal] and [mustRawJSON] on these types. *)
Record endpoint_json := {
  unmarshal_socks5 : string → result SOCKS5ListenConfig;
  unmarshal_http : string → result httpHostConfigAPI;
  unmarshal_tcp : string → result tcpListenConfigAPI;
  raw_socks5_view : socks5_view → string;
  raw_http : httpHostConfigAPI → string;
  raw_tcp : tcpListenConfigAPI → string;
}.

Definition allowAllSourceCIDRs : list string := ["0.0.0.0/0"; "::/0"]%string.

Section View.
Context (js : endpoint_json).

Definition redactSOCKS5ListenConfig (raw : string) : string :=
  match unmarshal_socks5 js raw with
  | Err _ => raw
  | Ok cfg =>
      raw_socks5_view js {|
        sv_bind_ip := lc_BindIP cfg; sv_port := lc_Port cfg;
        sv_allowed_source_cidrs := lc_AllowedSourceCIDRs cfg;
        sv_auth_type := auth_Type (lc_Auth cfg);
        sv_username := if auth_Username (lc_Auth cfg) =?s "" then None
                       else Some (auth_Username (lc_Auth cfg)) |}
  end.

Definition redactHTTPHostConfig (raw : string) : string :=
  match unmarshal_http js raw with
  | Err _ => raw
  | Ok cfg =>
      raw_http js {|
        hh_Domain := hh_Domain cfg;
        hh_AllowedSourceCIDRs := match hh_AllowedSourceCIDRs cfg with
                                 | None => Some allowAllSourceCIDRs
                                 | cidrs => cidrs
                                 end;
        hh_Auth := {| ha_Type := if ha_Type (hh_Auth cfg) =?s "" then HTTPAuthTypeNone
                                 else ha_Type (hh_Auth cfg);
                      ha_Username := ha_Username (hh_Auth cfg);
                      ha_Password := ""; ha_PasswordHash := "" |} |}
  end.

Definition endpointConfigForView (endpoint : EndpointSpec) : string :=
  if ep_Type endpoint =?s IngressTypeSOCKS5Listen
  then redactSOCKS5ListenConfig (ep_Config endpoint) else
  if ep_Type endpoint =?s IngressTypeHTTPHost
  then redactHTTPHostConfig (ep_Config endpoint) else
  if (ep_Type endpoint =?s IngressTypeTCPListen) || (ep_Type endpoint =?s IngressTypeUDPListen) then
    match unmarshal_tcp js (ep_Config endpoint) with
    | Ok {| tl_BindIP := ip; tl_Port := port; tl_AllowedSourceCIDRs := None |} =>
        raw_tcp js {| tl_BindIP := ip; tl_Port := port;
                      tl_AllowedSourceCIDRs := Some allowAllSourceCIDRs |}
    | _ => ep_Config endpoint
    end
  else ep_Config endpoint.

Definition endpoint_view (endpoint : EndpointSpec) : EndpointSpec := {|
  ep_Location := ep_Location endpoint; ep_ClientID := ep_ClientID endpoint;
  ep_Type := ep_Type endpoint; ep_Config := endpointConfigForView endpoint |}.

Definition with_endpoints (config : ProxyConfig) (ingress target : option EndpointSpec)
    (capabilities : option TunnelCapabilities) : ProxyConfig := {|
  pc_ID := pc_ID config; pc_Name := pc_Name config; pc_Revision := pc_Revision config;
  pc_Type := pc_Type config; pc_LocalIP := pc_LocalIP config; pc_LocalPort := pc_LocalPort config;
  pc_RemotePort := pc_RemotePort config; pc_BindIP := pc_BindIP config;
  pc_Domain := pc_Domain config; pc_ClientID := pc_ClientID config;
  pc_Topology := pc_Topology config; pc_OwnerClientID := pc_OwnerClientID config;
  pc_Ingress := ingress; pc_Target := target;
  pc_TransportPolicy := pc_TransportPolicy config; pc_ActualTransport := pc_ActualTransport config;
  pc_Bandwidth := pc_Bandwidth config; pc_CreatedAt := pc_CreatedAt config;
  pc_DesiredState := pc_DesiredState config; pc_RuntimeState := pc_RuntimeState config;
  pc_Error := pc_Error config; pc_Capabilities := capabilities |}.

Definition proxyConfigForClientView (config : ProxyConfig) (clientOnline : bool)
  : panicking ProxyConfig :=
  normalized ← setProxyConfigStates config (pc_DesiredState config) (pc_RuntimeState config)
                 (pc_Error config);
  let normalized := with_endpoints normalized (endpoint_view <$> pc_Ingress normalized)
                      (endpoint_view <$> pc_Target normalized) (pc_Capabilities normalized) in
  let normalized :=
    if negb clientOnline && (pc_DesiredState normalized =?s ProxyDesiredStateRunning)
       && negb (pc_RuntimeState normalized =?s ProxyRuntimeStateError)
    then with_states normalized (pc_DesiredState normalized) ProxyRuntimeStateOffline ""
    else normalized in
  mret (with_endpoints normalized (pc_Ingress normalized) (pc_Target normalized)
          (Some (computeTunnelCapabilities normalized))).
End View.

(** ** Facts *)

(** The admissible pairs of a canonical desired and a runtime state. *)
Inductive state_pair : string → string → Prop :=
| running_pending : state_pair ProxyDesiredStateRunning ProxyRuntimeStatePending
| running_exposed : state_pair ProxyDesiredStateRunning ProxyRuntimeStateExposed
| running_offline : state_pair ProxyDesiredStateRunning ProxyRuntimeStateOffline
| running_error : state_pair ProxyDesiredStateRunning ProxyRuntimeStateError
| stopped_idle : state_pair ProxyDesiredStateStopped ProxyRuntimeStateIdle.

Lemma canonical_idempotent d :
  canonicalDesiredState (canonicalDesiredState d) = canonicalDesiredState d.
Proof.
  unfold canonicalDesiredState. destruct (d =?s "paused") eqn:E; [done|]. by rewrite E.
Qed.

Lemma validateTunnelStates_ok d r err :
  validateTunnelStates d r err = Ok tt ↔
  state_pair (canonicalDesiredState d) r ∧ (r ≠ ProxyRuntimeStateError → err = ""%string).
Proof.
  unfold validateTunnelStates. split.
  - intros ([] & Hst & Herr)%bind_ok.
    assert (Hpair : state_pair (canonicalDesiredState d) r).
    { destruct (String.eqb_spec (canonicalDesiredState d) ProxyDesiredStateRunning) as [->|_].
      - destruct (String.eqb_spec r ProxyRuntimeStatePending) as [->|_]; [constructor|].
        destruct (String.eqb_spec r ProxyRuntimeStateExposed) as [->|_]; [constructor|].
        destruct (String.eqb_spec r ProxyRuntimeStateOffline) as [->|_]; [constructor|].
        destruct (String.eqb_spec r ProxyRuntimeStateError) as [->|_]; [constructor|done].
      - destruct (String.eqb_spec (canonicalDesiredState d) ProxyDesiredStateStopped) as [->|_]; [|done].
        destruct (String.eqb_spec r ProxyRuntimeStateIdle) as [->|_]; [constructor|done]. }
    split; [done|]. intros Hne. destruct (String.eqb_spec r ProxyRuntimeStateError); [done|].
    destruct (String.eqb_spec err ""); [done|]. done.
  - intros [Hpair Herr]. apply bind_ok. exists tt. split.
    + by destruct Hpair.
    + destruct (String.eqb_spec r ProxyRuntimeStateError); [done|].
      destruct (String.eqb_spec err ""); [done|]. by rewrite Herr in *.
Qed.

(** What a client may do with a tunnel in a runtime state; [identified]: the
    tunnel has a stable ID and a revision. *)
Definition allowed_operations (runtimeState : string) (identified : bool) : TunnelCapabilities :=
  if runtimeState =?s ProxyRuntimeStatePending then
    {| CanResume := false; CanStop := false; CanEdit := false; CanDelete := false;
       CanMigrate := false |}
  else if runtimeState =?s ProxyRuntimeStateExposed then
    {| CanResume := false; CanStop := true; CanEdit := false; CanDelete := true;
       CanMigrate := identified |}
  else if runtimeState =?s ProxyRuntimeStateOffline then
    {| CanResume := false; CanStop := true; CanEdit := true; CanDelete := true;
       CanMigrate := identified |}
  else {| CanResume := true; CanStop := false; CanEdit := true; CanDelete := true;
          CanMigrate := identified |}.

(** The runtime state a client sees. *)
Definition viewed_runtime (d r : string) (online : bool) : string :=
  if negb online && (d =?s ProxyDesiredStateRunning) && negb (r =?s ProxyRuntimeStateError)
  then ProxyRuntimeStateOffline else r.

Lemma viewed_pair d r online : state_pair d r → state_pair d (viewed_runtime d r online).
Proof. destruct online; destruct 1; constructor. Qed.

Lemma viewed_twice d r online :
  viewed_runtime d (viewed_runtime d r online) online = viewed_runtime d r online.
Proof.
  unfold viewed_runtime. destruct online; cbn [negb andb]; [done|].
  destruct (d =?s ProxyDesiredStateRunning) eqn:Ed; cbn [andb]; [|done].
  destruct (r =?s ProxyRuntimeStateError) eqn:Er; cbn [negb]; [by rewrite Er|done].
Qed.

Lemma capabilities_of_pair config :
  state_pair (pc_DesiredState config) (pc_RuntimeState config) →
  computeTunnelCapabilities config =
    allowed_operations (pc_RuntimeState config)
      (negb (pc_ID config =?s "") && (0 <? pc_Revision config)).
Proof.
  unfold computeTunnelCapabilities, canResumeTunnel, canEditOrDeleteLiveTunnel,
    isTunnelExposed, isTunnelOffline. intros Hpair.
  destruct (negb (pc_ID config =?s "")), (0 <? pc_Revision config); destruct Hpair; reflexivity.
Qed.

Lemma client_view_returns js config online :
  validateTunnelStates (pc_DesiredState config) (pc_RuntimeState config) (pc_Error config) = Ok tt →
  ∃ v, proxyConfigForClientView js config online = Returns v ∧
    pc_DesiredState v = canonicalDesiredState (pc_DesiredState config) ∧
    pc_RuntimeState v =
      viewed_runtime (canonicalDesiredState (pc_DesiredState config)) (pc_RuntimeState config) online ∧
    pc_Error v = tunnelErrorForRuntimeState (pc_RuntimeState config) (pc_Error config) ∧
    pc_Ingress v = endpoint_view js <$> pc_Ingress config ∧
    pc_Target v = endpoint_view js <$> pc_Target config ∧
    pc_Capabilities v = Some (allowed_operations (pc_RuntimeState v)
      (negb (pc_ID config =?s "") && (0 <? pc_Revision config))) ∧
    validateTunnelStates (pc_DesiredState v) (pc_RuntimeState v) (pc_Error v) = Ok tt.
Proof.
  intros Hv. pose proof Hv as [Hpair Herr]%validateTunnelStates_ok.
  set (d := canonicalDesiredState (pc_DesiredState config)) in *.
  unfold proxyConfigForClientView, setProxyConfigStates, mustValidateTunnelStates. fold d.
  assert (Hd : validateTunnelStates d (pc_RuntimeState config) (pc_Error config) = Ok tt).
  { apply validateTunnelStates_ok. unfold d. by rewrite canonical_idempotent. }
  rewrite Hd. cbn.
  pose proof (viewed_pair _ _ online Hpair) as Hview.
  pose proof (viewed_twice d (pc_RuntimeState config) online).
  unfold viewed_runtime in *.
  destruct (negb online && (d =?s ProxyDesiredStateRunning)
            && negb (pc_RuntimeState config =?s ProxyRuntimeStateError)) eqn:G; cbn.
  all: eexists; split; [reflexivity|]; cbn; rewrite capabilities_of_pair by done; cbn.
  all: split_and!; try done.
  - reflect_guards. destruct G as [_ Hne]. unfold tunnelErrorForRuntimeState.
    destruct (String.eqb_spec (pc_RuntimeState config) ProxyRuntimeStateError); [done|done].
  - apply validateTunnelStates_ok. unfold d. rewrite canonical_idempotent. by split.
  - apply validateTunnelStates_ok. unfold d. rewrite canonical_idempotent. split; [done|].
    intros Hne. unfold tunnelErrorForRuntimeState.
    destruct (String.eqb_spec (pc_RuntimeState config) ProxyRuntimeStateError); [done|done].
Qed.

(** The client view of a tunnel.  The view panics exactly on state
    combinations [validateTunnelStates] rejects.  Otherwise it shows the
    canonical desired state, shows a running tunnel of an offline client as
    offline unless it is in error, has an error message only in the error
    state, is itself a valid state combination, and advertises exactly the
    operations of the capability table; viewing the view again changes none
    of this. *)
Theorem client_view (js : endpoint_json) (config : ProxyConfig) (online : bool) :
  match validateTunnelStates (pc_DesiredState config) (pc_RuntimeState config) (pc_Error config) with
  | Err _ => ∃ e, proxyConfigForClientView js config online = Panics e
  | Ok _ =>
      ∃ v, proxyConfigForClientView js config online = Returns v ∧
        pc_DesiredState v = canonicalDesiredState (pc_DesiredState config) ∧
        pc_RuntimeState v =
          viewed_runtime (pc_DesiredState v) (pc_RuntimeState config) online ∧
        pc_Error v = (if pc_RuntimeState config =?s ProxyRuntimeStateError
                      then pc_Error config else "") ∧
        validateTunnelStates (pc_DesiredState v) (pc_RuntimeState v) (pc_Error v) = Ok tt ∧
        pc_Capabilities v = Some (allowed_operations (pc_RuntimeState v)
          (negb (pc_ID config =?s "") && (0 <? pc_Revision config))) ∧
        ∃ v2, proxyConfigForClientView js v online = Returns v2 ∧
          pc_DesiredState v2 = pc_DesiredState v ∧ pc_RuntimeState v2 = pc_RuntimeState v ∧
          pc_Error v2 = pc_Error v
  end.
Proof.
  destruct (validateTunnelStates _ _ _) as [[]|e] eqn:Hv.
  - destruct (client_view_returns js config online Hv) as
      (v & -> & Hd & Hr & He & _ & _ & Hc & Hv').
    exists v. split_and!; [done|done|by rewrite Hd|done|done|done|].
    destruct (client_view_returns js v online Hv') as (v2 & -> & Hd2 & Hr2 & He2 & _).
    exists v2. split_and!; [done| | |].
    + by rewrite Hd2, Hd, canonical_idempotent.
    + by rewrite Hr2, Hd, canonical_idempotent, Hr, viewed_twice.
    + rewrite He2. apply validateTunnelStates_ok in Hv' as [_ Herr].
      unfold tunnelErrorForRuntimeState.
      destruct (String.eqb_spec (pc_RuntimeState v) ProxyRuntimeStateError); [done|].
      symmetry. by apply Herr.
  - unfold proxyConfigForClientView, setProxyConfigStates, mustValidateTunnelStates.
    destruct (validateTunnelStates (canonicalDesiredState (pc_DesiredState config)) _ _) as [[]|e'] eqn:E.
    + exfalso. apply validateTunnelStates_ok in E. rewrite canonical_idempotent in E.
      apply validateTunnelStates_ok in E. congruence.
    + by exists e'.
Qed.

(** *** Credentials *)

(** The parts of an ingress configuration that are not secret. *)
Definition public_socks5 (cfg : SOCKS5ListenConfig) : string * Z * list string * string * string :=
  (lc_BindIP cfg, lc_Port cfg, lc_AllowedSourceCIDRs cfg,
   auth_Type (lc_Auth cfg), auth_Username (lc_Auth cfg)).
Definition public_http (cfg : httpHostConfigAPI)
  : string * option (list string) * string * string :=
  (hh_Domain cfg, hh_AllowedSourceCIDRs cfg, ha_Type (hh_Auth cfg), ha_Username (hh_Auth cfg)).

(** Endpoints that differ at most in a password and its hash. *)
Definition same_public (js : endpoint_json) (e1 e2 : EndpointSpec) : Prop :=
  ep_Location e1 = ep_Location e2 ∧ ep_ClientID e1 = ep_ClientID e2 ∧ ep_Type e1 = ep_Type e2 ∧
  (ep_Config e1 = ep_Config e2 ∨
   ep_Type e1 = IngressTypeSOCKS5Listen ∧ (∃ c1 c2,
     unmarshal_socks5 js (ep_Config e1) = Ok c1 ∧ unmarshal_socks5 js (ep_Config e2) = Ok c2 ∧
     public_socks5 c1 = public_socks5 c2) ∨
   ep_Type e1 = IngressTypeHTTPHost ∧ (∃ c1 c2,
     unmarshal_http js (ep_Config e1) = Ok c1 ∧ unmarshal_http js (ep_Config e2) = Ok c2 ∧
     public_http c1 = public_http c2)).

Lemma endpoint_view_public js e1 e2 : same_public js e1 e2 → endpoint_view js e1 = endpoint_view js e2.
Proof.
  intros (Hl & Hc & Ht & Hcfg). unfold endpoint_view. rewrite Hl, Hc, Ht. f_equal.
  unfold endpointConfigForView. rewrite <- Ht.
  destruct Hcfg as [->|[(-> & c1 & c2 & E1 & E2 & Hp)|(-> & c1 & c2 & E1 & E2 & Hp)]]; [done|..].
  - change (IngressTypeSOCKS5Listen =?s IngressTypeSOCKS5Listen) with true. cbv iota.
    unfold redactSOCKS5ListenConfig. rewrite E1, E2. unfold public_socks5 in Hp.
    injection Hp as -> -> -> -> ->. done.
  - change (IngressTypeHTTPHost =?s IngressTypeSOCKS5Listen) with false.
    change (IngressTypeHTTPHost =?s IngressTypeHTTPHost) with true. cbv iota.
    unfold redactHTTPHostConfig. rewrite E1, E2. unfold public_http in Hp.
    injection Hp as -> -> -> ->. done.
Qed.

(** The client view does not depend on credentials.  Two tunnels whose
    SOCKS5 or HTTP endpoints differ only in the password or the password hash
    of a configuration that decodes have the same view, for any JSON
    encoding, so nothing a client is shown reveals either. *)
Theorem view_hides_credentials (js : endpoint_json) (config : ProxyConfig)
    (ingress target : option EndpointSpec) (online : bool) :
  option_Forall2 (same_public js) (pc_Ingress config) ingress →
  option_Forall2 (same_public js) (pc_Target config) target →
  proxyConfigForClientView js (with_endpoints config ingress target (pc_Capabilities config)) online
  = proxyConfigForClientView js config online.
Proof.
  intros Hi Ht.
  assert (Hv : ∀ o1 o2, option_Forall2 (same_public js) o1 o2 →
    endpoint_view js <$> o2 = endpoint_view js <$> o1).
  { intros o1 o2 [e1 e2 He|]; [|done]. cbn. by rewrite (endpoint_view_public _ _ _ He). }
  unfold proxyConfigForClientView, setProxyConfigStates. cbn.
  destruct (mustValidateTunnelStates _ _ _); [|done]. cbn.
  by rewrite (Hv _ _ Hi), (Hv _ _ Ht).
Qed.

Module ViewSample.
Definition auth (hash : string) : SOCKS5AuthConfig := {|
  auth_Type := "username_password"; auth_Username := "alice"; auth_Password := "";
  auth_PasswordHash := hash |}.
Definition cfg (hash : string) : SOCKS5ListenConfig := {|
  lc_BindIP := "0.0.0.0"; lc_Port := 1080; lc_AllowedSourceCIDRs := ["::/0"%string];
  lc_Auth := auth hash |}.
(** The raw text stands for the hash it contains. *)
Definition js : endpoint_json := {|
  unmarshal_socks5 := λ raw, Ok (cfg raw); unmarshal_http := λ _, Err (Errorf "syntax" []);
  unmarshal_tcp := λ _, Err (Errorf "syntax" []);
  raw_socks5_view := λ v, (sv_bind_ip v +:+ "/" +:+ sv_auth_type v)%string;
  raw_http := λ _, ""%string; raw_tcp := λ _, ""%string |}.
Definition endpoint (raw : string) : EndpointSpec := {|
  ep_Location := "server"; ep_ClientID := ""; ep_Type := IngressTypeSOCKS5Listen;
  ep_Config := raw |}.
Definition config : ProxyConfig := {|
  pc_ID := "t1"; pc_Name := "proxy"; pc_Revision := 2; pc_Type := "socks5";
  pc_LocalIP := ""; pc_LocalPort := 0; pc_RemotePort := 1080; pc_BindIP := ""; pc_Domain := "";
  pc_ClientID := "c1"; pc_Topology := TunnelTopologyServerExpose; pc_OwnerClientID := "c1";
  pc_Ingress := Some (endpoint "hash-1"); pc_Target := None;
  pc_TransportPolicy := TransportPolicyServerRelayOnly; pc_ActualTransport := "";
  pc_Bandwidth := {| IngressBPS := 0; EgressBPS := 0; TotalBPS := 0 |}; pc_CreatedAt := 0;
  pc_DesiredState := ProxyDesiredStateRunning; pc_RuntimeState := ProxyRuntimeStateExposed;
  pc_Error := ""; pc_Capabilities := None |}.
End ViewSample.

Lemma view_hides_credentials_witness :
  proxyConfigForClientView ViewSample.js
    (with_endpoints ViewSample.config (Some (ViewSample.endpoint "hash-2")) None None) false
  = proxyConfigForClientView ViewSample.js ViewSample.config false.
Proof.
  apply (view_hides_credentials ViewSample.js ViewSample.config
    (Some (ViewSample.endpoint "hash-2")) None false).
  - constructor. split_and!; [reflexivity..|]. right. left. split; [reflexivity|].
    exists (ViewSample.cfg "hash-1"), (ViewSample.cfg "hash-2"). by split_and!.
  - constructor.
Defined.
