(* ===== verification/IngressPolicy.v ===== *)
(** Who may connect to a tunnel's ingress (internal/ingresspolicy/policy.go,
    with the wrappers of internal/server and internal/client
    ingress_access_policy.go).

    A Go slice that may be nil is an [option]; [encoding/json] is an argument. *)
From Stdlib Require Import ZArith Lia Ascii String Strings.Byte.
From stdpp Require Import base tactics numbers list gmap strings.
From S2P Require Import Prelude GoStrings GoIO GoNet GoCIDR TunnelState.

Record Policy := { AllowedSourceCIDRs : list string; SourceCIDRs : list IPNet }.

(** The loop of [NormalizeSourceCIDRs]. *)
Fixpoint normalize_cidrs (values : list string) (out : list string) (seen : gset string)
  : result (list string) :=
  match values with
  | [] => Ok out
  | value :: values =>
      let value := trim_space value in
      if value =?s "" then Err (Errorf "allowed_source_cidrs contains an empty CIDR" []) else
      match ParseCIDR value with
      | None => Err (Errorf "allowed_source_cidrs contains invalid CIDR %q" [AStr value])
      | Some ipNet =>
          let canonical := IPNet_String ipNet in
          if bool_decide (canonical ∈ seen) then normalize_cidrs values out seen
          else normalize_cidrs values (out ++ [canonical]) ({[ canonical ]} ∪ seen)
      end
  end.

Definition NormalizeSourceCIDRs (values : list string) : result (list string) :=
  if (length values =? 0)%nat then Err (Errorf "allowed_source_cidrs is required" [])
  else normalize_cidrs values [] ∅.

Fixpoint parse_cidrs (values : list string) : result (list IPNet) :=
  match values with
  | [] => Ok []
  | value :: values =>
      match ParseCIDR (trim_space value) with
      | None => Err (Wrapf "invalid CIDR %q: %w" (Errorf "invalid CIDR address" [AStr (trim_space value)]))
      | Some ipNet => out ← parse_cidrs values; Ok (ipNet :: out)
      end
  end.

Definition ParseCIDRs (values : list string) : result (list IPNet) :=
  if (length values =? 0)%nat then Err (Errorf "CIDR allowlist is required" [])
  else parse_cidrs values.

Definition Parse (values : option (list string)) (allowMissing : bool) : result Policy :=
  let values := match values with
                | None => if allowMissing then allowAllSourceCIDRs else []
                | Some values => values
                end in
  normalized ← NormalizeSourceCIDRs values;
  cidrs ← ParseCIDRs normalized;
  Ok {| AllowedSourceCIDRs := normalized; SourceCIDRs := cidrs |}.

(** [Unmarshal] is [json.Unmarshal] into the struct with the one list. *)
Definition Decode (Unmarshal : string → result (option (list string))) (raw : string)
  (allowMissing : bool) : result Policy :=
  values ← (if 0 <? strlen raw then Unmarshal raw else Ok None);
  Parse values allowMissing.

(** [config.Ingress] is the raw configuration of the ingress, if there is one. *)
Definition decodeIngressAccessPolicyFromProxyConfig
  (Unmarshal : string → result (option (list string))) (ingress : option string) : result Policy :=
  match ingress with
  | None => Parse None true
  | Some raw => Decode Unmarshal raw true
  end.

(** The address a [net.Addr] writes, [None] for nil. *)
Definition source_ip (addr : option string) : option IP :=
  addr ← addr;
  let host := match SplitHostPort addr with Some (host, _) => host | None => addr end in
  ParseIP (trim_bytes host "[]").

Definition SourceAllowed (addr : option string) (cidrs : list IPNet) : bool :=
  match source_ip addr with
  | None => false
  | Some ip => existsb (λ cidr, IPNet_Contains cidr ip) cidrs
  end.

(** ** What a policy allows *)

(** The network of a value as the loops parse it. *)
Definition cidr_of (value : string) : option IPNet := ParseCIDR (trim_space value).

(** Every value has a network. *)
Definition cidrs_readable (values : list string) : Prop :=
  values ≠ [] ∧ Forall (λ value, is_Some (cidr_of value)) values.

Definition same_network (n n' : IPNet) : Prop := networkNumberAndMask n = networkNumberAndMask n'.

(** [text] is the canonical form of one of the values. *)
Definition canonical_of (values : list string) (text : string) : Prop :=
  ∃ value n, value ∈ values ∧ cidr_of value = Some n ∧ text = IPNet_String n.

Lemma cidr_of_canonical n value :
  cidr_of value = Some n → ∃ n', cidr_of (IPNet_String n) = Some n' ∧ same_network n' n.
Proof.
  intros (n' & Hn' & Hs & Ht & _)%ParseCIDR_String. exists n'. split; [|done].
  unfold cidr_of. by rewrite Ht.
Qed.

Lemma ParseCIDR_empty value : trim_space value = ""%string → cidr_of value = None.
Proof. intros E. unfold cidr_of. by rewrite E. Qed.

Lemma normalize_cidrs_spec values out seen :
  NoDup out → (∀ text, text ∈ out ↔ text ∈ seen) →
  match normalize_cidrs values out seen with
  | Ok out' => NoDup out' ∧ Forall (λ value, is_Some (cidr_of value)) values ∧
               ∀ text, text ∈ out' ↔ text ∈ out ∨ canonical_of values text
  | Err _ => ¬ Forall (λ value, is_Some (cidr_of value)) values
  end.
Proof.
  revert out seen. induction values as [|value values IH]; intros out seen Hnd Hseen.
  { cbn. split_and!; [done|constructor|]. intros text. split; [by left|].
    intros [?|(? & ? & []%elem_of_nil & _)]; done. }
  cbn [normalize_cidrs]. destruct (String.eqb_spec (trim_space value) "") as [E|E].
  { rewrite Forall_cons, ParseCIDR_empty by done. by intros [[? ?] _]. }
  fold (cidr_of value). destruct (cidr_of value) as [n|] eqn:En.
  2:{ rewrite Forall_cons, En. by intros [[? ?] _]. }
  assert (Hmore : ∀ out' : list string, (∀ text, text ∈ out' ↔ text ∈ out ∨ text = IPNet_String n) →
    ∀ text, text ∈ out' ∨ canonical_of values text ↔ text ∈ out ∨ canonical_of (value :: values) text).
  { intros out' Ho text. rewrite Ho. unfold canonical_of. setoid_rewrite elem_of_cons. split.
    - intros [[?| ->]|(v & m & ? & ? & ?)]; [by left|right|right]; naive_solver.
    - intros [?|(v & m & [->|?] & Hm & ->)]; [auto| |right; eauto 6].
      rewrite En in Hm. injection Hm as ->. auto. }
  case_bool_decide as Hin.
  - specialize (IH out seen Hnd Hseen). destruct (normalize_cidrs values out seen) as [out'|e].
    + destruct IH as (? & ? & Ho). split_and!; [done|by constructor; [rewrite En|]|].
      intros text. rewrite Ho. apply Hmore. intros t. split; [by left|].
      intros [?| ->]; [done|by apply Hseen].
    + by intros [_ ?]%Forall_cons.
  - assert (Hnew : IPNet_String n ∉ out) by by rewrite Hseen.
    assert (Hnd' : NoDup (out ++ [IPNet_String n])).
    { apply NoDup_app. split_and!; [done| |apply NoDup_singleton].
      intros t Ht ->%list_elem_of_singleton. done. }
    specialize (IH (out ++ [IPNet_String n]) ({[IPNet_String n]} ∪ seen) Hnd').
    destruct (normalize_cidrs values (out ++ [IPNet_String n]) _) as [out'|e];
      (ospecialize (IH _); [intros t; rewrite elem_of_app, list_elem_of_singleton, Hseen; set_solver|]).
    + destruct IH as (? & ? & Ho).
      split_and!; [done|by constructor; [rewrite En|]|].
      intros text. rewrite Ho. apply Hmore. intros t. by rewrite elem_of_app, list_elem_of_singleton.
    + by intros [_ ?]%Forall_cons.
Qed.

Lemma parse_cidrs_spec values :
  Forall (λ value, is_Some (cidr_of value)) values →
  ∃ out, parse_cidrs values = Ok out ∧ Forall2 (λ value n, cidr_of value = Some n) values out.
Proof.
  induction 1 as [|value values [n Hn] Hf (out & Ho & H2)]; [by exists []|].
  exists (n :: out). cbn [parse_cidrs]. fold (cidr_of value). rewrite Hn, Ho. by auto.
Qed.

(** The addresses some value contains. *)
Definition cidrs_contain (values : list string) (ip : IP) : Prop :=
  ∃ value n, value ∈ values ∧ cidr_of value = Some n ∧ IPNet_Contains n ip = true.

Lemma existsb_contains values out ip :
  Forall2 (λ value n, cidr_of value = Some n) values out →
  existsb (λ cidr, IPNet_Contains cidr ip) out = true ↔ cidrs_contain values ip.
Proof.
  intros H2. rewrite existsb_exists. unfold cidrs_contain. split.
  - intros (n & Hn%list_elem_of_In & Hc). apply list_elem_of_lookup in Hn as [i Hi].
    destruct (Forall2_lookup_r _ _ _ _ _ H2 Hi) as (value & Hv & E).
    exists value, n. split; [by eapply list_elem_of_lookup_2|done].
  - intros (value & n & Hv & E & Hc). apply list_elem_of_lookup in Hv as [i Hi].
    destruct (Forall2_lookup_l _ _ _ _ _ H2 Hi) as (n' & Hn' & E'). simplify_eq.
    exists n. split; [apply list_elem_of_In; by eapply list_elem_of_lookup_2|done].
Qed.

Definition given_values (values : option (list string)) (allowMissing : bool) : list string :=
  match values with
  | None => if allowMissing then allowAllSourceCIDRs else []
  | Some values => values
  end.

(** A policy as [Parse] makes it from values. *)
Record policy_of (values : list string) (p : Policy) : Prop := {
  po_nodup : NoDup (AllowedSourceCIDRs p);
  po_canonical : ∀ text, text ∈ AllowedSourceCIDRs p ↔ canonical_of values text;
  po_networks : Forall2 (λ value n, cidr_of value = Some n) (AllowedSourceCIDRs p) (SourceCIDRs p);
}.

Lemma canonical_readable values text : canonical_of values text → is_Some (cidr_of text).
Proof. intros (v & n & _ & Hn & ->). destruct (cidr_of_canonical _ _ Hn) as (n' & -> & _). by eexists. Qed.

Lemma Parse_spec values allowMissing :
  match Parse values allowMissing with
  | Ok p => cidrs_readable (given_values values allowMissing) ∧
            policy_of (given_values values allowMissing) p
  | Err _ => ¬ cidrs_readable (given_values values allowMissing)
  end.
Proof.
  unfold Parse. fold (given_values values allowMissing).
  generalize (given_values values allowMissing) as vs. clear. intros vs. unfold NormalizeSourceCIDRs.
  destruct (Nat.eqb_spec (length vs) 0) as [E|E].
  { apply nil_length_inv in E as ->. by intros [? _]. }
  assert (Hne : vs ≠ []) by by intros ->.
  pose proof (normalize_cidrs_spec vs [] ∅ (NoDup_nil_2) ltac:(set_solver)) as H.
  destruct (normalize_cidrs vs [] ∅) as [texts|e]; cbn [mbind result_bind]; [|by intros [_ ?]].
  destruct H as (Hnd & Hvs & Hc).
  assert (Hcan : ∀ text, text ∈ texts ↔ canonical_of vs text).
  { intros text. rewrite Hc. set_solver. }
  destruct (parse_cidrs_spec texts) as (out & Ho & H2).
  { apply Forall_forall. intros text Ht%Hcan. by eapply canonical_readable. }
  unfold ParseCIDRs. destruct (Nat.eqb_spec (length texts) 0) as [E'|_].
  { apply nil_length_inv in E' as ->. destruct vs as [|v vs]; [done|].
    apply Forall_cons in Hvs as [[n Hn] _].
    assert (IPNet_String n ∈ []) as []%elem_of_nil. apply Hcan. exists v, n. set_solver. }
  rewrite Ho. cbn. split; [done|]. by split.
Qed.

(** The canonical texts contain the addresses of the values they come from. *)
Lemma canonical_contain values texts ip :
  (∀ text, text ∈ texts ↔ canonical_of values text) →
  cidrs_contain texts ip ↔ cidrs_contain values ip.
Proof.
  intros Ht. split.
  - intros (text & n & (v & m & Hv & Hm & ->)%Ht & Hn & Hc). exists v, m.
    destruct (cidr_of_canonical _ _ Hm) as (n' & Hn' & Hs). simplify_eq.
    by rewrite <- (IPNet_Contains_same m n ip).
  - intros (v & m & Hv & Hm & Hc). destruct (cidr_of_canonical _ _ Hm) as (n' & Hn' & Hs).
    exists (IPNet_String m), n'. rewrite (IPNet_Contains_same m n' ip) by done.
    split_and!; [|done|done]. apply Ht. by exists v, m.
Qed.

(** Canonical texts are their own canonical form. *)
Lemma canonical_fixed values texts :
  (∀ text, text ∈ texts ↔ canonical_of values text) →
  ∀ text, canonical_of texts text ↔ text ∈ texts.
Proof.
  intros Ht text. unfold canonical_of at 1. split.
  - intros (t & n & Hin & Hn & ->). apply Ht in Hin as (v & m & Hv & Hm & ->).
    destruct (cidr_of_canonical _ _ Hm) as (n' & Hn' & Hs). simplify_eq.
    rewrite (IPNet_String_same m n) by done. apply Ht. by exists v, m.
  - intros Hin. pose proof Hin as (v & m & Hv & Hm & ->)%Ht.
    destruct (cidr_of_canonical _ _ Hm) as (n' & Hn' & Hs).
    exists (IPNet_String m), n'. by rewrite (IPNet_String_same m n').
Qed.

(** *** The default *)

Lemma ParseIP_length s ip : ParseIP s = Some ip → length ip = 16%nat.
Proof.
  unfold ParseIP. repeat (case_match; try done); [by apply parseIPv6_length|].
  intros Hip. apply bind_Some in Hip as (ip4 & H4 & [= <-]).
  unfold parseIPv4 in H4. case_match eqn:E4; [|done]. apply Nat.eqb_eq in E4.
  apply length_mapM in H4. cbn. lia.
Qed.

Lemma source_ip_length addr ip : source_ip addr = Some ip → length ip = 16%nat.
Proof.
  unfold source_ip. intros H. apply bind_Some in H as (a & _ & H). by eapply ParseIP_length.
Qed.

Lemma and_bytes_zero n bs : and_bytes bs (replicate n x00) = replicate (length bs `min` n) 0.
Proof.
  unfold and_bytes. revert bs. induction n as [|n IH]; intros [|b bs]; try done.
  cbn. rewrite IH, Z.land_0_r. done.
Qed.

Lemma contains_zero net k ip :
  networkNumberAndMask net = Some (replicate k x00, replicate k x00) →
  length (default ip (To4 ip)) = k → IPNet_Contains net ip = true.
Proof.
  intros Hn Hl. unfold IPNet_Contains. rewrite Hn.
  change (match To4 ip with Some x => x | None => ip end) with (default ip (To4 ip)).
  rewrite length_replicate, Hl, Nat.eqb_refl, !and_bytes_zero, length_replicate, Hl.
  by apply bool_decide_eq_true.
Qed.

(** The two networks of the default contain every address. *)
Lemma default_contains ip : length ip = 16%nat → cidrs_contain allowAllSourceCIDRs ip.
Proof.
  intros Hl. unfold cidrs_contain. destruct (To4 ip) as [ip4|] eqn:E4.
  - eexists "0.0.0.0/0"%string, _. split_and!; [set_solver|by vm_compute|].
    apply (contains_zero _ 4); [done|]. rewrite E4. unfold To4 in E4. rewrite Hl in E4.
    cbn [Nat.eqb andb] in E4. case_bool_decide; [|done]. injection E4 as <-.
    change (length (drop 12 ip) = 4%nat). rewrite length_drop. lia.
  - eexists "::/0"%string, _. split_and!; [set_solver|by vm_compute|].
    apply (contains_zero _ 16); [done|]. by rewrite E4.
Qed.

(** ** The property *)

(** C39: a source policy is exact.  [Parse] accepts its values exactly when
    there is at least one and each is a network.  The accepted policy allows
    a source exactly when its address is readable and contained in one of the
    values as they were given, so for a missing list exactly when its address
    is readable; and its stored form is canonical: it has no duplicates, parses
    to itself, and allows the same sources. *)
Theorem source_policy_exact values allowMissing :
  let given := given_values values allowMissing in
  match Parse values allowMissing with
  | Err _ => ¬ cidrs_readable given
  | Ok p =>
      cidrs_readable given ∧ NoDup (AllowedSourceCIDRs p) ∧
      (∀ addr, SourceAllowed addr (SourceCIDRs p) = true ↔
               ∃ ip, source_ip addr = Some ip ∧ cidrs_contain given ip) ∧
      (values = None → ∀ addr, SourceAllowed addr (SourceCIDRs p) = true ↔
               is_Some (source_ip addr)) ∧
      ∃ p', Parse (Some (AllowedSourceCIDRs p)) false = Ok p' ∧
            AllowedSourceCIDRs p' ≡ₚ AllowedSourceCIDRs p ∧
            ∀ addr, SourceAllowed addr (SourceCIDRs p') = SourceAllowed addr (SourceCIDRs p)
  end.
Proof.
  intros given. pose proof (Parse_spec values allowMissing) as H. fold given in H.
  destruct (Parse values allowMissing) as [p|e]; [|done]. destruct H as (Hr & [Hnd Hc H2]).
  assert (Hallowed : ∀ vs q, policy_of vs q → ∀ addr, SourceAllowed addr (SourceCIDRs q) = true ↔
    ∃ ip, source_ip addr = Some ip ∧ cidrs_contain vs ip).
  { intros vs q [_ Hcq H2q] addr. unfold SourceAllowed. destruct (source_ip addr) as [ip|].
    - rewrite (existsb_contains _ _ _ H2q), (canonical_contain _ _ _ Hcq). naive_solver.
    - split; [done|]. by intros (? & ? & _). }
  split_and!; [done|done|by apply Hallowed| |].
  { intros ->. destruct allowMissing; [|by destruct Hr]. intros addr.
    rewrite (Hallowed given p) by by split. split; [by intros (ip & -> & _)|].
    intros [ip E]. exists ip. split; [done|]. by eapply default_contains, source_ip_length. }
  pose proof (Parse_spec (Some (AllowedSourceCIDRs p)) false) as H'. cbn [given_values] in H'.
  destruct (Parse (Some (AllowedSourceCIDRs p)) false) as [p'|e].
  2:{ exfalso. apply H'. split; [|by apply Forall_forall; intros t ?%Hc; eapply canonical_readable].
      intros E. destruct Hr as [Hne Hf]. destruct given as [|v vs]; [done|].
      apply Forall_cons in Hf as [[n Hn] _].
      assert (IPNet_String n ∈ AllowedSourceCIDRs p) as Hin by (apply Hc; exists v, n; set_solver).
      rewrite E in Hin. by apply elem_of_nil in Hin. }
  destruct H' as (_ & Hp'). exists p'. split_and!; [done| |].
  - apply NoDup_Permutation; [apply Hp'|done|]. intros t.
    rewrite (po_canonical _ _ Hp' t). by apply (canonical_fixed given).
  - intros addr. apply eq_true_iff_eq. rewrite (Hallowed _ _ Hp' addr), (Hallowed given p) by by split.
    by setoid_rewrite (canonical_contain _ _ _ Hc).
Qed.

