(* ===== verification/Registry.v ===== *)
(** Waiters for provision acknowledgements and preflight responses
    (internal/server/tunnel_registry.go).

    A registered waiter is a channel of capacity one, shared between the
    registry, the goroutine that waits on it, and whoever resolves or cancels
    it.  Channels live in a heap, so that the two steps [resolve] makes after
    it has released the lock, the send and the close, can interleave with
    every other operation; a resolution in progress is an element of
    [resolving].  Sending on a closed channel, closing a channel twice and a
    send that would block are [None]. *)
From Stdlib Require Import ZArith Lia Ascii String.
From stdpp Require Import base tactics numbers list gmap strings.
From S2P Require Import Prelude Protocol.

(** ** Waiter tables *)

(** A channel of capacity one; [sent] is every value ever sent on it, the
    first [taken] of them have been received. *)
Record chan (A : Type) := { sent : list A; taken : nat; closed : bool }.
Arguments sent {A} c. Arguments taken {A} c. Arguments closed {A} c.
Arguments Build_chan {A}.

Definition new_chan {A} : chan A := Build_chan [] 0 false.

(** [ch <- v], [None] when it panics or blocks. *)
Definition chan_send {A} (v : A) (c : chan A) : option (chan A) :=
  if closed c then None
  else if (1 <=? length (sent c) - taken c)%nat then None
  else Some (Build_chan (sent c ++ [v]) (taken c) false).

(** [close(ch)], [None] when it panics. *)
Definition chan_close {A} (c : chan A) : option (chan A) :=
  if closed c then None else Some (Build_chan (sent c) (taken c) true).

(** [<-ch] when it does not block: the value, [None] for a closed channel. *)
Definition chan_recv {A} (c : chan A) : option A * chan A :=
  match sent c !! taken c with
  | Some v => (Some v, Build_chan (sent c) (S (taken c)) (closed c))
  | None => (None, c)
  end.

(** A resolution that has left the critical section: its channel, its value,
    and whether the value has been sent. *)
Record resolution (A : Type) := { rs_chan : nat; rs_value : A; rs_sent : bool }.
Arguments rs_chan {A} r. Arguments rs_value {A} r. Arguments rs_sent {A} r.
Arguments Build_resolution {A}.

Section Waiters.
Context {K A : Type} `{Countable K}.
(** The client ID and generation of a key. *)
Context (client_of : K → string * Z).

Record waiters := {
  pending : gmap K nat; chans : list (chan A); resolving : list (resolution A);
}.

Definition no_waiters : waiters := {| pending := ∅; chans := []; resolving := [] |}.

Definition update_chan (f : chan A → option (chan A)) (ch : nat) (cs : list (chan A))
  : option (list (chan A)) :=
  c ← cs !! ch; c' ← f c; Some (<[ch := c']> cs).

Definition register (key : K) (s : waiters) : option nat * waiters :=
  match pending s !! key with
  | Some _ => (None, s)
  | None =>
      let ch := length (chans s) in
      (Some ch, {| pending := <[key := ch]> (pending s); chans := chans s ++ [new_chan];
                   resolving := resolving s |})
  end.

Definition unregister (key : K) (s : waiters) : waiters :=
  {| pending := delete key (pending s); chans := chans s; resolving := resolving s |}.

(** The critical section of [resolve]. *)
Definition resolve_take (key : K) (v : A) (s : waiters) : option nat * waiters :=
  match pending s !! key with
  | None => (None, s)
  | Some ch =>
      (Some ch, {| pending := delete key (pending s); chans := chans s;
                   resolving := resolving s ++ [Build_resolution ch v false] |})
  end.

(** The next step of the [i]-th resolution in progress: [ch <- resp], then
    [close(ch)]. *)
Definition resolve_step (i : nat) (s : waiters) : option waiters :=
  match resolving s !! i with
  | None => Some s
  | Some r =>
      if rs_sent r then
        cs ← update_chan chan_close (rs_chan r) (chans s);
        Some {| pending := pending s; chans := cs; resolving := delete i (resolving s) |}
      else
        cs ← update_chan (chan_send (rs_value r)) (rs_chan r) (chans s);
        Some {| pending := pending s; chans := cs;
                resolving := <[i := Build_resolution (rs_chan r) (rs_value r) true]> (resolving s) |}
  end.

Definition of_client (clientID : string) (generation : Z) (key : K) : bool :=
  bool_decide (client_of key = (clientID, generation)).

Fixpoint close_all (chs : list nat) (cs : list (chan A)) : option (list (chan A)) :=
  match chs with
  | [] => Some cs
  | ch :: chs => cs' ← update_chan chan_close ch cs; close_all chs cs'
  end.

(** The loop of [cancel]: Go visits the map in any order, and the closes
    commute. *)
Definition cancel (clientID : string) (generation : Z) (s : waiters) : option waiters :=
  let hit := filter (λ kv : K * nat, of_client clientID generation kv.1 = true) (pending s) in
  cs ← close_all (map_to_list hit).*2 (chans s);
  Some {| pending := filter (λ kv : K * nat, of_client clientID generation kv.1 = false) (pending s);
          chans := cs; resolving := resolving s |}.

(** The waiting goroutine receives. *)
Definition receive (ch : nat) (s : waiters) : waiters :=
  {| pending := pending s; chans := alter (λ c, (chan_recv c).2) ch (chans s);
     resolving := resolving s |}.
End Waiters.
Arguments waiters K A {_ _}.

(** ** The registry *)

Record pendingTunnelProvisionAckKey := {
  ak_clientID : string; ak_generation : Z; ak_name : string; ak_revision : Z; ak_role : string;
}.
Record provisionAckResult := {
  ar_name : string; ar_accepted : bool; ar_message : string; ar_revision : Z; ar_role : string;
}.
Record pendingTunnelPreflightKey := {
  pk_clientID : string; pk_generation : Z; pk_requestID : string;
}.

#[export] Instance ackKey_eq_dec : EqDecision pendingTunnelProvisionAckKey.
Proof. solve_decision. Defined.
#[export] Instance ackKey_countable : Countable pendingTunnelProvisionAckKey.
Proof.
  refine (inj_countable'
    (λ k, (ak_clientID k, ak_generation k, ak_name k, ak_revision k, ak_role k))
    (λ '(c, g, n, v, r), {| ak_clientID := c; ak_generation := g; ak_name := n;
                            ak_revision := v; ak_role := r |}) _).
  by intros [].
Defined.
#[export] Instance preflightKey_eq_dec : EqDecision pendingTunnelPreflightKey.
Proof. solve_decision. Defined.
#[export] Instance preflightKey_countable : Countable pendingTunnelPreflightKey.
Proof.
  refine (inj_countable' (λ k, (pk_clientID k, pk_generation k, pk_requestID k))
    (λ '(c, g, r), {| pk_clientID := c; pk_generation := g; pk_requestID := r |}) _).
  by intros [].
Defined.

Record TunnelRegistry := {
  pendingProvisionAcks : waiters pendingTunnelProvisionAckKey provisionAckResult;
  tunnelReadyTimeout : Z;
  pendingPreflights : waiters pendingTunnelPreflightKey TunnelPreflightResponse;
  preflightTimeout : Z;
}.

Definition newTunnelRegistry : TunnelRegistry := {|
  pendingProvisionAcks := no_waiters; tunnelReadyTimeout := 5 * second;
  pendingPreflights := no_waiters; preflightTimeout := 3 * second |}.

Definition with_acks (tr : TunnelRegistry) acks : TunnelRegistry := {|
  pendingProvisionAcks := acks; tunnelReadyTimeout := tunnelReadyTimeout tr;
  pendingPreflights := pendingPreflights tr; preflightTimeout := preflightTimeout tr |}.
Definition with_preflights (tr : TunnelRegistry) preflights : TunnelRegistry := {|
  pendingProvisionAcks := pendingProvisionAcks tr; tunnelReadyTimeout := tunnelReadyTimeout tr;
  pendingPreflights := preflights; preflightTimeout := preflightTimeout tr |}.

Definition ack_key (clientID : string) (generation : Z) (name : string) (revision : Z)
    (role : string) : pendingTunnelProvisionAckKey := {|
  ak_clientID := clientID; ak_generation := generation; ak_name := name;
  ak_revision := revision; ak_role := role |}.
Definition preflight_key (clientID : string) (generation : Z) (requestID : string)
  : pendingTunnelPreflightKey := {|
  pk_clientID := clientID; pk_generation := generation; pk_requestID := requestID |}.
Definition ack_client (k : pendingTunnelProvisionAckKey) : string * Z :=
  (ak_clientID k, ak_generation k).
Definition preflight_client (k : pendingTunnelPreflightKey) : string * Z :=
  (pk_clientID k, pk_generation k).

(** [registerProvisionAckWaiter] with the ID and generation of its client. *)
Definition registerProvisionAckWaiter (clientID : string) (generation : Z) (name : string)
    (revision : Z) (role : string) (tr : TunnelRegistry) : result nat * TunnelRegistry :=
  match register (ack_key clientID generation name revision role) (pendingProvisionAcks tr) with
  | (None, _) => (Err (Errorf "tunnel %q already has a pending provisioning ack waiter" [AStr name]), tr)
  | (Some ch, acks) => (Ok ch, with_acks tr acks)
  end.

Definition unregisterProvisionAckWaiter (clientID : string) (generation : Z) (name : string)
    (revision : Z) (role : string) (tr : TunnelRegistry) : TunnelRegistry :=
  with_acks tr (unregister (ack_key clientID generation name revision role) (pendingProvisionAcks tr)).

(** [resolveProvisionAckWaiter] up to the end of its critical section; the
    send and the close follow as steps of the resolution. *)
Definition resolveProvisionAckWaiter (clientID : string) (generation : Z)
    (resp : provisionAckResult) (tr : TunnelRegistry) : bool * TunnelRegistry :=
  if ar_name resp =?s "" then (false, tr) else
  match resolve_take (ack_key clientID generation (ar_name resp) (ar_revision resp) (ar_role resp))
          resp (pendingProvisionAcks tr) with
  | (None, _) => (false, tr)
  | (Some _, acks) => (true, with_acks tr acks)
  end.

Definition cancelProvisionAckWaiters (clientID : string) (generation : Z) (tr : TunnelRegistry)
  : option TunnelRegistry :=
  with_acks tr <$> cancel ack_client clientID generation (pendingProvisionAcks tr).

Definition registerPreflightWaiter (clientID : string) (generation : Z) (requestID : string)
    (tr : TunnelRegistry) : result nat * TunnelRegistry :=
  if requestID =?s "" then (Err (Errorf "preflight request missing request_id" []), tr) else
  match register (preflight_key clientID generation requestID) (pendingPreflights tr) with
  | (None, _) => (Err (Errorf "preflight request %q already has a pending waiter" [AStr requestID]), tr)
  | (Some ch, preflights) => (Ok ch, with_preflights tr preflights)
  end.

Definition unregisterPreflightWaiter (clientID : string) (generation : Z) (requestID : string)
    (tr : TunnelRegistry) : TunnelRegistry :=
  with_preflights tr (unregister (preflight_key clientID generation requestID) (pendingPreflights tr)).

Definition cancelPreflightWaiters (clientID : string) (generation : Z) (tr : TunnelRegistry)
  : option TunnelRegistry :=
  with_preflights tr <$> cancel preflight_client clientID generation (pendingPreflights tr).

Definition resolvePreflightWaiter (clientID : string) (generation : Z)
    (resp : TunnelPreflightResponse) (tr : TunnelRegistry) : bool * TunnelRegistry :=
  if pf_RequestID resp =?s "" then (false, tr) else
  match resolve_take (preflight_key clientID generation (pf_RequestID resp)) resp
          (pendingPreflights tr) with
  | (None, _) => (false, tr)
  | (Some _, preflights) => (true, with_preflights tr preflights)
  end.

(** ** Runs of the registry *)

Inductive registry_op :=
| RegisterAck (clientID : string) (generation : Z) (name : string) (revision : Z) (role : string)
| UnregisterAck (clientID : string) (generation : Z) (name : string) (revision : Z) (role : string)
| ResolveAck (clientID : string) (generation : Z) (resp : provisionAckResult)
| CancelAcks (clientID : string) (generation : Z)
| StepAck (i : nat)
| ReceiveAck (ch : nat)
| RegisterPreflight (clientID : string) (generation : Z) (requestID : string)
| UnregisterPreflight (clientID : string) (generation : Z) (requestID : string)
| ResolvePreflight (clientID : string) (generation : Z) (resp : TunnelPreflightResponse)
| CancelPreflights (clientID : string) (generation : Z)
| StepPreflight (i : nat)
| ReceivePreflight (ch : nat).

Definition registry_step (op : registry_op) (tr : TunnelRegistry) : option TunnelRegistry :=
  match op with
  | RegisterAck c g n v r => Some (registerProvisionAckWaiter c g n v r tr).2
  | UnregisterAck c g n v r => Some (unregisterProvisionAckWaiter c g n v r tr)
  | ResolveAck c g resp => Some (resolveProvisionAckWaiter c g resp tr).2
  | CancelAcks c g => cancelProvisionAckWaiters c g tr
  | StepAck i => with_acks tr <$> resolve_step i (pendingProvisionAcks tr)
  | ReceiveAck ch => Some (with_acks tr (receive ch (pendingProvisionAcks tr)))
  | RegisterPreflight c g r => Some (registerPreflightWaiter c g r tr).2
  | UnregisterPreflight c g r => Some (unregisterPreflightWaiter c g r tr)
  | ResolvePreflight c g resp => Some (resolvePreflightWaiter c g resp tr).2
  | CancelPreflights c g => cancelPreflightWaiters c g tr
  | StepPreflight i => with_preflights tr <$> resolve_step i (pendingPreflights tr)
  | ReceivePreflight ch => Some (with_preflights tr (receive ch (pendingPreflights tr)))
  end.

Fixpoint registry_run (ops : list registry_op) (tr : TunnelRegistry) : option TunnelRegistry :=
  match ops with
  | [] => Some tr
  | op :: ops => tr' ← registry_step op tr; registry_run ops tr'
  end.

(** ** Facts on waiter tables *)

Section Facts.
Context {K A : Type} `{Countable K} (client_of : K → string * Z).
Implicit Types (s : waiters K A) (key : K) (cs : list (chan A)).

(** Every channel has one owner: a pending entry, whose channel is fresh, or a
    resolution in progress, or nobody. *)
Record waiters_ok s : Prop := {
  ok_pending : ∀ k ch, pending s !! k = Some ch →
    ∃ c, chans s !! ch = Some c ∧ sent c = [] ∧ closed c = false;
  ok_inj : ∀ k1 k2 ch, pending s !! k1 = Some ch → pending s !! k2 = Some ch → k1 = k2;
  ok_resolving : ∀ r, r ∈ resolving s →
    ∃ c, chans s !! rs_chan r = Some c ∧ closed c = false ∧
         sent c = (if rs_sent r then [rs_value r] else []);
  ok_disjoint : ∀ k r, pending s !! k = Some (rs_chan r) → r ∈ resolving s → False;
  ok_distinct : NoDup (rs_chan <$> resolving s);
}.

(** What the waiter that registered [key0] on channel [ch0] relies on: [P]
    holds of the values it may get, [C] that it was cancelled, [U] that it
    unregistered itself. *)
Record waiter_ok (ch0 : nat) (key0 : K) (P : A → Prop) (C U : Prop) s : Prop := {
  w_key : ∀ k, pending s !! k = Some ch0 → k = key0;
  w_value : ∀ r, r ∈ resolving s → rs_chan r = ch0 → P (rs_value r);
  w_chan : ∃ c, chans s !! ch0 = Some c ∧
    (sent c = [] ∨ ∃ v, sent c = [v] ∧ P v) ∧
    (closed c = true → sent c = [] → C) ∧
    (closed c = false → pending s !! key0 = Some ch0 ∨
       (∃ r, r ∈ resolving s ∧ rs_chan r = ch0) ∨ U);
}.

Lemma no_waiters_ok : waiters_ok no_waiters.
Proof.
  split; cbn.
  - intros k ch Hp. by simplify_map_eq.
  - intros k1 k2 ch Hp. by simplify_map_eq.
  - by intros r ?%elem_of_nil.
  - by intros k r _ ?%elem_of_nil.
  - constructor.
Qed.

Lemma pending_lt s k ch : waiters_ok s → pending s !! k = Some ch → (ch < length (chans s))%nat.
Proof. intros Hok Hp. destruct (ok_pending _ Hok _ _ Hp) as (c & Hc & _). by eapply lookup_lt_Some. Qed.

Lemma resolving_lt s r : waiters_ok s → r ∈ resolving s → (rs_chan r < length (chans s))%nat.
Proof. intros Hok Hp. destruct (ok_resolving _ Hok _ Hp) as (c & Hc & _). by eapply lookup_lt_Some. Qed.

Lemma register_ok key s : waiters_ok s → waiters_ok (register key s).2.
Proof.
  intros Hok. unfold register. destruct (pending s !! key) as [ch|] eqn:E; [done|].
  split; cbn.
  - intros k ch [[<- <-]|[? Hp]]%lookup_insert_Some.
    + exists new_chan. by rewrite list_lookup_middle.
    + destruct (ok_pending _ Hok _ _ Hp) as (c & Hc & ?). exists c. split; [|done].
      by apply lookup_app_l_Some.
  - intros k1 k2 ch [[<- <-]|[? Hp1]]%lookup_insert_Some [[<- ?]|[? Hp2]]%lookup_insert_Some.
    + done.
    + apply (pending_lt _ _ _ Hok) in Hp2. lia.
    + apply (pending_lt _ _ _ Hok) in Hp1. lia.
    + by eapply (ok_inj _ Hok).
  - intros r Hr. destruct (ok_resolving _ Hok _ Hr) as (c & Hc & ?). exists c. split; [|done].
    by apply lookup_app_l_Some.
  - intros k r [[<- Heq]|[? Hp]]%lookup_insert_Some Hr.
    + apply (resolving_lt _ _ Hok) in Hr. lia.
    + by eapply (ok_disjoint _ Hok).
  - apply (ok_distinct _ Hok).
Qed.

Lemma register_waiter ch0 key0 P C U key s :
  waiters_ok s → waiter_ok ch0 key0 P C U s → waiter_ok ch0 key0 P C U (register key s).2.
Proof.
  intros Hok Hw. unfold register. destruct (pending s !! key) as [ch|] eqn:E; [done|].
  destruct (w_chan _ _ _ _ _ _ Hw) as (c & Hc & Hv & Hcl & Hop).
  pose proof (lookup_lt_Some _ _ _ Hc). split; cbn.
  - intros k [[<- ?]|[? Hp]]%lookup_insert_Some; [lia|]. by eapply (w_key _ _ _ _ _ _ Hw).
  - apply (w_value _ _ _ _ _ _ Hw).
  - exists c. split_and!; [by apply lookup_app_l_Some|done|done|].
    intros Ho. destruct (Hop Ho) as [Hp|?]; [|by right]. left.
    rewrite lookup_insert_ne; [done|]. congruence.
Qed.

(** The waiter that has just registered. *)
Lemma register_fresh key s ch s' P C U :
  waiters_ok s → register key s = (Some ch, s') → waiter_ok ch key P C U s'.
Proof.
  intros Hok. unfold register. destruct (pending s !! key) eqn:E; [done|]. intros [= <- <-].
  split; cbn.
  - intros k [[<- ?]|[? Hp]]%lookup_insert_Some; [done|].
    apply (pending_lt _ _ _ Hok) in Hp. lia.
  - intros r Hr Heq. apply (resolving_lt _ _ Hok) in Hr. lia.
  - exists new_chan. rewrite list_lookup_middle by done. cbn. split_and!; try done; [by left|].
    left. by simplify_map_eq.
Qed.

Lemma unregister_ok key s : waiters_ok s → waiters_ok (unregister key s).
Proof.
  intros Hok. split; cbn.
  - intros k ch [_ Hp]%lookup_delete_Some. by apply (ok_pending _ Hok _ _ Hp).
  - intros k1 k2 ch [_ Hp1]%lookup_delete_Some [_ Hp2]%lookup_delete_Some. by eapply (ok_inj _ Hok).
  - apply (ok_resolving _ Hok).
  - intros k r [_ Hp]%lookup_delete_Some. by eapply (ok_disjoint _ Hok).
  - apply (ok_distinct _ Hok).
Qed.

Lemma unregister_waiter ch0 key0 P C (U : Prop) key s :
  waiter_ok ch0 key0 P C U s → (key = key0 → U) →
  waiter_ok ch0 key0 P C U (unregister key s).
Proof.
  intros Hw HU. destruct (w_chan _ _ _ _ _ _ Hw) as (c & Hc & Hv & Hcl & Hop). split; cbn.
  - intros k [_ Hp]%lookup_delete_Some. by eapply (w_key _ _ _ _ _ _ Hw).
  - apply (w_value _ _ _ _ _ _ Hw).
  - exists c. split_and!; [done..|]. intros Ho. destruct (decide (key = key0)) as [->|Hne].
    + right. right. by apply HU.
    + destruct (Hop Ho) as [Hp|?]; [|by right]. left. by rewrite lookup_delete_ne.
Qed.

Lemma resolve_take_ok key v s : waiters_ok s → waiters_ok (resolve_take key v s).2.
Proof.
  intros Hok. unfold resolve_take. destruct (pending s !! key) as [ch|] eqn:E; [|done]. split; cbn.
  - intros k ch' [_ Hp]%lookup_delete_Some. by apply (ok_pending _ Hok _ _ Hp).
  - intros k1 k2 ch' [_ Hp1]%lookup_delete_Some [_ Hp2]%lookup_delete_Some. by eapply (ok_inj _ Hok).
  - intros r [Hr| ->%list_elem_of_singleton]%elem_of_app; [by apply (ok_resolving _ Hok)|].
    destruct (ok_pending _ Hok _ _ E) as (c & ? & ? & ?). by exists c.
  - intros k r [Hne Hp]%lookup_delete_Some [Hr| ->%list_elem_of_singleton]%elem_of_app;
      [by eapply (ok_disjoint _ Hok)|].
    cbn in Hp. by apply Hne, (ok_inj _ Hok _ _ _ E Hp).
  - rewrite fmap_app. apply NoDup_app. split_and!; [apply (ok_distinct _ Hok)| |apply NoDup_singleton].
    intros ch' (r & -> & Hr)%list_elem_of_fmap Heq%list_elem_of_singleton. cbn in Heq. subst ch.
    by eapply (ok_disjoint _ Hok).
Qed.

Lemma resolve_take_waiter ch0 key0 (P : A → Prop) C U key v s :
  waiter_ok ch0 key0 P C U s → (key = key0 → P v) →
  waiter_ok ch0 key0 P C U (resolve_take key v s).2.
Proof.
  intros Hw HP. unfold resolve_take. destruct (pending s !! key) as [ch|] eqn:E; [|done].
  destruct (w_chan _ _ _ _ _ _ Hw) as (c & Hc & Hv & Hcl & Hop). split; cbn.
  - intros k [_ Hp]%lookup_delete_Some. by eapply (w_key _ _ _ _ _ _ Hw).
  - intros r [Hr| ->%list_elem_of_singleton]%elem_of_app Heq; [by eapply (w_value _ _ _ _ _ _ Hw)|].
    cbn in *. subst ch. apply HP. by eapply (w_key _ _ _ _ _ _ Hw).
  - exists c. split_and!; [done..|]. intros Ho. destruct (Hop Ho) as [Hp|[(r & Hr & ?)|?]].
    + destruct (decide (key = key0)) as [->|Hne].
      * right. left. eexists. split; [apply elem_of_app; right; by left|]. cbn. congruence.
      * left. by rewrite lookup_delete_ne.
    + right. left. exists r. split; [apply elem_of_app; by left|done].
    + by do 2 right.
Qed.

(** *** Channel updates *)

Lemma update_chan_lookup f ch cs cs' :
  update_chan f ch cs = Some cs' →
  ∃ c c', cs !! ch = Some c ∧ f c = Some c' ∧ cs' = <[ch := c']> cs.
Proof.
  unfold update_chan. destruct (cs !! ch) as [c|] eqn:E; [|done]. cbn.
  destruct (f c) as [c'|] eqn:E'; [|done]. intros [= <-]. eauto.
Qed.

Lemma update_chan_some (f : chan A → option (chan A)) ch cs c c' :
  cs !! ch = Some c → f c = Some c' → update_chan f ch cs = Some (<[ch := c']> cs).
Proof. intros E E'. unfold update_chan. rewrite E. cbn. by rewrite E'. Qed.

Lemma distinct_lookup s i r r' :
  waiters_ok s → resolving s !! i = Some r → r' ∈ delete i (resolving s) →
  r' ∈ resolving s ∧ rs_chan r' ≠ rs_chan r.
Proof.
  intros Hok Hr Hr'. pose proof (ok_distinct _ Hok) as Hnd.
  pose proof (delete_Permutation _ _ _ Hr) as Hperm. rewrite Hperm in Hnd.
  cbn in Hnd. apply NoDup_cons in Hnd as [Hni _]. split.
  - rewrite Hperm. by right.
  - intros Heq. apply Hni. rewrite <- Heq. by apply list_elem_of_fmap_2.
Qed.

(** The element a step replaces, or another one. *)
Lemma insert_lookup s i r x r' :
  waiters_ok s → resolving s !! i = Some r → r' ∈ <[i := x]> (resolving s) →
  r' = x ∨ (r' ∈ resolving s ∧ rs_chan r' ≠ rs_chan r).
Proof.
  intros Hok Hr (j & [(<- & <- & _)|[Hne Hj]]%list_lookup_insert_Some)%list_elem_of_lookup; [by left|].
  right. split; [by eapply list_elem_of_lookup_2|]. intros Heq. apply Hne.
  eapply (NoDup_lookup (rs_chan <$> resolving s)); [apply (ok_distinct _ Hok)| |].
  - rewrite list_lookup_fmap, Hr. done.
  - rewrite list_lookup_fmap, Hj. cbn. by rewrite Heq.
Qed.

(** A step of a resolution in progress neither panics nor blocks. *)
Lemma resolve_step_ok i s :
  waiters_ok s → ∃ s', resolve_step i s = Some s' ∧ waiters_ok s'.
Proof.
  intros Hok. unfold resolve_step. destruct (resolving s !! i) as [r|] eqn:Er; [|by exists s].
  assert (Hin : r ∈ resolving s) by by eapply list_elem_of_lookup_2.
  destruct (ok_resolving _ Hok _ Hin) as (c & Hc & Ho & Hs).
  assert (Hpend : ∀ k ch c', pending s !! k = Some ch → <[rs_chan r := c']> (chans s) !! ch = chans s !! ch).
  { intros k ch c' Hp. apply list_lookup_insert_ne. intros <-. by eapply (ok_disjoint _ Hok). }
  assert (Hres : ∀ (r' : resolution A) c', rs_chan r' ≠ rs_chan r →
    <[rs_chan r := c']> (chans s) !! rs_chan r' = chans s !! rs_chan r').
  { intros r' c' Hne. by apply list_lookup_insert_ne. }
  pose proof (lookup_lt_Some _ _ _ Hc) as Hlt.
  destruct (rs_sent r) eqn:Es.
  - erewrite update_chan_some; [|done|by unfold chan_close; rewrite Ho]. cbn.
    eexists. split; [done|]. split; cbn.
    + intros k ch Hp. rewrite (Hpend k) by done. by apply (ok_pending _ Hok _ _ Hp).
    + apply (ok_inj _ Hok).
    + intros r' [Hr' Hne]%(distinct_lookup _ _ _ _ Hok Er).
      rewrite Hres by done. by apply (ok_resolving _ Hok).
    + intros k r' Hp [Hr' _]%(distinct_lookup _ _ _ _ Hok Er). by eapply (ok_disjoint _ Hok).
    + pose proof (ok_distinct _ Hok) as Hnd. rewrite (delete_Permutation _ _ _ Er) in Hnd.
      by apply NoDup_cons in Hnd as [_ ?].
  - erewrite update_chan_some; [|done|by unfold chan_send; rewrite Ho, Hs]. cbn.
    eexists. split; [done|]. split; cbn.
    + intros k ch Hp. rewrite (Hpend k) by done. by apply (ok_pending _ Hok _ _ Hp).
    + apply (ok_inj _ Hok).
    + intros r' [->|[Hr' Hne]]%(insert_lookup _ _ _ _ _ Hok Er); cbn.
      * rewrite list_lookup_insert_eq by done. eexists. split; [done|]. done.
      * rewrite Hres by done. by apply (ok_resolving _ Hok).
    + intros k r' Hp [->|[Hr' Hne]]%(insert_lookup _ _ _ _ _ Hok Er); cbn in *;
        by eapply (ok_disjoint _ Hok).
    + rewrite list_fmap_insert. cbn. rewrite list_insert_id; [apply (ok_distinct _ Hok)|].
      by rewrite list_lookup_fmap, Er.
Qed.

Lemma resolve_step_waiter ch0 key0 (P : A → Prop) C U i s s' :
  waiters_ok s → waiter_ok ch0 key0 P C U s → resolve_step i s = Some s' →
  waiter_ok ch0 key0 P C U s'.
Proof.
  intros Hok Hw. unfold resolve_step. destruct (resolving s !! i) as [r|] eqn:Er; [|by intros [= <-]].
  assert (Hin : r ∈ resolving s) by by eapply list_elem_of_lookup_2.
  destruct (ok_resolving _ Hok _ Hin) as (c & Hc & Ho & Hs).
  destruct (w_chan _ _ _ _ _ _ Hw) as (c0 & Hc0 & Hv & Hcl & Hop).
  pose proof (lookup_lt_Some _ _ _ Hc) as Hlt.
  destruct (rs_sent r) eqn:Es.
  - erewrite update_chan_some; [|done|by unfold chan_close; rewrite Ho]. cbn. intros [= <-].
    split; cbn; [apply (w_key _ _ _ _ _ _ Hw)| |].
    { intros r' [Hr' _]%(distinct_lookup _ _ _ _ Hok Er). by apply (w_value _ _ _ _ _ _ Hw). }
    destruct (decide (rs_chan r = ch0)) as [Heq|Hne].
    + rewrite <- Heq, list_lookup_insert_eq by done. eexists. split; [done|]. cbn.
      rewrite Hs. split_and!; [|done|done]. right. exists (rs_value r). split; [done|].
      by apply (w_value _ _ _ _ _ _ Hw).
    + rewrite list_lookup_insert_ne by done. exists c0. split_and!; [done..|].
      intros Hopen. destruct (Hop Hopen) as [?|[(r' & Hr' & Heq)|?]]; [by left| |by do 2 right].
      right. left. exists r'. split; [|done].
      rewrite (delete_Permutation _ _ _ Er) in Hr'. apply elem_of_cons in Hr' as [->|?]; done.
  - erewrite update_chan_some; [|done|by unfold chan_send; rewrite Ho, Hs]. cbn. intros [= <-].
    split; cbn; [apply (w_key _ _ _ _ _ _ Hw)| |].
    { intros r' [->|[Hr' _]]%(insert_lookup _ _ _ _ _ Hok Er);
        [exact (w_value _ _ _ _ _ _ Hw r Hin)|by apply (w_value _ _ _ _ _ _ Hw)]. }
    assert (Hstays : ∀ r', r' ∈ resolving s → ∃ r'',
      r'' ∈ <[i:=Build_resolution (rs_chan r) (rs_value r) true]> (resolving s) ∧
      rs_chan r'' = rs_chan r').
    { intros r' (j & Hj)%list_elem_of_lookup. destruct (decide (j = i)) as [->|Hne].
      - eexists. split; [apply list_elem_of_lookup; exists i|]; cycle 1; [|].
        2:{ apply list_lookup_insert_eq. by eapply lookup_lt_Some. }
        cbn. congruence.
      - exists r'. split; [|done]. apply list_elem_of_lookup. exists j.
        by rewrite list_lookup_insert_ne. }
    destruct (decide (rs_chan r = ch0)) as [Heq|Hne].
    + rewrite <- Heq, list_lookup_insert_eq by done. eexists. split; [done|]. cbn.
      split_and!; [|done|].
      * right. exists (rs_value r). split; [done|]. by apply (w_value _ _ _ _ _ _ Hw).
      * intros _. right. left. apply Hstays in Hin as (r'' & ? & ?). by exists r''.
    + rewrite list_lookup_insert_ne by done. exists c0. split_and!; [done..|].
      intros Hopen. destruct (Hop Hopen) as [?|[(r' & Hr' & Heq)|?]]; [by left| |by do 2 right].
      right. left. apply Hstays in Hr' as (r'' & ? & ?). exists r''. split; [done|congruence].
Qed.

(** *** Cancellation *)

Definition closed_chan (c : chan A) : chan A := Build_chan (sent c) (taken c) true.

Lemma close_all_lookup chs cs :
  NoDup chs → (∀ ch, ch ∈ chs → ∃ c, cs !! ch = Some c ∧ closed c = false) →
  ∃ cs', close_all chs cs = Some cs' ∧
    (∀ ch, ch ∈ chs → cs' !! ch = closed_chan <$> cs !! ch) ∧
    (∀ ch, ch ∉ chs → cs' !! ch = cs !! ch).
Proof.
  revert cs. induction chs as [|ch chs IH]; intros cs Hnd Hopen; cbn [close_all].
  { exists cs. split_and!; [done|by intros ch ?%elem_of_nil|done]. }
  apply NoDup_cons in Hnd as [Hni Hnd].
  destruct (Hopen ch ltac:(by left)) as (c & Hc & Ho). pose proof (lookup_lt_Some _ _ _ Hc).
  rewrite (update_chan_some chan_close ch cs c (closed_chan c)) by (done || by unfold chan_close; rewrite Ho).
  cbn. destruct (IH (<[ch:=closed_chan c]> cs) Hnd) as (cs' & -> & Hin & Hout).
  { intros ch' Hch'. rewrite list_lookup_insert_ne by (intros <-; done).
    apply Hopen. by right. }
  exists cs'. split_and!; [done| |].
  - intros ch' [->|Hch']%elem_of_cons.
    + rewrite Hout by done. by rewrite list_lookup_insert_eq, Hc by done.
    + rewrite Hin by done. rewrite list_lookup_insert_ne by (intros <-; done). done.
  - intros ch' [Hne Hni']%not_elem_of_cons. rewrite Hout by done.
    by rewrite list_lookup_insert_ne.
Qed.

(** Cancelling does not panic, whatever the map order; it closes the channels
    of the client's pending waiters and no other. *)
Lemma cancel_spec clientID generation s :
  waiters_ok s → ∃ s', cancel client_of clientID generation s = Some s' ∧
    resolving s' = resolving s ∧
    (∀ k, pending s' !! k = if of_client client_of clientID generation k then None
                            else pending s !! k) ∧
    (∀ k ch, pending s !! k = Some ch → of_client client_of clientID generation k = true →
       chans s' !! ch = closed_chan <$> chans s !! ch) ∧
    (∀ ch, (∀ k, pending s !! k = Some ch → of_client client_of clientID generation k = false) →
       chans s' !! ch = chans s !! ch).
Proof.
  intros Hok. unfold cancel. set (hit := filter (λ kv, _ = true) (pending s)).
  assert (Hhit : ∀ ch, ch ∈ (map_to_list hit).*2 ↔
    ∃ k, pending s !! k = Some ch ∧ of_client client_of clientID generation k = true).
  { intros ch. rewrite list_elem_of_fmap. split.
    - intros ([k ch'] & -> & [Hk Hc]%elem_of_map_to_list%map_lookup_filter_Some). cbn in *.
      by exists k.
    - intros (k & Hk & Hc). exists (k, ch). split; [done|].
      by apply elem_of_map_to_list, map_lookup_filter_Some. }
  destruct (close_all_lookup (map_to_list hit).*2 (chans s)) as (cs' & -> & Hin & Hout).
  - apply NoDup_fmap_2_strong; [|apply NoDup_map_to_list].
    intros [k1 ch1] [k2 ch2] [H1 _]%elem_of_map_to_list%map_lookup_filter_Some
      [H2 _]%elem_of_map_to_list%map_lookup_filter_Some Heq. cbn in *. subst ch2.
    by rewrite (ok_inj _ Hok _ _ _ H1 H2).
  - intros ch (k & Hk & _)%Hhit. destruct (ok_pending _ Hok _ _ Hk) as (c & ? & ? & ?). by exists c.
  - eexists. split; [done|]. cbn. split_and!; [done| | |].
    + intros k. destruct (of_client client_of clientID generation k) eqn:E.
      * apply map_lookup_filter_None. right. intros x _. cbn. by rewrite E.
      * destruct (pending s !! k) as [ch|] eqn:Ek.
        -- by apply map_lookup_filter_Some.
        -- apply map_lookup_filter_None. by left.
    + intros k ch Hk Hc. apply Hin, Hhit. by exists k.
    + intros ch Hno. apply Hout. intros (k & Hk & Hc)%Hhit. by rewrite (Hno k Hk) in Hc.
Qed.

Lemma cancel_ok clientID generation s :
  waiters_ok s → ∃ s', cancel client_of clientID generation s = Some s' ∧ waiters_ok s'.
Proof.
  intros Hok. destruct (cancel_spec clientID generation s Hok) as (s' & E & Hr & Hp & Hhit & Hmiss).
  exists s'. split; [done|].
  assert (Hpend : ∀ k ch, pending s' !! k = Some ch →
    pending s !! k = Some ch ∧ of_client client_of clientID generation k = false).
  { intros k ch. rewrite Hp. by destruct (of_client _ _ _ k). }
  split.
  - intros k ch [Hk Hc]%Hpend. rewrite Hmiss; [by apply (ok_pending _ Hok _ _ Hk)|].
    intros k' Hk'. by rewrite (ok_inj _ Hok _ _ _ Hk' Hk).
  - intros k1 k2 ch [Hk1 _]%Hpend [Hk2 _]%Hpend. by eapply (ok_inj _ Hok).
  - rewrite Hr. intros r Hin. rewrite Hmiss; [by apply (ok_resolving _ Hok)|].
    intros k Hk. by destruct (ok_disjoint _ Hok _ _ Hk Hin).
  - rewrite Hr. intros k r [Hk _]%Hpend. by eapply (ok_disjoint _ Hok).
  - rewrite Hr. apply (ok_distinct _ Hok).
Qed.

Lemma cancel_waiter ch0 key0 (P : A → Prop) (C U : Prop) clientID generation s s' :
  waiters_ok s → waiter_ok ch0 key0 P C U s →
  cancel client_of clientID generation s = Some s' →
  (client_of key0 = (clientID, generation) → C) →
  waiter_ok ch0 key0 P C U s'.
Proof.
  intros Hok Hw E HC.
  destruct (cancel_spec clientID generation s Hok) as (s1 & E1 & Hr & Hp & Hhit & Hmiss).
  rewrite E in E1. injection E1 as <-.
  destruct (w_chan _ _ _ _ _ _ Hw) as (c & Hc & Hv & Hcl & Hop). split.
  - intros k. rewrite Hp. destruct (of_client _ _ _ k); [done|]. apply (w_key _ _ _ _ _ _ Hw).
  - rewrite Hr. apply (w_value _ _ _ _ _ _ Hw).
  - destruct (decide (pending s !! key0 = Some ch0 ∧
      of_client client_of clientID generation key0 = true)) as [[Hk Ht]|Hno].
    + rewrite (Hhit _ _ Hk Ht), Hc. exists (closed_chan c). split_and!; [done..| |done].
      intros _ _. apply HC. by apply bool_decide_eq_true in Ht.
    + rewrite Hmiss, Hc.
      * exists c. split_and!; [done..|]. intros Ho.
        destruct (Hop Ho) as [Hk|[(r & ? & ?)|?]]; [left| |by do 2 right].
        -- rewrite Hp. destruct (of_client _ _ _ key0) eqn:Ht; [|done]. by destruct Hno.
        -- right. left. exists r. by rewrite Hr.
      * intros k Hk. pose proof (w_key _ _ _ _ _ _ Hw _ Hk) as ->.
        destruct (of_client _ _ _ key0) eqn:Ht; [|done]. by destruct Hno.
Qed.

(** *** Receiving *)

Lemma chan_recv_state (c : chan A) :
  sent (chan_recv c).2 = sent c ∧ closed (chan_recv c).2 = closed c.
Proof. unfold chan_recv. by destruct (sent c !! taken c). Qed.

Lemma receive_lookup ch ch' s c :
  chans s !! ch' = Some c → ∃ c', chans (receive ch s) !! ch' = Some c' ∧
    sent c' = sent c ∧ closed c' = closed c.
Proof.
  intros Hc. cbn. destruct (decide (ch = ch')) as [->|Hne].
  - rewrite list_lookup_alter_eq, Hc. cbn. eexists. split; [done|]. apply chan_recv_state.
  - rewrite list_lookup_alter_ne by done. by exists c.
Qed.

Lemma receive_ok ch s : waiters_ok s → waiters_ok (receive ch s).
Proof.
  intros Hok. split.
  - intros k ch' Hp. destruct (ok_pending _ Hok _ _ Hp) as (c & Hc & <- & <-).
    by apply receive_lookup.
  - apply (ok_inj _ Hok).
  - intros r Hr. destruct (ok_resolving _ Hok _ Hr) as (c & Hc & <- & <-).
    destruct (receive_lookup ch _ _ _ Hc) as (c' & ? & ? & ?). by exists c'.
  - apply (ok_disjoint _ Hok).
  - apply (ok_distinct _ Hok).
Qed.

Lemma receive_waiter ch0 key0 (P : A → Prop) C U ch s :
  waiter_ok ch0 key0 P C U s → waiter_ok ch0 key0 P C U (receive ch s).
Proof.
  intros Hw. destruct (w_chan _ _ _ _ _ _ Hw) as (c & Hc & Hrest). split.
  - apply (w_key _ _ _ _ _ _ Hw).
  - apply (w_value _ _ _ _ _ _ Hw).
  - destruct (receive_lookup ch _ _ _ Hc) as (c' & Hc' & Hs & Ho). exists c'.
    rewrite Hs, Ho. by split.
Qed.
End Facts.

(** ** The registry *)

Definition registry_ok (tr : TunnelRegistry) : Prop :=
  waiters_ok (pendingProvisionAcks tr) ∧ waiters_ok (pendingPreflights tr).

Lemma registry_step_ok op tr :
  registry_ok tr → ∃ tr', registry_step op tr = Some tr' ∧ registry_ok tr'.
Proof.
  intros [Ha Hp]. destruct op; cbn [registry_step].
  - eexists. split; [done|]. unfold registerProvisionAckWaiter.
    pose proof (register_ok (ack_key clientID generation name revision role) _ Ha) as Hok.
    by destruct (register _ _) as [[ch|] acks].
  - eexists. split; [done|]. split; [by apply unregister_ok|done].
  - eexists. split; [done|]. unfold resolveProvisionAckWaiter. destruct (_ =?s _); [done|].
    pose proof (resolve_take_ok (ack_key clientID generation (ar_name resp) (ar_revision resp)
      (ar_role resp)) resp _ Ha) as Hok.
    by destruct (resolve_take _ _ _) as [[ch|] acks].
  - unfold cancelProvisionAckWaiters. destruct (cancel_ok ack_client clientID generation _ Ha) as (s & -> & ?).
    by eexists.
  - destruct (resolve_step_ok i _ Ha) as (s & -> & ?). by eexists.
  - eexists. split; [done|]. split; [by apply receive_ok|done].
  - eexists. split; [done|]. unfold registerPreflightWaiter. destruct (_ =?s _); [done|].
    pose proof (register_ok (preflight_key clientID generation requestID) _ Hp) as Hok.
    by destruct (register _ _) as [[ch|] preflights].
  - eexists. split; [done|]. split; [done|by apply unregister_ok].
  - eexists. split; [done|]. unfold resolvePreflightWaiter. destruct (_ =?s _); [done|].
    pose proof (resolve_take_ok (preflight_key clientID generation (pf_RequestID resp)) resp _ Hp) as Hok.
    by destruct (resolve_take _ _ _) as [[ch|] preflights].
  - unfold cancelPreflightWaiters. destruct (cancel_ok preflight_client clientID generation _ Hp) as (s & -> & ?).
    by eexists.
  - destruct (resolve_step_ok i _ Hp) as (s & -> & ?). by eexists.
  - eexists. split; [done|]. split; [done|by apply receive_ok].
Qed.

Lemma registry_run_ok ops tr :
  registry_ok tr → ∃ tr', registry_run ops tr = Some tr' ∧ registry_ok tr'.
Proof.
  revert tr. induction ops as [|op ops IH]; intros tr Hok; cbn [registry_run]; [by exists tr|].
  destruct (registry_step_ok op tr Hok) as (tr' & -> & Hok'). by apply IH.
Qed.

Section Waiting.
Context (ops : list registry_op) (c : string) (g : Z).

(** The waiter for an acknowledgement over a run. *)
Definition ack_waiter (name : string) (revision : Z) (role : string) (ch : nat)
    (tr : TunnelRegistry) : Prop :=
  waiter_ok ch (ack_key c g name revision role)
    (λ resp, ResolveAck c g resp ∈ ops ∧ ar_name resp = name ∧ ar_revision resp = revision ∧
             ar_role resp = role)
    (CancelAcks c g ∈ ops) (UnregisterAck c g name revision role ∈ ops)
    (pendingProvisionAcks tr).

Lemma ack_waiter_step n v r ch op tr tr' :
  registry_ok tr → ack_waiter n v r ch tr → op ∈ ops → registry_step op tr = Some tr' →
  ack_waiter n v r ch tr'.
Proof.
  intros [Ha Hp] Hw Hin. destruct op; cbn [registry_step].
  - intros [= <-]. unfold registerProvisionAckWaiter.
    pose proof (register_waiter _ _ _ _ _ (ack_key clientID generation name revision role) _ Ha Hw) as Hok.
    by destruct (register _ _) as [[?|] acks].
  - intros [= <-]. apply (unregister_waiter _ _ _ _ _ _ _ Hw). by intros [= <- <- <- <- <-].
  - intros [= <-]. unfold resolveProvisionAckWaiter. destruct (_ =?s _); [done|].
    pose proof (resolve_take_waiter _ _ _ _ _ (ack_key clientID generation (ar_name resp)
      (ar_revision resp) (ar_role resp)) resp _ Hw) as Hok.
    destruct (resolve_take _ _ _) as [[?|] acks]; [|done].
    apply Hok. by intros [= <- <- <- <- <-].
  - unfold cancelProvisionAckWaiters. destruct (cancel _ _ _ _) eqn:E; [|done]. cbn. intros [= <-].
    eapply cancel_waiter; [done|exact Hw|exact E|]. by intros [= -> ->].
  - destruct (resolve_step _ _) eqn:E; [|done]. intros [= <-]. by eapply resolve_step_waiter.
  - intros [= <-]. by apply receive_waiter.
  - intros [= <-]. unfold registerPreflightWaiter. destruct (_ =?s _); [done|].
    by destruct (register _ _) as [[?|] ?].
  - by intros [= <-].
  - intros [= <-]. unfold resolvePreflightWaiter. destruct (_ =?s _); [done|].
    by destruct (resolve_take _ _ _) as [[?|] ?].
  - unfold cancelPreflightWaiters. destruct (cancel _ _ _ _); [|done]. by intros [= <-].
  - destruct (resolve_step _ _); [|done]. by intros [= <-].
  - by intros [= <-].
Qed.

(** The waiter for a preflight response over a run. *)
Definition preflight_waiter (requestID : string) (ch : nat) (tr : TunnelRegistry) : Prop :=
  waiter_ok ch (preflight_key c g requestID)
    (λ resp, ResolvePreflight c g resp ∈ ops ∧ pf_RequestID resp = requestID)
    (CancelPreflights c g ∈ ops) (UnregisterPreflight c g requestID ∈ ops)
    (pendingPreflights tr).

Lemma preflight_waiter_step id ch op tr tr' :
  registry_ok tr → preflight_waiter id ch tr → op ∈ ops → registry_step op tr = Some tr' →
  preflight_waiter id ch tr'.
Proof.
  intros [Ha Hp] Hw Hin. destruct op; cbn [registry_step].
  - intros [= <-]. unfold registerProvisionAckWaiter. by destruct (register _ _) as [[?|] ?].
  - by intros [= <-].
  - intros [= <-]. unfold resolveProvisionAckWaiter. destruct (_ =?s _); [done|].
    by destruct (resolve_take _ _ _) as [[?|] ?].
  - unfold cancelProvisionAckWaiters. destruct (cancel _ _ _ _); [|done]. by intros [= <-].
  - destruct (resolve_step _ _); [|done]. by intros [= <-].
  - by intros [= <-].
  - intros [= <-]. unfold registerPreflightWaiter. destruct (_ =?s _); [done|].
    pose proof (register_waiter _ _ _ _ _ (preflight_key clientID generation requestID) _ Hp Hw) as Hok.
    by destruct (register _ _) as [[?|] ?].
  - intros [= <-]. apply (unregister_waiter _ _ _ _ _ _ _ Hw). by intros [= <- <- <-].
  - intros [= <-]. unfold resolvePreflightWaiter. destruct (_ =?s _); [done|].
    pose proof (resolve_take_waiter _ _ _ _ _ (preflight_key clientID generation
      (pf_RequestID resp)) resp _ Hw) as Hok.
    destruct (resolve_take _ _ _) as [[?|] ?]; [|done]. apply Hok. by intros [= <- <- <-].
  - unfold cancelPreflightWaiters. destruct (cancel _ _ _ _) eqn:E; [|done]. cbn. intros [= <-].
    eapply cancel_waiter; [done|exact Hw|exact E|]. by intros [= -> ->].
  - destruct (resolve_step _ _) eqn:E; [|done]. intros [= <-]. by eapply resolve_step_waiter.
  - intros [= <-]. by apply receive_waiter.
Qed.
End Waiting.

(** A step invariant holds along a run. *)
Lemma registry_run_invariant (I : TunnelRegistry → Prop) ops tr tr' :
  (∀ op tr tr', registry_ok tr → I tr → op ∈ ops → registry_step op tr = Some tr' → I tr') →
  registry_ok tr → I tr → registry_run ops tr = Some tr' → I tr'.
Proof.
  revert tr. induction ops as [|op ops IH]; intros tr Hstep Hok HI; cbn [registry_run];
    [by intros [= <-]|].
  destruct (registry_step_ok op tr Hok) as (tr1 & E & Hok1). rewrite E. cbn.
  apply IH; [|done|].
  - intros op' t t' Ht Hi Hin. apply Hstep; [done|done|by right].
  - exact (Hstep op tr tr1 Hok HI ltac:(by left) E).
Qed.

(** The end of a wait: at most one value and a good one; closed without a
    value only when cancelled; still open only while it waits, is being
    resolved, or has unregistered. *)
Definition waiter_outcome {K A} `{Countable K} (s : waiters K A) (key : K) (ch : nat)
    (value_ok : A → Prop) (cancelled unregistered : Prop) : Prop :=
  ∃ st, chans s !! ch = Some st ∧
    (sent st = [] ∨ ∃ v, sent st = [v] ∧ value_ok v) ∧
    (closed st = true → sent st = [] → cancelled) ∧
    (closed st = false → pending s !! key = Some ch ∨
       (∃ r, r ∈ resolving s ∧ rs_chan r = ch) ∨ unregistered).

(** C34: what a waiter of the tunnel registry may rely on.  From any state the
    registry can reach, let a waiter register, and let any operations follow,
    concurrent resolutions split into their send and their close.  Nothing
    panics or blocks: no channel is closed twice or sent on after its
    close, and no send finds the buffer full.  The waiter's channel carries
    at most one response, one that was given to [resolve] for its own client,
    generation, name, revision and role (for a preflight: request ID); it is
    closed without a response only if its client's waiters were cancelled;
    and it is left open only while the waiter is registered, while a
    resolution is in progress, or when it unregistered itself. *)
Theorem registry_waiters (before after : list registry_op) (tr : TunnelRegistry) :
  registry_run before newTunnelRegistry = Some tr →
  (∀ c g name revision role ch tr1,
     registerProvisionAckWaiter c g name revision role tr = (Ok ch, tr1) →
     ∃ tr2, registry_run after tr1 = Some tr2 ∧
       waiter_outcome (pendingProvisionAcks tr2) (ack_key c g name revision role) ch
         (λ resp, ResolveAck c g resp ∈ after ∧ ar_name resp = name ∧
                  ar_revision resp = revision ∧ ar_role resp = role)
         (CancelAcks c g ∈ after) (UnregisterAck c g name revision role ∈ after)) ∧
  (∀ c g requestID ch tr1,
     registerPreflightWaiter c g requestID tr = (Ok ch, tr1) →
     ∃ tr2, registry_run after tr1 = Some tr2 ∧
       waiter_outcome (pendingPreflights tr2) (preflight_key c g requestID) ch
         (λ resp, ResolvePreflight c g resp ∈ after ∧ pf_RequestID resp = requestID)
         (CancelPreflights c g ∈ after) (UnregisterPreflight c g requestID ∈ after)).
Proof.
  intros Hrun. destruct (registry_run_ok before newTunnelRegistry) as (tr0 & E & Hok);
    [split; apply no_waiters_ok|].
  rewrite Hrun in E. injection E as <-. split.
  - intros c g name revision role ch tr1 Hreg.
    destruct (registry_step_ok (RegisterAck c g name revision role) tr Hok) as (t & E & Hok1).
    cbn in E. rewrite Hreg in E. injection E as <-. cbn in Hok1.
    destruct (registry_run_ok after tr1 Hok1) as (tr2 & E2 & _). exists tr2. split; [done|].
    eapply w_chan, (registry_run_invariant (ack_waiter after c g name revision role ch) after tr1);
      [by intros; eapply ack_waiter_step|done| |done].
    revert Hreg. unfold registerProvisionAckWaiter.
    destruct (register _ _) as [[ch'|] acks] eqn:Er; [|done]. intros [= -> <-].
    eapply register_fresh; [apply Hok|done].
  - intros c g requestID ch tr1 Hreg.
    destruct (registry_step_ok (RegisterPreflight c g requestID) tr Hok) as (t & E & Hok1).
    cbn in E. rewrite Hreg in E. injection E as <-. cbn in Hok1.
    destruct (registry_run_ok after tr1 Hok1) as (tr2 & E2 & _). exists tr2. split; [done|].
    eapply w_chan, (registry_run_invariant (preflight_waiter after c g requestID ch) after tr1);
      [by intros; eapply preflight_waiter_step|done| |done].
    revert Hreg. unfold registerPreflightWaiter. destruct (_ =?s _); [done|].
    destruct (register _ _) as [[ch'|] preflights] eqn:Er; [|done]. intros [= -> <-].
    eapply register_fresh; [apply Hok|done].
Qed.

(** A response and a session loss race for the waiter of a reconnected
    client. *)
Module RegistrySample.
Definition before : list registry_op :=
  [RegisterAck "c1" 1 "web" 2 "target"; CancelAcks "c1" 1].
Definition resp : provisionAckResult := {|
  ar_name := "web"; ar_accepted := true; ar_message := ""; ar_revision := 2;
  ar_role := "target" |}.
Definition after : list registry_op :=
  [ResolveAck "c1" 2 resp; CancelAcks "c1" 2; StepAck 0; ReceiveAck 1; StepAck 0].
Definition reached : option TunnelRegistry := registry_run before newTunnelRegistry.
Definition register_in (tr : TunnelRegistry) : result nat * TunnelRegistry :=
  registerProvisionAckWaiter "c1" 2 "web" 2 "target" tr.
Definition check (tr : TunnelRegistry) : bool :=
  match (register_in tr).1 with Ok ch => (ch =? 1)%nat | Err _ => false end.
Lemma reachable : ∃ tr, reached = Some tr ∧ (register_in tr).1 = Ok 1%nat.
Proof.
  assert (Hb : match reached with Some tr => check tr | None => false end = true)
    by (vm_compute; reflexivity).
  destruct reached as [tr|]; [|done]. exists tr. split; [done|]. unfold check in Hb.
  destruct (register_in tr).1 as [ch|]; [|done]. by apply Nat.eqb_eq in Hb as ->.
Qed.
End RegistrySample.

Lemma registry_waiters_witness :
  ∃ tr tr2, RegistrySample.reached = Some tr ∧
    registry_run RegistrySample.after (RegistrySample.register_in tr).2 = Some tr2 ∧
    ∃ st, chans (pendingProvisionAcks tr2) !! 1%nat = Some st ∧
      (sent st = [] ∨ ∃ v, sent st = [v] ∧ ar_name v = "web"%string).
Proof.
  destruct RegistrySample.reachable as (tr & E & Hreg).
  pose proof (proj1 (registry_waiters RegistrySample.before RegistrySample.after tr E)
    "c1"%string 2 "web"%string 2 "target"%string 1%nat (RegistrySample.register_in tr).2) as Hack.
  destruct Hack as (tr2 & E2 & st & Hst & Hv & _).
  { rewrite <- Hreg. apply surjective_pairing. }
  exists tr, tr2. split; [exact E|]. split; [exact E2|]. exists st. split; [exact Hst|].
  destruct Hv as [Hv|(v & Hv & _ & Hn & _)]; [left; exact Hv|right; exists v; split; [exact Hv|exact Hn]].
Defined.
