(* ===== verification/Events.v ===== *)
(** The event bus and the server-sent event streams over it
    (internal/server/events.go).

    Subscriber channels hold 64 events and live in a heap.  Publishers hold
    the read lock, so several can be in progress and their sends interleave;
    subscribing, the critical section of unsubscribing and closing need the
    write lock and wait (the step leaves the state unchanged) while a
    publisher is in progress.  A panic is [None].  [encoding/json] and the
    activity redaction are arguments. *)
From Stdlib Require Import ZArith Lia Ascii String.
From stdpp Require Import base tactics numbers list gmap strings sets.
From S2P Require Import Prelude.

Record SSEEvent := { ev_Type : string; ev_Data : string; ev_ScopeUserID : string }.

(** A buffered channel: every event it accepted, the first [ch_taken] of them
    received. *)
Record echan := { ch_sent : list SSEEvent; ch_taken : nat; ch_closed : bool }.
Definition chan_capacity : nat := 64.
Definition new_echan : echan := {| ch_sent := []; ch_taken := 0; ch_closed := false |}.

Definition has_room (c : echan) : bool := (length (ch_sent c) - ch_taken c <? chan_capacity)%nat.

(** [select { case ch <- event: default: }], [None] on a closed channel. *)
Definition try_send (e : SSEEvent) (c : echan) : option echan :=
  if ch_closed c then None
  else if has_room c
  then Some {| ch_sent := ch_sent c ++ [e]; ch_taken := ch_taken c; ch_closed := false |}
  else Some c.

Definition close_echan (c : echan) : option echan :=
  if ch_closed c then None
  else Some {| ch_sent := ch_sent c; ch_taken := ch_taken c; ch_closed := true |}.

(** A publisher in progress: its event and the subscribers still ahead. *)
Record publisher := { pb_event : SSEEvent; pb_ahead : gset nat }.

Record EventBus := {
  bus_chans : list echan; subscribers : gset nat;
  publishing : list publisher; unsubscribing : list nat;
}.

Definition NewEventBus : EventBus :=
  {| bus_chans := []; subscribers := ∅; publishing := []; unsubscribing := [] |}.

Definition with_chans (b : EventBus) (cs : list echan) : EventBus :=
  {| bus_chans := cs; subscribers := subscribers b; publishing := publishing b;
     unsubscribing := unsubscribing b |}.

Definition update_echan (f : echan → option echan) (ch : nat) (b : EventBus) : option EventBus :=
  c ← bus_chans b !! ch; c' ← f c; Some (with_chans b (<[ch := c']> (bus_chans b))).

(** No reader holds the lock. *)
Definition unlocked (b : EventBus) : bool := bool_decide (publishing b = []).

Definition Subscribe (b : EventBus) : nat * EventBus :=
  let ch := length (bus_chans b) in
  (ch, {| bus_chans := bus_chans b ++ [new_echan]; subscribers := {[ ch ]} ∪ subscribers b;
          publishing := publishing b; unsubscribing := unsubscribing b |}).

(** The critical section of [Unsubscribe]; the close follows it. *)
Definition Unsubscribe (ch : nat) (b : EventBus) : EventBus :=
  if bool_decide (ch ∈ subscribers b)
  then {| bus_chans := bus_chans b; subscribers := subscribers b ∖ {[ ch ]};
          publishing := publishing b; unsubscribing := ch :: unsubscribing b |}
  else b.

Definition finish_unsubscribe (ch : nat) (b : EventBus) : option EventBus :=
  if bool_decide (ch ∈ unsubscribing b) then
    update_echan close_echan ch
      {| bus_chans := bus_chans b; subscribers := subscribers b; publishing := publishing b;
         unsubscribing := filter (λ c, c ≠ ch) (unsubscribing b) |}
  else Some b.

Definition HasSubscribers (b : EventBus) : bool := bool_decide (subscribers b ≠ ∅).

Fixpoint close_subscribers (chs : list nat) (b : EventBus) : option EventBus :=
  match chs with
  | [] => Some b
  | ch :: chs =>
      b' ← update_echan close_echan ch
             {| bus_chans := bus_chans b; subscribers := subscribers b ∖ {[ ch ]};
                publishing := publishing b; unsubscribing := unsubscribing b |};
      close_subscribers chs b'
  end.

Definition Close (b : EventBus) : option EventBus := close_subscribers (elements (subscribers b)) b.

(** [Publish] takes the read lock, sends to every subscriber in some order,
    and releases the lock after the last. *)
Definition publish_begin (e : SSEEvent) (b : EventBus) : EventBus :=
  if bool_decide (subscribers b = ∅) then b
  else {| bus_chans := bus_chans b; subscribers := subscribers b;
          publishing := publishing b ++ [{| pb_event := e; pb_ahead := subscribers b |}];
          unsubscribing := unsubscribing b |}.

Definition publish_send (i ch : nat) (b : EventBus) : option EventBus :=
  match publishing b !! i with
  | Some p =>
      if bool_decide (ch ∈ pb_ahead p) then
        let ahead := pb_ahead p ∖ {[ ch ]} in
        update_echan (try_send (pb_event p)) ch
          {| bus_chans := bus_chans b; subscribers := subscribers b;
             publishing :=
               if bool_decide (ahead = ∅) then delete i (publishing b)
               else <[i := {| pb_event := pb_event p; pb_ahead := ahead |}]> (publishing b);
             unsubscribing := unsubscribing b |}
      else Some b
  | None => Some b
  end.

Definition receive_event (ch : nat) (b : EventBus) : EventBus :=
  with_chans b (alter (λ c, {| ch_sent := ch_sent c;
                               ch_taken := if (ch_taken c <? length (ch_sent c))%nat
                                           then S (ch_taken c) else ch_taken c;
                               ch_closed := ch_closed c |}) ch (bus_chans b)).

(** The event a publication puts on the bus, given [json.Marshal(data)]. *)
Definition PublishJSON (eventType : string) (data : result string) : option SSEEvent :=
  match data with
  | Err _ => None
  | Ok json => Some {| ev_Type := eventType; ev_Data := json; ev_ScopeUserID := "" |}
  end.

Definition PublishScopedJSON (eventType scopeUserID : string) (data : result string)
  : option SSEEvent :=
  if scopeUserID =?s "" then None else
  match data with
  | Err _ => None
  | Ok json => Some {| ev_Type := eventType; ev_Data := json; ev_ScopeUserID := scopeUserID |}
  end.

(** ** Runs of the bus *)

Inductive bus_op :=
| BusSubscribe
| BusUnsubscribe (ch : nat)
| BusFinishUnsubscribe (ch : nat)
| BusClose
| BusPublish (eventType : string) (data : result string)
| BusPublishScoped (eventType scopeUserID : string) (data : result string)
| BusSend (i ch : nat)
| BusReceive (ch : nat).

Definition begin_if (e : option SSEEvent) (b : EventBus) : EventBus :=
  match e with Some e => publish_begin e b | None => b end.

Definition bus_step (op : bus_op) (b : EventBus) : option EventBus :=
  match op with
  | BusSubscribe => Some (if unlocked b then (Subscribe b).2 else b)
  | BusUnsubscribe ch => Some (if unlocked b then Unsubscribe ch b else b)
  | BusFinishUnsubscribe ch => finish_unsubscribe ch b
  | BusClose => if unlocked b then Close b else Some b
  | BusPublish t d => Some (begin_if (PublishJSON t d) b)
  | BusPublishScoped t u d => Some (begin_if (PublishScopedJSON t u d) b)
  | BusSend i ch => publish_send i ch b
  | BusReceive ch => Some (receive_event ch b)
  end.

Fixpoint bus_run (ops : list bus_op) (b : EventBus) : option EventBus :=
  match ops with
  | [] => Some b
  | op :: ops => b' ← bus_step op b; bus_run ops b'
  end.

(** ** A stream *)

Record sseReadScope := { sc_userID : string; sc_global : bool }.

(** [resourceScopeFromContext] and the principal of the request. *)
Definition sseReadScopeForRequest (resourceScope : option string) (isAdmin : option bool)
  : result sseReadScope :=
  match resourceScope with
  | Some owner => Ok {| sc_userID := owner; sc_global := false |}
  | None =>
      match isAdmin with
      | Some false => Err (Errorf "user SSE request is missing a resource scope" [])
      | _ => Ok {| sc_userID := ""; sc_global := true |}
      end
  end.

Definition allows (scope : sseReadScope) (event : SSEEvent) : bool :=
  if sc_global scope
  then (ev_Type event =?s "activity_event") || (ev_Type event =?s "user_list_changed")
  else ev_ScopeUserID event =?s sc_userID scope.

(** What [handleSSE] writes. *)
Inductive sse_frame :=
| FrameSnapshot (data : string)
| FrameEvent (eventType data : string)
| FrameKeepalive.

(** What the select of the loop yields; [TickSnapshot] only for user scopes. *)
Inductive sse_input :=
| GotEvent (event : SSEEvent)
| ChannelClosed
| TickSnapshot
| TickHeartbeat
| ContextDone.

Section Stream.
(** [json.Unmarshal], [redactAdminActivityActorNetwork], [json.Marshal]. *)
Context (redact : string → result string).
(** [snapshotForSSEScope], marshalled, at the [i]-th input. *)
Context (snapshot : nat → sseReadScope → result string).
(** The write of the [i]-th input succeeds. *)
Context (writable : nat → bool).

(** [restricted]: the principal is known and no administrator. *)
Definition event_data (restricted : bool) (event : SSEEvent) : result string :=
  if restricted && (ev_Type event =?s "activity_event") then redact (ev_Data event)
  else Ok (ev_Data event).

(** The loop of [handleSSE] from its [i]-th input on. *)
Fixpoint sse_loop (scope : sseReadScope) (restricted : bool) (i : nat) (inputs : list sse_input)
  : list sse_frame :=
  match inputs with
  | [] => []
  | GotEvent event :: inputs =>
      if negb (allows scope event) then sse_loop scope restricted (S i) inputs else
      match event_data restricted event with
      | Err _ => sse_loop scope restricted (S i) inputs
      | Ok data => if writable i
                   then FrameEvent (ev_Type event) data :: sse_loop scope restricted (S i) inputs
                   else []
      end
  | ChannelClosed :: _ => []
  | TickSnapshot :: inputs =>
      if sc_global scope then sse_loop scope restricted (S i) inputs else
      match snapshot i scope with
      | Err _ => []
      | Ok data => if writable i
                   then FrameSnapshot data :: sse_loop scope restricted (S i) inputs else []
      end
  | TickHeartbeat :: inputs =>
      if writable i then FrameKeepalive :: sse_loop scope restricted (S i) inputs else []
  | ContextDone :: _ => []
  end.
End Stream.

(** ** Facts *)

(** The event was put on the bus by one of the operations. *)
Definition published (ops : list bus_op) (e : SSEEvent) : Prop :=
  (∃ data, BusPublish (ev_Type e) (Ok data) ∈ ops ∧ ev_Data e = data ∧ ev_ScopeUserID e = ""%string) ∨
  (∃ data, BusPublishScoped (ev_Type e) (ev_ScopeUserID e) (Ok data) ∈ ops ∧ ev_Data e = data ∧
           ev_ScopeUserID e ≠ ""%string).

Section BusFacts.
Context (ops : list bus_op).

Definition chan_ok (c : echan) : Prop :=
  (ch_taken c ≤ length (ch_sent c))%nat ∧ (length (ch_sent c) - ch_taken c ≤ chan_capacity)%nat ∧
  Forall (published ops) (ch_sent c).

(** Subscribers' channels are open, a channel about to be closed has left the
    subscribers, and publishers only have subscribers ahead. *)
Record bus_ok (b : EventBus) : Prop := {
  bus_open : ∀ ch, ch ∈ subscribers b → ∃ c, bus_chans b !! ch = Some c ∧ ch_closed c = false;
  bus_leaving : ∀ ch, ch ∈ unsubscribing b →
    (ch ∉ subscribers b) ∧ ∃ c, bus_chans b !! ch = Some c ∧ ch_closed c = false;
  bus_ahead : ∀ p, p ∈ publishing b → pb_ahead p ⊆ subscribers b ∧ published ops (pb_event p);
  bus_chan_ok : Forall chan_ok (bus_chans b);
}.

Lemma bus_new_ok : bus_ok NewEventBus.
Proof. split; cbn; [set_solver|set_solver|set_solver|constructor]. Qed.

Lemma has_room_lt c : has_room c = true → (length (ch_sent c) - ch_taken c < chan_capacity)%nat.
Proof. unfold has_room. by intros ?%Nat.ltb_lt. Qed.

Lemma try_send_ok e c :
  ch_closed c = false → chan_ok c → published ops e →
  ∃ c', try_send e c = Some c' ∧ ch_closed c' = false ∧ chan_ok c' ∧
    ch_sent c' = (if has_room c then ch_sent c ++ [e] else ch_sent c) ∧ ch_taken c' = ch_taken c.
Proof.
  intros Ho (Ht & Hl & Hp) He. unfold try_send. rewrite Ho.
  destruct (has_room c) eqn:E; eexists; split; try done.
  apply has_room_lt in E. unfold chan_capacity in *.
  split_and!; try done. split_and!; cbn.
  - rewrite length_app. lia.
  - rewrite length_app. cbn. unfold chan_capacity. lia.
  - apply Forall_app_2; [done|by apply Forall_singleton].
Qed.

(** Replacing a channel by one in the same state of closure. *)
Lemma update_echan_ok f ch b c c' :
  bus_chans b !! ch = Some c → f c = Some c' →
  update_echan f ch b = Some (with_chans b (<[ch := c']> (bus_chans b))).
Proof. intros E E'. unfold update_echan. rewrite E. cbn. by rewrite E'. Qed.

Lemma insert_open (cs : list echan) ch c' ch' :
  (∃ c, cs !! ch' = Some c ∧ ch_closed c = false) → (ch = ch' → ch_closed c' = false) →
  ∃ c, <[ch := c']> cs !! ch' = Some c ∧ ch_closed c = false.
Proof.
  intros (c & Hc & Ho) Hch. destruct (decide (ch = ch')) as [->|Hne].
  - exists c'. rewrite list_lookup_insert_eq by by eapply lookup_lt_Some. eauto.
  - exists c. by rewrite list_lookup_insert_ne.
Qed.

Lemma alter_open (cs : list echan) f ch ch' :
  (∃ c, cs !! ch' = Some c ∧ ch_closed c = false) → (∀ c, ch_closed (f c) = ch_closed c) →
  ∃ c, alter f ch cs !! ch' = Some c ∧ ch_closed c = false.
Proof.
  intros (c & Hc & Ho) Hf. destruct (decide (ch = ch')) as [->|Hne].
  - rewrite list_lookup_alter_eq, Hc. cbn. exists (f c). by rewrite Hf.
  - rewrite list_lookup_alter_ne by done. by exists c.
Qed.

Lemma publish_send_ok i ch b :
  bus_ok b → ∃ b', publish_send i ch b = Some b' ∧ bus_ok b'.
Proof.
  intros Hok. unfold publish_send. destruct (publishing b !! i) as [p|] eqn:Ep; [|by exists b].
  case_bool_decide as Hin; [|by exists b].
  assert (Hp : p ∈ publishing b) by by eapply list_elem_of_lookup_2.
  destruct (bus_ahead _ Hok _ Hp) as [Hsub Hpub].
  destruct (bus_open _ Hok ch ltac:(set_solver)) as (c & Hc & Ho).
  assert (Hcok : chan_ok c) by (eapply Forall_lookup_1; [apply (bus_chan_ok _ Hok)|done]).
  destruct (try_send_ok (pb_event p) c Ho Hcok Hpub) as (c' & Ec & Ho' & Hcok' & _).
  erewrite update_echan_ok; [|exact Hc|exact Ec]. eexists. split; [done|]. split; cbn.
  - intros ch' Hch'. apply insert_open; [by apply (bus_open _ Hok)|done].
  - intros ch' Hch'. destruct (bus_leaving _ Hok _ Hch') as [? ?]. split; [done|].
    by apply insert_open.
  - intros q Hq. case_bool_decide.
    + apply (bus_ahead _ Hok). rewrite (delete_Permutation _ _ _ Ep). by right.
    + apply list_elem_of_lookup in Hq as (j & [(<- & <- & _)|[_ Hj]]%list_lookup_insert_Some).
      * cbn. split; [set_solver|done].
      * apply (bus_ahead _ Hok). by eapply list_elem_of_lookup_2.
  - apply Forall_insert; [apply (bus_chan_ok _ Hok)|done].
Qed.

Lemma close_subscribers_ok chs b :
  bus_ok b → publishing b = [] → NoDup chs → (∀ ch, ch ∈ chs → ch ∈ subscribers b) →
  ∃ b', close_subscribers chs b = Some b' ∧ bus_ok b' ∧ publishing b' = [].
Proof.
  revert b. induction chs as [|ch chs IH]; intros b Hok Hpub Hnd Hsub; cbn [close_subscribers];
    [by exists b|].
  apply NoDup_cons in Hnd as [Hni Hnd].
  destruct (bus_open _ Hok ch (Hsub ch ltac:(by left))) as (c & Hc & Ho).
  erewrite update_echan_ok; [|exact Hc|by unfold close_echan; rewrite Ho]. cbn.
  apply IH; [split; cbn|exact Hpub|done|].
  - intros ch' [Hin Hne]%elem_of_difference. apply insert_open; [by apply (bus_open _ Hok)|].
    intros ->. set_solver.
  - intros ch' Hch'. destruct (bus_leaving _ Hok _ Hch') as [Hni' ?]. split; [set_solver|].
    apply insert_open; [done|]. intros ->. destruct Hni'. apply Hsub. by left.
  - rewrite Hpub. by intros p ?%elem_of_nil.
  - apply Forall_insert; [apply (bus_chan_ok _ Hok)|].
    pose proof (Forall_lookup_1 _ _ _ _ (bus_chan_ok _ Hok) Hc) as (? & ? & ?). by split_and!.
  - cbn. intros ch' Hch'. apply elem_of_difference. split; [apply Hsub; by right|set_solver].
Qed.

Lemma bus_step_ok op b :
  op ∈ ops → bus_ok b → ∃ b', bus_step op b = Some b' ∧ bus_ok b'.
Proof.
  intros Hop Hok.
  assert (Hbegin : ∀ e, published ops e → bus_ok (publish_begin e b)).
  { intros e He. unfold publish_begin. case_bool_decide; [done|]. split; cbn; try apply Hok.
    intros p [Hp| ->%list_elem_of_singleton]%elem_of_app; [by apply (bus_ahead _ Hok)|done]. }
  destruct op as [|ch|ch| |t d|t u d|i ch|ch]; cbn [bus_step].
  - eexists. split; [done|]. unfold unlocked. case_bool_decide as Hl; [|done]. split; cbn.
    + intros ch [->%elem_of_singleton|Hin]%elem_of_union.
      * exists new_echan. by rewrite list_lookup_middle.
      * destruct (bus_open _ Hok _ Hin) as (c & Hc & ?). exists c. split; [|done].
        by apply lookup_app_l_Some.
    + intros ch Hin. destruct (bus_leaving _ Hok _ Hin) as [Hni (c & Hc & ?)].
      pose proof (lookup_lt_Some _ _ _ Hc). split.
      * intros [->%elem_of_singleton|?]%elem_of_union; [lia|done].
      * exists c. split; [|done]. by apply lookup_app_l_Some.
    + rewrite Hl. set_solver.
    + apply Forall_app_2; [apply (bus_chan_ok _ Hok)|]. apply Forall_singleton.
      split_and!; cbn; [lia|lia|constructor].
  - eexists. split; [done|]. unfold unlocked. case_bool_decide as Hl; [|done].
    unfold Unsubscribe. case_bool_decide as Hin; [|done]. split; cbn; [| |by rewrite Hl; set_solver|apply Hok].
    + intros ch' [? _]%elem_of_difference. by apply (bus_open _ Hok).
    + intros ch' [->|Hch']%elem_of_cons.
      * split; [set_solver|by apply (bus_open _ Hok)].
      * destruct (bus_leaving _ Hok _ Hch'). split; [set_solver|done].
  - unfold finish_unsubscribe. case_bool_decide as Hin; [|by exists b].
    destruct (bus_leaving _ Hok _ Hin) as [Hni (c & Hc & Ho)].
    erewrite update_echan_ok; [|exact Hc|by unfold close_echan; rewrite Ho]. cbn.
    eexists. split; [done|]. split; cbn.
    + intros ch' Hch'. apply insert_open; [by apply (bus_open _ Hok)|by intros ->].
    + intros ch' [Hne Hch']%list_elem_of_filter. destruct (bus_leaving _ Hok _ Hch').
      split; [done|]. apply insert_open; [done|congruence].
    + apply (bus_ahead _ Hok).
    + apply Forall_insert; [apply (bus_chan_ok _ Hok)|].
      pose proof (Forall_lookup_1 _ _ _ _ (bus_chan_ok _ Hok) Hc) as (? & ? & ?). by split_and!.
  - unfold unlocked. case_bool_decide as Hl; [|by exists b].
    destruct (close_subscribers_ok (elements (subscribers b)) b Hok Hl) as (b' & E & ? & _);
      [apply NoDup_elements|by intros ch ?%elem_of_elements|by exists b'].
  - eexists. split; [done|]. destruct d as [json|]; cbn; [|done]. apply Hbegin. left. by exists json.
  - eexists. split; [done|]. unfold PublishScopedJSON.
    destruct (String.eqb_spec u ""); [done|]. destruct d as [json|]; cbn; [|done].
    apply Hbegin. right. by exists json.
  - by apply publish_send_ok.
  - eexists. split; [done|]. split; cbn [receive_event with_chans bus_chans subscribers unsubscribing publishing].
    + intros ch' Hch'. destruct (bus_open _ Hok _ Hch') as (c & Hc & Ho).
      by apply alter_open; [exists c|].
    + intros ch' Hch'. destruct (bus_leaving _ Hok _ Hch') as [? (c & Hc & Ho)]. split; [done|].
      by apply alter_open; [exists c|].
    + apply (bus_ahead _ Hok).
    + apply Forall_alter; [apply (bus_chan_ok _ Hok)|]. intros c _ (Ht & Hl & Hp).
      split_and!; cbn [ch_sent ch_taken]; [| |done].
      * destruct (Nat.ltb_spec (ch_taken c) (length (ch_sent c))); lia.
      * destruct (Nat.ltb_spec (ch_taken c) (length (ch_sent c))); lia.
Qed.

Lemma bus_run_ok todo b :
  (∀ op, op ∈ todo → op ∈ ops) → bus_ok b → ∃ b', bus_run todo b = Some b' ∧ bus_ok b'.
Proof.
  revert b. induction todo as [|op todo IH]; intros b Hin Hok; cbn [bus_run]; [by exists b|].
  destruct (bus_step_ok op b (Hin op ltac:(by left)) Hok) as (b' & -> & Hok').
  apply IH; [|done]. intros op' ?. apply Hin. by right.
Qed.
End BusFacts.

Lemma bus_reachable_ok ops : ∃ b, bus_run ops NewEventBus = Some b ∧ bus_ok ops b.
Proof. apply bus_run_ok; [done|]. apply bus_new_ok. Qed.

(** The events a stream passes on. *)
Definition frame_event (scope : sseReadScope) (redact : string → result string)
    (restricted : bool) (e : SSEEvent) (t d : string) : Prop :=
  allows scope e = true ∧ t = ev_Type e ∧ event_data redact restricted e = Ok d.

Lemma sse_loop_frames redact snapshot writable scope restricted i inputs f :
  f ∈ sse_loop redact snapshot writable scope restricted i inputs →
  match f with
  | FrameEvent t d => ∃ e, GotEvent e ∈ inputs ∧ frame_event scope redact restricted e t d
  | FrameSnapshot d => sc_global scope = false ∧ ∃ j, snapshot j scope = Ok d
  | FrameKeepalive => True
  end.
Proof.
  assert (Hlift : ∀ x inputs, (match f with
    | FrameEvent t d => ∃ e, GotEvent e ∈ inputs ∧ frame_event scope redact restricted e t d
    | FrameSnapshot d => sc_global scope = false ∧ ∃ j, snapshot j scope = Ok d
    | FrameKeepalive => True end) → match f with
    | FrameEvent t d => ∃ e, GotEvent e ∈ x :: inputs ∧ frame_event scope redact restricted e t d
    | FrameSnapshot d => sc_global scope = false ∧ ∃ j, snapshot j scope = Ok d
    | FrameKeepalive => True end).
  { intros x l. destruct f; try done. intros (e & ? & ?). exists e. by split; [right|]. }
  revert i. induction inputs as [|x inputs IH]; intros i; cbn [sse_loop]; [by intros ?%elem_of_nil|].
  destruct x as [e| | | |].
  - destruct (allows scope e) eqn:Ha; cbn [negb]; [|by intros ?%IH; apply Hlift].
    destruct (event_data redact restricted e) as [d|] eqn:Ed; [|by intros ?%IH; apply Hlift].
    destruct (writable i); [|by intros ?%elem_of_nil].
    intros [->|?%IH]%elem_of_cons; [|by apply Hlift]. exists e. split; [by left|done].
  - by intros ?%elem_of_nil.
  - destruct (sc_global scope) eqn:Hg; [by intros ?%IH; apply Hlift|].
    destruct (snapshot i scope) as [d|] eqn:Es; [|by intros ?%elem_of_nil].
    destruct (writable i); [|by intros ?%elem_of_nil].
    intros [->|?%IH]%elem_of_cons; [|by apply Hlift]. by split; [|exists i].
  - destruct (writable i); [|by intros ?%elem_of_nil].
    intros [->|?%IH]%elem_of_cons; [done|by apply Hlift].
  - by intros ?%elem_of_nil.
Qed.

(** C35: the event bus under concurrency.  No interleaving of subscriptions,
    cancellations, publications, receptions and a shutdown of the bus panics:
    nothing is sent on a closed channel and no channel is closed twice.  No
    subscriber ever has more than 64 events pending, and it only gets
    published events.  A publication in progress has only current
    subscribers ahead of it; its step to one of them appends the event when
    there is room and drops it when there is none, leaves every other channel
    alone, and never comes back to the same subscriber. *)
Theorem bus_safe (ops : list bus_op) :
  ∃ b, bus_run ops NewEventBus = Some b ∧
    (∀ ch c, bus_chans b !! ch = Some c →
       (length (ch_sent c) - ch_taken c ≤ 64)%nat ∧ Forall (published ops) (ch_sent c) ∧
       (ch ∈ subscribers b → ch_closed c = false)) ∧
    (∀ i p ch, publishing b !! i = Some p → ch ∈ pb_ahead p →
       ch ∈ subscribers b ∧ ∃ c b', bus_chans b !! ch = Some c ∧ publish_send i ch b = Some b' ∧
         bus_chans b' !! ch = Some {| ch_sent := if has_room c then ch_sent c ++ [pb_event p]
                                                 else ch_sent c;
                                      ch_taken := ch_taken c; ch_closed := false |} ∧
         (∀ ch', ch' ≠ ch → bus_chans b' !! ch' = bus_chans b !! ch') ∧
         publishing b' = if bool_decide (pb_ahead p ∖ {[ ch ]} = ∅) then delete i (publishing b)
                         else <[i := {| pb_event := pb_event p; pb_ahead := pb_ahead p ∖ {[ ch ]} |}]>
                                (publishing b)).
Proof.
  destruct (bus_reachable_ok ops) as (b & E & Hok). exists b. split_and!; [done| |].
  - intros ch c Hc. pose proof (Forall_lookup_1 _ _ _ _ (bus_chan_ok _ _ Hok) Hc) as (_ & Hl & Hp).
    split_and!; [done|done|]. intros Hin. destruct (bus_open _ _ Hok _ Hin) as (c' & ? & ?). by simplify_eq.
  - intros i p ch Hp Hin.
    destruct (bus_ahead _ _ Hok p) as [Hsub Hpub]; [by eapply list_elem_of_lookup_2|].
    split; [set_solver|]. destruct (bus_open _ _ Hok ch) as (c & Hc & Ho); [set_solver|].
    unfold publish_send. rewrite Hp, bool_decide_eq_true_2 by done. cbv zeta.
    assert (Es : try_send (pb_event p) c = Some {|
      ch_sent := if has_room c then ch_sent c ++ [pb_event p] else ch_sent c;
      ch_taken := ch_taken c; ch_closed := false |}).
    { unfold try_send. rewrite Ho. destruct (has_room c); [done|]. by destruct c; cbn in *; subst. }
    exists c. eexists. split; [done|]. split; [by eapply update_echan_ok|]. cbn. split_and!; [| |done].
    + rewrite list_lookup_insert_eq by by eapply lookup_lt_Some. done.
    + intros ch' Hne. by rewrite list_lookup_insert_ne.
Qed.

(** C36: no stream shows another user's events.  Let a subscriber's channel
    come from any run of the bus, and let a stream of the user [u] consume
    events of that channel, in any order and mixed with ticks and write
    failures.  Every event it writes was published for [u] by
    [PublishScopedJSON], every snapshot is one of [u]'s scope, and activity
    events are redacted when the reader is no administrator.  A global
    administrator stream shows activity and user list events only, and no
    snapshot. *)
Theorem sse_isolation (ops : list bus_op) (b : EventBus) (ch : nat) (c : echan)
    (redact : string → result string) (snapshot : nat → sseReadScope → result string)
    (writable : nat → bool) (owner : option string) (isAdmin : option bool)
    (scope : sseReadScope) (inputs : list sse_input) (f : sse_frame) :
  bus_run ops NewEventBus = Some b → bus_chans b !! ch = Some c →
  (∀ e, GotEvent e ∈ inputs → e ∈ ch_sent c) →
  sseReadScopeForRequest owner isAdmin = Ok scope → owner ≠ Some ""%string →
  f ∈ sse_loop redact snapshot writable scope (bool_decide (isAdmin = Some false)) 0 inputs →
  match owner with
  | Some u =>
      match f with
      | FrameEvent t d => ∃ data, BusPublishScoped t u (Ok data) ∈ ops ∧
          (if bool_decide (isAdmin = Some false) && (t =?s "activity_event")
           then redact data = Ok d else data = d)
      | FrameSnapshot d => ∃ j, snapshot j {| sc_userID := u; sc_global := false |} = Ok d
      | FrameKeepalive => True
      end
  | None =>
      isAdmin ≠ Some false ∧
      match f with
      | FrameEvent t d => t = "activity_event"%string ∨ t = "user_list_changed"%string
      | FrameSnapshot d => False
      | FrameKeepalive => True
      end
  end.
Proof.
  intros Hrun Hc Hin Hscope Hne Hf. apply sse_loop_frames in Hf.
  destruct (bus_reachable_ok ops) as (b' & E & Hok). rewrite Hrun in E. injection E as <-.
  pose proof (Forall_lookup_1 _ _ _ _ (bus_chan_ok _ _ Hok) Hc) as (_ & _ & Hpub).
  destruct owner as [u|]; cbn in Hscope.
  - injection Hscope as <-. destruct f as [d|t d|]; [by destruct Hf| |done].
    destruct Hf as (e & He & Hall & -> & Hd). cbn in Hall. apply eqb_str_true in Hall.
    destruct (proj1 (Forall_forall _ _) Hpub e (Hin e He)) as [(? & _ & _ & Hs)|(data & Hp & Hdata & _)].
    { rewrite Hall in Hs. exfalso. apply Hne. by rewrite Hs. }
    exists data. rewrite Hall in Hp. split; [done|]. subst data.
    unfold event_data in Hd. destruct (_ && _); [done|by injection Hd].
  - destruct isAdmin as [[]|]; cbn in Hscope; try discriminate Hscope; injection Hscope as <-; (split; [done|]);
      destruct f as [d|t d|]; try done; try (by destruct Hf);
      destruct Hf as (e & He & Hall & -> & Hd); cbn in Hall;
      apply orb_true_iff in Hall as [?%eqb_str_true|?%eqb_str_true]; auto.
Qed.

(** Two users' streams on one bus; the tunnel change of [u2] and the global
    event do not reach [u1]'s. *)
Module StreamSample.
Definition ops : list bus_op :=
  [BusSubscribe; BusPublishScoped "tunnel_changed" "u1" (Ok "a"%string); BusSend 0 0;
   BusPublishScoped "tunnel_changed" "u2" (Ok "b"%string); BusSend 0 0;
   BusPublish "user_list_changed" (Ok "c"%string); BusSend 0 0;
   BusPublishScoped "activity_event" "u1" (Ok "d"%string); BusSend 0 0].
Definition sent : list SSEEvent :=
  [{| ev_Type := "tunnel_changed"; ev_Data := "a"; ev_ScopeUserID := "u1" |};
   {| ev_Type := "tunnel_changed"; ev_Data := "b"; ev_ScopeUserID := "u2" |};
   {| ev_Type := "user_list_changed"; ev_Data := "c"; ev_ScopeUserID := "" |};
   {| ev_Type := "activity_event"; ev_Data := "d"; ev_ScopeUserID := "u1" |}].
Definition bus : EventBus := {|
  bus_chans := [{| ch_sent := sent; ch_taken := 0; ch_closed := false |}];
  subscribers := {[ 0%nat ]} ∪ ∅; publishing := []; unsubscribing := [] |}.
Definition redact (d : string) : result string := Ok (d +:+ "-redacted")%string.
End StreamSample.

Lemma sse_isolation_witness :
  FrameEvent "activity_event" "d-redacted" ∈
    sse_loop StreamSample.redact (λ _ _, Ok "snapshot"%string) (λ _, true)
      {| sc_userID := "u1"; sc_global := false |} true 0 (GotEvent <$> StreamSample.sent) ∧
  ∃ data, BusPublishScoped "activity_event" "u1" (Ok data) ∈ StreamSample.ops ∧
    StreamSample.redact data = Ok "d-redacted"%string.
Proof.
  assert (Hf : FrameEvent "activity_event" "d-redacted" ∈
    sse_loop StreamSample.redact (λ _ _, Ok "snapshot"%string) (λ _, true)
      {| sc_userID := "u1"; sc_global := false |} true 0 (GotEvent <$> StreamSample.sent)).
  { apply (list_elem_of_lookup_2 _ 1). vm_compute. reflexivity. }
  split; [exact Hf|].
  apply (sse_isolation StreamSample.ops StreamSample.bus 0
    {| ch_sent := StreamSample.sent; ch_taken := 0; ch_closed := false |}
    StreamSample.redact (λ _ _, Ok "snapshot"%string) (λ _, true) (Some "u1"%string) (Some false)
    {| sc_userID := "u1"; sc_global := false |} (GotEvent <$> StreamSample.sent)
    (FrameEvent "activity_event" "d-redacted")).
  - vm_compute. reflexivity.
  - reflexivity.
  - intros e (e' & [= ->] & He)%list_elem_of_fmap. exact He.
  - reflexivity.
  - discriminate.
  - exact Hf.
Defined.
