(* ===== verification/Records.v ===== *)
(** Functional update of record fields, for records with many fields.

    A record declares how it is rebuilt from its projections ([Rebuild]); the
    update of a field is then that term with the projection post-composed. *)
From stdpp Require Import base tactics.

Class Rebuild (R : Type) := rebuild : R → R.

(** [field_update p f r] replaces the field [p r] by [f (p r)]. *)
Class FieldUpdate {R T : Type} (p : R → T) := field_update : (T → T) → R → R.
Arguments field_update {R T} p {_} f r : simpl nomatch.

(** In [λ r, Build (p1 r) ... (pn r)], abstracts one of the [pi]. *)
Ltac solve_field_update :=
  match goal with
  | |- @FieldUpdate ?R ?T ?p =>
      let whole := eval cbv beta delta [rebuild] in (@rebuild R _) in
      let whole := lazymatch whole with
                   | (fun r => _) => whole
                   | ?i => eval unfold i in i
                   end in
      lazymatch eval pattern p in whole with
      | ?g _ =>
          let body := eval cbv beta in (λ f : T → T, g (λ r, f (p r))) in
          exact body
      end
  end.
#[export] Hint Extern 0 (FieldUpdate _) => solve_field_update : typeclass_instances.

Notation "r <| p := v |>" := (field_update p (λ _, v) r)
  (at level 1, left associativity, p at level 9, format "r  <| p  :=  v |>").

Module RecordExample.
Record point := { px : nat; py : nat; pz : bool }.
#[export] Instance point_rebuild : Rebuild point :=
  λ r, {| px := px r; py := py r; pz := pz r |}.
Example update_ex (r : point) : py (r <| px := 1 |> <| py := 2 |>) = 2 ∧ pz (r <| px := 1 |>) = pz r.
Proof. done. Qed.
End RecordExample.
