(* ===== verification/HTTPDomains.v ===== *)
(** Domains of HTTP tunnels (internal/server/http_domain.go and
    [validateDomain] of http_tunnel.go): which patterns are accepted, which
    host names they match, and when two of them overlap.

    The Unicode part of [strings.ToLower] is an argument. *)
From Stdlib Require Import ZArith Lia Ascii String Strings.Byte.
From stdpp Require Import base tactics numbers list gmap strings.
From S2P Require Import Prelude GoStrings GoIO GoNet.

Definition maxHTTPDomainWildcards : nat := 3.

(** [ch >= 'a' && ch <= 'z' || ch >= '0' && ch <= '9' || ch == '-'] *)
Definition label_byte (c : ascii) : bool :=
  let n := N_of_ascii c in
  ((97 <=? n)%N && (n <=? 122)%N) || is_digit c || Ascii.eqb c "-".

Fixpoint check_label_bytes (label : string) : result unit :=
  match label with
  | EmptyString => Ok tt
  | String ch rest =>
      if label_byte ch then check_label_bytes rest else
      if negb (is_ascii_byte ch)
      then Err (Errorf "domain contains non-ASCII characters; please use Punycode format (xn-- prefix)" [])
      else Err (Errorf "domain contains invalid characters" [])
  end.

Definition check_label (label : string) : result unit :=
  if label =?s "" then Err (Errorf "domain label cannot be empty" []) else
  if 63 <? strlen label
  then Err (Errorf "domain label length cannot exceed 63 characters" []) else
  if has_prefix label "-" || has_suffix label "-"
  then Err (Errorf "domain label cannot start or end with a hyphen" []) else
  check_label_bytes label.

Fixpoint check_labels (labels : list string) : result unit :=
  match labels with
  | [] => Ok tt
  | label :: rest => _ ← check_label label; check_labels rest
  end.

Definition tab_cr_lf : string := bytes_str [9; 13; 10]%N.

Section Domains.
Context (unicode_lower : string → string).

Definition validateDomain (domain : string) : result unit :=
  let raw := trim_space domain in
  if raw =?s "" then Err (Errorf "domain cannot be empty" []) else
  if negb (raw =?s domain) || contains_any domain (" " +:+ tab_cr_lf)
  then Err (Errorf "domain cannot contain whitespace" []) else
  if contains domain "*" then Err (Errorf "domain does not support wildcards" []) else
  if contains domain "://" then Err (Errorf "domain cannot contain a scheme" []) else
  if contains_any domain "/?#"
  then Err (Errorf "domain cannot contain a path or query string" []) else
  if contains domain ":"
  then Err (Errorf "domain cannot contain a port or IPv6 literal" []) else
  let normalized := trim_suffix (to_lower unicode_lower raw) "." in
  if 253 <? strlen normalized
  then Err (Errorf "domain length cannot exceed 253 characters" []) else
  if bool_decide (is_Some (ParseIP normalized))
  then Err (Errorf "domain cannot be an IP address" []) else
  let labels := split_byte "." normalized in
  if (length labels <? 2)%nat
  then Err (Errorf "domain must contain at least two labels" []) else
  check_labels labels.

(** The number of leading [*.] and what follows them. *)
Fixpoint strip_stars (suffix : string) : nat * string :=
  match suffix with
  | String "*" (String "." rest) => let '(count, suffix) := strip_stars rest in (S count, suffix)
  | _ => (O, suffix)
  end.

Definition validateHTTPDomain (domain : string) : result unit :=
  if negb (domain =?s trim_space domain)
  then Err (Errorf "domain cannot contain whitespace" []) else
  if 253 <? strlen (trim_suffix domain ".")
  then Err (Errorf "domain length cannot exceed 253 characters" []) else
  let '(count, suffix) := strip_stars domain in
  if (maxHTTPDomainWildcards <? count)%nat
  then Err (Errorf "domain supports at most %d leading wildcard labels"
              [AInt (Z.of_nat maxHTTPDomainWildcards)]) else
  if contains suffix "*"
  then Err (Errorf "wildcards must be consecutive complete labels at the start of the domain" []) else
  validateDomain suffix.

Definition canonicalHTTPDomain (domain : string) : string :=
  trim_suffix (to_lower unicode_lower domain) ".".

(** [strconv.Atoi] fails on the empty string and on more than 63 bits, which
    the upper bound refuses as well. *)
Definition valid_port (port : string) : bool :=
  all_bytes is_digit port && negb (port =?s "")
  && (1 <=? decimal_value port) && (decimal_value port <=? 65535).

(** The part of [canonicalHTTPRouteHost] after the port. *)
Definition canonical_host_name (host : string) : string :=
  if has_suffix host ".." then "" else
  let host := canonicalHTTPDomain (trim_bytes host "[]") in
  if bool_decide (is_Some (ParseIP host)) || (host =?s "localhost") then host else
  if is_ok (validateDomain host) then host else "".

Definition canonicalHTTPRouteHost (host : string) : string :=
  if (host =?s "") || contains_any host ("* /\?#@" +:+ tab_cr_lf) then "" else
  match SplitHostPort host with
  | Some (name, port) =>
      if has_prefix host "[" && bool_decide (ParseIP name = None) then "" else
      if valid_port port then canonical_host_name name else ""
  | None =>
      if contains_any host ":[]" then
        if contains_any host "[]" && (negb (has_prefix host "[") || negb (has_suffix host "]"))
        then "" else
        if bool_decide (ParseIP (trim_prefix (trim_suffix host "]") "[") = None) then ""
        else canonical_host_name host
      else canonical_host_name host
  end.

Definition httpDomainCandidates (host : string) : list string :=
  let host := canonicalHTTPRouteHost host in
  if host =?s "" then [] else
  if bool_decide (is_Some (ParseIP host)) then [host] else
  let labels := split_byte "." host in
  host :: ((λ count, strings_repeat "*." count +:+ strings_join (drop count labels) ".")
             <$> seq 1 (maxHTTPDomainWildcards `min` (length labels - 2))).

Definition httpDomainMatches (pattern host : string) : bool :=
  let pattern := canonicalHTTPDomain pattern in
  existsb (λ candidate, candidate =?s pattern) (httpDomainCandidates host).

Definition labels_compatible (a b : string) : bool :=
  negb (negb (a =?s "*") && negb (b =?s "*") && negb (a =?s b)).

Definition httpDomainsOverlap (left right : string) : bool :=
  let a := split_byte "." (canonicalHTTPDomain left) in
  let b := split_byte "." (canonicalHTTPDomain right) in
  if negb (length a =? length b)%nat then false
  else forallb (λ ab, labels_compatible ab.1 ab.2) (zip a b).

Definition httpDomainsConflict (left leftOwner right rightOwner : string) : bool :=
  if negb (httpDomainsOverlap left right) then false
  else (canonicalHTTPDomain left =?s canonicalHTTPDomain right)
       || (leftOwner =?s "") || (rightOwner =?s "") || negb (leftOwner =?s rightOwner).
End Domains.

Module DomainSamples.
Example valid :
  forallb (λ d, is_ok (validateHTTPDomain id d))
    ["APP.X.COM."; "*.x.com"; "*.*.x.com"; "*.*.*.x.com"; "*.a.b.com"]%string = true.
Proof. vm_compute. reflexivity. Qed.
Example invalid :
  existsb (λ d, is_ok (validateHTTPDomain id d))
    ["*.*.*.*.x.com"; "app.*.x.com"; "*.app.*.x.com"; "foo*.x.com"; "*.com"; "*.x.com:80";
     "*.x.com/path"; "*.x..com"]%string = false.
Proof. vm_compute. reflexivity. Qed.
Example candidates :
  httpDomainCandidates id "SHOP.DEV.EU.X.COM.:8443" =
    ["shop.dev.eu.x.com"; "*.dev.eu.x.com"; "*.*.eu.x.com"; "*.*.*.x.com"]%string.
Proof. vm_compute. reflexivity. Qed.
Example loopback :
  httpDomainCandidates id "[::1]:80" = ["::1"]%string ∧
  httpDomainCandidates id "localhost" = ["localhost"]%string ∧
  httpDomainCandidates id "a.b@c.d" = [] ∧ httpDomainCandidates id "x.com:99999" = [].
Proof. vm_compute. done. Qed.
Example overlap :
  httpDomainsOverlap id "*.x.com" "a.X.com." = true ∧
  httpDomainsOverlap id "*.x.com" "*.*.x.com" = false ∧
  httpDomainsOverlap id "*.*.x.com" "*.b.x.com" = true.
Proof. vm_compute. done. Qed.
End DomainSamples.

(** ** Facts *)

(** *** Hosts and labels *)

Definition host_byte (c : ascii) : bool := label_byte c || Ascii.eqb c ".".

Lemma host_byte_plain c : host_byte c = true → plain_byte c = true.
Proof. by destruct c as [[] [] [] [] [] [] [] []]. Qed.
Lemma host_byte_lower c : host_byte c = true → Ascii.eqb (lower_byte c) c = true.
Proof. by destruct c as [[] [] [] [] [] [] [] []]. Qed.
Lemma host_byte_ascii c : host_byte c = true → is_ascii_byte c = true.
Proof. by destruct c as [[] [] [] [] [] [] [] []]. Qed.
Lemma host_byte_not_in c chars :
  all_bytes (λ d, negb (host_byte d)) chars = true → host_byte c = true →
  negb (has_byte c chars) = true.
Proof.
  intros Hch Hc. apply negb_true_iff, has_byte_false. eapply all_bytes_impl; [|exact Hch].
  intros d Hd. apply negb_true_iff in Hd. apply negb_true_iff, Ascii.eqb_neq. congruence.
Qed.
Lemma label_byte_host c : label_byte c = true → host_byte c = true.
Proof. unfold host_byte. by intros ->. Qed.

Definition label_good (w : string) : Prop := check_label w = Ok tt.

Lemma check_label_bytes_ok w : check_label_bytes w = Ok tt ↔ all_bytes label_byte w = true.
Proof.
  induction w as [|c w IH]; [done|]. cbn. destruct (label_byte c); [done|].
  destruct (negb _); by split.
Qed.

Lemma label_good_spec w :
  label_good w ↔ w ≠ ""%string ∧ strlen w ≤ 63 ∧ has_prefix w "-" = false ∧
                 has_suffix w "-" = false ∧ all_bytes label_byte w = true.
Proof.
  unfold label_good, check_label. rewrite <- check_label_bytes_ok.
  destruct (String.eqb_spec w ""); [naive_solver|].
  destruct (Z.ltb_spec 63 (strlen w)); [split; [done|intros (? & ? & _); lia]|].
  destruct (has_prefix w "-"), (has_suffix w "-"); cbn; naive_solver.
Qed.

Lemma check_labels_ok ws : check_labels ws = Ok tt ↔ Forall label_good ws.
Proof.
  induction ws as [|w ws IH]; cbn; [by split; [constructor|]|].
  rewrite Forall_cons, <- IH. unfold label_good at 1.
  destruct (check_label w) as [[]|]; cbn; naive_solver.
Qed.

Lemma label_good_no_dot w : label_good w → has_byte "." w = false.
Proof. intros (_ & _ & _ & _ & H)%label_good_spec. by eapply has_byte_all_bytes. Qed.

Lemma label_good_not_star w : label_good w → w ≠ "*"%string.
Proof. by intros (_ & _ & _ & _ & H)%label_good_spec ->. Qed.

Lemma labels_host_bytes ws :
  Forall label_good ws → all_bytes host_byte (strings_join ws ".") = true.
Proof.
  intros Hws. apply join_all_bytes; [done|]. eapply Forall_impl; [exact Hws|].
  intros w (_ & _ & _ & _ & H)%label_good_spec. eapply all_bytes_impl; [|exact H].
  apply label_byte_host.
Qed.

Lemma split_byte_app c s t :
  split_byte c (s +:+ String c t) = split_byte c s ++ split_byte c t.
Proof.
  induction s as [|d s IH].
  - change ("" +:+ String c t) with (String c t). cbn [split_byte]. by rewrite Ascii.eqb_refl.
  - rewrite append_cons. cbn [split_byte]. rewrite IH.
    destruct (Ascii.eqb c d); [done|]. by destruct (split_byte_cons c s) as (w & ws & ->).
Qed.

(** A host name of good labels. *)
Record host_name (ws : list string) : Prop := {
  hn_two : (2 ≤ length ws)%nat;
  hn_good : Forall label_good ws;
  hn_short : strlen (strings_join ws ".") ≤ 253;
  hn_not_ip : ParseIP (strings_join ws ".") = None;
}.

Lemma host_name_split ws :
  Forall label_good ws → ws ≠ [] → split_byte "." (strings_join ws ".") = ws.
Proof.
  intros Hws Hne. apply split_join; [done|]. eapply Forall_impl; [exact Hws|].
  apply label_good_no_dot.
Qed.

Lemma join_last_not_dot ws :
  Forall label_good ws →
  last (String.list_ascii_of_string (strings_join ws ".")) ≠ Some "."%char.
Proof.
  intros Hws Hl. apply last_Some in Hl as [l Hl].
  destruct (decide (ws = [])) as [->|Hne]; [by destruct l|].
  assert (E : strings_join ws "." = String.string_of_list_ascii l +:+ String "." "").
  { rewrite <- (String.string_of_list_ascii_of_string (strings_join ws ".")), Hl.
    by rewrite string_of_list_app. }
  pose proof (host_name_split ws Hws Hne) as Hs. rewrite E in Hs.
  assert (Hin : ""%string ∈ ws).
  { rewrite <- Hs, split_byte_app. apply elem_of_app. by right; left. }
  eapply Forall_forall in Hin; [|exact Hws]. by apply label_good_spec in Hin as [? _].
Qed.

Section DomainFacts.
Context (unicode_lower : string → string).

Lemma host_bytes_contains s sub c rest :
  all_bytes host_byte s = true → sub = String c rest → host_byte c = false → contains s sub = false.
Proof.
  intros Hs -> Hc. induction s as [|d s IH]; [done|]. cbn [all_bytes] in Hs.
  apply andb_true_iff in Hs as [Hd Hs]. cbn [contains]. rewrite IH by done.
  rewrite orb_false_r. unfold String.prefix. destruct (ascii_dec c d) as [->|]; [congruence|done].
Qed.

Lemma host_bytes_contains_any s chars :
  all_bytes host_byte s = true → all_bytes (λ d, negb (host_byte d)) chars = true →
  contains_any s chars = false.
Proof.
  intros Hs Hch. apply contains_any_false. eapply all_bytes_impl; [|exact Hs].
  intros c Hc. by apply host_byte_not_in.
Qed.

Lemma host_bytes_lower s : all_bytes host_byte s = true → to_lower unicode_lower s = s.
Proof.
  intros Hs. unfold to_lower. rewrite all_bytes_ascii.
  rewrite (all_bytes_impl _ _ _ host_byte_ascii Hs). apply lower_ascii_fixed.
  eapply all_bytes_impl; [apply host_byte_lower|done].
Qed.

Lemma host_name_nonempty ws : host_name ws → ws ≠ [].
Proof. intros [? _ _ _] ->. cbn in *. lia. Qed.

Lemma host_join_nonempty ws : host_name ws → strings_join ws "." ≠ ""%string.
Proof.
  intros Hh E. pose proof (host_name_split ws (hn_good _ Hh) (host_name_nonempty _ Hh)) as Hs.
  rewrite E in Hs. destruct Hh as [Hl _ _ _]. rewrite <- Hs in Hl. cbn in Hl. lia.
Qed.

Lemma host_name_valid ws : host_name ws → validateDomain unicode_lower (strings_join ws ".") = Ok tt.
Proof.
  intros Hh. pose proof (host_join_nonempty _ Hh) as Hne.
  pose proof (host_name_nonempty _ Hh) as Hne'. destruct Hh as [Hl Hg Hs Hip].
  pose proof (labels_host_bytes _ Hg) as Hb. unfold validateDomain.
  rewrite trim_space_plain by (eapply all_bytes_impl; [apply host_byte_plain|done]).
  rewrite (proj2 (eqb_str_false _ _) Hne), eqb_str_refl.
  rewrite host_bytes_contains_any by done.
  rewrite (host_bytes_contains _ "*" "*" "") by done.
  rewrite (host_bytes_contains _ "://" ":" "//") by done.
  rewrite host_bytes_contains_any by done.
  rewrite (host_bytes_contains _ ":" ":" "") by done.
  rewrite host_bytes_lower, trim_suffix_none by (done || by apply join_last_not_dot).
  rewrite (proj2 (Z.ltb_ge _ _) Hs), Hip, host_name_split by done. cbn [negb orb].
  rewrite bool_decide_eq_false_2 by by intros [].
  rewrite (proj2 (Nat.ltb_ge _ _) Hl). by apply check_labels_ok.
Qed.

(** A host name is its own canonical routing host. *)
Lemma host_name_route ws :
  host_name ws → canonicalHTTPRouteHost unicode_lower (strings_join ws ".") = strings_join ws ".".
Proof.
  intros Hh. pose proof (host_join_nonempty _ Hh) as Hne. pose proof (host_name_valid _ Hh) as Hv.
  pose proof (hn_not_ip _ Hh) as Hip. pose proof (labels_host_bytes _ (hn_good _ Hh)) as Hb.
  pose proof (join_last_not_dot _ (hn_good _ Hh)) as Hd.
  set (s := strings_join ws ".") in *. unfold canonicalHTTPRouteHost.
  rewrite (proj2 (eqb_str_false _ _) Hne), host_bytes_contains_any by done. cbn [orb].
  assert (E : SplitHostPort s = None).
  { unfold SplitHostPort. rewrite (proj2 (cut_last_byte_None ":" s)); [done|].
    by eapply has_byte_all_bytes. }
  rewrite E, host_bytes_contains_any by done. unfold canonical_host_name.
  assert (Hdd : has_suffix s ".." = false).
  { destruct (has_suffix s "..") eqn:Ed; [exfalso|done]. apply Hd.
    unfold has_suffix in Ed. change (reverse_string "..") with ".."%string in Ed.
    destruct (reverse_string s) as [|c r] eqn:Er; [done|]. cbn [String.prefix] in Ed.
    destruct (ascii_dec "." c) as [<-|]; [|discriminate Ed].
    rewrite <- (reverse_involutive s), Er, reverse_cons, list_ascii_app. cbn.
    by rewrite last_snoc. }
  rewrite Hdd, trim_bytes_none.
  2: { eapply all_bytes_impl; [|exact Hb]. intros c Hc. by apply host_byte_not_in. }
  unfold canonicalHTTPDomain. rewrite host_bytes_lower, trim_suffix_none by done.
  rewrite bool_decide_eq_false_2 by (rewrite Hip; by intros []). cbn [orb].
  destruct (s =?s "localhost"); [done|]. by rewrite Hv.
Qed.

(** *** Candidates *)

Lemma split_stars k s : split_byte "." (strings_repeat "*." k +:+ s) = replicate k "*"%string ++ split_byte "." s.
Proof.
  induction k as [|k IH]; [done|]. cbn [strings_repeat]. rewrite <- string_app_assoc.
  change ("*." +:+ (strings_repeat "*." k +:+ s))
    with ("*" +:+ String "." (strings_repeat "*." k +:+ s)).
  rewrite split_byte_app, IH. done.
Qed.

Lemma split_inj c s t : split_byte c s = split_byte c t → s = t.
Proof. intros E. by rewrite <- (join_split c s), <- (join_split c t), E. Qed.

Definition route_labels (host : string) : list string :=
  split_byte "." (canonicalHTTPRouteHost unicode_lower host).

(** The pattern that replaces the first [k] labels by stars. *)
Definition starred (k : nat) (ws : list string) : list string :=
  replicate k "*"%string ++ drop k ws.

Lemma split_candidate k s :
  (k + 2 ≤ length (split_byte "." s))%nat →
  split_byte "." (strings_repeat "*." k +:+ strings_join (drop k (split_byte "." s)) ".")
  = starred k (split_byte "." s).
Proof.
  intros Hk. rewrite split_stars, split_join; [done| |].
  - intros E%(f_equal length). rewrite length_drop in E. cbn in E. lia.
  - apply Forall_drop, split_no_sep.
Qed.

(** The candidates of a host: its name, and its name with up to three leading
    labels replaced by stars, two fixed labels staying. *)
Lemma elem_of_candidates c host :
  c ∈ httpDomainCandidates unicode_lower host ↔
  canonicalHTTPRouteHost unicode_lower host ≠ ""%string ∧
  ∃ k, split_byte "." c = starred k (route_labels host) ∧
    (k = 0%nat ∨ ParseIP (canonicalHTTPRouteHost unicode_lower host) = None ∧
                 (k ≤ 3)%nat ∧ (k + 2 ≤ length (route_labels host))%nat).
Proof.
  unfold httpDomainCandidates, route_labels. cbv zeta.
  destruct (String.eqb_spec (canonicalHTTPRouteHost unicode_lower host) "") as [|Hne].
  { rewrite elem_of_nil. naive_solver. }
  case_bool_decide as Hip.
  { rewrite list_elem_of_singleton. split.
    - intros ->. split; [done|]. exists 0%nat. split; [done|by left].
    - intros (_ & k & E & [->|[Hn _]]); [by apply (split_inj ".")|]. rewrite Hn in Hip.
      by destruct Hip. }
  rewrite elem_of_cons, list_elem_of_fmap. split.
  - intros [->|(k & -> & Hk%elem_of_seq)]; split; try done.
    + exists 0%nat. split; [done|by left].
    + unfold maxHTTPDomainWildcards in Hk. exists k. rewrite split_candidate by lia.
      split; [done|]. right. split; [by apply eq_None_not_Some|lia].
  - intros (_ & k & E & [->|(_ & Hk & Hl)]); [left; by apply (split_inj ".")|].
    destruct (decide (k = 0%nat)) as [->|]; [left; by apply (split_inj ".")|].
    right. exists k. split; [apply (split_inj "."); by rewrite split_candidate|].
    apply elem_of_seq. unfold maxHTTPDomainWildcards. lia.
Qed.

Lemma matches_spec p host :
  httpDomainMatches unicode_lower p host = true ↔
  canonicalHTTPDomain unicode_lower p ∈ httpDomainCandidates unicode_lower host.
Proof.
  unfold httpDomainMatches. rewrite existsb_exists. split.
  - intros (c & Hc%list_elem_of_In & ->%eqb_str_true). done.
  - intros Hc. eexists. split; [by apply list_elem_of_In|apply eqb_str_refl].
Qed.
End DomainFacts.

(** *** Overlap *)

Definition labels_overlap (a b : list string) : Prop :=
  length a = length b ∧
  ∀ i x y, a !! i = Some x → b !! i = Some y → x = "*"%string ∨ y = "*"%string ∨ x = y.

Lemma labels_compatible_spec x y :
  labels_compatible x y = true ↔ x = "*"%string ∨ y = "*"%string ∨ x = y.
Proof.
  unfold labels_compatible. rewrite negb_true_iff, !andb_false_iff, !negb_false_iff, !eqb_str_true.
  tauto.
Qed.

Lemma overlap_spec lower l r :
  httpDomainsOverlap lower l r = true ↔
  labels_overlap (split_byte "." (canonicalHTTPDomain lower l))
                 (split_byte "." (canonicalHTTPDomain lower r)).
Proof.
  unfold httpDomainsOverlap, labels_overlap. cbv zeta.
  generalize (split_byte "." (canonicalHTTPDomain lower l)) as a.
  generalize (split_byte "." (canonicalHTTPDomain lower r)) as b. intros b a.
  destruct (Nat.eqb_spec (length a) (length b)) as [E|]; cbn [negb]; [|naive_solver].
  rewrite <- Is_true_true, forallb_True, Forall_lookup. split.
  - intros H. split; [done|]. intros i x y Hx Hy. apply labels_compatible_spec.
    apply (Is_true_true_1 _ (H i (x, y) ltac:(by apply lookup_zip_Some))).
  - intros [_ H] i [x y] [Hx Hy]%lookup_zip_Some. apply Is_true_true_2, labels_compatible_spec. by eapply H.
Qed.

Lemma lookup_starred k ws i x :
  (k ≤ length ws)%nat → starred k ws !! i = Some x →
  ((i < k)%nat ∧ x = "*"%string) ∨ ((k ≤ i)%nat ∧ ws !! i = Some x).
Proof.
  intros Hk. unfold starred. rewrite lookup_app_Some, length_replicate, lookup_replicate, lookup_drop.
  intros [[<- ?]|[? H]]; [by left|]. right. split; [done|]. by replace i with (k + (i - k))%nat by lia.
Qed.

Lemma length_starred k ws : (k ≤ length ws)%nat → length (starred k ws) = length ws.
Proof. intros Hk. unfold starred. rewrite length_app, length_replicate, length_drop. lia. Qed.

Lemma starred_overlap j k ws :
  (j ≤ length ws)%nat → (k ≤ length ws)%nat → labels_overlap (starred j ws) (starred k ws).
Proof.
  intros Hj Hk. split; [by rewrite !length_starred|]. intros i x y Hx Hy.
  apply lookup_starred in Hx as [[? ->]|[? Hx]]; [by left| |done].
  apply lookup_starred in Hy as [[? ->]|[? Hy]]; [by right; left| |done].
  right; right. congruence.
Qed.

(** Patterns that match one host overlap. *)
Lemma matches_overlap lower l r host :
  httpDomainMatches lower l host = true → httpDomainMatches lower r host = true →
  httpDomainsOverlap lower l r = true.
Proof.
  intros (_ & j & Ej & Hj)%matches_spec%elem_of_candidates
         (_ & k & Ek & Hk)%matches_spec%elem_of_candidates.
  apply overlap_spec. rewrite Ej, Ek. apply starred_overlap.
  - destruct Hj as [->|]; lia.
  - destruct Hk as [->|]; lia.
Qed.

(** The shape of an accepted ASCII pattern. *)
Record pattern_shape (c : string) (k : nat) (fixed : list string) : Prop := {
  ps_split : split_byte "." c = replicate k "*"%string ++ fixed;
  ps_stars : (k ≤ 3)%nat;
  ps_two : (2 ≤ length fixed)%nat;
  ps_good : Forall label_good fixed;
  ps_short : strlen c ≤ 253;
  ps_not_ip : k = 0%nat → ParseIP c = None;
}.

Lemma strip_stars_spec s n rest : strip_stars s = (n, rest) → s = strings_repeat "*." n +:+ rest.
Proof.
  revert s n. refine (well_founded_induction_type (well_founded_ltof _ String.length) _ _).
  intros s IH n.
  assert (Hbase : (O, s) = (n, rest) → s = strings_repeat "*." n +:+ rest) by by intros [= <- <-].
  destruct s as [|c [|d s]]; [done|cbn; by destruct c as [[] [] [] [] [] [] [] []]|].
  destruct (decide (c = "*"%char ∧ d = "."%char)) as [[-> ->]|Hne].
  - cbn [strip_stars]. destruct (strip_stars s) as [m t] eqn:E. intros [= <- <-].
    rewrite (IH s ltac:(unfold ltof; cbn; lia) m E) at 1. cbn [strings_repeat].
    by rewrite <- string_app_assoc.
  - intros E. apply Hbase. rewrite <- E. clear -Hne. cbn [strip_stars].
    destruct (ascii_dec c "*") as [->|], (ascii_dec d ".") as [->|]; try tauto.
    all: repeat match goal with |- context [match ?x with Ascii _ _ _ _ _ _ _ _ => _ end] =>
           destruct x as [[] [] [] [] [] [] [] []] end; done.
Qed.

Lemma trim_suffix_append_dot s t :
  t ≠ ""%string → trim_suffix (s +:+ t) "." = s +:+ trim_suffix t ".".
Proof.
  intros Ht. destruct (trim_suffix_cases t ".") as [[E Hl]|E].
  - rewrite <- E. apply trim_suffix_none. rewrite list_ascii_app, last_app.
    destruct (last (String.list_ascii_of_string t)) as [x|] eqn:El; [done|].
    apply last_None in El. destruct t; [done|discriminate El].
  - rewrite E at 1. by rewrite string_app_assoc, trim_suffix_app.
Qed.

Lemma strlen_trim_suffix_le s c : strlen (trim_suffix s (String c "")) ≤ strlen s.
Proof.
  unfold strlen. destruct (trim_suffix_cases s c) as [[E _]|E]; [by rewrite <- E|].
  rewrite E at 2. rewrite string_length_app. lia.
Qed.

Lemma list_ascii_lower s :
  String.list_ascii_of_string (lower_ascii s) = lower_byte <$> String.list_ascii_of_string s.
Proof. induction s as [|c s IH]; [done|]. cbn. by rewrite IH. Qed.

Lemma trim_suffix_lower s : trim_suffix (lower_ascii s) "." = lower_ascii (trim_suffix s ".").
Proof.
  destruct (trim_suffix_cases s ".") as [[E Hl]|E].
  - rewrite <- E. apply trim_suffix_none. rewrite list_ascii_lower, fmap_last.
    destruct (last _) as [c|]; [|done]. cbn. intros [= Hc]. apply Hl. f_equal.
    destruct c as [[] [] [] [] [] [] [] []]; done.
  - rewrite E at 1. rewrite lower_ascii_app. apply trim_suffix_app.
Qed.

Lemma lower_stars n s :
  lower_ascii (strings_repeat "*." n +:+ s) = strings_repeat "*." n +:+ lower_ascii s.
Proof.
  induction n as [|n IH]; [done|]. cbn [strings_repeat].
  rewrite <- !string_app_assoc, lower_ascii_app, IH. done.
Qed.

(** What [validateDomain] accepts, on ASCII. *)
Lemma validateDomain_ok lower d :
  all_ascii d = true → validateDomain lower d = Ok tt →
  let s := trim_suffix (lower_ascii d) "." in
  d ≠ ""%string ∧ strlen s ≤ 253 ∧ ParseIP s = None ∧ (2 ≤ length (split_byte "." s))%nat ∧
  Forall label_good (split_byte "." s).
Proof.
  intros Ha. unfold validateDomain, to_lower.
  destruct (String.eqb_spec (trim_space d) ""); [done|].
  destruct (String.eqb_spec (trim_space d) d) as [E|]; [|done]. cbn [negb orb].
  rewrite E in *. rewrite Ha.
  destruct (contains_any d _); [done|]. destruct (contains d "*"); [done|].
  destruct (contains d "://"); [done|]. destruct (contains_any d _); [done|].
  destruct (contains d ":"); [done|].
  destruct (Z.ltb_spec 253 (strlen (trim_suffix (lower_ascii d) "."))); [done|].
  case_bool_decide as Hip; [done|].
  destruct (Nat.ltb_spec (length (split_byte "." (trim_suffix (lower_ascii d) "."))) 2); [done|].
  intros Hl%check_labels_ok. split_and!; try done. by apply eq_None_not_Some.
Qed.

Lemma validateHTTPDomain_shape lower p :
  all_ascii p = true → validateHTTPDomain lower p = Ok tt →
  ∃ k fixed, pattern_shape (canonicalHTTPDomain lower p) k fixed.
Proof.
  intros Ha. unfold validateHTTPDomain, canonicalHTTPDomain, to_lower. rewrite Ha.
  destruct (negb _); [done|].
  destruct (Z.ltb_spec 253 (strlen (trim_suffix p "."))) as [|Hs]; [done|].
  destruct (strip_stars p) as [n rest] eqn:E. apply strip_stars_spec in E.
  destruct (Nat.ltb_spec maxHTTPDomainWildcards n) as [|Hn]; [done|]. cbv beta iota.
  destruct (contains rest "*"); [done|]. intros Hv.
  assert (Har : all_ascii rest = true).
  { rewrite E, all_bytes_ascii, all_bytes_app in Ha. apply andb_true_iff in Ha as [_ Ha].
    by rewrite all_bytes_ascii. }
  destruct (validateDomain_ok _ _ Har Hv) as (Hne & _ & Hip & Hl & Hg).
  exists n, (split_byte "." (trim_suffix (lower_ascii rest) ".")).
  assert (Hc : trim_suffix (lower_ascii p) "." = strings_repeat "*." n +:+ trim_suffix (lower_ascii rest) ".").
  { rewrite E, lower_stars. apply trim_suffix_append_dot.
    intros Hnil%(f_equal String.length). rewrite lower_ascii_length in Hnil. by destruct rest. }
  split; try done.
  - by rewrite Hc, split_stars.
  - rewrite trim_suffix_lower. unfold strlen. by rewrite lower_ascii_length.
  - intros ->. rewrite Hc. exact Hip.
Qed.

(** *** A host that two overlapping patterns share *)

Lemma join_length_eq sep (a b : list string) :
  String.length <$> a = String.length <$> b →
  String.length (strings_join a sep) = String.length (strings_join b sep).
Proof.
  revert b. induction a as [|x a IH]; intros [|y b]; try done. intros E.
  cbn in E. injection E as Exy E.
  destruct a as [|x' a], b as [|y' b]; try done.
  rewrite (join_cons x), (join_cons y), !string_length_app by done.
  by rewrite (IH (y' :: b)), Exy.
Qed.

Lemma ParseIP_a ws :
  Forall label_good ws → ParseIP (strings_join ("a"%string :: ws) ".") = None.
Proof.
  intros Hws. assert (Hg : Forall label_good ("a"%string :: ws)) by by constructor.
  unfold ParseIP. pose proof (labels_host_bytes _ Hg) as Hb.
  rewrite (has_byte_all_bytes _ "%" _ Hb) by done.
  rewrite (proj2 (cut_byte_None ":" _)) by by eapply has_byte_all_bytes.
  unfold parseIPv4. rewrite host_name_split by done.
  destruct (_ =? 4)%nat; [|done]. done.
Qed.

Lemma label_good_a : label_good "a".
Proof. reflexivity. Qed.

(** The host that takes [a] for every star of the pattern. *)
Lemma pattern_host c k fixed :
  pattern_shape c k fixed → host_name (replicate k "a"%string ++ fixed).
Proof.
  intros [Hs Hk Hl Hg Hc Hip]. split.
  - rewrite length_app. lia.
  - apply Forall_app. split; [|done]. apply Forall_replicate, label_good_a.
  - unfold strlen in *. rewrite (join_length_eq _ _ (split_byte "." c)), join_split; [done|].
    rewrite Hs, !fmap_app, !fmap_replicate. done.
  - destruct k as [|k]; cbn [replicate app].
    + cbn [replicate app] in Hs. rewrite <- Hs, join_split. by apply Hip.
    + apply ParseIP_a. apply Forall_app. split; [|done]. apply Forall_replicate, label_good_a.
Qed.

Lemma replicate_fixed_drop (a b : list string) j k :
  (j ≤ k)%nat → Forall label_good a → Forall label_good b →
  labels_overlap (replicate j "*"%string ++ a) (replicate k "*"%string ++ b) →
  drop k (replicate j "a"%string ++ a) = b.
Proof.
  intros Hjk Ha Hb [Hl Ho]. rewrite !length_app, !length_replicate in Hl.
  rewrite drop_app_ge by by rewrite length_replicate. rewrite length_replicate.
  apply list_eq_same_length with (length b); [done| |].
  { rewrite length_drop. lia. }
  intros i x y Hi Hx Hy. rewrite lookup_drop in Hx.
  destruct (Ho (k + i)%nat x y) as [->|[->|?]]; [| | | |done].
  - rewrite lookup_app_r; rewrite length_replicate; [|lia]. by replace (k + i - j)%nat with (k - j + i)%nat by lia.
  - rewrite lookup_app_r; rewrite length_replicate; [|lia]. by replace (k + i - k)%nat with i by lia.
  - apply (Forall_lookup_1 _ _ _ _ Ha) in Hx. by destruct (label_good_not_star _ Hx).
  - apply (Forall_lookup_1 _ _ _ _ Hb) in Hy. by destruct (label_good_not_star _ Hy).
Qed.

(** A pattern is a candidate of every host that its labels overlap in this way. *)
Lemma shape_candidate lower c k fixed ws :
  pattern_shape c k fixed → host_name ws → drop k ws = fixed →
  (k = 0%nat ∨ (k + 2 ≤ length ws)%nat) → c ∈ httpDomainCandidates lower (strings_join ws ".").
Proof.
  intros Hp Hh Hd Hk. apply elem_of_candidates. unfold route_labels.
  rewrite host_name_route by done. split; [by apply host_join_nonempty|]. exists k.
  rewrite (host_name_split ws (hn_good _ Hh) (host_name_nonempty _ Hh)).
  split; [rewrite (ps_split _ _ _ Hp); unfold starred; by rewrite Hd|].
  destruct Hk as [->|Hk]; [by left|right]. split_and!; [apply Hh|apply Hp|done].
Qed.

Lemma overlap_host lower cl j a cr k b :
  pattern_shape cl j a → pattern_shape cr k b → (j ≤ k)%nat →
  labels_overlap (split_byte "." cl) (split_byte "." cr) →
  ∃ host, cl ∈ httpDomainCandidates lower host ∧ cr ∈ httpDomainCandidates lower host.
Proof.
  intros Hl Hr Hjk Ho. exists (strings_join (replicate j "a"%string ++ a) ".").
  pose proof (pattern_host _ _ _ Hl) as Hh.
  rewrite (ps_split _ _ _ Hl), (ps_split _ _ _ Hr) in Ho.
  assert (Hd : drop k (replicate j "a"%string ++ a) = b).
  { apply replicate_fixed_drop; [done|apply Hl|apply Hr|done]. }
  split.
  - eapply shape_candidate; [done|done|by rewrite drop_app_length'; [|rewrite length_replicate]|].
    right. rewrite length_app, length_replicate. pose proof (ps_two _ _ _ Hl). lia.
  - eapply shape_candidate; [done|done|done|]. right.
    pose proof (ps_two _ _ _ Hr) as H2. rewrite <- Hd, length_drop in H2. lia.
Qed.

Lemma labels_overlap_sym a b : labels_overlap a b → labels_overlap b a.
Proof.
  intros [Hl H]. split; [done|]. intros i x y Hx Hy. destruct (H i y x Hy Hx) as [|[|]]; auto.
Qed.

(** C37: the overlap check is exact.  Two accepted ASCII patterns overlap for
    [httpDomainsOverlap], which compares them label by label, exactly when
    there is a request host that both match: no shared host is missed and no
    pair of patterns without one is refused. *)
Theorem http_domains_overlap_exact (unicode_lower : string → string) (left right : string) :
  all_ascii left = true → all_ascii right = true →
  validateHTTPDomain unicode_lower left = Ok tt → validateHTTPDomain unicode_lower right = Ok tt →
  httpDomainsOverlap unicode_lower left right = true ↔
  ∃ host, httpDomainMatches unicode_lower left host = true ∧
          httpDomainMatches unicode_lower right host = true.
Proof.
  intros Hal Har (j & a & Hl)%validateHTTPDomain_shape (k & b & Hr)%validateHTTPDomain_shape;
    [|done|done]. split.
  - intros Ho%overlap_spec. setoid_rewrite matches_spec.
    destruct (decide (j ≤ k)%nat); [by eapply overlap_host|].
    destruct (overlap_host unicode_lower _ _ _ _ _ _ Hr Hl ltac:(lia) (labels_overlap_sym _ _ Ho))
      as (host & ? & ?). by exists host.
  - intros (host & ? & ?). by eapply matches_overlap.
Qed.

Lemma http_domains_overlap_exact_witness :
  (httpDomainsOverlap id "*.*.X.com." "*.dev.x.com" = true ↔
   ∃ host, httpDomainMatches id "*.*.X.com." host = true ∧
           httpDomainMatches id "*.dev.x.com" host = true) ∧
  httpDomainMatches id "*.*.X.com." "shop.dev.x.com:8443" = true.
Proof.
  split; [|vm_compute; reflexivity].
  apply (http_domains_overlap_exact id "*.*.X.com." "*.dev.x.com"); vm_compute; reflexivity.
Defined.
