(* ===== verification/TunnelSpec.v ===== *)
(** The stored tunnel and the pure functions on it (internal/server/store.go):
    normalisation, validation, and the names of the resources a tunnel
    occupies.

    [encoding/json] on endpoint configurations is the argument [store_json]. *)
From Stdlib Require Import ZArith Lia Ascii String.
From stdpp Require Import base tactics numbers list gmap strings pretty.
From S2P Require Import Prelude Records GoStrings GoIO GoNet Protocol TunnelState HTTPDomains.

Definition TunnelBindingClientID : string := "client_id".
Definition TunnelTopologyClientToClient : string := "client_to_client".
Definition TargetTypeTCPService : string := "tcp_service".
Definition TargetTypeUDPService : string := "udp_service".
Definition TargetTypeSOCKS5ConnectHandler : string := "socks5_connect_handler".
Definition P2PStateIdle : string := "idle".
Definition P2PStateGathering : string := "gathering".
Definition P2PStateChecking : string := "checking".
Definition P2PStateFallback : string := "fallback".
Definition ProxyTypeTCP : string := "tcp".
Definition ProxyTypeUDP : string := "udp".
Definition ProxyTypeHTTP : string := "http".

Record P2PState := { p2p_State : string; p2p_Error : string; p2p_SessionID : string }.

(** [StoredTunnel] with the embedded [ProxyNewRequest]; the provision revision
    and the deprecated transport fields of the latter are not stored. *)
Record StoredTunnel := {
  st_ID : string; st_Name : string; st_Type : string; st_LocalIP : string; st_LocalPort : Z;
  st_RemotePort : Z; st_BindIP : string; st_Domain : string; st_Bandwidth : BandwidthSettings;
  st_DesiredState : string; st_RuntimeState : string; st_Error : string;
  st_ClientID : string; st_Hostname : string; st_Binding : string; st_CreatedAt : Z;
  st_Revision : Z; st_Topology : string; st_OwnerClientID : string;
  st_Ingress : EndpointSpec; st_Target : EndpointSpec;
  st_TransportPolicy : string; st_ActualTransport : string; st_P2P : P2PState;
  st_OwnerUserID : string; st_CreatedByUserID : string; st_UpdatedAt : Z;
}.

#[export] Instance StoredTunnel_rebuild : Rebuild StoredTunnel := λ t, {|
  st_ID := st_ID t; st_Name := st_Name t; st_Type := st_Type t; st_LocalIP := st_LocalIP t;
  st_LocalPort := st_LocalPort t; st_RemotePort := st_RemotePort t; st_BindIP := st_BindIP t;
  st_Domain := st_Domain t; st_Bandwidth := st_Bandwidth t; st_DesiredState := st_DesiredState t;
  st_RuntimeState := st_RuntimeState t; st_Error := st_Error t; st_ClientID := st_ClientID t;
  st_Hostname := st_Hostname t; st_Binding := st_Binding t; st_CreatedAt := st_CreatedAt t;
  st_Revision := st_Revision t; st_Topology := st_Topology t;
  st_OwnerClientID := st_OwnerClientID t; st_Ingress := st_Ingress t; st_Target := st_Target t;
  st_TransportPolicy := st_TransportPolicy t; st_ActualTransport := st_ActualTransport t;
  st_P2P := st_P2P t; st_OwnerUserID := st_OwnerUserID t;
  st_CreatedByUserID := st_CreatedByUserID t; st_UpdatedAt := st_UpdatedAt t |}.

#[export] Instance EndpointSpec_rebuild : Rebuild EndpointSpec := λ e, {|
  ep_Location := ep_Location e; ep_ClientID := ep_ClientID e; ep_Type := ep_Type e;
  ep_Config := ep_Config e |}.

#[export] Instance P2PState_rebuild : Rebuild P2PState := λ p, {|
  p2p_State := p2p_State p; p2p_Error := p2p_Error p; p2p_SessionID := p2p_SessionID p |}.

#[export] Instance P2PState_eq_dec : EqDecision P2PState.
Proof. solve_decision. Defined.
#[export] Instance EndpointSpec_eq_dec : EqDecision EndpointSpec.
Proof. solve_decision. Defined.
#[export] Instance BandwidthSettings_eq_dec : EqDecision BandwidthSettings.
Proof. solve_decision. Defined.
#[export] Instance StoredTunnel_eq_dec : EqDecision StoredTunnel.
Proof. solve_decision. Defined.

(** What [json.Unmarshal] yields for the structs the store decodes, what
    [json.Marshal] yields for the legacy maps, and [json.Valid]. *)
Record store_json := {
  json_Valid : string → bool;
  dec_bind_ip : string → result string;
  dec_port : string → result Z;
  dec_domain : string → result string;
  dec_target : string → result (string * string * Z);
  enc_http_ingress : string → string;
  enc_listen_ingress : string → Z → string;
  enc_target : string → Z → string;
}.

Section TunnelSpec.
Context (js : store_json) (unicode_lower : string → string).

(** *** Reading the ingress configuration *)

Definition normalizeServerBindIP (bindIP : string) : string :=
  let bindIP := trim_space bindIP in
  if bindIP =?s "" then "0.0.0.0"%string else bindIP.

(** [len(raw) > 0 && json.Unmarshal(raw, &cfg) == nil] *)
Definition decoded {A} (dec : string → result A) (raw : string) : option A :=
  if raw =?s "" then None else
  match dec raw with Ok cfg => Some cfg | Err _ => None end.

Definition tunnelIngressBindIP (tunnel : StoredTunnel) : string :=
  if ep_Type (st_Ingress tunnel) =?s IngressTypeHTTPHost then "" else
  match decoded (dec_bind_ip js) (ep_Config (st_Ingress tunnel)) with
  | Some ip => if negb (ip =?s "") then ip else "0.0.0.0"%string
  | None => "0.0.0.0"%string
  end.

Definition tunnelIngressPort (tunnel : StoredTunnel) : Z :=
  if ep_Type (st_Ingress tunnel) =?s IngressTypeHTTPHost then 0 else
  match decoded (dec_port js) (ep_Config (st_Ingress tunnel)) with
  | Some port => if 0 <? port then port else st_RemotePort tunnel
  | None => st_RemotePort tunnel
  end.

Definition tunnelIngressDomain (tunnel : StoredTunnel) : string :=
  if negb (ep_Type (st_Ingress tunnel) =?s IngressTypeHTTPHost) then "" else
  match decoded (dec_domain js) (ep_Config (st_Ingress tunnel)) with
  | Some domain => if negb (domain =?s "") then to_lower unicode_lower domain
                   else to_lower unicode_lower (st_Domain tunnel)
  | None => to_lower unicode_lower (st_Domain tunnel)
  end.

(** *** Normalisation *)

Definition isEmptyEndpointConfig (raw : string) : bool :=
  let trimmed := trim_space raw in
  (trimmed =?s "") || (trimmed =?s "{}") || (trimmed =?s "null").

Definition tunnelIngressConfig (t : StoredTunnel) : string :=
  if st_Type t =?s ProxyTypeHTTP then enc_http_ingress js (st_Domain t)
  else enc_listen_ingress js (normalizeServerBindIP (st_BindIP t)) (st_RemotePort t).

Definition legacyIngressSpec (t : StoredTunnel) : EndpointSpec := {|
  ep_Location := "server"; ep_ClientID := "";
  ep_Type := if st_Type t =?s ProxyTypeUDP then IngressTypeUDPListen
             else if st_Type t =?s ProxyTypeHTTP then IngressTypeHTTPHost else IngressTypeTCPListen;
  ep_Config := tunnelIngressConfig t |}.

Definition legacyTargetSpec (t : StoredTunnel) : EndpointSpec := {|
  ep_Location := "client"; ep_ClientID := st_ClientID t;
  ep_Type := if st_Type t =?s ProxyTypeUDP then TargetTypeUDPService else TargetTypeTCPService;
  ep_Config := enc_target js (st_LocalIP t) (st_LocalPort t) |}.

Definition default_string (s d : string) : string := if s =?s "" then d else s.

Definition endpoint_missing (e : EndpointSpec) : bool :=
  (ep_Type e =?s "") || (ep_Location e =?s "") || isEmptyEndpointConfig (ep_Config e).

(** [normalizeUnifiedTunnelSpec], in four steps: missing values, *)
Definition normalize_defaults (t : StoredTunnel) : StoredTunnel :=
  let owner := default_string (st_OwnerClientID t) (st_ClientID t) in
  t <| st_Topology := default_string (st_Topology t) TunnelTopologyServerExpose |>
    <| st_OwnerClientID := owner |>
    <| st_TransportPolicy := default_string (st_TransportPolicy t) TransportPolicyServerRelayOnly |>
    <| st_ActualTransport := default_string (st_ActualTransport t) ActualTransportUnknown |>
    <| st_P2P := (st_P2P t) <| p2p_State := default_string (p2p_State (st_P2P t)) P2PStateIdle |> |>
    <| st_Type := default_string (st_Type t)
         (if ep_Type (st_Ingress t) =?s IngressTypeUDPListen then ProxyTypeUDP
          else if ep_Type (st_Ingress t) =?s IngressTypeHTTPHost then ProxyTypeHTTP
          else ProxyTypeTCP) |>.

(** missing endpoints, *)
Definition normalize_endpoints (t : StoredTunnel) : StoredTunnel :=
  t <| st_Ingress := if endpoint_missing (st_Ingress t) then legacyIngressSpec t else st_Ingress t |>
    <| st_Target := if endpoint_missing (st_Target t) then legacyTargetSpec t else st_Target t |>.

(** the locations the topology asks for, *)
Definition normalize_locations (t : StoredTunnel) : StoredTunnel :=
  t <| st_Ingress :=
         if st_Topology t =?s TunnelTopologyServerExpose
         then (st_Ingress t) <| ep_Location := "server"%string |> <| ep_ClientID := ""%string |>
         else if st_Topology t =?s TunnelTopologyClientToClient
         then (st_Ingress t) <| ep_Location := "client"%string |>
         else st_Ingress t |>
    <| st_Target := (st_Target t) <| ep_Location := "client"%string |> |>.

(** and missing clients. *)
Definition normalize_clients (t : StoredTunnel) : StoredTunnel :=
  let targetClient := default_string (ep_ClientID (st_Target t)) (st_ClientID t) in
  t <| st_Target := (st_Target t) <| ep_ClientID := targetClient |> |>
    <| st_ClientID := default_string (st_ClientID t) (st_OwnerClientID t) |>
    <| st_OwnerClientID := default_string (st_OwnerClientID t) targetClient |>.

Definition normalizeUnifiedTunnelSpec (t : StoredTunnel) : StoredTunnel :=
  normalize_clients (normalize_locations (normalize_endpoints (normalize_defaults t))).

(** [switch s { case l...: default: error }] *)
Definition one_of (s : string) (l : list string) : bool := existsb (String.eqb s) l.

Definition check (b : bool) (format : string) (args : list fmtarg) : result unit :=
  if b then Ok tt else Err (Errorf format args).

Definition validate_topology (t : StoredTunnel) : result unit :=
  let ingress := st_Ingress t in
  let target := st_Target t in
  if st_Topology t =?s TunnelTopologyServerExpose then
    _ ← check ((ep_Location ingress =?s "server") && (ep_ClientID ingress =?s ""))
          "server_expose tunnel %q must use server ingress" [AStr (st_Name t)];
    check (st_OwnerClientID t =?s ep_ClientID target)
      "server_expose tunnel %q owner must be target client" [AStr (st_Name t)]
  else if st_Topology t =?s TunnelTopologyClientToClient then
    _ ← check ((ep_Location ingress =?s "client") && negb (ep_ClientID ingress =?s ""))
          "client_to_client tunnel %q must use client ingress" [AStr (st_Name t)];
    _ ← check (negb (ep_ClientID ingress =?s ep_ClientID target))
          "client_to_client tunnel %q ingress and target clients must differ" [AStr (st_Name t)];
    check (st_OwnerClientID t =?s ep_ClientID target)
      "client_to_client tunnel %q owner must be target client" [AStr (st_Name t)]
  else Ok tt.

Definition validateUnifiedTunnelSpec (t : StoredTunnel) : result unit :=
  let ingress := st_Ingress t in
  let target := st_Target t in
  _ ← check (one_of (st_Topology t) [TunnelTopologyServerExpose; TunnelTopologyClientToClient])
        "unsupported tunnel topology %q" [AStr (st_Topology t)];
  _ ← check (negb (st_OwnerClientID t =?s "")) "tunnel %q is missing owner_client_id"
        [AStr (st_Name t)];
  _ ← validate_topology t;
  _ ← check (one_of (ep_Location ingress) ["server"; "client"]%string)
        "unsupported ingress location %q" [AStr (ep_Location ingress)];
  _ ← check (ep_Location target =?s "client")
        "unsupported target location %q" [AStr (ep_Location target)];
  _ ← check (one_of (ep_Type ingress) [IngressTypeTCPListen; IngressTypeUDPListen;
                                       IngressTypeHTTPHost; IngressTypeSOCKS5Listen])
        "unsupported ingress type %q" [AStr (ep_Type ingress)];
  _ ← check (one_of (ep_Type target) [TargetTypeTCPService; TargetTypeUDPService;
                                      TargetTypeSOCKS5ConnectHandler])
        "unsupported target type %q" [AStr (ep_Type target)];
  _ ← check (one_of (st_TransportPolicy t) [TransportPolicyServerRelayOnly;
               TransportPolicyDirectPreferred; TransportPolicyDirectOnly])
        "unsupported transport policy %q" [AStr (st_TransportPolicy t)];
  _ ← check (json_Valid js (ep_Config ingress)) "invalid ingress config JSON" [];
  _ ← check (json_Valid js (ep_Config target)) "invalid target config JSON" [];
  if ep_Type ingress =?s IngressTypeHTTPHost then
    let domain := tunnelIngressDomain t in
    if contains domain "*" then validateHTTPDomain unicode_lower domain else Ok tt
  else Ok tt.

(** [t.normalize()]: the normalised tunnel; on an error the caller drops it. *)
Definition normalize_binding (t : StoredTunnel) : StoredTunnel :=
  t <| st_Binding := default_string (st_Binding t) TunnelBindingClientID |>.

Definition normalize_columns (now : Z) (t : StoredTunnel) : StoredTunnel :=
  let created := if is_zero_time (st_CreatedAt t) then now else st_CreatedAt t in
  t <| st_CreatedAt := created |>
    <| st_UpdatedAt := if is_zero_time (st_UpdatedAt t) then created else st_UpdatedAt t |>
    <| st_Revision := if st_Revision t =? 0 then 1 else st_Revision t |>.

Definition normalize_states (t : StoredTunnel) : StoredTunnel :=
  t <| st_DesiredState := canonicalDesiredState (st_DesiredState t) |>
    <| st_Error := tunnelErrorForRuntimeState (st_RuntimeState t) (st_Error t) |>.

Definition normalize (now : Z) (t : StoredTunnel) : result StoredTunnel :=
  _ ← check (negb (st_ID t =?s "")) "tunnel %q is missing a stable id" [AStr (st_Name t)];
  let t := normalize_binding t in
  _ ← check (st_Binding t =?s TunnelBindingClientID) "tunnel %q must use %q binding"
        [AStr (st_Name t); AStr TunnelBindingClientID];
  _ ← check (negb (st_ClientID t =?s "")) "tunnel %q is missing a stable client_id"
        [AStr (st_Name t)];
  let t := normalize_columns now t in
  _ ← validateTunnelStates (st_DesiredState t) (st_RuntimeState t) (st_Error t);
  let t := normalizeUnifiedTunnelSpec (normalize_states t) in
  _ ← validateUnifiedTunnelSpec t;
  Ok t.

(** *** The resources a tunnel occupies *)

Definition location_id (tunnel : StoredTunnel) : string :=
  let location := default_string (ep_Location (st_Ingress tunnel)) "server" in
  if negb (ep_ClientID (st_Ingress tunnel) =?s "")
  then location +:+ ":" +:+ ep_ClientID (st_Ingress tunnel) else location.

Definition listens (tunnel : StoredTunnel) : bool :=
  one_of (ep_Type (st_Ingress tunnel))
    [IngressTypeTCPListen; IngressTypeUDPListen; IngressTypeSOCKS5Listen].

Definition ingress_proto (tunnel : StoredTunnel) : string :=
  if ep_Type (st_Ingress tunnel) =?s IngressTypeUDPListen then "udp" else "tcp".

Definition listen_key (location proto bindIP : string) (port : Z) : string :=
  "ingress:" +:+ location +:+ ":" +:+ proto +:+ ":" +:+ bindIP +:+ ":" +:+ pretty port.

(** The key, kind and client of a tunnel's lock; an empty key for none. *)
Definition tunnelIngressResourceLock (tunnel : StoredTunnel) : string * string * string :=
  let location := default_string (ep_Location (st_Ingress tunnel)) "server" in
  if listens tunnel then
    if tunnelIngressPort tunnel <=? 0 then ("", "", "")%string else
    (listen_key (location_id tunnel) (ingress_proto tunnel) (tunnelIngressBindIP tunnel)
       (tunnelIngressPort tunnel),
     (if location =?s "client" then "client_" else "server_")
       +:+ ingress_proto tunnel +:+ "_port", ep_ClientID (st_Ingress tunnel))%string
  else if ep_Type (st_Ingress tunnel) =?s IngressTypeHTTPHost then
    let domain := canonicalHTTPDomain unicode_lower (tunnelIngressDomain tunnel) in
    if domain =?s "" then ("", "", "")%string else
    ("ingress:" +:+ location_id tunnel +:+ ":http_host:" +:+ domain,
     "server_http_host", ep_ClientID (st_Ingress tunnel))%string
  else ("", "", "")%string.

Definition lock_key (tunnel : StoredTunnel) : string := (tunnelIngressResourceLock tunnel).1.1.

Definition tunnelIngressConflictPatterns (tunnel : StoredTunnel) : list string :=
  if negb (listens tunnel) then [] else
  if negb (tunnelIngressBindIP tunnel =?s "0.0.0.0") then [] else
  if tunnelIngressPort tunnel <=? 0 then [] else
  [listen_key (location_id tunnel) (ingress_proto tunnel) "%" (tunnelIngressPort tunnel)].

Definition tunnelIngressConflictKeys (tunnel : StoredTunnel) : list string :=
  let key := lock_key tunnel in
  if key =?s "" then [] else
  if negb (listens tunnel) then [key] else
  if tunnelIngressPort tunnel <=? 0 then [] else
  if tunnelIngressBindIP tunnel =?s "0.0.0.0" then [key] else
  [key; listen_key (location_id tunnel) (ingress_proto tunnel) "0.0.0.0" (tunnelIngressPort tunnel)].

(** *** Storage form *)

Definition storageRuntimeStateFromProtocol (runtimeState : string) : string :=
  if runtimeState =?s ProxyRuntimeStateExposed then "active"%string else runtimeState.

Definition protocolRuntimeStateFromStorage (runtimeState : string) : string :=
  if runtimeState =?s "active" then ProxyRuntimeStateExposed else runtimeState.

Definition storageActualTransport (tunnel : StoredTunnel) : string :=
  if negb (st_ActualTransport tunnel =?s "")
     && negb (st_ActualTransport tunnel =?s ActualTransportUnknown)
  then st_ActualTransport tunnel
  else if storageRuntimeStateFromProtocol (st_RuntimeState tunnel) =?s "active"
  then ActualTransportServerRelay else ActualTransportUnknown.

(** The row [INSERT] and the full [UPDATE] write; the bind address has no
    column of its own in it. *)
Definition row_of (tunnel : StoredTunnel) : StoredTunnel :=
  tunnel <| st_RuntimeState := storageRuntimeStateFromProtocol (st_RuntimeState tunnel) |>
         <| st_ActualTransport := storageActualTransport tunnel |>
         <| st_BindIP := ""%string |>.

Definition scanStoredTunnel (now : Z) (row : StoredTunnel) : result StoredTunnel :=
  tunnel ← normalize now
    (row <| st_RuntimeState := protocolRuntimeStateFromStorage (st_RuntimeState row) |>);
  Ok (tunnel <| st_BindIP := tunnelIngressBindIP tunnel |>).

Definition tunnelTargetResourceKey (tunnel : StoredTunnel) : string :=
  let targetType := default_string (ep_Type (st_Target tunnel)) TargetTypeTCPService in
  let targetClientID := default_string (ep_ClientID (st_Target tunnel)) (st_ClientID tunnel) in
  if targetType =?s TargetTypeSOCKS5ConnectHandler
  then "target:client:" +:+ targetClientID +:+ ":" +:+ targetType else
  let '(host, port) :=
    match decoded (dec_target js) (ep_Config (st_Target tunnel)) with
    | Some (ip, host, port) =>
        (if negb (ip =?s "") then ip else if negb (host =?s "") then host else st_LocalIP tunnel,
         if 0 <? port then port else st_LocalPort tunnel)
    | None => (st_LocalIP tunnel, st_LocalPort tunnel)
    end in
  let host := match ParseIP host with Some ip => IP_String ip | None => host end in
  "target:client:" +:+ targetClientID +:+ ":" +:+ targetType +:+ ":" +:+ host +:+ ":" +:+ pretty port.
End TunnelSpec.

(** ** Facts *)

(** The configurations that are made for tunnels without endpoints are not
    empty objects. *)
Record store_json_laws (js : store_json) : Prop := {
  enc_http_nonempty : ∀ d, isEmptyEndpointConfig (enc_http_ingress js d) = false;
  enc_listen_nonempty : ∀ ip p, isEmptyEndpointConfig (enc_listen_ingress js ip p) = false;
  enc_target_nonempty : ∀ h p, isEmptyEndpointConfig (enc_target js h p) = false;
}.

Lemma default_string_ne s d : d ≠ ""%string → default_string s d ≠ ""%string.
Proof. unfold default_string. by destruct (String.eqb_spec s ""). Qed.
Lemma default_string_id s d : s ≠ ""%string → default_string s d = s.
Proof. unfold default_string. by destruct (String.eqb_spec s ""). Qed.
Lemma one_of_spec s l : one_of s l = true ↔ s ∈ l.
Proof.
  unfold one_of. rewrite existsb_exists. setoid_rewrite eqb_str_true. split.
  - by intros (x & Hx%list_elem_of_In & ->).
  - intros H. exists s. by rewrite <- list_elem_of_In.
Qed.
Lemma check_ok b f args : check b f args = Ok tt ↔ b = true.
Proof. unfold check. by destruct b. Qed.
Lemma bind_unit_ok {A} (m : result unit) (k : result A) a :
  (_ ← m; k) = Ok a ↔ m = Ok tt ∧ k = Ok a.
Proof. destruct m as [[]|]; cbn; naive_solver. Qed.

(** What normalisation establishes of the endpoints, *)
Record spec_normal (t : StoredTunnel) : Prop := {
  sn_client : st_ClientID t ≠ ""%string;
  sn_owner : st_OwnerClientID t ≠ ""%string;
  sn_policy : st_TransportPolicy t ≠ ""%string;
  sn_actual : st_ActualTransport t ≠ ""%string;
  sn_p2p : p2p_State (st_P2P t) ≠ ""%string;
  sn_type : st_Type t ≠ ""%string;
  sn_ingress : endpoint_missing (st_Ingress t) = false;
  sn_target : endpoint_missing (st_Target t) = false;
  sn_server : st_Topology t = TunnelTopologyServerExpose →
              ep_Location (st_Ingress t) = "server"%string ∧ ep_ClientID (st_Ingress t) = ""%string;
  sn_c2c : st_Topology t = TunnelTopologyClientToClient →
           ep_Location (st_Ingress t) = "client"%string;
  sn_topology : st_Topology t ≠ ""%string;
  sn_target_location : ep_Location (st_Target t) = "client"%string;
  sn_target_client : ep_ClientID (st_Target t) ≠ ""%string;
}.

Lemma eta_endpoint e l c :
  ep_Location e = l → ep_ClientID e = c → e <| ep_Location := l |> <| ep_ClientID := c |> = e.
Proof. destruct e. cbn. by intros <- <-. Qed.
Lemma eta_location e l : ep_Location e = l → e <| ep_Location := l |> = e.
Proof. destruct e. cbn. by intros <-. Qed.

Section Normal.
Context (js : store_json) (unicode_lower : string → string).

Lemma normalize_defaults_id t : spec_normal t → normalize_defaults t = t.
Proof.
  intros H. unfold normalize_defaults. cbv zeta.
  rewrite !default_string_id by apply H. destruct t as [???????????????????????[] ???]. done.
Qed.
Lemma normalize_endpoints_id t : spec_normal t → normalize_endpoints js t = t.
Proof.
  intros H. unfold normalize_endpoints. rewrite (sn_ingress _ H). cbn [st_Target].
  change (st_Target (t <| st_Ingress := st_Ingress t |>)) with (st_Target t).
  rewrite (sn_target _ H). by destruct t.
Qed.
Lemma normalize_locations_id t : spec_normal t → normalize_locations t = t.
Proof.
  intros H. unfold normalize_locations.
  assert (Hi : (if st_Topology t =?s TunnelTopologyServerExpose
                then (st_Ingress t) <| ep_Location := "server"%string |> <| ep_ClientID := ""%string |>
                else if st_Topology t =?s TunnelTopologyClientToClient
                then (st_Ingress t) <| ep_Location := "client"%string |> else st_Ingress t) = st_Ingress t).
  { destruct (String.eqb_spec (st_Topology t) TunnelTopologyServerExpose) as [E|].
    { apply eta_endpoint; by apply (sn_server _ H). }
    destruct (String.eqb_spec (st_Topology t) TunnelTopologyClientToClient) as [E|]; [|done].
    apply eta_location. by apply (sn_c2c _ H). }
  rewrite Hi. change (st_Target (t <| st_Ingress := st_Ingress t |>)) with (st_Target t).
  rewrite eta_location by apply H. by destruct t.
Qed.
Lemma normalize_clients_id t : spec_normal t → normalize_clients t = t.
Proof.
  intros H. unfold normalize_clients. cbv zeta.
  rewrite !default_string_id by apply H.
  assert (Ht : (st_Target t) <| ep_ClientID := ep_ClientID (st_Target t) |> = st_Target t)
    by by destruct (st_Target t).
  rewrite Ht. by destruct t.
Qed.
Lemma normalizeUnified_id t : spec_normal t → normalizeUnifiedTunnelSpec js t = t.
Proof.
  intros H. unfold normalizeUnifiedTunnelSpec.
  by rewrite normalize_defaults_id, normalize_endpoints_id, normalize_locations_id, normalize_clients_id.
Qed.

Lemma endpoint_missing_location e l :
  endpoint_missing e = false → l ≠ ""%string → endpoint_missing (e <| ep_Location := l |>) = false.
Proof.
  destruct e as [loc cl ty cfg]. unfold endpoint_missing. cbn.
  rewrite !orb_false_iff, !eqb_str_false. naive_solver.
Qed.
Lemma endpoint_missing_client e c : endpoint_missing (e <| ep_ClientID := c |>) = endpoint_missing e.
Proof. by destruct e. Qed.

Lemma normalizeUnified_normal t :
  store_json_laws js → st_ClientID t ≠ ""%string →
  spec_normal (normalizeUnifiedTunnelSpec js t).
Proof.
  intros Hjs Hc. unfold normalizeUnifiedTunnelSpec.
  set (d := normalize_defaults t).
  assert (Hd : st_ClientID d = st_ClientID t ∧ st_OwnerClientID d ≠ ""%string ∧
    st_TransportPolicy d ≠ ""%string ∧ st_ActualTransport d ≠ ""%string ∧
    p2p_State (st_P2P d) ≠ ""%string ∧ st_Type d ≠ ""%string ∧ st_Topology d ≠ ""%string).
  { unfold d, normalize_defaults. cbn. split_and!; try (by apply default_string_ne); [done|].
    apply default_string_ne. by destruct (_ =?s _); [|destruct (_ =?s _)]. }
  clearbody d. set (e := normalize_endpoints js d).
  assert (He : endpoint_missing (st_Ingress e) = false ∧ endpoint_missing (st_Target e) = false).
  { unfold e, normalize_endpoints. cbn. split.
    - destruct (endpoint_missing (st_Ingress d)) eqn:E; [|exact E].
      unfold endpoint_missing, legacyIngressSpec, tunnelIngressConfig. cbn.
      destruct (st_Type d =?s ProxyTypeUDP), (st_Type d =?s ProxyTypeHTTP); cbn; apply Hjs.
    - destruct (endpoint_missing (st_Target d)) eqn:E; [|exact E].
      unfold endpoint_missing, legacyTargetSpec. cbn.
      destruct (st_Type d =?s ProxyTypeUDP); cbn; apply Hjs. }
  assert (Hed : st_ClientID e = st_ClientID d ∧ st_OwnerClientID e = st_OwnerClientID d ∧
    st_TransportPolicy e = st_TransportPolicy d ∧ st_ActualTransport e = st_ActualTransport d ∧
    st_P2P e = st_P2P d ∧ st_Type e = st_Type d ∧ st_Topology e = st_Topology d) by done.
  clearbody e. destruct Hd as (? & ? & ? & ? & ? & ? & ?), Hed as (E1 & E2 & E3 & E4 & E5 & E6 & E7), He.
  assert (Hcl : st_ClientID e ≠ ""%string) by congruence.
  unfold normalize_clients, normalize_locations. split; cbn; rewrite ?E2, ?E3, ?E4, ?E5, ?E6, ?E7; try done.
  - by apply default_string_ne.
  - by apply default_string_ne, default_string_ne.
  - destruct (_ =?s _); [by rewrite endpoint_missing_client; apply endpoint_missing_location|].
    destruct (_ =?s _); [by apply endpoint_missing_location|done].
  - by rewrite endpoint_missing_client; apply endpoint_missing_location.
  - intros ->. done.
  - intros ->. done.
  - by apply default_string_ne.
Qed.

(** and of the whole tunnel. *)
Record normal (t : StoredTunnel) : Prop := {
  nm_id : st_ID t ≠ ""%string;
  nm_binding : st_Binding t = TunnelBindingClientID;
  nm_created : st_CreatedAt t ≠ 0;
  nm_updated : st_UpdatedAt t ≠ 0;
  nm_revision : st_Revision t ≠ 0;
  nm_states : validateTunnelStates (st_DesiredState t) (st_RuntimeState t) (st_Error t) = Ok tt;
  nm_desired : canonicalDesiredState (st_DesiredState t) = st_DesiredState t;
  nm_error : tunnelErrorForRuntimeState (st_RuntimeState t) (st_Error t) = st_Error t;
  nm_spec : spec_normal t;
  nm_valid : validateUnifiedTunnelSpec js unicode_lower t = Ok tt;
}.

Lemma normal_columns t now :
  normal t → normalize_binding t = t ∧ normalize_columns now t = t ∧ normalize_states t = t.
Proof.
  intros [_ Hb Hc Hu Hr _ Hd He _ _].
  unfold normalize_binding, normalize_columns, normalize_states, is_zero_time. cbv zeta.
  rewrite Hd, He, Hb, (proj2 (Z.eqb_neq _ _) Hc), (proj2 (Z.eqb_neq _ _) Hu), (proj2 (Z.eqb_neq _ _) Hr).
  destruct t. cbn in *. by subst.
Qed.

Lemma normal_normalize now t : normal t → normalize js unicode_lower now t = Ok t.
Proof.
  intros H. destruct (normal_columns t now H) as (E1 & E2 & E3). unfold normalize.
  rewrite E1, E2, E3, normalizeUnified_id by apply H.
  rewrite !bind_unit_ok, !check_ok, !negb_true_iff, !eqb_str_false, eqb_str_true.
  split_and!; try done; try apply H.
Qed.

Lemma canonicalDesiredState_idem s : canonicalDesiredState (canonicalDesiredState s) = canonicalDesiredState s.
Proof. unfold canonicalDesiredState. by destruct (s =?s "paused") eqn:E; [|rewrite E]. Qed.

Lemma validateTunnelStates_canonical d r e :
  validateTunnelStates (canonicalDesiredState d) r e = validateTunnelStates d r e.
Proof. unfold validateTunnelStates. by rewrite canonicalDesiredState_idem. Qed.

Lemma tunnelError_valid d r e :
  validateTunnelStates d r e = Ok tt → tunnelErrorForRuntimeState r e = e.
Proof.
  unfold validateTunnelStates, tunnelErrorForRuntimeState. cbv zeta.
  intros [_ H]%bind_unit_ok. revert H.
  destruct (r =?s ProxyRuntimeStateError); [done|]. cbn.
  destruct (String.eqb_spec e ""); [by subst|done].
Qed.

(** The spec does not touch the other columns. *)
Lemma normalizeUnified_frame t :
  let t' := normalizeUnifiedTunnelSpec js t in
  st_ID t' = st_ID t ∧ st_Name t' = st_Name t ∧ st_Binding t' = st_Binding t ∧
  st_CreatedAt t' = st_CreatedAt t ∧ st_UpdatedAt t' = st_UpdatedAt t ∧
  st_Revision t' = st_Revision t ∧ st_DesiredState t' = st_DesiredState t ∧
  st_RuntimeState t' = st_RuntimeState t ∧ st_Error t' = st_Error t ∧
  st_OwnerUserID t' = st_OwnerUserID t ∧ st_Hostname t' = st_Hostname t ∧
  st_CreatedByUserID t' = st_CreatedByUserID t ∧
  (st_ClientID t ≠ ""%string → st_ClientID t' = st_ClientID t).
Proof.
  cbv zeta. unfold normalizeUnifiedTunnelSpec, normalize_clients, normalize_locations,
    normalize_endpoints, normalize_defaults. cbn. split_and!; try done. intros ?. by apply default_string_id.
Qed.

Lemma normalize_normal now t t' :
  store_json_laws js → now ≠ 0 → normalize js unicode_lower now t = Ok t' →
  normal t' ∧ st_ID t' = st_ID t ∧ st_Name t' = st_Name t ∧ st_ClientID t' = st_ClientID t ∧
  st_OwnerUserID t' = st_OwnerUserID t ∧ st_RuntimeState t' = st_RuntimeState t ∧
  st_Revision t' = (if st_Revision t =? 0 then 1 else st_Revision t).
Proof.
  intros Hjs Hnow. unfold normalize. rewrite !bind_unit_ok, !check_ok, !negb_true_iff, !eqb_str_false, !eqb_str_true.
  cbv zeta. intros (Hid & Hb & Hc & Hst & Hv & [= <-]).
  set (u := normalize_states (normalize_columns now (normalize_binding t))) in *.
  assert (Hu : st_ID u = st_ID t ∧ st_Name u = st_Name t ∧ st_ClientID u = st_ClientID t ∧
    st_OwnerUserID u = st_OwnerUserID t ∧ st_RuntimeState u = st_RuntimeState t ∧
    st_Revision u = (if st_Revision t =? 0 then 1 else st_Revision t) ∧
    st_Binding u = TunnelBindingClientID ∧ st_CreatedAt u ≠ 0 ∧ st_UpdatedAt u ≠ 0 ∧
    st_DesiredState u = canonicalDesiredState (st_DesiredState t) ∧
    st_Error u = tunnelErrorForRuntimeState (st_RuntimeState t) (st_Error t)).
  { split_and!; try done; unfold u, normalize_states, normalize_columns, is_zero_time; cbn.
    - destruct (Z.eqb_spec (st_CreatedAt t) 0); done.
    - destruct (Z.eqb_spec (st_UpdatedAt t) 0), (Z.eqb_spec (st_CreatedAt t) 0); done. }
  clearbody u. change (st_ClientID (normalize_binding t)) with (st_ClientID t) in Hc.
  change (validateTunnelStates (st_DesiredState t) (st_RuntimeState t) (st_Error t) = Ok tt) in Hst.
  destruct Hu as (G1 & G2 & G3 & G4 & G5 & G6 & G7 & G8 & G9 & G10 & G11).
  assert (Hcu : st_ClientID u ≠ ""%string) by congruence.
  destruct (normalizeUnified_frame u) as (F1 & F2 & F3 & F4 & F5 & F6 & F7 & F8 & F9 & F10 & F11 & F12 & F13).
  split; [|rewrite F1, F2, (F13 Hcu), F10, F8, F6; by split_and!].
  rewrite (tunnelError_valid _ _ _ Hst) in G11.
  split; rewrite ?F1, ?F2, ?F3, ?F4, ?F5, ?F6, ?F7, ?F8, ?F9, ?G5, ?G10, ?G11; try done.
  - by rewrite G1.
  - rewrite G6. by destruct (Z.eqb_spec (st_Revision t) 0).
  - by rewrite validateTunnelStates_canonical.
  - apply canonicalDesiredState_idem.
  - by eapply tunnelError_valid.
  - by apply normalizeUnified_normal.
Qed.

(** *** Rows *)

(** A row the store can read back: normal once its runtime state is. *)
Definition row_normal (row : StoredTunnel) : Prop :=
  normal (row <| st_RuntimeState := protocolRuntimeStateFromStorage (st_RuntimeState row) |>) ∧
  st_RuntimeState row ≠ ProxyRuntimeStateExposed.

Lemma runtime_round_trip r :
  r ≠ "active"%string →
  protocolRuntimeStateFromStorage (storageRuntimeStateFromProtocol r) = r ∧
  storageRuntimeStateFromProtocol r ≠ ProxyRuntimeStateExposed.
Proof.
  intros Hr. unfold protocolRuntimeStateFromStorage, storageRuntimeStateFromProtocol.
  destruct (String.eqb_spec r ProxyRuntimeStateExposed) as [->|]; [done|].
  by rewrite (proj2 (eqb_str_false _ _) Hr).
Qed.

Lemma valid_states_not_active d r e : validateTunnelStates d r e = Ok tt → r ≠ "active"%string.
Proof.
  intros H ->. revert H. unfold validateTunnelStates. cbv zeta.
  destruct (canonicalDesiredState d =?s ProxyDesiredStateRunning); [done|].
  by destruct (canonicalDesiredState d =?s ProxyDesiredStateStopped).
Qed.

Definition read_row (row : StoredTunnel) : StoredTunnel :=
  let t := row <| st_RuntimeState := protocolRuntimeStateFromStorage (st_RuntimeState row) |> in
  t <| st_BindIP := tunnelIngressBindIP js t |>.

Lemma scan_row now row :
  row_normal row → scanStoredTunnel js unicode_lower now row = Ok (read_row row).
Proof. intros [H _]. unfold scanStoredTunnel. by rewrite normal_normalize. Qed.

(** Columns a normal tunnel may change. *)
Lemma normal_update t t' :
  normal t → st_ID t' = st_ID t → st_Name t' = st_Name t → st_Binding t' = st_Binding t →
  st_CreatedAt t' ≠ 0 → st_UpdatedAt t' ≠ 0 → st_Revision t' = st_Revision t →
  validateTunnelStates (st_DesiredState t') (st_RuntimeState t') (st_Error t') = Ok tt →
  canonicalDesiredState (st_DesiredState t') = st_DesiredState t' →
  st_ClientID t' = st_ClientID t → st_OwnerClientID t' = st_OwnerClientID t →
  st_TransportPolicy t' = st_TransportPolicy t → st_ActualTransport t' ≠ ""%string →
  p2p_State (st_P2P t') ≠ ""%string → st_Type t' = st_Type t → st_Topology t' = st_Topology t →
  st_Ingress t' = st_Ingress t → st_Target t' = st_Target t → st_Domain t' = st_Domain t →
  normal t'.
Proof.
  intros H E1 E2 E3 E4 E5 E6 E7 E8 E9 E10 E11 E12 E13 E14 E15 E16 E17 E18.
  pose proof (nm_spec _ H) as Hs. split; rewrite ?E1, ?E3, ?E6; try (done || by apply H).
  - by eapply tunnelError_valid.
  - split; rewrite ?E9, ?E10, ?E11, ?E14, ?E15, ?E16, ?E17; try (done || by apply Hs).
  - rewrite <- (nm_valid _ H). unfold validateUnifiedTunnelSpec, validate_topology, tunnelIngressDomain.
    by rewrite E2, E10, E11, E15, E16, E17, E18.
Qed.

(** What is written of a normal tunnel is read back, with the transport the
    row implies and the bind address of the configuration. *)
Lemma scan_row_of now t :
  normal t →
  row_normal (row_of t) ∧
  scanStoredTunnel js unicode_lower now (row_of t) =
    Ok (t <| st_ActualTransport := storageActualTransport t |> <| st_BindIP := tunnelIngressBindIP js t |>).
Proof.
  intros H. pose proof (nm_states _ H) as Hst.
  destruct (runtime_round_trip (st_RuntimeState t) (valid_states_not_active _ _ _ Hst)) as [Hr Hr'].
  assert (Hn : row_normal (row_of t)).
  { split; [|done]. eapply normal_update; try done; cbn.
    - apply H.
    - apply H.
    - by rewrite Hr.
    - apply H.
    - unfold storageActualTransport. destruct (String.eqb_spec (st_ActualTransport t) ""); cbn;
        repeat case_match; done.
    - apply (sn_p2p _ (nm_spec _ H)). }
  split; [done|]. rewrite scan_row by done. f_equal. unfold read_row, row_of. cbn.
  rewrite Hr. by destruct t.
Qed.
End Normal.
