(* ===== verification/TunnelStore.v ===== *)
(** The tunnel store (internal/server/store.go): every operation that changes
    the [tunnels] and [tunnel_resource_locks] tables, with the lookups by
    ingress resource (http_domain_store.go).

    The database is SQLite: a table is a finite map from its primary key to
    its rows, a statement is an update of the map, and the constraints are
    those of migrations/012_multi_user_ownership.sql and
    005_unified_tunnel_storage.sql.  A store operation holds the store's mutex
    and runs one transaction, which is committed or rolled back as a whole, so
    it is a function on the database; [sql] is the error its statements report
    when the database itself fails ([None] when it does not), and then nothing
    is committed.  [LIKE] is the argument [sql_like]. *)
From Stdlib Require Import ZArith Lia Ascii String.
From stdpp Require Import base tactics numbers list gmap strings sorting.
From S2P Require Import Prelude Records GoStrings Protocol TunnelState HTTPDomains TunnelSpec Coordinator.

Record resource_lock := { rl_tunnel_id : string; rl_kind : string; rl_client_id : string }.

Record database := {
  tunnels : gmap string StoredTunnel;
  tunnel_resource_locks : gmap string resource_lock;
  users : gmap string string;
  registered_clients : gmap string (option string);
}.
#[export] Instance database_rebuild : Rebuild database := λ db, {|
  tunnels := tunnels db; tunnel_resource_locks := tunnel_resource_locks db; users := users db;
  registered_clients := registered_clients db |}.

Definition ErrTunnelNotFound : goerror := Errorf "tunnel not found" [].
Definition ErrTunnelRevisionConflict : goerror := Errorf "tunnel revision conflict" [].
Definition ErrTunnelOwnerNameConflict : goerror :=
  Errorf "target client already has a tunnel with this name" [].
Definition ErrTunnelMigrationPending : goerror := Errorf "pending tunnel cannot be migrated" [].
Definition ErrTunnelTargetClientNotFound : goerror := Errorf "target client is not registered" [].
Definition ErrUserNotFound : goerror := Errorf "user not found" [].
Definition ErrUserDisabled : goerror := Errorf "user is disabled" [].
Definition ErrConstraint : goerror := Errorf "constraint failed" [].
Definition UserStatusActive : string := "active".

Definition in_use (id : string) (row other : StoredTunnel) : bool :=
  negb (st_ID other =?s id)
  && (((st_ClientID other =?s st_ClientID row) && (st_Name other =?s st_Name row))
      || ((st_OwnerClientID other =?s st_OwnerClientID row) && (st_Name other =?s st_Name row))).

(** The [CHECK] clauses of the table. *)
Definition row_checks (row : StoredTunnel) : bool :=
  let ingress := st_Ingress row in
  let target := st_Target row in
  one_of (st_Topology row) [TunnelTopologyServerExpose; TunnelTopologyClientToClient]
  && one_of (ep_Location ingress) ["server"; "client"]%string
  && (ep_Location target =?s "client")
  && (((st_Topology row =?s TunnelTopologyServerExpose) && (ep_Location ingress =?s "server")
       && (ep_ClientID ingress =?s "") && negb (ep_ClientID target =?s ""))
      || ((st_Topology row =?s TunnelTopologyClientToClient) && (ep_Location ingress =?s "client")
          && negb (ep_ClientID ingress =?s "") && negb (ep_ClientID target =?s "")))
  && one_of (ep_Type ingress) [IngressTypeTCPListen; IngressTypeUDPListen;
                               IngressTypeHTTPHost; IngressTypeSOCKS5Listen]
  && one_of (ep_Type target) [TargetTypeTCPService; TargetTypeUDPService;
                              TargetTypeSOCKS5ConnectHandler]
  && one_of (st_TransportPolicy row) [TransportPolicyServerRelayOnly;
       TransportPolicyDirectPreferred; TransportPolicyDirectOnly]
  && one_of (st_ActualTransport row) [ActualTransportUnknown; ActualTransportServerRelay;
       ActualTransportPeerDirect; ActualTransportTURNRelay]
  && one_of (p2p_State (st_P2P row)) [P2PStateIdle; P2PStateGathering; P2PStateChecking;
       P2PStateConnected; P2PStateFailed; P2PStateFallback; P2PStateClosed]
  && one_of (st_DesiredState row) [ProxyDesiredStateRunning; ProxyDesiredStateStopped]
  && one_of (st_RuntimeState row) ["pending"; "active"; "offline"; "idle"; "error"]%string
  && (0 <=? TotalBPS (st_Bandwidth row)).

(** Primary key apart, the constraints a written row has to meet. *)
Definition row_allowed (db : database) (row : StoredTunnel) : bool :=
  row_checks row
  && forallb (λ kt, negb (in_use (st_ID row) row kt.2)) (map_to_list (tunnels db)).

(** The row goes to its key; a violated constraint aborts. *)
Definition write_row (row : StoredTunnel) (db : database) : result database :=
  if row_allowed db row
  then Ok (db <| tunnels := <[st_ID row := row]> (tunnels db) |>) else Err ErrConstraint.

Section TunnelStore.
Context (js : store_json) (unicode_lower : string → string) (sql_like : string → string → bool).
(** [time.Now()] while the operation holds the lock. *)
Context (now : Z).

Abbreviation scan := (scanStoredTunnel js unicode_lower now).

(** [SELECT ... FROM tunnels WHERE id = ?] *)
Definition select_id (db : database) (id : string) : result (option StoredTunnel) :=
  match tunnels db !! id with
  | None => Ok None
  | Some row => tunnel ← scan row; Ok (Some tunnel)
  end.

(** The first row that meets the condition, in the order of the keys; at most
    one does where the code uses it. *)
Definition select_where (db : database) (f : StoredTunnel → bool) : option StoredTunnel :=
  snd <$> list_find (λ t, f t = true) (map_to_list (tunnels db)).*2 .

Definition exists_where (db : database) (f : StoredTunnel → bool) : bool :=
  existsb (λ kt, f kt.2) (map_to_list (tunnels db)).

(** *** Ingress resources *)

Definition httpDomainResourceConflictError : goerror :=
  Errorf "HTTP domain is already occupied by a conflicting tunnel" [].

(** The rows of [tunnels], ordered by id. *)
Definition rows_by_id (db : database) (f : StoredTunnel → bool) : list StoredTunnel :=
  sort_by st_ID (filter (λ t, f t = true) (map_to_list (tunnels db)).*2).

Fixpoint first_conflict (candidate : StoredTunnel) (rows : list StoredTunnel)
  : result (option StoredTunnel) :=
  match rows with
  | [] => Ok None
  | row :: rows =>
      existing ← scan row;
      if httpDomainsConflict unicode_lower (tunnelIngressDomain js unicode_lower candidate)
           (st_OwnerUserID candidate) (tunnelIngressDomain js unicode_lower existing)
           (st_OwnerUserID existing)
      then Ok (Some existing) else first_conflict candidate rows
  end.

Definition findHTTPIngressConflict (db : database) (candidate : StoredTunnel) (excludeID : string)
  : result (option StoredTunnel) :=
  let excludeID := default_string excludeID (st_ID candidate) in
  let location := default_string (ep_Location (st_Ingress candidate)) "server" in
  first_conflict candidate
    (rows_by_id db (λ t, (ep_Type (st_Ingress t) =?s IngressTypeHTTPHost)
       && (ep_Location (st_Ingress t) =?s location)
       && (ep_ClientID (st_Ingress t) =?s ep_ClientID (st_Ingress candidate))
       && negb (st_ID t =?s excludeID))).

(** Some lock of another tunnel with one of the keys or matching a pattern. *)
Definition locked_by_other (db : database) (keys patterns : list string) (id : string)
  : option string :=
  fst <$> head (filter (λ kl, (one_of kl.1 keys || existsb (λ p, sql_like p kl.1) patterns)
                              && negb (rl_tunnel_id kl.2 =?s id) = true)
                  (map_to_list (tunnel_resource_locks db))).

Definition checkTunnelIngressResourceConflictTx (db : database) (tunnel : StoredTunnel)
  : result unit :=
  if ep_Type (st_Ingress tunnel) =?s IngressTypeHTTPHost then
    conflict ← findHTTPIngressConflict db tunnel (st_ID tunnel);
    match conflict with
    | Some _ => Err httpDomainResourceConflictError
    | None => Ok tt
    end
  else
    let keys := tunnelIngressConflictKeys js unicode_lower tunnel in
    let patterns := tunnelIngressConflictPatterns js tunnel in
    match keys, patterns with
    | [], [] => Ok tt
    | _, _ => match locked_by_other db keys patterns (st_ID tunnel) with
              | Some existing => Err (Errorf "ingress resource conflict: %s" [AStr existing])
              | None => Ok tt
              end
    end.

Definition drop_locks (db : database) (id : string) : database :=
  db <| tunnel_resource_locks :=
          filter (λ kl, rl_tunnel_id kl.2 ≠ id) (tunnel_resource_locks db) |>.

Definition replaceTunnelResourceLocksTx (tunnel : StoredTunnel) (db : database) : result database :=
  let db := drop_locks db (st_ID tunnel) in
  let '(key, kind, clientID) := tunnelIngressResourceLock js unicode_lower tunnel in
  if key =?s "" then Ok db else
  _ ← checkTunnelIngressResourceConflictTx db tunnel;
  if bool_decide (is_Some (tunnel_resource_locks db !! key)) then Err ErrConstraint else
  Ok (db <| tunnel_resource_locks :=
              <[key := {| rl_tunnel_id := st_ID tunnel; rl_kind := kind; rl_client_id := clientID |}]>
                (tunnel_resource_locks db) |>).

(** *** Transactions *)

(** Statements that may fail, run in a transaction: the database afterwards
    and what the operation returns. *)
Definition transaction {A} (sql : option goerror) (db : database) (body : result (database * A))
  : database * result A :=
  match sql with
  | Some e => (db, Err e)
  | None => match body with
            | Ok (db', a) => (db', Ok a)
            | Err e => (db, Err e)
            end
  end.

(** *** Owners *)

Definition tunnelOwnerUserIDInTx (db : database) (clientID : string) : result string :=
  if clientID =?s "" then Err (Errorf "tunnel owner client id must not be empty" []) else
  match registered_clients db !! clientID with
  | None => Err ErrTunnelTargetClientNotFound
  | Some owner => match owner with
                  | Some o => if o =?s "" then Err (Errorf "registered client %q has no user owner" [AStr clientID])
                              else Ok o
                  | None => Err (Errorf "registered client %q has no user owner" [AStr clientID])
                  end
  end.

Definition ensureOperationalUserInTx (db : database) (userID : string) : result unit :=
  if userID =?s "" then Err ErrUserNotFound else
  match users db !! userID with
  | None => Err ErrUserNotFound
  | Some status => if negb (status =?s UserStatusActive) then Err ErrUserDisabled else Ok tt
  end.

Fixpoint check_endpoint_owners (db : database) (owner : string) (clientIDs : list string)
  : result unit :=
  match clientIDs with
  | [] => Ok tt
  | clientID :: rest =>
      ownerUserID ← tunnelOwnerUserIDInTx db clientID;
      if negb (ownerUserID =?s owner)
      then Err (Errorf "tunnel endpoint client %q belongs to another user" [AStr clientID])
      else check_endpoint_owners db owner rest
  end.

Definition validateTunnelClientOwnershipInTx (db : database) (tunnel : StoredTunnel) : result unit :=
  if st_OwnerUserID tunnel =?s ""
  then Err (Errorf "tunnel owner user id must not be empty" []) else
  check_endpoint_owners db (st_OwnerUserID tunnel)
    (ep_ClientID (st_Target tunnel) ::
     (if ep_Location (st_Ingress tunnel) =?s "client" then [ep_ClientID (st_Ingress tunnel)] else [])).

(** *** Adding and removing *)

Definition insertTunnelTx (tunnel : StoredTunnel) (db : database) : result database :=
  if st_OwnerUserID tunnel =?s ""
  then Err (Errorf "tunnel owner user id must not be empty" []) else
  if bool_decide (is_Some (tunnels db !! st_ID tunnel)) then Err ErrConstraint else
  write_row (row_of tunnel) db.

(** [newID] is the generated identifier; the activity record appended in the
    same transaction is part of [sql]. *)
Definition addTunnel (newID : result string) (sql : option goerror) (tunnel : StoredTunnel)
    (db : database) : database * result unit :=
  match (id ← (if st_ID tunnel =?s "" then newID else Ok (st_ID tunnel));
         normalize js unicode_lower now (tunnel <| st_ID := id |>)) with
  | Err e => (db, Err e)
  | Ok tunnel =>
      if (st_ClientID tunnel =?s "") || negb (st_Binding tunnel =?s TunnelBindingClientID)
      then (db, Err (Errorf "new tunnel must be bound with a stable client_id" [])) else
      if exists_where db (λ t, (st_ClientID t =?s st_ClientID tunnel) && (st_Name t =?s st_Name tunnel))
      then (db, Err (Errorf "tunnel %q already exists (client_id: %s)"
                       [AStr (st_Name tunnel); AStr (st_ClientID tunnel)])) else
      transaction sql db (
        owner ← (if st_OwnerUserID tunnel =?s ""
                 then tunnelOwnerUserIDInTx db (st_OwnerClientID tunnel)
                 else Ok (st_OwnerUserID tunnel));
        let tunnel := tunnel <| st_OwnerUserID := owner |> in
        _ ← ensureOperationalUserInTx db (st_OwnerUserID tunnel);
        _ ← validateTunnelClientOwnershipInTx db tunnel;
        db ← insertTunnelTx tunnel db;
        db ← replaceTunnelResourceLocksTx tunnel db;
        Ok (db, tt))
  end.

Definition AddTunnelForUser (newID : result string) (sql : option goerror) (ownerUserID : string)
    (tunnel : StoredTunnel) (db : database) : database * result unit :=
  if ownerUserID =?s "" then (db, Err (Errorf "tunnel owner user id must not be empty" []))
  else addTunnel newID sql (tunnel <| st_OwnerUserID := ownerUserID |>) db.

(** [DELETE] of the rows that meet the condition, with their locks. *)
Definition delete_where (f : StoredTunnel → bool) (db : database) : database :=
  let gone := filter (λ kt, f kt.2 = true) (tunnels db) in
  db <| tunnel_resource_locks :=
          filter (λ kl, gone !! rl_tunnel_id kl.2 = None) (tunnel_resource_locks db) |>
     <| tunnels := filter (λ kt, f kt.2 = false) (tunnels db) |>.

Definition RemoveTunnel (sql : option goerror) (clientID name : string) (db : database)
  : database * result unit :=
  let this t := (st_ClientID t =?s clientID) && (st_Name t =?s name) in
  if negb (exists_where db this)
  then (db, Err (Errorf "tunnel %q does not exist (client_id: %s)" [AStr name; AStr clientID]))
  else transaction sql db (Ok (delete_where this db, tt)).

Definition RemoveTunnelByID (sql : option goerror) (clientID id : string) (db : database)
  : database * result unit :=
  let this t := (st_ClientID t =?s clientID) && (st_ID t =?s id) in
  if negb (exists_where db this)
  then (db, Err (Errorf "tunnel id %q does not exist (client_id: %s)" [AStr id; AStr clientID]))
  else transaction sql db (Ok (delete_where this (drop_locks db id), tt)).

Definition uses_client (clientID : string) (t : StoredTunnel) : bool :=
  (st_ClientID t =?s clientID) || (st_OwnerClientID t =?s clientID)
  || (ep_ClientID (st_Ingress t) =?s clientID) || (ep_ClientID (st_Target t) =?s clientID).

(** The deletion that records an activity event: the tunnel is read first. *)
Definition RemoveTunnelByIDWithActivity (sql : option goerror) (clientID id : string) (db : database)
  : database * result unit :=
  let this t := (st_ClientID t =?s clientID) && (st_ID t =?s id) in
  transaction sql db (
    match select_where db this with
    | None => Err (Errorf "tunnel id %q does not exist (client_id: %s)" [AStr id; AStr clientID])
    | Some row => _ ← scan row; Ok (delete_where this (drop_locks db id), tt)
    end).

(** The deleted tunnels are returned; their order is not modelled. *)
Definition DeleteTunnelsByClientIDReturningDeleted (sql : option goerror) (clientID : string)
    (db : database) : database * result (list StoredTunnel) :=
  transaction sql db (
    deleted ← foldr (λ row acc, acc ← acc; t ← scan row; Ok (t :: acc)) (Ok [])
                (rows_by_id db (uses_client clientID));
    Ok (delete_where (uses_client clientID) db, deleted)).

(** *** Updates of the state columns *)

Definition setStoredTunnelStates (tunnel : StoredTunnel) (desiredState runtimeState errMsg : string)
  : panicking StoredTunnel :=
  let desiredState := canonicalDesiredState desiredState in
  _ ← mustValidateTunnelStates desiredState runtimeState errMsg;
  mret (tunnel <| st_DesiredState := desiredState |> <| st_RuntimeState := runtimeState |>
               <| st_Error := tunnelErrorForRuntimeState runtimeState errMsg |>).

(** [UPDATE tunnels SET g WHERE f], for columns that are in no unique
    constraint, and whether it affected a row. *)
Definition update_where (f : StoredTunnel → bool) (g : StoredTunnel → StoredTunnel) (db : database)
  : result (database * bool) :=
  let hit := filter (λ kt, f kt.2 = true) (tunnels db) in
  if forallb (λ kt, row_checks (g kt.2)) (map_to_list hit)
  then Ok (db <| tunnels := (λ t, if f t then g t else t) <$> tunnels db |>, bool_decide (hit ≠ ∅))
  else Err ErrConstraint.

(** The columns of [normalized] and of the transport that follows from it. *)
Definition state_columns (normalized row : StoredTunnel) : StoredTunnel :=
  let runtime := storageRuntimeStateFromProtocol (st_RuntimeState normalized) in
  row <| st_DesiredState := st_DesiredState normalized |>
      <| st_RuntimeState := runtime |>
      <| st_Error := st_Error normalized |>
      <| st_ActualTransport := if runtime =?s "active" then ActualTransportServerRelay
                               else ActualTransportUnknown |>
      <| st_UpdatedAt := now |>.

(** The zero tunnel whose states are set. *)
Definition states_only (desiredState runtimeState errMsg : string) : panicking StoredTunnel :=
  setStoredTunnelStates {|
    st_ID := ""; st_Name := ""; st_Type := ""; st_LocalIP := ""; st_LocalPort := 0;
    st_RemotePort := 0; st_BindIP := ""; st_Domain := "";
    st_Bandwidth := {| IngressBPS := 0; EgressBPS := 0; TotalBPS := 0 |};
    st_DesiredState := ""; st_RuntimeState := ""; st_Error := ""; st_ClientID := "";
    st_Hostname := ""; st_Binding := TunnelBindingClientID; st_CreatedAt := 0; st_Revision := 0;
    st_Topology := ""; st_OwnerClientID := "";
    st_Ingress := {| ep_Location := ""; ep_ClientID := ""; ep_Type := ""; ep_Config := "" |};
    st_Target := {| ep_Location := ""; ep_ClientID := ""; ep_Type := ""; ep_Config := "" |};
    st_TransportPolicy := ""; st_ActualTransport := "";
    st_P2P := {| p2p_State := ""; p2p_Error := ""; p2p_SessionID := "" |};
    st_OwnerUserID := ""; st_CreatedByUserID := ""; st_UpdatedAt := 0
  |} desiredState runtimeState errMsg.

Definition UpdateStates (sql : option goerror) (clientID name desiredState runtimeState errMsg : string)
    (db : database) : panicking (database * result unit) :=
  let this t := (st_ClientID t =?s clientID) && (st_Name t =?s name) in
  let missing := Errorf "tunnel %q does not exist (client_id: %s)" [AStr name; AStr clientID] in
  if negb (exists_where db this) then mret (db, Err missing) else
  normalized ← states_only desiredState runtimeState errMsg;
  mret (transaction sql db (
    '(db, affected) ← update_where this (state_columns normalized) db;
    if affected : bool then Ok (db, tt) else Err missing)).

Definition UpdateStatesIfCurrent (sql : option goerror) (clientID id : string) (revision : Z)
    (desiredState runtimeState errMsg : string) (db : database)
  : panicking (database * result bool) :=
  normalized ← states_only desiredState runtimeState errMsg;
  mret (transaction sql db
    (update_where (λ t, (st_ClientID t =?s clientID) && (st_ID t =?s id) && (st_Revision t =? revision)
                        && (st_DesiredState t =?s st_DesiredState normalized))
       (state_columns normalized) db)).

Definition TransitionRuntimeStateIfCurrent (sql : option goerror) (clientID id : string) (revision : Z)
    (desiredState expectedRuntimeState runtimeState errMsg : string) (db : database)
  : panicking (database * result bool) :=
  normalized ← states_only desiredState runtimeState errMsg;
  mret (transaction sql db
    (update_where (λ t, (st_ClientID t =?s clientID) && (st_ID t =?s id) && (st_Revision t =? revision)
                        && (st_DesiredState t =?s st_DesiredState normalized)
                        && (st_RuntimeState t =?s storageRuntimeStateFromProtocol expectedRuntimeState))
       (state_columns normalized) db)).

(** [UpdateTunnelStatesWithActivity] after the validation of its action: the
    states change unless they are current already; the update is conditional
    on the row that was read. *)
Definition unchanged_states (before after row : StoredTunnel) : bool :=
  (st_DesiredState before =?s st_DesiredState after)
  && (storageRuntimeStateFromProtocol (st_RuntimeState before) =?s st_RuntimeState row)
  && (st_Error before =?s st_Error after) && (st_ActualTransport before =?s st_ActualTransport row).

Definition still_as_read (before row : StoredTunnel) : bool :=
  (st_Revision row =? st_Revision before) && (st_DesiredState row =?s st_DesiredState before)
  && (st_RuntimeState row =?s storageRuntimeStateFromProtocol (st_RuntimeState before))
  && (st_Error row =?s st_Error before) && (st_ActualTransport row =?s st_ActualTransport before).

Definition UpdateTunnelStatesWithActivity (sql : option goerror)
    (clientID id desiredState runtimeState errMsg action : string) (db : database)
  : panicking (database * result StoredTunnel) :=
  let this t := (st_ClientID t =?s clientID) && (st_ID t =?s id) in
  if negb (one_of action ["stopped"; "resumed"]%string)
  then mret (db, Err (Errorf "unsupported authoritative tunnel state action %q" [AStr action])) else
  match select_where db this with
  | None => mret (db, Err ErrTunnelNotFound)
  | Some row =>
      match (before ← scan row;
             _ ← (if action =?s "resumed" then ensureOperationalUserInTx db (st_OwnerUserID before)
                  else Ok tt);
             Ok before) with
      | Err e => mret (db, Err e)
      | Ok before =>
          normalized ← setStoredTunnelStates before desiredState runtimeState errMsg;
          let written := state_columns normalized row in
          let after := normalized <| st_ActualTransport := st_ActualTransport written |> in
          if unchanged_states before after written then mret (transaction sql db (Ok (db, before))) else
          mret (transaction sql db (
            '(db, affected) ← update_where (λ t, this t && still_as_read before t)
                                (state_columns normalized) db;
            if affected : bool then Ok (db, after <| st_UpdatedAt := now |>)
            else Err ErrTunnelRevisionConflict))
      end
  end.

Definition UpdateHostname (sql : option goerror) (clientID hostname : string) (db : database)
  : database * result unit :=
  let this t := (st_ClientID t =?s clientID) && negb (st_Hostname t =?s hostname) in
  if negb (exists_where db this) then (db, Ok tt) else
  transaction sql db (
    '(db, _) ← update_where this (λ t, t <| st_Hostname := hostname |> <| st_UpdatedAt := now |>) db;
    Ok (db, tt)).

(** *** Updates of the configuration *)

(** The mutable fields of the older update calls; only one of the calls sets
    the name, and only one the revision. *)
Record tunnel_edit := {
  ed_Name : string; ed_LocalIP : string; ed_LocalPort : Z; ed_RemotePort : Z; ed_Domain : string;
  ed_IngressBPS : Z; ed_EgressBPS : Z;
}.

Definition apply_edit (name : string) (revision : Z) (ed : tunnel_edit) (t : StoredTunnel)
  : StoredTunnel :=
  t <| st_Name := name |> <| st_Revision := revision |> <| st_LocalIP := ed_LocalIP ed |> <| st_LocalPort := ed_LocalPort ed |>
    <| st_RemotePort := ed_RemotePort ed |> <| st_Domain := ed_Domain ed |>
    <| st_Bandwidth := {| IngressBPS := ed_IngressBPS ed; EgressBPS := ed_EgressBPS ed;
                          TotalBPS := TotalBPS (st_Bandwidth t) |} |>
    <| st_UpdatedAt := now |>.

(** The columns these calls write, from the edited and normalised tunnel. *)
Definition edit_columns (revision : Z) (stored row : StoredTunnel) : StoredTunnel :=
  row <| st_Revision := revision |> <| st_Name := st_Name stored |> <| st_LocalIP := st_LocalIP stored |>
      <| st_LocalPort := st_LocalPort stored |> <| st_RemotePort := st_RemotePort stored |>
      <| st_Domain := st_Domain stored |>
      <| st_Bandwidth := {| IngressBPS := IngressBPS (st_Bandwidth stored);
                            EgressBPS := EgressBPS (st_Bandwidth stored);
                            TotalBPS := TotalBPS (st_Bandwidth row) |} |>
      <| st_Ingress := (st_Ingress row) <| ep_Config := ep_Config (st_Ingress stored) |> |>
      <| st_Target := (st_Target row) <| ep_Config := ep_Config (st_Target stored) |> |>
      <| st_UpdatedAt := st_UpdatedAt stored |>.

(** Writes a row of the edited tunnel, then its locks. *)
Definition write_edit (row stored : StoredTunnel) (db : database) : result (database * StoredTunnel) :=
  db ← write_row row db;
  db ← replaceTunnelResourceLocksTx stored db;
  Ok (db, stored).

Definition UpdateTunnel (sql : option goerror) (clientID name : string) (ed : tunnel_edit)
    (db : database) : database * result StoredTunnel :=
  match select_where db (λ t, (st_ClientID t =?s clientID) && (st_Name t =?s name)) with
  | None => (db, Err (Errorf "tunnel %q does not exist (client_id: %s)" [AStr name; AStr clientID]))
  | Some row =>
      transaction sql db (
        stored ← scan row;
        stored ← normalize js unicode_lower now
                   (apply_edit (st_Name stored) (st_Revision stored) ed stored);
        write_edit (edit_columns (st_Revision row) stored row) stored db)
  end.

Definition UpdateTunnelByID (sql : option goerror) (clientID id : string) (ed : tunnel_edit)
    (db : database) : database * result StoredTunnel :=
  match select_where db (λ t, (st_ClientID t =?s clientID) && (st_ID t =?s id)) with
  | None => (db, Err (Errorf "tunnel id %q does not exist (client_id: %s)" [AStr id; AStr clientID]))
  | Some row =>
      transaction sql db (
        stored ← scan row;
        stored ← normalize js unicode_lower now
                   (apply_edit (ed_Name ed) (st_Revision stored) ed stored);
        write_edit (edit_columns (st_Revision row) stored row) stored db)
  end.

Definition UpdateTunnelByIDWithRevision (sql : option goerror) (clientID id : string)
    (expectedRevision : Z) (ed : tunnel_edit) (db : database) : database * result StoredTunnel :=
  match select_where db (λ t, (st_ClientID t =?s clientID) && (st_ID t =?s id)) with
  | None => (db, Err (Errorf "tunnel id %q does not exist (client_id: %s)" [AStr id; AStr clientID]))
  | Some row =>
      transaction sql db (
        stored ← scan row;
        if expectedRevision <=? 0 then Err (Errorf "expected revision is required" []) else
        if negb (st_Revision stored =? expectedRevision) then Err ErrTunnelRevisionConflict else
        stored ← normalize js unicode_lower now
                   (apply_edit (ed_Name ed) (st_Revision stored + 1) ed stored);
        if negb (st_Revision row =? expectedRevision) then Err ErrTunnelRevisionConflict else
        write_edit (edit_columns (st_Revision stored) stored row) stored db)
  end.

(** The full [UPDATE]: the columns it does not list keep their value; only a
    migration writes the client. *)
Definition replace_columns (clientID : string) (replacement row : StoredTunnel) : StoredTunnel :=
  (row_of replacement) <| st_ClientID := clientID |> <| st_ID := st_ID row |> <| st_Hostname := st_Hostname row |>
    <| st_Binding := st_Binding row |> <| st_CreatedByUserID := st_CreatedByUserID row |>
    <| st_OwnerUserID := st_OwnerUserID row |> <| st_CreatedAt := st_CreatedAt row |>.

(** What a replacement takes from its position and from the tunnel it
    replaces; the revision is [int64] and assumed not to overflow. *)
Definition replacement_at (clientID id : string) (r : StoredTunnel) : StoredTunnel :=
  r <| st_ID := id |> <| st_ClientID := default_string (st_ClientID r) clientID |>.

Definition replacement_of (existing : StoredTunnel) (revision : Z) (r : StoredTunnel) : StoredTunnel :=
  r <| st_Revision := revision |>
    <| st_CreatedAt := if is_zero_time (st_CreatedAt r) then st_CreatedAt existing
                       else st_CreatedAt r |>
    <| st_OwnerUserID := default_string (st_OwnerUserID r) (st_OwnerUserID existing) |>.

Definition migration_of (existing : StoredTunnel) (id : string) (revision : Z) (r : StoredTunnel)
  : StoredTunnel :=
  r <| st_ID := id |> <| st_Revision := revision |> <| st_CreatedAt := st_CreatedAt existing |>
    <| st_CreatedByUserID := st_CreatedByUserID existing |>
    <| st_OwnerUserID := st_OwnerUserID existing |> <| st_Hostname := st_Hostname existing |>
    <| st_Binding := st_Binding existing |>.

Definition touched (r : StoredTunnel) : StoredTunnel :=
  r <| st_UpdatedAt := if is_zero_time (st_UpdatedAt r) then now else st_UpdatedAt r |>.

Definition replaceTunnelByID (sql : option goerror) (clientID id : string) (expectedRevision : Z)
    (replacement : StoredTunnel) (db : database) : database * result unit :=
  if expectedRevision <=? 0 then (db, Err (Errorf "expected revision is required" [])) else
  match select_where db (λ t, (st_ClientID t =?s clientID) && (st_ID t =?s id)) with
  | None => (db, Err ErrTunnelNotFound)
  | Some row =>
      transaction sql db (
        existing ← scan row;
        if negb (st_Revision existing =? expectedRevision) then Err ErrTunnelRevisionConflict else
        let r := replacement_at clientID id replacement in
        if negb (st_ClientID r =?s clientID)
        then Err (Errorf "replacement client_id cannot change" []) else
        let r := replacement_of existing (expectedRevision + 1) r in
        if negb (st_OwnerUserID r =?s st_OwnerUserID existing)
        then Err (Errorf "replacement owner_user_id cannot change" []) else
        r ← normalize js unicode_lower now (touched r);
        _ ← ensureOperationalUserInTx db (st_OwnerUserID existing);
        _ ← validateTunnelClientOwnershipInTx db r;
        if negb (st_Revision row =? expectedRevision) then Err ErrTunnelRevisionConflict else
        db ← write_row (replace_columns (st_ClientID row) r row) db;
        db ← replaceTunnelResourceLocksTx r db;
        Ok (db, tt))
  end.

(** Returns the tunnel before and after; the traffic of the tunnel is reset
    at the new revision ([Traffic.ResetTunnel]) when it succeeds. *)
Definition migrateTunnelTargetByID (sql : option goerror) (id : string) (expectedRevision : Z)
    (replacement : StoredTunnel) (db : database) : database * result (StoredTunnel * StoredTunnel) :=
  if expectedRevision <=? 0 then (db, Err (Errorf "expected revision is required" [])) else
  match tunnels db !! id with
  | None => (db, Err ErrTunnelNotFound)
  | Some row =>
      transaction sql db (
        existing ← scan row;
        if negb (st_Revision existing =? expectedRevision) then Err ErrTunnelRevisionConflict else
        if st_RuntimeState existing =?s ProxyRuntimeStatePending
        then Err ErrTunnelMigrationPending else
        let r := migration_of existing id (expectedRevision + 1) replacement in
        r ← normalize js unicode_lower now (touched r);
        if exists_where db (λ t, (st_OwnerClientID t =?s st_OwnerClientID r)
                                 && (st_Name t =?s st_Name r) && negb (st_ID t =?s id))
        then Err ErrTunnelOwnerNameConflict else
        if bool_decide (registered_clients db !! ep_ClientID (st_Target r) = None)
        then Err ErrTunnelTargetClientNotFound else
        _ ← ensureOperationalUserInTx db (st_OwnerUserID existing);
        _ ← validateTunnelClientOwnershipInTx db r;
        if negb (st_Revision row =? expectedRevision) then Err ErrTunnelRevisionConflict else
        let written := replace_columns (st_ClientID r) r row in
        db ← write_row written db;
        db ← replaceTunnelResourceLocksTx r db;
        after ← scan written;
        Ok (db, (existing, after)))
  end.

(** *** Peer-to-peer projection *)

Definition p2pProjectionValues (stored : StoredTunnel) (transition : P2PProjectionTransition)
  : P2PState * string :=
  let preferred := st_TransportPolicy stored =?s TransportPolicyDirectPreferred in
  let mode := tr_Mode transition in
  let state s := {| p2p_State := s; p2p_Error := ""; p2p_SessionID := tr_SessionID transition |} in
  if mode =?s P2PProjectionGathering then
    (state P2PStateGathering,
     if preferred then ActualTransportServerRelay else ActualTransportUnknown)
  else if mode =?s P2PProjectionReady then (state P2PStateConnected, ActualTransportPeerDirect)
  else if mode =?s P2PProjectionFailed then
    if preferred then (state P2PStateFallback, ActualTransportServerRelay)
    else (state P2PStateFailed, ActualTransportUnknown)
  else if mode =?s P2PProjectionClosed then
    ({| p2p_State := P2PStateClosed; p2p_Error := ""; p2p_SessionID := "" |},
     if preferred && negb (st_DesiredState stored =?s ProxyDesiredStateStopped)
     then ActualTransportServerRelay else ActualTransportUnknown)
  else ({| p2p_State := p2p_State (st_P2P stored); p2p_Error := p2p_Error (st_P2P stored);
           p2p_SessionID := tr_SessionID transition |}, st_ActualTransport stored).

Record P2PProjectionChange := { ch_Before : StoredTunnel; ch_After : StoredTunnel }.
Record P2PProjectionResult := { pr_Changes : list P2PProjectionChange; pr_Stale : list p2pGrantSnapshot }.

(** One grant of [ApplyP2PLifecycle]. *)
Definition project_grant (expectedSessionID : string) (transition : P2PProjectionTransition)
    (grant : p2pGrantSnapshot) (st : database * P2PProjectionResult)
  : result (database * P2PProjectionResult) :=
  let '(db, r) := st in
  let stale := Ok (db, {| pr_Changes := pr_Changes r; pr_Stale := pr_Stale r ++ [grant] |}) in
  match tunnels db !! gn_TunnelID grant with
  | None => stale
  | Some row =>
      if negb (st_Revision row =? gn_Revision grant) then stale else
      before ← scan row;
      if negb (expectedSessionID =?s "")
         && negb (p2p_SessionID (st_P2P before) =?s expectedSessionID) then stale else
      let '(p2p, actualTransport) := p2pProjectionValues before transition in
      if bool_decide (st_P2P before = p2p) && (st_ActualTransport before =?s actualTransport)
      then Ok (db, r) else
      '(db, affected) ← update_where
        (λ t, (st_ID t =?s gn_TunnelID grant) && (st_Revision t =? gn_Revision grant)
              && ((expectedSessionID =?s "") || (p2p_SessionID (st_P2P t) =?s expectedSessionID)))
        (λ t, t <| st_P2P := p2p |> <| st_ActualTransport := actualTransport |>
                <| st_UpdatedAt := now |>) db;
      if negb affected
      then Ok (db, {| pr_Changes := pr_Changes r; pr_Stale := pr_Stale r ++ [grant] |}) else
      let after := before <| st_P2P := p2p |> <| st_ActualTransport := actualTransport |> in
      Ok (db, {| pr_Changes := pr_Changes r ++ [{| ch_Before := before; ch_After := after |}];
                 pr_Stale := pr_Stale r |})
  end.

Fixpoint project_grants (expectedSessionID : string) (transition : P2PProjectionTransition)
    (grants : list p2pGrantSnapshot) (st : database * P2PProjectionResult)
  : result (database * P2PProjectionResult) :=
  match grants with
  | [] => Ok st
  | grant :: grants =>
      st ← project_grant expectedSessionID transition grant st;
      project_grants expectedSessionID transition grants st
  end.

Definition ApplyP2PLifecycle (sql : option goerror) (grants : list p2pGrantSnapshot)
    (expectedSessionID : string) (transition : P2PProjectionTransition) (db : database)
  : database * result P2PProjectionResult :=
  let none := {| pr_Changes := []; pr_Stale := [] |} in
  match grants with
  | [] => (db, Ok none)
  | _ => transaction sql db (project_grants expectedSessionID transition grants (db, none))
  end.

(** *** Reading *)

Definition found (row : option StoredTunnel) : result StoredTunnel :=
  match row with Some row => scan row | None => Err ErrTunnelNotFound end.

Definition GetTunnelE (db : database) (clientID name : string) : result StoredTunnel :=
  found (select_where db (λ t, (st_ClientID t =?s clientID) && (st_Name t =?s name))).
Definition GetTunnelByIDE (db : database) (clientID id : string) : result StoredTunnel :=
  found (select_where db (λ t, (st_ClientID t =?s clientID) && (st_ID t =?s id))).
Definition GetTunnelByID (db : database) (id : string) : result StoredTunnel :=
  found (select_where db (λ t, st_ID t =?s id)).
Definition GetTunnelByIDForUser (db : database) (ownerUserID id : string) : result StoredTunnel :=
  found (select_where db (λ t, (st_ID t =?s id) && (st_OwnerUserID t =?s ownerUserID))).

Fixpoint scanStoredTunnelRows (rows : list StoredTunnel) : result (list StoredTunnel) :=
  match rows with
  | [] => Ok []
  | row :: rows => t ← scan row; ts ← scanStoredTunnelRows rows; Ok (t :: ts)
  end.

(** Times are stored as text, [format_time], and compared as such. *)
Section Listings.
Context (format_time : Z → string).

(** [ORDER BY created_at DESC, name] *)
Definition newest_first (a b : StoredTunnel) : Prop :=
  let created t := format_time (st_CreatedAt t) in
  (created b <?s created a) = true ∨
  created a = created b ∧ String.le (st_Name a) (st_Name b).
#[local] Instance newest_first_dec a b : Decision (newest_first a b).
Proof. unfold newest_first. apply _. Defined.

Definition by_client (a b : StoredTunnel) : Prop :=
  (st_ClientID a <?s st_ClientID b) = true ∨ st_ClientID a = st_ClientID b ∧ newest_first a b.
#[local] Instance by_client_dec a b : Decision (by_client a b).
Proof. unfold by_client. apply _. Defined.

Definition rows_where (db : database) (f : StoredTunnel → bool) : list StoredTunnel :=
  filter (λ t, f t = true) (map_to_list (tunnels db)).*2 .

Definition GetTunnelsByClientID (db : database) (clientID : string) : result (list StoredTunnel) :=
  scanStoredTunnelRows (merge_sort newest_first (rows_where db (λ t, st_ClientID t =?s clientID))).
Definition GetTunnelsByUserID (db : database) (ownerUserID : string) : result (list StoredTunnel) :=
  scanStoredTunnelRows (merge_sort newest_first (rows_where db (λ t, st_OwnerUserID t =?s ownerUserID))).
Definition GetTunnelsByHostname (db : database) (hostname : string) : result (list StoredTunnel) :=
  scanStoredTunnelRows (merge_sort by_client (rows_where db (λ t, st_Hostname t =?s hostname))).
Definition GetAllTunnels (db : database) : result (list StoredTunnel) :=
  scanStoredTunnelRows (merge_sort by_client (rows_where db (λ _, true))).

(** The check before a write: the newest tunnel in conflict. *)
Definition findIngressResourceConflict (db : database) (candidate : StoredTunnel) (excludeID : string)
  : result (option StoredTunnel) :=
  if ep_Type (st_Ingress candidate) =?s IngressTypeHTTPHost
  then findHTTPIngressConflict db candidate excludeID else
  let keys := tunnelIngressConflictKeys js unicode_lower candidate in
  let patterns := tunnelIngressConflictPatterns js candidate in
  match keys, patterns with
  | [], [] => Ok None
  | _, _ =>
      let excludeID := default_string excludeID (st_ID candidate) in
      let locks t := existsb (λ kl, (one_of kl.1 keys || existsb (λ p, sql_like p kl.1) patterns)
                                    && (rl_tunnel_id kl.2 =?s st_ID t)
                                    && ((excludeID =?s "") || negb (rl_tunnel_id kl.2 =?s excludeID)))
                       (map_to_list (tunnel_resource_locks db)) in
      match merge_sort newest_first (rows_where db locks) with
      | [] => Ok None
      | row :: _ => t ← scan row; Ok (Some t)
      end
  end.
End Listings.

(** *** Routing by host *)

Definition host_lock_keys (candidates : list string) : list string :=
  candidates ≫= λ c, ["ingress:server:http_host:" +:+ c; "ingress:server:http_host:" +:+ c +:+ "."]%string.

(** The position of the pattern among the candidates. *)
Definition rank_of (domain : string) (candidates : list string) : option nat :=
  fst <$> list_find (λ c, c = domain) candidates.

Fixpoint best_claim (candidates : list string) (rows : list StoredTunnel)
    (best : option (StoredTunnel * nat)) : result (option (StoredTunnel * nat)) :=
  match rows with
  | [] => Ok best
  | row :: rows =>
      stored ← scan row;
      if negb (ep_Type (st_Ingress stored) =?s IngressTypeHTTPHost)
         || negb (ep_Location (st_Ingress stored) =?s "server")
      then best_claim candidates rows best else
      let bestRank := match best with Some (_, r) => r | None => length candidates end in
      match rank_of (canonicalHTTPDomain unicode_lower (tunnelIngressDomain js unicode_lower stored))
              candidates with
      | Some rank => best_claim candidates rows
                       (if (rank <? bestRank)%nat then Some (stored, rank) else best)
      | None => best_claim candidates rows best
      end
  end.

Definition findHTTPDomainClaim (db : database) (host : string) : result (option StoredTunnel) :=
  let candidates := httpDomainCandidates unicode_lower host in
  match candidates with
  | [] => Ok None
  | _ =>
      let keys := host_lock_keys candidates in
      let rows := rows_by_id db (λ t,
        existsb (λ kl, one_of kl.1 keys && (rl_tunnel_id kl.2 =?s st_ID t))
          (map_to_list (tunnel_resource_locks db))) in
      match best_claim candidates rows None with
      | Ok (Some (claim, _)) => Ok (Some claim)
      | Ok None => Ok None
      | Err e => Err e
      end
  end.
End TunnelStore.
