(* ===== verification/TunnelStoreInv.v ===== *)
(** The invariant of the tunnel store: every row can be read back, names are
    unique, the locks are exactly those of the rows, and no two tunnels occupy
    the same ingress.  Every operation preserves it, since each is one of
    three changes of the database: a row written with its locks, rows deleted,
    or rows updated outside the columns the locks come from. *)
From Stdlib Require Import ZArith Lia Ascii String.
From stdpp Require Import base tactics numbers list gmap strings sorting pretty.
From S2P Require Import Prelude Records GoStrings Protocol TunnelState HTTPDomains TunnelSpec Coordinator TunnelStore.

(** ** Lists of rows *)

Lemma forallb_map {A} (f : string * A → bool) (m : gmap string A) :
  forallb f (map_to_list m) = true ↔ ∀ k x, m !! k = Some x → f (k, x) = true.
Proof.
  rewrite forallb_forall. split.
  - intros H k x Hk. apply H, list_elem_of_In. by apply elem_of_map_to_list.
  - intros H [k x] Hk%list_elem_of_In%elem_of_map_to_list. by apply H.
Qed.
Lemma existsb_map {A} (f : string * A → bool) (m : gmap string A) :
  existsb f (map_to_list m) = true ↔ ∃ k x, m !! k = Some x ∧ f (k, x) = true.
Proof.
  rewrite existsb_exists. split.
  - intros ([k x] & Hk%list_elem_of_In%elem_of_map_to_list & H). by exists k, x.
  - intros (k & x & Hk & H). exists (k, x). split; [|done]. by apply list_elem_of_In, elem_of_map_to_list.
Qed.
Lemma elem_of_rows {A} (m : gmap string A) x : x ∈ (map_to_list m).*2 ↔ ∃ k, m !! k = Some x.
Proof.
  rewrite list_elem_of_fmap. split.
  - intros ([k y] & -> & Hk%elem_of_map_to_list). by exists k.
  - intros (k & Hk). exists (k, x). split; [done|]. by apply elem_of_map_to_list.
Qed.
Lemma elem_of_rows_by_id db f t :
  t ∈ rows_by_id db f ↔ f t = true ∧ ∃ id, tunnels db !! id = Some t.
Proof.
  unfold rows_by_id. rewrite sort_by_perm, list_elem_of_filter. by rewrite elem_of_rows.
Qed.
Lemma exists_where_false db f :
  exists_where db f = false → ∀ id t, tunnels db !! id = Some t → f t = false.
Proof.
  unfold exists_where. intros H id t Hid. apply not_true_is_false. intros Hf.
  assert (existsb (λ kt : string * StoredTunnel, f kt.2) (map_to_list (tunnels db)) = true)
    by (apply existsb_map; by exists id, t). congruence.
Qed.
Lemma select_where_Some db f t :
  select_where db f = Some t → f t = true ∧ ∃ id, tunnels db !! id = Some t.
Proof.
  unfold select_where. intros ([i t'] & (Hi & Hf & _)%list_find_Some & ->)%fmap_Some. cbn. split; [done|].
  apply elem_of_rows. by eapply list_elem_of_lookup_2.
Qed.

(** ** What occupies an ingress *)

(** The columns the locks come from. *)
Definition same_resource (t t' : StoredTunnel) : Prop :=
  st_Ingress t = st_Ingress t' ∧ st_RemotePort t = st_RemotePort t' ∧ st_Domain t = st_Domain t'.

Section Resources.
Context (js : store_json) (unicode_lower : string → string).
Abbreviation domain_of := (tunnelIngressDomain js unicode_lower).
Abbreviation key_of := (lock_key js unicode_lower).

Lemma same_resource_lock t t' :
  same_resource t t' →
  tunnelIngressResourceLock js unicode_lower t = tunnelIngressResourceLock js unicode_lower t'.
Proof.
  intros (E1 & E2 & E3). unfold tunnelIngressResourceLock, tunnelIngressPort, tunnelIngressBindIP,
    tunnelIngressDomain, location_id, listens, ingress_proto. by rewrite E1, E2, E3.
Qed.
Lemma same_resource_key t t' : same_resource t t' → key_of t = key_of t'.
Proof. intros H. unfold lock_key. by rewrite (same_resource_lock _ _ H). Qed.
Lemma same_resource_domain t t' : same_resource t t' → domain_of t = domain_of t'.
Proof. intros (E1 & E2 & E3). unfold tunnelIngressDomain. by rewrite E1, E3. Qed.

(** Two listeners that cannot both be bound. *)
Record ports_clash (t t' : StoredTunnel) : Prop := {
  pc_listens : listens t = true ∧ listens t' = true;
  pc_location : location_id t = location_id t';
  pc_proto : ingress_proto t = ingress_proto t';
  pc_port : tunnelIngressPort js t = tunnelIngressPort js t' ∧ 0 < tunnelIngressPort js t;
  pc_address : tunnelIngressBindIP js t = tunnelIngressBindIP js t' ∨
               tunnelIngressBindIP js t = "0.0.0.0"%string ∨
               tunnelIngressBindIP js t' = "0.0.0.0"%string;
}.

(** Two HTTP tunnels that one host could mean, unless one user owns both and
    their patterns differ. *)
Record domains_clash (t t' : StoredTunnel) : Prop := {
  dc_http : ep_Type (st_Ingress t) = IngressTypeHTTPHost ∧ ep_Type (st_Ingress t') = IngressTypeHTTPHost;
  dc_location : ep_Location (st_Ingress t) = ep_Location (st_Ingress t') ∧
                ep_ClientID (st_Ingress t) = ep_ClientID (st_Ingress t');
  dc_named : canonicalHTTPDomain unicode_lower (domain_of t) ≠ ""%string ∧
             canonicalHTTPDomain unicode_lower (domain_of t') ≠ ""%string;
  dc_conflict : httpDomainsConflict unicode_lower (domain_of t) (st_OwnerUserID t)
                  (domain_of t') (st_OwnerUserID t') = true;
}.

Lemma ports_clash_sym t t' : ports_clash t t' → ports_clash t' t.
Proof. intros [[? ?] ? ? [? ?] ?]. split; [done|done|done|lia|]. naive_solver. Qed.

Lemma httpDomainsOverlap_sym l r :
  httpDomainsOverlap unicode_lower l r = httpDomainsOverlap unicode_lower r l.
Proof. apply eq_bool_prop_intro. rewrite !Is_true_true, !overlap_spec. split; apply labels_overlap_sym. Qed.

Lemma httpDomainsConflict_sym l lo r ro :
  httpDomainsConflict unicode_lower l lo r ro = httpDomainsConflict unicode_lower r ro l lo.
Proof.
  unfold httpDomainsConflict. rewrite (httpDomainsOverlap_sym l r). destruct (negb _); [done|].
  rewrite (String.eqb_sym (canonicalHTTPDomain _ l)), (String.eqb_sym lo ro).
  destruct (_ =?s _), (lo =?s ""), (ro =?s ""); done.
Qed.

Lemma domains_clash_sym t t' : domains_clash t t' → domains_clash t' t.
Proof.
  intros [[? ?] [? ?] [? ?] ?]. split; try done. by rewrite httpDomainsConflict_sym.
Qed.

(** ** The invariant *)

Record store_ok (db : database) : Prop := {
  so_rows : ∀ id t, tunnels db !! id = Some t → st_ID t = id ∧ row_normal js unicode_lower t;
  so_names : ∀ id t id' t', tunnels db !! id = Some t → tunnels db !! id' = Some t' → id ≠ id' →
    (st_ClientID t, st_Name t) ≠ (st_ClientID t', st_Name t') ∧
    (st_OwnerClientID t, st_Name t) ≠ (st_OwnerClientID t', st_Name t');
  so_locks : ∀ key l, tunnel_resource_locks db !! key = Some l →
    ∃ t, tunnels db !! rl_tunnel_id l = Some t ∧ key_of t = key;
  so_locked : ∀ id t, tunnels db !! id = Some t → key_of t ≠ ""%string →
    ∃ l, tunnel_resource_locks db !! key_of t = Some l ∧ rl_tunnel_id l = id;
  so_exclusive : ∀ id t id' t', tunnels db !! id = Some t → tunnels db !! id' = Some t' → id ≠ id' →
    ¬ ports_clash t t' ∧ ¬ domains_clash t t';
}.

Lemma empty_store_ok u c :
  store_ok {| tunnels := ∅; tunnel_resource_locks := ∅; users := u; registered_clients := c |}.
Proof. split; cbn; intros *; by rewrite lookup_empty. Qed.

(** The tables the invariant does not mention. *)
Lemma store_ok_accounts db u c :
  store_ok db → store_ok {| tunnels := tunnels db; tunnel_resource_locks := tunnel_resource_locks db;
                            users := u; registered_clients := c |}.
Proof. by intros []. Qed.

(** *** Deleting rows *)

Lemma store_ok_delete f db : store_ok db → store_ok (delete_where f db).
Proof.
  intros H. unfold delete_where.
  assert (Ht : ∀ id t, filter (λ kt : string * StoredTunnel, f kt.2 = false) (tunnels db) !! id = Some t
                       ↔ tunnels db !! id = Some t ∧ f t = false)
    by (intros; by rewrite map_lookup_filter_Some).
  assert (Hg : ∀ id, filter (λ kt : string * StoredTunnel, f kt.2 = true) (tunnels db) !! id = None ↔
                     ∀ t, tunnels db !! id = Some t → f t = false).
  { intros id. rewrite map_lookup_filter_None. split.
    - intros [E|E] t Hid; [congruence|]. apply not_true_is_false. by apply (E t).
    - intros E. right. intros t Hid Hf. cbn in Hf. by rewrite (E t Hid) in Hf. }
  split; cbn.
  - intros id t [Hid _]%Ht. by apply (so_rows _ H).
  - intros id t id' t' [Hid _]%Ht [Hid' _]%Ht. by apply (so_names _ H id t id' t').
  - intros key l [Hk Hl]%map_lookup_filter_Some. cbn in Hl.
    destruct (so_locks _ H _ _ Hk) as (t & Hid & Hkey). exists t. split; [|done].
    apply Ht. split; [done|]. by eapply Hg.
  - intros id t [Hid Hf]%Ht Hkey. destruct (so_locked _ H _ _ Hid Hkey) as (l & Hl & <-).
    exists l. split; [|done]. apply map_lookup_filter_Some. split; [done|]. cbn.
    apply Hg. intros t' Ht'. by simplify_eq.
  - intros id t id' t' [Hid _]%Ht [Hid' _]%Ht. by apply (so_exclusive _ H id t id' t').
Qed.

(** *** Updating rows outside the key columns *)

Record keeps (t t' : StoredTunnel) : Prop := {
  kp_id : st_ID t' = st_ID t;
  kp_name : st_Name t' = st_Name t;
  kp_client : st_ClientID t' = st_ClientID t;
  kp_owner : st_OwnerClientID t' = st_OwnerClientID t;
  kp_user : st_OwnerUserID t' = st_OwnerUserID t;
  kp_resource : same_resource t' t;
}.

Lemma clash_same t1 t1' t2 t2' :
  same_resource t1' t1 → st_OwnerUserID t1' = st_OwnerUserID t1 →
  same_resource t2' t2 → st_OwnerUserID t2' = st_OwnerUserID t2 →
  (ports_clash t1' t2' → ports_clash t1 t2) ∧ (domains_clash t1' t2' → domains_clash t1 t2).
Proof.
  intros R1 U1 R2 U2.
  pose proof (same_resource_domain _ _ R1) as D1. pose proof (same_resource_domain _ _ R2) as D2.
  destruct R1 as (I1 & P1 & _), R2 as (I2 & P2 & _). split.
  - intros [A B C D E]. unfold listens, location_id, ingress_proto, tunnelIngressPort,
      tunnelIngressBindIP in *. rewrite I1, I2, P1, P2 in *. by split.
  - intros [A B C D]. rewrite D1, D2, U1, U2, I1, I2 in *. by split.
Qed.

Lemma store_ok_update f g db :
  (∀ id t, tunnels db !! id = Some t → f t = true → keeps t (g t) ∧ row_normal js unicode_lower (g t)) →
  store_ok db → store_ok (db <| tunnels := ((λ t, if f t then g t else t) <$> tunnels db) |>).
Proof.
  intros Hg H.
  assert (Hl : ∀ id t', ((λ t, if f t then g t else t) <$> tunnels db) !! id = Some t' →
    ∃ t, tunnels db !! id = Some t ∧ keeps t t' ∧ row_normal js unicode_lower t').
  { intros id t'. rewrite lookup_fmap_Some. intros (t & <- & Hid). exists t. split; [done|].
    destruct (f t) eqn:E; [by eapply Hg|]. split; [by split|]. by eapply (so_rows _ H). }
  assert (Hl' : ∀ id t, tunnels db !! id = Some t →
    ∃ t', ((λ t, if f t then g t else t) <$> tunnels db) !! id = Some t' ∧ keeps t t').
  { intros id t Hid. eexists. rewrite lookup_fmap, Hid. split; [done|]. cbn.
    destruct (f t) eqn:E; [by eapply Hg|by split]. }
  split; cbn.
  - intros id t' (t & Hid & Hk & Hn)%Hl. split; [|done]. rewrite (kp_id _ _ Hk). by eapply (so_rows _ H).
  - intros id t1' id' t2' (t1 & H1 & K1 & _)%Hl (t2 & H2 & K2 & _)%Hl Hne.
    rewrite (kp_client _ _ K1), (kp_client _ _ K2), (kp_name _ _ K1), (kp_name _ _ K2),
      (kp_owner _ _ K1), (kp_owner _ _ K2). by eapply (so_names _ H).
  - intros key l Hk. destruct (so_locks _ H _ _ Hk) as (t & Hid & <-).
    destruct (Hl' _ _ Hid) as (t' & Hid' & K). exists t'. split; [done|].
    apply same_resource_key, K.
  - intros id t' (t & Hid & K & _)%Hl. rewrite (same_resource_key _ _ (kp_resource _ _ K)).
    by apply (so_locked _ H).
  - intros id t1' id' t2' (t1 & H1 & K1 & _)%Hl (t2 & H2 & K2 & _)%Hl Hne.
    destruct (so_exclusive _ H _ _ _ _ H1 H2 Hne) as [Hp Hd].
    destruct (clash_same t1 t1' t2 t2') as [Kp Kd]; [apply K1|apply K1|apply K2|apply K2|]. split; [intros ?; by apply Hp, Kp|intros ?; by apply Hd, Kd].
Qed.
End Resources.

(** ** Writing a row with its locks *)

(** [LIKE]: a percent sign stands for any text, other bytes for themselves. *)
Definition like_any (sql_like : string → string → bool) : Prop :=
  ∀ a b x, sql_like (a +:+ "%" +:+ b) (a +:+ x +:+ b) = true.

Section Put.
Context (js : store_json) (unicode_lower : string → string) (sql_like : string → string → bool) (now : Z).
Context (Hlike : like_any sql_like).
Abbreviation key_of := (lock_key js unicode_lower).
Abbreviation domain_of := (tunnelIngressDomain js unicode_lower).

Lemma write_row_spec row db db' :
  write_row row db = Ok db' →
  db' = (db <| tunnels := <[st_ID row := row]> (tunnels db) |>) ∧
  ∀ id t, tunnels db !! id = Some t → st_ID t ≠ st_ID row →
    (st_ClientID t, st_Name t) ≠ (st_ClientID row, st_Name row) ∧
    (st_OwnerClientID t, st_Name t) ≠ (st_OwnerClientID row, st_Name row).
Proof.
  unfold write_row, row_allowed. destruct (_ && _) eqn:E; [|done]. intros [= <-]. split; [done|].
  apply andb_true_iff in E as [_ E]. rewrite forallb_map in E. intros id t Hid Hne.
  specialize (E id t Hid). cbn in E. unfold in_use in E.
  rewrite (proj2 (eqb_str_false _ _) Hne) in E. cbn in E.
  rewrite negb_true_iff, orb_false_iff, !andb_false_iff, !eqb_str_false in E. naive_solver.
Qed.

Lemma locked_by_other_None db keys patterns id :
  locked_by_other sql_like db keys patterns id = None →
  ∀ k l, tunnel_resource_locks db !! k = Some l → rl_tunnel_id l ≠ id →
    (k ∉ keys) ∧ ∀ p, p ∈ patterns → sql_like p k = false.
Proof.
  unfold locked_by_other. rewrite fmap_None. intros Hn k l Hk Hne.
  apply head_None in Hn.
  assert (Hf : (k, l) ∉ filter (λ kl : string * resource_lock,
      (one_of kl.1 keys || existsb (λ p, sql_like p kl.1) patterns)
      && negb (rl_tunnel_id kl.2 =?s id) = true) (map_to_list (tunnel_resource_locks db))).
  { rewrite Hn. apply not_elem_of_nil. }
  rewrite list_elem_of_filter, elem_of_map_to_list in Hf. cbn in Hf.
  rewrite andb_true_iff, negb_true_iff, eqb_str_false, orb_true_iff, one_of_spec, existsb_exists in Hf.
  split; [tauto|]. intros p Hp. apply not_true_is_false. intros Hl. apply Hf.
  split; [|done]. split; [|done]. right. exists p. by rewrite <- list_elem_of_In.
Qed.

Lemma first_conflict_None candidate rows :
  (∀ row, row ∈ rows → row_normal js unicode_lower row) →
  first_conflict js unicode_lower now candidate rows = Ok None →
  ∀ row, row ∈ rows → httpDomainsConflict unicode_lower (domain_of candidate) (st_OwnerUserID candidate)
                        (domain_of row) (st_OwnerUserID row) = false.
Proof.
  induction rows as [|r rows IH]; intros Hn; [by intros _ ? ?%elem_of_nil|].
  cbn [first_conflict]. rewrite scan_row by (apply Hn; by left). cbn [mbind result_bind].
  assert (Hd : domain_of (read_row js r) = domain_of r) by by apply same_resource_domain.
  rewrite Hd. change (st_OwnerUserID (read_row js r)) with (st_OwnerUserID r).
  destruct (httpDomainsConflict _ _ _ _ _) eqn:E; [done|]. intros Hf row [->|Hin]%elem_of_cons; [done|].
  apply IH; try done. intros ? ?. apply Hn. by right.
Qed.

Lemma listen_key_like loc proto ip port :
  sql_like (listen_key loc proto "%" port) (listen_key loc proto ip port) = true.
Proof.
  unfold listen_key.
  set (a := ("ingress:" +:+ loc +:+ ":" +:+ proto +:+ ":")%string).
  set (b := (":" +:+ pretty port)%string).
  assert (E : ∀ x, ("ingress:" +:+ loc +:+ ":" +:+ proto +:+ ":" +:+ x +:+ ":" +:+ pretty port)%string
                   = (a +:+ x +:+ b)%string).
  { intros x. unfold a, b. by rewrite <- !string_app_assoc. }
  rewrite !E. apply Hlike.
Qed.

(** The locks of listeners. *)
Lemma listens_key t :
  listens t = true → 0 < tunnelIngressPort js t →
  key_of t = listen_key (location_id t) (ingress_proto t) (tunnelIngressBindIP js t) (tunnelIngressPort js t).
Proof.
  intros Hl Hp. unfold lock_key, tunnelIngressResourceLock. rewrite Hl.
  rewrite (proj2 (Z.leb_gt _ _)) by done. done.
Qed.
Lemma listen_key_nonempty loc proto ip port : listen_key loc proto ip port ≠ ""%string.
Proof. done. Qed.
Lemma listens_not_http t : listens t = true → ep_Type (st_Ingress t) ≠ IngressTypeHTTPHost.
Proof. unfold listens. by intros H%one_of_spec E; rewrite E in H; vm_compute in H; set_solver. Qed.

(** The check refuses every listener that clashes with a locked one. *)
Lemma listen_check db t t' l :
  checkTunnelIngressResourceConflictTx js unicode_lower sql_like now db t = Ok tt →
  tunnel_resource_locks db !! key_of t' = Some l → rl_tunnel_id l ≠ st_ID t → ¬ ports_clash js t t'.
Proof.
  intros Hc Hl Hne [[L1 L2] Eloc Eproto [Eport Hpos] Haddr].
  pose proof (listens_key t L1 Hpos) as K1.
  assert (K2 : key_of t' = listen_key (location_id t) (ingress_proto t) (tunnelIngressBindIP js t')
                 (tunnelIngressPort js t)).
  { rewrite Eloc, Eproto, Eport. apply listens_key; [done|]. by rewrite <- Eport. }
  unfold checkTunnelIngressResourceConflictTx in Hc.
  rewrite (proj2 (eqb_str_false _ _) (listens_not_http _ L1)) in Hc.
  assert (Hnl : locked_by_other sql_like db (tunnelIngressConflictKeys js unicode_lower t)
                  (tunnelIngressConflictPatterns js t) (st_ID t) = None).
  { destruct (tunnelIngressConflictKeys js unicode_lower t) eqn:Ek.
    - exfalso. unfold tunnelIngressConflictKeys in Ek. rewrite K1 in Ek. cbv zeta in Ek.
      rewrite (proj2 (eqb_str_false _ _) (listen_key_nonempty _ _ _ _)), L1 in Ek.
      rewrite (proj2 (Z.leb_gt _ _)) in Ek by done. by destruct (_ =?s _).
    - by destruct (locked_by_other _ _ _ _ _). }
  destruct (locked_by_other_None _ _ _ _ Hnl _ _ Hl Hne) as [Hk Hp].
  unfold tunnelIngressConflictKeys, tunnelIngressConflictPatterns in *. cbv zeta in Hk.
  rewrite K1, (proj2 (eqb_str_false _ _) (listen_key_nonempty _ _ _ _)), L1 in Hk.
  rewrite L1 in Hp. cbn [negb] in *. rewrite (proj2 (Z.leb_gt _ _)) in Hk, Hp by done.
  rewrite K2 in Hk, Hp.
  destruct (String.eqb_spec (tunnelIngressBindIP js t) "0.0.0.0") as [E0|E0]; cbn [negb] in *.
  - specialize (Hp _ ltac:(by left)). by rewrite listen_key_like in Hp.
  - destruct Haddr as [E|[E|E]]; [|done|].
    + rewrite E in Hk. apply Hk. by left.
    + rewrite E in Hk. apply Hk. by right; left.
Qed.

Lemma domain_check db t :
  (∀ id r, tunnels db !! id = Some r → row_normal js unicode_lower r) →
  ep_Location (st_Ingress t) ≠ ""%string → st_ID t ≠ ""%string →
  checkTunnelIngressResourceConflictTx js unicode_lower sql_like now db t = Ok tt →
  ∀ id r, tunnels db !! id = Some r → st_ID r ≠ st_ID t → ¬ domains_clash js unicode_lower t r.
Proof.
  intros Hn Hloc Hid Hc id r Hr Hne [[T1 T2] [L1 L2] _ Hconf].
  unfold checkTunnelIngressResourceConflictTx in Hc. rewrite T1 in Hc.
  change (IngressTypeHTTPHost =?s IngressTypeHTTPHost) with true in Hc. cbv iota in Hc.
  destruct (findHTTPIngressConflict _ _ _ _ _ _) as [[c|]|] eqn:Ef; cbn in Hc; try done.
  unfold findHTTPIngressConflict in Ef. cbv zeta in Ef.
  assert (Hin : r ∈ rows_by_id db (λ t0 : StoredTunnel, (ep_Type (st_Ingress t0) =?s IngressTypeHTTPHost)
       && (ep_Location (st_Ingress t0) =?s default_string (ep_Location (st_Ingress t)) "server")
       && (ep_ClientID (st_Ingress t0) =?s ep_ClientID (st_Ingress t))
       && negb (st_ID t0 =?s default_string (st_ID t) (st_ID t)))).
  { apply elem_of_rows_by_id. split; [|by exists id].
    rewrite !default_string_id by done.
    by rewrite T2, <- L1, <- L2, !eqb_str_refl, (proj2 (eqb_str_false _ _) Hne). }
  eapply first_conflict_None in Ef; [|  |exact Hin].
  - by rewrite Ef in Hconf.
  - intros row [_ [id' Hid']]%elem_of_rows_by_id. by eapply Hn.
Qed.

Definition lock_row (t : StoredTunnel) : resource_lock := {|
  rl_tunnel_id := st_ID t; rl_kind := (tunnelIngressResourceLock js unicode_lower t).1.2;
  rl_client_id := (tunnelIngressResourceLock js unicode_lower t).2 |}.

Lemma replace_locks_spec t db db' :
  replaceTunnelResourceLocksTx js unicode_lower sql_like now t db = Ok db' →
  tunnels db' = tunnels db ∧ users db' = users db ∧ registered_clients db' = registered_clients db ∧
  (∀ k l, tunnel_resource_locks db' !! k = Some l ↔
     (k = key_of t ∧ key_of t ≠ ""%string ∧ l = lock_row t) ∨
     (tunnel_resource_locks db !! k = Some l ∧ rl_tunnel_id l ≠ st_ID t)) ∧
  (key_of t ≠ ""%string →
     checkTunnelIngressResourceConflictTx js unicode_lower sql_like now (drop_locks db (st_ID t)) t = Ok tt).
Proof.
  unfold replaceTunnelResourceLocksTx, lock_row, lock_key.
  destruct (tunnelIngressResourceLock js unicode_lower t) as [[key kind] client]. cbn [fst snd].
  assert (Hold : ∀ k l, tunnel_resource_locks (drop_locks db (st_ID t)) !! k = Some l ↔
                        tunnel_resource_locks db !! k = Some l ∧ rl_tunnel_id l ≠ st_ID t).
  { intros k l. apply map_lookup_filter_Some. }
  destruct (String.eqb_spec key "") as [->|Hne].
  - intros [= <-]. split_and!; try done. intros k l. rewrite Hold. naive_solver.
  - intros [Hc Hl]%bind_unit_ok. case_bool_decide as Hs; [done|]. injection Hl as <-.
    split_and!; try done. intros k l.
    change (<[key := {| rl_tunnel_id := st_ID t; rl_kind := kind; rl_client_id := client |}]>
      (tunnel_resource_locks (drop_locks db (st_ID t))) !! k = Some l ↔
      (k = key ∧ key ≠ ""%string ∧ l = {| rl_tunnel_id := st_ID t; rl_kind := kind; rl_client_id := client |}) ∨
      (tunnel_resource_locks db !! k = Some l ∧ rl_tunnel_id l ≠ st_ID t)).
    rewrite lookup_insert_Some, Hold. split; [naive_solver|].
    intros [(-> & _ & ->)|Ho]; [by left|right]. split; [|done]. intros <-.
    apply Hs. exists l. by apply Hold.
Qed.

(** A checked tunnel does not clash with the locked ones. *)
Lemma put_exclusive t row db :
  store_ok js unicode_lower db → row_normal js unicode_lower row → same_resource row t →
  st_ID t ≠ ""%string → ep_Location (st_Ingress t) ≠ ""%string →
  (key_of t ≠ ""%string → checkTunnelIngressResourceConflictTx js unicode_lower sql_like now
     (drop_locks (db <| tunnels := <[st_ID t := row]> (tunnels db) |>) (st_ID t)) t = Ok tt) →
  ∀ id r, tunnels db !! id = Some r → id ≠ st_ID t → ¬ ports_clash js t r ∧ ¬ domains_clash js unicode_lower t r.
Proof.
  intros H Hrow Hres Hidne Hlocne Hchk id r Hr Hne.
  assert (Hid : st_ID r ≠ st_ID t) by by rewrite (proj1 (so_rows _ _ _ H _ _ Hr)).
  split.
  - intros Hc. pose proof Hc as [[L1 L2] _ _ [Eport Hpos] _].
    assert (Hk : key_of t ≠ ""%string) by by rewrite listens_key.
    assert (Hk' : key_of r ≠ ""%string) by (rewrite listens_key; [done|done|]; by rewrite <- Eport).
    destruct (so_locked _ _ _ H _ _ Hr Hk') as (l & Hl & Hlid).
    apply (listen_check _ t r l (Hchk Hk)); [|congruence|done].
    apply map_lookup_filter_Some. split; [done|]. cbn. congruence.
  - intros Hc. assert (Hk : key_of t ≠ ""%string).
    { destruct Hc as [[T1 _] _ [N1 _] _]. unfold lock_key, tunnelIngressResourceLock.
      assert (Hnl : listens t = false) by (unfold listens; by rewrite T1). rewrite Hnl, T1.
      change (IngressTypeHTTPHost =?s IngressTypeHTTPHost) with true. cbv zeta iota.
      by rewrite (proj2 (eqb_str_false _ _) N1). }
    refine (domain_check _ t _ Hlocne Hidne (Hchk Hk) id r _ Hid Hc).
    + intros id' r'. change (<[st_ID t := row]> (tunnels db) !! id' = Some r' → row_normal js unicode_lower r').
      intros [[_ <-]|[_ Hr']]%lookup_insert_Some; [done|]. by eapply (so_rows _ _ _ H).
    + change (<[st_ID t := row]> (tunnels db) !! id = Some r). by rewrite lookup_insert_ne.
Qed.

(** The row of a normalised tunnel, written and locked. *)
Lemma store_ok_put row t db db1 db2 :
  store_ok js unicode_lower db → row_normal js unicode_lower row →
  st_ID row = st_ID t → st_OwnerUserID row = st_OwnerUserID t → same_resource row t →
  st_ID t ≠ ""%string → ep_Location (st_Ingress t) ≠ ""%string →
  write_row row db = Ok db1 → replaceTunnelResourceLocksTx js unicode_lower sql_like now t db1 = Ok db2 →
  store_ok js unicode_lower db2 ∧ tunnels db2 = <[st_ID t := row]> (tunnels db) ∧
  users db2 = users db ∧ registered_clients db2 = registered_clients db.
Proof.
  intros H Hrow Eid Eown Hres Hidne Hlocne [-> Hnames]%write_row_spec Hlocks. rewrite Eid in *.
  destruct (replace_locks_spec _ _ _ Hlocks) as (Ht & Hu & Hc & Hl & Hchk).
  change (tunnels _) with (<[st_ID t := row]> (tunnels db)) in Ht at 2.
  change (users _) with (users db) in Hu at 2. change (registered_clients _) with (registered_clients db) in Hc at 2.
  split; [|done]. clear Hlocks.
  assert (Hkr : key_of row = key_of t) by by apply same_resource_key.
  assert (Hids : ∀ id r, tunnels db !! id = Some r → id ≠ st_ID t → st_ID r ≠ st_ID t).
  { intros id r Hr. by rewrite (proj1 (so_rows _ _ _ H _ _ Hr)). }
  assert (Hclash : ∀ id r, tunnels db !! id = Some r → id ≠ st_ID t →
                     ¬ ports_clash js row r ∧ ¬ domains_clash js unicode_lower row r).
  { intros id r Hr Hne.
    destruct (put_exclusive t row db H Hrow Hres Hidne Hlocne Hchk id r Hr Hne) as [Hp Hd].
    destruct (clash_same js unicode_lower t row r r) as [Kp Kd]; [done..|].
    split; [by intros ?%Kp|by intros ?%Kd]. }
  split; rewrite ?Ht.
  - intros id r [[<- <-]|[_ Hr]]%lookup_insert_Some; [done|]. by apply (so_rows _ _ _ H).
  - intros id r id' r' [[<- <-]|[Hne Hr]]%lookup_insert_Some [[<- <-]|[Hne' Hr']]%lookup_insert_Some Hd; try done.
    + destruct (Hnames _ _ Hr' (Hids _ _ Hr' ltac:(done))). naive_solver.
    + by apply (Hnames _ _ Hr (Hids _ _ Hr ltac:(done))).
    + by apply (so_names _ _ _ H id r id' r').
  - intros k l [(-> & _ & ->)|[Hk Hne]]%Hl; cbn.
    + exists row. by rewrite lookup_insert_eq, Hkr.
    + destruct (so_locks _ _ _ H _ _ Hk) as (r & Hr & Hkr'). exists r. by rewrite lookup_insert_ne.
  - intros id r [[<- <-]|[Hne Hr]]%lookup_insert_Some Hk.
    + rewrite Hkr in *. exists (lock_row t). split; [apply Hl; by left|done].
    + destruct (so_locked _ _ _ H _ _ Hr Hk) as (l & Hl' & <-). exists l. split; [|done]. apply Hl. by right.
  - intros id r id' r' [[<- <-]|[Hne Hr]]%lookup_insert_Some [[<- <-]|[Hne' Hr']]%lookup_insert_Some Hd; try done.
    + by apply (Hclash id').
    + destruct (Hclash id r Hr ltac:(done)). split; [by intros ?%ports_clash_sym|by intros ?%domains_clash_sym].
    + by apply (so_exclusive _ _ _ H id r id' r').
Qed.
End Put.
