(* ===== verification/TunnelStoreRuns.v ===== *)
(** Runs of the tunnel store: what each operation of [TunnelStore] does to the
    database, and that any sequence of them keeps the invariant of
    [TunnelStoreInv]. *)
From Stdlib Require Import ZArith Lia Ascii String.
From stdpp Require Import base tactics numbers list gmap strings sorting relations.
From S2P Require Import Prelude Records GoStrings Protocol TunnelState HTTPDomains TunnelSpec Coordinator TunnelStore TunnelStoreInv.

Lemma transaction_spec {A} sql db (body : result (database * A)) db' r :
  transaction sql db body = (db', r) →
  (db' = db ∧ ∃ e, r = Err e) ∨ (∃ a, body = Ok (db', a) ∧ r = Ok a).
Proof.
  unfold transaction. destruct sql as [e|]; [naive_solver|].
  destruct body as [[db1 a]|e]; naive_solver.
Qed.

Lemma update_where_spec f g db db' b :
  update_where f g db = Ok (db', b) →
  db' = db <| tunnels := (λ t, if f t then g t else t) <$> tunnels db |> ∧
  (b = true ↔ ∃ id t, tunnels db !! id = Some t ∧ f t = true).
Proof.
  unfold update_where. cbv zeta. destruct (forallb _ _); [|done]. intros [= <- <-]. split; [done|].
  rewrite bool_decide_eq_true. split.
  - intros (id & t & [H Hf]%map_lookup_filter_Some)%map_choose. by exists id, t.
  - intros (id & t & H & Hf) He.
    apply (f_equal (lookup id)) in He. rewrite lookup_empty, map_lookup_filter_None in He.
    destruct He as [He|He]; [congruence|]. by apply (He t).
Qed.

Lemma filter_ext_in {A} (P Q : A → Prop) `{!∀ x, Decision (P x), !∀ x, Decision (Q x)} (l : list A) :
  (∀ x, x ∈ l → P x ↔ Q x) → filter P l = filter Q l.
Proof.
  induction l as [|x l IH]; [done|]. intros Heq. rewrite !filter_cons.
  rewrite (decide_ext (P x) (Q x)) by (apply Heq; by left). rewrite IH; [done|].
  intros y Hy. apply Heq. by right.
Qed.

Lemma ok_bind {A B} (f : A → result B) a : Ok a ≫= f = f a.
Proof. done. Qed.

(** A guard that was passed. *)
Lemma guard_ok {A} (b : bool) e (m : result A) a : (if b then Err e else m) = Ok a ↔ b = false ∧ m = Ok a.
Proof. destruct b; naive_solver. Qed.
Lemma guard_negb_ok {A} (b : bool) e (m : result A) a :
  (if negb b then Err e else m) = Ok a ↔ b = true ∧ m = Ok a.
Proof. destruct b; naive_solver. Qed.

Lemma eta_config e : e <| ep_Config := ep_Config e |> = e.
Proof. by destruct e. Qed.

Section Runs.
Context (js : store_json) (unicode_lower : string → string) (sql_like : string → string → bool).
Context (Hjs : store_json_laws js) (Hlike : like_any sql_like).
Abbreviation ok := (store_ok js unicode_lower).
Abbreviation key_of := (lock_key js unicode_lower).

(** *** Rows of edited tunnels *)

Lemma row_normal_normal row : row_normal js unicode_lower row → normal js unicode_lower (read_row js row).
Proof.
  intros [H _]. pose proof (nm_spec _ _ _ H) as [].
  eapply normal_update; [exact H|..]; try done; by apply H.
Qed.

(** The columns of a row that its normality does not depend on. *)
Lemma row_normal_update row row' :
  row_normal js unicode_lower row → st_ID row' = st_ID row → st_Name row' = st_Name row →
  st_Binding row' = st_Binding row → st_CreatedAt row' ≠ 0 → st_UpdatedAt row' ≠ 0 →
  st_Revision row' = st_Revision row → st_RuntimeState row' ≠ ProxyRuntimeStateExposed →
  validateTunnelStates (st_DesiredState row') (protocolRuntimeStateFromStorage (st_RuntimeState row'))
    (st_Error row') = Ok tt →
  canonicalDesiredState (st_DesiredState row') = st_DesiredState row' →
  st_ClientID row' = st_ClientID row → st_OwnerClientID row' = st_OwnerClientID row →
  st_TransportPolicy row' = st_TransportPolicy row → st_ActualTransport row' ≠ ""%string →
  p2p_State (st_P2P row') ≠ ""%string → st_Type row' = st_Type row → st_Topology row' = st_Topology row →
  st_Ingress row' = st_Ingress row → st_Target row' = st_Target row → st_Domain row' = st_Domain row →
  row_normal js unicode_lower row'.
Proof. intros [H _] **. split; [|done]. by eapply normal_update. Qed.

(** A tunnel whose specification is complete is only checked. *)
Lemma normalize_complete now t t' :
  spec_normal t → st_Binding t = TunnelBindingClientID → st_CreatedAt t ≠ 0 → st_UpdatedAt t ≠ 0 →
  st_Revision t ≠ 0 → canonicalDesiredState (st_DesiredState t) = st_DesiredState t →
  normalize js unicode_lower now t = Ok t' → t' = t ∧ normal js unicode_lower t.
Proof.
  intros Hs Hb Hc Hu Hr Hd. unfold normalize.
  rewrite !bind_unit_ok, !check_ok, !negb_true_iff, !eqb_str_false.
  cbv zeta. intros (Hid & _ & Hcl & Hst & Hv & [= <-]).
  assert (E1 : normalize_binding t = t).
  { unfold normalize_binding. rewrite Hb. destruct t; cbn in *; by subst. }
  rewrite E1 in *.
  assert (E2 : normalize_columns now t = t).
  { unfold normalize_columns, is_zero_time. rewrite (proj2 (Z.eqb_neq _ _) Hc),
      (proj2 (Z.eqb_neq _ _) Hu), (proj2 (Z.eqb_neq _ _) Hr). by destruct t. }
  rewrite E2 in *.
  assert (E3 : normalize_states t = t).
  { unfold normalize_states. rewrite Hd, (tunnelError_valid _ _ _ Hst). by destruct t. }
  rewrite E3, normalizeUnified_id in * by done. split; [done|].
  split; try done. by eapply tunnelError_valid.
Qed.

(** The edited tunnel is the one that was read with the new values; its row
    keeps the endpoints. *)
Lemma edit_spec now ed name rev row stored :
  row_normal js unicode_lower row → now ≠ 0 → rev ≠ 0 →
  normalize js unicode_lower now
    (apply_edit now name rev ed (read_row js row)) = Ok stored →
  stored = apply_edit now name rev ed (read_row js row) ∧
  normal js unicode_lower stored ∧
  row_normal js unicode_lower (edit_columns rev stored row).
Proof.
  intros Hrow Hnow Hrev Hn. pose proof (row_normal_normal _ Hrow) as Hr.
  apply normalize_complete in Hn as [-> Hn]; try done; try by apply Hr.
  - split_and!; [reflexivity|exact Hn|]. destruct Hrow as [Hrow Hx]. split; [|exact Hx].
    eapply normal_update; [exact Hn|..]; cbn; try reflexivity.
    + exact (nm_created _ _ _ Hrow).
    + exact Hnow.
    + exact (nm_states _ _ _ Hrow).
    + exact (nm_desired _ _ _ Hrow).
    + exact (sn_actual _ (nm_spec _ _ _ Hrow)).
    + exact (sn_p2p _ (nm_spec _ _ _ Hrow)).
    + apply eta_config.
    + apply eta_config.
  - by split; apply (nm_spec _ _ _ Hr).
Qed.

(** *** Written rows *)

Lemma normal_located t : normal js unicode_lower t → st_ID t ≠ ""%string ∧ ep_Location (st_Ingress t) ≠ ""%string.
Proof.
  intros H. split; [apply H|]. pose proof (sn_ingress _ (nm_spec _ _ _ H)) as Hi.
  unfold endpoint_missing in Hi. rewrite !orb_false_iff, !eqb_str_false in Hi. naive_solver.
Qed.

(** What a row written with its locks does to the database. *)
Record written (db db' : database) (row : StoredTunnel) : Prop := {
  wr_ok : ok db';
  wr_tunnels : tunnels db' = <[st_ID row := row]> (tunnels db);
  wr_users : users db' = users db;
  wr_clients : registered_clients db' = registered_clients db;
}.

Lemma put_written now row t db db1 db2 :
  ok db → row_normal js unicode_lower row → normal js unicode_lower t → st_ID row = st_ID t →
  st_OwnerUserID row = st_OwnerUserID t → same_resource row t →
  write_row row db = Ok db1 → replaceTunnelResourceLocksTx js unicode_lower sql_like now t db1 = Ok db2 →
  written db db2 row.
Proof.
  intros H Hrow [Hid Hloc]%normal_located E1 E2 E3 Hw Hl.
  destruct (store_ok_put js unicode_lower sql_like now Hlike row t db db1 db2) as (? & Ht & ? & ?); [done..|].
  split; [done| |done..]. by rewrite Ht, E1.
Qed.

Lemma write_edit_written now ed name rev id row stored db db' r :
  ok db → tunnels db !! id = Some row → now ≠ 0 → rev ≠ 0 →
  normalize js unicode_lower now
    (apply_edit now name rev ed (read_row js row)) = Ok stored →
  write_edit js unicode_lower sql_like now (edit_columns rev stored row) stored db
    = Ok (db', r) →
  r = stored ∧ written db db' (edit_columns rev stored row) ∧
  st_ID stored = id ∧ st_ClientID stored = st_ClientID row ∧ st_Name stored = name ∧
  st_Revision stored = rev ∧ st_OwnerUserID stored = st_OwnerUserID row ∧
  st_Ingress stored = st_Ingress row ∧ st_Target stored = st_Target row.
Proof.
  intros H Hid Hnow Hrev Hn. destruct (so_rows _ _ _ H _ _ Hid) as [Hrid Hrow].
  destruct (edit_spec now ed name rev row stored Hrow Hnow Hrev Hn) as (E & Hst & Hrow').
  unfold write_edit. intros (db1 & Hw & (db2 & Hl & [= <- <-])%bind_ok)%bind_ok. split; [done|]. split.
  - refine (put_written now _ stored _ _ _ H Hrow' Hst _ _ _ Hw Hl); rewrite E; cbn; try reflexivity.
    split; [|split]; cbn; try reflexivity. apply eta_config.
  - rewrite E. cbn. by rewrite Hrid.
Qed.

(** *** Adding *)

Lemma row_of_normal t : normal js unicode_lower t → row_normal js unicode_lower (row_of t).
Proof. intros H. by apply (scan_row_of js unicode_lower 1 t). Qed.

Lemma normal_owned t o : normal js unicode_lower t → normal js unicode_lower (t <| st_OwnerUserID := o |>).
Proof.
  intros H. pose proof (nm_spec _ _ _ H) as [].
  eapply normal_update; [exact H|..]; cbn; try done; by apply H.
Qed.

Lemma target_owner db t :
  validateTunnelClientOwnershipInTx db t = Ok tt →
  registered_clients db !! ep_ClientID (st_Target t) = Some (Some (st_OwnerUserID t)).
Proof.
  unfold validateTunnelClientOwnershipInTx. intros [_ Ho]%guard_ok.
  cbn [check_endpoint_owners] in Ho. apply bind_ok in Ho as (o & Ho & Hrest).
  apply guard_negb_ok in Hrest as [->%eqb_str_true _].
  revert Ho. unfold tunnelOwnerUserIDInTx. intros [_ Ho]%guard_ok.
  destruct (registered_clients db !! _) as [[o|]|]; [|done..]. by apply guard_ok in Ho as [_ [= ->]].
Qed.

(** A tunnel is added with a new identifier, for an enabled owner of its
    clients, or nothing changes. *)
Lemma addTunnel_spec now newID sql t db db' r :
  ok db → now ≠ 0 → addTunnel js unicode_lower sql_like now newID sql t db = (db', r) →
  (db' = db ∧ is_ok r = false) ∨
  ∃ id n o, r = Ok tt ∧ normalize js unicode_lower now (t <| st_ID := id |>) = Ok n ∧
    (st_ID t ≠ ""%string → id = st_ID t) ∧ (st_OwnerUserID n ≠ ""%string → o = st_OwnerUserID n) ∧
    let row := row_of (n <| st_OwnerUserID := o |>) in
    normal js unicode_lower (n <| st_OwnerUserID := o |>) ∧ written db db' row ∧ tunnels db !! id = None ∧
    st_ID row = id ∧ users db !! o = Some UserStatusActive ∧
    registered_clients db !! ep_ClientID (st_Target n) = Some (Some o).
Proof.
  intros H Hnow. unfold addTunnel.
  destruct (_ ← _; normalize _ _ _ _) as [n|] eqn:En; [|intros [= <- <-]; by left].
  apply bind_ok in En as (id & Hnew & En).
  destruct (_ || _); [intros [= <- <-]; by left|].
  destruct (exists_where _ _); [intros [= <- <-]; by left|].
  intros [[-> [e ->]]|(a & Hb & ->)]%transaction_spec; [by left|right].
  apply bind_ok in Hb as (o & Howner & Hb). cbv zeta in Hb.
  apply bind_unit_ok in Hb as [Hu Hb]. apply bind_unit_ok in Hb as [Ho Hb].
  apply bind_ok in Hb as (db1 & Hi & Hb). apply bind_ok in Hb as (db2 & Hl & [= <- <-]).
  destruct (normalize_normal js unicode_lower now _ _ Hjs Hnow En) as (Hn & Eid & Ename & Ecl & _).
  apply (normal_owned _ o) in Hn.
  change (st_ID n = id) in Eid. change (st_OwnerUserID (n <| st_OwnerUserID := o |>)) with o in Hu.
  exists id, n, o. unfold insertTunnelTx in Hi. apply guard_ok in Hi as [_ Hi].
  apply guard_ok in Hi as [Hfresh%bool_decide_eq_false Hi].
  change (st_ID (n <| st_OwnerUserID := o |>)) with (st_ID n) in Hfresh. rewrite Eid in Hfresh.
  split_and!; [done|done| | |done| |by apply eq_None_not_Some|exact Eid| |].
  - intros Hne. rewrite (proj2 (eqb_str_false _ _) Hne) in Hnew. by injection Hnew.
  - intros Hne. rewrite (proj2 (eqb_str_false _ _) Hne) in Howner. by injection Howner.
  - refine (put_written now _ _ db db1 db2 H (row_of_normal _ Hn) Hn _ _ _ Hi Hl); done.
  - revert Hu. unfold ensureOperationalUserInTx. intros [_ Hu]%guard_ok.
    destruct (users db !! o) as [u|]; [|done]. apply guard_negb_ok in Hu as [->%eqb_str_true _]. done.
  - exact (target_owner _ _ Ho).
Qed.

(** *** Updates outside the key columns *)

Lemma update_where_ok f g db db' b :
  ok db → (∀ id t, tunnels db !! id = Some t → f t = true → keeps t (g t) ∧ row_normal js unicode_lower (g t)) →
  update_where f g db = Ok (db', b) → ok db'.
Proof. intros H Hg [-> _]%update_where_spec. by apply store_ok_update. Qed.

Lemma setStates_spec t d r e n :
  setStoredTunnelStates t d r e = Returns n →
  validateTunnelStates (st_DesiredState n) (st_RuntimeState n) (st_Error n) = Ok tt ∧
  st_DesiredState n = canonicalDesiredState d ∧ st_RuntimeState n = r.
Proof.
  unfold setStoredTunnelStates, mustValidateTunnelStates. cbv zeta.
  rewrite validateTunnelStates_canonical.
  destruct (validateTunnelStates d r e) as [[]|] eqn:E; cbn; [|done]. intros [= <-]. cbn.
  rewrite validateTunnelStates_canonical, (tunnelError_valid _ _ _ E). done.
Qed.

Lemma state_columns_ok now t d r e n row :
  setStoredTunnelStates t d r e = Returns n → now ≠ 0 → row_normal js unicode_lower row →
  keeps row (state_columns now n row) ∧ row_normal js unicode_lower (state_columns now n row).
Proof.
  intros (Hv & Ed & Er)%setStates_spec Hnow Hrow. split; [by split|].
  destruct (runtime_round_trip _ (valid_states_not_active _ _ _ Hv)) as [R1 R2].
  destruct Hrow as [Hrow Hx]. pose proof (nm_spec _ _ _ Hrow) as [].
  split; [|exact R2]. eapply normal_update; [exact Hrow|..]; cbn; try done.
  - exact (nm_created _ _ _ Hrow).
  - by rewrite R1.
  - rewrite Ed. apply canonicalDesiredState_idem.
  - by destruct (_ =?s _).
Qed.

Lemma hostname_ok now h row :
  now ≠ 0 → row_normal js unicode_lower row →
  keeps row (row <| st_Hostname := h |> <| st_UpdatedAt := now |>) ∧
  row_normal js unicode_lower (row <| st_Hostname := h |> <| st_UpdatedAt := now |>).
Proof.
  intros Hnow [Hrow Hx]. pose proof (nm_spec _ _ _ Hrow) as []. split; [by split|]. split; [|exact Hx].
  eapply normal_update; [exact Hrow|..]; cbn; try done.
  - exact (nm_created _ _ _ Hrow).
  - exact (nm_states _ _ _ Hrow).
  - exact (nm_desired _ _ _ Hrow).
Qed.

Lemma p2pProjectionValues_nonempty stored tr p a :
  p2p_State (st_P2P stored) ≠ ""%string → st_ActualTransport stored ≠ ""%string →
  p2pProjectionValues stored tr = (p, a) → p2p_State p ≠ ""%string ∧ a ≠ ""%string.
Proof.
  intros Hp Ha. unfold p2pProjectionValues. cbv zeta.
  destruct (_ =?s P2PProjectionGathering); [intros [= <- <-]; split; [done|by destruct (_ =?s _)]|].
  destruct (_ =?s P2PProjectionReady); [by intros [= <- <-]|].
  destruct (_ =?s P2PProjectionFailed); [by destruct (st_TransportPolicy stored =?s _); intros [= <- <-]|].
  destruct (_ =?s P2PProjectionClosed); [|by intros [= <- <-]].
  intros [= <- <-]. split; [done|]. by destruct (_ && _).
Qed.

Lemma p2p_columns_ok now p a row :
  now ≠ 0 → p2p_State p ≠ ""%string → a ≠ ""%string → row_normal js unicode_lower row →
  keeps row (row <| st_P2P := p |> <| st_ActualTransport := a |> <| st_UpdatedAt := now |>) ∧
  row_normal js unicode_lower (row <| st_P2P := p |> <| st_ActualTransport := a |> <| st_UpdatedAt := now |>).
Proof.
  intros Hnow Hp Ha [Hrow Hx]. split; [by split|]. split; [|exact Hx].
  eapply normal_update; [exact Hrow|..]; cbn; try done.
  - exact (nm_created _ _ _ Hrow).
  - exact (nm_states _ _ _ Hrow).
  - exact (nm_desired _ _ _ Hrow).
Qed.

(** *** Replacing the configuration *)

(** Kept apart, so that nested updates are not unfolded together. *)
Lemma touched_fields now r :
  st_ID (touched now r) = st_ID r ∧ st_Name (touched now r) = st_Name r ∧
  st_ClientID (touched now r) = st_ClientID r ∧ st_OwnerUserID (touched now r) = st_OwnerUserID r ∧
  st_Revision (touched now r) = st_Revision r.
Proof. done. Qed.
Lemma replacement_of_fields e rev r :
  st_ID (replacement_of e rev r) = st_ID r ∧ st_Name (replacement_of e rev r) = st_Name r ∧
  st_ClientID (replacement_of e rev r) = st_ClientID r ∧ st_Revision (replacement_of e rev r) = rev.
Proof. done. Qed.
Lemma migration_of_fields e id rev r :
  st_ID (migration_of e id rev r) = id ∧ st_Name (migration_of e id rev r) = st_Name r ∧
  st_OwnerUserID (migration_of e id rev r) = st_OwnerUserID e ∧ st_Revision (migration_of e id rev r) = rev.
Proof. done. Qed.

Lemma replace_columns_normal r row c :
  normal js unicode_lower r → row_normal js unicode_lower row → st_ID r = st_ID row → c = st_ClientID r →
  row_normal js unicode_lower (replace_columns c r row).
Proof.
  intros Hr [Hrow _] Hid ->. destruct (row_of_normal r Hr) as [Hn Hx]. split; [|exact Hx].
  eapply normal_update; [exact Hn|..]; cbn; try done.
  - transitivity TunnelBindingClientID; [|symmetry]; [exact (nm_binding _ _ _ Hrow)|exact (nm_binding _ _ _ Hn)].
  - exact (nm_created _ _ _ Hrow).
  - exact (nm_updated _ _ _ Hr).
  - exact (nm_states _ _ _ Hn).
  - exact (nm_desired _ _ _ Hr).
  - exact (sn_actual _ (nm_spec _ _ _ Hn)).
  - exact (sn_p2p _ (nm_spec _ _ _ Hr)).
Qed.

Lemma replace_written now row t db db1 db2 id c :
  ok db → tunnels db !! id = Some row → normal js unicode_lower t → st_ID t = id →
  st_OwnerUserID t = st_OwnerUserID row → c = st_ClientID t →
  write_row (replace_columns c t row) db = Ok db1 →
  replaceTunnelResourceLocksTx js unicode_lower sql_like now t db1 = Ok db2 →
  written db db2 (replace_columns c t row).
Proof.
  intros H Hid Hn Eid Eown Hc Hw Hl. destruct (so_rows _ _ _ H _ _ Hid) as [Hrid Hrow].
  refine (put_written now _ t db db1 db2 H _ Hn _ _ _ Hw Hl); [|cbn; congruence|cbn; congruence|done].
  apply replace_columns_normal; [done|done|congruence|done].
Qed.

Lemma select_id_Some db clientID id row :
  ok db → select_where db (λ t, (st_ClientID t =?s clientID) && (st_ID t =?s id)) = Some row →
  tunnels db !! id = Some row ∧ st_ClientID row = clientID ∧ st_ID row = id.
Proof.
  intros H (Hf & id' & Hid)%select_where_Some. apply andb_true_iff in Hf as [Hc Hi].
  apply eqb_str_true in Hc, Hi. destruct (so_rows _ _ _ H _ _ Hid) as [E _]. by subst.
Qed.

(** The only row [replaceTunnelByID] changes is at the revision it expects,
    which it increments; its owner stays. *)
Lemma replaceTunnelByID_spec now sql clientID id rev r db db' res :
  ok db → now ≠ 0 →
  replaceTunnelByID js unicode_lower sql_like now sql clientID id rev r db = (db', res) →
  (db' = db ∧ is_ok res = false) ∨
  ∃ row row', res = Ok tt ∧ tunnels db !! id = Some row ∧ st_Revision row = rev ∧ 0 < rev ∧
    st_ClientID row = clientID ∧ written db db' row' ∧ st_ID row' = id ∧ st_Revision row' = rev + 1 ∧
    st_OwnerUserID row' = st_OwnerUserID row ∧ st_ClientID row' = clientID ∧ st_Name row' = st_Name r.
Proof.
  intros H Hnow. unfold replaceTunnelByID.
  destruct (Z.leb_spec rev 0) as [|Hpos]; [intros [= <- <-]; by left|].
  destruct (select_where _ _) as [row|] eqn:Es; [|intros [= <- <-]; by left].
  apply select_id_Some in Es as (Hid & Hcl & Hrid); [|done].
  intros [[-> [e ->]]|(a & Hb & ->)]%transaction_spec; [by left|right].
  rewrite scan_row in Hb by by eapply (so_rows _ _ _ H).
  apply bind_ok in Hb as (? & [= <-] & Hb).
  change (st_Revision (read_row js row)) with (st_Revision row) in Hb.
  change (st_OwnerUserID (read_row js row)) with (st_OwnerUserID row) in Hb.
  apply guard_negb_ok in Hb as [Hrev%Z.eqb_eq Hb]. cbv zeta in Hb.
  apply guard_negb_ok in Hb as [Ec%eqb_str_true Hb]. apply guard_negb_ok in Hb as [Eo%eqb_str_true Hb].
  apply bind_ok in Hb as (n & Hn & Hb). apply bind_unit_ok in Hb as [_ Hb]. apply bind_unit_ok in Hb as [_ Hb].
  apply guard_negb_ok in Hb as [_ (db1 & Hw & (db2 & Hl & [= <- <-])%bind_ok)%bind_ok].
  destruct (normalize_normal js unicode_lower now _ _ Hjs Hnow Hn) as (Hnn & E1 & E2 & E3 & E4 & _ & E5).
  destruct (touched_fields now (replacement_of (read_row js row) (rev + 1) (replacement_at clientID id r)))
    as (T1 & T2 & T3 & T4 & T5).
  destruct (replacement_of_fields (read_row js row) (rev + 1) (replacement_at clientID id r))
    as (R1 & R2 & R3 & R4).
  assert (F1 : st_ID n = id) by by rewrite E1, T1, R1.
  assert (F2 : st_Name n = st_Name r) by by rewrite E2, T2, R2.
  assert (F3 : st_ClientID n = clientID) by by rewrite E3, T3, R3.
  assert (F4 : st_OwnerUserID n = st_OwnerUserID row) by by rewrite E4, T4.
  assert (F5 : st_Revision n = rev + 1) by by rewrite E5, T5, R4, (proj2 (Z.eqb_neq _ _)) by lia.
  exists row, (replace_columns (st_ClientID row) n row).
  split_and!; [done..| |exact Hrid|exact F5|reflexivity|exact Hcl|exact F2].
  exact (replace_written now row n db _ _ id _ H Hid Hnn F1 F4 (eq_trans Hcl (eq_sym F3)) Hw Hl).
Qed.

(** A migration keeps the owner and moves the tunnel to a client of the same
    owner. *)
Lemma migrateTunnelTargetByID_spec now sql id rev r db db' res :
  ok db → now ≠ 0 →
  migrateTunnelTargetByID js unicode_lower sql_like now sql id rev r db = (db', res) →
  (db' = db ∧ is_ok res = false) ∨
  ∃ row row' after, res = Ok (read_row js row, after) ∧ tunnels db !! id = Some row ∧
    st_Revision row = rev ∧ 0 < rev ∧ written db db' row' ∧ st_ID row' = id ∧
    st_Revision row' = rev + 1 ∧ st_OwnerUserID row' = st_OwnerUserID row ∧ after = read_row js row' ∧
    registered_clients db !! ep_ClientID (st_Target row') = Some (Some (st_OwnerUserID row)).
Proof.
  intros H Hnow. unfold migrateTunnelTargetByID.
  destruct (Z.leb_spec rev 0) as [|Hpos]; [intros [= <- <-]; by left|].
  destruct (tunnels db !! id) as [row|] eqn:Hid; [|intros [= <- <-]; by left].
  destruct (so_rows _ _ _ H _ _ Hid) as [Hrid Hrow].
  intros [[-> [e ->]]|(a & Hb & ->)]%transaction_spec; [by left|right].
  rewrite scan_row in Hb by done. apply bind_ok in Hb as (? & [= <-] & Hb).
  apply guard_negb_ok in Hb as [Hrev%Z.eqb_eq Hb]. apply guard_ok in Hb as [_ Hb]. cbv zeta in Hb.
  apply bind_ok in Hb as (n & Hn & Hb). apply guard_ok in Hb as [_ Hb]. apply guard_ok in Hb as [_ Hb].
  apply bind_unit_ok in Hb as [_ Hb]. apply bind_unit_ok in Hb as [Ho Hb].
  apply guard_negb_ok in Hb as [_ (db1 & Hw & (db2 & Hl & Hb)%bind_ok)%bind_ok].
  destruct (normalize_normal js unicode_lower now _ _ Hjs Hnow Hn) as (Hnn & E1 & _ & _ & E4 & _ & E5).
  destruct (touched_fields now (migration_of (read_row js row) id (rev + 1) r)) as (T1 & _ & _ & T4 & T5).
  destruct (migration_of_fields (read_row js row) id (rev + 1) r) as (R1 & _ & R3 & R4).
  assert (F1 : st_ID n = id) by by rewrite E1, T1, R1.
  assert (F4 : st_OwnerUserID n = st_OwnerUserID row) by by rewrite E4, T4, R3.
  change (st_Revision (read_row js row)) with (st_Revision row) in Hrev.
  assert (F5 : st_Revision n = rev + 1) by by rewrite E5, T5, R4, (proj2 (Z.eqb_neq _ _)) by lia.
  apply bind_ok in Hb as (after & Ha & [= <- <-]).
  rewrite scan_row in Ha by (apply replace_columns_normal; [done|done|congruence|done]).
  injection Ha as <-. exists row, (replace_columns (st_ClientID n) n row). eexists.
  split_and!; [reflexivity|reflexivity|exact Hrev|exact Hpos| |exact Hrid|exact F5|reflexivity|reflexivity|].
  - exact (replace_written now row n db _ _ id _ H Hid Hnn F1 F4 eq_refl Hw Hl).
  - rewrite <- F4. exact (target_owner _ _ Ho).
Qed.

(** *** Deleting *)

Lemma database_eq a b :
  tunnels a = tunnels b → tunnel_resource_locks a = tunnel_resource_locks b → users a = users b →
  registered_clients a = registered_clients b → a = b.
Proof. destruct a, b. cbn. by intros -> -> -> ->. Qed.

Lemma delete_drop f db id :
  ok db → (∀ t, tunnels db !! id = Some t → f t = true) →
  delete_where f (drop_locks db id) = delete_where f db.
Proof.
  intros H Hf. apply database_eq; try reflexivity. apply map_eq. intros k. apply option_eq. intros l.
  unfold delete_where, drop_locks. cbn. rewrite !map_lookup_filter_Some. cbn. split; [tauto|].
  intros [Hk Hg]. split; [|done]. split; [done|]. intros <-.
  destruct (so_locks _ _ _ H _ _ Hk) as (t & Ht & _).
  rewrite map_lookup_filter_None in Hg. destruct Hg as [Hg|Hg]; [congruence|].
  apply (Hg t Ht). cbn. by apply Hf.
Qed.

(** *** Projecting grants *)

(** The grant is of this revision, and of the expected session if any. *)
Definition applies (expectedSessionID : string) (grant : p2pGrantSnapshot) (row : StoredTunnel) : bool :=
  (st_Revision row =? gn_Revision grant)
  && ((expectedSessionID =?s "") || (p2p_SessionID (st_P2P row) =?s expectedSessionID)).

(** All columns but the time of the update. *)
Definition projected (tr : P2PProjectionTransition) (row row' : StoredTunnel) : Prop :=
  row' <| st_UpdatedAt := st_UpdatedAt row |> =
  row <| st_P2P := (p2pProjectionValues row tr).1 |> <| st_ActualTransport := (p2pProjectionValues row tr).2 |>.

Lemma project_grant_spec now exp tr grant db r db' r' :
  ok db → now ≠ 0 →
  project_grant js unicode_lower now exp tr grant (db, r) = Ok (db', r') →
  ok db' ∧ users db' = users db ∧ registered_clients db' = registered_clients db ∧
  (∀ id, id ≠ gn_TunnelID grant → tunnels db' !! id = tunnels db !! id) ∧
  match tunnels db !! gn_TunnelID grant with
  | Some row =>
      if applies exp grant row
      then pr_Stale r' = pr_Stale r ∧ ∃ row', tunnels db' !! gn_TunnelID grant = Some row' ∧ projected tr row row'
      else db' = db ∧ pr_Stale r' = pr_Stale r ++ [grant]
  | None => db' = db ∧ pr_Stale r' = pr_Stale r ++ [grant]
  end.
Proof.
  intros H Hnow. unfold project_grant, applies. cbv zeta.
  destruct (tunnels db !! gn_TunnelID grant) as [row|] eqn:Hid; [|intros [= <- <-]; by split_and!].
  destruct (so_rows _ _ _ H _ _ Hid) as [Hrid Hrow].
  destruct (st_Revision row =? gn_Revision grant) eqn:Erev; cbn [negb andb]; [|intros [= <- <-]; by split_and!].
  rewrite scan_row by done. cbn [mbind result_bind].
  change (st_P2P (read_row js row)) with (st_P2P row).
  assert (Esess : negb (exp =?s "") && negb (p2p_SessionID (st_P2P row) =?s exp)
                  = negb ((exp =?s "") || (p2p_SessionID (st_P2P row) =?s exp)))
    by by destruct (exp =?s ""), (_ =?s exp).
  rewrite Esess. clear Esess. destruct ((exp =?s "") || _) eqn:Eapp; cbn [negb]; [|intros [= <- <-]; by split_and!].
  change (p2pProjectionValues (read_row js row) tr) with (p2pProjectionValues row tr).
  destruct (p2pProjectionValues row tr) as [p a] eqn:Ev.
  change (st_ActualTransport (read_row js row)) with (st_ActualTransport row).
  destruct (_ && _) eqn:Esame.
  { intros [= <- <-]. apply andb_true_iff in Esame as [<-%bool_decide_eq_true <-%eqb_str_true].
    split_and!; try done. exists row. split; [done|]. unfold projected. rewrite Ev. reflexivity. }
  intros ([db1 affected] & Hup & Hres)%bind_ok.
  pose proof (update_where_spec _ _ _ _ _ Hup) as [Edb Haff].
  assert (Eaff : affected = true).
  { apply Haff. exists (gn_TunnelID grant), row. split; [done|].
    by rewrite Hrid, eqb_str_refl, Erev, Eapp. }
  rewrite Eaff in Hres. injection Hres as <- <-.
  pose proof Hrow as [Hn _]. pose proof (nm_spec _ _ _ Hn) as Hs.
  destruct (p2pProjectionValues_nonempty row tr p a) as [Hp Ha]; [apply (sn_p2p _ Hs)|apply (sn_actual _ Hs)|done|].
  assert (Hl : ∀ id, tunnels db1 !! id =
    (λ t, if (st_ID t =?s gn_TunnelID grant) && (st_Revision t =? gn_Revision grant)
             && ((exp =?s "") || (p2p_SessionID (st_P2P t) =?s exp))
          then t <| st_P2P := p |> <| st_ActualTransport := a |> <| st_UpdatedAt := now |>
          else t) <$> tunnels db !! id).
  { intros id. rewrite Edb. apply lookup_fmap. }
  rewrite Edb in *. split_and!; try done.
  - apply store_ok_update; [|done]. intros id t Ht _. apply p2p_columns_ok; try done. by eapply (so_rows _ _ _ H).
  - intros id Hne. rewrite Hl. destruct (tunnels db !! id) as [t|] eqn:Ht; [|done]. cbn.
    rewrite (proj1 (so_rows _ _ _ H _ _ Ht)). by rewrite (proj2 (eqb_str_false _ _) Hne).
  - eexists. rewrite Hl, Hid. cbn. rewrite Hrid, eqb_str_refl, Erev, Eapp. split; [reflexivity|].
    unfold projected. rewrite Ev. reflexivity.
Qed.

Lemma project_grants_spec now exp tr grants db r db' r' :
  ok db → now ≠ 0 → NoDup (gn_TunnelID <$> grants) →
  project_grants js unicode_lower now exp tr grants (db, r) = Ok (db', r') →
  ok db' ∧ users db' = users db ∧ registered_clients db' = registered_clients db ∧
  (∀ id, id ∉ gn_TunnelID <$> grants → tunnels db' !! id = tunnels db !! id) ∧
  (∀ g row, g ∈ grants → tunnels db !! gn_TunnelID g = Some row →
     ∃ row', tunnels db' !! gn_TunnelID g = Some row' ∧
             if applies exp g row then projected tr row row' else row' = row) ∧
  pr_Stale r' = pr_Stale r ++
    filter (λ g, from_option (applies exp g) false (tunnels db !! gn_TunnelID g) = false) grants.
Proof.
  intros H Hnow. revert db r H. induction grants as [|g grants IH]; intros db r H Hnd.
  - cbn. intros [= <- <-]. split_and!; try done; [by intros ? ? ?%elem_of_nil|by rewrite app_nil_r].
  - cbn [project_grants]. intros ([db1 r1] & Hg & Hrest)%bind_ok.
    cbn [fmap list_fmap] in Hnd. apply NoDup_cons in Hnd as [Hnot Hnd].
    apply project_grant_spec in Hg as (H1 & U1 & C1 & F1 & S1); [|done..].
    destruct (IH db1 r1 H1 Hnd Hrest) as (H2 & U2 & C2 & F2 & P2 & S2).
    assert (Hother : ∀ g', g' ∈ grants → tunnels db1 !! gn_TunnelID g' = tunnels db !! gn_TunnelID g').
    { intros g' Hg'. apply F1. intros E. apply Hnot. rewrite <- E. by apply list_elem_of_fmap_2. }
    split_and!; [done|congruence|congruence| | |].
    + intros id [Hne Hni]%not_elem_of_cons. rewrite F2 by done. by apply F1.
    + intros g' row [->|Hg']%elem_of_cons Hrow.
      * rewrite F2 by done. rewrite Hrow in S1. destruct (applies exp g row).
        -- destruct S1 as (_ & row' & E & Hp). by exists row'.
        -- destruct S1 as [-> _]. by exists row.
      * apply P2; [done|]. by rewrite Hother.
    + rewrite S2. rewrite filter_cons.
      replace (filter (λ g0, from_option (applies exp g0) false (tunnels db1 !! gn_TunnelID g0) = false) grants)
        with (filter (λ g0, from_option (applies exp g0) false (tunnels db !! gn_TunnelID g0) = false) grants).
      * destruct (tunnels db !! gn_TunnelID g) as [row|]; cbn.
        -- destruct (applies exp g row); destruct S1 as [S1 S1']; [by rewrite S1|by rewrite S1', <- app_assoc].
        -- destruct S1 as [S1 S1']. by rewrite S1', <- app_assoc.
      * apply filter_ext_in. intros g' Hg'. by rewrite Hother.
Qed.
End Runs.
