(* ===== verification/TunnelSamples.v ===== *)
(** A concrete instance of what the tunnel store takes as arguments, for the
    witnesses of its properties: a matcher for [LIKE], a configuration format,
    and some tunnels. *)
From Stdlib Require Import ZArith Lia Ascii String.
From stdpp Require Import base tactics numbers list gmap strings pretty.
From S2P Require Import Prelude Records GoStrings GoNet Protocol TunnelState HTTPDomains TunnelSpec Coordinator TunnelStore TunnelStoreInv TunnelStoreRuns.

(** ** LIKE *)

(** Some suffix of [s] is accepted. *)
Fixpoint some_suffix (f : string → bool) (s : string) : bool :=
  f s || match s with EmptyString => false | String _ s' => some_suffix f s' end.

Fixpoint sample_like (pattern s : string) : bool :=
  match pattern with
  | EmptyString => s =?s ""
  | String c p =>
      if Ascii.eqb c "%" then some_suffix (sample_like p) s
      else match s with String d s' => Ascii.eqb c d && sample_like p s' | EmptyString => false end
  end.

Lemma some_suffix_append f x s : f s = true → some_suffix f (x +:+ s) = true.
Proof.
  intros Hf. induction x as [|c x IH].
  - change ("" +:+ s)%string with s. destruct s; cbn; by rewrite Hf.
  - change (String c x +:+ s)%string with (String c (x +:+ s))%string. cbn. rewrite IH. apply orb_true_r.
Qed.

Lemma sample_like_refl b : sample_like b b = true.
Proof.
  induction b as [|c b IH]; [done|]. cbn [sample_like]. destruct (Ascii.eqb_spec c "%") as [->|].
  - apply (some_suffix_append _ "%"). exact IH.
  - by rewrite Ascii.eqb_refl, IH.
Qed.

Lemma sample_like_any : like_any sample_like.
Proof.
  intros a b x. induction a as [|c a IH].
  - apply (some_suffix_append _ x). apply sample_like_refl.
  - change (String c a +:+ "%" +:+ b)%string with (String c (a +:+ "%" +:+ b))%string.
    change (String c a +:+ x +:+ b)%string with (String c (a +:+ x +:+ b))%string. cbn [sample_like].
    destruct (Ascii.eqb_spec c "%") as [->|]; [|by rewrite Ascii.eqb_refl, IH].
    apply (some_suffix_append _ "%" (a +:+ x +:+ b)). exact IH.
Qed.

(** ** Configurations: a letter and the values, separated by bars *)

Fixpoint plain_only (s : string) : string :=
  match s with
  | EmptyString => EmptyString
  | String c s' => if plain_byte c then String c (plain_only s') else plain_only s'
  end.

Lemma plain_only_plain s : all_bytes plain_byte (plain_only s) = true.
Proof.
  induction s as [|c s IH]; [done|]. cbn. destruct (plain_byte c) eqn:E; [|done]. cbn. by rewrite E, IH.
Qed.

Definition tagged (c : ascii) (s : string) : string := String c (plain_only s).

Lemma tagged_nonempty c s :
  plain_byte c = true → Ascii.eqb c "{" = false → Ascii.eqb c "n" = false →
  isEmptyEndpointConfig (tagged c s) = false.
Proof.
  intros Hc H1 H2. unfold isEmptyEndpointConfig, tagged. rewrite trim_space_plain.
  - cbn. by rewrite H1, H2.
  - cbn. by rewrite Hc, plain_only_plain.
Qed.

Definition bar_fields (s : string) : option (string * string) :=
  match s with
  | String "l" s' => cut_byte "|" s'
  | _ => None
  end.

Definition no_field {A} : result A := Err (Errorf "no such field" []).

Definition sample_json : store_json := {|
  json_Valid := λ s, negb (s =?s "");
  dec_bind_ip := λ s, match bar_fields s with Some (ip, _) => Ok ip | None => no_field end;
  dec_port := λ s, match bar_fields s with Some (_, p) => Ok (decimal_value p) | None => no_field end;
  dec_domain := λ s, match s with String "h" d => Ok d | _ => no_field end;
  dec_target := λ s, match s with String "t" d => Ok (d, "", 80) | _ => no_field end;
  enc_http_ingress := tagged "h";
  enc_listen_ingress := λ ip p, tagged "l" (ip +:+ "|" +:+ pretty p);
  enc_target := λ h p, tagged "t" h;
|}.

Lemma sample_json_laws : store_json_laws sample_json.
Proof. split; intros; by apply tagged_nonempty. Qed.

(** ** Tunnels of the server *)

Definition sample_endpoint (location client type config : string) : EndpointSpec :=
  {| ep_Location := location; ep_ClientID := client; ep_Type := type; ep_Config := config |}.

Definition sample_tunnel (id name client : string) (ingress : EndpointSpec) (runtime : string)
  : StoredTunnel := {|
  st_ID := id; st_Name := name; st_Type := ""; st_LocalIP := "127.0.0.1"; st_LocalPort := 80;
  st_RemotePort := 0; st_BindIP := ""; st_Domain := "";
  st_Bandwidth := {| IngressBPS := 0; EgressBPS := 0; TotalBPS := 0 |};
  st_DesiredState := "running"; st_RuntimeState := runtime; st_Error := ""; st_ClientID := client;
  st_Hostname := ""; st_Binding := ""; st_CreatedAt := 0; st_Revision := 0; st_Topology := "";
  st_OwnerClientID := ""; st_Ingress := ingress;
  st_Target := {| ep_Location := ""; ep_ClientID := ""; ep_Type := ""; ep_Config := "" |};
  st_TransportPolicy := "direct_preferred"; st_ActualTransport := "";
  st_P2P := {| p2p_State := ""; p2p_Error := ""; p2p_SessionID := "" |};
  st_OwnerUserID := ""; st_CreatedByUserID := ""; st_UpdatedAt := 0 |}.

Definition http_tunnel (id name client domain : string) : StoredTunnel :=
  sample_tunnel id name client
    (sample_endpoint "server" "" IngressTypeHTTPHost (String "h" domain)) ProxyRuntimeStateOffline.
Definition tcp_tunnel (id name client ip : string) : StoredTunnel :=
  sample_tunnel id name client
    (sample_endpoint "server" "" IngressTypeTCPListen (String "l" (ip +:+ "|8080"))) ProxyRuntimeStateOffline.

Definition sample_users : gmap string string := {[ "u1" := UserStatusActive; "u2" := UserStatusActive ]}.
Definition sample_clients : gmap string (option string) :=
  {[ "c1" := Some "u1"%string; "c2" := Some "u1"%string; "d1" := Some "u2"%string ]}.
Definition sample_empty : database :=
  {| tunnels := ∅; tunnel_resource_locks := ∅; users := sample_users; registered_clients := sample_clients |}.

Definition sample_add (t : StoredTunnel) (db : database) : database * result unit :=
  addTunnel sample_json id sample_like 7 (Ok "new"%string) None t db.

(** Three tunnels: a listener and two HTTP patterns of one user. *)
Definition sample_db : database :=
  (sample_add (tcp_tunnel "t3" "web" "c1" "10.0.0.1")
    (sample_add (http_tunnel "t2" "exact" "c2" "app.x.com")
      (sample_add (http_tunnel "t1" "wild" "c1" "*.x.com") sample_empty).1).1).1.

Example sample_db_rows :
  (λ t, (st_OwnerUserID t, st_Revision t)) <$> tunnels sample_db =
    {[ "t1" := ("u1", 1); "t2" := ("u1", 1); "t3" := ("u1", 1) ]}%string.
Proof. vm_compute. reflexivity. Qed.
Example sample_db_locks :
  rl_tunnel_id <$> tunnel_resource_locks sample_db =
    {[ "ingress:server:http_host:*.x.com" := "t1"; "ingress:server:http_host:app.x.com" := "t2";
       "ingress:server:tcp:10.0.0.1:8080" := "t3" ]}%string.
Proof. vm_compute. reflexivity. Qed.

(** Conflicts with them are refused. *)
Example sample_conflicts :
  is_ok (sample_add (tcp_tunnel "t4" "any" "d1" "0.0.0.0") sample_db).2 = false ∧
  is_ok (sample_add (tcp_tunnel "t4" "other" "d1" "10.0.0.2") sample_db).2 = true ∧
  is_ok (sample_add (http_tunnel "t4" "stolen" "d1" "b.x.com") sample_db).2 = false ∧
  is_ok (sample_add (http_tunnel "t4" "own" "c1" "b.x.com") sample_db).2 = true.
Proof. vm_compute. done. Qed.

Definition routed_to (host : string) : result (option string) :=
  claim ← findHTTPDomainClaim sample_json id 7 sample_db host; Ok (fmap (M := option) st_ID claim).

Example sample_routing :
  routed_to "APP.x.com:443" = Ok (Some "t2"%string) ∧ routed_to "b.x.com" = Ok (Some "t1"%string) ∧
  routed_to "x.com" = Ok None.
Proof. vm_compute. done. Qed.

Lemma sample_add_ok t db : store_ok sample_json id db → store_ok sample_json id (sample_add t db).1.
Proof.
  intros H. destruct (sample_add t db) as [db' r] eqn:E. cbn [fst].
  destruct (addTunnel_spec sample_json id sample_like sample_json_laws sample_like_any 7 _ None t db db' r
    H ltac:(done) E) as [[-> _]|(? & ? & ? & _ & _ & _ & _ & _ & Hw & _)]; [done|apply Hw].
Qed.

Lemma sample_db_ok : store_ok sample_json id sample_db.
Proof. unfold sample_db. do 3 apply sample_add_ok. apply empty_store_ok. Qed.

(** An edit of the remote port of a tunnel with an ingress configuration does
    not reach it: the port it listens on, and its lock, stay. *)
Definition sample_edit : tunnel_edit := {|
  ed_Name := "web"; ed_LocalIP := "127.0.0.1"; ed_LocalPort := 80; ed_RemotePort := 9090; ed_Domain := "";
  ed_IngressBPS := 0; ed_EgressBPS := 0 |}.

Example edit_keeps_the_port :
  match (UpdateTunnelByID sample_json id sample_like 9 None "c1" "t3" sample_edit sample_db).2 with
  | Ok t => st_RemotePort t = 9090 ∧ tunnelIngressPort sample_json t = 8080
  | Err _ => False
  end.
Proof. vm_compute. done. Qed.
