(* ===== verification/TunnelRouting.v ===== *)
(** Routing HTTP requests by host: [findHTTPDomainClaim]
    (internal/server/http_domain_store.go) finds the most specific tunnel of
    the host in every database that meets the invariant of the store. *)
From Stdlib Require Import ZArith Lia Ascii String.
From stdpp Require Import base tactics numbers list gmap strings sorting.
From S2P Require Import Prelude Records GoStrings Protocol TunnelState HTTPDomains TunnelSpec Coordinator TunnelStore TunnelStoreInv TunnelSamples.

Section Routing.
Context (js : store_json) (unicode_lower : string → string).

(** The tunnel is exposed for the host. *)
Definition serves (host : string) (t : StoredTunnel) : Prop :=
  ep_Type (st_Ingress t) = IngressTypeHTTPHost ∧ ep_Location (st_Ingress t) = "server"%string ∧
  httpDomainMatches unicode_lower (tunnelIngressDomain js unicode_lower t) host = true.

(** Position of its pattern among the candidates of the host, which have
    ever more stars. *)
Definition specificity (host : string) (t : StoredTunnel) : option nat :=
  rank_of (canonicalHTTPDomain unicode_lower (tunnelIngressDomain js unicode_lower t))
    (httpDomainCandidates unicode_lower host).

Lemma rank_of_Some d l : is_Some (rank_of d l) ↔ d ∈ l.
Proof.
  unfold rank_of. rewrite fmap_is_Some. split.
  - intros [[i c] (Hi & -> & _)%list_find_Some]. by eapply list_elem_of_lookup_2.
  - intros Hd. destruct (list_find_elem_of (λ c, c = d) l d) as [[i c] E]; [done..|]. by exists (i, c).
Qed.
Lemma rank_of_lookup d l k : rank_of d l = Some k → l !! k = Some d.
Proof. unfold rank_of. intros ([i c] & (Hi & -> & _)%list_find_Some & ->)%fmap_Some. done. Qed.

Lemma server_location t : row_normal js unicode_lower t →
  ep_Location (st_Ingress t) = "server"%string → ep_ClientID (st_Ingress t) = ""%string.
Proof.
  intros [H _] Hl. pose proof (nm_spec _ _ _ H) as Hs.
  apply (sn_server _ Hs). pose proof (nm_valid _ _ _ H) as Hv.
  unfold validateUnifiedTunnelSpec in Hv. cbv zeta in Hv.
  apply bind_unit_ok in Hv as [Ht%check_ok%one_of_spec _].
  apply elem_of_cons in Ht as [Ht|Ht%list_elem_of_singleton]; [done|].
  pose proof (sn_c2c _ Hs Ht) as Hc. change (ep_Location (st_Ingress t) = "client"%string) in Hc. congruence.
Qed.

Lemma http_key t :
  row_normal js unicode_lower t → ep_Type (st_Ingress t) = IngressTypeHTTPHost →
  ep_Location (st_Ingress t) = "server"%string →
  canonicalHTTPDomain unicode_lower (tunnelIngressDomain js unicode_lower t) ≠ ""%string →
  lock_key js unicode_lower t =
    ("ingress:server:http_host:" +:+ canonicalHTTPDomain unicode_lower (tunnelIngressDomain js unicode_lower t))%string.
Proof.
  intros Hn Ht Hl Hd. unfold lock_key, tunnelIngressResourceLock.
  assert (Hnl : listens t = false) by (unfold listens; by rewrite Ht).
  rewrite Hnl, Ht. change (IngressTypeHTTPHost =?s IngressTypeHTTPHost) with true. cbv zeta iota.
  rewrite (proj2 (eqb_str_false _ _) Hd). cbn [fst].
  unfold location_id. rewrite (server_location t Hn Hl), Hl. reflexivity.
Qed.

Lemma candidate_nonempty c host : c ∈ httpDomainCandidates unicode_lower host → c ≠ ""%string.
Proof.
  intros (Hne & k & E & _)%elem_of_candidates ->. unfold route_labels, starred in E.
  destruct k as [|k]; [|done]. cbn [replicate app] in E. rewrite drop_0 in E.
  by apply (split_inj ".") in E.
Qed.

(** *** The scan for the best claim *)

Definition claims (t : StoredTunnel) : bool :=
  (ep_Type (st_Ingress t) =?s IngressTypeHTTPHost) && (ep_Location (st_Ingress t) =?s "server").

(** One row of the scan. *)
Definition better (host : string) (best : option (StoredTunnel * nat)) (row : StoredTunnel)
  : option (StoredTunnel * nat) :=
  match (if claims row then specificity host row else None) with
  | Some rank =>
      let bestRank := match best with
                      | Some (_, r) => r
                      | None => length (httpDomainCandidates unicode_lower host)
                      end in
      if (rank <? bestRank)%nat then Some (read_row js row, rank) else best
  | None => best
  end.

Lemma best_claim_fold now host rows best :
  (∀ row, row ∈ rows → row_normal js unicode_lower row) →
  best_claim js unicode_lower now (httpDomainCandidates unicode_lower host) rows best
    = Ok (fold_left (better host) rows best).
Proof.
  revert best. induction rows as [|r rows IH]; intros best Hn; [done|].
  cbn [best_claim fold_left]. rewrite scan_row by (apply Hn; by left). cbn [mbind result_bind]. cbv zeta.
  change (st_Ingress (read_row js r)) with (st_Ingress r).
  rewrite (same_resource_domain js unicode_lower (read_row js r) r) by done.
  rewrite <- negb_andb. fold (claims r). fold (specificity host r).
  assert (Hn' : ∀ row, row ∈ rows → row_normal js unicode_lower row) by (intros; apply Hn; by right).
  unfold better at 2. destruct (claims r); cbn [negb]; [|by apply IH].
  destruct (specificity host r); by apply IH.
Qed.

(** A result at most this rank. *)
Definition at_most (rank : nat) (best : option (StoredTunnel * nat)) : Prop :=
  ∃ t k, best = Some (t, k) ∧ (k ≤ rank)%nat.

Lemma better_spec host best row :
  (better host best row = best ∨
   ∃ k, better host best row = Some (read_row js row, k) ∧ claims row = true ∧ specificity host row = Some k) ∧
  (∀ rank, at_most rank best → at_most rank (better host best row)) ∧
  (∀ k, claims row = true → specificity host row = Some k → at_most k (better host best row)).
Proof.
  unfold better, at_most. destruct (claims row); [|split_and!; [by left|done|done]].
  destruct (specificity host row) as [rank|] eqn:Er; [|split_and!; [by left|done|done]].
  assert (Hlen : (rank < length (httpDomainCandidates unicode_lower host))%nat)
    by by apply rank_of_lookup, lookup_lt_Some in Er.
  cbv zeta. destruct best as [[t0 k0]|].
  - destruct (Nat.ltb_spec rank k0); split_and!; [right; by exists rank| |
      |by left|done|]; intros; simplify_eq; naive_solver lia.
  - destruct (Nat.ltb_spec rank (length (httpDomainCandidates unicode_lower host))); [|lia].
    split_and!; [right; by exists rank|naive_solver|]. intros; simplify_eq; naive_solver lia.
Qed.

Lemma best_of_rows host rows best :
  let res := fold_left (better host) rows best in
  (res = best ∨ ∃ row k, res = Some (read_row js row, k) ∧ row ∈ rows ∧ claims row = true ∧
                         specificity host row = Some k) ∧
  (∀ rank, at_most rank best → at_most rank res) ∧
  (∀ row k, row ∈ rows → claims row = true → specificity host row = Some k → at_most k res).
Proof.
  cbv zeta. revert best. induction rows as [|r rows IH]; intros best; cbn [fold_left].
  { split_and!; [by left|done|by intros ? ? ?%elem_of_nil]. }
  destruct (better_spec host best r) as (Bres & Bmost & Brow).
  destruct (IH (better host best r)) as (Ires & Imost & Irow). split_and!.
  - destruct Ires as [->|(row & k & ? & ? & ?)]; [|right; exists row, k; split_and!; [done|by right|naive_solver..]].
    destruct Bres as [->|(k & -> & ? & ?)]; [by left|right]. exists r, k. split_and!; try done. by left.
  - intros rank ?. by apply Imost, Bmost.
  - intros row k [->|Hin]%elem_of_cons Hc Hk; [by apply Imost, Brow|by eapply Irow].
Qed.

(** *** The claim *)

Lemma serves_spec host t :
  serves host t ↔ claims t = true ∧ is_Some (specificity host t).
Proof.
  unfold serves, claims, specificity. rewrite andb_true_iff, !eqb_str_true, matches_spec, rank_of_Some. tauto.
Qed.

(** The tunnels of a host are among the rows that are scanned. *)
Lemma serving_row db host id t :
  store_ok js unicode_lower db → tunnels db !! id = Some t → serves host t →
  t ∈ rows_by_id db (λ t, existsb (λ kl, one_of kl.1 (host_lock_keys (httpDomainCandidates unicode_lower host))
                                         && (rl_tunnel_id kl.2 =?s st_ID t))
                            (map_to_list (tunnel_resource_locks db))).
Proof.
  intros H Hid (Ht & Hl & Hm). apply elem_of_rows_by_id. split; [|by exists id].
  destruct (so_rows _ _ _ H _ _ Hid) as [Hrid Hn]. apply matches_spec in Hm.
  pose proof (candidate_nonempty _ _ Hm) as Hd. pose proof (http_key t Hn Ht Hl Hd) as Hk.
  destruct (so_locked _ _ _ H id t Hid ltac:(by rewrite Hk)) as (l & Hlock & Hlid).
  apply existsb_map. exists (lock_key js unicode_lower t), l. split; [done|]. cbn [fst snd].
  rewrite Hlid, Hrid, eqb_str_refl, andb_true_r. apply one_of_spec. unfold host_lock_keys.
  apply list_elem_of_bind. eexists. split; [|exact Hm]. rewrite Hk. by left.
Qed.

(** Two tunnels of one host have one owner and patterns of different ranks. *)
Lemma serving_unique db host id t id' t' k k' :
  store_ok js unicode_lower db → tunnels db !! id = Some t → tunnels db !! id' = Some t' → id ≠ id' →
  serves host t → serves host t' → specificity host t = Some k → specificity host t' = Some k' →
  st_OwnerUserID t = st_OwnerUserID t' ∧ st_OwnerUserID t ≠ ""%string ∧ k ≠ k'.
Proof.
  intros H Hid Hid' Hne (T1 & L1 & M1) (T2 & L2 & M2) Hk Hk'.
  pose proof (matches_overlap _ _ _ _ M1 M2) as Ho. apply matches_spec in M1, M2.
  destruct (so_exclusive _ _ _ H id t id' t' Hid Hid' Hne) as [_ Hd].
  destruct (so_rows _ _ _ H _ _ Hid) as [_ Hn1]. destruct (so_rows _ _ _ H _ _ Hid') as [_ Hn2].
  assert (Hc : httpDomainsConflict unicode_lower (tunnelIngressDomain js unicode_lower t) (st_OwnerUserID t)
                 (tunnelIngressDomain js unicode_lower t') (st_OwnerUserID t') = false).
  { apply not_true_is_false. intros Hc. apply Hd. split; try done.
    - split; [congruence|]. by rewrite !server_location.
    - split; by eapply candidate_nonempty. }
  unfold httpDomainsConflict in Hc. rewrite Ho in Hc. cbn [negb] in Hc.
  rewrite !orb_false_iff, negb_false_iff, !eqb_str_false, eqb_str_true in Hc.
  destruct Hc as [[[Hp Ho1] Ho2] Heq]. split_and!; [done|done|]. intros <-.
  apply rank_of_lookup in Hk, Hk'. congruence.
Qed.

(** C19: a request goes to the most specific tunnel of its host.  In every
    database that meets the invariant the lookup cannot fail; it finds no
    claim only if no server tunnel has a pattern that matches the host;
    otherwise it returns a tunnel that matches, every other tunnel that
    matches belongs to the same (known) user and has a less specific pattern,
    so a request never reaches a tunnel of another user, nor a wildcard tunnel
    that a more specific one overrides. *)
Theorem http_request_routing (now : Z) (db : database) (host : string) :
  store_ok js unicode_lower db →
  match findHTTPDomainClaim js unicode_lower now db host with
  | Err _ => False
  | Ok None => ∀ id t, tunnels db !! id = Some t → ¬ serves host t
  | Ok (Some claim) => ∃ id t k,
      tunnels db !! id = Some t ∧ claim = read_row js t ∧ serves host t ∧ specificity host t = Some k ∧
      ∀ id' t', tunnels db !! id' = Some t' → serves host t' → id' ≠ id →
        st_OwnerUserID t' = st_OwnerUserID t ∧ st_OwnerUserID t ≠ ""%string ∧
        ∃ k', specificity host t' = Some k' ∧ (k < k')%nat
  end.
Proof.
  intros H. unfold findHTTPDomainClaim. cbv zeta.
  destruct (httpDomainCandidates unicode_lower host) as [|c cs] eqn:Ec.
  { intros id t Hid (_ & _ & Hm%matches_spec). rewrite Ec in Hm. by apply elem_of_nil in Hm. }
  rewrite <- Ec. clear c cs Ec.
  set (rows := rows_by_id db _).
  assert (Hn : ∀ row, row ∈ rows → ∃ id, tunnels db !! id = Some row) by by intros row [_ Hr]%elem_of_rows_by_id.
  rewrite best_claim_fold by (intros row (id & Hid)%Hn; by eapply (so_rows _ _ _ H)).
  destruct (best_of_rows host rows None) as (Hres & _ & Hrows).
  assert (Hserve : ∀ id t, tunnels db !! id = Some t → serves host t →
    ∃ k, specificity host t = Some k ∧ at_most k (fold_left (better host) rows None)).
  { intros id t Hid Hs. pose proof (proj1 (serves_spec host t) Hs) as [Hc [k Hk]]. exists k. split; [done|].
    eapply Hrows; [by eapply serving_row|done|done]. }
  destruct Hres as [E|(t & k & E & Hin & Hc & Hk)]; rewrite E in Hserve |- *.
  - intros id t Hid Hs. destruct (Hserve id t Hid Hs) as (k & _ & t' & k' & [=] & _).
  - destruct (Hn t Hin) as (id & Hid). exists id, t, k.
    assert (Hs : serves host t) by (apply serves_spec; split; [done|by exists k]). split_and!; try done.
    intros id' t' Hid' Hs' Hne. destruct (Hserve id' t' Hid' Hs') as (k' & Hk' & ? & ? & [= <- <-] & Hle).
    destruct (serving_unique db host id t id' t' k k' H Hid Hid') as (E1 & E2 & E3); [done..|].
    split_and!; [done|done|]. exists k'. split; [done|lia].
Qed.
End Routing.

Lemma http_request_routing_witness :
  store_ok sample_json id sample_db ∧ routed_to "app.x.com" = Ok (Some "t2"%string) ∧
  match findHTTPDomainClaim sample_json id 7 sample_db "app.x.com" with
  | Err _ => False
  | Ok None => ∀ i t, tunnels sample_db !! i = Some t → ¬ serves sample_json id "app.x.com" t
  | Ok (Some claim) => ∃ i t k,
      tunnels sample_db !! i = Some t ∧ claim = read_row sample_json t ∧
      serves sample_json id "app.x.com" t ∧ specificity sample_json id "app.x.com" t = Some k ∧
      ∀ i' t', tunnels sample_db !! i' = Some t' → serves sample_json id "app.x.com" t' → i' ≠ i →
        st_OwnerUserID t' = st_OwnerUserID t ∧ st_OwnerUserID t ≠ ""%string ∧
        ∃ k', specificity sample_json id "app.x.com" t' = Some k' ∧ (k < k')%nat
  end.
Proof.
  split; [exact sample_db_ok|]. split; [vm_compute; reflexivity|].
  apply (http_request_routing sample_json id 7 sample_db "app.x.com"). exact sample_db_ok.
Defined.
