(* ===== verification/TunnelStoreProps.v ===== *)
(** The properties of the tunnel store, over all runs of its operations. *)
From Stdlib Require Import ZArith Lia Ascii String.
From stdpp Require Import base tactics numbers list gmap strings sorting relations pretty.
From S2P Require Import Prelude Records GoStrings Protocol TunnelState HTTPDomains TunnelSpec Coordinator TunnelStore TunnelStoreInv TunnelStoreRuns TunnelSamples.

(** ** Operations *)

(** [OpAccounts]: other stores change the users and the registered clients. *)
Inductive store_op :=
| OpAdd (newID : result string) (tunnel : StoredTunnel)
| OpAddForUser (newID : result string) (ownerUserID : string) (tunnel : StoredTunnel)
| OpRemove (clientID name : string)
| OpRemoveByID (clientID id : string)
| OpRemoveWithActivity (clientID id : string)
| OpDeleteByClient (clientID : string)
| OpStates (clientID name desired runtime err : string)
| OpStatesIfCurrent (clientID id : string) (revision : Z) (desired runtime err : string)
| OpTransition (clientID id : string) (revision : Z) (desired expected runtime err : string)
| OpStatesWithActivity (clientID id desired runtime err action : string)
| OpHostname (clientID hostname : string)
| OpUpdate (clientID name : string) (ed : tunnel_edit)
| OpUpdateByID (clientID id : string) (ed : tunnel_edit)
| OpUpdateRevision (clientID id : string) (revision : Z) (ed : tunnel_edit)
| OpReplace (clientID id : string) (revision : Z) (replacement : StoredTunnel)
| OpMigrate (id : string) (revision : Z) (replacement : StoredTunnel)
| OpP2P (grants : list p2pGrantSnapshot) (expectedSessionID : string) (tr : P2PProjectionTransition)
| OpAccounts (u : gmap string string) (c : gmap string (option string)).

(** The database and whether the operation succeeded. *)
Definition outcome {A} (r : database * result A) : database * bool := (r.1, is_ok r.2).
Definition panicking_outcome {A} (db : database) (r : panicking (database * result A)) : database * bool :=
  match r with Returns r => outcome r | Panics _ => (db, false) end.

Section Props.
Context (js : store_json) (unicode_lower : string → string) (sql_like : string → string → bool).

Definition run_op (now : Z) (sql : option goerror) (op : store_op) (db : database) : database * bool :=
  match op with
  | OpAdd newID t => outcome (addTunnel js unicode_lower sql_like now newID sql t db)
  | OpAddForUser newID o t => outcome (AddTunnelForUser js unicode_lower sql_like now newID sql o t db)
  | OpRemove c n => outcome (RemoveTunnel sql c n db)
  | OpRemoveByID c id => outcome (RemoveTunnelByID sql c id db)
  | OpRemoveWithActivity c id => outcome (RemoveTunnelByIDWithActivity js unicode_lower now sql c id db)
  | OpDeleteByClient c => outcome (DeleteTunnelsByClientIDReturningDeleted js unicode_lower now sql c db)
  | OpStates c n d r e => panicking_outcome db (UpdateStates now sql c n d r e db)
  | OpStatesIfCurrent c id rev d r e => panicking_outcome db (UpdateStatesIfCurrent now sql c id rev d r e db)
  | OpTransition c id rev d x r e =>
      panicking_outcome db (TransitionRuntimeStateIfCurrent now sql c id rev d x r e db)
  | OpStatesWithActivity c id d r e a =>
      panicking_outcome db (UpdateTunnelStatesWithActivity js unicode_lower now sql c id d r e a db)
  | OpHostname c h => outcome (UpdateHostname now sql c h db)
  | OpUpdate c n ed => outcome (UpdateTunnel js unicode_lower sql_like now sql c n ed db)
  | OpUpdateByID c id ed => outcome (UpdateTunnelByID js unicode_lower sql_like now sql c id ed db)
  | OpUpdateRevision c id rev ed =>
      outcome (UpdateTunnelByIDWithRevision js unicode_lower sql_like now sql c id rev ed db)
  | OpReplace c id rev r => outcome (replaceTunnelByID js unicode_lower sql_like now sql c id rev r db)
  | OpMigrate id rev r => outcome (migrateTunnelTargetByID js unicode_lower sql_like now sql id rev r db)
  | OpP2P gs x tr => outcome (ApplyP2PLifecycle js unicode_lower now sql gs x tr db)
  | OpAccounts u c => ({| tunnels := tunnels db; tunnel_resource_locks := tunnel_resource_locks db;
                          users := u; registered_clients := c |}, true)
  end.

Inductive store_step : database → database → Prop :=
| do_op now sql op db : now ≠ 0 → store_step db (run_op now sql op db).1.

(** *** What an operation may do to the row of one identifier *)

Definition adds (op : store_op) : bool := match op with OpAdd _ _ | OpAddForUser _ _ _ => true | _ => false end.

(** The configuration of the tunnel is at stake, at this revision. *)
Definition guarded (op : store_op) (id : string) (rev : Z) : Prop :=
  match op with
  | OpUpdateRevision _ i r _ | OpReplace _ i r _ | OpMigrate i r _ => i = id ∧ r = rev
  | _ => False
  end.

Record row_evolves (id : string) (op : store_op) (row row' : StoredTunnel) : Prop := {
  ev_owner : st_OwnerUserID row' = st_OwnerUserID row;
  ev_revision : st_Revision row' = st_Revision row ∨
                guarded op id (st_Revision row) ∧ st_Revision row' = st_Revision row + 1;
}.

(** An operation that succeeds or not, and its effect. *)
Record op_effect (op : store_op) (db db' : database) (success : bool) : Prop := {
  oe_ok : store_ok js unicode_lower db';
  oe_failed : success = false → db' = db;
  oe_rows : ∀ id row', adds op = false → tunnels db' !! id = Some row' →
    ∃ row, tunnels db !! id = Some row ∧ row_evolves id op row row';
  oe_guarded : ∀ id rev, guarded op id rev → success = true →
    (∃ row, tunnels db !! id = Some row ∧ st_Revision row = rev) ∧
    (∃ row', tunnels db' !! id = Some row' ∧ st_Revision row' = rev + 1);
}.

(** *** Every operation has such an effect *)
Context (Hjs : store_json_laws js) (Hlike : like_any sql_like).
Abbreviation ok := (store_ok js unicode_lower).

Lemma row_evolves_refl id op row : row_evolves id op row row.
Proof. split; [done|by left]. Qed.

Lemma effect_same op db : ok db → op_effect op db db false.
Proof. intros H. split; try done. intros id row _ Hid. exists row. split; [done|apply row_evolves_refl]. Qed.

(** An operation that is not guarded. *)
Definition free (op : store_op) : Prop := ∀ id rev, ¬ guarded op id rev.

Lemma effect_rows op db db' :
  ok db' → free op →
  (∀ id row', tunnels db' !! id = Some row' →
     ∃ row, tunnels db !! id = Some row ∧ st_OwnerUserID row' = st_OwnerUserID row ∧
            st_Revision row' = st_Revision row) →
  op_effect op db db' true.
Proof.
  intros H Hf Hr. split; [done|done| |by intros ? ? ?%Hf].
  intros id row' _ (row & Hid & Eo & Er)%Hr. exists row. split; [done|]. split; [done|by left].
Qed.

Lemma effect_delete op f db : ok db → free op → op_effect op db (delete_where f db) true.
Proof.
  intros H Hf. apply effect_rows; [by apply store_ok_delete|done|].
  intros id row [Hid _]%map_lookup_filter_Some. by exists row.
Qed.

Lemma effect_update op f g db db' b :
  ok db → free op →
  (∀ row, row_normal js unicode_lower row →
     keeps row (g row) ∧ row_normal js unicode_lower (g row) ∧ st_Revision (g row) = st_Revision row) →
  update_where f g db = Ok (db', b) → op_effect op db db' true.
Proof.
  intros H Hf Hg Hu. apply effect_rows; [|done|].
  - eapply update_where_ok; [done| |exact Hu]. intros id t Hid _.
    destruct (Hg t) as (? & ? & _); [by eapply (so_rows _ _ _ H)|done].
  - apply update_where_spec in Hu as [-> _]. intros id row' (row & <- & Hid)%lookup_fmap_Some.
    exists row. split; [done|]. destruct (f row); [|done].
    destruct (Hg row) as (K & _ & E); [by eapply (so_rows _ _ _ H)|]. split; [apply K|done].
Qed.

Lemma effect_written op id db db' row row' :
  ok db → written js unicode_lower db db' row' → st_ID row' = id → tunnels db !! id = Some row →
  row_evolves id op row row' →
  (∀ i r, guarded op i r → i = id ∧ r = st_Revision row ∧ st_Revision row' = r + 1) →
  op_effect op db db' true.
Proof.
  intros H Hw <- Hid Hev Hg. split; [apply Hw|done| |].
  - intros i r _. rewrite (wr_tunnels _ _ _ _ _ Hw). intros [[<- <-]|[_ Hi]]%lookup_insert_Some; [by exists row|].
    exists r. split; [done|apply row_evolves_refl].
  - intros i r (-> & -> & E)%Hg _. split; [by exists row|]. exists row'.
    by rewrite (wr_tunnels _ _ _ _ _ Hw), lookup_insert_eq.
Qed.

Lemma add_effect now newID sql op t db :
  ok db → now ≠ 0 → adds op = true → free op →
  op_effect op db (addTunnel js unicode_lower sql_like now newID sql t db).1
    (is_ok (addTunnel js unicode_lower sql_like now newID sql t db).2).
Proof.
  intros H Hnow Hadd Hf. destruct (addTunnel _ _ _ _ _ _ _ _) as [db' r] eqn:E. cbn.
  destruct (addTunnel_spec js unicode_lower sql_like Hjs Hlike now newID sql t db db' r H Hnow E)
    as [[-> ->]|(id & n & o & -> & _ & _ & _ & _ & Hw & _)]; [by apply effect_same|].
  split; [apply Hw|done|by rewrite Hadd|by intros ? ? ?%Hf].
Qed.

(** A transaction whose body has an effect. *)
Lemma tx_effect {A} op sql db (body : result (database * A)) :
  ok db → (∀ db' a, body = Ok (db', a) → op_effect op db db' true) →
  op_effect op db (outcome (transaction sql db body)).1 (outcome (transaction sql db body)).2.
Proof.
  intros H Hb. destruct (transaction sql db body) as [db' r] eqn:E. cbn.
  destruct (transaction_spec _ _ _ _ _ E) as [[-> [e ->]]|(a & Ha & ->)]; [by apply effect_same|].
  by eapply Hb.
Qed.

Lemma states_effect now sql op f d r e db :
  ok db → now ≠ 0 → free op →
  let result := panicking_outcome db
    (normalized ← states_only d r e; mret (transaction sql db (update_where (f normalized) (state_columns now normalized) db))) in
  op_effect op db result.1 result.2.
Proof.
  intros H Hnow Hf. cbv zeta. destruct (states_only d r e) as [n|x] eqn:En; [|by apply effect_same].
  apply (tx_effect op); [done|]. intros db' b. apply effect_update; [done|done|].
  intros row Hrow. destruct (state_columns_ok js unicode_lower now _ d r e n row En Hnow Hrow). by split_and!.
Qed.

(** Edits write the row they read. *)
Lemma edit_effect now op id ed name rev row stored db db' r :
  ok db → now ≠ 0 → tunnels db !! id = Some row →
  (rev = st_Revision row ∧ free op) ∨
  (rev = st_Revision row + 1 ∧ 0 < st_Revision row ∧ guarded op id (st_Revision row) ∧
   ∀ i r, guarded op i r → i = id ∧ r = st_Revision row) →
  normalize js unicode_lower now
    (apply_edit now name rev ed (read_row js row)) = Ok stored →
  write_edit js unicode_lower sql_like now (edit_columns rev stored row) stored db
    = Ok (db', r) →
  op_effect op db db' true.
Proof.
  intros H Hnow Hid Hrev Hn Hw.
  assert (Hrev0 : rev ≠ 0).
  { destruct Hrev as [[-> _]|(-> & ? & _)]; [|lia].
    destruct (so_rows _ _ _ H _ _ Hid) as [_ [Hrow _]]. exact (nm_revision _ _ _ Hrow). }
  destruct (write_edit_written js unicode_lower sql_like Hlike now ed name rev id row stored db db' r
              H Hid Hnow Hrev0 Hn Hw) as (-> & Hwr & _).
  destruct (so_rows _ _ _ H _ _ Hid) as [Hrid _].
  apply (effect_written op id db db' row _ H Hwr Hrid Hid).
  - split; [reflexivity|]. destruct Hrev as [[-> _]|(-> & _ & Hg & _)]; [by left|by right].
  - intros i r' Hg. destruct Hrev as [[_ Hf]|(-> & _ & _ & Hu)]; [by apply Hf in Hg|].
    destruct (Hu i r' Hg) as [-> ->]. done.
Qed.

Lemma select_name_Some db clientID name row :
  ok db → select_where db (λ t, (st_ClientID t =?s clientID) && (st_Name t =?s name)) = Some row →
  tunnels db !! st_ID row = Some row ∧ st_ClientID row = clientID ∧ st_Name row = name.
Proof.
  intros H (Hf & id' & Hid)%select_where_Some. apply andb_true_iff in Hf as [Hc Hi].
  apply eqb_str_true in Hc, Hi. destruct (so_rows _ _ _ H _ _ Hid) as [E _]. by subst.
Qed.

Lemma update_name_effect now sql c n ed db :
  ok db → now ≠ 0 →
  op_effect (OpUpdate c n ed) db (run_op now sql (OpUpdate c n ed) db).1 (run_op now sql (OpUpdate c n ed) db).2.
Proof.
  intros H Hnow. cbn [run_op]. unfold UpdateTunnel.
  destruct (select_where _ _) as [row|] eqn:Es; [|by apply effect_same].
  apply select_name_Some in Es as (Hid & Hc & Hn); [|done].
  apply tx_effect; [done|]. intros db' a Hb.
  rewrite scan_row in Hb by by eapply (so_rows _ _ _ H).
  apply bind_ok in Hb as (? & [= <-] & Hb).
  apply bind_ok in Hb as (stored & Hst & Hw).
  refine (edit_effect now _ (st_ID row) ed _ _ row stored db db' a H Hnow Hid _ Hst Hw).
  left. split; [reflexivity|by intros ? ? []].
Qed.

Lemma update_id_effect now sql c id ed db :
  ok db → now ≠ 0 →
  op_effect (OpUpdateByID c id ed) db (run_op now sql (OpUpdateByID c id ed) db).1
    (run_op now sql (OpUpdateByID c id ed) db).2.
Proof.
  intros H Hnow. cbn [run_op]. unfold UpdateTunnelByID.
  destruct (select_where _ _) as [row|] eqn:Es; [|by apply effect_same].
  eapply select_id_Some in Es as (Hid & Hc & Hrid); [|done].
  apply tx_effect; [done|]. intros db' a Hb.
  rewrite scan_row in Hb by by eapply (so_rows _ _ _ H).
  apply bind_ok in Hb as (? & [= <-] & Hb).
  apply bind_ok in Hb as (stored & Hst & Hw).
  refine (edit_effect now _ id ed _ _ row stored db db' a H Hnow Hid _ Hst Hw).
  left. split; [reflexivity|by intros ? ? []].
Qed.

Lemma update_revision_effect now sql c id rev ed db :
  ok db → now ≠ 0 →
  op_effect (OpUpdateRevision c id rev ed) db (run_op now sql (OpUpdateRevision c id rev ed) db).1
    (run_op now sql (OpUpdateRevision c id rev ed) db).2.
Proof.
  intros H Hnow. cbn [run_op]. unfold UpdateTunnelByIDWithRevision.
  destruct (select_where _ _) as [row|] eqn:Es; [|by apply effect_same].
  eapply select_id_Some in Es as (Hid & Hc & Hrid); [|done].
  apply tx_effect; [done|]. intros db' a Hb.
  rewrite scan_row in Hb by by eapply (so_rows _ _ _ H).
  apply bind_ok in Hb as (? & [= <-] & Hb).
  apply guard_ok in Hb as [Hpos%Z.leb_gt Hb]. apply guard_negb_ok in Hb as [Hrev%Z.eqb_eq Hb].
  change (st_Revision (read_row js row)) with (st_Revision row) in Hrev. subst rev.
  apply bind_ok in Hb as (stored & Hst & Hb).
  change (st_Revision (read_row js row)) with (st_Revision row) in Hst. apply guard_negb_ok in Hb as [_ Hw].
  destruct (edit_spec js unicode_lower now ed (ed_Name ed) (st_Revision row + 1) row stored) as (E & _);
    [by eapply (so_rows _ _ _ H)|done|lia|exact Hst|].
  assert (Erev : st_Revision stored = st_Revision row + 1) by by rewrite E.
  rewrite Erev in Hw.
  refine (edit_effect now _ id ed (ed_Name ed) (st_Revision row + 1) row stored db db' a H Hnow Hid _ Hst Hw).
  right. split_and!; [done|done|done|]. by intros i r [<- <-].
Qed.

Lemma hostname_effect now sql c h db :
  ok db → now ≠ 0 →
  op_effect (OpHostname c h) db (run_op now sql (OpHostname c h) db).1 (run_op now sql (OpHostname c h) db).2.
Proof.
  intros H Hnow. cbn [run_op]. unfold UpdateHostname. cbv zeta.
  destruct (negb _).
  { apply effect_rows; [done|by intros ? ? []|]. intros id row Hid. by exists row. }
  apply tx_effect; [done|]. intros db' a ([db1 b] & Hu & [= <- <-])%bind_ok.
  refine (effect_update _ _ _ db db1 b H _ _ Hu); [by intros ? ? []|]. intros row Hrow.
  destruct (hostname_ok js unicode_lower now h row Hnow Hrow). by split_and!.
Qed.

Lemma states_activity_effect now sql c id d r e a db :
  ok db → now ≠ 0 →
  op_effect (OpStatesWithActivity c id d r e a) db (run_op now sql (OpStatesWithActivity c id d r e a) db).1
    (run_op now sql (OpStatesWithActivity c id d r e a) db).2.
Proof.
  intros H Hnow. cbn [run_op]. unfold UpdateTunnelStatesWithActivity. cbv zeta.
  destruct (negb _); [by apply effect_same|].
  destruct (select_where _ _) as [row|] eqn:Es; [|by apply effect_same].
  eapply select_id_Some in Es as (Hid & Hc & Hrid); [|done].
  rewrite scan_row by by eapply (so_rows _ _ _ H). cbn [mbind result_bind].
  destruct (if a =?s "resumed" then _ else _) as [[]|]; cbn [mbind result_bind]; [|by apply effect_same].
  destruct (setStoredTunnelStates _ _ _ _) as [n|] eqn:En; [|by apply effect_same].
  cbn [mbind panicking_bind].
  destruct (unchanged_states _ _ _).
  - apply (tx_effect (OpStatesWithActivity c id d r e a)); [done|]. intros db' x [= <- _].
    apply effect_rows; [done|by intros ? ? []|]. intros i row' Hi. by exists row'.
  - apply (tx_effect (OpStatesWithActivity c id d r e a)); [done|].
    intros db' x ([db1 b] & Hu & Hb)%bind_ok.
    assert (Hdb : db1 = db') by (by destruct b; [injection Hb|]). subst db1.
    refine (effect_update _ _ _ db db' b H _ _ Hu); [by intros ? ? []|]. intros t Ht.
    destruct (state_columns_ok js unicode_lower now _ d r e n t En Hnow Ht). by split_and!.
Qed.

(** Rows keep their owner and revision. *)
Definition rows_kept (db db' : database) : Prop := ∀ id row', tunnels db' !! id = Some row' →
  ∃ row, tunnels db !! id = Some row ∧ st_OwnerUserID row' = st_OwnerUserID row ∧
         st_Revision row' = st_Revision row.

Lemma projected_kept tr row row' :
  projected tr row row' → st_OwnerUserID row' = st_OwnerUserID row ∧ st_Revision row' = st_Revision row.
Proof.
  unfold projected. intros E. split; [exact (f_equal st_OwnerUserID E)|exact (f_equal st_Revision E)].
Qed.

Lemma project_grant_kept now x tr g db r db' r' :
  ok db → now ≠ 0 → project_grant js unicode_lower now x tr g (db, r) = Ok (db', r') →
  ok db' ∧ rows_kept db db'.
Proof.
  intros H Hnow Hg. destruct (project_grant_spec js unicode_lower now x tr g db r db' r' H Hnow Hg)
    as (Hok & _ & _ & Hother & Hcase). split; [done|]. intros id row' Hid'.
  destruct (decide (id = gn_TunnelID g)) as [->|Hne]; [|rewrite Hother in Hid' by done; by exists row'].
  destruct (tunnels db !! gn_TunnelID g) as [row|] eqn:Hid; [|destruct Hcase as [-> _]; congruence].
  destruct (applies x g row); [|destruct Hcase as [-> _]; exists row'; by rewrite <- Hid].
  destruct Hcase as (_ & row'' & E & Hp%projected_kept). exists row. by simplify_eq.
Qed.

Lemma project_grants_kept now x tr gs db r db' r' :
  ok db → now ≠ 0 → project_grants js unicode_lower now x tr gs (db, r) = Ok (db', r') →
  ok db' ∧ rows_kept db db'.
Proof.
  intros H Hnow. revert db r H. induction gs as [|g gs IH]; intros db r H.
  { intros [= <- <-]. split; [done|]. intros id row' Hid. by exists row'. }
  cbn [project_grants]. intros ([db1 r1] & Hg & Hrest)%bind_ok.
  destruct (project_grant_kept _ _ _ _ _ _ _ _ H Hnow Hg) as [H1 K1].
  destruct (IH db1 r1 H1 Hrest) as [H2 K2]. split; [done|].
  intros id row2 (row1 & Hid1 & E1 & E2)%K2. destruct (K1 id row1 Hid1) as (row & Hid & E3 & E4).
  exists row. split; [done|]. split; congruence.
Qed.

Lemma p2p_effect now sql gs x tr db :
  ok db → now ≠ 0 →
  op_effect (OpP2P gs x tr) db (run_op now sql (OpP2P gs x tr) db).1 (run_op now sql (OpP2P gs x tr) db).2.
Proof.
  intros H Hnow. cbn [run_op]. unfold ApplyP2PLifecycle. cbv zeta. destruct gs as [|g gs'] eqn:Eg.
  { apply effect_rows; [done|by intros ? ? []|]. intros id row Hid. by exists row. }
  apply tx_effect; [done|]. intros db' res Hb.
  destruct (project_grants_kept now x tr (g :: gs') db _ db' res H Hnow Hb) as [Hok Hk].
  by apply effect_rows; [|intros ? ? []|].
Qed.

Lemma replace_effect now sql c id rev r db :
  ok db → now ≠ 0 →
  op_effect (OpReplace c id rev r) db (run_op now sql (OpReplace c id rev r) db).1
    (run_op now sql (OpReplace c id rev r) db).2.
Proof.
  intros H Hnow. cbn [run_op].
  destruct (replaceTunnelByID _ _ _ _ _ _ _ _ _ _) as [db' res] eqn:E. cbn.
  destruct (replaceTunnelByID_spec js unicode_lower sql_like Hjs Hlike now sql c id rev r db db' res H Hnow E)
    as [[-> ->]|(row & row' & -> & Hid & <- & _ & _ & Hw & Hid' & Hrev & Ho & _)]; [by apply effect_same|].
  apply (effect_written _ id db db' row row' H Hw Hid' Hid).
  - split; [done|by right].
  - by intros i r' [<- <-].
Qed.

Lemma migrate_effect now sql id rev r db :
  ok db → now ≠ 0 →
  op_effect (OpMigrate id rev r) db (run_op now sql (OpMigrate id rev r) db).1
    (run_op now sql (OpMigrate id rev r) db).2.
Proof.
  intros H Hnow. cbn [run_op].
  destruct (migrateTunnelTargetByID _ _ _ _ _ _ _ _ _) as [db' res] eqn:E. cbn.
  destruct (migrateTunnelTargetByID_spec js unicode_lower sql_like Hjs Hlike now sql id rev r db db' res H Hnow E)
    as [[-> ->]|(row & row' & after & -> & Hid & <- & _ & Hw & Hid' & Hrev & Ho & _)]; [by apply effect_same|].
  apply (effect_written _ id db db' row row' H Hw Hid' Hid).
  - split; [done|by right].
  - by intros i r' [<- <-].
Qed.

Lemma delete_effects now sql op db :
  ok db →
  match op with
  | OpRemove _ _ | OpRemoveByID _ _ | OpRemoveWithActivity _ _ | OpDeleteByClient _ => True
  | _ => False
  end → op_effect op db (run_op now sql op db).1 (run_op now sql op db).2.
Proof.
  intros H Hop.
  assert (Hdrop : ∀ c id, delete_where (λ t, (st_ClientID t =?s c) && (st_ID t =?s id)) (drop_locks db id) =
                          delete_where (λ t, (st_ClientID t =?s c) && (st_ID t =?s id)) db ∨
                          ∃ t, tunnels db !! id = Some t ∧ st_ClientID t ≠ c).
  { intros c id. destruct (tunnels db !! id) as [t|] eqn:Hid.
    - destruct (decide (st_ClientID t = c)) as [Hc|]; [left|right; by exists t].
      apply (delete_drop js unicode_lower); [done|]. intros t' Ht'. rewrite Hid in Ht'. injection Ht' as <-.
      by rewrite Hc, (proj1 (so_rows _ _ _ H _ _ Hid)), !eqb_str_refl.
    - left. apply (delete_drop js unicode_lower); [done|]. intros t' Ht'. by rewrite Hid in Ht'. }
  destruct op; try done; cbn [run_op].
  - unfold RemoveTunnel. cbv zeta. destruct (negb _); [by apply effect_same|].
    apply tx_effect; [done|]. intros db' a [= <- <-]. by apply effect_delete; [|intros ? ? []].
  - unfold RemoveTunnelByID. cbv zeta. destruct (exists_where _ _) eqn:Ex; cbn [negb]; [|by apply effect_same].
    apply tx_effect; [done|]. intros db' a [= <- <-].
    destruct (Hdrop clientID id) as [->|(t & Hid & Hne)]; [by apply effect_delete; [|intros ? ? []]|].
    exfalso. unfold exists_where in Ex. apply existsb_map in Ex as (k & t' & Hk & Ht').
    cbn in Ht'. apply andb_true_iff in Ht' as [Hc%eqb_str_true Hi%eqb_str_true].
    rewrite (proj1 (so_rows _ _ _ H _ _ Hk)) in Hi. by simplify_eq.
  - unfold RemoveTunnelByIDWithActivity. cbv zeta. apply tx_effect; [done|]. intros db' a Hb.
    destruct (select_where _ _) as [row|] eqn:Es; [|done].
    eapply select_id_Some in Es as (Hid & Hc & _); [|done].
    apply bind_ok in Hb as (? & _ & [= <- <-]).
    destruct (Hdrop clientID id) as [->|(t & Hid' & Hne)]; [by apply effect_delete; [|intros ? ? []]|].
    by simplify_eq.
  - unfold DeleteTunnelsByClientIDReturningDeleted. apply tx_effect; [done|].
    intros db' a (? & _ & [= <- <-])%bind_ok. by apply effect_delete; [|intros ? ? []].
Qed.

Lemma run_op_effect now sql op db :
  ok db → now ≠ 0 → op_effect op db (run_op now sql op db).1 (run_op now sql op db).2.
Proof.
  intros H Hnow. destruct op.
  - cbn [run_op]. apply add_effect; [done..|by intros ? ? []].
  - cbn [run_op]. unfold AddTunnelForUser. destruct (ownerUserID =?s ""); [by apply effect_same|].
    apply add_effect; [done..|by intros ? ? []].
  - by apply delete_effects.
  - by apply delete_effects.
  - by apply delete_effects.
  - by apply delete_effects.
  - cbn [run_op]. unfold UpdateStates. cbv zeta. destruct (negb _); [by apply effect_same|].
    destruct (states_only _ _ _) as [n|] eqn:En; [|by apply effect_same].
    cbn [mbind panicking_bind mret panicking_ret panicking_outcome].
    apply tx_effect; [done|]. intros db' a ([db1 b] & Hu & Hb)%bind_ok.
    assert (db1 = db') as -> by (by destruct b; [injection Hb|]).
    refine (effect_update _ _ _ db db' b H _ _ Hu); [by intros ? ? []|]. intros row Hrow.
    destruct (state_columns_ok js unicode_lower now _ desired runtime err n row En Hnow Hrow). by split_and!.
  - refine (states_effect now sql _ (λ n t, (st_ClientID t =?s clientID) && (st_ID t =?s id)
      && (st_Revision t =? revision) && (st_DesiredState t =?s st_DesiredState n)) desired runtime err db H Hnow _).
    by intros ? ? [].
  - refine (states_effect now sql _ (λ n t, (st_ClientID t =?s clientID) && (st_ID t =?s id)
      && (st_Revision t =? revision) && (st_DesiredState t =?s st_DesiredState n)
      && (st_RuntimeState t =?s storageRuntimeStateFromProtocol expected)) desired runtime err db H Hnow _).
    by intros ? ? [].
  - by apply states_activity_effect.
  - by apply hostname_effect.
  - by apply update_name_effect.
  - by apply update_id_effect.
  - by apply update_revision_effect.
  - by apply replace_effect.
  - by apply migrate_effect.
  - by apply p2p_effect.
  - cbn [run_op]. apply effect_rows; [by apply store_ok_accounts|by intros ? ? []|].
    intros id row Hid. by exists row.
Qed.

(** ** The theorems *)

Lemma store_steps_ok db db' : rtc store_step db db' → ok db → ok db'.
Proof.
  induction 1 as [|db1 db2 db3 [now sql op db Hnow] _ IH]; [done|].
  intros H. apply IH. exact (oe_ok _ _ _ _ (run_op_effect now sql op db H Hnow)).
Qed.


End Props.

(** C3: the invariant of the tunnel store over every run of its operations,
    with any failures of the database in between.  Every stored row can be
    read back; names are unique per client and per owner; the locks are
    exactly those of the rows; no two tunnels listen on the same port of one
    place (an unspecified address clashes with every address); and no two HTTP
    tunnels of one place can be meant by one host unless one user owns both
    with different patterns. *)
Theorem tunnel_store_invariant (js : store_json) (unicode_lower : string → string)
    (sql_like : string → string → bool) (db : database)
    (u : gmap string string) (c : gmap string (option string)) :
  store_json_laws js → like_any sql_like →
  rtc (store_step js unicode_lower sql_like)
    {| tunnels := ∅; tunnel_resource_locks := ∅; users := u; registered_clients := c |} db →
  store_ok js unicode_lower db.
Proof. intros Hjs Hlike Hr. by eapply store_steps_ok, empty_store_ok. Qed.

Lemma tunnel_store_invariant_witness :
  rtc (store_step sample_json id sample_like) sample_empty sample_db ∧
  size (tunnels sample_db) = 3%nat ∧ store_ok sample_json id sample_db.
Proof.
  assert (Hadd : ∀ t db, store_step sample_json id sample_like db (sample_add t db).1)
    by (intros t db; exact (do_op sample_json id sample_like 7 None (OpAdd (Ok "new"%string) t) db ltac:(done))).
  assert (Hr : rtc (store_step sample_json id sample_like) sample_empty sample_db)
    by (unfold sample_db; do 3 (eapply rtc_r; [|apply Hadd]); apply rtc_refl).
  split; [exact Hr|]. split; [vm_compute; reflexivity|].
  exact (tunnel_store_invariant sample_json id sample_like sample_db sample_users sample_clients
           sample_json_laws sample_like_any Hr).
Defined.




(** The matching row of a conditional update of the states. *)
Definition current_row (clientID id : string) (revision : Z) (desired expected : string) (row : StoredTunnel)
  : Prop :=
  st_ClientID row = clientID ∧ st_Revision row = revision ∧
  st_DesiredState row = canonicalDesiredState desired ∧
  st_RuntimeState row = storageRuntimeStateFromProtocol expected.

(** [TransitionRuntimeStateIfCurrent] is a compare-and-swap.  It panics
    exactly on invalid states.  Otherwise it reports a transition exactly when
    the tunnel exists with this revision, desired state and expected runtime
    state; then that row has the new states and no other row changes, and when
    it reports none nothing changes at all. *)
Theorem transition_is_compare_and_swap (js : store_json) (unicode_lower : string → string) (now : Z)
    (clientID id : string) (revision : Z) (desired expected runtime err : string) (db : database) :
  store_ok js unicode_lower db →
  match TransitionRuntimeStateIfCurrent now None clientID id revision desired expected runtime err db with
  | Panics e => validateTunnelStates desired runtime err = Err e
  | Returns (db', Err _) => db' = db
  | Returns (db', Ok moved) =>
      validateTunnelStates desired runtime err = Ok tt ∧
      (moved = true ↔ ∃ row, tunnels db !! id = Some row ∧
                             current_row clientID id revision desired expected row) ∧
      (moved = false → db' = db) ∧
      (∀ id', id' ≠ id → tunnels db' !! id' = tunnels db !! id') ∧
      (moved = true → ∃ row', tunnels db' !! id = Some row' ∧
         st_RuntimeState row' = storageRuntimeStateFromProtocol runtime ∧
         st_DesiredState row' = canonicalDesiredState desired ∧ st_Error row' = err ∧
         st_Revision row' = revision)
  end.
Proof.
  intros H. unfold TransitionRuntimeStateIfCurrent.
  destruct (states_only desired runtime err) as [n|e] eqn:En; cbn [mbind panicking_bind mret panicking_ret].
  2: { revert En. unfold states_only, setStoredTunnelStates, mustValidateTunnelStates. cbv zeta.
       rewrite validateTunnelStates_canonical.
       destruct (validateTunnelStates desired runtime err); [done|]. by intros [= ->]. }
  assert (Hv : validateTunnelStates desired runtime err = Ok tt ∧ st_Error n = err).
  { revert En. unfold states_only, setStoredTunnelStates, mustValidateTunnelStates. cbv zeta.
    rewrite validateTunnelStates_canonical.
    destruct (validateTunnelStates desired runtime err) as [[]|] eqn:Ev; [|done].
    intros [= <-]. split; [done|]. by eapply tunnelError_valid. }
  pose proof (setStates_spec _ _ _ _ _ En) as (_ & Ed & Er). unfold transaction.
  destruct (update_where _ _ _) as [[db' moved]|] eqn:Hu; [|done].
  apply update_where_spec in Hu as [-> Hm].
  assert (Hhit : ∀ i t, tunnels db !! i = Some t →
    (st_ClientID t =?s clientID) && (st_ID t =?s id) && (st_Revision t =? revision)
      && (st_DesiredState t =?s st_DesiredState n)
      && (st_RuntimeState t =?s storageRuntimeStateFromProtocol expected) = true ↔
    i = id ∧ current_row clientID id revision desired expected t).
  { intros i t Ht. rewrite !andb_true_iff, !eqb_str_true, Z.eqb_eq, Ed,
      (proj1 (so_rows _ _ _ H _ _ Ht)). unfold current_row. tauto. }
  split; [apply Hv|]. split; [|split; [|split]].
  - rewrite Hm. split.
    + intros (i & t & Ht & [-> Hc]%(Hhit i t Ht)). by exists t.
    + intros (t & Ht & Hc). exists id, t. split; [done|]. by apply (Hhit id t Ht).
  - intros ->. apply database_eq; try reflexivity. apply map_eq. intros i. cbn. rewrite lookup_fmap.
    destruct (tunnels db !! i) as [t|] eqn:Ht; [|done]. cbn. f_equal.
    destruct (_ && _) eqn:Ef; [|done]. exfalso. assert (false = true) by (apply Hm; by exists i, t). done.
  - intros i Hne. cbn. rewrite lookup_fmap. destruct (tunnels db !! i) as [t|] eqn:Ht; [|done]. cbn. f_equal.
    destruct (_ && _) eqn:Ef; [|done]. by apply (Hhit i t Ht) in Ef as [-> _].
  - intros Hmv. apply Hm in Hmv as (i & t & Ht & Hf). pose proof Hf as Hf'. apply (Hhit i t Ht) in Hf' as [-> Hc].
    exists (state_columns now n t). split; [cbn; rewrite lookup_fmap, Ht; cbn; by rewrite Hf|].
    unfold state_columns. cbv zeta. cbn. rewrite Er, Ed. by split_and!; [| |apply Hv|apply Hc].
Qed.

Lemma transition_is_compare_and_swap_witness :
  store_ok sample_json id sample_db ∧
  match TransitionRuntimeStateIfCurrent 9 None "c1" "t1" 1 "running" "offline" "exposed" "" sample_db with
  | Panics e => validateTunnelStates "running" "exposed" "" = Err e
  | Returns (db', Err _) => db' = sample_db
  | Returns (db', Ok moved) =>
      validateTunnelStates "running" "exposed" "" = Ok tt ∧
      (moved = true ↔ ∃ row, tunnels sample_db !! "t1"%string = Some row ∧
                             current_row "c1" "t1" 1 "running" "offline" row) ∧
      (moved = false → db' = sample_db) ∧
      (∀ id', id' ≠ "t1"%string → tunnels db' !! id' = tunnels sample_db !! id') ∧
      (moved = true → ∃ row', tunnels db' !! "t1"%string = Some row' ∧
         st_RuntimeState row' = storageRuntimeStateFromProtocol "exposed" ∧
         st_DesiredState row' = canonicalDesiredState "running" ∧ st_Error row' = ""%string ∧
         st_Revision row' = 1)
  end ∧
  match TransitionRuntimeStateIfCurrent 9 None "c1" "t1" 1 "running" "offline" "exposed" "" sample_db with
  | Returns (_, Ok moved) => moved = true
  | _ => False
  end.
Proof.
  split; [exact sample_db_ok|]. split; [|vm_compute; reflexivity].
  apply (transition_is_compare_and_swap sample_json id 9 "c1" "t1" 1 "running" "offline" "exposed" "" sample_db).
  exact sample_db_ok.
Defined.

(** *** Reading *)

Lemma select_where_found db f id t :
  tunnels db !! id = Some t → f t = true → is_Some (select_where db f).
Proof.
  intros Hid Hf. unfold select_where. rewrite fmap_is_Some.
  eapply list_find_elem_of; [|exact Hf]. apply elem_of_rows. by exists id.
Qed.

Lemma select_by_id js unicode_lower db id t :
  store_ok js unicode_lower db → tunnels db !! id = Some t →
  select_where db (λ t, st_ID t =?s id) = Some t.
Proof.
  intros H Hid. destruct (so_rows _ _ _ H _ _ Hid) as [E _].
  destruct (select_where_found db (λ t, st_ID t =?s id) id t Hid) as [t' Ht'].
  { rewrite E. apply eqb_str_refl. }
  rewrite Ht'. apply select_where_Some in Ht' as (Hi%eqb_str_true & id' & Hid').
  destruct (so_rows _ _ _ H _ _ Hid') as [E' _]. congruence.
Qed.

(** What is added can be read back.  An addition that succeeds stores the
    normalised tunnel under a new identifier, for an enabled user who owns its
    target client, leaves every other tunnel as it was, and reading the
    identifier afterwards returns that tunnel with the transport its runtime
    state implies and the bind address of its configuration. *)
Theorem added_tunnel_reads_back (js : store_json) (unicode_lower : string → string)
    (sql_like : string → string → bool) (now now' : Z) (newID : result string) (t : StoredTunnel)
    (db db' : database) :
  store_json_laws js → like_any sql_like → store_ok js unicode_lower db → now ≠ 0 →
  st_ID t ≠ ""%string → addTunnel js unicode_lower sql_like now newID None t db = (db', Ok tt) →
  ∃ n o, normalize js unicode_lower now t = Ok n ∧
    users db !! o = Some UserStatusActive ∧
    registered_clients db !! ep_ClientID (st_Target n) = Some (Some o) ∧
    tunnels db !! st_ID t = None ∧
    (∀ id, id ≠ st_ID t → tunnels db' !! id = tunnels db !! id) ∧
    GetTunnelByID js unicode_lower now' db' (st_ID t) =
      Ok (n <| st_OwnerUserID := o |> <| st_ActualTransport := storageActualTransport n |>
            <| st_BindIP := tunnelIngressBindIP js n |>).
Proof.
  intros Hjs Hlike H Hnow Hne Hadd.
  destruct (addTunnel_spec js unicode_lower sql_like Hjs Hlike now newID None t db db' _ H Hnow Hadd)
    as [[_ [=]]|(id & n & o & _ & Hn & Hid & _ & Hnorm & Hw & Hfresh & Erow & Hu & Ho)].
  rewrite (Hid Hne) in *. clear Hid. exists n, o.
  assert (Et : t <| st_ID := st_ID t |> = t) by (by destruct t). rewrite Et in Hn.
  assert (Hrow : tunnels db' !! st_ID t = Some (row_of (n <| st_OwnerUserID := o |>))).
  { rewrite (wr_tunnels _ _ _ _ _ Hw), Erow. apply lookup_insert_eq. }
  split_and!; try done.
  - intros id' Hne'. rewrite (wr_tunnels _ _ _ _ _ Hw), Erow. by apply lookup_insert_ne.
  - unfold GetTunnelByID. rewrite (select_by_id js unicode_lower db' (st_ID t) _ (wr_ok _ _ _ _ _ Hw) Hrow).
    unfold found. destruct (scan_row_of js unicode_lower now' _ Hnorm) as [_ ->]. reflexivity.
Qed.

Definition sample_new : StoredTunnel := tcp_tunnel "t9" "ssh" "d1" "10.0.0.2".

Abbreviation sample_added :=
  (addTunnel sample_json id sample_like 7 (Ok "new"%string) None sample_new sample_db).

Lemma added_tunnel_reads_back_witness :
  sample_added.2 = Ok tt ∧
  ∃ n o, normalize sample_json id 7 sample_new = Ok n ∧
    users sample_db !! o = Some UserStatusActive ∧
    registered_clients sample_db !! ep_ClientID (st_Target n) = Some (Some o) ∧
    tunnels sample_db !! "t9"%string = None ∧
    (∀ i, i ≠ "t9"%string → tunnels sample_added.1 !! i = tunnels sample_db !! i) ∧
    GetTunnelByID sample_json id 8 sample_added.1 "t9" =
      Ok (n <| st_OwnerUserID := o |> <| st_ActualTransport := storageActualTransport n |>
            <| st_BindIP := tunnelIngressBindIP sample_json n |>).
Proof.
  assert (H : sample_added.2 = Ok tt) by (vm_compute; reflexivity).
  assert (E : sample_added = (sample_added.1, Ok tt))
    by exact (eq_trans (surjective_pairing _) (f_equal (pair _) H)).
  split; [exact H|].
  exact (added_tunnel_reads_back sample_json id sample_like 7 8 (Ok "new"%string) sample_new sample_db
    sample_added.1 sample_json_laws sample_like_any sample_db_ok ltac:(done) ltac:(done) E).
Defined.

(** The peer-to-peer projection.  For grants of different tunnels,
    [ApplyP2PLifecycle] gives every tunnel that is still at the revision of its
    grant, and in the expected session if one is given, the state and transport
    of the transition and changes nothing else of it; it leaves all other
    tunnels as they are and reports exactly the other grants as stale. *)
Theorem p2p_projection (js : store_json) (unicode_lower : string → string) (now : Z)
    (grants : list p2pGrantSnapshot) (session : string) (tr : P2PProjectionTransition)
    (db db' : database) (res : P2PProjectionResult) :
  store_ok js unicode_lower db → now ≠ 0 → NoDup (gn_TunnelID <$> grants) →
  ApplyP2PLifecycle js unicode_lower now None grants session tr db = (db', Ok res) →
  (∀ id, id ∉ gn_TunnelID <$> grants → tunnels db' !! id = tunnels db !! id) ∧
  (∀ g row, g ∈ grants → tunnels db !! gn_TunnelID g = Some row →
     ∃ row', tunnels db' !! gn_TunnelID g = Some row' ∧
             if applies session g row then projected tr row row' else row' = row) ∧
  pr_Stale res =
    filter (λ g, from_option (applies session g) false (tunnels db !! gn_TunnelID g) = false) grants.
Proof.
  intros H Hnow Hnd. unfold ApplyP2PLifecycle. cbv zeta. destruct grants as [|g gs] eqn:Eg.
  { intros [= <- <-]. split_and!; [done|by intros ? ? ?%elem_of_nil|done]. }
  rewrite <- Eg in *. clear Eg. intros [[_ [e [=]]]|(a & Hb & [= <-])]%transaction_spec.
  destruct (project_grants_spec js unicode_lower now session tr grants db _ db' res H Hnow Hnd Hb)
    as (_ & _ & _ & Hother & Hrows & Hstale). by split_and!.
Qed.

Definition sample_grant (id : string) (rev : Z) : p2pGrantSnapshot :=
  {| gn_TunnelID := id; gn_Revision := rev; gn_IngressClientID := ""; gn_TargetClientID := "" |}.
Definition sample_grants : list p2pGrantSnapshot := [sample_grant "t1" 1; sample_grant "t2" 5; sample_grant "t7" 1].
Definition sample_ready : P2PProjectionTransition := {|
  tr_SessionID := "s1"; tr_Mode := P2PProjectionReady |}.
Abbreviation sample_projection :=
  (ApplyP2PLifecycle sample_json id 9 None sample_grants "" sample_ready sample_db).
Definition projection_of (r : result P2PProjectionResult) : P2PProjectionResult :=
  match r with Ok res => res | Err _ => {| pr_Changes := []; pr_Stale := [] |} end.

Lemma p2p_projection_witness :
  pr_Stale (projection_of sample_projection.2) = [sample_grant "t2" 5; sample_grant "t7" 1] ∧
  (∀ i, i ∉ gn_TunnelID <$> sample_grants → tunnels sample_projection.1 !! i = tunnels sample_db !! i) ∧
  (∀ g row, g ∈ sample_grants → tunnels sample_db !! gn_TunnelID g = Some row →
     ∃ row', tunnels sample_projection.1 !! gn_TunnelID g = Some row' ∧
             if applies "" g row then projected sample_ready row row' else row' = row) ∧
  pr_Stale (projection_of sample_projection.2) =
    filter (λ g, from_option (applies "" g) false (tunnels sample_db !! gn_TunnelID g) = false) sample_grants.
Proof.
  split; [vm_compute; reflexivity|].
  assert (E : sample_projection = (sample_projection.1, Ok (projection_of sample_projection.2)))
    by (apply (eq_trans (surjective_pairing _)); apply (f_equal (pair _)); vm_compute; reflexivity).
  apply (p2p_projection sample_json id 9 sample_grants "" sample_ready sample_db); [exact sample_db_ok|done| |exact E].
  apply (bool_decide_unpack _). vm_compute. exact I.
Defined.

(** *** Conflicts *)

Lemma scan_rows_ok js unicode_lower now db t id :
  store_ok js unicode_lower db → tunnels db !! id = Some t →
  scanStoredTunnel js unicode_lower now t = Ok (read_row js t).
Proof. intros H Hid. apply scan_row. by eapply (so_rows _ _ _ H). Qed.

Lemma locked_by_other_Some sql_like db keys patterns id :
  is_Some (locked_by_other sql_like db keys patterns id) ↔
  ∃ k l, tunnel_resource_locks db !! k = Some l ∧
         one_of k keys || existsb (λ p, sql_like p k) patterns = true ∧ rl_tunnel_id l ≠ id.
Proof.
  unfold locked_by_other. rewrite fmap_is_Some. split.
  - intros ([k l] & Hh). apply head_Some_elem_of in Hh.
    apply list_elem_of_filter in Hh as [Hf Hkl%elem_of_map_to_list]. exists k, l.
    apply andb_true_iff in Hf as [Hf Hne%negb_true_iff%eqb_str_false]. done.
  - intros (k & l & Hkl & Hf & Hne). apply not_eq_None_Some. rewrite head_None. intros E.
    apply (not_elem_of_nil (k, l)). rewrite <- E. apply list_elem_of_filter. cbn.
    rewrite Hf, (proj2 (eqb_str_false _ _) Hne). split; [done|by apply elem_of_map_to_list].
Qed.

(** The tunnels whose locks match, except the candidate itself. *)
Definition locking (sql_like : string → string → bool) (db : database) (keys patterns : list string)
    (id : string) (t : StoredTunnel) : bool :=
  existsb (λ kl, (one_of kl.1 keys || existsb (λ p, sql_like p kl.1) patterns)
                 && (rl_tunnel_id kl.2 =?s st_ID t) && ((id =?s "") || negb (rl_tunnel_id kl.2 =?s id)))
    (map_to_list (tunnel_resource_locks db)).

Lemma locking_none js unicode_lower sql_like db keys patterns id :
  store_ok js unicode_lower db →
  rows_where db (locking sql_like db keys patterns id) = [] ↔ locked_by_other sql_like db keys patterns id = None.
Proof.
  intros H. rewrite <- not_eq_None_Some, locked_by_other_Some || rewrite eq_None_not_Some, locked_by_other_Some.
  split.
  - intros E (k & l & Hk & Hm & Hne). destruct (so_locks _ _ _ H _ _ Hk) as (t & Ht & _).
    apply (not_elem_of_nil t). rewrite <- E. unfold rows_where.
    apply list_elem_of_filter. split; [|apply elem_of_rows; by eexists].
    unfold locking. apply existsb_map. exists k, l. split; [done|]. cbn [fst snd].
    rewrite Hm, (proj1 (so_rows _ _ _ H _ _ Ht)), eqb_str_refl, (proj2 (eqb_str_false _ _) Hne).
    by rewrite orb_true_r.
  - intros Hn. apply elem_of_nil_inv. intros t [Hl _]%list_elem_of_filter.
    unfold locking in Hl. apply existsb_map in Hl as (k & l & Hk & Hf). cbn [fst snd] in Hf.
    rewrite !andb_true_iff in Hf. destruct Hf as [[Hm Ht%eqb_str_true] Hid]. apply Hn. exists k, l.
    split_and!; [done|done|]. apply orb_true_iff in Hid as [->%eqb_str_true|Hid%negb_true_iff%eqb_str_false]; [|done].
    destruct (so_locks _ _ _ H _ _ Hk) as (t' & Ht' & _).
    destruct (so_rows _ _ _ H _ _ Ht') as [E [Hnorm _]]. rewrite <- E. exact (nm_id _ _ _ Hnorm).
Qed.

(** C38: the check before a write agrees with the authoritative one.  In every
    database that meets the invariant [findIngressResourceConflict] finds no
    tunnel in conflict with a candidate exactly when the check inside the write
    transaction accepts it, for listeners and for HTTP domains. *)
Theorem preflight_agrees (js : store_json) (unicode_lower : string → string)
    (sql_like : string → string → bool) (now : Z) (format_time : Z → string)
    (db : database) (candidate : StoredTunnel) :
  store_ok js unicode_lower db →
  findIngressResourceConflict js unicode_lower sql_like now format_time db candidate "" = Ok None ↔
  checkTunnelIngressResourceConflictTx js unicode_lower sql_like now db candidate = Ok tt.
Proof.
  intros H. unfold findIngressResourceConflict, checkTunnelIngressResourceConflictTx.
  destruct (ep_Type (st_Ingress candidate) =?s IngressTypeHTTPHost).
  { assert (E : findHTTPIngressConflict js unicode_lower now db candidate "" =
                findHTTPIngressConflict js unicode_lower now db candidate (st_ID candidate)).
    { unfold findHTTPIngressConflict, default_string. cbn. by destruct (st_ID candidate =?s ""). }
    rewrite E. clear E. destruct (findHTTPIngressConflict _ _ _ _ _ _) as [[c|]|]; cbn; by split. }
  cbv zeta. set (keys := tunnelIngressConflictKeys js unicode_lower candidate).
  set (patterns := tunnelIngressConflictPatterns js candidate).
  assert (Hmain :
    match merge_sort (newest_first format_time) (rows_where db (locking sql_like db keys patterns (st_ID candidate)))
    with [] => Ok None | row :: _ => t ← scanStoredTunnel js unicode_lower now row; Ok (Some t) end = Ok None ↔
    match locked_by_other sql_like db keys patterns (st_ID candidate) with
    | Some existing => Err (Errorf "ingress resource conflict: %s" [AStr existing]) | None => Ok tt end = Ok tt).
  { pose proof (locking_none js unicode_lower sql_like db keys patterns (st_ID candidate) H) as Hl.
    pose proof (merge_sort_Permutation (newest_first format_time)
      (rows_where db (locking sql_like db keys patterns (st_ID candidate)))) as Hp.
    destruct (merge_sort _ _) as [|row rest].
    - apply Permutation_nil_l, eq_sym, Hl in Hp. by rewrite Hp.
    - destruct (locked_by_other _ _ _ _ _); [|by rewrite (proj2 Hl eq_refl) in Hp; apply Permutation_nil_r in Hp].
      split; [|done]. assert (Hrow : row ∈ rows_where db (locking sql_like db keys patterns (st_ID candidate)))
        by (rewrite <- Hp; by left).
      apply list_elem_of_filter in Hrow as [_ [id Hid]%elem_of_rows].
      by rewrite (scan_rows_ok js unicode_lower now db row id H Hid). }
  by destruct keys, patterns.
Qed.

Lemma read_pending js row :
  (st_RuntimeState (read_row js row) =?s ProxyRuntimeStatePending) = (st_RuntimeState row =?s ProxyRuntimeStatePending).
Proof.
  change (st_RuntimeState (read_row js row)) with (protocolRuntimeStateFromStorage (st_RuntimeState row)).
  unfold protocolRuntimeStateFromStorage. destruct (String.eqb_spec (st_RuntimeState row) "active") as [->|]; done.
Qed.

(** What a migration refuses.  Without failures of the database, a
    migration of an unknown tunnel, from another revision, of a tunnel that is
    being provisioned, to a name its owner client already uses, or to a client
    that is not registered, is refused with the error of its own; in all cases
    an error leaves the database as it was. *)
Theorem migration_errors (js : store_json) (unicode_lower : string → string)
    (sql_like : string → string → bool) (now : Z) (id : string) (revision : Z)
    (replacement : StoredTunnel) (db db' : database) (res : result (StoredTunnel * StoredTunnel)) :
  store_json_laws js → like_any sql_like → store_ok js unicode_lower db → now ≠ 0 → 0 < revision →
  migrateTunnelTargetByID js unicode_lower sql_like now None id revision replacement db = (db', res) →
  (is_ok res = false → db' = db) ∧
  match tunnels db !! id with
  | None => res = Err ErrTunnelNotFound
  | Some row =>
      if negb (st_Revision row =? revision) then res = Err ErrTunnelRevisionConflict else
      if st_RuntimeState row =?s ProxyRuntimeStatePending then res = Err ErrTunnelMigrationPending else
      match normalize js unicode_lower now
              (touched now (migration_of (read_row js row) id (revision + 1) replacement)) with
      | Err e => res = Err e
      | Ok n =>
          if exists_where db (λ t, (st_OwnerClientID t =?s st_OwnerClientID n)
                                   && (st_Name t =?s st_Name n) && negb (st_ID t =?s id))
          then res = Err ErrTunnelOwnerNameConflict else
          registered_clients db !! ep_ClientID (st_Target n) = None → res = Err ErrTunnelTargetClientNotFound
      end
  end.
Proof.
  intros Hjs Hlike H Hnow Hpos Hm. split.
  { destruct (migrateTunnelTargetByID_spec js unicode_lower sql_like Hjs Hlike now None id revision replacement
      db db' res H Hnow Hm) as [[? _]|(? & ? & ? & -> & _)]; [done|]. by intros [=]. }
  revert Hm. unfold migrateTunnelTargetByID. rewrite (proj2 (Z.leb_gt _ _)) by done.
  destruct (tunnels db !! id) as [row|] eqn:Hid; [|by intros [= _ <-]].
  rewrite (scan_rows_ok js unicode_lower now db row id H Hid), ok_bind. unfold transaction.
  change (st_Revision (read_row js row)) with (st_Revision row).
  destruct (negb (st_Revision row =? revision)); [by intros [= _ <-]|].
  rewrite read_pending.
  destruct (st_RuntimeState row =?s ProxyRuntimeStatePending); [by intros [= _ <-]|]. cbv zeta.
  destruct (normalize _ _ _ _) as [n|e]; [rewrite ok_bind|by intros [= _ <-]].
  destruct (exists_where _ _); [by intros [= _ <-]|]. intros Hm Hnone. revert Hm.
  rewrite (bool_decide_eq_true_2 _ Hnone). by intros [= _ <-].
Qed.

Definition sample_candidate : StoredTunnel := tcp_tunnel "t9" "any" "d1" "0.0.0.0".

Lemma preflight_agrees_witness :
  store_ok sample_json id sample_db ∧
  (findIngressResourceConflict sample_json id sample_like 7 pretty sample_db sample_candidate "" = Ok None ↔
   checkTunnelIngressResourceConflictTx sample_json id sample_like 7 sample_db sample_candidate = Ok tt) ∧
  is_ok (checkTunnelIngressResourceConflictTx sample_json id sample_like 7 sample_db sample_candidate) = false.
Proof.
  split; [exact sample_db_ok|]. split; [|vm_compute; reflexivity].
  apply (preflight_agrees sample_json id sample_like 7 pretty sample_db sample_candidate). exact sample_db_ok.
Defined.

Lemma migration_errors_witness :
  let res := migrateTunnelTargetByID sample_json id sample_like 9 None "t2" 3 sample_candidate sample_db in
  (is_ok res.2 = false → res.1 = sample_db) ∧ res.2 = Err ErrTunnelRevisionConflict.
Proof.
  cbv zeta.
  destruct (migration_errors sample_json id sample_like 9 "t2" 3 sample_candidate sample_db _ _
    sample_json_laws sample_like_any sample_db_ok ltac:(done) ltac:(done) (surjective_pairing _)) as [A B].
  split; [exact A|]. exact B.
Defined.
