(* ===== verification/Goroutines.v ===== *)
(** Goroutines over shared state.

    A goroutine is a program of atomic operations: it performs one, goes on
    with its answer, may start another goroutine, and after a round of its
    loop either starts over or returns.  The scheduler picks a goroutine for
    every step, and a choice that settles what the operation's environment
    does (a packet arrives, a write fails, the time).

    The second half is how such programs are verified.  Each goroutine carries
    a ghost value that records what it has still to do, and every operation
    moves it.  A program that follows the discipline on its own does so in
    every interleaving, and an invariant that relates the shared state to the
    ghost values of all goroutines is checked one operation at a time. *)
From Stdlib Require Import ZArith Lia.
From stdpp Require Import base tactics list relations.
From S2P Require Import Prelude.

(** ** Sums over goroutines *)

Fixpoint total {G} (f : G → Z) (gs : list G) : Z :=
  match gs with [] => 0 | g :: gs => f g + total f gs end.

Lemma total_app {G} (f : G → Z) gs hs : total f (gs ++ hs) = total f gs + total f hs.
Proof. induction gs as [|g gs IH]; cbn; [done|]. rewrite IH. lia. Qed.

Lemma total_insert {G} (f : G → Z) gs i g g' :
  gs !! i = Some g → total f (<[i := g']> gs) = total f gs - f g + f g'.
Proof.
  revert i. induction gs as [|h gs IH]; intros [|i] Hi; [done|done| |].
  - injection Hi as ->. cbn. lia.
  - change (f h + total f (<[i := g']> gs) = f h + total f gs - f g + f g').
    rewrite (IH _ Hi). lia.
Qed.

Lemma total_zero {G} (f : G → Z) gs : Forall (λ g, f g = 0) gs → total f gs = 0.
Proof. induction 1 as [|g gs Hg _ IH]; cbn; lia. Qed.

Lemma total_le {G} (f : G → Z) gs i g :
  gs !! i = Some g → (∀ j h, gs !! j = Some h → j ≠ i → f h ≤ 0) → total f gs ≤ f g.
Proof.
  revert i. induction gs as [|h gs IH]; intros [|i]; cbn; [done|done| |].
  - intros [= ->] H. assert (total f gs ≤ 0); [|lia].
    assert (Hall : ∀ j h, gs !! j = Some h → f h ≤ 0) by (intros j h Hj; by apply (H (S j))).
    clear -Hall. induction gs as [|h gs IH]; cbn; [done|].
    pose proof (Hall 0%nat h eq_refl). enough (total f gs ≤ 0) by lia.
    apply IH. intros j k. apply (Hall (S j)).
  - intros Hi H. pose proof (H 0%nat h eq_refl ltac:(done)).
    pose proof (IH i Hi). enough (total f gs ≤ f g) by lia. apply (IH i Hi). intros j k Hj Hne.
    apply (H (S j)); [done|lia].
Qed.

(** Among summands that are not negative. *)
Lemma total_nonneg {G} (f : G → Z) gs : (∀ g, 0 ≤ f g) → 0 ≤ total f gs.
Proof. intros Hf. induction gs as [|g gs IH]; cbn; [done|]. pose proof (Hf g). lia. Qed.

Lemma total_one {G} (f : G → Z) gs i g :
  (∀ g, 0 ≤ f g) → gs !! i = Some g → f g ≤ total f gs.
Proof.
  intros Hf. revert i. induction gs as [|h gs IH]; intros [|i]; cbn; [done|done| |].
  - intros [= ->]. pose proof (total_nonneg f gs Hf). lia.
  - intros Hi. pose proof (IH _ Hi). pose proof (Hf h). lia.
Qed.

Lemma total_two {G} (f : G → Z) gs i j g h :
  (∀ g, 0 ≤ f g) → gs !! i = Some g → gs !! j = Some h → i ≠ j → f g + f h ≤ total f gs.
Proof.
  intros Hf. revert i j. induction gs as [|k gs IH]; intros [|i] [|j]; cbn; try done.
  - intros [= ->] Hj _. pose proof (total_one f gs _ _ Hf Hj). lia.
  - intros Hi [= ->] _. pose proof (total_one f gs _ _ Hf Hi). lia.
  - intros Hi Hj Hne. pose proof (IH i j Hi Hj ltac:(congruence)). pose proof (Hf k). lia.
Qed.

Lemma total_positive {G} (f : G → Z) gs : 0 < total f gs → ∃ i g, gs !! i = Some g ∧ 0 < f g.
Proof.
  induction gs as [|g gs IH]; cbn; [lia|]. intros Ht. destruct (decide (0 < f g)).
  - by exists 0%nat, g.
  - destruct IH as (i & h & ? & ?); [lia|]. by exists (S i), h.
Qed.

Section Programs.
Context {E : Type → Type} {T : Type}.

(** Programs with operations [E] that start goroutines of kinds [T]. *)
Inductive prog (A : Type) :=
| Ret (a : A)
| Do (B : Type) (e : E B) (k : B → prog A)
| Go (t : T) (k : prog A).
Arguments Ret {A} a.
Arguments Do {A B} e k.
Arguments Go {A} t k.

Definition op {B} (e : E B) : prog B := Do e Ret.
Definition go (t : T) : prog unit := Go t (Ret tt).

Fixpoint prog_bind {A B} (f : A → prog B) (p : prog A) : prog B :=
  match p with
  | Ret a => f a
  | Do e k => Do e (λ b, prog_bind f (k b))
  | Go t k => Go t (prog_bind f k)
  end.

#[global] Instance prog_mret : MRet prog := λ A a, Ret a.

(** The program first, so that the answer's type is known in the rest. *)
Definition seq {A B} (p : prog A) (f : A → prog B) : prog B := prog_bind f p.

(** A loop over a list: [for _, x := range l { f(x) }]. *)
Fixpoint prog_range {A B} (l : list A) (f : B → A → prog B) (acc : B) : prog B :=
  match l with
  | [] => Ret acc
  | x :: l => seq (f acc x) (λ acc, prog_range l f acc)
  end.

(** ** The machine *)

Section Machine.
Context {S C : Type}.
(** What an operation does under a choice of the environment; [None] when the
    choice does not fit the operation, or the operation waits. *)
Context (exec : ∀ B, E B → C → S → option (B * S)).
(** One round of each kind of goroutine; [true] for another round. *)
Context (body : T → prog bool).

(** A goroutine: what is left of its round, [None] after its return. *)
Definition goroutine : Type := T * option (prog bool).
Definition start (t : T) : goroutine := (t, Some (body t)).

Definition step (i : nat) (c : C) (st : S * list goroutine)
  : option (S * list goroutine) :=
  let '(s, pool) := st in
  match pool !! i with
  | Some (t, Some p) =>
      match (p : prog bool) with
      | Ret again => Some (s, <[i := (t, if again then Some (body t) else None)]> pool)
      | Do e k =>
          match exec _ e c s with
          | Some (b, s') => Some (s', <[i := (t, Some (k b))]> pool)
          | None => None
          end
      | Go t' k => Some (s, <[i := (t, Some k)]> pool ++ [start t'])
      end
  | _ => None
  end.

Fixpoint run (sched : list (nat * C)) (st : S * list goroutine) : option (S * list goroutine) :=
  match sched with
  | [] => Some st
  | (i, c) :: sched => match step i c st with Some st => run sched st | None => None end
  end.

Definition reachable (st st' : S * list goroutine) : Prop := ∃ sched, run sched st = Some st'.

Definition returned (g : goroutine) : Prop := g.2 = None.

Lemma run_app sched sched' st :
  run (sched ++ sched') st = match run sched st with Some st => run sched' st | None => None end.
Proof.
  revert st. induction sched as [|[i c] sched IH]; intros st; [done|].
  cbn. destruct (step i c st); [apply IH|done].
Qed.

(** ** Disciplines *)

Section Discipline.
Context {G : Type}.
(** The answers an operation can give. *)
Context (possible : ∀ B, E B → B → Prop).
(** How an operation and its answer move the ghost value, [None] when they are
    not allowed; what starting a goroutine leaves, and gives to the new one;
    and the values of a goroutine between rounds and after its return. *)
Context (move : ∀ B, E B → B → G → option G).
Context (hand : T → G → option G).
Context (begins : T → G).
Context (rests : T → bool → G → Prop).

Fixpoint follows {A} (p : prog A) (g : G) (Q : A → G → Prop) : Prop :=
  match p with
  | Ret a => Q a g
  | Do e k => ∀ b, possible _ e b → ∃ g', move _ e b g = Some g' ∧ follows (k b) g' Q
  | Go t k => ∃ g', hand t g = Some g' ∧ follows k g' Q
  end.

Lemma follows_seq {A B} (p : prog A) (f : A → prog B) g Q :
  follows p g (λ a g', follows (f a) g' Q) → follows (seq p f) g Q.
Proof.
  revert g. induction p as [a|B' e k IH|t k IH]; intros g; cbn; [done| |].
  - intros H b Hb. destruct (H b Hb) as (g' & Hm & Hf). exists g'. split; [done|]. by apply IH.
  - intros (g' & Hm & Hf). exists g'. split; [done|]. by apply IH.
Qed.

Lemma follows_mono {A} (p : prog A) g (Q Q' : A → G → Prop) :
  (∀ a g, Q a g → Q' a g) → follows p g Q → follows p g Q'.
Proof.
  intros HQ. revert g. induction p as [a|B e k IH|t k IH]; intros g; cbn; [by apply HQ| |].
  - intros H b Hb. destruct (H b Hb) as (g' & ? & ?). eauto.
  - intros (g' & ? & ?). eauto.
Qed.

Lemma follows_op_seq {A B} (e : E B) (f : B → prog A) g (Q : A → G → Prop) :
  (∀ b, possible _ e b → ∃ g', move _ e b g = Some g' ∧ follows (f b) g' Q) →
  follows (seq (op e) f) g Q.
Proof. done. Qed.

Lemma follows_range {A B} (l : list A) (f : B → A → prog B) (I : B → G → Prop) acc g Q :
  (∀ acc g, I acc g → Q acc g) →
  (∀ acc x g, I acc g → follows (f acc x) g I) → I acc g → follows (prog_range l f acc) g Q.
Proof.
  intros HQ Hf. revert acc g. induction l as [|x l IH]; intros acc g Hg; [by apply HQ|].
  cbn. apply follows_seq. eapply follows_mono; [|by apply Hf]. intros acc' g' H'. by apply IH.
Qed.

(** Programs that leave every ghost value with [P] as it is. *)
Definition stays (P : G → Prop) {A} (p : prog A) : Prop :=
  ∀ g (Q : A → G → Prop), P g → (∀ a, Q a g) → follows p g Q.

Lemma stays_ret P {A} (a : A) : stays P (Ret a).
Proof. intros g Q _ HQ. apply HQ. Qed.

Lemma stays_op P {B} (e : E B) :
  (∀ b g, P g → move _ e b g = Some g) → stays P (op e).
Proof. intros He g Q Hg HQ b _. exists g. split; [by apply He|apply HQ]. Qed.

Lemma stays_seq P {A B} (p : prog A) (f : A → prog B) :
  stays P p → (∀ a, stays P (f a)) → stays P (seq p f).
Proof.
  intros Hp Hf g Q Hg HQ. apply follows_seq, Hp; [done|]. intros a. by apply Hf.
Qed.

Lemma stays_range P {A B} (l : list A) (f : B → A → prog B) acc :
  (∀ acc x, stays P (f acc x)) → stays P (prog_range l f acc).
Proof.
  intros Hf. revert acc. induction l as [|x l IH]; intros acc; [apply stays_ret|].
  apply stays_seq; [apply Hf|apply IH].
Qed.

Definition goroutine_follows (x : goroutine) (g : G) : Prop :=
  match x.2 with
  | Some p => follows p g (rests x.1)
  | None => rests x.1 false g
  end.

Context (Inv : S → list G → Prop).
Context (Hbegin : ∀ t, rests t true (begins t)).
Context (Hbody : ∀ t g, rests t true g → follows (body t) g (rests t)).
Context (Hexec : ∀ B (e : E B) c s b s' i g gs,
  Inv s gs → gs !! i = Some g → exec _ e c s = Some (b, s') →
  possible _ e b ∧ ∀ g', move _ e b g = Some g' → Inv s' (<[i := g']> gs)).
Context (Hhand : ∀ t s i g g' gs,
  Inv s gs → gs !! i = Some g → hand t g = Some g' → Inv s (<[i := g']> gs ++ [begins t])).

Definition disciplined (st : S * list goroutine) : Prop :=
  ∃ gs, Forall2 goroutine_follows st.2 gs ∧ Inv st.1 gs.

Lemma step_disciplined i c st st' : disciplined st → step i c st = Some st' → disciplined st'.
Proof.
  intros (gs & Hf & HI). destruct st as [s pool]. cbn in *.
  destruct (pool !! i) as [[t [p|]]|] eqn:Ei; [|done|done].
  destruct (Forall2_lookup_l _ _ _ _ _ Hf Ei) as (g & Hg & Hp). unfold goroutine_follows in Hp. cbn in Hp.
  destruct p as [again|B e k|t' k].
  - intros [= <-]. cbn in Hp. exists gs. split; [|done].
    replace gs with (<[i := g]> gs) by by apply list_insert_id.
    apply Forall2_insert; [done|]. by destruct again; [apply Hbody|].
  - destruct (exec B e c s) as [[b s']|] eqn:Ex; [|done]. intros [= <-].
    destruct (Hexec _ _ _ _ _ _ _ _ _ HI Hg Ex) as (Hb & HI').
    destruct (Hp b Hb) as (g' & Hm & Hk). exists (<[i := g']> gs). split; [|by apply HI'].
    by apply Forall2_insert.
  - intros [= <-]. destruct Hp as (g' & Hm & Hk). exists (<[i := g']> gs ++ [begins t']). split.
    + apply Forall2_app; [by apply Forall2_insert|]. constructor; [by apply Hbody|constructor].
    + by apply (Hhand _ _ _ g).
Qed.

Lemma start_disciplined s ts : Inv s (begins <$> ts) → disciplined (s, start <$> ts).
Proof.
  intros HI. exists (begins <$> ts). split; [|done]. cbn.
  clear HI. induction ts as [|t ts IH]; [constructor|]. constructor; [by apply Hbody|done].
Qed.

Lemma run_disciplined sched st st' : disciplined st → run sched st = Some st' → disciplined st'.
Proof.
  revert st. induction sched as [|[i c] sched IH]; intros st Hd; cbn; [by intros [= <-]|].
  destruct (step i c st) as [st1|] eqn:Es; [|done]. cbn. apply IH. by eapply step_disciplined.
Qed.
End Discipline.
End Machine.
End Programs.

Arguments prog : clear implicits.
Arguments goroutine : clear implicits.
Arguments Ret {E T A} a.
Arguments Do {E T A B} e k.
Arguments Go {E T A} t k.

Declare Scope prog_scope.
Delimit Scope prog_scope with prog.
Notation "x ← p ; q" := (seq p (λ x, q)) (only parsing) : prog_scope.
Notation "' x ← p ; q" := (seq p (λ x, q)) (x pattern, only parsing) : prog_scope.
