(* ===== verification/Progress.v ===== *)
(** Goroutines that end: when none of the states of the programs of
    [Goroutines] is stuck, and when no schedule goes on for ever. *)
From Stdlib Require Import ZArith Lia.
From stdpp Require Import base tactics list relations.
From S2P Require Import Prelude Goroutines.

(** ** Nobody waits for ever

    Locks have levels, and a goroutine that holds one only asks for locks of
    higher levels.  So of those that wait, one at the highest level waits for
    somebody who does not wait. *)
Section Deadlock.
Context {E : Type → Type} {T S C G : Type} `{!Inhabited C}.
Context (exec : ∀ B, E B → C → S → option (B * S)) (body : T → prog E T bool).
Context (possible : ∀ B, E B → B → Prop) (move : ∀ B, E B → B → G → option G).
Context (hand : T → G → option G) (begins : T → G) (rests : T → bool → G → Prop).
Context (Inv : S → list G → Prop).
Context (level : ∀ B, E B → nat) (highest : nat).

(** A goroutine with this ghost value has not returned, and what it does next
    it can do, unless it is above the level [n]. *)
Definition above (s : S) (n : nat) (g : G) : Prop :=
  (∀ t, ¬ rests t false g) ∧
  ∀ B (e : E B) b, possible _ e b → is_Some (move _ e b g) →
    (∃ c r, exec _ e c s = Some r) ∨ (n < level _ e)%nat.

Context (Hlevel : ∀ B (e : E B), (level _ e ≤ highest)%nat).
Context (Hpossible : ∀ B (e : E B), ∃ b, possible _ e b).
Context (Hfree : ∀ B (e : E B) s gs i g,
  Inv s gs → gs !! i = Some g → (∃ b, possible _ e b ∧ is_Some (move _ e b g)) →
  (∃ c r, exec _ e c s = Some r) ∨ ∃ j h, gs !! j = Some h ∧ above s (level _ e) h).

Definition can_step (st : S * list (goroutine E T)) : Prop := ∃ i c st', step exec body i c st = Some st'.

Lemma ret_goes_on s (pool : list (goroutine E T)) i t again :
  pool !! i = Some (t, Some (Ret again)) → can_step (s, pool).
Proof. intros Hi. exists i, inhabitant. cbn. rewrite Hi. eauto. Qed.

Lemma go_goes_on s (pool : list (goroutine E T)) i t t' k :
  pool !! i = Some (t, Some (Go t' k)) → can_step (s, pool).
Proof. intros Hi. exists i, inhabitant. cbn. rewrite Hi. eauto. Qed.

Lemma do_goes_on s (pool : list (goroutine E T)) i t B (e : E B) k c r :
  pool !! i = Some (t, Some (Do e k)) → exec _ e c s = Some r → can_step (s, pool).
Proof. intros Hi Hx. exists i, c. cbn. rewrite Hi, Hx. destruct r. eauto. Qed.

Lemma operation_goes_on s pool gs n (i : nat) t B (e : E B) k :
  Forall2 (goroutine_follows possible move hand rests) pool gs → Inv s gs →
  pool !! i = Some (t, Some (Do e k)) → (highest - level _ e < n)%nat → can_step (s, pool).
Proof.
  intros Hf HI. revert i t B e k. induction n as [|n IH]; intros i t B e k Hi Hn; [lia|].
  destruct (Forall2_lookup_l _ _ _ _ _ Hf Hi) as (g & Hg & Hp). unfold goroutine_follows in Hp. cbn in Hp.
  assert (Hmove : ∃ b, possible _ e b ∧ is_Some (move _ e b g)).
  { destruct (Hpossible _ e) as [b Hb]. exists b. split; [done|]. destruct (Hp b Hb) as (g' & -> & _). eauto. }
  destruct (Hfree _ e s gs i g HI Hg Hmove) as [(c & r & Hx)|(j & h & Hj & Hrest & Habove)].
  { by eapply do_goes_on. }
  destruct (Forall2_lookup_r _ _ _ _ _ Hf Hj) as ([t' p] & Hj' & Hp').
  unfold goroutine_follows in Hp'. cbn in Hp'. destruct p as [[again|B' e' k'|t'' k']|].
  - by eapply ret_goes_on.
  - destruct (Hpossible _ e') as [b Hb]. destruct (Hp' b Hb) as (g' & Hm & _).
    destruct (Habove _ e' b Hb ltac:(eauto)) as [(c & r & Hx)|Hlt].
    + by eapply do_goes_on.
    + apply (IH j t' B' e' k' Hj'). pose proof (Hlevel _ e'). lia.
  - by eapply go_goes_on.
  - by destruct (Hrest t').
Qed.

Lemma no_deadlock s pool i t p :
  disciplined possible move hand rests Inv (s, pool) → pool !! i = Some (t, Some p) → can_step (s, pool).
Proof.
  intros (gs & Hf & HI) Hi. cbn in Hf, HI. destruct p as [again|B e k|t' k].
  - by eapply ret_goes_on.
  - by apply (operation_goes_on s pool gs (1 + (highest - level _ e))%nat i t B e k Hf HI Hi); lia.
  - by eapply go_goes_on.
Qed.
End Deadlock.

(** ** No schedule goes on for ever

    Programs without loops end; a goroutine may start others of a lower rank. *)
Section Termination.
Context {E : Type → Type} {T S C : Type}.
Context (exec : ∀ B, E B → C → S → option (B * S)) (body : T → prog E T bool).
Context (rank : T → nat).

(** The program only starts goroutines of ranks below [n], and does not ask for
    another round. *)
Fixpoint straight (n : nat) {A} (last : A → Prop) (p : prog E T A) : Prop :=
  match p with
  | Ret a => last a
  | Do e k => ∀ b, straight n last (k b)
  | Go t k => (rank t < n)%nat ∧ straight n last k
  end.

Lemma straight_seq n {A B} (last : A → Prop) (last' : B → Prop) (p : prog E T A) (f : A → prog E T B) :
  straight n last p → (∀ a, last a → straight n last' (f a)) → straight n last' (seq p f).
Proof.
  intros Hp Hf. induction p as [a|B' e k IH|t k IH]; cbn in *; [by apply Hf| |].
  - intros b. apply IH, Hp.
  - destruct Hp as [Hr Hp]. split; [done|]. apply IH, Hp.
Qed.

Definition ends (again : bool) : Prop := again = false.

Context (Hbody : ∀ t, straight (rank t) ends (body t)).

Abbreviation pool := (list (goroutine E T)).

(** A step of some goroutine of the pool, in whatever state. *)
Definition pool_step (p' p : pool) : Prop := ∃ i c s s', step exec body i c (s, p) = Some (s', p').

(** What becomes of one goroutine in a step, and whom it starts. *)
Definition turn (x y : goroutine E T) (o : option T) : Prop :=
  let '(t, p) := x in
  match p with
  | Some p =>
      match (p : prog E T bool) with
      | Ret again => y = (t, if again then Some (body t) else None) ∧ o = None
      | Do e k => ∃ b, y = (t, Some (k b)) ∧ o = None
      | Go t' k => y = (t, Some k) ∧ o = Some t'
      end
  | None => False
  end.

Definition started (o : option T) : pool := match o with Some t => [start body t] | None => [] end.

Lemma pool_step_turn p p' :
  pool_step p' p → ∃ i x y o, p !! i = Some x ∧ turn x y o ∧ p' = <[i := y]> p ++ started o.
Proof.
  intros (i & c & s & s' & Hs). cbn in Hs. destruct (p !! i) as [[t [q|]]|] eqn:Ei; [|done|done].
  destruct q as [again|B e k|t' k].
  - injection Hs as _ <-. eexists i, _, _, None. split; [exact Ei|]. split; [by split|]. by rewrite app_nil_r.
  - destruct (exec B e c s) as [[b s1]|]; [|done]. injection Hs as _ <-.
    eexists i, _, (t, Some (k b)), None. split; [exact Ei|]. split; [by exists b|]. by rewrite app_nil_r.
  - injection Hs as _ <-. eexists i, _, _, (Some t'). split; [exact Ei|]. by split.
Qed.

(** The same up to the order of the pool. *)
Definition shrinks (p' p : pool) : Prop :=
  ∃ x y o rest, p ≡ₚ x :: rest ∧ turn x y o ∧ p' ≡ₚ y :: started o ++ rest.

Lemma pool_step_shrinks p p' : pool_step p' p → shrinks p' p.
Proof.
  intros (i & x & y & o & Hi & Ht & ->)%pool_step_turn.
  exists x, y, o, (delete i p). split; [by apply delete_Permutation|]. split; [done|].
  rewrite insert_take_drop by by eapply lookup_lt_Some. rewrite delete_take_drop.
  rewrite <- app_assoc. cbn. rewrite <- Permutation_middle. constructor.
  rewrite app_assoc. by rewrite (Permutation_app_comm (started o)).
Qed.

Lemma shrinks_perm p q p' : p ≡ₚ q → shrinks p' p → shrinks p' q.
Proof. intros Hpq (x & y & o & rest & Hp & Ht & Hp'). exists x, y, o, rest. by rewrite <- Hpq. Qed.

Lemma terminating_perm p q : p ≡ₚ q → Acc shrinks p → Acc shrinks q.
Proof. intros Hpq [Hp]. constructor. intros q' Hq. apply Hp. by eapply shrinks_perm. Qed.

(** A goroutine that may be added to a pool that ends. *)
Definition addable (x : goroutine E T) : Prop := ∀ p, Acc shrinks p → Acc shrinks (x :: p).

Lemma addable_intro x :
  (∀ y o, turn x y o → addable y ∧ ∀ t, o = Some t → addable (start body t)) → addable x.
Proof.
  intros Hx p Hp. induction Hp as [p Hp IH]. constructor. intros p' (z & y & o & rest & Hz & Ht & Hp').
  apply (terminating_perm (y :: started o ++ rest)); [done|].
  assert (Hin : z ∈ x :: p) by (rewrite Hz; apply list_elem_of_here).
  apply elem_of_cons in Hin as [->|Hin].
  - apply Permutation_cons_inv in Hz. destruct (Hx y o Ht) as [Hy Ho]. apply Hy.
    assert (Hrest : Acc shrinks rest) by (apply (terminating_perm p); [by symmetry|by constructor]).
    destruct o as [t|]; [by apply Ho|done].
  - apply elem_of_Permutation in Hin as [p1 Hp1].
    assert (Hrest : rest ≡ₚ x :: p1).
    { apply (Permutation_cons_inv (a := z)). rewrite <- Hz, Hp1. constructor. }
    apply (terminating_perm (x :: y :: started o ++ p1)).
    { rewrite Hrest. rewrite Permutation_swap. constructor. by rewrite <- Permutation_middle. }
    apply IH. exists z, y, o, p1. by rewrite Hp1.
Qed.

Lemma addable_returned t : addable (t, None).
Proof. by apply addable_intro. Qed.

Lemma addable_straight n t p :
  (∀ t, (rank t < n)%nat → addable (start body t)) → straight n ends p → addable (t, Some p).
Proof.
  intros Hlow. induction p as [again|B e k IH|t' k IH]; cbn; intros Hp; apply addable_intro; intros y o Ht.
  - destruct Ht as [-> ->]. rewrite Hp. split; [apply addable_returned|done].
  - destruct Ht as (b & -> & ->). split; [apply IH, Hp|done].
  - destruct Ht as [-> ->], Hp as [Hr Hp]. split; [by apply IH|]. intros ? [= <-]. by apply Hlow.
Qed.

Lemma addable_start t : addable (start body t).
Proof.
  remember (rank t) as n eqn:En. revert t En. induction (lt_wf n) as [n _ IH]. intros t ->.
  eapply addable_straight; [|apply Hbody]. intros t' Hlt. by apply (IH _ Hlt).
Qed.

Lemma pool_terminates ts : Acc shrinks (start body <$> ts).
Proof.
  induction ts as [|t ts IH]; cbn; [|by apply addable_start].
  constructor. intros p' (x & y & o & rest & Hx & _). by apply Permutation_nil_cons in Hx.
Qed.

(** Every run from a pool that starts is finite. *)
Lemma runs_end s ts :
  Acc (λ st' st, ∃ i c, step exec body i c st = Some st') (s, start body <$> ts).
Proof.
  pose proof (pool_terminates ts) as Hacc. revert s.
  induction Hacc as [p _ IH]. intros s. constructor. intros [s' p'] (i & c & Hs).
  apply IH, pool_step_shrinks. by exists i, c, s, s'.
Qed.
End Termination.
