(* ===== verification/UDPSessions.v ===== *)
(** The UDP sessions of a server side UDP proxy (internal/server/udp_proxy.go).

    One goroutine reads datagrams and keeps a stream for every source address,
    a goroutine for each session carries the replies back, a reaper closes idle
    sessions, and [Close] may be called by anyone at any time.  They share a
    [sync.Map], two counters and the streams; every access is an operation of
    [Goroutines].

    The environment chooses what the network does, and in which order
    [sync.Map.Range] visits the keys.  Fields that are never written after a
    session was created (source address and IP) are part of its
    reference.  The two steps of
    [UDPSession.Close] are one operation; logging and the waits for bandwidth
    have no effect on this state; whether a failure of the proxy closes it
    ([markUDPProxyRuntimeErrorIfCurrent]) is a choice. *)
From Stdlib Require Import ZArith Lia Ascii String.
From stdpp Require Import base tactics numbers list gmap strings.
From S2P Require Import Prelude GoStrings GoIO GoNet IngressPolicy UDPFrames Goroutines.

(** ** Data *)

(** A [net.Addr]: what [String()] returns, and for a [*net.UDPAddr] with an
    address what [IP.String()] returns. *)
Record Addr := { addr_text : string; addr_ip : option string }.

#[export] Instance Addr_eq_dec : EqDecision Addr.
Proof. solve_decision. Defined.

(** A reference to a [UDPSession]. *)
Record UDPSession := { us_id : nat; us_srcAddr : Addr; us_ipKey : string }.

#[export] Instance UDPSession_eq_dec : EqDecision UDPSession.
Proof. solve_decision. Defined.

(** The object it refers to. *)
Record session_fields := { sf_stream : nat; sf_done : bool; sf_lastActive : Z }.

Inductive once := NotYet | Running | Happened.

Record UDPProxyState := {
  up_sessions : gmap string UDPSession;
  sessionCount : Z;
  sessionIPs : gmap string Z;
  up_done : bool;
  closeOnce : once;
  up_fields : list session_fields;             (* by [us_id] *)
  up_streams : list bool;                      (* closed, by number *)
  packetConn_closed : bool;
  up_received : list (string * bytes);         (* read from [packetConn] *)
  up_sent : list (string * bytes);             (* written to [packetConn] *)
  up_wire : list (UDPSession * bytes);         (* frames written to streams *)
  up_replies : list (UDPSession * bytes);      (* frames read from streams *)
  up_ingress : Z; up_egress : Z;               (* recorded by [recordTunnelTraffic] *)
}.

Definition MaxUDPSessions : Z := 4096.
Definition MaxUDPSessionsPerIP : Z := MaxUDPSessions.
Definition UDPSessionTimeout : Z := 120 * 1000000000.

Definition udpSourceIPKey (addr : option Addr) : string :=
  match addr with
  | None => ""
  | Some addr =>
      match addr_ip addr with
      | Some ip => ip
      | None => match SplitHostPort (addr_text addr) with
                | Some (host, _) => host
                | None => addr_text addr
                end
      end
  end.

(** ** Operations *)

Inductive udp_op : Type → Type :=
| StateDone : udp_op bool
| CloseOnceBegin : udp_op bool
| CloseOnceEnd : udp_op unit
| CloseDone : udp_op unit
| ClosePacketConn : udp_op unit
| ReadFrom : udp_op (option (Addr * bytes))
| WriteTo (p : bytes) (a : Addr) : udp_op bool
| SessionsLoad (key : string) : udp_op (option UDPSession)
| LoadOrStore (key : string) (sess : UDPSession) : udp_op (option UDPSession)
| LoadAndDelete (key : string) : udp_op (option UDPSession)
| RangeKeys : udp_op (list string)
| CountLoad : udp_op Z
| CountAdd (z : Z) : udp_op unit
| IPCount (ip : string) : udp_op Z
| IPIncrement (ip : string) : udp_op unit
| IPDecrement (ip : string) : udp_op unit
| OpenStream : udp_op (option nat)
| NewSession (a : Addr) (ipKey : string) (stream : nat) : udp_op UDPSession
| StreamClose (stream : nat) : udp_op unit
| Touch (sess : UDPSession) : udp_op unit
| LastActive (sess : UDPSession) : udp_op Z
| IdleDuration (sess : UDPSession) : udp_op Z
| SessionDone (sess : UDPSession) : udp_op bool
| SessionClose (sess : UDPSession) : udp_op unit
| WriteFrame (sess : UDPSession) (p : bytes) : udp_op bool
| ReadFrame (sess : UDPSession) : udp_op (option bytes)
| WaitTick : udp_op bool
| RecordTraffic (ingress egress : Z) : udp_op unit
| ErrorCloses : udp_op bool.

(** What the environment settles for an operation. *)
Inductive choice :=
| CNone
| CBool (b : bool)
| CTime (now : Z)
| CKeys (keys : list string)
| CPacket (a : Addr) (p : bytes)
| CPayload (p : bytes).

(** The operations below change one field. *)
Definition with_sessions (s : UDPProxyState) m := {|
  up_sessions := m; sessionCount := sessionCount s; sessionIPs := sessionIPs s;
  up_done := up_done s; closeOnce := closeOnce s; up_fields := up_fields s;
  up_streams := up_streams s; packetConn_closed := packetConn_closed s;
  up_received := up_received s; up_sent := up_sent s; up_wire := up_wire s;
  up_replies := up_replies s; up_ingress := up_ingress s; up_egress := up_egress s |}.
Definition with_counts (s : UDPProxyState) n ips := {|
  up_sessions := up_sessions s; sessionCount := n; sessionIPs := ips;
  up_done := up_done s; closeOnce := closeOnce s; up_fields := up_fields s;
  up_streams := up_streams s; packetConn_closed := packetConn_closed s;
  up_received := up_received s; up_sent := up_sent s; up_wire := up_wire s;
  up_replies := up_replies s; up_ingress := up_ingress s; up_egress := up_egress s |}.
Definition with_closing (s : UDPProxyState) o d pc := {|
  up_sessions := up_sessions s; sessionCount := sessionCount s; sessionIPs := sessionIPs s;
  up_done := d; closeOnce := o; up_fields := up_fields s;
  up_streams := up_streams s; packetConn_closed := pc;
  up_received := up_received s; up_sent := up_sent s; up_wire := up_wire s;
  up_replies := up_replies s; up_ingress := up_ingress s; up_egress := up_egress s |}.
Definition with_objects (s : UDPProxyState) fields streams := {|
  up_sessions := up_sessions s; sessionCount := sessionCount s; sessionIPs := sessionIPs s;
  up_done := up_done s; closeOnce := closeOnce s; up_fields := fields;
  up_streams := streams; packetConn_closed := packetConn_closed s;
  up_received := up_received s; up_sent := up_sent s; up_wire := up_wire s;
  up_replies := up_replies s; up_ingress := up_ingress s; up_egress := up_egress s |}.
Definition with_logs (s : UDPProxyState) received sent wire replies := {|
  up_sessions := up_sessions s; sessionCount := sessionCount s; sessionIPs := sessionIPs s;
  up_done := up_done s; closeOnce := closeOnce s; up_fields := up_fields s;
  up_streams := up_streams s; packetConn_closed := packetConn_closed s;
  up_received := received; up_sent := sent; up_wire := wire;
  up_replies := replies; up_ingress := up_ingress s; up_egress := up_egress s |}.
Definition with_traffic (s : UDPProxyState) i e := {|
  up_sessions := up_sessions s; sessionCount := sessionCount s; sessionIPs := sessionIPs s;
  up_done := up_done s; closeOnce := closeOnce s; up_fields := up_fields s;
  up_streams := up_streams s; packetConn_closed := packetConn_closed s;
  up_received := up_received s; up_sent := up_sent s; up_wire := up_wire s;
  up_replies := up_replies s; up_ingress := i; up_egress := e |}.

Definition session_done (s : UDPProxyState) (sess : UDPSession) : bool :=
  match up_fields s !! us_id sess with Some f => sf_done f | None => true end.
Definition session_lastActive (s : UDPProxyState) (sess : UDPSession) : Z :=
  match up_fields s !! us_id sess with Some f => sf_lastActive f | None => 0 end.
Definition stream_closed (s : UDPProxyState) (stream : nat) : bool :=
  default true (up_streams s !! stream).
(** [sess.stream] is closed. *)
Definition session_cut (s : UDPProxyState) (sess : UDPSession) : bool :=
  match up_fields s !! us_id sess with Some f => stream_closed s (sf_stream f) | None => true end.

Definition touch_session (now : Z) (sess : UDPSession) (s : UDPProxyState) : UDPProxyState :=
  match up_fields s !! us_id sess with
  | Some f =>
      with_objects s
        (<[us_id sess := {| sf_stream := sf_stream f; sf_done := sf_done f; sf_lastActive := now |}]>
           (up_fields s))
        (up_streams s)
  | None => s
  end.

(** [sess.Close()]: once, [done] and the stream. *)
Definition close_session (sess : UDPSession) (s : UDPProxyState) : UDPProxyState :=
  match up_fields s !! us_id sess with
  | Some f =>
      if sf_done f then s
      else with_objects s
             (<[us_id sess := {| sf_stream := sf_stream f; sf_done := true;
                                 sf_lastActive := sf_lastActive f |}]> (up_fields s))
             (<[sf_stream f := true]> (up_streams s))
  | None => s
  end.

(** [delete] of a count that reaches zero; a missing count stays missing. *)
Definition decrement_ip (ip : string) (ips : gmap string Z) : gmap string Z :=
  let count := default 0 (ips !! ip) in
  if count <=? 1 then delete ip ips else <[ip := count - 1]> ips.

Definition udp_exec (B : Type) (e : udp_op B) (c : choice) (s : UDPProxyState)
  : option (B * UDPProxyState) :=
  match e in udp_op B return option (B * UDPProxyState) with
  | StateDone => Some (up_done s, s)
  | CloseOnceBegin =>
      match closeOnce s with
      | NotYet => Some (true, with_closing s Running (up_done s) (packetConn_closed s))
      | Running => None
      | Happened => Some (false, s)
      end
  | CloseOnceEnd => Some (tt, with_closing s Happened (up_done s) (packetConn_closed s))
  | CloseDone => Some (tt, with_closing s (closeOnce s) true (packetConn_closed s))
  | ClosePacketConn => Some (tt, with_closing s (closeOnce s) (up_done s) true)
  | ReadFrom =>
      match c with
      | CPacket a p =>
          if packetConn_closed s then None else
          let p := take (Z.to_nat MaxUDPPayload) p in
          Some (Some (a, p), with_logs s (up_received s ++ [(addr_text a, p)]) (up_sent s) (up_wire s)
                                       (up_replies s))
      | CNone => Some (None, s)
      | _ => None
      end
  | WriteTo p a =>
      match c with
      | CBool true =>
          if packetConn_closed s then None else
          Some (true, with_logs s (up_received s) (up_sent s ++ [(addr_text a, p)]) (up_wire s)
                                (up_replies s))
      | CBool false => Some (false, s)
      | _ => None
      end
  | SessionsLoad key => Some (up_sessions s !! key, s)
  | LoadOrStore key sess =>
      match up_sessions s !! key with
      | Some actual => Some (Some actual, s)
      | None => Some (None, with_sessions s (<[key := sess]> (up_sessions s)))
      end
  | LoadAndDelete key => Some (up_sessions s !! key, with_sessions s (delete key (up_sessions s)))
  | RangeKeys =>
      match c with
      | CKeys keys =>
          if bool_decide (NoDup keys) && bool_decide (dom (up_sessions s) ⊆ (list_to_set keys : gset string))
          then Some (keys, s) else None
      | _ => None
      end
  | CountLoad => Some (sessionCount s, s)
  | CountAdd z => Some (tt, with_counts s (sessionCount s + z) (sessionIPs s))
  | IPCount ip => Some (default 0 (sessionIPs s !! ip), s)
  | IPIncrement ip =>
      Some (tt, with_counts s (sessionCount s)
                  (<[ip := default 0 (sessionIPs s !! ip) + 1]> (sessionIPs s)))
  | IPDecrement ip => Some (tt, with_counts s (sessionCount s) (decrement_ip ip (sessionIPs s)))
  | OpenStream =>
      match c with
      | CBool true => Some (Some (length (up_streams s)),
                            with_objects s (up_fields s) (up_streams s ++ [false]))
      | CBool false => Some (None, s)
      | _ => None
      end
  | NewSession a ipKey stream =>
      Some ({| us_id := length (up_fields s); us_srcAddr := a; us_ipKey := ipKey |},
            with_objects s (up_fields s ++ [{| sf_stream := stream; sf_done := false; sf_lastActive := 0 |}])
                         (up_streams s))
  | StreamClose stream =>
      Some (tt, with_objects s (up_fields s) (<[stream := true]> (up_streams s)))
  | Touch sess =>
      match c with
      | CTime now => Some (tt, touch_session now sess s)
      | _ => None
      end
  | LastActive sess => Some (session_lastActive s sess, s)
  | IdleDuration sess =>
      match c with CTime now => Some (now - session_lastActive s sess, s) | _ => None end
  | SessionDone sess => Some (session_done s sess, s)
  | SessionClose sess => Some (tt, close_session sess s)
  | WriteFrame sess p =>
      match c with
      | CBool true =>
          if session_cut s sess then None else
          Some (true, with_logs s (up_received s) (up_sent s) (up_wire s ++ [(sess, p)]) (up_replies s))
      | CBool false => Some (false, s)
      | _ => None
      end
  | ReadFrame sess =>
      match c with
      | CPayload p =>
          if session_cut s sess || (MaxUDPPayload <? blen p) then None else
          Some (Some p, with_logs s (up_received s) (up_sent s) (up_wire s) (up_replies s ++ [(sess, p)]))
      | CNone => Some (None, s)
      | _ => None
      end
  | WaitTick =>
      match c with
      | CBool true => if up_done s then Some (true, s) else None
      | CBool false => Some (false, s)
      | _ => None
      end
  | RecordTraffic i e => Some (tt, with_traffic s (up_ingress s + i) (up_egress s + e))
  | ErrorCloses => match c with CBool b => Some (b, s) | _ => None end
  end.

(** ** The functions of the proxy *)

Open Scope prog_scope.

(** The goroutines: the reader, the reaper, one for each session, and any call
    of [Close] from elsewhere. *)
Inductive udp_goroutine :=
| Reader
| Reaper
| Reverse (sess : UDPSession)
| Closer.

Abbreviation udp := (prog udp_op udp_goroutine).
Abbreviation act e := (@op udp_op udp_goroutine _ e).

Definition removeSession (key : string) : udp bool :=
  loaded ← act (LoadAndDelete key);
  match loaded with
  | Some sess =>
      _ ← act (CountAdd (-1));
      if us_ipKey sess =?s "" then mret true
      else _ ← act (IPDecrement (us_ipKey sess)); mret true
  | None => mret false
  end.

(** [s.sessions.Range(f)]: the keys in some order, each with the value it has
    when it is visited. *)
Definition sessions_range {B} (f : B → string → UDPSession → udp B) (acc : B) : udp B :=
  keys ← act RangeKeys;
  prog_range keys (λ acc key,
    value ← act (SessionsLoad key);
    match value with Some sess => f acc key sess | None => mret acc end) acc.

Definition UDPProxyState_Close : udp unit :=
  first ← act CloseOnceBegin;
  if first then
    _ ← act CloseDone;
    _ ← act ClosePacketConn;
    _ ← sessions_range (λ _ key sess, _ ← act (SessionClose sess); _ ← removeSession key; mret tt) tt;
    act CloseOnceEnd
  else mret tt.

Definition removeOldestSession : udp bool :=
  '(oldestKey, _) ← sessions_range (λ '(oldestKey, oldestAt) key sess,
    lastActive ← act (LastActive sess);
    mret (if (oldestKey =?s "") || (lastActive <? oldestAt) then (key, lastActive)
          else (oldestKey, oldestAt))) (""%string, 0);
  if oldestKey =?s "" then mret false else
  value ← act (SessionsLoad oldestKey);
  _ ← match value with Some sess => act (SessionClose sess) | None => mret tt end;
  removeSession oldestKey.

Definition storeSession (key : string) (sess : UDPSession) : udp (UDPSession * bool) :=
  actual ← act (LoadOrStore key sess);
  match actual with
  | Some actual => mret (actual, false)
  | None =>
      _ ← act (CountAdd 1);
      if us_ipKey sess =?s "" then mret (sess, true)
      else _ ← act (IPIncrement (us_ipKey sess)); mret (sess, true)
  end.

Definition sessionCountForIP (ipKey : string) : udp Z :=
  if ipKey =?s "" then mret 0 else act (IPCount ipKey).

Definition canCreateSessionForIP (ipKey : string) : udp bool :=
  count ← act CountLoad;
  if MaxUDPSessions <=? count then mret false else
  ipCount ← sessionCountForIP ipKey;
  mret (ipCount <? MaxUDPSessionsPerIP).

(** How [markUDPProxyRuntimeErrorIfCurrent] ends for this state. *)
Definition runtime_error : udp unit :=
  closes ← act ErrorCloses;
  if (closes : bool) then UDPProxyState_Close else mret tt.

(** Room for one more session. *)
Definition make_room : udp bool :=
  count ← act CountLoad;
  if MaxUDPSessions <=? count then
    removed ← removeOldestSession;
    if negb removed then mret false else
    count ← act CountLoad;
    mret (negb (MaxUDPSessions <=? count))
  else mret true.

(** What the reader does with a datagram: the session to use, [None] to drop
    the datagram; the error when no stream can be opened. *)
Inductive lookup_result := Use (sess : UDPSession) | Drop | NoStream.

Definition lookup_session (srcAddr : Addr) : udp lookup_result :=
  let key := addr_text srcAddr in
  let ipKey := udpSourceIPKey (Some srcAddr) in
  val ← act (SessionsLoad key);
  match val with
  | Some sess => mret (Use sess)
  | None =>
      room ← make_room;
      if negb room then mret Drop else
      allowed ← canCreateSessionForIP ipKey;
      if negb allowed then mret Drop else
      stream ← act OpenStream;
      match stream with
      | None => _ ← runtime_error; mret NoStream
      | Some stream =>
          sess ← act (NewSession srcAddr ipKey stream);
          _ ← act (Touch sess);
          '(actual, added) ← storeSession key sess;
          if (added : bool) then _ ← go (Reverse sess); mret (Use sess)
          else _ ← act (StreamClose stream); mret (Use actual)
      end
  end.

Definition forward_datagram (key : string) (sess : UDPSession) (p : bytes) : udp unit :=
  _ ← act (Touch sess);
  written ← act (WriteFrame sess p);
  if written then act (RecordTraffic (blen p) 0)
  else _ ← act (SessionClose sess); _ ← removeSession key; mret tt.

Section Goroutines.
Context (sourceCIDRs : list IPNet).

(** One round of each loop; [false] for a return. *)
Definition udpReadLoop : udp bool :=
  done ← act StateDone;
  if (done : bool) then mret false else
  packet ← act ReadFrom;
  match packet with
  | None =>
      done ← act StateDone;
      if (done : bool) then mret false else _ ← runtime_error; mret false
  | Some (srcAddr, p) =>
      if negb (SourceAllowed (Some (addr_text srcAddr)) sourceCIDRs) then mret true else
      r ← lookup_session srcAddr;
      match r with
      | Drop => mret true
      | NoStream => mret false
      | Use sess => _ ← forward_datagram (addr_text srcAddr) sess p; mret true
      end
  end.

(** The deferred calls of [udpSessionReverse]. *)
Definition reverse_return (sess : UDPSession) : udp bool :=
  _ ← act (SessionClose sess);
  _ ← removeSession (addr_text (us_srcAddr sess));
  mret false.

Definition udpSessionReverse (sess : UDPSession) : udp bool :=
  sdone ← act (SessionDone sess);
  if (sdone : bool) then reverse_return sess else
  done ← act StateDone;
  if (done : bool) then reverse_return sess else
  payload ← act (ReadFrame sess);
  match payload with
  | None => reverse_return sess
  | Some payload =>
      _ ← act (Touch sess);
      written ← act (WriteTo payload (us_srcAddr sess));
      if (written : bool) then _ ← act (RecordTraffic 0 (blen payload)); mret true
      else reverse_return sess
  end.

Definition udpReaper : udp bool :=
  done ← act WaitTick;
  if (done : bool) then mret false else
  _ ← sessions_range (λ _ key sess,
        idle ← act (IdleDuration sess);
        if UDPSessionTimeout <? idle
        then _ ← act (SessionClose sess); _ ← removeSession key; mret tt
        else mret tt) tt;
  mret true.

Definition udp_body (t : udp_goroutine) : udp bool :=
  match t with
  | Reader => udpReadLoop
  | Reaper => udpReaper
  | Reverse sess => udpSessionReverse sess
  | Closer => _ ← UDPProxyState_Close; mret false
  end.

(** A published proxy, and [n] calls of [Close] that come at some time. *)
Definition fresh_state : UDPProxyState := {|
  up_sessions := ∅; sessionCount := 0; sessionIPs := ∅; up_done := false; closeOnce := NotYet;
  up_fields := []; up_streams := []; packetConn_closed := false; up_received := []; up_sent := [];
  up_wire := []; up_replies := []; up_ingress := 0; up_egress := 0 |}.

Definition fresh_pool (n : nat) : list (goroutine udp_op udp_goroutine) :=
  start udp_body <$> Reader :: Reaper :: replicate n Closer.

Definition udp_reachable (n : nat) (st : UDPProxyState * list (goroutine udp_op udp_goroutine)) : Prop :=
  reachable udp_exec udp_body (fresh_state, fresh_pool n) st.

End Goroutines.

(** ** The answers of the operations *)

(** The entries of the table are sessions of their keys. *)
Definition keyed (s : UDPProxyState) : Prop :=
  ∀ key sess, up_sessions s !! key = Some sess → addr_text (us_srcAddr sess) = key.

Definition udp_answer (B : Type) (e : udp_op B) (b : B) : Prop :=
  match e in udp_op B return B → Prop with
  | SessionsLoad key | LoadOrStore key _ => λ b, ∀ sess, b = Some sess → addr_text (us_srcAddr sess) = key
  | NewSession a ipKey stream => λ b, us_srcAddr b = a ∧ us_ipKey b = ipKey
  | _ => λ _, True
  end b.

Lemma udp_exec_answer B (e : udp_op B) c s b s' :
  keyed s → udp_exec B e c s = Some (b, s') → udp_answer B e b.
Proof.
  intros Hk. destruct e; try done; cbn.
  - intros [= <- _] sess E. by apply Hk.
  - destruct (up_sessions s !! key) eqn:E; intros [= <- _]; [|done]. intros sess' [= <-]. by apply Hk.
  - by intros [= <- _].
Qed.

(** ** Functions under a discipline

    The functions that close and remove sessions leave a ghost value alone
    when every operation below does and [removeSession] does. *)
Definition plain {B} (e : udp_op B) : bool :=
  match e with
  | StateDone | CloseOnceBegin | CloseOnceEnd | CloseDone | ClosePacketConn | SessionsLoad _
  | RangeKeys | IPCount _ | Touch _ | LastActive _ | IdleDuration _ | SessionDone _
  | SessionClose _ | WaitTick | ErrorCloses => true
  | _ => false
  end.

Section Functions.
Context {G : Type} (move : ∀ B, udp_op B → B → G → option G) (hand : udp_goroutine → G → option G).
Context (P : G → Prop).
Abbreviation stay p := (stays udp_answer move hand P p).
Context (Hplain : ∀ B (e : udp_op B), plain e = true → stay (act e)).
Context (Hremove : ∀ key, stay (removeSession key)).

Lemma stays_sessions_range {B} (f : B → string → UDPSession → udp B) acc :
  (∀ acc key sess, stay (f acc key sess)) → stay (sessions_range f acc).
Proof.
  intros Hf. apply stays_seq; [by apply Hplain|]. intros keys. apply stays_range. intros acc' key.
  apply stays_seq; [by apply Hplain|]. intros [sess|]; [apply Hf|apply stays_ret].
Qed.

Lemma stays_close_one {A} key sess (a : A) :
  stay (seq (act (SessionClose sess)) (λ _, seq (removeSession key) (λ _, Ret a))).
Proof.
  apply stays_seq; [by apply Hplain|]. intros _. apply stays_seq; [apply Hremove|].
  intros _. apply stays_ret.
Qed.

Lemma stays_Close : stay UDPProxyState_Close.
Proof.
  apply stays_seq; [by apply Hplain|]. intros [|]; [|apply stays_ret].
  do 2 (apply stays_seq; [by apply Hplain|]; intros _).
  apply stays_seq; [|intros _; by apply Hplain].
  apply stays_sessions_range. intros _ key sess. apply stays_close_one.
Qed.

Lemma stays_removeOldestSession : stay removeOldestSession.
Proof.
  apply stays_seq.
  - apply stays_sessions_range. intros [oldestKey oldestAt] key sess.
    apply stays_seq; [by apply Hplain|]. intros lastActive. apply stays_ret.
  - intros [oldestKey _]. destruct (oldestKey =?s ""); [apply stays_ret|].
    apply stays_seq; [by apply Hplain|]. intros value.
    apply stays_seq; [|intros _; apply Hremove].
    destruct value; [by apply Hplain|apply stays_ret].
Qed.

Lemma stays_runtime_error : stay runtime_error.
Proof. apply stays_seq; [by apply Hplain|]. intros [|]; [apply stays_Close|apply stays_ret]. Qed.

Lemma stays_udpReaper : stay udpReaper.
Proof.
  apply stays_seq; [by apply Hplain|]. intros [|]; [apply stays_ret|].
  apply stays_seq; [|intros _; apply stays_ret]. apply stays_sessions_range. intros _ key sess.
  apply stays_seq; [by apply Hplain|]. intros idle.
  destruct (_ <? _); [apply stays_close_one|apply stays_ret].
Qed.
End Functions.
