(* ===== verification/UDPSamples.v ===== *)
(** Concrete runs of the UDP proxy, for the witnesses of its properties: a
    policy that allows everyone, two sources, and schedules. *)
From Stdlib Require Import ZArith Lia Ascii String Strings.Byte.
From stdpp Require Import base tactics numbers list gmap strings.
From S2P Require Import Prelude GoStrings GoIO GoNet IngressPolicy UDPFrames Goroutines UDPSessions.

Abbreviation sample_cidrs :=
  [{| net_IP := [x00; x00; x00; x00]; net_Mask := [x00; x00; x00; x00] |}].
Abbreviation sample_source := {| addr_text := "203.0.113.9:4000"; addr_ip := Some "203.0.113.9"%string |}.

(** [n] steps of goroutine [i] that need no choice. *)
Definition steps (i n : nat) : list (nat * choice) := replicate n (i, CNone).

(** The reader takes a datagram of a new source up to the start of its
    goroutine, which is number [2] when nobody calls [Close]. *)
Definition sample_arrival : list (nat * choice) :=
  steps 0 1 ++ [(0%nat, CPacket sample_source [x68; x69])] ++ steps 0 4 ++ [(0%nat, CBool true)]
  ++ steps 0 1 ++ [(0%nat, CTime 1000)] ++ steps 0 4.

(** It writes the datagram, and the reply comes back. *)
Definition sample_exchange : list (nat * choice) :=
  [(0%nat, CTime 1001); (0%nat, CBool true)] ++ steps 0 2
  ++ steps 2 2 ++ [(2%nat, CPayload [x6f; x6b]); (2%nat, CTime 2000); (2%nat, CBool true)] ++ steps 2 2.

(** The same with one call of [Close]: it is goroutine [2], and closes the proxy
    after the datagram; then everyone returns. *)
Definition sample_closing : list (nat * choice) :=
  sample_arrival ++ [(0%nat, CTime 1001); (0%nat, CBool true)] ++ steps 0 1
  ++ steps 2 3 ++ [(2%nat, CKeys ["203.0.113.9:4000"%string])] ++ steps 2 7
  ++ steps 0 3 ++ [(1%nat, CBool true)] ++ steps 1 1 ++ steps 3 4.

(** A write to the stream of the first session fails, so that the reader closes
    the session and removes it; the next datagram of the source makes another
    one.  Only then does the goroutine of the first session return, and it
    removes the second.  [Close] comes afterwards, and everyone else returns. *)
Definition sample_orphan : list (nat * choice) :=
  sample_arrival ++ [(0%nat, CTime 1001); (0%nat, CBool false)] ++ steps 0 5
  ++ sample_arrival ++ [(0%nat, CTime 1002); (0%nat, CBool true)] ++ steps 0 2
  ++ steps 3 6
  ++ steps 4 2
  ++ steps 2 3 ++ [(2%nat, CKeys [])] ++ steps 2 2
  ++ steps 0 2 ++ [(1%nat, CBool true)] ++ steps 1 1.

Abbreviation udp_start n := (fresh_state, fresh_pool sample_cidrs n).
Abbreviation udp_run n sched := (run udp_exec (udp_body sample_cidrs) sched (udp_start n)).
Abbreviation udp_end n sched := (default (udp_start n) (udp_run n sched)).

Lemma udp_end_reachable n sched :
  is_Some (udp_run n sched) → udp_reachable sample_cidrs n (udp_end n sched).
Proof. intros [st E]. exists sched. by rewrite E. Qed.

Definition udp_ran (n : nat) (sched : list (nat * choice)) : bool :=
  match udp_run n sched with Some _ => true | None => false end.

Lemma udp_ran_ok n sched : udp_ran n sched = true → is_Some (udp_run n sched).
Proof. unfold udp_ran. destruct (udp_run n sched); by eauto. Qed.

Example sample_arrival_runs : udp_ran 0 (sample_arrival ++ sample_exchange) = true.
Proof. vm_compute. reflexivity. Qed.

Definition udp_all_returned (n : nat) (sched : list (nat * choice)) : bool :=
  match udp_run n sched with
  | Some (_, pool) => forallb (λ x, match x.2 with None => true | _ => false end) pool
  | None => false
  end.

Example sample_closing_runs : udp_all_returned 1 sample_closing = true.
Proof. vm_compute. reflexivity. Qed.
