(* ===== verification/UDPCounts.v ===== *)
(** How many sessions a UDP proxy has: the counters of [UDPSessions] against
    the table, in every interleaving.

    A goroutine that has just added or removed an entry of the table owes the
    counters the change; it pays before it does anything else.  Only the reader
    adds, and only after it saw room. *)
From Stdlib Require Import ZArith Lia Ascii String.
From stdpp Require Import base tactics numbers list gmap strings.
From S2P Require Import Prelude GoStrings GoIO GoNet IngressPolicy UDPFrames Goroutines UDPSessions UDPSamples.

(** ** The discipline *)

Inductive debt :=
| Paid
| OweCount (z : Z) (ip : string)
| OweIP (z : Z) (ip : string).

Record book := { b_reader : bool; b_room : bool; b_debt : debt }.

Definition with_debt (g : book) (room : bool) (d : debt) : book :=
  {| b_reader := b_reader g; b_room := room; b_debt := d |}.

Definition pay {B} (e : udp_op B) (z : Z) (ip : string) (counted : bool) (g : book) : option book :=
  match e with
  | CountAdd z' =>
      if negb counted && (z' =? z)
      then Some (with_debt g (b_room g) (if ip =?s "" then Paid else OweIP z ip)) else None
  | IPIncrement ip' =>
      if counted && (z =? 1) && (ip' =?s ip) then Some (with_debt g (b_room g) Paid) else None
  | IPDecrement ip' =>
      if counted && (z =? -1) && (ip' =?s ip) then Some (with_debt g (b_room g) Paid) else None
  | _ => None
  end.

Definition count_move (B : Type) (e : udp_op B) (b : B) (g : book) : option book :=
  match b_debt g with
  | OweCount z ip => pay e z ip false g
  | OweIP z ip => pay e z ip true g
  | Paid =>
      match e in udp_op B return B → option book with
      | CountAdd _ | IPIncrement _ | IPDecrement _ => λ _, None
      | CountLoad => λ n, Some (with_debt g (b_reader g && (n <? MaxUDPSessions)) Paid)
      | LoadOrStore key sess => λ actual,
          match actual with
          | Some _ => Some g
          | None => if b_reader g && b_room g && (key =?s addr_text (us_srcAddr sess))
                    then Some (with_debt g false (OweCount 1 (us_ipKey sess))) else None
          end
      | LoadAndDelete _ => λ loaded,
          match loaded with
          | Some sess => Some (with_debt g (b_room g) (OweCount (-1) (us_ipKey sess)))
          | None => Some g
          end
      | _ => λ _, Some g
      end b
  end.

Definition count_hand (t : udp_goroutine) (g : book) : option book :=
  match t, b_debt g with Reverse _, Paid => Some g | _, _ => None end.

Definition count_begins (t : udp_goroutine) : book :=
  {| b_reader := match t with Reader => true | _ => false end; b_room := false; b_debt := Paid |}.

Definition count_rests (t : udp_goroutine) (again : bool) (g : book) : Prop :=
  b_debt g = Paid ∧ (b_reader g = true ↔ t = Reader).

Abbreviation counts p g Q := (follows udp_answer count_move count_hand p g Q).

(** Functions that leave the books as they are. *)
Definition paid (g : book) : Prop := b_debt g = Paid.
Abbreviation keeps p := (stays udp_answer count_move count_hand paid p).

#[local] Ltac keep_op := apply stays_op; intros ? [? ? ?]; unfold paid; cbn; intros ->; reflexivity.

Lemma keeps_removeSession key : keeps (removeSession key).
Proof.
  intros [r room d] Q Hd HQ. unfold paid in Hd. cbn in Hd. subst d.
  intros [sess|] _; cbn; eexists; (split; [reflexivity|]); [|apply HQ].
  intros [] _. eexists. split; [reflexivity|]. cbn.
  destruct (us_ipKey sess =?s "")%string eqn:E; [apply HQ|].
  intros [] _. unfold count_move. cbn. rewrite String.eqb_refl. eexists. split; [reflexivity|]. apply HQ.
Qed.

Lemma keeps_plain B (e : udp_op B) : plain e = true → keeps (act e).
Proof. intros He. apply stays_op. intros b [r room d]. unfold paid. cbn. intros ->. by destruct e. Qed.

#[local] Hint Resolve keeps_plain keeps_removeSession : core.

(** *** The reader, which may add *)

Definition reader_at (room : bool) : book := {| b_reader := true; b_room := room; b_debt := Paid |}.

(** Reader code that ends with its books paid, whatever it knows of the room. *)
Definition reads {A} (p : udp A) : Prop :=
  ∀ room (Q : A → book → Prop), (∀ a room', Q a (reader_at room')) → counts p (reader_at room) Q.

Lemma reads_keeps {A} (p : udp A) : keeps p → reads p.
Proof. intros Hp room Q HQ. by apply Hp. Qed.

Lemma reads_ret {A} (a : A) : reads (Ret a).
Proof. intros room Q HQ. apply HQ. Qed.

Lemma reads_seq {A B} (p : udp A) (f : A → udp B) : reads p → (∀ a, reads (f a)) → reads (seq p f).
Proof.
  intros Hp Hf room Q HQ. apply follows_seq, Hp. intros a room'. by apply Hf.
Qed.

Lemma reads_op {B} (e : udp_op B) :
  (∀ b room, ∃ room', count_move B e b (reader_at room) = Some (reader_at room')) → reads (act e).
Proof. intros He room Q HQ b _. destruct (He b room) as [room' E]. eexists. split; [exact E|apply HQ]. Qed.

#[local] Ltac read_op := apply reads_op; intros ? ?; eexists; reflexivity.

Lemma reads_make_room : reads make_room.
Proof.
  apply reads_seq; [read_op|]. intros count. destruct (_ <=? _); [|apply reads_ret].
  apply reads_seq; [apply reads_keeps, stays_removeOldestSession; auto|].
  intros [|]; [|apply reads_ret]. cbn [negb].
  apply reads_seq; [read_op|]. intros n. apply reads_ret.
Qed.

(** The check that lets a session in has seen room. *)
Lemma canCreateSessionForIP_room ipKey room (Q : bool → book → Prop) :
  (∀ room', Q false (reader_at room')) → Q true (reader_at true) →
  counts (canCreateSessionForIP ipKey) (reader_at room) Q.
Proof.
  intros Hno Hyes. apply follows_op_seq. intros count _. eexists. split; [reflexivity|].
  cbn [b_reader reader_at andb]. destruct (Z.leb_spec MaxUDPSessions count) as [|Hlt]; [apply Hno|].
  rewrite (proj2 (Z.ltb_lt _ _) Hlt). apply follows_seq. unfold sessionCountForIP.
  assert (Hend : ∀ n, Q (n <? MaxUDPSessionsPerIP) (reader_at true))
    by (intros n; destruct (_ <? _); [apply Hyes|apply Hno]).
  destruct (ipKey =?s ""); [apply Hend|]. intros n _. eexists. split; [reflexivity|]. apply Hend.
Qed.

Lemma reads_storeSession sess (Q : UDPSession * bool → book → Prop) :
  (∀ a room', Q a (reader_at room')) →
  counts (storeSession (addr_text (us_srcAddr sess)) sess) (reader_at true) Q.
Proof.
  intros HQ. apply follows_op_seq. intros [actual|] _; unfold count_move; cbn [b_debt reader_at].
  { eexists. split; [reflexivity|]. apply HQ. }
  cbn [b_reader b_room andb]. rewrite String.eqb_refl. eexists. split; [reflexivity|].
  apply follows_op_seq. intros [] _. eexists. split; [reflexivity|]. cbn [b_room with_debt].
  destruct (us_ipKey sess =?s "")%string; [apply HQ|].
  apply follows_op_seq. intros [] _. unfold count_move. cbn. rewrite String.eqb_refl.
  eexists. split; [reflexivity|]. apply HQ.
Qed.

Lemma reads_lookup_session srcAddr : reads (lookup_session srcAddr).
Proof.
  apply reads_seq; [read_op|]. intros [sess|]; [apply reads_ret|].
  apply reads_seq; [apply reads_make_room|]. intros [|]; [|apply reads_ret]. cbn [negb].
  intros room Q HQ. apply follows_seq, canCreateSessionForIP_room; [intros; apply HQ|]. cbn [negb].
  apply follows_op_seq. intros stream _. eexists. split; [reflexivity|].
  destruct stream as [stream|].
  2:{ apply follows_seq. apply (stays_runtime_error count_move count_hand paid); [by auto..|done|intros _; apply HQ]. }
  apply follows_op_seq. intros sess Hsess. eexists. split; [reflexivity|].
  apply follows_op_seq. intros [] _. eexists. split; [reflexivity|].
  destruct Hsess as (<- & _). apply follows_seq, reads_storeSession.
  intros [actual [|]] room'.
  - eexists. split; [reflexivity|]. apply HQ.
  - apply follows_op_seq. intros [] _. eexists. split; [reflexivity|]. apply HQ.
Qed.

Lemma keeps_forward_datagram key sess p : keeps (forward_datagram key sess p).
Proof.
  apply stays_seq; [keep_op|]. intros _. apply stays_seq; [keep_op|].
  intros [|]; [keep_op|by apply stays_close_one; auto].
Qed.

Lemma reads_udpReadLoop cidrs : reads (udpReadLoop cidrs).
Proof.
  apply reads_seq; [read_op|]. intros [|]; [apply reads_ret|].
  apply reads_seq; [read_op|]. intros [[srcAddr p]|].
  - destruct (negb _); [apply reads_ret|].
    apply reads_seq; [apply reads_lookup_session|]. intros [sess| |]; [|apply reads_ret..].
    apply reads_seq; [apply reads_keeps, keeps_forward_datagram|]. intros _. apply reads_ret.
  - apply reads_seq; [read_op|]. intros [|]; [apply reads_ret|].
    apply reads_seq; [apply reads_keeps, stays_runtime_error; auto|]. intros _. apply reads_ret.
Qed.

Lemma keeps_udpSessionReverse sess : keeps (udpSessionReverse sess).
Proof.
  assert (Hret : keeps (reverse_return sess)).
  { apply stays_close_one; auto. }
  apply stays_seq; [keep_op|]. intros [|]; [done|].
  apply stays_seq; [keep_op|]. intros [|]; [done|].
  apply stays_seq; [keep_op|]. intros [payload|]; [|done].
  apply stays_seq; [keep_op|]. intros _. apply stays_seq; [keep_op|]. intros [|]; [|done].
  apply stays_seq; [keep_op|]. intros _. apply stays_ret.
Qed.

Lemma bodies_count cidrs t g :
  count_rests t true g → counts (udp_body cidrs t) g (count_rests t).
Proof.
  intros [Hp Hr]. destruct g as [rd room d]. cbn in Hp, Hr. subst d.
  assert (Hk : ∀ p : udp bool, keeps p →
    counts p {| b_reader := rd; b_room := room; b_debt := Paid |} (count_rests t)) by by intros p Hk; apply Hk.
  destruct t as [| |sess|].
  - assert (rd = true) as -> by by apply Hr. apply reads_udpReadLoop. intros a room'. by split.
  - apply Hk, stays_udpReaper; auto.
  - apply Hk, keeps_udpSessionReverse.
  - apply Hk. apply stays_seq; [apply stays_Close; auto|]. intros _. apply stays_ret.
Qed.

(** ** The invariant *)

Definition count_of (g : book) : Z := match b_debt g with OweCount z _ => z | _ => 0 end.
Definition ip_of (ip : string) (g : book) : Z :=
  match b_debt g with
  | Paid => 0
  | OweCount z ip' | OweIP z ip' => if ip' =?s ip then z else 0
  end.

(** The sessions of the table with a source IP, and their count. *)
Definition ip_sessions (ip : string) (m : gmap string UDPSession) : Z :=
  Z.of_nat (size (filter (λ kv, us_ipKey kv.2 = ip) m)).
Definition ip_count (ips : gmap string Z) (ip : string) : Z := default 0 (ips !! ip).

Record counted (s : UDPProxyState) (gs : list book) : Prop := {
  ct_keyed : keyed s;
  ct_count : sessionCount s + total count_of gs = Z.of_nat (size (up_sessions s));
  ct_bound : Z.of_nat (size (up_sessions s)) ≤ MaxUDPSessions;
  ct_ips : ∀ ip, ip ≠ ""%string →
    ip_sessions ip (up_sessions s) ≤ ip_count (sessionIPs s) ip + total (ip_of ip) gs;
  ct_reader : ∀ i g, gs !! i = Some g → b_reader g = true → i = 0%nat;
  ct_others : ∀ i g, gs !! i = Some g → b_reader g = false → count_of g ≤ 0 ∧ b_room g = false;
  ct_room : ∀ i g, gs !! i = Some g → b_room g = true →
    Z.of_nat (size (up_sessions s)) < MaxUDPSessions;
}.

(** A change of the state by goroutine [i]. *)
Lemma counted_move s s' gs i g g' :
  counted s gs → gs !! i = Some g → keyed s' →
  sessionCount s' + count_of g' - Z.of_nat (size (up_sessions s'))
    = sessionCount s + count_of g - Z.of_nat (size (up_sessions s)) →
  Z.of_nat (size (up_sessions s')) ≤ MaxUDPSessions →
  (∀ ip, ip ≠ ""%string →
     ip_sessions ip (up_sessions s') - ip_count (sessionIPs s') ip - ip_of ip g'
     ≤ ip_sessions ip (up_sessions s) - ip_count (sessionIPs s) ip - ip_of ip g) →
  b_reader g' = b_reader g →
  (b_reader g = false → count_of g' ≤ 0 ∧ b_room g' = false) →
  (b_room g' = true → Z.of_nat (size (up_sessions s')) < MaxUDPSessions) →
  (size (up_sessions s') ≤ size (up_sessions s))%nat ∨ b_reader g = true →
  counted s' (<[i := g']> gs).
Proof.
  intros [Hk Hc Hb Hi Hr Ho Hm] Hg Hk' Hc' Hb' Hi' Hr' Ho' Hm' Hs.
  assert (Hlen : (i < length gs)%nat) by by eapply lookup_lt_Some.
  assert (Hcase : ∀ j h, <[i := g']> gs !! j = Some h → (j = i ∧ h = g') ∨ (j ≠ i ∧ gs !! j = Some h)).
  { intros j h. destruct (decide (j = i)) as [->|Hne].
    - rewrite list_lookup_insert_eq by done. intros [= <-]. by left.
    - rewrite list_lookup_insert_ne by done. by right. }
  split; [done| |done| | | |].
  - rewrite (total_insert _ _ _ g) by done. lia.
  - intros ip Hip. rewrite (total_insert _ _ _ g) by done.
    pose proof (Hi ip Hip). pose proof (Hi' ip Hip). lia.
  - intros j h [[-> ->]|[_ Hj]]%Hcase; [rewrite Hr'|]; by eauto.
  - intros j h [[-> ->]|[_ Hj]]%Hcase; [rewrite Hr'; by eauto|by eauto].
  - intros j h [[-> ->]|[Hne Hj]]%Hcase Hroom; [by auto|].
    destruct Hs as [Hs|Hs]; [pose proof (Hm _ _ Hj Hroom); lia|].
    destruct (b_reader h) eqn:E; [by rewrite (Hr _ _ Hj E), (Hr _ _ Hg Hs) in Hne|].
    destruct (Ho _ _ Hj E) as [_ E']. congruence.
Qed.

(** Operations that change neither the table nor the counters. *)
Definition reads_counts (s s' : UDPProxyState) : Prop :=
  up_sessions s' = up_sessions s ∧ sessionCount s' = sessionCount s ∧ sessionIPs s' = sessionIPs s.

Definition changes_counts {B} (e : udp_op B) : bool :=
  match e with
  | CountAdd _ | IPIncrement _ | IPDecrement _ | LoadOrStore _ _ | LoadAndDelete _ => true
  | _ => false
  end.

Lemma exec_reads_counts B (e : udp_op B) c s b s' :
  udp_exec B e c s = Some (b, s') → changes_counts e = false → reads_counts s s'.
Proof.
  intros He Hc. destruct e; try done; cbn in He; unfold close_session, touch_session in He; repeat case_match;
    simplify_eq/=; done.
Qed.

Lemma counted_same s s' gs i g g' :
  counted s gs → gs !! i = Some g → reads_counts s s' →
  b_reader g' = b_reader g → b_debt g' = b_debt g →
  (b_reader g = false → b_room g' = false) →
  (b_room g' = true → Z.of_nat (size (up_sessions s)) < MaxUDPSessions) →
  counted s' (<[i := g']> gs).
Proof.
  intros Hct Hg (Em & En & Ei) Hr Hd Ho Hm.
  assert (Hcount : count_of g' = count_of g) by (unfold count_of; by rewrite Hd).
  assert (Hip : ∀ ip, ip_of ip g' = ip_of ip g) by (intros ip; unfold ip_of; by rewrite Hd).
  eapply counted_move; [done|done|..]; rewrite ?Em, ?En, ?Ei, ?Hcount; auto.
  - intros key sess. rewrite Em. apply Hct.
  - apply Hct.
  - intros ip _. by rewrite Hip.
  - intros Hf. destruct (ct_others _ _ Hct _ _ Hg Hf). auto.
Qed.

(** *** The table *)

Lemma ip_sessions_insert ip key sess m :
  m !! key = None →
  ip_sessions ip (<[key := sess]> m)
  = ip_sessions ip m + (if us_ipKey sess =?s ip then 1 else 0).
Proof.
  intros Hm. unfold ip_sessions. rewrite map_filter_insert. cbn.
  destruct (String.eqb_spec (us_ipKey sess) ip) as [E|E]; case_decide; try done.
  - rewrite map_size_insert_None; [lia|]. apply map_lookup_filter_None. by left.
  - rewrite delete_id by done. lia.
Qed.

Lemma ip_sessions_delete ip key sess m :
  m !! key = Some sess →
  ip_sessions ip (delete key m) = ip_sessions ip m - (if us_ipKey sess =?s ip then 1 else 0).
Proof.
  intros Hm. rewrite <- (insert_delete_id m key sess Hm) at 2.
  rewrite ip_sessions_insert by apply lookup_delete_eq. lia.
Qed.

Lemma decrement_ip_count ip ip' ips :
  ip_count ips ip' - (if ip =?s ip' then 1 else 0) ≤ ip_count (decrement_ip ip ips) ip'.
Proof.
  unfold decrement_ip, ip_count. destruct (String.eqb_spec ip ip') as [<-|Hne].
  - destruct (Z.leb_spec (default 0 (ips !! ip)) 1).
    + rewrite lookup_delete_eq. cbn. lia.
    + rewrite lookup_insert_eq. cbn. lia.
  - destruct (_ <=? _); [rewrite lookup_delete_ne|rewrite lookup_insert_ne]; by auto with lia.
Qed.

Lemma increment_ip_count ip ip' ips :
  ip_count (<[ip := default 0 (ips !! ip) + 1]> ips) ip'
  = ip_count ips ip' + (if ip =?s ip' then 1 else 0).
Proof.
  unfold ip_count. destruct (String.eqb_spec ip ip') as [<-|Hne].
  - by rewrite lookup_insert_eq.
  - rewrite lookup_insert_ne by done. lia.
Qed.

(** The books of a goroutine that changes the table: nothing is owed before,
    the change after. *)
Lemma counted_store s gs i g key sess g' :
  counted s gs → gs !! i = Some g → up_sessions s !! key = None →
  count_move _ (LoadOrStore key sess) None g = Some g' →
  counted (with_sessions s (<[key := sess]> (up_sessions s))) (<[i := g']> gs).
Proof.
  intros Hct Hg Hm. unfold count_move. destruct g as [rd room d]. destruct d; [|done..]. cbn.
  destruct rd; [|done]. destruct room; [|done]. cbn.
  destruct (String.eqb_spec key (addr_text (us_srcAddr sess))) as [E|]; [|done]. intros [= <-].
  pose proof (ct_room _ _ Hct _ _ Hg eq_refl) as Hroom.
  eapply counted_move; [done|done|..]; cbn; try done; rewrite ?map_size_insert_None by done; try lia.
  - intros k u. cbn. rewrite lookup_insert_Some. intros [[<- <-]|[_ ?]]; [done|by apply (ct_keyed _ _ Hct)].
  - intros ip Hip. rewrite ip_sessions_insert by done. unfold ip_of. cbn. destruct (_ =?s _)%string; lia.
Qed.

Lemma counted_delete s gs i g key sess g' :
  counted s gs → gs !! i = Some g → up_sessions s !! key = Some sess →
  count_move _ (LoadAndDelete key) (Some sess) g = Some g' →
  counted (with_sessions s (delete key (up_sessions s))) (<[i := g']> gs).
Proof.
  intros Hct Hg Hm. unfold count_move. destruct g as [rd room d]. destruct d; [|done..]. cbn.
  intros [= <-]. pose proof (ct_bound _ _ Hct).
  assert (Hsz : size (delete key (up_sessions s)) = Nat.pred (size (up_sessions s)))
    by (apply map_size_delete_Some; by eexists).
  assert (0 < size (up_sessions s))%nat.
  { destruct (size (up_sessions s)) eqn:E; [|lia]. apply map_size_empty_inv in E. by rewrite E, lookup_empty in Hm. }
  eapply counted_move; [done|done|..]; cbn; try done; rewrite ?Hsz; try lia.
  - intros k u. cbn. intros [_ ?]%lookup_delete_Some. by apply (ct_keyed _ _ Hct).
  - intros ip Hip. rewrite (ip_sessions_delete _ _ _ _ Hm). unfold ip_of. cbn. destruct (_ =?s _)%string; lia.
  - intros ->. destruct (ct_others _ _ Hct _ _ Hg eq_refl) as [_ E]. by rewrite <- E.
Qed.

(** Paying changes the counters. *)
Lemma counted_pay s gs i g n ips g' :
  counted s gs → gs !! i = Some g →
  n + count_of g' = sessionCount s + count_of g →
  (∀ ip, ip ≠ ""%string →
     ip_count (sessionIPs s) ip + ip_of ip g ≤ ip_count ips ip + ip_of ip g') →
  b_reader g' = b_reader g → b_room g' = b_room g → count_of g' = 0 →
  counted (with_counts s n ips) (<[i := g']> gs).
Proof.
  intros Hct Hg Hn Hi Hr Hm H0. eapply counted_move; [done|done|..]; cbn; auto.
  - apply (ct_keyed _ _ Hct).
  - lia.
  - apply Hct.
  - intros ip Hip. specialize (Hi ip Hip). lia.
  - intros E. destruct (ct_others _ _ Hct _ _ Hg E). split; [lia|congruence].
  - rewrite Hm. apply (ct_room _ _ Hct _ _ Hg).
Qed.

Lemma counted_exec B (e : udp_op B) c s b s' i g gs :
  counted s gs → gs !! i = Some g → udp_exec B e c s = Some (b, s') →
  udp_answer B e b ∧ ∀ g', count_move B e b g = Some g' → counted s' (<[i := g']> gs).
Proof.
  intros Hct Hg He. split; [by eapply udp_exec_answer; [apply Hct|]|].
  intros g' Hmove. destruct (changes_counts e) eqn:Hch.
  - destruct e; try done; cbn in He.
    + destruct (up_sessions s !! key) as [u|] eqn:Em; injection He as <- <-.
      * assert (g' = g) as ->; [|by rewrite list_insert_id].
        unfold count_move in Hmove. destruct (b_debt g); [|done..]. by injection Hmove.
      * by eapply counted_store.
    + injection He as <- <-. destruct (up_sessions s !! key) as [u|] eqn:Em.
      * by eapply counted_delete.
      * rewrite delete_id by done. assert (g' = g) as ->.
        { unfold count_move in Hmove. destruct (b_debt g); [|done..]. by injection Hmove. }
        rewrite list_insert_id by done. by destruct s.
    + injection He as <- <-. unfold count_move in Hmove. destruct g as [rd room d]. cbn in Hmove.
      destruct d as [|z' ip|z' ip]; [done| |done]. cbn in Hmove.
      destruct (Z.eqb_spec z z') as [<-|]; [|done]. injection Hmove as <-.
      eapply counted_pay; [done|done|..]; cbn; try done; unfold ip_of, count_of; cbn.
      * destruct (ip =?s ""); cbn; lia.
      * intros ip' Hip'. destruct (String.eqb_spec ip "") as [->|]; cbn.
        -- destruct ip'; [done|]. lia.
        -- destruct (ip =?s ip'); lia.
      * by destruct (ip =?s "").
    + injection He as <- <-. unfold count_move in Hmove. destruct g as [rd room d]. cbn in Hmove.
      destruct d as [|z' ip'|z' ip']; [done..|]. cbn in Hmove.
      destruct (Z.eqb_spec z' 1) as [->|]; [|done].
      destruct (String.eqb_spec ip ip') as [<-|]; [|done]. injection Hmove as <-.
      eapply counted_pay; [done|done|..]; cbn; try done. intros ip'' _.
      rewrite increment_ip_count. unfold ip_of. cbn. lia.
    + injection He as <- <-. unfold count_move in Hmove. destruct g as [rd room d]. cbn in Hmove.
      destruct d as [|z' ip'|z' ip']; [done..|]. cbn in Hmove.
      destruct (Z.eqb_spec z' (-1)) as [->|]; [|done].
      destruct (String.eqb_spec ip ip') as [<-|]; [|done]. injection Hmove as <-.
      eapply counted_pay; [done|done|..]; cbn; try done. intros ip'' _.
      pose proof (decrement_ip_count ip ip'' (sessionIPs s)). unfold ip_of. cbn.
      destruct (ip =?s ip''); lia.
  - pose proof (exec_reads_counts _ _ _ _ _ _ He Hch) as Hsame.
    assert (Hg' : g' = g ∨ ∃ n, b_debt g = Paid ∧ n = sessionCount s ∧
                  g' = with_debt g (b_reader g && (n <? MaxUDPSessions)) Paid).
    { unfold count_move in Hmove. destruct (b_debt g) eqn:Ed; [|by destruct e..].
      destruct e; try done; cbn in Hmove, He; simplify_eq; auto. right. eauto. }
    destruct Hg' as [->|(n & Hd & -> & ->)].
    + eapply counted_same; [done|done|done|done|done|..].
      * intros Hr. by apply (ct_others _ _ Hct _ _ Hg).
      * apply (ct_room _ _ Hct _ _ Hg).
    + eapply counted_same; [done|done|done|done|by rewrite Hd|..]; cbn.
      * by intros ->.
      * intros [Hr Hlt%Z.ltb_lt]%andb_true_iff.
        assert (total count_of gs ≤ count_of g) as Htot.
        { eapply total_le; [done|]. intros j h Hj Hne. destruct (b_reader h) eqn:E.
          - by rewrite (ct_reader _ _ Hct _ _ Hj E), (ct_reader _ _ Hct _ _ Hg Hr) in Hne.
          - by apply (ct_others _ _ Hct _ _ Hj). }
        pose proof (ct_count _ _ Hct). unfold count_of at 2 in Htot. rewrite Hd in Htot. lia.
Qed.

Lemma counted_hand t s i g g' gs :
  counted s gs → gs !! i = Some g → count_hand t g = Some g' →
  counted s (<[i := g']> gs ++ [count_begins t]).
Proof.
  intros Hct Hg Hh. unfold count_hand in Hh. destruct t as [| |sess|]; try done.
  destruct (b_debt g); [|done..]. injection Hh as <-. rewrite list_insert_id by done.
  destruct Hct as [Hk Hc Hb Hi Hr Ho Hm].
  assert (Hcase : ∀ j h, (gs ++ [count_begins (Reverse sess)]) !! j = Some h →
                         gs !! j = Some h ∨ h = count_begins (Reverse sess)).
  { intros j h [?|[_ Hj]]%lookup_app_Some; [by left|].
    apply list_lookup_singleton_Some in Hj as [_ <-]. by right. }
  split; [done| |done| | | |].
  - rewrite total_app. cbn. lia.
  - intros ip Hip. rewrite total_app. cbn. pose proof (Hi ip Hip). lia.
  - intros j h [Hj| ->]%Hcase; [by eapply Hr|done].
  - intros j h [Hj| ->]%Hcase; [by eapply Ho|done].
  - intros j h [Hj| ->]%Hcase; [by eapply Hm|done].
Qed.

Lemma counted_fresh n : counted fresh_state (count_begins <$> Reader :: Reaper :: replicate n Closer).
Proof.
  assert (Htot : ∀ f, f (count_begins Reader) = 0 → f (count_begins Reaper) = 0 →
    f (count_begins Closer) = 0 → total f (count_begins <$> Reader :: Reaper :: replicate n Closer) = 0).
  { intros f H1 H2 H3. apply total_zero. repeat (apply Forall_cons; split; [done|]).
    apply Forall_fmap, Forall_replicate. done. }
  assert (Hcase : ∀ j h, (count_begins <$> Reader :: Reaper :: replicate n Closer) !! j = Some h →
    (j = 0%nat ∧ h = count_begins Reader) ∨
    h = {| b_reader := false; b_room := false; b_debt := Paid |}).
  { intros [|[|j]] h Hj; [injection Hj as <-; by left|injection Hj as <-; by right|].
    change ((count_begins <$> replicate n Closer) !! j = Some h) in Hj.
    apply list_lookup_fmap_Some in Hj as (t & -> & Ht).
    apply lookup_replicate in Ht as [-> _]. by right. }
  split; cbn [fresh_state up_sessions sessionCount sessionIPs].
  - intros key sess H. by destruct (lookup_empty_Some (M := gmap string) key sess).
  - by rewrite Htot.
  - done.
  - intros ip _. by rewrite Htot.
  - intros j h [[-> ->]| ->]%Hcase; done.
  - intros j h [[-> ->]| ->]%Hcase; done.
  - intros j h [[-> ->]| ->]%Hcase; done.
Qed.

(** ** The property *)

(** The goroutine is about to adjust a counter for a change of the table. *)
Definition pays {B} (e : udp_op B) : bool :=
  match e with CountAdd _ | IPIncrement _ | IPDecrement _ => true | _ => false end.
Definition adjusting (x : goroutine udp_op udp_goroutine) : bool :=
  match x.2 with Some (Do e _) => pays e | _ => false end.

Lemma answer_exists B (e : udp_op B) : ∃ b, udp_answer B e b.
Proof.
  destruct e; cbn; try (by exists true); try (by exists tt); try (by exists 0); try (by exists None).
  - by exists [].
  - by exists {| us_id := 0; us_srcAddr := a; us_ipKey := ipKey |}.
Qed.

Lemma not_adjusting_paid x g :
  goroutine_follows udp_answer count_move count_hand count_rests x g → adjusting x = false → paid g.
Proof.
  destruct x as [t [[a|B e k|t' k]|]]; unfold goroutine_follows, adjusting; cbn.
  - by intros [? _].
  - intros H Hp. destruct (answer_exists _ e) as [b Hb]. destruct (H b Hb) as (g' & Hm & _).
    unfold count_move in Hm. unfold paid. destruct (b_debt g); [done|by destruct e..].
  - intros (g' & Hh & _) _. unfold count_hand in Hh. unfold paid. by destruct t', (b_debt g).
  - by intros [? _].
Qed.

Lemma reachable_counted cidrs n s pool :
  udp_reachable cidrs n (s, pool) →
  keyed s ∧ Z.of_nat (size (up_sessions s)) ≤ MaxUDPSessions ∧
  (Forall (λ x, adjusting x = false) pool →
     sessionCount s = Z.of_nat (size (up_sessions s)) ∧
     ∀ ip, ip ≠ ""%string → ip_sessions ip (up_sessions s) ≤ ip_count (sessionIPs s) ip).
Proof.
  intros [sched Hrun].
  assert (Hd : disciplined udp_answer count_move count_hand count_rests counted (s, pool)).
  { eapply (run_disciplined udp_exec (udp_body cidrs) udp_answer count_move count_hand count_begins);
      [| | | | |exact Hrun].
    - intros []; split; done.
    - intros t g. apply bodies_count.
    - intros. by eapply counted_exec.
    - intros. by eapply counted_hand.
    - apply (start_disciplined) with (begins := count_begins); [| |apply counted_fresh]; [intros []; split; done|].
      intros t g. apply bodies_count. }
  destruct Hd as (gs & Hf & Hct). cbn in Hf, Hct.
  split_and!; [apply Hct|apply Hct|]. intros Hset.
  assert (Hpaid : ∀ i g, gs !! i = Some g → paid g).
  { intros i g Hi. destruct (Forall2_lookup_r _ _ _ _ _ Hf Hi) as (x & Hx & Hg).
    eapply not_adjusting_paid; [exact Hg|]. by eapply (Forall_lookup_1 _ _ _ _ Hset). }
  assert (Htot : ∀ f : book → Z, (∀ g, paid g → f g = 0) → total f gs = 0).
  { intros f Hz. apply total_zero, Forall_lookup. intros i g Hi. by eapply Hz, Hpaid. }
  pose proof (ct_count _ _ Hct) as Hc. rewrite Htot in Hc.
  - split; [lia|]. intros ip Hip. pose proof (ct_ips _ _ Hct ip Hip) as Hi. rewrite Htot in Hi; [lia|].
    intros g Hg. unfold ip_of. by rewrite Hg.
  - intros g Hg. unfold count_of. by rewrite Hg.
Qed.

(** C12: however the reader, the reaper, the goroutines of the sessions and
    calls of [Close] interleave, the table holds at most [MaxUDPSessions]
    sessions, each under its own address.  Whenever no goroutine is in the
    middle of an update, [sessionCount] is the number of sessions, and the
    count kept for a source IP is at least the number of its sessions, so the
    limits are never exceeded. *)
Theorem udp_sessions_counted cidrs n s pool :
  udp_reachable cidrs n (s, pool) →
  keyed s ∧ Z.of_nat (size (up_sessions s)) ≤ MaxUDPSessions ∧
  (Forall (λ x, adjusting x = false) pool →
     sessionCount s = Z.of_nat (size (up_sessions s)) ∧
     ∀ ip, ip ≠ ""%string → ip_sessions ip (up_sessions s) ≤ ip_count (sessionIPs s) ip).
Proof. apply reachable_counted. Qed.

(** After the sample exchange there is one session, and it is counted. *)
Lemma udp_sessions_counted_witness :
  udp_reachable sample_cidrs 0 (udp_end 0 (sample_arrival ++ sample_exchange)) ∧
  sessionCount (udp_end 0 (sample_arrival ++ sample_exchange)).1 = 1 ∧
  1 ≤ ip_count (sessionIPs (udp_end 0 (sample_arrival ++ sample_exchange)).1) "203.0.113.9".
Proof.
  assert (Hr : udp_reachable sample_cidrs 0 (udp_end 0 (sample_arrival ++ sample_exchange)))
    by (apply udp_end_reachable, udp_ran_ok, sample_arrival_runs).
  split; [exact Hr|]. rewrite (surjective_pairing (udp_end 0 _)) in Hr.
  destruct (udp_sessions_counted sample_cidrs 0 _ _ Hr) as (_ & _ & Hc).
  destruct Hc as [Hn Hi]; [apply (bool_decide_unpack _); vm_compute; exact I|].
  specialize (Hi "203.0.113.9"%string ltac:(done)).
  rewrite Hn. split; [vm_compute; reflexivity|]. etransitivity; [|exact Hi]. vm_compute. discriminate.
Defined.
