(* ===== verification/UDPCleanup.v ===== *)
(** What is left of a UDP proxy when its goroutines have returned: nothing.

    A goroutine that opens a stream is bound to close it or to hand it, with
    its session, to the goroutine of the session, which closes the session and
    takes it out of the table before it returns. *)
From Stdlib Require Import ZArith Lia Ascii String.
From stdpp Require Import base tactics numbers list gmap strings.
From S2P Require Import Prelude GoStrings GoIO GoNet IngressPolicy UDPFrames Goroutines UDPSessions UDPSamples UDPCounts.

(** ** The discipline *)

Inductive duty :=
| Idle
| Opened (stream : nat)
| Created (sess : UDPSession) (stream : nat)
| Stored (sess : UDPSession)
| Closed (sess : UDPSession).

Definition duty_move (B : Type) (e : udp_op B) (b : B) (d : duty) : option duty :=
  match e in udp_op B return B → option duty with
  | OpenStream => λ stream,
      match stream, d with
      | None, _ => Some d
      | Some stream, Idle => Some (Opened stream)
      | _, _ => None
      end
  | NewSession _ _ stream => λ sess,
      match d with
      | Opened stream' => if decide (stream = stream') then Some (Created sess stream) else None
      | _ => None
      end
  | LoadOrStore key sess => λ actual,
      match d with
      | Created sess' stream =>
          if decide (sess = sess' ∧ key = addr_text (us_srcAddr sess)) then
            Some (match actual with None => Stored sess | Some _ => Opened stream end)
          else None
      | _ => None
      end
  | StreamClose stream => λ _,
      match d with
      | Opened stream' => if decide (stream = stream') then Some Idle else None
      | _ => None
      end
  | SessionClose sess => λ _,
      match d with
      | Stored sess' => Some (if decide (sess = sess') then Closed sess else d)
      | _ => Some d
      end
  | LoadAndDelete key => λ _,
      match d with
      | Closed sess => Some (if decide (key = addr_text (us_srcAddr sess)) then Idle else d)
      | _ => Some d
      end
  | _ => λ _, Some d
  end b.

Definition duty_hand (t : udp_goroutine) (d : duty) : option duty :=
  match t, d with
  | Reverse sess, Stored sess' => if decide (sess = sess') then Some Idle else None
  | _, _ => None
  end.

Definition duty_begins (t : udp_goroutine) : duty :=
  match t with Reverse sess => Stored sess | _ => Idle end.

Definition duty_rests (t : udp_goroutine) (again : bool) (d : duty) : Prop :=
  d = if again then duty_begins t else Idle.

Abbreviation duties p d Q := (follows udp_answer duty_move duty_hand p d Q).
Abbreviation idles p := (stays udp_answer duty_move duty_hand (λ d, d = Idle) p).

Lemma idles_plain B (e : udp_op B) : plain e = true → idles (act e).
Proof. intros He. apply stays_op. intros b d ->. by destruct e. Qed.

Lemma idles_removeSession key : idles (removeSession key).
Proof.
  apply stays_seq; [apply stays_op; by intros b d ->|]. intros [sess|]; [|apply stays_ret].
  apply stays_seq; [apply stays_op; by intros b d ->|]. intros _.
  destruct (us_ipKey sess =?s ""); [apply stays_ret|].
  apply stays_seq; [apply stays_op; by intros b d ->|]. intros _. apply stays_ret.
Qed.

#[local] Hint Resolve idles_plain idles_removeSession : core.
#[local] Ltac idle_op := apply stays_op; by intros ? ? ->.

Lemma idles_storeSession sess stream (Q : UDPSession * bool → duty → Prop) :
  (Q (sess, true) (Stored sess)) → (∀ actual, Q (actual, false) (Opened stream)) →
  duties (storeSession (addr_text (us_srcAddr sess)) sess) (Created sess stream) Q.
Proof.
  intros Hyes Hno. apply follows_op_seq. intros actual _. cbn [duty_move].
  rewrite decide_True by done. eexists. split; [reflexivity|].
  destruct actual as [actual|]; [apply Hno|].
  apply follows_op_seq. intros [] _. eexists. split; [reflexivity|].
  destruct (us_ipKey sess =?s ""); [done|].
  apply follows_op_seq. intros [] _. eexists. split; [reflexivity|]. done.
Qed.

Lemma idles_lookup_session srcAddr : idles (lookup_session srcAddr).
Proof.
  apply stays_seq; [idle_op|]. intros [sess|]; [apply stays_ret|].
  apply stays_seq.
  { apply stays_seq; [idle_op|]. intros count. destruct (_ <=? _); [|apply stays_ret].
    apply stays_seq; [apply stays_removeOldestSession; auto|]. intros [|]; [|apply stays_ret].
    apply stays_seq; [idle_op|]. intros n. apply stays_ret. }
  intros [|]; [|apply stays_ret]. cbn [negb].
  apply stays_seq.
  { apply stays_seq; [idle_op|]. intros count. destruct (_ <=? _); [apply stays_ret|].
    apply stays_seq; [|intros n; apply stays_ret]. unfold sessionCountForIP.
    destruct (_ =?s _); [apply stays_ret|idle_op]. }
  intros [|]; [|apply stays_ret]. cbn [negb].
  intros d Q -> HQ. apply follows_op_seq. intros stream _. destruct stream as [stream|].
  2:{ eexists. split; [reflexivity|]. apply follows_seq.
      apply (stays_runtime_error duty_move duty_hand (λ d, d = Idle)); [by auto..|done|].
      intros _. apply HQ. }
  eexists. split; [reflexivity|].
  apply follows_op_seq. intros sess (<- & _). cbn [duty_move]. rewrite decide_True by done.
  eexists. split; [reflexivity|].
  apply follows_op_seq. intros [] _. eexists. split; [reflexivity|].
  apply follows_seq, idles_storeSession; [|intros actual].
  - cbn. rewrite decide_True by done. eexists. split; [reflexivity|]. apply HQ.
  - apply follows_op_seq. intros [] _. cbn [duty_move]. rewrite decide_True by done.
    eexists. split; [reflexivity|]. apply HQ.
Qed.

Lemma idles_udpReadLoop cidrs : idles (udpReadLoop cidrs).
Proof.
  apply stays_seq; [idle_op|]. intros [|]; [apply stays_ret|].
  apply stays_seq; [idle_op|]. intros [[srcAddr p]|].
  - destruct (negb _); [apply stays_ret|].
    apply stays_seq; [apply idles_lookup_session|]. intros [sess| |]; [|apply stays_ret..].
    apply stays_seq; [|intros _; apply stays_ret].
    apply stays_seq; [idle_op|]. intros _. apply stays_seq; [idle_op|].
    intros [|]; [idle_op|apply stays_close_one; auto].
  - apply stays_seq; [idle_op|]. intros [|]; [apply stays_ret|].
    apply stays_seq; [apply stays_runtime_error; auto|]. intros _. apply stays_ret.
Qed.

(** The goroutine of a session discharges its duty by returning. *)
Lemma duty_reverse_return sess (Q : bool → duty → Prop) :
  Q false Idle → duties (reverse_return sess) (Stored sess) Q.
Proof.
  intros HQ. apply follows_op_seq. intros [] _. cbn [duty_move]. rewrite decide_True by done.
  eexists. split; [reflexivity|].
  apply follows_seq, follows_op_seq. intros loaded _. cbn [duty_move]. rewrite decide_True by done.
  eexists. split; [reflexivity|].
  destruct loaded as [sess'|]; [|done].
  apply follows_op_seq. intros [] _. eexists. split; [reflexivity|].
  destruct (us_ipKey sess' =?s ""); [done|].
  apply follows_op_seq. intros [] _. eexists. split; [reflexivity|]. done.
Qed.

Lemma duty_udpSessionReverse sess :
  duties (udpSessionReverse sess) (Stored sess) (duty_rests (Reverse sess)).
Proof.
  assert (Hret : duties (reverse_return sess) (Stored sess) (duty_rests (Reverse sess)))
    by by apply duty_reverse_return.
  apply follows_op_seq. intros [|] _; (eexists; split; [reflexivity|]); [done|].
  apply follows_op_seq. intros [|] _; (eexists; split; [reflexivity|]); [done|].
  apply follows_op_seq. intros [payload|] _; (eexists; split; [reflexivity|]); [|done].
  apply follows_op_seq. intros [] _. eexists; split; [reflexivity|].
  apply follows_op_seq. intros [|] _; (eexists; split; [reflexivity|]); [|done].
  apply follows_op_seq. intros [] _. eexists; split; [reflexivity|]. done.
Qed.

Lemma bodies_duty cidrs t d : duty_rests t true d → duties (udp_body cidrs t) d (duty_rests t).
Proof.
  intros ->. destruct t as [| |sess|]; cbn [udp_body duty_begins].
  - apply idles_udpReadLoop; [done|]. by intros [].
  - apply (stays_udpReaper duty_move duty_hand (λ d, d = Idle)); [by auto..|done|]. by intros [].
  - apply duty_udpSessionReverse.
  - apply follows_seq, (stays_Close duty_move duty_hand (λ d, d = Idle)); [by auto..|done|]. done.
Qed.

(** ** The invariant *)

(** The stream of a session. *)
Definition session_stream (s : UDPProxyState) (sess : UDPSession) : option nat :=
  sf_stream <$> up_fields s !! us_id sess.

(** The duty covers the stream; the duty covers the session. *)
Definition covers_stream (s : UDPProxyState) (d : duty) (stream : nat) : Prop :=
  match d with
  | Opened stream' | Created _ stream' => stream' = stream
  | Stored sess => session_stream s sess = Some stream
  | _ => False
  end.
Definition covers_session (d : duty) (sess : UDPSession) : Prop := d = Stored sess ∨ d = Closed sess.

Record looked_after (s : UDPProxyState) (ds : list duty) : Prop := {
  la_keyed : keyed s;
  la_streams : ∀ stream, up_streams s !! stream = Some false →
    ∃ i d, ds !! i = Some d ∧ covers_stream s d stream;
  la_sessions : ∀ key sess, up_sessions s !! key = Some sess →
    ∃ i d, ds !! i = Some d ∧ covers_session d sess;
  la_done : ∀ id f, up_fields s !! id = Some f → sf_done f = true →
    up_streams s !! sf_stream f ≠ Some false;
  la_valid : ∀ id f, up_fields s !! id = Some f → (sf_stream f < length (up_streams s))%nat;
  la_opened : ∀ i stream, ds !! i = Some (Opened stream) → (stream < length (up_streams s))%nat;
  la_created : ∀ i sess stream, ds !! i = Some (Created sess stream) →
    session_stream s sess = Some stream;
}.

(** A step of goroutine [i] from duty [d] to [d']. *)
Lemma looked_after_move s s' ds i d d' :
  looked_after s ds → ds !! i = Some d → keyed s' →
  (∀ sess stream, session_stream s sess = Some stream → session_stream s' sess = Some stream) →
  (∀ stream, up_streams s' !! stream = Some false →
     covers_stream s' d' stream ∨
     (up_streams s !! stream = Some false ∧ (covers_stream s d stream → covers_stream s' d' stream))) →
  (∀ key sess, up_sessions s' !! key = Some sess →
     covers_session d' sess ∨
     (up_sessions s !! key = Some sess ∧ (covers_session d sess → covers_session d' sess))) →
  (∀ id f, up_fields s' !! id = Some f → sf_done f = true → up_streams s' !! sf_stream f ≠ Some false) →
  (∀ id f, up_fields s' !! id = Some f → (sf_stream f < length (up_streams s'))%nat) →
  (length (up_streams s) ≤ length (up_streams s'))%nat →
  (∀ stream, d' = Opened stream → (stream < length (up_streams s'))%nat) →
  (∀ sess stream, d' = Created sess stream → session_stream s' sess = Some stream) →
  looked_after s' (<[i := d']> ds).
Proof.
  intros [Hk Hs Ht Hd Hv Ho Hc] Hi Hk' Hext Hs' Ht' Hd' Hv' Hlen' Ho' Hc'.
  assert (Hlen : (i < length ds)%nat) by by eapply lookup_lt_Some.
  assert (Hin : <[i := d']> ds !! i = Some d') by by apply list_lookup_insert_eq.
  split; [done| | |done|done| |].
  - intros stream [?|[Hopen Hdd]]%Hs'; [by exists i, d'|].
    destruct (Hs _ Hopen) as (j & z & Hj & Hz). destruct (decide (i = j)) as [<-|Hne].
    + simplify_eq. exists i, d'. auto.
    + exists j, z. rewrite list_lookup_insert_ne by done. split; [done|]. destruct z; cbn in *; auto.
  - intros key sess [?|[Hin' Hdd]]%Ht'; [by exists i, d'|].
    destruct (Ht _ _ Hin') as (j & z & Hj & Hz). destruct (decide (i = j)) as [<-|Hne].
    + simplify_eq. exists i, d'. auto.
    + exists j, z. by rewrite list_lookup_insert_ne.
  - intros j stream. destruct (decide (i = j)) as [<-|Hne].
    + rewrite Hin. intros [= ->]. auto.
    + rewrite list_lookup_insert_ne by done. intros Hj. pose proof (Ho _ _ Hj). lia.
  - intros j sess stream. destruct (decide (i = j)) as [<-|Hne].
    + rewrite Hin. intros [= ->]. auto.
    + rewrite list_lookup_insert_ne by done. intros Hj. by eapply Hext, Hc.
Qed.

(** Operations that concern neither the table nor the sessions nor the streams. *)
Definition same_objects (s s' : UDPProxyState) : Prop :=
  up_sessions s' = up_sessions s ∧ up_fields s' = up_fields s ∧ up_streams s' = up_streams s.

Definition changes_objects {B} (e : udp_op B) : bool :=
  match e with
  | LoadOrStore _ _ | LoadAndDelete _ | OpenStream | NewSession _ _ _ | StreamClose _ | Touch _
  | SessionClose _ => true
  | _ => false
  end.

Lemma exec_same_objects B (e : udp_op B) c s b s' d :
  udp_exec B e c s = Some (b, s') → changes_objects e = false →
  same_objects s s' ∧ duty_move B e b d = Some d.
Proof.
  intros He Hc. destruct e; try done; cbn in He; repeat case_match; simplify_eq/=; done.
Qed.

Lemma looked_after_same s s' ds : looked_after s ds → same_objects s s' → looked_after s' ds.
Proof.
  intros [Hk Hs Ht Hd Hv Ho Hc] (Em & Ef & Es).
  assert (Hss : ∀ sess, session_stream s' sess = session_stream s sess)
    by (intros sess; unfold session_stream; by rewrite Ef).
  split.
  - intros key sess. rewrite Em. apply Hk.
  - intros stream. rewrite Es. intros (i & d & Hi & Hd')%Hs. exists i, d. split; [done|].
    destruct d; cbn in *; rewrite ?Hss; done.
  - intros key sess. rewrite Em. apply Ht.
  - intros id f. rewrite Ef, Es. apply Hd.
  - intros id f. rewrite Ef, Es. apply Hv.
  - intros i stream. rewrite Es. apply Ho.
  - intros i sess stream Hi. rewrite Hss. by eapply Hc.
Qed.

Lemma duty_created B (e : udp_op B) b d sess stream :
  duty_move B e b d = Some (Created sess stream) →
  match e with NewSession _ _ _ => True | _ => d = Created sess stream end.
Proof.
  destruct e; try done; cbn; intros H; repeat (case_match || case_decide); simplify_eq/=; try done.
Qed.

Lemma duty_opened B (e : udp_op B) b d stream :
  duty_move B e b d = Some (Opened stream) →
  match e with
  | OpenStream => True
  | LoadOrStore _ _ => d = Opened stream ∨ ∃ sess, d = Created sess stream
  | _ => d = Opened stream
  end.
Proof.
  destruct e; try done; cbn; intros H; repeat (case_match || case_decide); simplify_eq/=; eauto.
Qed.

Lemma with_objects_id s : with_objects s (up_fields s) (up_streams s) = s.
Proof. by destruct s. Qed.

Lemma la_LoadOrStore s ds i d key sess b s' c d' :
  looked_after s ds → ds !! i = Some d → udp_exec _ (LoadOrStore key sess) c s = Some (b, s') →
  duty_move _ (LoadOrStore key sess) b d = Some d' → looked_after s' (<[i := d']> ds).
Proof.
  intros Hla Hi He Hm. cbn in He, Hm. destruct d as [|?|sess' stream|?|?]; try done.
  case_decide as Hdec; [|done]. destruct Hdec as [<- ->].
  pose proof (la_created _ _ Hla _ _ _ Hi) as Hst.
  destruct (up_sessions s !! _) as [actual|] eqn:Em; injection He as <- <-; injection Hm as <-.
  - eapply looked_after_move; [done|done|apply Hla|done| | |apply Hla|apply Hla|done| |done].
    + intros st Ho. right. split; [done|]. done.
    + intros k u Hk. right. split; [done|]. by intros [|].
    + intros st [= <-]. unfold session_stream in Hst. apply fmap_Some in Hst as (f & Hf & ->).
      by apply (la_valid _ _ Hla _ _ Hf).
  - eapply looked_after_move; [done|done| |done| | |apply Hla|apply Hla|done|done|done].
    + intros k u. cbn. intros [[<- <-]|[_ Hk]]%lookup_insert_Some; [done|]. by apply (la_keyed _ _ Hla).
    + intros st Ho. right. split; [done|]. cbn. by intros <-.
    + intros k u. cbn. intros [[<- <-]|[_ Hk]]%lookup_insert_Some; [left; by left|right].
      split; [done|]. by intros [|].
Qed.

Lemma la_LoadAndDelete s ds i d key b s' c d' :
  looked_after s ds → ds !! i = Some d → udp_exec _ (LoadAndDelete key) c s = Some (b, s') →
  duty_move _ (LoadAndDelete key) b d = Some d' → looked_after s' (<[i := d']> ds).
Proof.
  intros Hla Hi He Hm.
  cbn in He. injection He as <- <-.
  eapply looked_after_move; [done|done| |done| | |apply Hla|apply Hla|done| |].
  - intros k u. cbn. intros [_ Hk]%lookup_delete_Some. by apply (la_keyed _ _ Hla).
  - intros st Ho. right. split; [done|]. cbn in Hm. destruct d; try case_decide; injection Hm as <-; done.
  - intros k u. cbn. intros [Hne Hk]%lookup_delete_Some. right. split; [done|].
    pose proof (la_keyed _ _ Hla _ _ Hk) as Hku. cbn in Hm.
    destruct d as [| | | |sess]; try (injection Hm as <-; done).
    case_decide as Hdec; injection Hm as <-; [|done]. intros [?|[= ->]]; congruence.
  - intros st ->. rewrite (duty_opened _ _ _ _ _ Hm) in Hi. exact (la_opened _ _ Hla _ _ Hi).
  - intros sess st ->. rewrite (duty_created _ _ _ _ _ _ Hm) in Hi. exact (la_created _ _ Hla _ _ _ Hi).
Qed.

Lemma la_OpenStream s ds i d b s' c d' :
  looked_after s ds → ds !! i = Some d → udp_exec _ OpenStream c s = Some (b, s') →
  duty_move _ OpenStream b d = Some d' → looked_after s' (<[i := d']> ds).
Proof.
  intros Hla Hi He Hm. cbn in He, Hm. destruct c as [|[|]| | | |]; try done; simplify_eq/=.
  - destruct d; try done. injection Hm as <-.
    eapply looked_after_move; [done|done|apply Hla|done| | | | | | |done]; cbn; rewrite ?length_app; cbn.
    + intros st [Ho|[Hge Ho]]%lookup_app_Some; [right; by split|left].
      apply list_lookup_singleton_Some in Ho as [Ho _]. lia.
    + intros k u Hk. right. split; [done|]. by intros [|].
    + intros id f Hf Hdn. rewrite lookup_app_l by by eapply la_valid.
      by apply (la_done _ _ Hla _ _ Hf Hdn).
    + intros id f Hf. pose proof (la_valid _ _ Hla _ _ Hf). lia.
    + lia.
    + intros st [= <-]. lia.
  - by rewrite list_insert_id.
Qed.

Lemma la_NewSession s ds i d a ipKey stream b s' c d' :
  looked_after s ds → ds !! i = Some d → udp_exec _ (NewSession a ipKey stream) c s = Some (b, s') →
  duty_move _ (NewSession a ipKey stream) b d = Some d' → looked_after s' (<[i := d']> ds).
Proof.
  intros Hla Hi He Hm. cbn in He, Hm. injection He as <- <-. destruct d as [|st| | |]; try done.
  case_decide as Hdec; [|done]. subst st. injection Hm as <-.
  assert (Hcase : ∀ id f, (up_fields s ++ [{| sf_stream := stream; sf_done := false; sf_lastActive := 0 |}])
      !! id = Some f → up_fields s !! id = Some f ∨ (sf_stream f = stream ∧ sf_done f = false)).
  { intros id f [?|[_ Hf]]%lookup_app_Some; [by left|].
    apply list_lookup_singleton_Some in Hf as [_ <-]. by right. }
  eapply looked_after_move; [done|done|apply Hla| | | | | |done|done|]; cbn.
  - intros u st Hu. unfold session_stream in *. cbn. apply fmap_Some in Hu as (f & Hf & ->).
    by rewrite (lookup_app_l_Some _ _ _ _ Hf).
  - intros st Ho. right. by split.
  - intros k u Hk. right. split; [done|]. by intros [|].
  - intros id f [Hf|[_ ->]]%Hcase Hdn; [|done]. by apply (la_done _ _ Hla _ _ Hf Hdn).
  - intros id f [Hf|[-> _]]%Hcase; [by apply (la_valid _ _ Hla _ _ Hf)|by eapply la_opened].
  - intros u st [= <- <-]. unfold session_stream. cbn.
    by rewrite lookup_app_r, Nat.sub_diag by done.
Qed.

Lemma la_StreamClose s ds i d stream b s' c d' :
  looked_after s ds → ds !! i = Some d → udp_exec _ (StreamClose stream) c s = Some (b, s') →
  duty_move _ (StreamClose stream) b d = Some d' → looked_after s' (<[i := d']> ds).
Proof.
  intros Hla Hi He Hm. cbn in He, Hm. injection He as <- <-. destruct d as [|st| | |]; try done.
  case_decide as Hdec; [|done]. subst st. injection Hm as <-.
  eapply looked_after_move; [done|done|apply Hla|done| | | | | |done|done]; cbn; rewrite ?length_insert.
  - intros st. intros [[<- [? _]]|[Hne Ho]]%list_lookup_insert_Some; [done|]. right. split; [done|].
    congruence.
  - intros k u Hk. right. split; [done|]. by intros [|].
  - intros id f Hf Hdn. intros [[_ [? _]]|[_ Ho]]%list_lookup_insert_Some; [done|].
    by apply (la_done _ _ Hla _ _ Hf Hdn).
  - apply Hla.
  - done.
Qed.

(** An update of the object of a session that keeps its stream, and possibly
    closes it. *)
Lemma la_object s ds i d d' id f g streams :
  looked_after s ds → ds !! i = Some d → up_fields s !! id = Some f → sf_stream g = sf_stream f →
  length streams = length (up_streams s) →
  (∀ st, streams !! st = Some false → up_streams s !! st = Some false) →
  (sf_done g = true → streams !! sf_stream f ≠ Some false) →
  d' = d ∨ (∃ sess, d = Stored sess ∧ d' = Closed sess ∧ us_id sess = id ∧
                    streams !! sf_stream f ≠ Some false) →
  looked_after (with_objects s (<[id := g]> (up_fields s)) streams) (<[i := d']> ds).
Proof.
  intros Hla Hi Hf Hg Hlen Hopen Hdone Hd.
  assert (Hext : ∀ u st, session_stream s u = Some st →
    session_stream (with_objects s (<[id := g]> (up_fields s)) streams) u = Some st).
  { intros u st Hu. unfold session_stream in *. cbn. destruct (decide (id = us_id u)) as [->|Hne].
    - rewrite list_lookup_insert_eq by by eapply lookup_lt_Some. cbn. rewrite Hf in Hu. by rewrite Hg.
    - by rewrite list_lookup_insert_ne. }
  eapply looked_after_move; [done|done|apply Hla|done| | | | | | |]; cbn; rewrite ?Hlen.
  - intros st Ho. right. split; [by apply Hopen|]. intros Hc. destruct Hd as [->|(u & -> & -> & <- & Hcl)].
    + destruct d; cbn in *; auto.
    + cbn in Hc. unfold session_stream in Hc. rewrite Hf in Hc. cbn in Hc. congruence.
  - intros k u Hk. right. split; [done|]. destruct Hd as [->|(v & -> & -> & _)]; [done|].
    intros [E|E]; [|done]. injection E as ->. by right.
  - intros j h Hj Hdn. apply list_lookup_insert_Some in Hj as [(<- & <- & _)|[_ Hj]].
    + rewrite Hg. by apply Hdone.
    + intros Ho%Hopen. by apply (la_done _ _ Hla _ _ Hj Hdn).
  - intros j h [(<- & <- & _)|[_ Hj]]%list_lookup_insert_Some; [rewrite Hg|];
      by eapply (la_valid _ _ Hla).
  - done.
  - intros st E. destruct Hd as [->|(v & _ & -> & _)]; [|done]. subst d. by apply (la_opened _ _ Hla _ _ Hi).
  - intros u st E. destruct Hd as [->|(v & _ & -> & _)]; [|done]. subst d.
    apply Hext. by apply (la_created _ _ Hla _ _ _ Hi).
Qed.

Lemma la_Touch s ds i d sess b s' c d' :
  looked_after s ds → ds !! i = Some d → udp_exec _ (Touch sess) c s = Some (b, s') →
  duty_move _ (Touch sess) b d = Some d' → looked_after s' (<[i := d']> ds).
Proof.
  intros Hla Hi He Hm. cbn in He, Hm. injection Hm as <-.
  destruct c as [| |now| | |]; try done. injection He as <- <-. unfold touch_session.
  destruct (up_fields s !! us_id sess) as [f|] eqn:Ef; [|by rewrite list_insert_id].
  apply (la_object _ _ _ d _ _ f); try done; [|by left]. apply (la_done _ _ Hla _ _ Ef).
Qed.

Lemma la_SessionClose s ds i d sess b s' c d' :
  looked_after s ds → ds !! i = Some d → udp_exec _ (SessionClose sess) c s = Some (b, s') →
  duty_move _ (SessionClose sess) b d = Some d' → looked_after s' (<[i := d']> ds).
Proof.
  intros Hla Hi He Hm. cbn in He. injection He as <- <-.
  assert (Hd : d' = d ∨ (d = Stored sess ∧ d' = Closed sess)).
  { cbn in Hm. destruct d; try case_decide; simplify_eq; auto. }
  unfold close_session. destruct (up_fields s !! us_id sess) as [f|] eqn:Ef.
  - assert (Hd' : ∀ streams : list bool, streams !! sf_stream f ≠ Some false →
      d' = d ∨ (∃ u, d = Stored u ∧ d' = Closed u ∧ us_id u = us_id sess ∧
                     streams !! sf_stream f ≠ Some false))
      by (intros streams ?; destruct Hd as [->|[-> ->]]; [by left|right; by exists sess]).
    destruct (sf_done f) eqn:Edn.
    + rewrite <- (with_objects_id s), <- (list_insert_id (up_fields s) (us_id sess) f Ef).
      apply (la_object _ _ _ d _ _ f); try done; [|apply Hd']; intros; by apply (la_done _ _ Hla _ _ Ef).
    + assert (Hcl : <[sf_stream f := true]> (up_streams s) !! sf_stream f ≠ Some false).
      { rewrite list_lookup_insert_eq by by eapply la_valid. done. }
      apply (la_object _ _ _ d _ _ f); try done; [by rewrite length_insert| |by apply Hd'].
      intros st. rewrite list_lookup_insert_Some. by intros [(_ & ? & _)|[_ ?]].
  - destruct Hd as [->|[-> ->]]; [by rewrite list_insert_id|].
    eapply looked_after_move; [done|done|apply Hla|done| | |apply Hla|apply Hla|done|done|done].
    + intros st Ho. right. split; [done|]. cbn. unfold session_stream. by rewrite Ef.
    + intros k u Hk. right. split; [done|]. intros [E|E]; [|done]. injection E as ->. by right.
Qed.

Lemma looked_after_exec B (e : udp_op B) c s b s' i d ds :
  looked_after s ds → ds !! i = Some d → udp_exec B e c s = Some (b, s') →
  udp_answer B e b ∧ ∀ d', duty_move B e b d = Some d' → looked_after s' (<[i := d']> ds).
Proof.
  intros Hla Hi He. split; [by eapply udp_exec_answer; [apply Hla|]|]. intros d' Hm.
  destruct (changes_objects e) eqn:Hch.
  - destruct e; try done; by eauto using la_LoadOrStore, la_LoadAndDelete, la_OpenStream, la_NewSession,
      la_StreamClose, la_Touch, la_SessionClose.
  - destruct (exec_same_objects _ _ _ _ _ _ d He Hch) as [Hs Hd]. rewrite Hd in Hm. injection Hm as <-.
    rewrite list_insert_id by done. by eapply looked_after_same.
Qed.

Lemma looked_after_hand t s i d d' ds :
  looked_after s ds → ds !! i = Some d → duty_hand t d = Some d' →
  looked_after s (<[i := d']> ds ++ [duty_begins t]).
Proof.
  intros Hla Hi Hh. unfold duty_hand in Hh. destruct t as [| |sess|]; try done.
  destruct d as [| | |sess'|]; try done. case_decide as Hdec; [subst sess'|done]. injection Hh as <-.
  destruct Hla as [Hk Hs Ht Hd Hv Ho Hc].
  assert (Hnew : (<[i := Idle]> ds ++ [duty_begins (Reverse sess)]) !! length ds = Some (Stored sess)).
  { rewrite lookup_app_r by by rewrite length_insert. by rewrite length_insert, Nat.sub_diag. }
  assert (Hold : ∀ j z, ds !! j = Some z → z = Stored sess ∨
    (<[i := Idle]> ds ++ [duty_begins (Reverse sess)]) !! j = Some z).
  { intros j z Hj. destruct (decide (i = j)) as [<-|Hne]; [left; congruence|right].
    rewrite lookup_app_l by (rewrite length_insert; by eapply lookup_lt_Some).
    by rewrite list_lookup_insert_ne. }
  assert (Hback : ∀ j z, (<[i := Idle]> ds ++ [duty_begins (Reverse sess)]) !! j = Some z →
    ds !! j = Some z ∨ z = Idle ∨ z = Stored sess).
  { intros j z [Hj|[_ Hj]]%lookup_app_Some.
    - apply list_lookup_insert_Some in Hj as [(_ & <- & _)|[_ ?]]; auto.
    - apply list_lookup_singleton_Some in Hj as [_ <-]. auto. }
  split; [done| | |done|done| |].
  - intros st (j & z & Hj & Hz)%Hs. destruct (Hold _ _ Hj) as [->|?]; eauto.
  - intros k u (j & z & Hj & Hz)%Ht. destruct (Hold _ _ Hj) as [->|?]; eauto.
  - intros j st [Hj|[?|?]]%Hback; [by eapply Ho|done|done].
  - intros j u st [Hj|[?|?]]%Hback; [by eapply Hc|done|done].
Qed.

Lemma looked_after_fresh ts :
  Forall (λ t, duty_begins t = Idle) ts → looked_after fresh_state (duty_begins <$> ts).
Proof.
  intros Hts. assert (Hidle : ∀ i d, (duty_begins <$> ts) !! i = Some d → d = Idle).
  { intros i d (t & -> & Ht)%list_lookup_fmap_Some. by eapply (Forall_lookup_1 _ _ _ _ Hts). }
  split; cbn.
  - intros key sess H. by destruct (lookup_empty_Some (M := gmap string) key sess).
  - done.
  - intros key sess H. by destruct (lookup_empty_Some (M := gmap string) key sess).
  - done.
  - done.
  - by intros i st Hd%Hidle.
  - by intros i sess st Hd%Hidle.
Qed.

(** ** The property *)

(** C20: nothing of a UDP proxy outlives its goroutines.  In every reachable
    state in which the reader, the reaper, every call of [Close] and every
    goroutine of a session have returned, the table of sessions is empty,
    [sessionCount] is zero and every stream that was opened is closed. *)
Theorem udp_proxy_cleans_up cidrs n s pool :
  udp_reachable cidrs n (s, pool) → Forall returned pool →
  up_sessions s = ∅ ∧ sessionCount s = 0 ∧ Forall (λ closed, closed = true) (up_streams s).
Proof.
  intros Hr Hret. pose proof (reachable_counted _ _ _ _ Hr) as (_ & _ & Hcount).
  destruct Hr as [sched Hrun].
  assert (Hfresh : looked_after fresh_state (duty_begins <$> Reader :: Reaper :: replicate n Closer)).
  { apply looked_after_fresh. repeat (apply Forall_cons; split; [done|]). by apply Forall_replicate. }
  assert (Hd : disciplined udp_answer duty_move duty_hand duty_rests looked_after (s, pool)).
  { eapply (run_disciplined udp_exec (udp_body cidrs) udp_answer duty_move duty_hand duty_begins);
      [| | | | |exact Hrun].
    - by intros [].
    - intros t d. apply bodies_duty.
    - intros. by eapply looked_after_exec.
    - intros. by eapply looked_after_hand.
    - apply (start_disciplined) with (begins := duty_begins); [by intros []| |exact Hfresh].
      intros t d. apply bodies_duty. }
  destruct Hd as (ds & Hf & Hla). cbn in Hf, Hla.
  assert (Hidle : ∀ i d, ds !! i = Some d → d = Idle).
  { intros i d Hi. destruct (Forall2_lookup_r _ _ _ _ _ Hf Hi) as ([t p] & Hx & Hg).
    pose proof (Forall_lookup_1 _ _ _ _ Hret Hx) as Hnone. unfold returned in Hnone. cbn in Hnone.
    subst p. exact Hg. }
  assert (Hempty : up_sessions s = ∅).
  { apply map_empty. intros key. destruct (up_sessions s !! key) as [sess|] eqn:E; [|done].
    destruct (la_sessions _ _ Hla _ _ E) as (i & d & Hi & [Hc|Hc]); by rewrite (Hidle _ _ Hi) in Hc. }
  split_and!; [done| |].
  - destruct Hcount as [-> _]; [|by rewrite Hempty].
    apply (Forall_impl _ _ _ Hret). intros [t p] Hp. unfold returned in Hp. cbn in Hp. by subst p.
  - apply Forall_lookup. intros i [|] Hi; [done|].
    destruct (la_streams _ _ Hla _ Hi) as (j & d & Hj & Hc). by rewrite (Hidle _ _ Hj) in Hc.
Qed.

(** After the sample closing run everyone has returned. *)
Lemma udp_proxy_cleans_up_witness :
  udp_reachable sample_cidrs 1 (udp_end 1 sample_closing) ∧
  length (up_streams (udp_end 1 sample_closing).1) = 1%nat ∧
  up_sessions (udp_end 1 sample_closing).1 = ∅ ∧
  Forall (λ closed, closed = true) (up_streams (udp_end 1 sample_closing).1).
Proof.
  assert (Hr : udp_reachable sample_cidrs 1 (udp_end 1 sample_closing))
    by (apply udp_end_reachable, udp_ran_ok; vm_compute; reflexivity).
  split; [exact Hr|]. split; [vm_compute; reflexivity|].
  rewrite (surjective_pairing (udp_end 1 _)) in Hr.
  destruct (udp_proxy_cleans_up sample_cidrs 1 _ _ Hr) as (Hm & _ & Hs); [|by split].
  vm_compute. repeat constructor.
Defined.

(** ** A session that nobody can close *)

(** Every goroutine but the one at [i] has returned. *)
Fixpoint others_returned (i : nat) (pool : list (goroutine udp_op udp_goroutine)) : bool :=
  match pool, i with
  | [], _ => true
  | _ :: pool, O => forallb (λ x, match x.2 with None => true | _ => false end) pool
  | x :: pool, S i => match x.2 with None => others_returned i pool | _ => false end
  end.

Lemma others_returned_spec i pool j y :
  others_returned i pool = true → pool !! j = Some y → j ≠ i → returned y.
Proof.
  unfold returned. revert i j. induction pool as [|x pool IH]; intros i j; [done|].
  destruct i as [|i]; cbn [others_returned].
  - intros Hf. destruct j as [|j]; [done|]. intros Hj _. rewrite forallb_forall in Hf.
    assert (Hy : y ∈ pool) by by eapply list_elem_of_lookup_2.
    apply list_elem_of_In in Hy. specialize (Hf y Hy). by destruct y.2.
  - destruct x.2 as [|] eqn:E; [done|]. intros Hf. destruct j as [|j].
    + by intros [= <-] _.
    + intros Hj Hne. apply (IH i j Hf Hj). lia.
Qed.

Definition frame_waiter (x : goroutine udp_op udp_goroutine) : option UDPSession :=
  match x.2 with
  | Some (Do e _) => match e with ReadFrame sess => Some sess | _ => None end
  | _ => None
  end.

(** A session can be lost.  When a write to its stream fails, the reader
    closes the session and removes it, and the next datagram of the source
    stores another session under the same address.  The goroutine of the first
    session then removes the second, which stays open outside the table: after
    [Close] has finished and everyone else has returned, its goroutine still
    waits on a stream that nothing closes. *)
Theorem udp_session_orphaned :
  ∃ s pool i sess,
    udp_reachable sample_cidrs 1 (s, pool) ∧ closeOnce s = Happened ∧ up_done s = true ∧
    up_sessions s = ∅ ∧ (pool !! i ≫= frame_waiter) = Some sess ∧ session_cut s sess = false ∧
    ∀ j y, pool !! j = Some y → j ≠ i → returned y.
Proof.
  exists (udp_end 1 sample_orphan).1, (udp_end 1 sample_orphan).2, 4%nat.
  exists {| us_id := 1; us_srcAddr := sample_source; us_ipKey := "203.0.113.9" |}. split.
  { rewrite <- surjective_pairing. apply udp_end_reachable, udp_ran_ok. vm_compute. reflexivity. }
  split_and!; try (vm_compute; reflexivity).
  intros j y. apply others_returned_spec. vm_compute. reflexivity.
Qed.
