(* ===== verification/UDPDelivery.v ===== *)
(** Which datagrams of a UDP proxy go where, and what is billed for them.

    A goroutine keeps in mind the datagram it read last and whether it has been
    passed on; whatever it passes on, it records before it does anything else. *)
From Stdlib Require Import ZArith Lia Ascii String Strings.Byte.
From stdpp Require Import base tactics numbers list gmap strings.
From S2P Require Import Prelude GoStrings GoIO GoNet IngressPolicy UDPFrames Goroutines UDPSessions UDPSamples UDPCounts.

(** ** The discipline *)

Record mail := {
  m_reader : bool;
  m_in : option (string * bytes);      (* read from the socket, not passed on *)
  m_reply : option (string * bytes);   (* read from a stream, not passed on *)
  m_bill : Z * Z;                      (* passed on, not recorded *)
}.

Definition session_addr (sess : UDPSession) : string := addr_text (us_srcAddr sess).

Section Delivery.
Context (sourceCIDRs : list IPNet).

Definition mail_move (B : Type) (e : udp_op B) (b : B) (g : mail) : option mail :=
  match e in udp_op B return B → option mail with
  | RecordTraffic i o => λ _,
      if decide (m_bill g = (i, o))
      then Some {| m_reader := m_reader g; m_in := m_in g; m_reply := m_reply g; m_bill := (0, 0) |}
      else None
  | ReadFrom => λ packet,
      if decide (m_bill g = (0, 0)) then
        match packet with
        | Some (a, p) =>
            if m_reader g
            then Some {| m_reader := m_reader g; m_in := Some (addr_text a, p);
                         m_reply := m_reply g; m_bill := (0, 0) |}
            else None
        | None => Some g
        end
      else None
  | WriteFrame sess p => λ written,
      if decide (m_bill g = (0, 0)) then
        if written then
          if decide (m_in g = Some (session_addr sess, p)
                     ∧ SourceAllowed (Some (session_addr sess)) sourceCIDRs = true)
          then Some {| m_reader := m_reader g; m_in := None; m_reply := m_reply g;
                       m_bill := (blen p, 0) |}
          else None
        else Some g
      else None
  | ReadFrame sess => λ payload,
      if decide (m_bill g = (0, 0)) then
        match payload with
        | Some p => Some {| m_reader := m_reader g; m_in := m_in g;
                            m_reply := Some (session_addr sess, p); m_bill := (0, 0) |}
        | None => Some g
        end
      else None
  | WriteTo p a => λ written,
      if decide (m_bill g = (0, 0)) then
        if written then
          if decide (m_reply g = Some (addr_text a, p))
          then Some {| m_reader := m_reader g; m_in := m_in g; m_reply := None;
                       m_bill := (0, blen p) |}
          else None
        else Some g
      else None
  | LoadOrStore key sess => λ _,
      if decide (m_bill g = (0, 0) ∧ key = session_addr sess) then Some g else None
  | _ => λ _, if decide (m_bill g = (0, 0)) then Some g else None
  end b.

Definition mail_hand (t : udp_goroutine) (g : mail) : option mail :=
  match t with Reverse _ => if decide (m_bill g = (0, 0)) then Some g else None | _ => None end.

Definition mail_begins (t : udp_goroutine) : mail :=
  {| m_reader := match t with Reader => true | _ => false end; m_in := None; m_reply := None;
     m_bill := (0, 0) |}.

Definition mail_rests (t : udp_goroutine) (again : bool) (g : mail) : Prop :=
  m_bill g = (0, 0) ∧ (t = Reader → m_reader g = true).

Abbreviation mails p g Q := (follows udp_answer mail_move mail_hand p g Q).
Definition billed (g : mail) : Prop := m_bill g = (0, 0).
Abbreviation silent p := (stays udp_answer mail_move mail_hand billed p).

(** Operations that pass nothing on. *)
Definition quiet {B} (e : udp_op B) : bool :=
  match e with
  | RecordTraffic _ _ | ReadFrom | WriteFrame _ _ | ReadFrame _ | WriteTo _ _ | LoadOrStore _ _ => false
  | _ => true
  end.

Lemma quiet_move B (e : udp_op B) b g : quiet e = true → billed g → mail_move B e b g = Some g.
Proof. intros He Hg. destruct e; try done; cbn; by rewrite decide_True. Qed.

Lemma silent_op B (e : udp_op B) : quiet e = true → silent (act e).
Proof. intros He. apply stays_op. intros b g. by apply quiet_move. Qed.

Lemma silent_plain B (e : udp_op B) : plain e = true → silent (act e).
Proof. intros He. apply silent_op. by destruct e. Qed.

Lemma silent_removeSession key : silent (removeSession key).
Proof.
  apply stays_seq; [by apply silent_op|]. intros [sess|]; [|apply stays_ret].
  apply stays_seq; [by apply silent_op|]. intros _.
  destruct (us_ipKey sess =?s ""); [apply stays_ret|].
  apply stays_seq; [by apply silent_op|]. intros _. apply stays_ret.
Qed.

#[local] Hint Resolve silent_plain silent_removeSession : core.

Lemma silent_step {A B} (e : udp_op B) (f : B → udp A) g (Q : A → mail → Prop) :
  quiet e = true → billed g → (∀ b, udp_answer B e b → mails (f b) g Q) →
  mails (seq (act e) f) g Q.
Proof.
  intros He Hg Hf. apply follows_op_seq. intros b Hb. exists g. split; [by apply quiet_move|by apply Hf].
Qed.

Lemma silent_make_room : silent make_room.
Proof.
  apply stays_seq; [by apply silent_op|]. intros count. destruct (_ <=? _); [|apply stays_ret].
  apply stays_seq; [apply stays_removeOldestSession; auto|]. intros [|]; [|apply stays_ret].
  apply stays_seq; [by apply silent_op|]. intros n. apply stays_ret.
Qed.

Lemma silent_canCreateSessionForIP ipKey : silent (canCreateSessionForIP ipKey).
Proof.
  apply stays_seq; [by apply silent_op|]. intros count. destruct (_ <=? _); [apply stays_ret|].
  apply stays_seq; [|intros n; apply stays_ret]. unfold sessionCountForIP.
  destruct (_ =?s _); [apply stays_ret|by apply silent_op].
Qed.

(** The session found or made for a source is one of its address. *)
Lemma lookup_session_addr srcAddr g (Q : lookup_result → mail → Prop) :
  billed g → (∀ sess, session_addr sess = addr_text srcAddr → Q (Use sess) g) →
  Q Drop g → Q NoStream g → mails (lookup_session srcAddr) g Q.
Proof.
  intros Hg Huse Hdrop Hno. apply silent_step; [done|done|]. intros [sess|] Hb.
  { apply Huse. by apply Hb. }
  apply follows_seq, silent_make_room; [done|]. intros [|]; [|done]. cbn [negb].
  apply follows_seq, silent_canCreateSessionForIP; [done|]. intros [|]; [|done]. cbn [negb].
  apply silent_step; [done|done|]. intros [stream|] _.
  2:{ apply follows_seq. apply (stays_runtime_error mail_move mail_hand billed); [by auto..|done|done]. }
  apply silent_step; [done|done|]. intros sess (Ha & _).
  apply silent_step; [done|done|]. intros _ _.
  apply follows_seq, follows_op_seq. intros actual Hact. cbn [mail_move].
  rewrite decide_True by (unfold session_addr; by rewrite Ha). exists g. split; [done|].
  destruct actual as [actual|].
  - apply silent_step; [done|done|]. intros _ _. apply Huse. by apply Hact.
  - assert (Hgo : mails (seq (go (Reverse sess)) (λ _, mret (Use sess))) g Q).
    { cbn [mail_hand seq prog_bind go follows]. rewrite decide_True by done. exists g. split; [done|].
      apply Huse. unfold session_addr. by rewrite Ha. }
    apply silent_step; [done|done|]. intros _ _. destruct (us_ipKey sess =?s ""); [exact Hgo|].
    apply silent_step; [done|done|]. intros _ _. exact Hgo.
Qed.

Lemma mails_udpReadLoop g : mail_rests Reader true g → mails (udpReadLoop sourceCIDRs) g (mail_rests Reader).
Proof.
  intros [Hg Hr]. specialize (Hr eq_refl).
  apply silent_step; [done|done|]. intros [|] _; [by split|].
  apply follows_op_seq. intros [[srcAddr p]|] _; cbn [mail_move]; rewrite decide_True by done.
  2:{ exists g. split; [done|]. apply silent_step; [done|done|]. intros [|] _; [by split|].
      apply follows_seq. apply (stays_runtime_error mail_move mail_hand billed); [by auto..|done|].
      intros _. by split. }
  rewrite Hr. eexists. split; [reflexivity|]. destruct (negb _) eqn:Hallow; [by split|].
  apply negb_false_iff in Hallow.
  apply follows_seq, lookup_session_addr; [done| |by split|by split]. intros sess Ha.
  apply follows_seq. apply silent_step; [done|done|]. intros _ _.
  apply follows_op_seq. intros [|] _; cbn [mail_move m_bill]; rewrite decide_True by done.
  - rewrite decide_True by (cbn; by rewrite Ha). eexists. split; [reflexivity|].
    intros [] _. cbn [mail_move m_bill]. rewrite decide_True by done. eexists. split; [reflexivity|].
    by split.
  - eexists. split; [reflexivity|].
    apply (stays_close_one mail_move mail_hand billed); [by auto..|done|]. intros _. by split.
Qed.

Lemma mails_udpSessionReverse sess g :
  billed g → mails (udpSessionReverse sess) g (mail_rests (Reverse sess)).
Proof.
  intros Hg.
  assert (Hret : ∀ g, billed g → mails (reverse_return sess) g (mail_rests (Reverse sess))).
  { intros g' Hg'. apply (stays_close_one mail_move mail_hand billed); [by auto..|done|]. by split. }
  apply silent_step; [done|done|]. intros [|] _; [by apply Hret|].
  apply silent_step; [done|done|]. intros [|] _; [by apply Hret|].
  apply follows_op_seq. intros [p|] _; cbn [mail_move]; rewrite decide_True by done.
  2:{ exists g. split; [done|by apply Hret]. }
  eexists. split; [reflexivity|]. apply silent_step; [done|done|]. intros _ _.
  apply follows_op_seq. intros [|] _; cbn [mail_move m_bill]; rewrite decide_True by done.
  2:{ eexists. split; [reflexivity|by apply Hret]. }
  rewrite decide_True by done. eexists. split; [reflexivity|].
  apply follows_op_seq. intros [] _. cbn [mail_move m_bill]. rewrite decide_True by done.
  eexists. split; [reflexivity|]. by split.
Qed.

Lemma bodies_mail t g :
  mail_rests t true g → mails (udp_body sourceCIDRs t) g (mail_rests t).
Proof.
  intros Hg. destruct t as [| |sess|]; cbn [udp_body].
  - by apply mails_udpReadLoop.
  - apply (stays_udpReaper mail_move mail_hand billed); [by auto..|by destruct Hg|].
    intros a. split; [by destruct Hg|done].
  - apply mails_udpSessionReverse. by destruct Hg.
  - apply follows_seq, (stays_Close mail_move mail_hand billed); [by auto..|by destruct Hg|].
    intros _. split; [by destruct Hg|done].
Qed.

(** ** The invariant *)

(** The payloads with the addresses of their sessions. *)
Definition addressed (l : list (UDPSession * bytes)) : list (string * bytes) :=
  (λ x, (session_addr x.1, x.2)) <$> l.

(** How often [x] occurs. *)
Definition occurrences (x : string * bytes) (l : list (string * bytes)) : Z :=
  total (λ y, if decide (y = x) then 1 else 0) l.
Definition holds_reply (x : string * bytes) (g : mail) : Z :=
  if decide (m_reply g = Some x) then 1 else 0.
Definition payload_bytes {A} (l : list (A * bytes)) : Z := total (λ y, blen y.2) l.

Record delivered (s : UDPProxyState) (gs : list mail) : Prop := {
  dl_keyed : keyed s;
  dl_wire : sublist (addressed (up_wire s)) (up_received s);
  dl_allowed : Forall (λ x, SourceAllowed (Some (session_addr x.1)) sourceCIDRs = true) (up_wire s);
  dl_reader : ∀ i g, gs !! i = Some g → m_reader g = true → i = 0%nat;
  dl_in : ∀ i g x, gs !! i = Some g → m_in g = Some x →
    m_reader g = true ∧ sublist (addressed (up_wire s) ++ [x]) (up_received s);
  dl_replies : ∀ x, occurrences x (up_sent s) + total (holds_reply x) gs ≤ occurrences x (addressed (up_replies s));
  dl_ingress : up_ingress s + total (λ g, (m_bill g).1) gs = payload_bytes (up_wire s);
  dl_egress : up_egress s + total (λ g, (m_bill g).2) gs = payload_bytes (up_sent s);
}.

#[local] Arguments addressed l : simpl never.
#[local] Arguments occurrences x l : simpl never.
#[local] Arguments holds_reply x g : simpl never.
#[local] Arguments payload_bytes {A} l : simpl never.

(** A step of goroutine [i]. *)
Lemma delivered_move s s' gs i g g' :
  delivered s gs → gs !! i = Some g → keyed s' → m_reader g' = m_reader g →
  sublist (addressed (up_wire s')) (up_received s') →
  Forall (λ x, SourceAllowed (Some (session_addr x.1)) sourceCIDRs = true) (up_wire s') →
  (∀ x, m_in g' = Some x → m_reader g = true ∧ sublist (addressed (up_wire s') ++ [x]) (up_received s')) →
  (addressed (up_wire s') = addressed (up_wire s) ∧ up_received s' = up_received s) ∨ m_reader g = true →
  (∀ x, occurrences x (up_sent s') + holds_reply x g' - occurrences x (addressed (up_replies s'))
        ≤ occurrences x (up_sent s) + holds_reply x g - occurrences x (addressed (up_replies s))) →
  up_ingress s' + (m_bill g').1 - payload_bytes (up_wire s')
    = up_ingress s + (m_bill g).1 - payload_bytes (up_wire s) →
  up_egress s' + (m_bill g').2 - payload_bytes (up_sent s')
    = up_egress s + (m_bill g).2 - payload_bytes (up_sent s) →
  delivered s' (<[i := g']> gs).
Proof.
  intros [Hk Hw Ha Hr Hin Hrep Hi He] Hg Hk' Hr' Hw' Ha' Hin' Hother Hrep' Hi' He'.
  assert (Hlen : (i < length gs)%nat) by by eapply lookup_lt_Some.
  assert (Hcase : ∀ j h, <[i := g']> gs !! j = Some h → (j = i ∧ h = g') ∨ (j ≠ i ∧ gs !! j = Some h)).
  { intros j h. destruct (decide (j = i)) as [->|Hne].
    - rewrite list_lookup_insert_eq by done. intros [= <-]. by left.
    - rewrite list_lookup_insert_ne by done. by right. }
  split; [done|done|done| | | | |].
  - intros j h [[-> ->]|[_ Hj]]%Hcase; [rewrite Hr'|]; by eauto.
  - intros j h x [[-> ->]|[Hne Hj]]%Hcase Hx; [rewrite Hr'; by apply Hin'|].
    destruct (Hin _ _ _ Hj Hx) as [Hrj Hsub]. split; [done|].
    destruct Hother as [[-> ->]|Hrg]; [done|]. by rewrite (Hr _ _ Hj Hrj), (Hr _ _ Hg Hrg) in Hne.
  - intros x. rewrite (total_insert _ _ _ g) by done. pose proof (Hrep x). pose proof (Hrep' x). lia.
  - rewrite (total_insert _ _ _ g) by done. lia.
  - rewrite (total_insert _ _ _ g) by done. lia.
Qed.

Definition same_mail (s s' : UDPProxyState) : Prop :=
  up_received s' = up_received s ∧ up_sent s' = up_sent s ∧ up_wire s' = up_wire s ∧
  up_replies s' = up_replies s ∧ up_ingress s' = up_ingress s ∧ up_egress s' = up_egress s.

Lemma exec_same_mail B (e : udp_op B) c s b s' :
  udp_exec B e c s = Some (b, s') → quiet e = true → same_mail s s'.
Proof.
  intros He Hq. destruct e; try done; cbn in He; unfold close_session, touch_session in He; repeat case_match;
    simplify_eq/=; done.
Qed.

Lemma delivered_same s s' gs : delivered s gs → keyed s' → same_mail s s' → delivered s' gs.
Proof.
  intros [Hk Hw Ha Hr Hin Hrep Hi He] Hk' (E1 & E2 & E3 & E4 & E5 & E6).
  split; rewrite ?E1, ?E2, ?E3, ?E4, ?E5, ?E6; done.
Qed.

Lemma occurrences_app x l k : occurrences x (l ++ k) = occurrences x l + occurrences x k.
Proof. apply total_app. Qed.

Lemma addressed_app l k : addressed (l ++ k) = addressed l ++ addressed k.
Proof. apply fmap_app. Qed.

Lemma addressed_one sess p : addressed [(sess, p)] = [(session_addr sess, p)].
Proof. done. Qed.

Lemma payload_bytes_app {A} (l k : list (A * bytes)) :
  payload_bytes (l ++ k) = payload_bytes l + payload_bytes k.
Proof. apply total_app. Qed.

Lemma occurrences_one x y : occurrences x [y] = if decide (y = x) then 1 else 0.
Proof. unfold occurrences. cbn. lia. Qed.

Lemma delivered_exec B (e : udp_op B) c s b s' i g gs :
  delivered s gs → gs !! i = Some g → udp_exec B e c s = Some (b, s') →
  udp_answer B e b ∧ ∀ g', mail_move B e b g = Some g' → delivered s' (<[i := g']> gs).
Proof.
  intros Hdl Hg He. pose proof (dl_keyed _ _ Hdl) as Hk.
  split; [by eapply udp_exec_answer|]. intros g' Hm.
  destruct (quiet e) eqn:Hq.
  - assert (g' = g) as ->.
    { destruct e; try done; cbn in Hm; case_decide; by simplify_eq. }
    rewrite list_insert_id by done.
    eapply delivered_same; [done| |by eapply exec_same_mail].
    destruct e; try done; cbn in He; unfold close_session, touch_session in He; repeat case_match;
      simplify_eq/=; try done.
    intros k u. cbn. intros [_ Hu]%lookup_delete_Some. by apply Hk.
  - destruct e; try done; cbn in He, Hm; try (case_decide as Hb; [|done]).
    + (* ReadFrom *) destruct c; simplify_eq/=; [by rewrite list_insert_id|].
      destruct (packetConn_closed s); [done|]. simplify_eq/=.
      destruct (m_reader g) eqn:Hr; [|done]. simplify_eq/=.
      eapply delivered_move; [done|done|..]; cbn; try done; try lia.
      * apply sublist_inserts_r, Hdl.
      * apply Hdl.
      * intros x [= <-]. split; [done|]. by apply sublist_app; [apply Hdl|].
      * by right.
      * by rewrite Hb.
      * by rewrite Hb.
    + (* WriteTo *) destruct c as [|[|]| | | |]; simplify_eq/=; [|by rewrite list_insert_id].
      destruct (packetConn_closed s); [done|]. simplify_eq/=.
      case_decide as Hrep; [|done]. injection Hm as <-.
      eapply delivered_move; [done|done|..]; cbn; try done; try apply Hdl.
      * intros x Hx. by apply (dl_in _ _ Hdl _ _ _ Hg).
      * by left.
      * intros x. rewrite occurrences_app, ?addressed_one, occurrences_one. unfold holds_reply. cbn. rewrite Hrep.
        repeat case_decide; simplify_eq; try done; lia.
      * by rewrite Hb.
      * rewrite Hb, payload_bytes_app. unfold payload_bytes at 2. cbn. lia.
    + (* LoadOrStore *) destruct Hb as [Hb ->]. simplify_eq/=. rewrite list_insert_id by done.
      destruct (up_sessions s !! session_addr sess) eqn:Em; simplify_eq/=; [done|].
      eapply delivered_same; [done| |done].
      intros k u. cbn. intros [[<- <-]|[_ Hu]]%lookup_insert_Some; [done|by apply Hk].
    + (* WriteFrame *) destruct c as [|[|]| | | |]; simplify_eq/=; [|by rewrite list_insert_id].
      destruct (session_cut s sess); [done|]. simplify_eq/=.
      case_decide as Hdec; [|done]. destruct Hdec as [Hin Hall]. injection Hm as <-.
      destruct (dl_in _ _ Hdl _ _ _ Hg Hin) as [Hr Hsub].
      eapply delivered_move; [done|done|..]; cbn; try done.
      * by rewrite addressed_app.
      * apply Forall_app. split; [apply Hdl|by constructor].
      * by right.
      * rewrite Hb, payload_bytes_app. unfold payload_bytes at 2. cbn. lia.
      * by rewrite Hb.
    + (* ReadFrame *) destruct c; simplify_eq/=; [by rewrite list_insert_id|].
      destruct (session_cut s sess || _); [done|]. simplify_eq/=.
      eapply delivered_move; [done|done|..]; cbn; try done; try apply Hdl.
      * intros x Hx. by apply (dl_in _ _ Hdl _ _ _ Hg).
      * by left.
      * intros x. rewrite addressed_app, occurrences_app, ?addressed_one, occurrences_one. unfold holds_reply. cbn.
        repeat case_decide; simplify_eq; try done; lia.
      * by rewrite Hb.
      * by rewrite Hb.
    + (* RecordTraffic *) simplify_eq/=.
      eapply delivered_move; [done|done|..]; cbn; try done; try apply Hdl.
      * intros x Hx. by apply (dl_in _ _ Hdl _ _ _ Hg).
      * by left.
      * rewrite Hb. cbn. lia.
      * rewrite Hb. cbn. lia.
Qed.

Lemma delivered_hand t s i g g' gs :
  delivered s gs → gs !! i = Some g → mail_hand t g = Some g' →
  delivered s (<[i := g']> gs ++ [mail_begins t]).
Proof.
  intros Hdl Hg Hh. unfold mail_hand in Hh. destruct t as [| |sess|]; try done.
  case_decide; [|done]. injection Hh as <-. rewrite list_insert_id by done.
  destruct Hdl as [Hk Hw Ha Hr Hin Hrep Hi He].
  assert (Hcase : ∀ j h, (gs ++ [mail_begins (Reverse sess)]) !! j = Some h →
                         gs !! j = Some h ∨ h = mail_begins (Reverse sess)).
  { intros j h [?|[_ Hj]]%lookup_app_Some; [by left|].
    apply list_lookup_singleton_Some in Hj as [_ <-]. by right. }
  split; try done; rewrite ?total_app; cbn.
  - intros j h [Hj| ->]%Hcase; [by eapply Hr|done].
  - intros j h x [Hj| ->]%Hcase; [by eapply Hin|done].
  - intros x. pose proof (Hrep x). rewrite total_app.
    change (total (holds_reply x) [mail_begins (Reverse sess)]) with 0. lia.
  - lia.
  - lia.
Qed.

Lemma delivered_fresh n : delivered fresh_state (mail_begins <$> Reader :: Reaper :: replicate n Closer).
Proof.
  assert (Htot : ∀ f, f (mail_begins Reader) = 0 → f (mail_begins Reaper) = 0 →
    f (mail_begins Closer) = 0 → total f (mail_begins <$> Reader :: Reaper :: replicate n Closer) = 0).
  { intros f H1 H2 H3. apply total_zero. repeat (apply Forall_cons; split; [done|]).
    apply Forall_fmap, Forall_replicate. done. }
  assert (Hcase : ∀ j h, (mail_begins <$> Reader :: Reaper :: replicate n Closer) !! j = Some h →
    (j = 0%nat ∧ h = mail_begins Reader) ∨ h = mail_begins Closer).
  { intros [|[|j]] h Hj; [injection Hj as <-; by left|injection Hj as <-; by right|].
    change ((mail_begins <$> replicate n Closer) !! j = Some h) in Hj.
    apply list_lookup_fmap_Some in Hj as (t & -> & Ht).
    apply lookup_replicate in Ht as [-> _]. by right. }
  split.
  - intros key sess H. by destruct (lookup_empty_Some (M := gmap string) key sess).
  - constructor.
  - constructor.
  - intros j h [[-> ->]| ->]%Hcase; done.
  - intros j h x [[-> ->]| ->]%Hcase; done.
  - intros x. rewrite Htot by done. done.
  - by rewrite Htot.
  - by rewrite Htot.
Qed.
End Delivery.

(** ** The property *)

(** The goroutine is about to record what it passed on. *)
Definition recording (x : goroutine udp_op udp_goroutine) : bool :=
  match x.2 with
  | Some (Do e _) => match e with RecordTraffic _ _ => true | _ => false end
  | _ => false
  end.

Lemma not_recording_billed cidrs x g :
  goroutine_follows udp_answer (mail_move cidrs) mail_hand mail_rests x g → recording x = false → billed g.
Proof.
  destruct x as [t [[a|B e k|t' k]|]]; unfold goroutine_follows, recording; cbn.
  - by intros [? _].
  - intros H Hp. destruct (answer_exists _ e) as [b Hb]. destruct (H b Hb) as (g' & Hm & _).
    destruct e; try done; cbn in Hm; case_decide as Hd; try done; by destruct Hd.
  - intros (g' & Hh & _) _. unfold mail_hand in Hh. destruct t'; try done. by case_decide.
  - by intros [? _].
Qed.

(** C11: a UDP proxy keeps its sources apart.  In every reachable state, what
    was written to the streams of sessions is, with the addresses of the
    sessions, a subsequence of what arrived from those addresses, and only from
    sources the policy allows; no reply was sent more often than it was read
    from a stream, nor to another address than that of the stream's session;
    and when no goroutine is about to record, the recorded traffic is exactly
    the payload passed on in either direction. *)
Theorem udp_datagrams_delivered cidrs n s pool :
  udp_reachable cidrs n (s, pool) →
  sublist (addressed (up_wire s)) (up_received s) ∧
  (∀ sess p, (sess, p) ∈ up_wire s → SourceAllowed (Some (session_addr sess)) cidrs = true) ∧
  (∀ x, occurrences x (up_sent s) ≤ occurrences x (addressed (up_replies s))) ∧
  (Forall (λ x, recording x = false) pool →
     up_ingress s = payload_bytes (up_wire s) ∧ up_egress s = payload_bytes (up_sent s)).
Proof.
  intros [sched Hrun].
  assert (Hd : disciplined udp_answer (mail_move cidrs) mail_hand mail_rests (delivered cidrs) (s, pool)).
  { eapply (run_disciplined udp_exec (udp_body cidrs) udp_answer (mail_move cidrs) mail_hand mail_begins);
      [| | | | |exact Hrun].
    - by intros [].
    - intros t g. apply bodies_mail.
    - intros. by eapply delivered_exec.
    - intros. by eapply delivered_hand.
    - apply (start_disciplined) with (begins := mail_begins); [by intros []| |apply delivered_fresh].
      intros t g. apply bodies_mail. }
  destruct Hd as (gs & Hf & Hdl). cbn in Hf, Hdl. split_and!.
  - apply Hdl.
  - intros sess p Hin. pose proof (dl_allowed _ _ _ Hdl) as Ha. rewrite Forall_forall in Ha.
    by apply (Ha (sess, p)).
  - intros x. pose proof (dl_replies _ _ _ Hdl x).
    assert (0 ≤ total (holds_reply x) gs); [|lia].
    clear. induction gs as [|g gs IH]; cbn [total]; [done|]. unfold holds_reply at 1. case_decide; lia.
  - intros Hset.
    assert (Hb : Forall billed gs).
    { apply Forall_lookup. intros i g Hi. destruct (Forall2_lookup_r _ _ _ _ _ Hf Hi) as (x & Hx & Hg).
      eapply not_recording_billed; [exact Hg|]. by eapply (Forall_lookup_1 _ _ _ _ Hset). }
    pose proof (dl_ingress _ _ _ Hdl) as Hi. pose proof (dl_egress _ _ _ Hdl) as He.
    rewrite total_zero in Hi by (eapply Forall_impl; [exact Hb|]; by intros g ->).
    rewrite total_zero in He by (eapply Forall_impl; [exact Hb|]; by intros g ->). lia.
Qed.

(** In the sample exchange two bytes go each way. *)
Lemma udp_datagrams_delivered_witness :
  udp_reachable sample_cidrs 0 (udp_end 0 (sample_arrival ++ sample_exchange)) ∧
  up_ingress (udp_end 0 (sample_arrival ++ sample_exchange)).1 = 2 ∧
  up_egress (udp_end 0 (sample_arrival ++ sample_exchange)).1 = 2.
Proof.
  assert (Hr : udp_reachable sample_cidrs 0 (udp_end 0 (sample_arrival ++ sample_exchange)))
    by (apply udp_end_reachable, udp_ran_ok, sample_arrival_runs).
  split; [exact Hr|]. rewrite (surjective_pairing (udp_end 0 _)) in Hr.
  destruct (udp_datagrams_delivered sample_cidrs 0 _ _ Hr) as (_ & _ & _ & Hb).
  destruct Hb as [-> ->]; [apply (bool_decide_unpack _); vm_compute; exact I|].
  split; vm_compute; reflexivity.
Defined.
