(* ===== verification/GoTime.v ===== *)
(** Times as the stores write them: [time.Time] is a number of nanoseconds
    since Go's zero time (1 January of the year 1, UTC), and the text of a
    column is its [RFC3339Nano] form, which the database compares as text. *)
From Stdlib Require Import ZArith Lia Ascii String.
From stdpp Require Import base tactics numbers list strings.
From S2P Require Import Prelude.

Definition hour : Z := 60 * minute.
Definition day : Z := 24 * hour.

(** The [n] last decimal digits of a number. *)
Fixpoint padded (n : nat) (z : Z) : string :=
  match n with
  | O => ""
  | S n => padded n (z / 10) +:+ String (ascii_of_N (Z.to_N (48 + z mod 10))) ""
  end.

(** The civil date of a day counted from the zero time: year, month, day. *)
Definition civil (days : Z) : Z * Z * Z :=
  let z := days + 306 in
  let era := z / 146097 in
  let doe := z mod 146097 in
  let yoe := (doe - doe / 1460 + doe / 36524 - doe / 146096) / 365 in
  let doy := doe - (365 * yoe + yoe / 4 - yoe / 100) in
  let mp := (5 * doy + 2) / 153 in
  let month := if mp <? 10 then mp + 3 else mp - 9 in
  (yoe + era * 400 + (if month <=? 2 then 1 else 0), month, doy - (153 * mp + 2) / 5 + 1).

(** The digits of a fraction without the zeros at its end. *)
Fixpoint trim_zeros (digits : list ascii) : list ascii :=
  match digits with
  | [] => []
  | c :: digits =>
      match trim_zeros digits with
      | [] => if Ascii.eqb c "0" then [] else [c]
      | rest => c :: rest
      end
  end.

Definition fraction (ns : Z) : string :=
  match trim_zeros (String.list_ascii_of_string (padded 9 ns)) with
  | [] => ""
  | digits => "." +:+ String.string_of_list_ascii digits
  end.

(** [t.UTC().Format(time.RFC3339Nano)] (admin_store.go), for the years 0 to
    9999. *)
Definition formatTime (t : Z) : string :=
  let '(y, m, d) := civil (t / day) in
  let s := t mod day / second in
  padded 4 y +:+ "-" +:+ padded 2 m +:+ "-" +:+ padded 2 d +:+ "T"
  +:+ padded 2 (s / 3600) +:+ ":" +:+ padded 2 (s / 60 mod 60) +:+ ":" +:+ padded 2 (s mod 60)
  +:+ fraction (t mod second) +:+ "Z".

Example formatTime_zero : formatTime 0 = "0001-01-01T00:00:00Z"%string.
Proof. reflexivity. Qed.
(** The Unix time 1709210096.250 s, a leap day. *)
Example formatTime_leap :
  formatTime ((62135596800 + 1709210096) * second + 250000000) = "2024-02-29T12:34:56.25Z"%string.
Proof. reflexivity. Qed.

(** [ORDER BY created_at, id], [t <= u] and [t < u] on columns of times. *)
Definition text_le (t u : Z) : bool := negb (formatTime u <? formatTime t)%string.

(** The text orders a time before an earlier one of the same second when the
    fraction of one is the beginning of the fraction of the other. *)
Example text_order_not_time_order :
  text_le (500000001) 500000000 = true.
Proof. reflexivity. Qed.

(** Kept folded when terms are compared. *)
#[global] Opaque formatTime.
#[global] Typeclasses Opaque formatTime.
