(* ===== verification/GoUTF8.v ===== *)
(** UTF-8 as Go decodes it: [range] over a string, [utf8.ValidString],
    [utf8.RuneStart], [strings.ToValidUTF8]. *)
From Stdlib Require Import ZArith Lia Ascii String.
From stdpp Require Import base tactics numbers list strings.
From S2P Require Import Prelude.

Definition bytes_of (s : string) : list N := N_of_ascii <$> String.list_ascii_of_string s.
Definition string_of_bytes (l : list N) : string :=
  String.string_of_list_ascii (ascii_of_N <$> l).

Definition in_range (lo hi b : N) : bool := (lo <=? b)%N && (b <=? hi)%N.
Definition continuation (b : N) : bool := in_range 128 191 b.
Definition RuneError : N := 65533.

(** [utf8.RuneStart] *)
Definition RuneStart (b : N) : bool := negb (continuation b).

(** The range of the second byte of a sequence of three or four bytes. *)
Definition second_range (b0 : N) : N * N :=
  (if b0 =? 224 then (160, 191) else if b0 =? 237 then (128, 159)
   else if b0 =? 240 then (144, 191) else if b0 =? 244 then (128, 143) else (128, 191))%N.

(** [utf8.DecodeRune]: the rune and its width; an invalid sequence is
    [RuneError] of width one. *)
Definition DecodeRune (l : list N) : option (N * nat) :=
  match l with
  | [] => None
  | b0 :: l =>
      let bad := Some (RuneError, 1%nat) in
      if (b0 <? 128)%N then Some (b0, 1%nat) else
      if in_range 194 223 b0 then
        match l with
        | b1 :: _ => if continuation b1
                     then Some ((b0 - 192) * 64 + (b1 - 128), 2%nat)%N else bad
        | _ => bad
        end
      else if in_range 224 239 b0 then
        match l with
        | b1 :: b2 :: _ =>
            let '(lo, hi) := second_range b0 in
            if in_range lo hi b1 && continuation b2
            then Some ((b0 - 224) * 4096 + (b1 - 128) * 64 + (b2 - 128), 3%nat)%N else bad
        | _ => bad
        end
      else if in_range 240 244 b0 then
        match l with
        | b1 :: b2 :: b3 :: _ =>
            let '(lo, hi) := second_range b0 in
            if in_range lo hi b1 && continuation b2 && continuation b3
            then Some ((b0 - 240) * 262144 + (b1 - 128) * 4096 + (b2 - 128) * 64 + (b3 - 128), 4%nat)%N
            else bad
        | _ => bad
        end
      else bad
  end.

(** The runes with the bytes they were read from; the first [skip] bytes belong
    to a rune already read. *)
Fixpoint decode (skip : nat) (l : list N) : list (N * list N) :=
  match l with
  | [] => []
  | b :: rest =>
      match skip with
      | S skip => decode skip rest
      | O => match DecodeRune l with
             | Some (r, w) => (r, take w l) :: decode (w - 1) rest
             | None => []
             end
      end
  end.

(** [for _, r := range s] *)
Definition runes (s : string) : list N := (decode 0 (bytes_of s)).*1 .

(** A rune that is the error rune although it is not written as such. *)
Definition invalid_rune (r : N * list N) : bool := (r.1 =? RuneError)%N && (length r.2 =? 1)%nat.

Definition ValidString (s : string) : bool := forallb (λ r, negb (invalid_rune r)) (decode 0 (bytes_of s)).

(** [strings.ToValidUTF8]: a run of invalid bytes becomes one replacement. *)
Fixpoint replace_invalid (replacement : list N) (after_invalid : bool) (l : list (N * list N)) : list N :=
  match l with
  | [] => []
  | r :: l =>
      if invalid_rune r
      then (if after_invalid then [] else replacement) ++ replace_invalid replacement true l
      else r.2 ++ replace_invalid replacement false l
  end.
Definition ToValidUTF8 (s replacement : string) : string :=
  string_of_bytes (replace_invalid (bytes_of replacement) false (decode 0 (bytes_of s))).

Example runes_ex : runes (string_of_bytes [72; 195; 169; 255; 226; 130; 172]%N) = [72; 233; 65533; 8364]%N.
Proof. reflexivity. Qed.
Example to_valid_ex :
  ToValidUTF8 (string_of_bytes [255; 254; 65; 128]%N) "?" = "?A?"%string.
Proof. reflexivity. Qed.
