(* ===== verification/Activity.v ===== *)
(** Activity events (internal/server/activity_store.go,
    admin_activity_store.go, activity_producers.go): what a producer says
    about an event, and the row that is stored. *)
From Stdlib Require Import ZArith Ascii String.
From stdpp Require Import base tactics numbers list gmap strings.
From S2P Require Import Prelude Records.

Definition ActivitySeverityDebug : string := "debug".
Definition ActivitySeverityInfo : string := "info".
Definition ActivitySeverityWarning : string := "warning".
Definition ActivitySeverityError : string := "error".

Definition ActivityCategoryClient : string := "client".
Definition ActivityCategoryAdmin : string := "admin".

Record ActivityActor := {
  actor_Type : string; actor_ID : string; actor_Name : string;
  actor_IPHash : string; actor_IPPrefix : string;
}.
#[export] Instance ActivityActor_rebuild : Rebuild ActivityActor := λ a, {|
  actor_Type := actor_Type a; actor_ID := actor_ID a; actor_Name := actor_Name a;
  actor_IPHash := actor_IPHash a; actor_IPPrefix := actor_IPPrefix a |}.

Definition actor_of_type (t : string) : ActivityActor := {|
  actor_Type := t; actor_ID := ""; actor_Name := ""; actor_IPHash := ""; actor_IPPrefix := "" |}.
Definition systemActivityActor : ActivityActor := actor_of_type "system".

Record ActivityClientSubject := {
  cs_ClientID : string; cs_Relation : string; cs_DisplayName : string; cs_Hostname : string;
  cs_Truncated : bool;
}.
Record ActivityTunnelSubject := {
  ts_TunnelID : string; ts_Relation : string; ts_Name : string; ts_Type : string;
  ts_Topology : string; ts_Truncated : bool;
}.

Record ActivitySummaryArgs := {
  args_ClientName : string; args_TunnelName : string; args_ResourceName : string;
  args_Before : string; args_After : string; args_Value : Z; args_Count : Z;
  args_Transport : string; args_Topology : string;
}.
#[export] Instance ActivitySummaryArgs_rebuild : Rebuild ActivitySummaryArgs := λ a, {|
  args_ClientName := args_ClientName a; args_TunnelName := args_TunnelName a;
  args_ResourceName := args_ResourceName a; args_Before := args_Before a;
  args_After := args_After a; args_Value := args_Value a; args_Count := args_Count a;
  args_Transport := args_Transport a; args_Topology := args_Topology a |}.

Definition no_args : ActivitySummaryArgs := {|
  args_ClientName := ""; args_TunnelName := ""; args_ResourceName := ""; args_Before := "";
  args_After := ""; args_Value := 0; args_Count := 0; args_Transport := ""; args_Topology := "" |}.

Record activityPayloadV1 := {
  pl_category : string; pl_action : string; SummaryKey : string; SummaryArgs : ActivitySummaryArgs;
  ReasonCode : string; pl_Before : string; pl_After : string; pl_Revision : Z; pl_Generation : Z;
  pl_SessionID : string; pl_Sequence : Z; Managed : option bool;
}.
#[export] Instance activityPayloadV1_rebuild : Rebuild activityPayloadV1 := λ p, {|
  pl_category := pl_category p; pl_action := pl_action p; SummaryKey := SummaryKey p;
  SummaryArgs := SummaryArgs p; ReasonCode := ReasonCode p; pl_Before := pl_Before p;
  pl_After := pl_After p; pl_Revision := pl_Revision p; pl_Generation := pl_Generation p;
  pl_SessionID := pl_SessionID p; pl_Sequence := pl_Sequence p; Managed := Managed p |}.

Record ActivityEventSpec := {
  OccurredAt : Z; Severity : string; Category : string; Action : string; Source : string;
  Actor : ActivityActor; ScopeUserID : string; SubjectUserID : string; DedupeKey : string;
  Payload : activityPayloadV1; Clients : list ActivityClientSubject;
  Tunnels : list ActivityTunnelSubject;
}.
#[export] Instance ActivityEventSpec_rebuild : Rebuild ActivityEventSpec := λ s, {|
  OccurredAt := OccurredAt s; Severity := Severity s; Category := Category s; Action := Action s;
  Source := Source s; Actor := Actor s; ScopeUserID := ScopeUserID s;
  SubjectUserID := SubjectUserID s; DedupeKey := DedupeKey s; Payload := Payload s;
  Clients := Clients s; Tunnels := Tunnels s |}.

(** ** The catalog: the severity of each action *)

Definition activityCatalog : list (string * list (string * string)) := [
  ("client", [
    ("registered", ActivitySeverityInfo); ("online", ActivitySeverityInfo);
    ("offline", ActivitySeverityInfo); ("deleted", ActivitySeverityInfo);
    ("display_name_changed", ActivitySeverityInfo); ("bandwidth_changed", ActivitySeverityInfo)]);
  ("tunnel", [
    ("created", ActivitySeverityInfo); ("updated", ActivitySeverityInfo);
    ("deleted", ActivitySeverityInfo); ("stopped", ActivitySeverityInfo);
    ("resumed", ActivitySeverityInfo); ("migrated", ActivitySeverityInfo);
    ("runtime_changed", ActivitySeverityDebug); ("runtime_error", ActivitySeverityError);
    ("runtime_recovered", ActivitySeverityInfo)]);
  ("p2p", [
    ("session_started", ActivitySeverityDebug); ("tunnel_attached", ActivitySeverityDebug);
    ("tunnel_detached", ActivitySeverityInfo); ("checking", ActivitySeverityDebug);
    ("connected", ActivitySeverityInfo); ("failed", ActivitySeverityError);
    ("fallback", ActivitySeverityWarning); ("session_closed", ActivitySeverityInfo)]);
  ("admin", [
    ("server_config_changed", ActivitySeverityInfo);
    ("activity_retention_changed", ActivitySeverityInfo);
    ("client_auth_rate_limit_changed", ActivitySeverityInfo);
    ("webhook_policy_changed", ActivitySeverityInfo);
    ("client_auth_rate_limit_entry_cleared", ActivitySeverityInfo);
    ("user_created", ActivitySeverityInfo); ("user_username_changed", ActivitySeverityInfo);
    ("user_password_reset", ActivitySeverityInfo); ("user_admin_granted", ActivitySeverityInfo);
    ("user_admin_revoked", ActivitySeverityInfo); ("user_disabled", ActivitySeverityInfo);
    ("user_enabled", ActivitySeverityInfo);
    ("user_convergence_incomplete", ActivitySeverityWarning);
    ("user_sessions_revoked", ActivitySeverityInfo); ("api_key_created", ActivitySeverityInfo);
    ("api_key_enabled", ActivitySeverityInfo); ("api_key_disabled", ActivitySeverityInfo);
    ("api_key_deleted", ActivitySeverityInfo); ("admin_login_succeeded", ActivitySeverityInfo);
    ("admin_logout", ActivitySeverityInfo); ("username_changed", ActivitySeverityInfo);
    ("password_changed", ActivitySeverityInfo); ("totp_enabled", ActivitySeverityInfo);
    ("totp_disabled", ActivitySeverityInfo); ("recovery_codes_regenerated", ActivitySeverityInfo);
    ("passkey_added", ActivitySeverityInfo); ("passkey_renamed", ActivitySeverityInfo);
    ("passkey_deleted", ActivitySeverityInfo)]);
  ("security", [
    ("admin_login_failed", ActivitySeverityWarning);
    ("admin_login_disabled", ActivitySeverityWarning);
    ("admin_login_rate_limited", ActivitySeverityWarning);
    ("mfa_failed", ActivitySeverityWarning); ("mfa_rate_limited", ActivitySeverityWarning);
    ("passkey_login_failed", ActivitySeverityWarning);
    ("session_environment_mismatch", ActivitySeverityWarning);
    ("client_auth_failed", ActivitySeverityWarning);
    ("client_auth_rate_limited", ActivitySeverityWarning)])]%string.

(** Reading a Go map literal. *)
Fixpoint assoc {A} (key : string) (l : list (string * A)) : option A :=
  match l with
  | [] => None
  | (k, x) :: l => if k =?s key then Some x else assoc key l
  end.

(** The severity and the summary key of an entry; every key of the catalog is
    its category and action behind [activity]. *)
Definition catalog_entry (category action : string) : option (string * string) :=
  severity ← assoc category activityCatalog ≫= assoc action;
  Some (severity, "activity." +:+ category +:+ "." +:+ action).

Definition newActivityPayload (category action : string) (args : ActivitySummaryArgs)
  : activityPayloadV1 := {|
  pl_category := category; pl_action := action;
  SummaryKey := match catalog_entry category action with Some e => e.2 | None => "" end;
  SummaryArgs := args; ReasonCode := ""; pl_Before := ""; pl_After := ""; pl_Revision := 0;
  pl_Generation := 0; pl_SessionID := ""; pl_Sequence := 0; Managed := None |}.

Definition newActivityTransitionPayload (category action : string) (args : ActivitySummaryArgs)
    (before after : string) : activityPayloadV1 :=
  (newActivityPayload category action args) <| pl_Before := before |> <| pl_After := after |>.

Definition adminActivitySpec (now : Z) (action : string) (actor : ActivityActor)
    (args : ActivitySummaryArgs) : ActivityEventSpec := {|
  OccurredAt := now; Severity := ""; Category := ActivityCategoryAdmin; Action := action;
  Source := "server"; Actor := if actor_Type actor =?s "" then systemActivityActor else actor;
  ScopeUserID := ""; SubjectUserID := ""; DedupeKey := "";
  Payload := newActivityPayload ActivityCategoryAdmin action args; Clients := []; Tunnels := [] |}.

(** What a reason may say; other actions have no reason. *)
Definition activityReasonAllowlist : list (string * list string) := [
  ("offline", ["normal_closure"; "server_shutdown"; "transport_error"; "timeout"; "user_disabled";
               "data_channel_closed"; "replaced"; "unknown"]);
  ("runtime_error", ["start_failed"; "restore_failed"; "reconcile_failed"; "unknown"]);
  ("failed", ["negotiation_failed"; "direct_only_failed"; "lease_unhealthy"; "lease_expired"; "unknown"]);
  ("fallback", ["negotiation_failed"; "lease_unhealthy"; "lease_expired"; "unknown"]);
  ("session_closed", ["participant_offline"; "lease_unhealthy"; "lease_expired"; "tunnel_stopped";
                      "tunnel_deleted"; "revision_replaced"; "unknown"]);
  ("admin_login_failed", ["bad_credentials"]);
  ("admin_login_disabled", ["user_disabled"]);
  ("admin_login_rate_limited", ["rate_limited"]);
  ("mfa_failed", ["invalid_token"; "invalid_code"; "challenge_consumed"]);
  ("mfa_rate_limited", ["rate_limited"]);
  ("passkey_login_failed", ["invalid_challenge"; "origin_mismatch"; "invalid_response"; "assertion_failed"]);
  ("session_environment_mismatch", ["environment_mismatch"]);
  ("client_auth_failed", ["invalid_token"; "revoked_token"; "expired_token"; "install_mismatch";
                          "invalid_key"; "disabled_key"; "expired_key"; "max_uses_exceeded";
                          "user_disabled"; "concurrent_session"]);
  ("client_auth_rate_limited", ["rate_limited"])]%string.

Definition normalizeActivityReason (action reason : string) : string :=
  match assoc action activityReasonAllowlist with
  | None => ""
  | Some allowed => if existsb (String.eqb reason) allowed then reason else "unknown"
  end.

Definition newActivityClientLifecyclePayload (action reason : string) (generation : Z) (managed : bool)
    (args : ActivitySummaryArgs) : activityPayloadV1 :=
  (newActivityPayload ActivityCategoryClient action args)
    <| ReasonCode := normalizeActivityReason action reason |> <| pl_Generation := generation |>
    <| Managed := Some managed |>.

Definition newActivitySecurityPayload (action reason : string) : activityPayloadV1 :=
  (newActivityPayload "security" action no_args) <| ReasonCode := normalizeActivityReason action reason |>.

(** Every action of the catalog with an administrator's payload is known to
    [prepareSpec]. *)
Example catalog_user_disabled :
  catalog_entry ActivityCategoryAdmin "user_disabled"
  = Some ("info", "activity.admin.user_disabled")%string.
Proof. reflexivity. Qed.
