(* ===== verification/AdminDB.v ===== *)
(** The tables behind users, sessions and credentials
    (internal/server/admin_models.go, migrations/012_multi_user_ownership.sql).

    As in [TunnelStore] a table is a finite map from its primary key, a
    statement is an update of the map and a transaction a function on the
    database.  Of the tables other components own (tunnels, traffic, webhooks)
    only the columns that say whose a row is are kept.  What appends to the
    activity log is the interface [ActivityLog]. *)
From Stdlib Require Import ZArith Lia Ascii String.
From stdpp Require Import base tactics numbers list gmap strings sorting.
From S2P Require Import Prelude Records GoStrings GoTime Activity.

Definition UserStatusActive : string := "active".
Definition UserStatusDisabled : string := "disabled".

(** A row of [users]; the role of [AdminUser] is derived from the flag. *)
Record User := {
  u_ID : string; u_Username : string; u_PasswordHash : string; u_IsAdmin : bool;
  u_Status : string; u_CreatedAt : Z; u_UpdatedAt : Z; u_LastLogin : option Z;
  u_TOTPEnabled : bool; u_TOTPSecret : string;
}.
#[export] Instance User_rebuild : Rebuild User := λ u, {|
  u_ID := u_ID u; u_Username := u_Username u; u_PasswordHash := u_PasswordHash u;
  u_IsAdmin := u_IsAdmin u; u_Status := u_Status u; u_CreatedAt := u_CreatedAt u;
  u_UpdatedAt := u_UpdatedAt u; u_LastLogin := u_LastLogin u; u_TOTPEnabled := u_TOTPEnabled u;
  u_TOTPSecret := u_TOTPSecret u |}.
Definition u_Role (u : User) : string := if u_IsAdmin u then "admin" else "user".

(** A row of [user_sessions]; [AdminSession] adds the user's name and role. *)
Record session_row := {
  sr_ID : string; sr_UserID : string; sr_CreatedAt : Z; sr_ExpiresAt : Z; sr_IP : string;
  sr_UserAgent : string;
}.
Record AdminSession := {
  as_row : session_row; as_Username : string; as_Role : string;
}.

Record AdminAuthChallenge := {
  ch_UserID : option string; ch_Kind : string; ch_SessionJSON : string; ch_MetadataJSON : string;
  ch_CreatedAt : Z; ch_ExpiresAt : Z;
}.
Record recovery_code := {
  rc_UserID : string; rc_CodeHash : string; rc_CreatedAt : Z; rc_UsedAt : option Z;
}.
Record AdminPasskey := {
  pk_UserID : string; pk_Name : string; pk_CredentialID : string; pk_CredentialJSON : string;
  pk_RPID : string; pk_Origin : string; pk_CreatedAt : Z; pk_LastUsedAt : option Z;
}.

Record APIKey := {
  ak_ID : string; ak_OwnerUserID : string; ak_Name : string; ak_KeyHash : string;
  ak_LookupDigest : string; ak_Permissions : list string; ak_CreatedAt : Z;
  ak_ExpiresAt : option Z; ak_IsActive : bool; ak_MaxUses : Z; ak_UseCount : Z;
}.
#[export] Instance APIKey_rebuild : Rebuild APIKey := λ k, {|
  ak_ID := ak_ID k; ak_OwnerUserID := ak_OwnerUserID k; ak_Name := ak_Name k;
  ak_KeyHash := ak_KeyHash k; ak_LookupDigest := ak_LookupDigest k;
  ak_Permissions := ak_Permissions k; ak_CreatedAt := ak_CreatedAt k;
  ak_ExpiresAt := ak_ExpiresAt k; ak_IsActive := ak_IsActive k; ak_MaxUses := ak_MaxUses k;
  ak_UseCount := ak_UseCount k |}.

(** What a client says about itself, as far as it is stored; the capabilities
    as their JSON. *)
Record ClientInfo := {
  ci_Hostname : string; ci_OS : string; ci_Arch : string; ci_IP : string; ci_Version : string;
  ci_PublicIPv4 : string; ci_PublicIPv6 : string; ci_Capabilities : string;
}.
Record RegisteredClient := {
  cl_ID : string; cl_OwnerUserID : string; cl_InstallID : string; cl_DisplayName : string;
  cl_Info : ClientInfo; cl_IngressBPS : Z; cl_EgressBPS : Z; cl_CreatedAt : Z;
  cl_LastSeen : Z; cl_LastIP : string;
}.
#[export] Instance RegisteredClient_rebuild : Rebuild RegisteredClient := λ c, {|
  cl_ID := cl_ID c; cl_OwnerUserID := cl_OwnerUserID c; cl_InstallID := cl_InstallID c;
  cl_DisplayName := cl_DisplayName c; cl_Info := cl_Info c; cl_IngressBPS := cl_IngressBPS c;
  cl_EgressBPS := cl_EgressBPS c; cl_CreatedAt := cl_CreatedAt c;
  cl_LastSeen := cl_LastSeen c; cl_LastIP := cl_LastIP c |}.

Record ClientToken := {
  tk_ID : string; tk_TokenHash : string; tk_InstallID : string; tk_KeyID : string;
  tk_ClientID : string; tk_CreatedAt : Z; tk_LastActiveAt : Z; tk_LastIP : string;
  tk_IsRevoked : bool;
}.
#[export] Instance ClientToken_rebuild : Rebuild ClientToken := λ t, {|
  tk_ID := tk_ID t; tk_TokenHash := tk_TokenHash t; tk_InstallID := tk_InstallID t;
  tk_KeyID := tk_KeyID t; tk_ClientID := tk_ClientID t; tk_CreatedAt := tk_CreatedAt t;
  tk_LastActiveAt := tk_LastActiveAt t; tk_LastIP := tk_LastIP t; tk_IsRevoked := tk_IsRevoked t |}.

(** The columns of [tunnels], [activity_events] and its relation tables that
    are read here. *)
Record tunnel_owner := {
  to_OwnerUserID : option string; to_CreatedByUserID : option string;
  to_Name : string; to_Type : string; to_Topology : string;
}.
#[export] Instance tunnel_owner_rebuild : Rebuild tunnel_owner := λ t, {|
  to_OwnerUserID := to_OwnerUserID t; to_CreatedByUserID := to_CreatedByUserID t;
  to_Name := to_Name t; to_Type := to_Type t; to_Topology := to_Topology t |}.
Record activity_event := {
  ev_ActorType : string; ev_ActorID : string; ev_ScopeUserID : option string;
  ev_SubjectUserID : option string; ev_Category : string; ev_Action : string;
  ev_DedupeKey : option string; ev_Clients : list string; ev_Tunnels : list string;
}.

Record server_config := { sc_initialized : bool; sc_jwt_secret : string; sc_server_addr : string }.
Record PortRange := { pr_Start : Z; pr_End : Z }.

Record admin_db := {
  config : option server_config;
  allowed_ports : list PortRange;
  users : gmap string User;
  user_sessions : gmap string session_row;
  admin_auth_challenges : gmap string AdminAuthChallenge;
  admin_totp_recovery_codes : gmap string recovery_code;
  admin_passkeys : gmap string AdminPasskey;
  api_keys : gmap string APIKey;
  registered_clients : gmap string RegisteredClient;
  client_tokens : gmap string ClientToken;
  tunnels : gmap string tunnel_owner;
  (** The tunnel of each lock. *)
  tunnel_resource_locks : gmap string string;
  (** The owners of the buckets and of the webhooks with their deliveries. *)
  traffic_buckets : gmap Z (option string);
  activity_webhooks : gmap string string;
  activity_events : gmap Z activity_event;
}.
#[export] Instance admin_db_rebuild : Rebuild admin_db := λ db, {|
  config := config db; allowed_ports := allowed_ports db; users := users db;
  user_sessions := user_sessions db; admin_auth_challenges := admin_auth_challenges db;
  admin_totp_recovery_codes := admin_totp_recovery_codes db; admin_passkeys := admin_passkeys db;
  api_keys := api_keys db; registered_clients := registered_clients db;
  client_tokens := client_tokens db; tunnels := tunnels db;
  tunnel_resource_locks := tunnel_resource_locks db; traffic_buckets := traffic_buckets db;
  activity_webhooks := activity_webhooks db; activity_events := activity_events db |}.

(** ** Statements *)

(** [DELETE ... WHERE f] *)
Definition delete_rows {K A} `{Countable K} (f : A → bool) (m : gmap K A) : gmap K A :=
  filter (λ kv, f kv.2 = false) m.
(** [SELECT ... WHERE f], in no particular order. *)
Definition select_rows {K A} `{Countable K} (f : A → bool) (m : gmap K A) : list A :=
  filter (λ x, f x = true) (map_to_list m).*2 .
(** [UPDATE ... SET g WHERE f] *)
Definition update_rows {K A} `{Countable K} (f : A → bool) (g : A → A) (m : gmap K A) : gmap K A :=
  (λ x, if f x then g x else x) <$> m.

(** The effect of a transaction whose statements work out as [body], unless the
    database fails with [sql] (or a failure is injected); it is committed as a
    whole or not at all. *)
Definition transaction {A} (sql : option goerror) (db : admin_db) (body : result (admin_db * A))
  : admin_db * result A :=
  match sql with
  | Some e => (db, Err e)
  | None => match body with
            | Ok (db', a) => (db', Ok a)
            | Err e => (db, Err e)
            end
  end.

Definition owned_by (userID : string) (owner : option string) : bool := bool_decide (owner = Some userID).

(** The rows that go with the users of [gone]: [ON DELETE CASCADE]. *)
Definition cascade_users (gone : string → bool) (db : admin_db) : admin_db :=
  let opt := from_option gone false in
  db <| user_sessions := delete_rows (λ s, gone (sr_UserID s)) (user_sessions db) |>
     <| admin_auth_challenges := delete_rows (λ c, opt (ch_UserID c)) (admin_auth_challenges db) |>
     <| admin_totp_recovery_codes :=
          delete_rows (λ c, gone (rc_UserID c)) (admin_totp_recovery_codes db) |>
     <| admin_passkeys := delete_rows (λ p, gone (pk_UserID p)) (admin_passkeys db) |>
     <| api_keys := delete_rows (λ k, gone (ak_OwnerUserID k)) (api_keys db) |>
     <| registered_clients := delete_rows (λ c, gone (cl_OwnerUserID c)) (registered_clients db) |>
     <| tunnels := delete_rows (λ t, opt (to_OwnerUserID t)) (tunnels db) |>
     <| traffic_buckets := delete_rows opt (traffic_buckets db) |>
     <| activity_webhooks := delete_rows gone (activity_webhooks db) |>
     <| activity_events :=
          delete_rows (λ e, opt (ev_ScopeUserID e) || opt (ev_SubjectUserID e)) (activity_events db) |>.

Definition delete_users (gone : string → bool) (db : admin_db) : admin_db :=
  cascade_users gone (db <| users := delete_rows (λ u, gone (u_ID u)) (users db) |>).

(** ** The activity log

    [appendTx] records an event in the transaction of its producer, and queues
    the deliveries of the webhooks it matches; it touches nothing else. *)
Class ActivityLog := {
  appendTx : ActivityEventSpec → admin_db → result (admin_db * Z);
  append_touches : ∀ spec db db' id, appendTx spec db = Ok (db', id) →
    db' = db <| activity_webhooks := activity_webhooks db' |>
             <| activity_events := activity_events db' |>;
}.

(** A store without an activity log ([s.activityStore == nil]). *)
#[export] Program Instance no_activity_log : ActivityLog := {|
  appendTx := λ _ db, Ok (db, 0);
|}.
Next Obligation. intros _ db db' id [= <- <-]. by destruct db. Qed.

(** ** Lemmas on the statements *)

Lemma lookup_delete_rows {K A} `{Countable K} (f : A → bool) (m : gmap K A) k x :
  delete_rows f m !! k = Some x ↔ m !! k = Some x ∧ f x = false.
Proof. unfold delete_rows. rewrite map_lookup_filter_Some. done. Qed.

Lemma delete_rows_false {K A} `{Countable K} (m : gmap K A) : delete_rows (λ _, false) m = m.
Proof. unfold delete_rows. by apply map_filter_id. Qed.

Lemma elem_of_select_rows {K A} `{Countable K} (f : A → bool) (m : gmap K A) x :
  x ∈ select_rows f m ↔ (∃ k, m !! k = Some x) ∧ f x = true.
Proof.
  unfold select_rows. rewrite list_elem_of_filter, list_elem_of_fmap. split.
  - intros [Hf ([k y] & -> & Hk%elem_of_map_to_list)]. eauto.
  - intros [[k Hk] Hf]. split; [done|]. exists (k, x). by rewrite elem_of_map_to_list.
Qed.

Lemma lookup_update_rows {K A} `{Countable K} (f : A → bool) (g : A → A) (m : gmap K A) k :
  update_rows f g m !! k = (λ x, if f x then g x else x) <$> m !! k.
Proof. unfold update_rows. apply lookup_fmap. Qed.

Lemma transaction_cases {A} sql db (body : result (admin_db * A)) db' r :
  transaction sql db body = (db', r) →
  (∃ a, sql = None ∧ body = Ok (db', a) ∧ r = Ok a) ∨ (db' = db ∧ ∃ e, r = Err e).
Proof.
  unfold transaction. destruct sql as [e|]; [intros [= <- <-]; eauto|].
  destruct body as [[db1 a]|e]; intros [= <- <-]; eauto.
Qed.

Lemma alter_alter {K A} `{Countable K} (f g : A → A) (k : K) (m : gmap K A) :
  alter f k (alter g k m) = alter (f ∘ g) k m.
Proof.
  apply map_eq. intros i. destruct (decide (i = k)) as [->|Hne].
  - rewrite !lookup_alter_eq. by destruct (m !! k).
  - by rewrite !lookup_alter_ne.
Qed.
