(* ===== verification/Users.v ===== *)
(** Users, their sessions and their deletion (internal/server/user_store.go,
    user_policy.go, and the users and sessions of admin_store.go and
    admin_activity_store.go).

    Every operation runs under the mutex of the store and in one transaction:
    it is a function on the database; [sql] is the error its statements (or the
    append to the activity log) fail with, [None] when they do not.  [now] is
    the clock; bcrypt, random identifiers and the Unicode tables are
    arguments. *)
From Stdlib Require Import ZArith Lia Ascii String Strings.Byte.
From stdpp Require Import base tactics numbers list gmap strings sorting.
From S2P Require Import Prelude Records GoStrings GoTime GoUTF8 Activity AdminDB.

Definition ErrUserNotFound : goerror := Sentinel "user not found".
Definition ErrUserMustBeDisabled : goerror := Sentinel "user must be disabled before deletion".
Definition ErrInvalidUserStatus : goerror := Sentinel "invalid user status".
Definition ErrInvalidUsername : goerror := Sentinel "invalid username".
Definition ErrInvalidPassword : goerror := Sentinel "invalid password".
Definition ErrUserAlreadyExists : goerror := Sentinel "username is already in use".
Definition ErrUserOwnerUnavailable : goerror := Sentinel "legacy owner user is unavailable".
Definition ErrUserDisabled : goerror := Sentinel "user is disabled".
Definition ErrLastOperationalAdmin : goerror := Sentinel "at least one active administrator must remain".
Definition ErrSelfUserLifecycleMutation : goerror :=
  Sentinel "current user cannot be disabled or deleted".
Definition ErrUserLifecycleTargetNotFound : goerror := Sentinel "user lifecycle target not found".
Definition ErrUserLifecycleIdentityChange : goerror :=
  Sentinel "user lifecycle mutation cannot change user id".

Definition sessionDefaultTTL : Z := 24 * hour.

(** ** Identifiers *)

Definition hex_digit (n : Z) : ascii :=
  ascii_of_N (Z.to_N (if n <? 10 then 48 + n else 87 + n)).
Fixpoint hex_of (l : list byte) : string :=
  match l with
  | [] => ""
  | b :: l => let z := Z.of_N (Byte.to_N b) in
              String (hex_digit (z / 16)) (String (hex_digit (z mod 16)) (hex_of l))
  end.
Definition set_bits (mask bits : Z) (b : byte) : byte :=
  default x00 (Byte.of_N (Z.to_N (Z.lor (Z.land (Z.of_N (Byte.to_N b)) mask) bits))).

(** [buf] are the sixteen bytes read from the random source, which may fail. *)
Definition generateUUIDE (buf : result (list byte)) : result string :=
  match buf with
  | Err e => Err (Wrapf "failed to generate uuid: %w" e)
  | Ok buf =>
      let buf := alter (set_bits 0x3f 0x80) 8%nat (alter (set_bits 0x0f 0x40) 6%nat buf) in
      let part i n := hex_of (take n (drop i buf)) in
      Ok (part 0 4 +:+ "-" +:+ part 4 2 +:+ "-" +:+ part 6 2 +:+ "-" +:+ part 8 2 +:+ "-"
          +:+ part 10 6)%nat
  end.

(** ** The policy (user_policy.go) *)

Definition isOperationalUser (user : User) : bool :=
  negb (u_ID user =?s "") && (u_Status user =?s UserStatusActive).

Fixpoint count_operational (before after : User) (deleting : bool) (users : list User)
    (found : bool) (admins : Z) : bool * Z :=
  match users with
  | [] => (found, admins)
  | user :: users =>
      let target := u_ID user =?s u_ID before in
      let found := found || target in
      if target && deleting then count_operational before after deleting users found admins else
      let user := if target then after else user in
      count_operational before after deleting users found
        (if u_IsAdmin user && isOperationalUser user then admins + 1 else admins)
  end.

Definition validateUserLifecycleMutation (users : list User) (actorUserID : string)
    (before after : User) (deleting : bool) : result unit :=
  if u_ID before =?s "" then Err ErrUserLifecycleTargetNotFound else
  if negb (u_ID after =?s u_ID before) then Err ErrUserLifecycleIdentityChange else
  if (actorUserID =?s u_ID before) && (deleting || (u_Status after =?s UserStatusDisabled))
  then Err ErrSelfUserLifecycleMutation else
  let '(foundTarget, operationalAdmins) := count_operational before after deleting users false 0 in
  if negb foundTarget then Err ErrUserLifecycleTargetNotFound else
  if operationalAdmins =? 0 then Err ErrLastOperationalAdmin else Ok tt.

(** ** Reading *)

Definition getUserInTx (db : admin_db) (userID : string) : result User :=
  match users db !! userID with Some user => Ok user | None => Err ErrUserNotFound end.

(** [ORDER BY created_at, id] *)
Definition oldest_first (a b : User) : Prop :=
  (formatTime (u_CreatedAt a) <?s formatTime (u_CreatedAt b)) = true ∨
  formatTime (u_CreatedAt a) = formatTime (u_CreatedAt b) ∧ String.le (u_ID a) (u_ID b).
#[export] Instance oldest_first_dec a b : Decision (oldest_first a b).
Proof. unfold oldest_first. apply _. Defined.

Definition listUsersInTx (db : admin_db) : list User :=
  merge_sort oldest_first (map_to_list (users db)).*2 .

Definition legacyOwnerUserIDInTx (db : admin_db) : result string :=
  match filter (λ u, u_IsAdmin u && (u_Status u =?s UserStatusActive) = true) (listUsersInTx db) with
  | user :: _ => Ok (u_ID user)
  | [] => Err ErrUserOwnerUnavailable
  end.

Definition ensureOperationalUserInTx (db : admin_db) (userID : string) : result unit :=
  if userID =?s "" then Err ErrUserNotFound else
  match users db !! userID with
  | None => Err ErrUserNotFound
  | Some user => if negb (u_Status user =?s UserStatusActive) then Err ErrUserDisabled else Ok tt
  end.

Definition IsUserOperational (db : admin_db) (userID : string) : result bool :=
  if userID =?s "" then Err ErrUserNotFound else
  match users db !! userID with
  | None => Err ErrUserNotFound
  | Some user => Ok (u_Status user =?s UserStatusActive)
  end.

Definition initialized (db : admin_db) : bool :=
  match config db with Some c => sc_initialized c | None => false end.

Definition normalizeUsername (username : string) : result string :=
  let username := trim_space username in
  if username =?s "" then Err (Wrapf "%w: username is required" ErrInvalidUsername) else Ok username.

Section Users.
Context {log : ActivityLog}.
(** Runes from 128 on that [unicode.IsLetter] and [unicode.IsDigit] accept. *)
Context (unicode_letter unicode_digit : N → bool).
Context (bcrypt_generate : string → result string) (bcrypt_compare : string → string → bool).
Context (now : Z).

Definition is_letter (r : N) : bool :=
  if (r <? 128)%N then in_range 65 90 r || in_range 97 122 r else unicode_letter r.
Definition is_digit_rune (r : N) : bool :=
  if (r <? 128)%N then in_range 48 57 r else unicode_digit r.

Definition validatePassword (password : string) : result unit :=
  if strlen password <? 8 then Err (Errorf "password must be at least 8 characters" []) else
  if negb (existsb is_letter (runes password) && existsb is_digit_rune (runes password))
  then Err (Errorf "password must contain both letters and digits" []) else Ok tt.

Definition error_text (e : goerror) : string :=
  match e with Errorf text _ => text | Wrapf text _ => text | Sentinel text => text end.

Definition checked_password (password : string) : result string :=
  match validatePassword password with
  | Err e => Err (Wrapf ("%w: password does not meet requirements: " +:+ error_text e) ErrInvalidPassword)
  | Ok _ => match bcrypt_generate password with
            | Err e => Err (Wrapf "hash user password: %w" e)
            | Ok hash => Ok hash
            end
  end.

(** ** Statements on [users] and [user_sessions] *)

Definition username_taken (id username : string) (db : admin_db) : bool :=
  existsb (λ ku, negb (ku.1 =?s id) && (u_Username ku.2 =?s username)) (map_to_list (users db)).

Definition insert_user (user : User) (db : admin_db) : result admin_db :=
  if bool_decide (is_Some (users db !! u_ID user)) || username_taken (u_ID user) (u_Username user) db
  then Err ErrUserAlreadyExists else Ok (db <| users := <[u_ID user := user]> (users db) |>).

Definition update_user (id : string) (f : User → User) (db : admin_db) : admin_db :=
  db <| users := alter f id (users db) |>.

Definition delete_sessions_of (userID : string) (db : admin_db) : admin_db :=
  db <| user_sessions := delete_rows (λ s, sr_UserID s =?s userID) (user_sessions db) |>.
Definition delete_challenges_of (userID : string) (db : admin_db) : admin_db :=
  db <| admin_auth_challenges :=
          delete_rows (λ c, owned_by userID (ch_UserID c)) (admin_auth_challenges db) |>.
Definition delete_passkeys_of (userID : string) (db : admin_db) : admin_db :=
  db <| admin_passkeys := delete_rows (λ p, pk_UserID p =?s userID) (admin_passkeys db) |>.
Definition delete_codes_of (userID : string) (db : admin_db) : admin_db :=
  db <| admin_totp_recovery_codes :=
          delete_rows (λ c, rc_UserID c =?s userID) (admin_totp_recovery_codes db) |>.

Definition revokeUserLoginStateTx (userID : string) (db : admin_db) : admin_db :=
  delete_challenges_of userID (delete_sessions_of userID db).

Definition userManagementActivitySpec (action : string) (target : User) (actor : ActivityActor)
    (args : ActivitySummaryArgs) : ActivityEventSpec :=
  (adminActivitySpec now action actor args)
    <| ScopeUserID := u_ID target |> <| SubjectUserID := u_ID target |>.

(** The operations without an actor record nothing. *)
Definition record (action : string) (target : User) (actor : option ActivityActor)
    (db : admin_db) : result (admin_db * Z) :=
  match actor with
  | None => Ok (db, 0)
  | Some actor =>
      appendTx (userManagementActivitySpec action target actor
                  (no_args <| args_ResourceName := u_Username target |>)) db
  end.

(** ** Managing users *)

Definition createUser (sql : option goerror) (random : result (list byte)) (username password : string)
    (actor : option ActivityActor) (db : admin_db) : admin_db * result (User * Z) :=
  match (username ← normalizeUsername username;
         hash ← checked_password password;
         userID ← generateUUIDE random;
         Ok {| u_ID := userID; u_Username := username; u_PasswordHash := hash; u_IsAdmin := false;
               u_Status := UserStatusActive; u_CreatedAt := now; u_UpdatedAt := now;
               u_LastLogin := None; u_TOTPEnabled := false; u_TOTPSecret := "" |}) with
  | Err e => (db, Err e)
  | Ok user =>
      transaction sql db (
        db ← insert_user user db;
        '(db, id) ← record "user_created" user actor db;
        Ok (db, (user, id)))
  end.

Definition updateUserUsername (sql : option goerror) (userID username : string)
    (actor : option ActivityActor) (db : admin_db) : admin_db * result (User * Z) :=
  match normalizeUsername username with
  | Err e => (db, Err e)
  | Ok username =>
      transaction sql db (
        user ← getUserInTx db userID;
        let renamed u := u <| u_Username := username |> <| u_UpdatedAt := now |> in
        if username_taken userID username db then Err ErrUserAlreadyExists else
        let db := delete_sessions_of userID (update_user userID renamed db) in
        '(db, id) ← record "user_username_changed" (renamed user) actor db;
        Ok (db, (renamed user, id)))
  end.

Definition resetUserPassword (sql : option goerror) (userID password : string)
    (actor : option ActivityActor) (db : admin_db) : admin_db * result (User * Z) :=
  match checked_password password with
  | Err e => (db, Err e)
  | Ok hash =>
      transaction sql db (
        user ← getUserInTx db userID;
        let changed u := u <| u_PasswordHash := hash |> <| u_UpdatedAt := now |> in
        let db := revokeUserLoginStateTx userID (update_user userID changed db) in
        '(db, id) ← record "user_password_reset" (changed user) actor db;
        Ok (db, (changed user, id)))
  end.

Definition setUserAdmin (sql : option goerror) (actorUserID userID : string) (isAdmin : bool)
    (actor : option ActivityActor) (db : admin_db) : admin_db * result (User * bool * Z) :=
  transaction sql db (
    before ← getUserInTx db userID;
    let after := before <| u_IsAdmin := isAdmin |> in
    _ ← validateUserLifecycleMutation (listUsersInTx db) actorUserID before after false;
    if Bool.eqb (u_IsAdmin before) isAdmin then Ok (db, (before, false, 0)) else
    let db := delete_sessions_of userID
                (update_user userID (λ u, u <| u_IsAdmin := isAdmin |> <| u_UpdatedAt := now |>) db) in
    let db := if isAdmin then db else
                delete_challenges_of userID (delete_passkeys_of userID (delete_codes_of userID
                  (update_user userID (λ u, u <| u_TOTPEnabled := false |> <| u_TOTPSecret := "" |>) db))) in
    let after := after <| u_UpdatedAt := now |> in
    '(db, id) ← record (if isAdmin then "user_admin_granted" else "user_admin_revoked") after actor db;
    Ok (db, (after, true, id))).

Definition setUserStatus (sql : option goerror) (actorUserID userID status : string)
    (actor : option ActivityActor) (db : admin_db) : admin_db * result (User * bool * Z) :=
  if negb (status =?s UserStatusActive) && negb (status =?s UserStatusDisabled)
  then (db, Err ErrInvalidUserStatus) else
  transaction sql db (
    before ← getUserInTx db userID;
    let after := before <| u_Status := status |> in
    _ ← validateUserLifecycleMutation (listUsersInTx db) actorUserID before after false;
    if u_Status before =?s status then
      Ok (if status =?s UserStatusDisabled then revokeUserLoginStateTx userID db else db,
          (before, false, 0))
    else
    let db := update_user userID (λ u, u <| u_Status := status |> <| u_UpdatedAt := now |>) db in
    let db := if status =?s UserStatusDisabled then revokeUserLoginStateTx userID db else db in
    let after := after <| u_UpdatedAt := now |> in
    '(db, id) ← record (if status =?s UserStatusDisabled then "user_disabled" else "user_enabled")
                  after actor db;
    Ok (db, (after, true, id))).

(** ** Deletion *)

(** [userActivityDeletionPredicate] *)
Definition user_activity (userID : string) (db : admin_db) (e : activity_event) : bool :=
  let mine owner := bool_decide (owner = Some userID) in
  let my_client c := mine (cl_OwnerUserID <$> registered_clients db !! c) in
  let my_tunnel t := mine (tunnels db !! t ≫= to_OwnerUserID) in
  owned_by userID (ev_ScopeUserID e) || owned_by userID (ev_SubjectUserID e)
  || (((ev_ActorType e =?s "admin") || (ev_ActorType e =?s "user")) && (ev_ActorID e =?s userID))
  || ((ev_ActorType e =?s "client") && my_client (ev_ActorID e))
  || existsb my_client (ev_Clients e) || existsb my_tunnel (ev_Tunnels e).

Record UserDeletionImpact := {
  im_UserID : string; im_APIKeys : Z; im_Clients : Z; im_Tunnels : Z; im_TrafficBuckets : Z;
  im_ActivityEvents : Z; im_GeneratedAt : Z;
}.

Definition count_rows {K A} `{Countable K} (f : A → bool) (m : gmap K A) : Z :=
  Z.of_nat (size (filter (λ kv, f kv.2 = true) m)).

Definition GetUserDeletionImpact (db : admin_db) (userID : string) : result UserDeletionImpact :=
  if bool_decide (is_Some (users db !! userID)) then
    Ok {| im_UserID := userID;
          im_APIKeys := count_rows (λ k, ak_OwnerUserID k =?s userID) (api_keys db);
          im_Clients := count_rows (λ c, cl_OwnerUserID c =?s userID) (registered_clients db);
          im_Tunnels := count_rows (λ t, owned_by userID (to_OwnerUserID t)) (tunnels db);
          im_TrafficBuckets := count_rows (owned_by userID) (traffic_buckets db);
          im_ActivityEvents := count_rows (user_activity userID db) (activity_events db);
          im_GeneratedAt := now |}
  else Err ErrUserNotFound.

(** [created_by_user_id = ? AND owner_user_id <> ?], where NULL is not unequal *)
Definition created_for_others (userID : string) (t : tunnel_owner) : bool :=
  owned_by userID (to_CreatedByUserID t)
  && match to_OwnerUserID t with Some o => negb (o =?s userID) | None => false end.

Definition my_tunnel_lock (userID : string) (db : admin_db) (tunnelID : string) : bool :=
  match tunnels db !! tunnelID with Some t => owned_by userID (to_OwnerUserID t) | None => false end.

(** Tokens of the user's clients, and of their installations. *)
Definition my_token (userID : string) (db : admin_db) (t : ClientToken) : bool :=
  match registered_clients db !! tk_ClientID t with
  | Some c => cl_OwnerUserID c =?s userID
  | None => false
  end
  || (negb (tk_InstallID t =?s "")
      && existsb (λ c, (cl_OwnerUserID c =?s userID) && negb (cl_InstallID c =?s "")
                       && (cl_InstallID c =?s tk_InstallID t))
           (map_to_list (registered_clients db)).*2).

(** The statements of [DeleteDisabledUser], in their order. *)
Definition delete_user_rows (userID : string) (db : admin_db) : admin_db :=
  let db := db <| tunnels := update_rows (created_for_others userID)
                               (λ t, t <| to_CreatedByUserID := None |>) (tunnels db) |> in
  let db := db <| activity_events := delete_rows (user_activity userID db) (activity_events db) |> in
  let db := db <| traffic_buckets := delete_rows (owned_by userID) (traffic_buckets db) |> in
  let db := db <| tunnel_resource_locks :=
                    delete_rows (my_tunnel_lock userID db) (tunnel_resource_locks db) |> in
  let db := db <| tunnels := delete_rows (λ t, owned_by userID (to_OwnerUserID t)) (tunnels db) |> in
  let db := db <| client_tokens := delete_rows (my_token userID db) (client_tokens db) |> in
  let db := db <| registered_clients :=
                    delete_rows (λ c, cl_OwnerUserID c =?s userID) (registered_clients db) |> in
  let db := db <| api_keys := delete_rows (λ k, ak_OwnerUserID k =?s userID) (api_keys db) |> in
  let db := delete_challenges_of userID (delete_passkeys_of userID
              (delete_codes_of userID (delete_sessions_of userID db))) in
  delete_users (String.eqb userID) db.

Definition DeleteDisabledUser (sql : option goerror) (actorUserID userID : string) (db : admin_db)
  : admin_db * result unit :=
  transaction sql db (
    before ← getUserInTx db userID;
    if actorUserID =?s u_ID before then Err ErrSelfUserLifecycleMutation else
    if negb (u_Status before =?s UserStatusDisabled) then Err ErrUserMustBeDisabled else
    _ ← validateUserLifecycleMutation (listUsersInTx db) actorUserID before before true;
    Ok (delete_user_rows userID db, tt)).

(** ** Sessions *)

Definition createSessionForActiveUserTx (sessionID userID ip ua : string) (db : admin_db)
  : result (admin_db * (AdminSession * User)) :=
  user ← getUserInTx db userID;
  if negb (u_Status user =?s UserStatusActive) then Err ErrUserDisabled else
  let row := {| sr_ID := sessionID; sr_UserID := u_ID user; sr_CreatedAt := now;
                sr_ExpiresAt := now + sessionDefaultTTL; sr_IP := ip; sr_UserAgent := ua |} in
  let session := {| as_row := row; as_Username := u_Username user; as_Role := u_Role user |} in
  let db := delete_sessions_of userID db in
  if bool_decide (is_Some (user_sessions db !! sessionID)) then Err (Sentinel "constraint failed") else
  let db := db <| user_sessions := <[sessionID := row]> (user_sessions db) |> in
  let seen u := u <| u_LastLogin := Some now |> <| u_UpdatedAt := now |> in
  Ok (update_user userID seen db, (session, seen user)).

Definition CreateSession (sql : option goerror) (random : result (list byte))
    (userID username role ip ua : string) (db : admin_db) : admin_db * result AdminSession :=
  match generateUUIDE random with
  | Err e => (db, Err e)
  | Ok sessionID =>
      transaction sql db (
        '(db, (session, _)) ← createSessionForActiveUserTx sessionID userID ip ua db;
        Ok (db, session))
  end.

Definition CreateSessionWithActivity (sql : option goerror) (random : result (list byte))
    (userID username role ip ua : string) (actor : ActivityActor) (db : admin_db)
  : admin_db * result (AdminSession * Z) :=
  match generateUUIDE random with
  | Err e => (db, Err e)
  | Ok sessionID =>
      transaction sql db (
        '(db, (session, user)) ← createSessionForActiveUserTx sessionID userID ip ua db;
        let actor := actor <| actor_ID := u_ID user |> <| actor_Name := u_Username user |>
                           <| actor_Type := u_Role user |> in
        let spec := (adminActivitySpec now "admin_login_succeeded" actor no_args)
                      <| SubjectUserID := u_ID user |> in
        let spec := if u_IsAdmin user then spec else spec <| ScopeUserID := u_ID user |> in
        '(db, id) ← appendTx spec db;
        Ok (db, (session, id)))
  end.

(** A session is only found with a user who is active, and before it expires. *)
Definition GetSession (db : admin_db) (sessionID : string) : option AdminSession :=
  row ← user_sessions db !! sessionID;
  user ← users db !! sr_UserID row;
  if negb (u_Status user =?s UserStatusActive) then None else
  if sr_ExpiresAt row <? now then None else
  Some {| as_row := row; as_Username := u_Username user; as_Role := u_Role user |}.

Definition DeleteSession (sql : option goerror) (sessionID : string) (db : admin_db)
  : admin_db * result unit :=
  transaction sql db (
    Ok (db <| user_sessions := delete sessionID (user_sessions db) |>, tt)).

Definition DeleteSessionWithActivity (sql : option goerror) (sessionID : string)
    (actor : ActivityActor) (db : admin_db) : admin_db * result Z :=
  transaction sql db (
    if bool_decide (is_Some (user_sessions db !! sessionID)) then
      let db := db <| user_sessions := delete sessionID (user_sessions db) |> in
      '(db, id) ← appendTx (adminActivitySpec now "admin_logout" actor no_args) db;
      Ok (db, id)
    else Err (Sentinel "sql: no rows in result set")).

Definition DeleteSessionsByUserID (sql : option goerror) (userID : string) (db : admin_db)
  : admin_db * result unit :=
  transaction sql db (Ok (delete_sessions_of userID db, tt)).

Definition DeleteSessionsByUserIDWithActivity (sql : option goerror) (userID : string)
    (actor : ActivityActor) (db : admin_db) : admin_db * result Z :=
  transaction sql db (
    target ← getUserInTx db userID;
    record "user_sessions_revoked" target (Some actor) (delete_sessions_of userID db)).

Definition CleanExpiredSessions (sql : option goerror) (db : admin_db) : admin_db * result unit :=
  transaction sql db (
    Ok (db <| user_sessions := delete_rows (λ s, text_le (sr_ExpiresAt s) now) (user_sessions db) |>, tt)).

(** ** Logging in *)

Definition ValidateUserPassword (db : admin_db) (username password : string) : result User :=
  match select_rows (λ u, u_Username u =?s username) (users db) with
  | [] => Err (Errorf "incorrect username or password" [])
  | user :: _ =>
      if negb (bcrypt_compare (u_PasswordHash user) password)
      then Err (Errorf "incorrect username or password" []) else
      if negb (u_Status user =?s UserStatusActive) then Err ErrUserDisabled else Ok user
  end.

Definition ValidateAdminPassword (db : admin_db) (username password : string) : result User :=
  user ← ValidateUserPassword db username password;
  if negb (u_IsAdmin user) then Err (Errorf "incorrect username or password" []) else Ok user.

Definition UpdateAdminLoginTime (sql : option goerror) (id : string) (db : admin_db)
  : admin_db * result unit :=
  transaction sql db (
    Ok (update_user id (λ u, u <| u_LastLogin := Some now |> <| u_UpdatedAt := now |>) db, tt)).

(** ** Setting the server up *)

(** [secret] are the random bytes of the JWT secret. *)
Definition Initialize (sql : option goerror) (random secret : result (list byte))
    (username password serverAddr : string) (allowedPorts : list PortRange) (db : admin_db)
  : admin_db * result unit :=
  match (_ ← match validatePassword password with
             | Err e => Err (Wrapf "password does not meet requirements: %w" e) | Ok _ => Ok tt end;
         hash ← match bcrypt_generate password with
                | Err e => Err (Wrapf "failed to hash password: %w" e) | Ok hash => Ok hash end;
         secret ← match secret with
                  | Err e => Err (Wrapf "failed to generate JWT secret: %w" e) | Ok s => Ok (hex_of s) end;
         userID ← generateUUIDE random;
         Ok (secret, {| u_ID := userID; u_Username := username; u_PasswordHash := hash;
                        u_IsAdmin := true; u_Status := UserStatusActive; u_CreatedAt := now;
                        u_UpdatedAt := now; u_LastLogin := None; u_TOTPEnabled := false;
                        u_TOTPSecret := "" |})) with
  | Err e => (db, Err e)
  | Ok (secret, user) =>
      transaction sql db (
        if initialized db
        then Err (Errorf "service is already initialized; cannot initialize again" []) else
        let db := delete_users (λ _, true) (db <| user_sessions := ∅ |>) in
        let db := db <| admin_auth_challenges := ∅ |> <| admin_passkeys := ∅ |>
                     <| admin_totp_recovery_codes := ∅ |> in
        let db := db <| users := {[u_ID user := user]} |>
                     <| config := Some {| sc_initialized := true; sc_jwt_secret := secret;
                                          sc_server_addr := serverAddr |} |>
                     <| allowed_ports := allowedPorts |> in
        Ok (db, tt))
  end.

Definition ResetAdminUser (sql : option goerror) (username password : string) (db : admin_db)
  : admin_db * result unit :=
  let username := trim_space username in
  if username =?s "" then (db, Err (Errorf "admin username is required" [])) else
  match validatePassword password with
  | Err e => (db, Err (Wrapf "password does not meet requirements: %w" e))
  | Ok _ =>
  match bcrypt_generate password with
  | Err e => (db, Err (Wrapf "failed to hash password: %w" e))
  | Ok hash =>
      transaction sql db (
        if negb (initialized db)
        then Err (Errorf "service is not initialized; cannot reset admin user" []) else
        match filter (λ u, u_IsAdmin u = true) (listUsersInTx db) with
        | [] => Err (Errorf "service has no administrator to reset" [])
        | admin :: _ =>
            let userID := u_ID admin in
            if username_taken userID username db then Err (Sentinel "constraint failed") else
            let db := update_user userID (λ u,
                        u <| u_Username := username |> <| u_PasswordHash := hash |>
                          <| u_IsAdmin := true |> <| u_Status := UserStatusActive |>
                          <| u_UpdatedAt := now |> <| u_LastLogin := None |>
                          <| u_TOTPEnabled := false |> <| u_TOTPSecret := "" |>) db in
            Ok (delete_codes_of userID (delete_passkeys_of userID
                  (delete_challenges_of userID (delete_sessions_of userID db))), tt)
        end)
  end
  end.
End Users.
