(* ===== verification/UsersInv.v ===== *)
(** The invariant of the user tables ([Users]): who exists, who administers,
    and who is logged in, over every run of operations. *)
From Stdlib Require Import ZArith Lia Ascii String Strings.Byte.
From stdpp Require Import base tactics numbers list gmap strings sorting relations.
From S2P Require Import Prelude Records GoStrings GoTime GoUTF8 Activity AdminDB Users.

(** ** Identifiers are not empty *)

Lemma generateUUIDE_nonempty random id : generateUUIDE random = Ok id → id ≠ ""%string.
Proof.
  unfold generateUUIDE. destruct random as [buf|e]; [|done]. intros [= <-].
  destruct (hex_of _); cbn; done.
Qed.

(** ** The users *)

Definition operational_admin (u : User) : bool := u_IsAdmin u && isOperationalUser u.

(** What is known of the tables of users and sessions. *)
Record users_ok (db : admin_db) : Prop := {
  uo_id : ∀ id u, users db !! id = Some u → u_ID u = id ∧ id ≠ ""%string;
  uo_name : ∀ id1 id2 u1 u2, users db !! id1 = Some u1 → users db !! id2 = Some u2 →
    u_Username u1 = u_Username u2 → id1 = id2;
  uo_status : ∀ id u, users db !! id = Some u →
    u_Status u = UserStatusActive ∨ u_Status u = UserStatusDisabled;
  uo_admin : initialized db = true →
    ∃ id u, users db !! id = Some u ∧ operational_admin u = true;
  uo_session : ∀ id s, user_sessions db !! id = Some s →
    sr_ID s = id ∧ ∃ u, users db !! sr_UserID s = Some u ∧ u_Status u = UserStatusActive;
  uo_single : ∀ id1 id2 s1 s2, user_sessions db !! id1 = Some s1 → user_sessions db !! id2 = Some s2 →
    sr_UserID s1 = sr_UserID s2 → id1 = id2;
}.

(** The tables the invariant reads. *)
Definition same_users (db db' : admin_db) : Prop :=
  users db' = users db ∧ user_sessions db' = user_sessions db ∧ initialized db' = initialized db.

Lemma users_ok_same db db' : same_users db db' → users_ok db → users_ok db'.
Proof.
  intros (Eu & Es & Ei) [H1 H2 H3 H4 H5 H6].
  split; rewrite ?Eu, ?Es, ?Ei; done.
Qed.

Lemma append_same_users `{ActivityLog} spec db db' id :
  appendTx spec db = Ok (db', id) → same_users db db'.
Proof. intros Ha. rewrite (append_touches _ _ _ _ Ha). by destruct db. Qed.

Lemma record_same_users `{ActivityLog} now action target actor db db' id :
  record now action target actor db = Ok (db', id) → same_users db db'.
Proof.
  unfold record. destruct actor; [apply append_same_users|by intros [= -> _]].
Qed.

(** *** The policy *)

Definition remains_admin (before after : User) (deleting : bool) (u : User) : bool :=
  if u_ID u =?s u_ID before then negb deleting && operational_admin after else operational_admin u.

Lemma count_operational_spec before after deleting l found admins :
  count_operational before after deleting l found admins
  = (found || existsb (λ u, u_ID u =?s u_ID before) l,
     admins + Z.of_nat (length (filter (λ u, remains_admin before after deleting u = true) l))).
Proof.
  revert found admins. induction l as [|u l IH]; intros found admins; cbn [count_operational existsb].
  { rewrite filter_nil. by rewrite orb_false_r, Z.add_0_r. }
  rewrite filter_cons. case_decide as Hr; unfold remains_admin, operational_admin in Hr;
    (destruct (u_ID u =?s u_ID before)%string; [destruct deleting|]; cbn [andb negb] in *);
    rewrite IH, <- orb_assoc; f_equal; cbn [length]; try done; try (rewrite Hr; lia);
    (destruct (u_IsAdmin _ && isOperationalUser _); [done|lia]).
Qed.

Lemma elem_of_listUsersInTx db u : u ∈ listUsersInTx db ↔ ∃ id, users db !! id = Some u.
Proof.
  unfold listUsersInTx. rewrite merge_sort_Permutation, list_elem_of_fmap. split.
  - intros ([id v] & -> & Hv%elem_of_map_to_list). eauto.
  - intros [id Hid]. exists (id, u). by rewrite elem_of_map_to_list.
Qed.

(** A mutation the policy lets through leaves an operational administrator. *)
Lemma validate_leaves_admin db actor before after deleting :
  validateUserLifecycleMutation (listUsersInTx db) actor before after deleting = Ok tt →
  u_ID after = u_ID before ∧
  (∃ id u, users db !! id = Some u ∧ remains_admin before after deleting u = true) ∧
  (actor = u_ID before → deleting = false ∧ u_Status after ≠ UserStatusDisabled).
Proof.
  unfold validateUserLifecycleMutation. destruct (_ =?s "")%string; [done|].
  destruct (String.eqb_spec (u_ID after) (u_ID before)) as [E|]; [|done]. cbn [negb].
  destruct ((actor =?s u_ID before) && _) eqn:Es; [done|].
  rewrite count_operational_spec. cbn [orb]. destruct (existsb _ _); cbn [negb]; [|done].
  destruct (filter (λ u, remains_admin before after deleting u = true) (listUsersInTx db))
    as [|u l] eqn:Ef; [done|].
  intros _. split; [done|]. split.
  - assert (Hu : u ∈ filter (λ u, remains_admin before after deleting u = true) (listUsersInTx db))
      by (rewrite Ef; apply list_elem_of_here).
    apply list_elem_of_filter in Hu as [Hu [id Hid]%elem_of_listUsersInTx]. eauto.
  - intros ->. rewrite String.eqb_refl in Es. cbn in Es. apply orb_false_iff in Es as [-> Hs].
    split; [done|]. by apply String.eqb_neq.
Qed.

(** *** One user changes, sessions go *)

Lemma users_ok_update db db' id f :
  users_ok db → users db' = alter f id (users db) → initialized db' = initialized db →
  (∀ u, users db !! id = Some u →
     u_ID (f u) = u_ID u ∧ (u_Status (f u) = UserStatusActive ∨ u_Status (f u) = UserStatusDisabled) ∧
     username_taken id (u_Username (f u)) db = false) →
  (initialized db = true → ∃ id' u', users db' !! id' = Some u' ∧ operational_admin u' = true) →
  (∀ k s, user_sessions db' !! k = Some s → user_sessions db !! k = Some s ∧
     ∀ u, sr_UserID s = id → users db !! id = Some u → u_Status (f u) = UserStatusActive) →
  users_ok db'.
Proof.
  intros [Hid Hname Hstatus Hadmin Hsess Hone] Eu Ei Hf Ha Hs.
  assert (Hcase : ∀ i u, users db' !! i = Some u →
    (i = id ∧ ∃ v, users db !! id = Some v ∧ u = f v) ∨ (i ≠ id ∧ users db !! i = Some u)).
  { intros i u. rewrite Eu. destruct (decide (i = id)) as [->|Hne].
    - rewrite lookup_alter_eq. intros (v & -> & Hv)%fmap_Some. eauto.
    - rewrite lookup_alter_ne by done. eauto. }
  assert (Hfree : ∀ i u v, i ≠ id → users db !! i = Some u → users db !! id = Some v →
    u_Username u ≠ u_Username (f v)).
  { intros i u v Hne Hi Hv E. destruct (Hf v Hv) as (_ & _ & Ht).
    assert (Hin : (i, u) ∈ map_to_list (users db)) by by apply elem_of_map_to_list.
    unfold username_taken in Ht. apply not_true_iff_false in Ht. apply Ht, existsb_exists. exists (i, u).
    rewrite <- list_elem_of_In. split; [done|]. cbn. rewrite E, String.eqb_refl.
    by rewrite (proj2 (String.eqb_neq _ _) Hne). }
  split; rewrite ?Ei.
  - intros i u [[-> (v & Hv & ->)]|[_ Hi]]%Hcase; [|by apply Hid].
    destruct (Hf v Hv) as (-> & _ & _). by apply Hid.
  - intros i1 i2 u1 u2 [[-> (v1 & H1 & ->)]|[N1 H1]]%Hcase [[-> (v2 & H2 & ->)]|[N2 H2]]%Hcase E; [done| | |].
    + symmetry in E. exfalso. by apply (Hfree _ _ _ N2 H2 H1).
    + exfalso. by apply (Hfree _ _ _ N1 H1 H2).
    + by apply (Hname _ _ _ _ H1 H2).
  - intros i u [[-> (v & Hv & ->)]|[_ Hi]]%Hcase; [by apply Hf|by apply (Hstatus i)].
  - exact Ha.
  - intros k s (Hk & Hact)%Hs. destruct (Hsess k s Hk) as (Ek & u & Hu & Hsu). split; [done|].
    destruct (decide (sr_UserID s = id)) as [Es|Es].
    + rewrite Es in Hu |- *. exists (f u). rewrite Eu, lookup_alter_eq, Hu. split; [done|]. by apply Hact.
    + exists u. by rewrite Eu, lookup_alter_ne.
  - intros k1 k2 s1 s2 [H1 _]%Hs [H2 _]%Hs. by apply Hone.
Qed.

(** The flag that makes an administrator and the status stay. *)
Lemma admin_stays db id f :
  users_ok db → initialized db = true →
  (∀ u, users db !! id = Some u → operational_admin u = true → operational_admin (f u) = true) →
  ∃ id' u', alter f id (users db) !! id' = Some u' ∧ operational_admin u' = true.
Proof.
  intros Hok Hi Hf. destruct (uo_admin _ Hok Hi) as (i & u & Hu & Ha). exists i.
  destruct (decide (i = id)) as [->|Hne].
  - exists (f u). rewrite lookup_alter_eq, Hu. split; [done|]. by apply Hf.
  - exists u. by rewrite lookup_alter_ne.
Qed.

(** A change that leaves identity, name, status and the flag alone. *)
Definition plain_update (f : User → User) : Prop :=
  ∀ u, u_ID (f u) = u_ID u ∧ u_Username (f u) = u_Username u ∧ u_Status (f u) = u_Status u
       ∧ u_IsAdmin (f u) = u_IsAdmin u.

Lemma username_free db id u :
  users_ok db → users db !! id = Some u → username_taken id (u_Username u) db = false.
Proof.
  intros Hok Hu. apply not_true_iff_false. unfold username_taken. rewrite existsb_exists.
  intros ([i v] & Hin%list_elem_of_In%elem_of_map_to_list & Hb). cbn in Hb.
  apply andb_true_iff in Hb as [Hn E%String.eqb_eq].
  rewrite (uo_name _ Hok _ _ _ _ Hin Hu E), String.eqb_refl in Hn. done.
Qed.

Lemma users_ok_plain db db' id f :
  users_ok db → plain_update f → users db' = alter f id (users db) → initialized db' = initialized db →
  (∀ k s, user_sessions db' !! k = Some s → user_sessions db !! k = Some s) → users_ok db'.
Proof.
  intros Hok Hf Eu Ei Hs. eapply users_ok_update; [done..| | |].
  - intros u Hu. destruct (Hf u) as (-> & -> & -> & _). split; [done|].
    split; [by apply (uo_status _ Hok id)|by apply username_free].
  - intros Hi. rewrite Eu. apply admin_stays; [done..|]. intros u _.
    unfold operational_admin, isOperationalUser. by destruct (Hf u) as (-> & _ & -> & ->).
  - intros k s Hk%Hs. split; [done|]. intros u E Hu. destruct (Hf u) as (_ & _ & -> & _).
    destruct (uo_session _ Hok _ _ Hk) as (_ & v & Hv & Hav). rewrite E in Hv. congruence.
Qed.

Lemma users_ok_fewer_sessions db db' :
  users_ok db → users db' = users db → initialized db' = initialized db →
  (∀ k s, user_sessions db' !! k = Some s → user_sessions db !! k = Some s) → users_ok db'.
Proof.
  intros [H1 H2 H3 H4 H5 H6] Eu Ei Hs. split; rewrite ?Eu, ?Ei; try done; by eauto.
Qed.

(** ** Runs *)

Section Runs.
Context `{log : ActivityLog}.
Context (unicode_letter unicode_digit : N → bool).
Context (bcrypt_generate : string → result string).

(** One operation on users or sessions, at any time, with any outcome of the
    database; or a change elsewhere. *)
Inductive users_step (db : admin_db) : admin_db → Prop :=
| step_create now sql random username password actor db' r :
    createUser unicode_letter unicode_digit bcrypt_generate now sql random username password actor db
    = (db', r) → users_step db db'
| step_rename now sql userID username actor db' r :
    updateUserUsername now sql userID username actor db = (db', r) → users_step db db'
| step_reset now sql userID password actor db' r :
    resetUserPassword unicode_letter unicode_digit bcrypt_generate now sql userID password actor db
    = (db', r) → users_step db db'
| step_admin now sql actorUserID userID isAdmin actor db' r :
    setUserAdmin now sql actorUserID userID isAdmin actor db = (db', r) → users_step db db'
| step_status now sql actorUserID userID status actor db' r :
    setUserStatus now sql actorUserID userID status actor db = (db', r) → users_step db db'
| step_delete sql actorUserID userID db' r :
    DeleteDisabledUser sql actorUserID userID db = (db', r) → users_step db db'
| step_session now sql random userID username role ip ua db' r :
    CreateSession now sql random userID username role ip ua db = (db', r) → users_step db db'
| step_login now sql random userID username role ip ua actor db' r :
    CreateSessionWithActivity now sql random userID username role ip ua actor db = (db', r) →
    users_step db db'
| step_delete_session sql sessionID db' r :
    DeleteSession sql sessionID db = (db', r) → users_step db db'
| step_logout now sql sessionID actor db' r :
    DeleteSessionWithActivity now sql sessionID actor db = (db', r) → users_step db db'
| step_delete_sessions sql userID db' r :
    DeleteSessionsByUserID sql userID db = (db', r) → users_step db db'
| step_revoke_sessions now sql userID actor db' r :
    DeleteSessionsByUserIDWithActivity now sql userID actor db = (db', r) → users_step db db'
| step_clean now sql db' r :
    CleanExpiredSessions now sql db = (db', r) → users_step db db'
| step_login_time now sql id db' r :
    UpdateAdminLoginTime now sql id db = (db', r) → users_step db db'
| step_initialize now sql random secret username password addr ports db' r :
    Initialize unicode_letter unicode_digit bcrypt_generate now sql random secret username password
      addr ports db = (db', r) → users_step db db'
| step_reset_admin now sql username password db' r :
    ResetAdminUser unicode_letter unicode_digit bcrypt_generate now sql username password db = (db', r) →
    users_step db db'
| step_elsewhere db' : same_users db db' → users_step db db'.

(** Splits an operation into its failure, which changes nothing, and the effect
    of its statements. *)
Ltac steps H :=
  repeat (let Hs := fresh "Hst" in apply bind_ok in H as (? & Hs & H));
  repeat match goal with x : _ * _ |- _ => destruct x | x : unit |- _ => destruct x end.
Ltac tx H :=
  apply transaction_cases in H as [(? & -> & H & ->)|[-> _]]; [|assumption]; steps H.

Lemma insert_user_ok user db db' :
  users_ok db → insert_user user db = Ok db' → u_ID user ≠ ""%string →
  u_Status user = UserStatusActive → users_ok db'.
Proof.
  intros [Hid Hname Hstatus Hadmin Hsess Hone]. unfold insert_user.
  destruct (bool_decide _ || _) eqn:Efree; [done|]. intros [= <-] Hne Hact.
  apply orb_false_iff in Efree as [Enone%bool_decide_eq_false Etaken].
  assert (Enone' : users db !! u_ID user = None) by by apply eq_None_not_Some.
  assert (Hfree : ∀ i u, users db !! i = Some u → u_Username u ≠ u_Username user).
  { intros i u Hi E. apply not_true_iff_false in Etaken. apply Etaken, existsb_exists. exists (i, u).
    rewrite <- list_elem_of_In, elem_of_map_to_list. split; [done|]. cbn. rewrite E, String.eqb_refl, andb_true_r.
    apply negb_true_iff, String.eqb_neq. intros ->. congruence. }
  split; cbn.
  - intros i u [[<- <-]|[_ Hi]]%lookup_insert_Some; [done|by apply Hid].
  - intros i1 i2 u1 u2 [[<- <-]|[N1 H1]]%lookup_insert_Some [[<- <-]|[N2 H2]]%lookup_insert_Some E;
      [done|symmetry in E; by destruct (Hfree _ _ H2)|by destruct (Hfree _ _ H1)|by apply (Hname _ _ u1 u2)].
  - intros i u [[<- <-]|[_ Hi]]%lookup_insert_Some; [by left|by apply (Hstatus i)].
  - intros Hi. destruct (Hadmin Hi) as (i & u & Hu & Ha). exists i, u. split; [|done].
    rewrite lookup_insert_ne; [done|]. intros <-. congruence.
  - intros k s Hk. destruct (Hsess k s Hk) as (? & u & Hu & ?). split; [done|]. exists u. split; [|done].
    rewrite lookup_insert_ne; [done|]. intros E. congruence.
  - exact Hone.
Qed.

Lemma createUser_ok now sql random username password actor db db' r :
  users_ok db →
  createUser unicode_letter unicode_digit bcrypt_generate now sql random username password actor db
  = (db', r) → users_ok db'.
Proof.
  intros Hok. unfold createUser. destruct (_ ≫= _) as [user|e] eqn:Eu; [|by intros [= <- <-]].
  apply bind_ok in Eu as (name & _ & Eu). apply bind_ok in Eu as (hash & _ & Eu).
  apply bind_ok in Eu as (userID & Hnew%generateUUIDE_nonempty & [= <-]).
  intros H. tx H. injection H as <- <-. eapply users_ok_same; [by eapply record_same_users|].
  by eapply insert_user_ok.
Qed.

Lemma rename_ok now sql userID username actor db db' r :
  users_ok db → updateUserUsername now sql userID username actor db = (db', r) → users_ok db'.
Proof.
  intros Hok. unfold updateUserUsername. destruct (normalizeUsername username) as [name|]; [|by intros [= <- <-]].
  intros H. tx H. destruct (username_taken _ _ _) eqn:Et; [done|]. steps H. injection H as <- <- <-.
  eapply users_ok_same; [by eapply record_same_users|].
  eapply (users_ok_update _ _ userID _ Hok); [reflexivity|done|..].
  - intros u Hu. cbn. split; [done|]. split; [by apply (uo_status _ Hok userID)|done].
  - intros Hi. by apply admin_stays.
  - intros k s [Hk _]%lookup_delete_rows. split; [exact Hk|]. intros u E Hu. cbn.
    destruct (uo_session _ Hok _ _ Hk) as (_ & v & Hv & Hav). rewrite E in Hv. congruence.
Qed.

Lemma reset_password_ok now sql userID password actor db db' r :
  users_ok db →
  resetUserPassword unicode_letter unicode_digit bcrypt_generate now sql userID password actor db
  = (db', r) → users_ok db'.
Proof.
  intros Hok. unfold resetUserPassword. destruct (checked_password _ _ _ _) as [hash|]; [|by intros [= <- <-]].
  intros H. tx H. injection H as <- <- <-. eapply users_ok_same; [by eapply record_same_users|].
  eapply (users_ok_plain _ _ userID); [done| |reflexivity|done|]; [by intros u|].
  intros k s [Hk _]%lookup_delete_rows. exact Hk.
Qed.

Lemma delete_sessions_lookup userID db k s :
  user_sessions (delete_sessions_of userID db) !! k = Some s →
  user_sessions db !! k = Some s ∧ sr_UserID s ≠ userID.
Proof. by intros [? ?%String.eqb_neq]%lookup_delete_rows. Qed.

(** What the policy let through, for the user who changes. *)
Lemma admin_after_mutation db actor before after f :
  users_ok db → users db !! u_ID before = Some before →
  validateUserLifecycleMutation (listUsersInTx db) actor before after false = Ok tt →
  operational_admin (f before) = operational_admin after →
  ∃ id' u', alter f (u_ID before) (users db) !! id' = Some u' ∧ operational_admin u' = true.
Proof.
  intros Hok Hb Hv Hf. apply validate_leaves_admin in Hv as (E & (id & u & Hu & Hr) & _).
  unfold remains_admin in Hr. destruct (uo_id _ Hok _ _ Hu) as [Eid _].
  destruct (String.eqb_spec (u_ID u) (u_ID before)) as [Eb|Nb].
  - exists (u_ID before), (f before). rewrite lookup_alter_eq, Hb. split; [done|].
    rewrite Hf. by apply andb_true_iff in Hr as [_ Hr].
  - exists id, u. rewrite lookup_alter_ne by congruence. done.
Qed.

Lemma getUserInTx_ok db userID user :
  users_ok db → getUserInTx db userID = Ok user → users db !! userID = Some user ∧ u_ID user = userID.
Proof.
  intros Hok. unfold getUserInTx. destruct (users db !! userID) as [u|] eqn:Eu; [|done].
  intros [= <-]. split; [done|]. by apply (uo_id _ Hok).
Qed.

(** Another flag or status, with the policy's consent. *)
Lemma mutation_ok db db' userID actor before after f :
  users_ok db → users db !! userID = Some before → u_ID before = userID →
  validateUserLifecycleMutation (listUsersInTx db) actor before after false = Ok tt →
  users db' = alter f userID (users db) → initialized db' = initialized db →
  u_ID (f before) = u_ID before → u_Username (f before) = u_Username before →
  u_IsAdmin (f before) = u_IsAdmin after → u_Status (f before) = u_Status after →
  (u_Status after = UserStatusActive ∨ u_Status after = UserStatusDisabled) →
  (∀ k s, user_sessions db' !! k = Some s → user_sessions db !! k = Some s ∧
    (sr_UserID s = userID → u_Status after = UserStatusActive)) →
  users_ok db'.
Proof.
  intros Hok Hb Eb Hv Eu Ei Hid Hname Hadmin Hstatus Hcases Hs.
  eapply users_ok_update; [done..| | |].
  - intros u Hu. assert (u = before) as -> by congruence. rewrite Hstatus, Hname. split; [done|].
    split; [done|]. by apply username_free.
  - intros _. rewrite Eu. subst userID. eapply admin_after_mutation; [done..|].
    destruct (validate_leaves_admin _ _ _ _ _ Hv) as (Ea & _).
    unfold operational_admin, isOperationalUser. by rewrite Hadmin, Hstatus, Hid, Ea.
  - intros k s [Hk Hact]%Hs. split; [done|]. intros u E Hu. assert (u = before) as -> by congruence.
    rewrite Hstatus. by apply Hact.
Qed.

Lemma setUserAdmin_ok now sql actorUserID userID isAdmin actor db db' r :
  users_ok db → setUserAdmin now sql actorUserID userID isAdmin actor db = (db', r) → users_ok db'.
Proof.
  intros Hok H. unfold setUserAdmin in H. tx H.
  match goal with Hg : getUserInTx _ _ = Ok ?b |- _ => destruct (getUserInTx_ok _ _ _ Hok Hg) as [Hb Eb] end.
  destruct (Bool.eqb _ _) eqn:Echg; [by injection H as <- <- <- <-|]. steps H. injection H as <- <- <- <-.
  eapply users_ok_same; [by eapply record_same_users|].
  assert (Hsess : ∀ k s, user_sessions (delete_sessions_of userID db) !! k = Some s →
    user_sessions db !! k = Some s ∧ (sr_UserID s = userID → u_Status x0 = UserStatusActive))
    by by intros k s [? ?]%delete_sessions_lookup.
  destruct isAdmin.
  - eapply (mutation_ok _ _ userID); [done..|reflexivity|done|done|done|done|done| |exact Hsess].
    exact (uo_status _ Hok userID x0 Hb).
  - eapply (mutation_ok _ _ userID _ _ _ ((λ u, u <| u_TOTPEnabled := false |> <| u_TOTPSecret := "" |>)
      ∘ (λ u, u <| u_IsAdmin := false |> <| u_UpdatedAt := now |>)));
      [done..|apply alter_alter|done|done|done|done|done| |exact Hsess].
    exact (uo_status _ Hok userID x0 Hb).
Qed.

Lemma setUserStatus_ok now sql actorUserID userID status actor db db' r :
  users_ok db → setUserStatus now sql actorUserID userID status actor db = (db', r) → users_ok db'.
Proof.
  intros Hok H. unfold setUserStatus in H. destruct (negb _ && negb _) eqn:Ev; [by injection H as <- <-|].
  tx H.
  match goal with Hg : getUserInTx _ _ = Ok ?b |- _ => destruct (getUserInTx_ok _ _ _ Hok Hg) as [Hb Eb] end.
  assert (Hstatus : status = UserStatusActive ∨ status = UserStatusDisabled).
  { destruct (String.eqb_spec status UserStatusActive); [by left|].
    destruct (String.eqb_spec status UserStatusDisabled); [by right|done]. }
  destruct (u_Status x0 =?s status) eqn:Esame.
  { injection H as <- <- <- <-. destruct (status =?s UserStatusDisabled)%string; [|done].
    eapply users_ok_fewer_sessions; [done..|]. by intros k s [? _]%delete_sessions_lookup. }
  steps H. injection H as <- <- <- <-. eapply users_ok_same; [by eapply record_same_users|].
  destruct (String.eqb_spec status UserStatusDisabled) as [->|Hact].
  - eapply (mutation_ok _ _ userID); [done..|reflexivity|done|done|done|done|done|done|].
    by intros k s [? ?]%delete_sessions_lookup.
  - eapply (mutation_ok _ _ userID); [done..|reflexivity|done|done|done|done|done|done|].
    intros k s Hk. split; [exact Hk|]. by destruct Hstatus.
Qed.

Lemma DeleteDisabledUser_ok sql actorUserID userID db db' r :
  users_ok db → DeleteDisabledUser sql actorUserID userID db = (db', r) → users_ok db'.
Proof.
  intros Hok H. unfold DeleteDisabledUser in H. tx H.
  match goal with Hg : getUserInTx _ _ = Ok ?b |- _ => destruct (getUserInTx_ok _ _ _ Hok Hg) as [Hb Eb] end.
  destruct (actorUserID =?s u_ID x0)%string; [done|]. destruct (negb _); [done|]. steps H.
  injection H as <-.
  match goal with Hv : validateUserLifecycleMutation _ _ _ _ _ = _ |- _ =>
    apply validate_leaves_admin in Hv as (_ & (id & u & Hu & Hr) & _) end.
  assert (Hkeep : ∀ i v, users (delete_user_rows userID db) !! i = Some v ↔
    users db !! i = Some v ∧ i ≠ userID).
  { intros i v. cbn. rewrite lookup_delete_rows. split; intros [Hi Hn]; (split; [done|]);
      destruct (uo_id _ Hok _ _ Hi) as [E _]; rewrite E in *; [|by apply String.eqb_neq, not_eq_sym].
    apply String.eqb_neq in Hn. congruence. }
  assert (Hs : ∀ k s, user_sessions (delete_user_rows userID db) !! k = Some s →
    user_sessions db !! k = Some s ∧ sr_UserID s ≠ userID).
  { intros k s. cbn. rewrite !lookup_delete_rows. intros [[? ?%String.eqb_neq] _]. done. }
  split; try done.
  - intros i v [Hi _]%Hkeep. by apply (uo_id _ Hok).
  - intros i1 i2 u1 u2 [H1 _]%Hkeep [H2 _]%Hkeep. by apply (uo_name _ Hok).
  - intros i v [Hi _]%Hkeep. by apply (uo_status _ Hok i).
  - intros _. exists id, u. destruct (uo_id _ Hok _ _ Hu) as [Ei _]. unfold remains_admin in Hr.
    rewrite Ei, Eb in Hr. destruct (String.eqb_spec id userID); [done|]. by rewrite Hkeep.
  - intros k s [Hk Hne]%Hs. destruct (uo_session _ Hok _ _ Hk) as (? & v & Hv & ?).
    split; [done|]. exists v. by rewrite Hkeep.
  - intros k1 k2 s1 s2 [H1 _]%Hs [H2 _]%Hs. by apply (uo_single _ Hok).
Qed.

Lemma createSession_ok now sessionID userID ip ua db db' r :
  users_ok db → createSessionForActiveUserTx now sessionID userID ip ua db = Ok (db', r) → users_ok db'.
Proof.
  intros Hok H. unfold createSessionForActiveUserTx in H. steps H.
  match goal with Hg : getUserInTx _ _ = Ok ?b |- _ =>
    destruct (getUserInTx_ok _ _ _ Hok Hg) as [Hb Eb]; rename b into user end.
  destruct (String.eqb_spec (u_Status user) UserStatusActive) as [Hact|]; [|done]. cbn [negb] in H.
  destruct (bool_decide _) eqn:Efree; [done|]. injection H as <- <-.
  set (row := {| sr_ID := sessionID; sr_UserID := u_ID user; sr_CreatedAt := now;
                 sr_ExpiresAt := now + sessionDefaultTTL; sr_IP := ip; sr_UserAgent := ua |}).
  eapply (users_ok_plain (db <| user_sessions := <[sessionID := row]> (user_sessions (delete_sessions_of userID db)) |>)
            _ userID); [| |reflexivity|done|done]; [|by intros ?].
  assert (Hs : ∀ k s, <[sessionID := row]> (user_sessions (delete_sessions_of userID db)) !! k = Some s →
    (k = sessionID ∧ s = row) ∨ (user_sessions db !! k = Some s ∧ sr_UserID s ≠ userID)).
  { intros k s [[<- <-]|[_ Hk%delete_sessions_lookup]]%lookup_insert_Some; [by left|by right]. }
  destruct Hok as [H1 H2 H3 H4 H5 H6]. split; try done.
  - intros k s [[-> ->]|[Hk _]]%Hs; [|by apply H5]. split; [done|]. exists user. cbn. by rewrite Eb.
  - intros k1 k2 s1 s2 [[-> ->]|[K1 N1]]%Hs [[-> ->]|[K2 N2]]%Hs E; [done| | |by apply (H6 _ _ s1 s2)];
      cbn in E; congruence.
Qed.

Lemma CreateSession_ok now sql random userID username role ip ua db db' r :
  users_ok db → CreateSession now sql random userID username role ip ua db = (db', r) → users_ok db'.
Proof.
  intros Hok. unfold CreateSession. destruct (generateUUIDE random) as [id|]; [|by intros [= <- <-]].
  intros H. tx H. injection H as <- <-. by eapply createSession_ok.
Qed.

Lemma CreateSessionWithActivity_ok now sql random userID username role ip ua actor db db' r :
  users_ok db →
  CreateSessionWithActivity now sql random userID username role ip ua actor db = (db', r) → users_ok db'.
Proof.
  intros Hok. unfold CreateSessionWithActivity. destruct (generateUUIDE random) as [id|]; [|by intros [= <- <-]].
  intros H. tx H. steps H. injection H as <- <- <-.
  eapply users_ok_same; [by eapply append_same_users|]. by eapply createSession_ok.
Qed.

Lemma Initialize_ok now sql random secret username password addr ports db db' r :
  users_ok db →
  Initialize unicode_letter unicode_digit bcrypt_generate now sql random secret username password
    addr ports db = (db', r) → users_ok db'.
Proof.
  intros Hok. unfold Initialize. destruct (_ ≫= _) as [[text user]|e] eqn:Eu; [|by intros [= <- <-]].
  apply bind_ok in Eu as (? & _ & Eu). apply bind_ok in Eu as (hash & _ & Eu).
  apply bind_ok in Eu as (? & _ & Eu). apply bind_ok in Eu as (userID & Hnew%generateUUIDE_nonempty & [= <- <-]).
  intros H. tx H. destruct (initialized db); [done|]. injection H as <-. split; cbn.
  - by intros i u [<- <-]%lookup_singleton_Some.
  - by intros i1 i2 u1 u2 [<- <-]%lookup_singleton_Some [<- <-]%lookup_singleton_Some.
  - intros i u [<- <-]%lookup_singleton_Some. by left.
  - intros _. eexists userID, _. rewrite lookup_singleton_eq. split; [done|].
    unfold operational_admin, isOperationalUser. cbn. by rewrite (proj2 (String.eqb_neq _ _) Hnew).
  - intros k s [Hk _]%lookup_delete_rows. by rewrite lookup_empty in Hk.
  - intros k1 k2 s1 s2 [Hk _]%lookup_delete_rows. by rewrite lookup_empty in Hk.
Qed.

Lemma ResetAdminUser_ok now sql username password db db' r :
  users_ok db →
  ResetAdminUser unicode_letter unicode_digit bcrypt_generate now sql username password db = (db', r) →
  users_ok db'.
Proof.
  intros Hok. unfold ResetAdminUser. destruct (trim_space username =?s "")%string; [by intros [= <- <-]|].
  destruct (validatePassword _ _ _); [|by intros [= <- <-]].
  destruct (bcrypt_generate password) as [hash|]; [|by intros [= <- <-]].
  intros H. tx H. destruct (initialized db); [|done]. cbn [negb] in H.
  destruct (filter (λ u, u_IsAdmin u = true) (listUsersInTx db)) as [|admin l] eqn:Ef; [done|].
  assert (Hin : admin ∈ filter (λ u, u_IsAdmin u = true) (listUsersInTx db))
    by (rewrite Ef; apply list_elem_of_here).
  apply list_elem_of_filter in Hin as [_ [id Hid]%elem_of_listUsersInTx].
  destruct (uo_id _ Hok _ _ Hid) as [Eid Hne]. rewrite Eid in H.
  destruct (username_taken _ _ _) eqn:Et; [done|]. injection H as <-.
  eapply (users_ok_update _ _ id); [done|reflexivity|done|..].
  - intros u Hu. cbn. split; [done|]. split; [by left|done].
  - intros _. exists id. eexists. cbn. rewrite lookup_alter_eq, Hid. split; [reflexivity|].
    unfold operational_admin, isOperationalUser. cbn.
    by rewrite Eid, (proj2 (String.eqb_neq _ _) Hne).
  - intros k s [Hk Hne']%delete_sessions_lookup. by split.
Qed.

Lemma users_step_ok db db' : users_ok db → users_step db db' → users_ok db'.
Proof.
  intros Hok. destruct 1.
  - by eapply createUser_ok.
  - by eapply rename_ok.
  - by eapply reset_password_ok.
  - by eapply setUserAdmin_ok.
  - by eapply setUserStatus_ok.
  - by eapply DeleteDisabledUser_ok.
  - by eapply CreateSession_ok.
  - by eapply CreateSessionWithActivity_ok.
  - match goal with H : _ = (_, _) |- _ => unfold DeleteSession in H; tx H; injection H as <- end.
    eapply users_ok_fewer_sessions; [done..|]. cbn. by intros k s [_ ?]%lookup_delete_Some.
  - match goal with H : _ = (_, _) |- _ =>
      unfold DeleteSessionWithActivity in H; tx H; destruct (bool_decide _); [|done];
      steps H; injection H as <- <- end.
    eapply users_ok_same; [by eapply append_same_users|].
    eapply users_ok_fewer_sessions; [done..|]. cbn. by intros k s [_ ?]%lookup_delete_Some.
  - match goal with H : _ = (_, _) |- _ => unfold DeleteSessionsByUserID in H; tx H; injection H as <- end.
    eapply users_ok_fewer_sessions; [done..|]. by intros k s [? _]%delete_sessions_lookup.
  - match goal with H : _ = (_, _) |- _ => unfold DeleteSessionsByUserIDWithActivity in H; tx H end.
    eapply users_ok_same; [by eapply append_same_users|].
    eapply users_ok_fewer_sessions; [done..|]. by intros k s [? _]%delete_sessions_lookup.
  - match goal with H : _ = (_, _) |- _ => unfold CleanExpiredSessions in H; tx H; injection H as <- end.
    eapply users_ok_fewer_sessions; [done..|]. cbn. by intros k s [? _]%lookup_delete_rows.
  - match goal with H : _ = (_, _) |- _ => unfold UpdateAdminLoginTime in H; tx H; injection H as <- end.
    eapply users_ok_plain; [done| |reflexivity|done|done]. by intros ?.
  - by eapply Initialize_ok.
  - by eapply ResetAdminUser_ok.
  - by eapply users_ok_same.
Qed.

Lemma users_run_ok db db' : users_ok db → rtc users_step db db' → users_ok db'.
Proof. induction 2; eauto using users_step_ok. Qed.
End Runs.

(** A database after the migrations, before it is initialised. *)
Definition empty_db : admin_db := {|
  config := None; allowed_ports := []; users := ∅; user_sessions := ∅; admin_auth_challenges := ∅;
  admin_totp_recovery_codes := ∅; admin_passkeys := ∅; api_keys := ∅; registered_clients := ∅;
  client_tokens := ∅; tunnels := ∅; tunnel_resource_locks := ∅; traffic_buckets := ∅;
  activity_webhooks := ∅; activity_events := ∅ |}.

Lemma empty_db_ok : users_ok empty_db.
Proof. split; try done; intros *; rewrite lookup_empty; done. Qed.
