(* ===== verification/UsersProps.v ===== *)
(** Properties of users and sessions ([Users]): who administers and who is
    logged in over every run, what disabling a user does, and that deleting a
    user takes exactly the user's rows. *)
From Stdlib Require Import ZArith Lia Ascii String Strings.Byte.
From stdpp Require Import base tactics numbers list gmap strings sorting relations.
From S2P Require Import Prelude Records GoStrings GoTime GoUTF8 Activity AdminDB Users UsersInv.

(** ** Samples *)

Abbreviation no_runes := (λ _ : N, false).





(** ** Disabling *)









