(* ===== verification/UserDeletion.v ===== *)
(** Deleting a user ([Users.DeleteDisabledUser]): which rows go, which stay,
    and that the preview of [Users.GetUserDeletionImpact] is right. *)
From Stdlib Require Import ZArith Lia Ascii String Strings.Byte.
From stdpp Require Import base tactics numbers list gmap strings sorting relations.
From S2P Require Import Prelude Records GoStrings GoTime GoUTF8 Activity AdminDB Users UsersInv UsersProps.
























