(* ===== verification/Credentials.v ===== *)
(** API keys, registered clients and client tokens (internal/server/
    admin_store.go, admin_activity_store.go, client_owner_resolver.go).

    A client registers with an API key of a user and gets a token for its
    installation; later it connects with the token.  The conventions are those
    of [Users]; [hashToken] (SHA-256), [apiKeyLookupDigest] (SHA-256 of the key
    behind a prefix) and bcrypt are arguments. *)
From Stdlib Require Import ZArith Lia Ascii String Strings.Byte.
From stdpp Require Import base tactics numbers list gmap strings sorting pretty.
From S2P Require Import Prelude Records GoStrings GoIO GoNet GoTime GoUTF8 Activity AdminDB Users.

Definition ErrClientTokenInvalid : goerror := Sentinel "client token invalid".
Definition ErrClientTokenRevoked : goerror := Sentinel "client token revoked".
Definition ErrClientTokenExpired : goerror := Sentinel "client token expired".
Definition ErrClientTokenInstallMismatch : goerror := Sentinel "client token install mismatch".
Definition ErrClientKeyInvalid : goerror := Sentinel "API key is invalid".
Definition ErrClientKeyDisabled : goerror := Sentinel "client key disabled".
Definition ErrClientKeyExpired : goerror := Sentinel "client key expired".
Definition ErrClientKeyMaxUsesExceeded : goerror := Sentinel "client key max uses exceeded".
Definition ErrAPIKeyNotFound : goerror := Sentinel "API key not found".
Definition ErrClientOwnerMismatch : goerror := Sentinel "registered client belongs to another user".
Definition ErrRegisteredClientNotFound : goerror := Sentinel "registered client not found".
Definition ErrNoRows : goerror := Sentinel "sql: no rows in result set".
Definition ErrConstraint : goerror := Sentinel "constraint failed".

Definition clientTokenInactivityTTL : Z := 100 * day.

Fixpoint seen_permissions (seen : bool) (permissions : list string) : result (list string) :=
  match permissions with
  | [] => Ok []
  | permission :: rest =>
      if negb (permission =?s "connect")
      then Err (Errorf "unsupported API key permission: %s" [AStr permission]) else
      normalized ← seen_permissions true rest;
      Ok (if seen then normalized else permission :: normalized)
  end.

(** The only permission is [connect]; having seen a permission is having seen
    that one. *)
Definition normalizeKeyPermissions (permissions : list string) : result (list string) :=
  match permissions with
  | [] => Ok ["connect"%string]
  | _ => seen_permissions false permissions
  end.

Definition remoteIP (remoteAddr : string) : string :=
  if remoteAddr =?s "" then "" else
  let host := match SplitHostPort remoteAddr with Some (host, _) => host | None => remoteAddr end in
  if host =?s "::1" then "127.0.0.1" else host.

Definition activityClientDisplayName (client : RegisteredClient) : string :=
  if negb (trim_space (cl_DisplayName client) =?s "") then cl_DisplayName client else
  if negb (trim_space (ci_Hostname (cl_Info client)) =?s "") then ci_Hostname (cl_Info client)
  else cl_ID client.

(** [ORDER BY created_at, id] *)
Definition before_in (created : Z) (id : string) (created' : Z) (id' : string) : Prop :=
  (formatTime created <?s formatTime created') = true ∨
  formatTime created = formatTime created' ∧ String.le id id'.
#[export] Instance before_in_dec c i c' i' : Decision (before_in c i c' i').
Proof. unfold before_in. apply _. Defined.
Definition key_first (a b : APIKey) : Prop := before_in (ak_CreatedAt a) (ak_ID a) (ak_CreatedAt b) (ak_ID b).
Definition token_first (a b : ClientToken) : Prop := before_in (tk_CreatedAt a) (tk_ID a) (tk_CreatedAt b) (tk_ID b).
#[export] Instance key_first_dec a b : Decision (key_first a b).
Proof. apply before_in_dec. Defined.
#[export] Instance token_first_dec a b : Decision (token_first a b).
Proof. apply before_in_dec. Defined.

Definition loadAPIKeysByLookupDigest (db : admin_db) (digest : string) : list APIKey :=
  merge_sort key_first (select_rows (λ k, ak_LookupDigest k =?s digest) (api_keys db)).
Definition GetAPIKeysForUser (db : admin_db) (ownerUserID : string) : list APIKey :=
  merge_sort key_first (select_rows (λ k, ak_OwnerUserID k =?s ownerUserID) (api_keys db)).
Definition loadClientTokens (f : ClientToken → bool) (db : admin_db) : list ClientToken :=
  merge_sort token_first (select_rows f (client_tokens db)).

Section Credentials.
Context {log : ActivityLog}.
Context (bcrypt_generate : string → result string) (bcrypt_compare : string → string → bool).
Context (apiKeyLookupDigest hashToken : string → string).
Context (now : Z).

(** ** API keys *)

Definition newAPIKey (random : result (list byte)) (name keyString : string) (permissions : list string)
    (expiresAt : option Z) : result APIKey :=
  permissions ← normalizeKeyPermissions permissions;
  hash ← bcrypt_generate keyString;
  keyID ← generateUUIDE random;
  Ok {| ak_ID := keyID; ak_OwnerUserID := ""; ak_Name := name; ak_KeyHash := hash;
        ak_LookupDigest := apiKeyLookupDigest keyString; ak_Permissions := permissions;
        ak_CreatedAt := now; ak_ExpiresAt := expiresAt; ak_IsActive := true; ak_MaxUses := 0;
        ak_UseCount := 0 |}.

Definition insertAPIKey (key : APIKey) (db : admin_db) : result admin_db :=
  if ak_OwnerUserID key =?s "" then Err (Errorf "api key owner user id must not be empty" []) else
  if bool_decide (is_Some (api_keys db !! ak_ID key)) then Err ErrConstraint else
  Ok (db <| api_keys := <[ak_ID key := key]> (api_keys db) |>).

(** The activity of a key in the scope of [owner], or in none. *)
Definition key_activity (action name : string) (maxUses : Z) (owner : option string)
    (actor : ActivityActor) : ActivityEventSpec :=
  let spec := adminActivitySpec now action actor
                (no_args <| args_ResourceName := name |> <| args_Value := maxUses |>) in
  match owner with
  | None => spec
  | Some owner => spec <| ScopeUserID := owner |> <| SubjectUserID := owner |>
  end.

Definition addAPIKeyForUser (sql : option goerror) (random : result (list byte))
    (ownerUserID name keyString : string) (permissions : list string) (expiresAt : option Z)
    (db : admin_db) : admin_db * result APIKey :=
  if ownerUserID =?s "" then (db, Err (Errorf "api key owner user id must not be empty" [])) else
  match newAPIKey random name keyString permissions expiresAt with
  | Err e => (db, Err e)
  | Ok k =>
      let k := k <| ak_OwnerUserID := ownerUserID |> in
      transaction sql db (
        _ ← ensureOperationalUserInTx db ownerUserID;
        db ← insertAPIKey k db;
        Ok (db, k))
  end.

Definition AddAPIKeyForUserWithActivity (sql : option goerror) (random : result (list byte))
    (ownerUserID name keyString : string) (permissions : list string) (expiresAt : option Z)
    (maxUses : Z) (actor : ActivityActor) (db : admin_db) : admin_db * result (APIKey * Z) :=
  if ownerUserID =?s "" then (db, Err (Errorf "api key owner user id must not be empty" [])) else
  if maxUses <? 0 then (db, Err (Errorf "max_uses must not be negative" [])) else
  match newAPIKey random name keyString permissions expiresAt with
  | Err e => (db, Err e)
  | Ok key =>
      let key := key <| ak_OwnerUserID := ownerUserID |> <| ak_MaxUses := maxUses |> in
      transaction sql db (
        _ ← ensureOperationalUserInTx db ownerUserID;
        db ← insertAPIKey key db;
        '(db, id) ← appendTx (key_activity "api_key_created" name maxUses (Some ownerUserID) actor) db;
        Ok (db, (key, id)))
  end.

(** For internal callers: the key is the oldest administrator's. *)
Definition AddAPIKey (sql : option goerror) (random : result (list byte)) (name keyString : string)
    (permissions : list string) (expiresAt : option Z) (db : admin_db) : admin_db * result APIKey :=
  match newAPIKey random name keyString permissions expiresAt with
  | Err e => (db, Err e)
  | Ok k =>
      transaction sql db (
        ownerUserID ← legacyOwnerUserIDInTx db;
        let k := k <| ak_OwnerUserID := ownerUserID |> in
        db ← insertAPIKey k db;
        Ok (db, k))
  end.

Definition AddAPIKeyWithActivity (sql : option goerror) (random : result (list byte))
    (name keyString : string) (permissions : list string) (expiresAt : option Z) (maxUses : Z)
    (actor : ActivityActor) (db : admin_db) : admin_db * result (APIKey * Z) :=
  if maxUses <? 0 then (db, Err (Errorf "max_uses must not be negative" [])) else
  match newAPIKey random name keyString permissions expiresAt with
  | Err e => (db, Err e)
  | Ok key =>
      let key := key <| ak_MaxUses := maxUses |> in
      transaction sql db (
        ownerUserID ← legacyOwnerUserIDInTx db;
        let key := key <| ak_OwnerUserID := ownerUserID |> in
        db ← insertAPIKey key db;
        '(db, id) ← appendTx (key_activity "api_key_created" name maxUses None actor) db;
        Ok (db, (key, id)))
  end.

Definition set_active (id : string) (active : bool) (db : admin_db) : admin_db :=
  db <| api_keys := alter (λ k, k <| ak_IsActive := active |>) id (api_keys db) |>.

Definition SetAPIKeyActive (sql : option goerror) (id : string) (active : bool) (db : admin_db)
  : admin_db * result unit :=
  transaction sql db (
    if bool_decide (is_Some (api_keys db !! id)) then Ok (set_active id active db, tt)
    else Err (Errorf "API key %q not found" [AStr id])).

(** The key with this identifier, of [owner] if one is given. *)
Definition find_key (owner : option string) (id : string) (db : admin_db) : option APIKey :=
  k ← api_keys db !! id;
  match owner with
  | Some o => if ak_OwnerUserID k =?s o then Some k else None
  | None => Some k
  end.

(** [SetAPIKeyActiveWithActivity] and [SetAPIKeyActiveForUserWithActivity]; they
    differ in the owner and in the error for a key that is not found. *)
Definition SetAPIKeyActiveWithActivity (sql : option goerror) (owner : option string) (id : string)
    (active : bool) (actor : ActivityActor) (db : admin_db) : admin_db * result Z :=
  transaction sql db (
    match find_key owner id db with
    | None => Err (match owner with Some _ => ErrAPIKeyNotFound | None => ErrNoRows end)
    | Some k =>
        if Bool.eqb (ak_IsActive k) active then Ok (db, 0) else
        appendTx (key_activity (if active then "api_key_enabled" else "api_key_disabled")
                    (ak_Name k) 0 owner actor) (set_active id active db)
    end).

Definition delete_key (id : string) (db : admin_db) : admin_db :=
  db <| api_keys := delete id (api_keys db) |>.

Definition DeleteAPIKey (sql : option goerror) (id : string) (db : admin_db) : admin_db * result unit :=
  transaction sql db (
    if bool_decide (is_Some (api_keys db !! id)) then Ok (delete_key id db, tt)
    else Err (Errorf "API key %q not found" [AStr id])).

(** [DeleteAPIKeyWithActivity] and [DeleteAPIKeyForUserWithActivity] *)
Definition DeleteAPIKeyWithActivity (sql : option goerror) (owner : option string) (id : string)
    (actor : ActivityActor) (db : admin_db) : admin_db * result Z :=
  transaction sql db (
    match find_key owner id db with
    | None => Err (match owner with Some _ => ErrAPIKeyNotFound | None => ErrNoRows end)
    | Some k => appendTx (key_activity "api_key_deleted" (ak_Name k) 0 owner actor) (delete_key id db)
    end).

(** *** Checking a key *)

Definition candidateAPIKeysForRaw (db : admin_db) (raw : string) : list APIKey :=
  match loadAPIKeysByLookupDigest db (apiKeyLookupDigest raw) with
  | [] => loadAPIKeysByLookupDigest db ""
  | keys => keys
  end.

Definition key_matches (raw : string) (k : APIKey) : bool := bcrypt_compare (ak_KeyHash k) raw.

Definition find_raw (db : admin_db) (raw : string) : option APIKey :=
  head (filter (λ k, key_matches raw k = true) (candidateAPIKeysForRaw db raw)).

Definition findKeyByRawLocked (db : admin_db) (key : string) : option APIKey := find_raw db key.

Definition validateClientKeyLocked (db : admin_db) (key : string) : result unit :=
  if key =?s "" then Err ErrClientKeyInvalid else
  match candidateAPIKeysForRaw db key with
  | [] =>
      if negb (bool_decide (api_keys db = ∅)) then Err ErrClientKeyInvalid else
      if negb (initialized db)
      then Err (Errorf "server not initialized; client connections are not accepted yet" [])
      else Err ErrClientKeyInvalid
  | _ =>
      match find_raw db key with
      | None => Err ErrClientKeyInvalid
      | Some k =>
          match users db !! ak_OwnerUserID k with
          | None => Err ErrUserDisabled
          | Some owner =>
              if negb (u_Status owner =?s UserStatusActive) then Err ErrUserDisabled else
              if negb (ak_IsActive k) then Err ErrClientKeyDisabled else
              if match ak_ExpiresAt k with Some t => t <? now | None => false end
              then Err ErrClientKeyExpired else
              if (0 <? ak_MaxUses k) && (ak_MaxUses k <=? ak_UseCount k)
              then Err ErrClientKeyMaxUsesExceeded else Ok tt
          end
      end
  end.

(** [ResolveClientKeyOwner] *)
Definition ResolveClientKeyOwner (db : admin_db) (rawKey : string) : result string :=
  if rawKey =?s "" then Err ErrClientKeyInvalid else
  match find_raw db rawKey with
  | None => Err ErrClientKeyInvalid
  | Some key => if ak_OwnerUserID key =?s "" then Err ErrUserOwnerUnavailable else Ok (ak_OwnerUserID key)
  end.

(** ** Registered clients *)

Definition client_of_install (installID : string) (db : admin_db) : option RegisteredClient :=
  head (select_rows (λ c, cl_InstallID c =?s installID) (registered_clients db)).

Definition seen_client (info : ClientInfo) (lastIP : string) (c : RegisteredClient) : RegisteredClient :=
  c <| cl_Info := info |> <| cl_LastSeen := now |> <| cl_LastIP := lastIP |>.

Definition getOrCreateClientInTx (random : result (list byte)) (ownerUserID installID : string)
    (info : ClientInfo) (lastIP : string) (db : admin_db)
  : result (admin_db * (RegisteredClient * bool)) :=
  if ownerUserID =?s "" then Err (Errorf "client owner user id must not be empty" []) else
  match client_of_install installID db with
  | Some client =>
      if negb (cl_OwnerUserID client =?s ownerUserID) then Err ErrClientOwnerMismatch else
      Ok (db <| registered_clients :=
                  alter (seen_client info lastIP) (cl_ID client) (registered_clients db) |>,
          (seen_client info lastIP client, false))
  | None =>
      clientID ← generateUUIDE random;
      let client := {| cl_ID := clientID; cl_OwnerUserID := ownerUserID; cl_InstallID := installID;
                       cl_DisplayName := ""; cl_Info := info; cl_IngressBPS := 0; cl_EgressBPS := 0;
                       cl_CreatedAt := now; cl_LastSeen := now; cl_LastIP := lastIP |} in
      if bool_decide (is_Some (registered_clients db !! clientID)) then Err ErrConstraint else
      Ok (db <| registered_clients := <[clientID := client]> (registered_clients db) |>, (client, true))
  end.

Definition GetOrCreateClientForUser (sql : option goerror) (random : result (list byte))
    (ownerUserID installID : string) (info : ClientInfo) (remoteAddr : string) (db : admin_db)
  : admin_db * result RegisteredClient :=
  if installID =?s "" then (db, Err (Errorf "install_id must not be empty" [])) else
  if ownerUserID =?s "" then (db, Err (Errorf "owner user id must not be empty" [])) else
  transaction sql db (
    _ ← ensureOperationalUserInTx db ownerUserID;
    '(db, (client, _)) ← getOrCreateClientInTx random ownerUserID installID info (remoteIP remoteAddr) db;
    Ok (db, client)).

Definition GetOrCreateClient (sql : option goerror) (random : result (list byte)) (installID : string)
    (info : ClientInfo) (remoteAddr : string) (db : admin_db) : admin_db * result RegisteredClient :=
  if installID =?s "" then (db, Err (Errorf "install_id must not be empty" [])) else
  transaction sql db (
    ownerUserID ← legacyOwnerUserIDInTx db;
    '(db, (client, _)) ← getOrCreateClientInTx random ownerUserID installID info (remoteIP remoteAddr) db;
    Ok (db, client)).

Definition clientManagementActivitySpec (action : string) (actor : ActivityActor)
    (client : RegisteredClient) (before after : string) : ActivityEventSpec := {|
  OccurredAt := now; Severity := ""; Category := ActivityCategoryClient; Action := action;
  Source := "server"; Actor := actor; ScopeUserID := cl_OwnerUserID client;
  SubjectUserID := cl_OwnerUserID client; DedupeKey := "";
  Payload := newActivityTransitionPayload ActivityCategoryClient action
               (no_args <| args_ClientName := activityClientDisplayName client |>
                        <| args_Before := before |> <| args_After := after |>) before after;
  Clients := [{| cs_ClientID := cl_ID client; cs_Relation := "subject";
                 cs_DisplayName := cl_DisplayName client; cs_Hostname := ci_Hostname (cl_Info client);
                 cs_Truncated := false |}];
  Tunnels := [] |}.

Definition UpdateClientDisplayNameWithActivity (sql : option goerror) (clientID displayName : string)
    (actor : ActivityActor) (db : admin_db) : admin_db * result Z :=
  transaction sql db (
    match registered_clients db !! clientID with
    | None => Err ErrRegisteredClientNotFound
    | Some client =>
        if cl_DisplayName client =?s displayName then Ok (db, 0) else
        appendTx (clientManagementActivitySpec "display_name_changed" actor client
                    (cl_DisplayName client) displayName)
          (db <| registered_clients :=
                   alter (λ c, c <| cl_DisplayName := displayName |>) clientID (registered_clients db) |>)
    end).

Definition set_bandwidth (clientID : string) (ingress egress : Z) (db : admin_db) : admin_db :=
  db <| registered_clients :=
          alter (λ c, c <| cl_IngressBPS := ingress |> <| cl_EgressBPS := egress |>) clientID
            (registered_clients db) |>.

Definition rates (ingress egress : Z) : string := pretty ingress +:+ "/" +:+ pretty egress.

Definition UpdateClientBandwidthSettingsWithActivity (sql : option goerror) (clientID : string)
    (ingress egress : Z) (actor : ActivityActor) (db : admin_db) : admin_db * result Z :=
  transaction sql db (
    match registered_clients db !! clientID with
    | None => Err ErrRegisteredClientNotFound
    | Some client =>
        if (cl_IngressBPS client =? ingress) && (cl_EgressBPS client =? egress) then Ok (db, 0) else
        appendTx (clientManagementActivitySpec "bandwidth_changed" actor client
                    (rates (cl_IngressBPS client) (cl_EgressBPS client)) (rates ingress egress))
          (set_bandwidth clientID ingress egress db)
    end).

(** ** Client tokens *)

(** [random] are thirty-two bytes of the random source. *)
Definition generateToken (random : result (list byte)) : result string :=
  match random with
  | Err e => Err (Wrapf "failed to generate token: %w" e)
  | Ok buf => Ok ("tk-" +:+ hex_of buf)
  end.

(** [token_hash] is unique. *)
Definition hash_taken (id hash : string) (db : admin_db) : bool :=
  existsb (λ kt, negb (kt.1 =?s id) && (tk_TokenHash kt.2 =?s hash)) (map_to_list (client_tokens db)).

Definition fresh_token (t : ClientToken) : bool := now - tk_LastActiveAt t <? clientTokenInactivityTTL.

Definition set_tokens (m : gmap string ClientToken) (db : admin_db) : admin_db :=
  db <| client_tokens := m |>.

Definition exchangeTokenInTx (randomToken randomID : result (list byte)) (key installID clientID ip : string)
    (db : admin_db) : result (admin_db * (string * ClientToken)) :=
  let apiKey := findKeyByRawLocked db key in
  let keyID := match apiKey with Some k => ak_ID k | None => "" end in
  let tokens := loadClientTokens (λ t, (tk_InstallID t =?s installID) && negb (tk_IsRevoked t)) db in
  match filter (λ t, fresh_token t && (tk_KeyID t =?s keyID) = true) tokens with
  | t :: _ =>
      newToken ← generateToken randomToken;
      let refreshed t := t <| tk_TokenHash := hashToken newToken |> <| tk_LastActiveAt := now |>
                           <| tk_LastIP := ip |> <| tk_ClientID := clientID |> in
      if hash_taken (tk_ID t) (hashToken newToken) db then Err ErrConstraint else
      Ok (set_tokens (alter refreshed (tk_ID t) (client_tokens db)) db, (newToken, refreshed t))
  | [] =>
      newToken ← generateToken randomToken;
      let db := match apiKey with
                | Some k => db <| api_keys := alter (λ k, k <| ak_UseCount := ak_UseCount k + 1 |>)
                                               (ak_ID k) (api_keys db) |>
                | None => db
                end in
      tokenID ← generateUUIDE randomID;
      let clientToken := {| tk_ID := tokenID; tk_TokenHash := hashToken newToken;
                            tk_InstallID := installID; tk_KeyID := keyID; tk_ClientID := clientID;
                            tk_CreatedAt := now; tk_LastActiveAt := now; tk_LastIP := ip;
                            tk_IsRevoked := false |} in
      let revoked := update_rows (λ t, (tk_InstallID t =?s installID) && negb (tk_IsRevoked t))
                       (λ t, t <| tk_IsRevoked := true |>) (client_tokens db) in
      if bool_decide (is_Some (revoked !! tokenID)) || hash_taken tokenID (hashToken newToken) db
      then Err ErrConstraint else
      Ok (set_tokens (<[tokenID := clientToken]> revoked) db, (newToken, clientToken))
  end.

Definition key_failed (e : goerror) : goerror := Wrapf "key validation failed: %w" e.

Definition checked_key (db : admin_db) (key : string) : result unit :=
  match validateClientKeyLocked db key with Err e => Err (key_failed e) | Ok _ => Ok tt end.

Definition ExchangeToken (sql : option goerror) (randomToken randomID : result (list byte))
    (key installID clientID remoteAddr : string) (db : admin_db) : admin_db * result (string * ClientToken) :=
  transaction sql db (
    _ ← checked_key db key;
    exchangeTokenInTx randomToken randomID key installID clientID (remoteIP remoteAddr) db).

(** What a registration returns. *)
Record ClientRegistrationTokenExchange := {
  ex_Client : RegisteredClient; ex_Token : string; ex_TokenRow : ClientToken; ex_ActivityID : Z;
}.

Definition registered_activity (client : RegisteredClient) : ActivityEventSpec := {|
  OccurredAt := now; Severity := ""; Category := ActivityCategoryClient; Action := "registered";
  Source := "server";
  Actor := {| actor_Type := "client"; actor_ID := cl_ID client;
              actor_Name := activityClientDisplayName client; actor_IPHash := ""; actor_IPPrefix := "" |};
  ScopeUserID := ""; SubjectUserID := ""; DedupeKey := "";
  Payload := newActivityClientLifecyclePayload "registered" "" 0 true
               (no_args <| args_ClientName := activityClientDisplayName client |>);
  Clients := [{| cs_ClientID := cl_ID client; cs_Relation := "subject";
                 cs_DisplayName := cl_DisplayName client; cs_Hostname := ci_Hostname (cl_Info client);
                 cs_Truncated := false |}];
  Tunnels := [] |}.

Definition RegisterClientAndExchangeToken (sql : option goerror)
    (randomClient randomToken randomID : result (list byte)) (key installID : string)
    (info : ClientInfo) (remoteAddr : string) (db : admin_db)
  : admin_db * result ClientRegistrationTokenExchange :=
  if installID =?s "" then (db, Err (Errorf "install_id must not be empty" [])) else
  transaction sql db (
    let ip := remoteIP remoteAddr in
    _ ← checked_key db key;
    match findKeyByRawLocked db key with
    | None => Err ErrClientKeyInvalid
    | Some apiKey =>
        _ ← ensureOperationalUserInTx db (ak_OwnerUserID apiKey);
        '(db, (client, created)) ←
          getOrCreateClientInTx randomClient (ak_OwnerUserID apiKey) installID info ip db;
        '(db, (token, row)) ← exchangeTokenInTx randomToken randomID key installID (cl_ID client) ip db;
        '(db, id) ← (if (created : bool) then appendTx (registered_activity client) db else Ok (db, 0));
        Ok (db, {| ex_Client := client; ex_Token := token; ex_TokenRow := row; ex_ActivityID := id |})
    end).

Definition touch (id : string) (db : admin_db) : admin_db :=
  set_tokens (alter (λ t, t <| tk_LastActiveAt := now |>) id (client_tokens db)) db.

Definition ValidateClientToken (sql : option goerror) (token installID : string) (db : admin_db)
  : admin_db * result ClientToken :=
  if token =?s "" then (db, Err ErrClientTokenInvalid) else
  transaction sql db (
    match filter (λ t, (tk_TokenHash t =?s hashToken token) = true) (loadClientTokens (λ _, true) db) with
    | [] => Err ErrClientTokenInvalid
    | t :: _ =>
        if tk_IsRevoked t then Err ErrClientTokenRevoked else
        if negb (tk_InstallID t =?s installID) then Err ErrClientTokenInstallMismatch else
        if negb (fresh_token t) then Err ErrClientTokenExpired else
        Ok (touch (tk_ID t) db, t <| tk_LastActiveAt := now |>)
    end).

(** [ResolveClientTokenOwner]: of the client the token belongs to. *)
Definition ResolveClientTokenOwner (db : admin_db) (rawToken : string) : result string :=
  if rawToken =?s "" then Err ErrClientTokenInvalid else
  match filter (λ t, (tk_TokenHash t =?s hashToken rawToken) = true) (loadClientTokens (λ _, true) db) with
  | [] => Err ErrClientTokenInvalid
  | t :: _ => match registered_clients db !! tk_ClientID t with
              | None => Err ErrUserOwnerUnavailable
              | Some c => if cl_OwnerUserID c =?s "" then Err ErrUserOwnerUnavailable
                          else Ok (cl_OwnerUserID c)
              end
  end.

Definition TouchToken (sql : option goerror) (tokenID remoteAddr : string) (db : admin_db)
  : admin_db * result unit :=
  let ip := remoteIP remoteAddr in
  transaction sql db (
    Ok (set_tokens (alter (λ t, (if ip =?s "" then t else t <| tk_LastIP := ip |>)
                                <| tk_LastActiveAt := now |>) tokenID (client_tokens db)) db, tt)).

Definition RevokeToken (sql : option goerror) (tokenID : string) (db : admin_db) : admin_db * result unit :=
  transaction sql db (
    if bool_decide (is_Some (client_tokens db !! tokenID))
    then Ok (set_tokens (alter (λ t, t <| tk_IsRevoked := true |>) tokenID (client_tokens db)) db, tt)
    else Err (Errorf "token %q not found" [AStr tokenID])).

Definition RevokeTokensByKeyID (sql : option goerror) (keyID : string) (db : admin_db)
  : admin_db * result Z :=
  let mine t := (tk_KeyID t =?s keyID) && negb (tk_IsRevoked t) in
  transaction sql db (
    Ok (set_tokens (update_rows mine (λ t, t <| tk_IsRevoked := true |>) (client_tokens db)) db,
        count_rows mine (client_tokens db))).

Definition CleanExpiredTokens (sql : option goerror) (db : admin_db) : admin_db * result unit :=
  transaction sql db (
    Ok (set_tokens (delete_rows (λ t, tk_IsRevoked t
                                      || text_le (tk_LastActiveAt t) (now - clientTokenInactivityTTL))
                      (client_tokens db)) db, tt)).

Definition GetTokensByKeyID (db : admin_db) (keyID : string) : list ClientToken :=
  loadClientTokens (λ t, tk_KeyID t =?s keyID) db.

Definition GetClientTokenByInstallID (db : admin_db) (installID : string) : option ClientToken :=
  head (filter (λ t, fresh_token t = true)
          (loadClientTokens (λ t, (tk_InstallID t =?s installID) && negb (tk_IsRevoked t)) db)).
End Credentials.
