(* ===== verification/CredentialsInv.v ===== *)
(** The invariant of API keys, clients and tokens ([Credentials]) over every
    run of operations. *)
From Stdlib Require Import ZArith Lia Ascii String Strings.Byte.
From stdpp Require Import base tactics numbers list gmap strings sorting relations.
From S2P Require Import Prelude Records GoStrings GoTime GoUTF8 Activity AdminDB Users UsersInv Credentials.

(** Two live tokens of one installation are one. *)
Definition live_of (installID : string) (t : ClientToken) : Prop :=
  tk_InstallID t = installID ∧ tk_IsRevoked t = false.

Record credentials_ok (db : admin_db) : Prop := {
  cr_key : ∀ id k, api_keys db !! id = Some k → ak_ID k = id;
  cr_uses : ∀ id k, api_keys db !! id = Some k →
    0 ≤ ak_UseCount k ∧ (0 < ak_MaxUses k → ak_UseCount k ≤ ak_MaxUses k);
  cr_token : ∀ id t, client_tokens db !! id = Some t → tk_ID t = id;
  cr_hash : ∀ id1 id2 t1 t2, client_tokens db !! id1 = Some t1 → client_tokens db !! id2 = Some t2 →
    tk_TokenHash t1 = tk_TokenHash t2 → id1 = id2;
  cr_live : ∀ install id1 id2 t1 t2, client_tokens db !! id1 = Some t1 → client_tokens db !! id2 = Some t2 →
    live_of install t1 → live_of install t2 → id1 = id2;
  cr_client : ∀ id c, registered_clients db !! id = Some c → cl_ID c = id;
  cr_install : ∀ id1 id2 c1 c2, registered_clients db !! id1 = Some c1 → registered_clients db !! id2 = Some c2 →
    cl_InstallID c1 = cl_InstallID c2 → id1 = id2;
}.

(** Rows may go, as long as what stays is what it was. *)
Definition fewer_credentials (db db' : admin_db) : Prop :=
  api_keys db' ⊆ api_keys db ∧ registered_clients db' ⊆ registered_clients db ∧
  client_tokens db' ⊆ client_tokens db.

Lemma credentials_ok_fewer db db' : credentials_ok db → fewer_credentials db db' → credentials_ok db'.
Proof.
  intros [H1 H2 H3 H4 H5 H6 H7] (Hk & Hc & Ht).
  split; intros; eauto using lookup_weaken.
Qed.

Lemma fewer_refl db db' :
  api_keys db' = api_keys db → registered_clients db' = registered_clients db →
  client_tokens db' = client_tokens db → fewer_credentials db db'.
Proof. unfold fewer_credentials. intros -> -> ->. done. Qed.

Lemma append_fewer `{ActivityLog} spec db db' id :
  appendTx spec db = Ok (db', id) → fewer_credentials db db'.
Proof. intros Ha. rewrite (append_touches _ _ _ _ Ha). apply fewer_refl; by destruct db. Qed.

(** ** Keys *)

Lemma key_changed db db' id f :
  credentials_ok db → api_keys db' = alter f id (api_keys db) →
  registered_clients db' = registered_clients db → client_tokens db' = client_tokens db →
  (∀ k, api_keys db !! id = Some k → ak_ID (f k) = ak_ID k ∧
     0 ≤ ak_UseCount (f k) ∧ (0 < ak_MaxUses (f k) → ak_UseCount (f k) ≤ ak_MaxUses (f k))) →
  credentials_ok db'.
Proof.
  intros [H1 H2 H3 H4 H5 H6 H7] Ek Ec Et Hf.
  split; rewrite ?Ec, ?Et; try done; rewrite Ek; intros i k;
    rewrite lookup_alter_Some; intros [[-> (k0 & Hk & ->)]|[_ Hk]]; eauto;
    destruct (Hf _ Hk) as [E Hu]; [rewrite E; by apply H1|done].
Qed.

Lemma insertAPIKey_ok key db db' :
  credentials_ok db → insertAPIKey key db = Ok db' → ak_UseCount key = 0 → credentials_ok db'.
Proof.
  intros [H1 H2 H3 H4 H5 H6 H7]. unfold insertAPIKey. destruct (_ =?s "")%string; [done|].
  destruct (bool_decide _); [done|]. intros [= <-] Hu. split; cbn; try done.
  - intros id k [[<- <-]|[_ ?]]%lookup_insert_Some; [done|by apply H1].
  - intros id k [[<- <-]|[_ ?]]%lookup_insert_Some; [lia|by apply (H2 id)].
Qed.

Lemma newAPIKey_unused `{ActivityLog} bg ld now random name keyString permissions expiresAt k :
  newAPIKey bg ld now random name keyString permissions expiresAt = Ok k → ak_UseCount k = 0.
Proof.
  unfold newAPIKey. intros (? & _ & H')%bind_ok. apply bind_ok in H' as (? & _ & H').
  by apply bind_ok in H' as (? & _ & [= <-]).
Qed.

(** ** Looking rows up *)

Lemma elem_of_loadClientTokens f db t :
  t ∈ loadClientTokens f db ↔ (∃ id, client_tokens db !! id = Some t) ∧ f t = true.
Proof. unfold loadClientTokens. by rewrite merge_sort_Permutation, elem_of_select_rows. Qed.

Lemma head_filter {A} (P : A → Prop) `{∀ x, Decision (P x)} l x :
  head (filter P l) = Some x → P x ∧ x ∈ l.
Proof.
  intros Hh. destruct (filter P l) as [|y ys] eqn:Ef; [done|]. injection Hh as ->.
  assert (Hx : x ∈ x :: ys) by apply list_elem_of_here. rewrite <- Ef in Hx.
  by apply list_elem_of_filter in Hx.
Qed.

Lemma filter_cons_head {A} (P : A → Prop) `{∀ x, Decision (P x)} l x ys :
  filter P l = x :: ys → P x ∧ x ∈ l.
Proof. intros Ef. apply (head_filter P). by rewrite Ef. Qed.

Lemma filter_none {A} (P : A → Prop) `{∀ x, Decision (P x)} l x :
  filter P l = [] → x ∈ l → ¬ P x.
Proof.
  intros Ef Hx Hp. assert (Hf : x ∈ filter P l) by by apply list_elem_of_filter.
  rewrite Ef in Hf. by apply not_elem_of_nil in Hf.
Qed.

Lemma client_of_install_Some db install c :
  client_of_install install db = Some c →
  (∃ id, registered_clients db !! id = Some c) ∧ cl_InstallID c = install.
Proof.
  unfold client_of_install. intros Hh.
  destruct (select_rows _ _) as [|c' l] eqn:Es; [done|]. injection Hh as ->.
  assert (Hin : c ∈ select_rows (λ c, cl_InstallID c =?s install) (registered_clients db))
    by (rewrite Es; apply list_elem_of_here).
  apply elem_of_select_rows in Hin as [? ?%String.eqb_eq]. done.
Qed.

Lemma client_of_install_None db install id c :
  client_of_install install db = None → registered_clients db !! id = Some c → cl_InstallID c ≠ install.
Proof.
  unfold client_of_install. intros Hh Hc E.
  assert (Hin : c ∈ select_rows (λ c, cl_InstallID c =?s install) (registered_clients db)).
  { apply elem_of_select_rows. split; [eauto|]. by apply String.eqb_eq. }
  destruct (select_rows _ _) as [|c' l]; [|done]. by apply not_elem_of_nil in Hin.
Qed.

Lemma hash_taken_false db id hash id' t :
  hash_taken id hash db = false → client_tokens db !! id' = Some t → id' ≠ id → tk_TokenHash t ≠ hash.
Proof.
  intros Ht Hl Hne E. apply not_true_iff_false in Ht. apply Ht, existsb_exists. exists (id', t).
  rewrite <- list_elem_of_In, elem_of_map_to_list. split; [done|]. cbn.
  by rewrite E, String.eqb_refl, (proj2 (String.eqb_neq _ _) Hne).
Qed.

(** ** Clients *)

Lemma clients_changed db db' id f :
  credentials_ok db → registered_clients db' = alter f id (registered_clients db) →
  api_keys db' = api_keys db → client_tokens db' = client_tokens db →
  (∀ c, cl_ID (f c) = cl_ID c ∧ cl_InstallID (f c) = cl_InstallID c) → credentials_ok db'.
Proof.
  intros [H1 H2 H3 H4 H5 H6 H7] Ec Ek Et Hf. split; rewrite ?Ek, ?Et; try done; rewrite Ec.
  - intros i c. rewrite lookup_alter_Some. intros [[-> (c0 & Hc & ->)]|[_ Hc]]; [|by apply H6].
    destruct (Hf c0) as [-> _]. by apply H6.
  - assert (Hi : ∀ i c, alter f id (registered_clients db) !! i = Some c →
      ∃ c0, registered_clients db !! i = Some c0 ∧ cl_InstallID c0 = cl_InstallID c).
    { intros i c. rewrite lookup_alter_Some. intros [[-> (c0 & Hc & ->)]|[_ Hc]]; [|eauto].
      exists c0. split; [done|]. by destruct (Hf c0) as [_ ->]. }
    intros i1 i2 c1 c2 (d1 & D1 & E1)%Hi (d2 & D2 & E2)%Hi E. apply (H7 _ _ _ _ D1 D2). congruence.
Qed.

Lemma getOrCreateClient_ok now random ownerUserID installID info lastIP db db' c created :
  credentials_ok db →
  getOrCreateClientInTx now random ownerUserID installID info lastIP db = Ok (db', (c, created)) →
  credentials_ok db' ∧ api_keys db' = api_keys db ∧ client_tokens db' = client_tokens db ∧
  users db' = users db ∧ registered_clients db' !! cl_ID c = Some c ∧ cl_OwnerUserID c = ownerUserID ∧
  cl_InstallID c = installID.
Proof.
  intros Hok. unfold getOrCreateClientInTx. destruct (_ =?s "")%string; [done|].
  destruct (client_of_install installID db) as [c0|] eqn:Ei.
  - destruct (String.eqb_spec (cl_OwnerUserID c0) ownerUserID) as [Eo|]; [|done]. intros [= <- <- <-].
    apply client_of_install_Some in Ei as [[id Hid] Ei].
    split; [|repeat split; try done].
    + eapply (clients_changed _ _ (cl_ID c0)); [done|reflexivity|done|done|]. by intros ?.
    + cbn. rewrite lookup_alter_eq, (cr_client _ Hok _ _ Hid), Hid. done.
  - intros H. apply bind_ok in H as (clientID & _ & H).
    destruct (bool_decide _) eqn:Efree; [done|]. injection H as <- <- <-.
    apply bool_decide_eq_false in Efree. split; [|repeat split; try done; apply lookup_insert_eq].
    destruct Hok as [H1 H2 H3 H4 H5 H6 H7]. split; try done; cbn.
    + intros id c [[<- <-]|[_ ?]]%lookup_insert_Some; [done|by apply H6].
    + intros i1 i2 c1 c2 [[<- <-]|[_ L1]]%lookup_insert_Some [[<- <-]|[_ L2]]%lookup_insert_Some E; [done| | |by apply (H7 _ _ c1 c2)].
      * cbn in E. symmetry in E. by destruct (client_of_install_None _ _ _ _ Ei L2).
      * cbn in E. by destruct (client_of_install_None _ _ _ _ Ei L1).
Qed.

(** ** Tokens *)

(** A token changes, but not what the invariant says of it. *)
Lemma tokens_altered db id f hash :
  credentials_ok db → (∀ t, client_tokens db !! id = Some t → tk_TokenHash (f t) = tk_TokenHash t ∨
                            tk_TokenHash (f t) = hash ∧ hash_taken id hash db = false) →
  (∀ t, tk_ID (f t) = tk_ID t ∧ tk_InstallID (f t) = tk_InstallID t ∧
        (tk_IsRevoked (f t) = false → tk_IsRevoked t = false)) →
  credentials_ok (set_tokens (alter f id (client_tokens db)) db).
Proof.
  intros [H1 H2 H3 H4 H5 H6 H7] Hhash Hf.
  assert (Hcase : ∀ i t, alter f id (client_tokens db) !! i = Some t →
    (i = id ∧ ∃ u, client_tokens db !! id = Some u ∧ t = f u) ∨ (i ≠ id ∧ client_tokens db !! i = Some t)).
  { intros i t. rewrite lookup_alter_Some. naive_solver. }
  split; cbn; try done.
  - intros i t [[-> (u & Hu & ->)]|[_ Ht]]%Hcase; [|by apply H3]. destruct (Hf u) as [-> _]. by apply H3.
  - assert (Hcross : ∀ i t u, i ≠ id → client_tokens db !! i = Some t → client_tokens db !! id = Some u →
      tk_TokenHash t ≠ tk_TokenHash (f u)).
    { intros i t u Hne Ht Hu E. destruct (Hhash _ Hu) as [Eh|[Eh Hfree]].
      - rewrite Eh in E. by destruct (Hne (H4 _ _ _ _ Ht Hu E)).
      - rewrite Eh in E. by apply (hash_taken_false _ _ _ _ _ Hfree Ht). }
    intros i1 i2 t1 t2 [[-> (u1 & U1 & ->)]|[N1 T1]]%Hcase [[-> (u2 & U2 & ->)]|[N2 T2]]%Hcase E; [done| | |].
    + symmetry in E. by destruct (Hcross _ _ _ N2 T2 U1).
    + by destruct (Hcross _ _ _ N1 T1 U2).
    + by apply (H4 _ _ t1 t2).
  - assert (Hback : ∀ i t install, alter f id (client_tokens db) !! i = Some t → live_of install t →
      ∃ u, client_tokens db !! i = Some u ∧ live_of install u).
    { intros i t install [[-> (u & Hu & ->)]|[_ Ht]]%Hcase [Hi Hr]; [|by exists t].
      exists u. destruct (Hf u) as (_ & Ei & Er). split; [done|]. split; [congruence|auto]. }
    intros install i1 i2 t1 t2 T1 T2 L1 L2.
    destruct (Hback _ _ _ T1 L1) as (u1 & U1 & M1), (Hback _ _ _ T2 L2) as (u2 & U2 & M2).
    by apply (H5 install _ _ u1 u2).
Qed.

Section Runs.
Context `{log : ActivityLog}.
Context (bcrypt_generate : string → result string) (bcrypt_compare : string → string → bool).
Context (digest hashToken : string → string).

Abbreviation exchange := (exchangeTokenInTx bcrypt_compare digest hashToken).
Abbreviation the_key := (findKeyByRawLocked bcrypt_compare digest).

Lemma find_raw_Some db raw k : the_key db raw = Some k → ∃ id, api_keys db !! id = Some k.
Proof.
  unfold findKeyByRawLocked, find_raw. intros [_ Hk]%head_filter.
  unfold candidateAPIKeysForRaw, loadAPIKeysByLookupDigest in Hk.
  destruct (merge_sort _ (select_rows (λ k, ak_LookupDigest k =?s digest raw) (api_keys db))) eqn:Em.
  - rewrite merge_sort_Permutation in Hk. by apply elem_of_select_rows in Hk as [? _].
  - rewrite <- Em, merge_sort_Permutation in Hk. by apply elem_of_select_rows in Hk as [? _].
Qed.

(** What a token exchange with a key does. *)
Record exchanged (now : Z) (k : APIKey) (installID clientID : string) (db db' : admin_db)
    (token : string) (row : ClientToken) : Prop := {
  xc_row : client_tokens db' !! tk_ID row = Some row;
  xc_hash : tk_TokenHash row = hashToken token;
  xc_live : live_of installID row;
  xc_key : tk_KeyID row = ak_ID k;
  xc_client : tk_ClientID row = clientID;
  xc_active : tk_LastActiveAt row = now;
  xc_rest : users db' = users db ∧ registered_clients db' = registered_clients db;
  xc_count :
    (** A live token of the installation from the same key was refreshed. *)
    (∃ t, client_tokens db !! tk_ID row = Some t ∧ live_of installID t ∧ tk_KeyID t = ak_ID k ∧
          fresh_token now t = true ∧ api_keys db' = api_keys db) ∨
    (** There was none, and the key is used once more. *)
    ((∀ id t, client_tokens db !! id = Some t → live_of installID t → tk_KeyID t = ak_ID k →
              fresh_token now t = false) ∧
     api_keys db' = alter (λ k, k <| ak_UseCount := ak_UseCount k + 1 |>) (ak_ID k) (api_keys db));
}.

Lemma exchange_does now rt rid key installID clientID ip db db' token row k :
  credentials_ok db → the_key db key = Some k → (0 < ak_MaxUses k → ak_UseCount k < ak_MaxUses k) →
  exchange now rt rid key installID clientID ip db = Ok (db', (token, row)) →
  credentials_ok db' ∧ exchanged now k installID clientID db db' token row.
Proof.
  intros Hok Hk Hmax. unfold exchangeTokenInTx. rewrite Hk.
  destruct (filter _ (loadClientTokens _ db)) as [|t l] eqn:Ef.
  - intros H. apply bind_ok in H as (newToken & _ & H). apply bind_ok in H as (tokenID & _ & H).
    destruct (bool_decide _ || _) eqn:Efree; [done|]. injection H as <- <- <-.
    apply orb_false_iff in Efree as [Enone%bool_decide_eq_false Ehash].
    set (revoked := update_rows _ _ (client_tokens db)) in *.
    set (fresh := {| tk_ID := tokenID; tk_TokenHash := hashToken newToken; tk_InstallID := installID;
                     tk_KeyID := ak_ID k; tk_ClientID := clientID; tk_CreatedAt := now;
                     tk_LastActiveAt := now; tk_LastIP := ip; tk_IsRevoked := false |}).
    assert (Hrev : ∀ i u, revoked !! i = Some u → ∃ v, client_tokens db !! i = Some v ∧
      tk_ID u = tk_ID v ∧ tk_TokenHash u = tk_TokenHash v ∧ ¬ live_of installID u ∧
      ∀ install, live_of install u → live_of install v).
    { intros i u. unfold revoked. rewrite lookup_update_rows. intros (v & Hv & ->)%fmap_Some. exists v.
      split; [done|]. unfold live_of.
      destruct ((tk_InstallID v =?s installID) && negb (tk_IsRevoked v)) eqn:Eb; cbn;
        (split; [done|]); (split; [done|]); (split; [|by intros ? [? ?]]); [by intros [? ?]|].
      intros [Ei Er]. by rewrite Ei, Er, String.eqb_refl in Eb. }
    assert (Enone' : revoked !! tokenID = None) by by apply eq_None_not_Some.
    split.
    + destruct (find_raw_Some _ _ _ Hk) as [kid Hkid]. pose proof (cr_key _ Hok _ _ Hkid) as Ekid.
      assert (Hok1 : credentials_ok (db <| api_keys :=
        alter (λ k, k <| ak_UseCount := ak_UseCount k + 1 |>) (ak_ID k) (api_keys db) |>)).
      { eapply key_changed; [exact Hok|reflexivity|done|done|]. intros k' Hk'. cbn. split; [done|].
        assert (k' = k) as -> by congruence. destruct (cr_uses _ Hok _ _ Hkid). split; lia. }
      destruct Hok1 as [H1 H2 H3 H4 H5 H6 H7]. cbn in *. split; cbn; try done.
      * intros i u [[<- <-]|[_ (v & Hv & -> & _)%Hrev]]%lookup_insert_Some; [done|by apply H3].
      * assert (Hcross : ∀ i u, revoked !! i = Some u → tk_TokenHash u ≠ hashToken newToken).
        { intros i u Hu. destruct (Hrev i u Hu) as (v & Hv & _ & -> & _).
          apply (hash_taken_false _ _ _ _ _ Ehash Hv). intros ->. by rewrite Enone' in Hu. }
        intros i1 i2 u1 u2 [[<- <-]|[_ L1]]%lookup_insert_Some [[<- <-]|[_ L2]]%lookup_insert_Some E; [done| | |].
        -- symmetry in E. by destruct (Hcross _ _ L2).
        -- by destruct (Hcross _ _ L1).
        -- destruct (Hrev _ _ L1) as (v1 & V1 & _ & E1 & _), (Hrev _ _ L2) as (v2 & V2 & _ & E2 & _).
           apply (H4 _ _ _ _ V1 V2). congruence.
      * intros install i1 i2 u1 u2 [[<- <-]|[_ L1]]%lookup_insert_Some [[<- <-]|[_ L2]]%lookup_insert_Some M1 M2; [done| | |].
        -- destruct (Hrev _ _ L2) as (v2 & _ & _ & _ & Hn & _). destruct M1 as [E1 _]. cbn in E1. by subst.
        -- destruct (Hrev _ _ L1) as (v1 & _ & _ & _ & Hn & _). destruct M2 as [E2 _]. cbn in E2. by subst.
        -- destruct (Hrev _ _ L1) as (v1 & V1 & _ & _ & _ & B1), (Hrev _ _ L2) as (v2 & V2 & _ & _ & _ & B2).
           apply (H5 install _ _ v1 v2); auto.
    + split; cbn; try done; [by rewrite lookup_insert_eq|]. right. split; [|done].
      intros id t Ht [Ei Er] Ek. apply not_true_iff_false. intros Hfresh.
      apply (filter_none _ _ t Ef).
      * apply elem_of_loadClientTokens. split; [eauto|]. by rewrite Ei, Er, String.eqb_refl.
      * by rewrite Hfresh, Ek, String.eqb_refl.
  - intros H. apply bind_ok in H as (newToken & _ & H). destruct (hash_taken _ _ _) eqn:Eh; [done|].
    injection H as <- <- <-. apply filter_cons_head in Ef as [Hp Hin].
    apply elem_of_loadClientTokens in Hin as [[id Hid] Hl].
    apply andb_true_iff in Hp as [Hfresh Ek%String.eqb_eq].
    apply andb_true_iff in Hl as [Ei%String.eqb_eq Er%negb_true_iff].
    pose proof (cr_token _ Hok _ _ Hid) as Eid. split.
    + apply (tokens_altered _ _ _ (hashToken newToken)); [done|by right|by intros ?].
    + split; cbn; try done.
      * by rewrite lookup_alter_eq, Eid, Hid.
      * left. exists t. rewrite Eid. by repeat split.
Qed.

(** A checked key has a use left. *)
Lemma checked_key_use now db key :
  checked_key bcrypt_compare digest now db key = Ok tt → ∃ k, the_key db key = Some k ∧
  (0 < ak_MaxUses k → ak_UseCount k < ak_MaxUses k) ∧ ak_IsActive k = true ∧
  (∀ t, ak_ExpiresAt k = Some t → now ≤ t) ∧
  ∃ owner, users db !! ak_OwnerUserID k = Some owner ∧ u_Status owner = UserStatusActive.
Proof.
  unfold checked_key, findKeyByRawLocked. intros Hc.
  destruct (validateClientKeyLocked _ _ _ _ _) as [[]|e] eqn:Ev; [|done]. clear Hc.
  unfold validateClientKeyLocked in Ev. destruct (key =?s "")%string; [done|].
  destruct (candidateAPIKeysForRaw _ _ _); [destruct (negb _); [done|]; by destruct (negb _)|].
  destruct (find_raw _ _ _ _) as [k|]; [|done]. exists k. split; [done|].
  destruct (users db !! ak_OwnerUserID k) as [owner|]; [|done].
  destruct (String.eqb_spec (u_Status owner) UserStatusActive) as [Ha|]; [|done]. cbn [negb] in Ev.
  destruct (ak_IsActive k); [|done]. cbn [negb] in Ev.
  destruct (match ak_ExpiresAt k with Some t => t <? now | None => false end) eqn:Ex; [done|].
  destruct ((0 <? ak_MaxUses k) && (ak_MaxUses k <=? ak_UseCount k)) eqn:Em; [done|].
  split; [lia|]. split; [done|]. split; [intros t E; rewrite E in Ex; lia|eauto].
Qed.

(** One operation on keys, clients or tokens, at any time, with any outcome of
    the database; or rows that go, as with their user, and changes elsewhere. *)
Inductive credentials_step (db : admin_db) : admin_db → Prop :=
| cs_add_key now sql random owner name key perms expires db' r :
    addAPIKeyForUser bcrypt_generate digest now sql random owner name key perms expires db = (db', r) →
    credentials_step db db'
| cs_add_key_activity now sql random owner name key perms expires maxUses actor db' r :
    AddAPIKeyForUserWithActivity bcrypt_generate digest now sql random owner name key perms expires
      maxUses actor db = (db', r) → credentials_step db db'
| cs_add_legacy now sql random name key perms expires db' r :
    AddAPIKey bcrypt_generate digest now sql random name key perms expires db = (db', r) →
    credentials_step db db'
| cs_add_legacy_activity now sql random name key perms expires maxUses actor db' r :
    AddAPIKeyWithActivity bcrypt_generate digest now sql random name key perms expires maxUses actor db
    = (db', r) → credentials_step db db'
| cs_active sql id active db' r : SetAPIKeyActive sql id active db = (db', r) → credentials_step db db'
| cs_active_activity now sql owner id active actor db' r :
    SetAPIKeyActiveWithActivity now sql owner id active actor db = (db', r) → credentials_step db db'
| cs_delete sql id db' r : DeleteAPIKey sql id db = (db', r) → credentials_step db db'
| cs_delete_activity now sql owner id actor db' r :
    DeleteAPIKeyWithActivity now sql owner id actor db = (db', r) → credentials_step db db'
| cs_client now sql random owner install info addr db' r :
    GetOrCreateClientForUser now sql random owner install info addr db = (db', r) → credentials_step db db'
| cs_legacy_client now sql random install info addr db' r :
    GetOrCreateClient now sql random install info addr db = (db', r) → credentials_step db db'
| cs_rename now sql id name actor db' r :
    UpdateClientDisplayNameWithActivity now sql id name actor db = (db', r) → credentials_step db db'
| cs_bandwidth now sql id ingress egress actor db' r :
    UpdateClientBandwidthSettingsWithActivity now sql id ingress egress actor db = (db', r) →
    credentials_step db db'
| cs_exchange now sql rt rid key install client addr db' r :
    ExchangeToken bcrypt_compare digest hashToken now sql rt rid key install client addr db = (db', r) →
    credentials_step db db'
| cs_register now sql rc rt rid key install info addr db' r :
    RegisterClientAndExchangeToken bcrypt_compare digest hashToken now sql rc rt rid key install info addr db
    = (db', r) → credentials_step db db'
| cs_validate now sql token install db' r :
    ValidateClientToken hashToken now sql token install db = (db', r) → credentials_step db db'
| cs_touch now sql id addr db' r : TouchToken now sql id addr db = (db', r) → credentials_step db db'
| cs_revoke sql id db' r : RevokeToken sql id db = (db', r) → credentials_step db db'
| cs_revoke_key sql id db' r : RevokeTokensByKeyID sql id db = (db', r) → credentials_step db db'
| cs_clean now sql db' r : CleanExpiredTokens now sql db = (db', r) → credentials_step db db'
| cs_fewer db' : fewer_credentials db db' → credentials_step db db'.

Ltac steps H :=
  repeat first
    [ let Hs := fresh "Hst" in apply bind_ok in H as (? & Hs & H)
    | match goal with x : _ * _ |- _ => destruct x | x : unit |- _ => destruct x end ].
Ltac tx H :=
  apply transaction_cases in H as [(? & -> & H & ->)|[-> _]]; [|assumption]; steps H.

Lemma append_ok spec db db' id :
  credentials_ok db → appendTx spec db = Ok (db', id) → credentials_ok db'.
Proof. intros Hok Ha. eapply credentials_ok_fewer; [done|]. by eapply append_fewer. Qed.

Lemma add_key_ok now random name key perms expires owner maxUses k db db' :
  credentials_ok db → newAPIKey bcrypt_generate digest now random name key perms expires = Ok k →
  insertAPIKey (k <| ak_OwnerUserID := owner |>) db = Ok db' ∨
  insertAPIKey (k <| ak_OwnerUserID := owner |> <| ak_MaxUses := maxUses |>) db = Ok db' ∨
  insertAPIKey (k <| ak_MaxUses := maxUses |> <| ak_OwnerUserID := owner |>) db = Ok db' →
  credentials_ok db'.
Proof.
  intros Hok Hk%newAPIKey_unused [Hi|[Hi|Hi]]; (eapply insertAPIKey_ok; [exact Hok|exact Hi|exact Hk]).
Qed.

Lemma active_ok id active db : credentials_ok db → credentials_ok (set_active id active db).
Proof.
  intros Hok. eapply (key_changed _ _ id); [done|reflexivity|done|done|]. intros k Hk. cbn.
  split; [done|]. by apply (cr_uses _ Hok id).
Qed.

Lemma delete_key_fewer id db : fewer_credentials db (delete_key id db).
Proof. repeat split; try done. apply delete_subseteq. Qed.

Lemma revoked_rows_ok f db :
  credentials_ok db → credentials_ok (set_tokens (update_rows f (λ t, t <| tk_IsRevoked := true |>) (client_tokens db)) db).
Proof.
  intros [H1 H2 H3 H4 H5 H6 H7].
  assert (Hback : ∀ i t, update_rows f (λ t, t <| tk_IsRevoked := true |>) (client_tokens db) !! i = Some t →
    ∃ u, client_tokens db !! i = Some u ∧ tk_ID t = tk_ID u ∧ tk_TokenHash t = tk_TokenHash u ∧
         ∀ install, live_of install t → live_of install u).
  { intros i t. rewrite lookup_update_rows. intros (u & Hu & ->)%fmap_Some. exists u. split; [done|].
    destruct (f u); cbn; (split; [done|]); (split; [done|]); intros install Hl; [by destruct Hl|done]. }
  split; cbn; try done.
  - intros i t (u & Hu & -> & _)%Hback. by apply H3.
  - intros i1 i2 t1 t2 (u1 & U1 & _ & E1 & _)%Hback (u2 & U2 & _ & E2 & _)%Hback E.
    apply (H4 _ _ _ _ U1 U2). congruence.
  - intros install i1 i2 t1 t2 (u1 & U1 & _ & _ & B1)%Hback (u2 & U2 & _ & _ & B2)%Hback L1 L2.
    apply (H5 install _ _ _ _ U1 U2); auto.
Qed.

Lemma tokens_plain db id f :
  credentials_ok db →
  (∀ t, tk_ID (f t) = tk_ID t ∧ tk_InstallID (f t) = tk_InstallID t ∧ tk_TokenHash (f t) = tk_TokenHash t ∧
        (tk_IsRevoked (f t) = false → tk_IsRevoked t = false)) →
  credentials_ok (set_tokens (alter f id (client_tokens db)) db).
Proof.
  intros Hok Hf. apply (tokens_altered _ _ _ ""); [done| |]; intros t; [left|]; by destruct (Hf t) as (? & ? & ? & ?).
Qed.

Lemma credentials_step_ok db db' : credentials_ok db → credentials_step db db' → credentials_ok db'.
Proof.
  intros Hok. destruct 1 as
    [* H|* H|* H|* H|* H|* H|* H|* H|* H|* H|* H|* H|* H|* H|* H|* H|* H|* H|* H|* H].
  - unfold addAPIKeyForUser in H. destruct (owner =?s "")%string; [by injection H as <- <-|].
    destruct (newAPIKey _ _ _ _ _ _ _ _) as [k|] eqn:Ek; [|by injection H as <- <-].
    tx H. injection H as <- <-. eapply (add_key_ok _ _ _ _ _ _ owner 0); [done|exact Ek|by left].
  - unfold AddAPIKeyForUserWithActivity in H. destruct (owner =?s "")%string; [by injection H as <- <-|].
    destruct (maxUses <? 0); [by injection H as <- <-|].
    destruct (newAPIKey _ _ _ _ _ _ _ _) as [k|] eqn:Ek; [|by injection H as <- <-].
    tx H. steps H. injection H as <- <- <-. eapply append_ok; [|done].
    eapply (add_key_ok _ _ _ _ _ _ owner maxUses); [done|exact Ek|eauto].
  - unfold AddAPIKey in H. destruct (newAPIKey _ _ _ _ _ _ _ _) as [k|] eqn:Ek; [|by injection H as <- <-].
    tx H. injection H as <- <-. eapply (add_key_ok _ _ _ _ _ _ _ 0); [done|exact Ek|by left].
  - unfold AddAPIKeyWithActivity in H. destruct (maxUses <? 0); [by injection H as <- <-|].
    destruct (newAPIKey _ _ _ _ _ _ _ _) as [k|] eqn:Ek; [|by injection H as <- <-].
    tx H. steps H. injection H as <- <- <-. eapply append_ok; [|done].
    eapply (add_key_ok _ _ _ _ _ _ _ maxUses); [done|exact Ek|eauto].
  - unfold SetAPIKeyActive in H. tx H. destruct (bool_decide _); [|done]. injection H as <-.
    by apply active_ok.
  - unfold SetAPIKeyActiveWithActivity in H. tx H. destruct (find_key _ _ _) as [k|]; [|done].
    destruct (Bool.eqb _ _); [by injection H as <- <-|]. eapply append_ok; [|done]. by apply active_ok.
  - unfold DeleteAPIKey in H. tx H. destruct (bool_decide _); [|done]. injection H as <-.
    eapply credentials_ok_fewer; [done|apply delete_key_fewer].
  - unfold DeleteAPIKeyWithActivity in H. tx H. destruct (find_key _ _ _) as [k|]; [|done].
    eapply append_ok; [|done]. eapply credentials_ok_fewer; [done|apply delete_key_fewer].
  - unfold GetOrCreateClientForUser in H. destruct (install =?s "")%string; [by injection H as <- <-|].
    destruct (owner =?s "")%string; [by injection H as <- <-|]. tx H. injection H as <- <-.
    by eapply getOrCreateClient_ok.
  - unfold GetOrCreateClient in H. destruct (install =?s "")%string; [by injection H as <- <-|].
    tx H. injection H as <- <-. by eapply getOrCreateClient_ok.
  - unfold UpdateClientDisplayNameWithActivity in H. tx H.
    destruct (registered_clients db !! id); [|done]. destruct (_ =?s _)%string; [by injection H as <- <-|].
    eapply append_ok; [|done]. eapply clients_changed; [done|reflexivity|done|done|by intros ?].
  - unfold UpdateClientBandwidthSettingsWithActivity in H. tx H.
    destruct (registered_clients db !! id); [|done]. destruct (_ && _); [by injection H as <- <-|].
    eapply append_ok; [|done]. eapply clients_changed; [done|reflexivity|done|done|by intros ?].
  - unfold ExchangeToken in H. tx H. edestruct checked_key_use as (k & Hk & Huse & _); [done|].
    by eapply exchange_does.
  - unfold RegisterClientAndExchangeToken in H. destruct (install =?s "")%string; [by injection H as <- <-|].
    tx H. edestruct checked_key_use as (k & Hk & Huse & _); [done|]. rewrite Hk in H. steps H.
    injection H as <- <-.
    match goal with Hg : getOrCreateClientInTx _ _ _ _ _ _ _ = Ok _ |- _ =>
      destruct (getOrCreateClient_ok _ _ _ _ _ _ _ _ _ _ Hok Hg) as (Hok1 & Ek & _) end.
    match goal with He : exchange _ _ _ _ _ _ _ _ = Ok _ |- _ =>
      eapply exchange_does in He as [Hok2 _]; [|exact Hok1| |exact Huse] end.
    2:{ rewrite <- Hk. unfold findKeyByRawLocked, find_raw, candidateAPIKeysForRaw, loadAPIKeysByLookupDigest.
        by rewrite Ek. }
    match goal with Ha : (if ?b then _ else _) = Ok _ |- _ => destruct b; [|by injection Ha as <- <-] end.
    by eapply append_ok.
  - unfold ValidateClientToken in H. destruct (token =?s "")%string; [by injection H as <- <-|]. tx H.
    destruct (filter _ _) as [|t l]; [done|]. destruct (tk_IsRevoked t); [done|].
    destruct (negb (_ =?s _)%string); [done|]. destruct (negb _); [done|]. injection H as <- <-.
    apply tokens_plain; [done|by intros ?].
  - unfold TouchToken in H. tx H. injection H as <-. apply tokens_plain; [done|].
    intros t. by destruct (_ =?s _)%string.
  - unfold RevokeToken in H. tx H. destruct (bool_decide _); [|done]. injection H as <-.
    apply tokens_plain; [done|by intros ?].
  - unfold RevokeTokensByKeyID in H. tx H. injection H as <- <-. by apply revoked_rows_ok.
  - unfold CleanExpiredTokens in H. tx H. injection H as <-. eapply credentials_ok_fewer; [done|].
    repeat split; try done. apply map_filter_subseteq.
  - by eapply credentials_ok_fewer.
Qed.

Lemma credentials_run_ok db db' : credentials_ok db → rtc credentials_step db db' → credentials_ok db'.
Proof. induction 2; eauto using credentials_step_ok. Qed.
End Runs.

Lemma empty_credentials_ok : credentials_ok empty_db.
Proof. split; try done; intros *; rewrite lookup_empty; done. Qed.
