(* ===== verification/CredentialsProps.v ===== *)
(** Properties of API keys, clients and tokens ([Credentials]): what every run
    keeps, which token is accepted, and what a registration gives. *)
From Stdlib Require Import ZArith Lia Ascii String Strings.Byte.
From stdpp Require Import base tactics numbers list gmap strings sorting relations.
From S2P Require Import Prelude Records GoStrings GoTime GoUTF8 Activity AdminDB Users UsersInv Credentials CredentialsInv.

(** ** Samples *)

Section Samples.
Definition plain (s : string) : string := s.
Definition cr_hash_of (password : string) : result string := Ok ("#" +:+ password).
Definition cr_compare (hash password : string) : bool := (hash =?s "#" +:+ password)%string.
Definition cr_bytes (b : byte) : result (list byte) := Ok (replicate 16 b).
Definition cr_id (b : byte) : string := match generateUUIDE (cr_bytes b) with Ok s => s | Err _ => "" end.
Definition some_info : ClientInfo := {|
  ci_Hostname := "lab"; ci_OS := "linux"; ci_Arch := "amd64"; ci_IP := ""; ci_Version := "1";
  ci_PublicIPv4 := ""; ci_PublicIPv6 := ""; ci_Capabilities := "" |}.

(** A server with one administrator. *)
Definition cr_setup : admin_db :=
  (Initialize (λ _, false) (λ _, false) cr_hash_of 10 None (cr_bytes x01) (cr_bytes x09)
     "root" "passw0rd" "" [] empty_db).1 .
(** It makes a key for two uses. *)
Definition cr_keyed (db : admin_db) : admin_db :=
  (AddAPIKeyForUserWithActivity cr_hash_of plain 20 None (cr_bytes x0a) (cr_id x01) "lab" "sk-1" [] None 2
     systemActivityActor db).1 .
(** An installation registers with the key. *)
Definition cr_registers (now : Z) (b : byte) (install : string) (db : admin_db) :=
  RegisterClientAndExchangeToken cr_compare plain plain now None (cr_bytes b) (Ok (replicate 32 b)) (cr_bytes b)
    "sk-1" install some_info "203.0.113.9:4000" db.
Definition cr_registered : admin_db := (cr_registers 30 x11 "install-1" (cr_keyed cr_setup)).1 .
End Samples.

Lemma cr_registered_run : rtc (credentials_step cr_hash_of cr_compare plain plain) empty_db cr_registered.
Proof.
  eapply (rtc_l _ _ cr_setup).
  { apply cs_fewer. repeat split; vm_compute; intros []; exact I. }
  eapply rtc_l; [eapply cs_add_key_activity, surjective_pairing|].
  eapply rtc_once, cs_register, surjective_pairing.
Qed.

Lemma alter_found {K A} `{Countable K} (f : A → A) (k : K) (m : gmap K A) x :
  m !! k = Some x → alter f k m = <[k := f x]> m.
Proof.
  intros Hk. apply map_eq. intros i. destruct (decide (i = k)) as [->|Hi].
  - by rewrite lookup_alter_eq, lookup_insert_eq, Hk.
  - by rewrite lookup_alter_ne, lookup_insert_ne.
Qed.

(** ** What every run keeps *)

(** C7: over every run of operations on keys, clients and tokens from an empty
    database, whatever fails and whichever users go in between: a key with a
    limit was used at most that often, an installation has at most one token
    that is not revoked and is registered at most once, and a token belongs to
    one row. *)
Theorem credentials_invariant `{log : ActivityLog} hash compare digest hashToken db :
  rtc (credentials_step hash compare digest hashToken) empty_db db →
  (∀ id k, api_keys db !! id = Some k →
     0 ≤ ak_UseCount k ∧ (0 < ak_MaxUses k → ak_UseCount k ≤ ak_MaxUses k)) ∧
  (∀ id1 id2 t1 t2, client_tokens db !! id1 = Some t1 → client_tokens db !! id2 = Some t2 →
     tk_IsRevoked t1 = false → tk_IsRevoked t2 = false → tk_InstallID t1 = tk_InstallID t2 → id1 = id2) ∧
  (∀ id1 id2 c1 c2, registered_clients db !! id1 = Some c1 → registered_clients db !! id2 = Some c2 →
     cl_InstallID c1 = cl_InstallID c2 → id1 = id2) ∧
  (∀ id1 id2 t1 t2, client_tokens db !! id1 = Some t1 → client_tokens db !! id2 = Some t2 →
     tk_TokenHash t1 = tk_TokenHash t2 → id1 = id2).
Proof.
  intros Hrun. destruct (credentials_run_ok _ _ _ _ _ _ empty_credentials_ok Hrun) as [H1 H2 H3 H4 H5 H6 H7].
  split; [exact H2|split; [|split; [exact H7|exact H4]]].
  intros id1 id2 t1 t2 T1 T2 R1 R2 E. apply (H5 (tk_InstallID t2) id1 id2 t1 t2); by try split.
Qed.

Lemma credentials_invariant_witness :
  size (client_tokens cr_registered) = 1%nat ∧ ak_UseCount <$> (api_keys cr_registered !! cr_id x0a) = Some 1 ∧
  ∀ id k, api_keys cr_registered !! id = Some k →
    0 ≤ ak_UseCount k ∧ (0 < ak_MaxUses k → ak_UseCount k ≤ ak_MaxUses k).
Proof.
  split; [vm_compute; reflexivity|]. split; [vm_compute; reflexivity|].
  destruct (credentials_invariant cr_hash_of cr_compare plain plain _ cr_registered_run) as (Hk & _). exact Hk.
Defined.

(** ** Tokens *)

(** The row of a token. *)
Lemma filter_hash (hashToken : string → string) db token id t :
  credentials_ok db → client_tokens db !! id = Some t → tk_TokenHash t = hashToken token →
  ∃ l, filter (λ t, (tk_TokenHash t =?s hashToken token)%string = true) (loadClientTokens (λ _, true) db) = t :: l.
Proof.
  intros Hok Hid Eh. set (rows := filter _ _). assert (Ht : t ∈ rows).
  { apply list_elem_of_filter. rewrite Eh, String.eqb_refl. split; [done|].
    apply elem_of_loadClientTokens. eauto. }
  destruct rows as [|u l] eqn:Er; [by apply not_elem_of_nil in Ht|].
  exists l. f_equal. apply filter_cons_head in Er as [Eu%String.eqb_eq Hu].
  apply elem_of_loadClientTokens in Hu as [[id' Hid'] _].
  assert (id' = id) as -> by (eapply (cr_hash _ Hok); eauto; congruence). congruence.
Qed.

Lemma filter_no_hash (hashToken : string → string) db token :
  (∀ id t, client_tokens db !! id = Some t → tk_TokenHash t ≠ hashToken token) →
  filter (λ t, (tk_TokenHash t =?s hashToken token)%string = true) (loadClientTokens (λ _, true) db) = [].
Proof.
  intros Hno. destruct (filter _ _) as [|u l] eqn:Er; [done|exfalso].
  apply filter_cons_head in Er as [Eu%String.eqb_eq Hu].
  apply elem_of_loadClientTokens in Hu as [[id Hid] _]. by apply (Hno id u).
Qed.

(** The row of a token decides. *)
Lemma row_decides (hashToken : string → string) now token installID db id t :
  credentials_ok db → token ≠ ""%string → client_tokens db !! id = Some t → tk_TokenHash t = hashToken token →
  ValidateClientToken hashToken now None token installID db
  = if tk_IsRevoked t then (db, Err ErrClientTokenRevoked) else
    if negb (tk_InstallID t =?s installID) then (db, Err ErrClientTokenInstallMismatch) else
    if negb (now <? tk_LastActiveAt t + clientTokenInactivityTTL) then (db, Err ErrClientTokenExpired) else
    (db <| client_tokens := <[id := t <| tk_LastActiveAt := now |>]> (client_tokens db) |>,
     Ok (t <| tk_LastActiveAt := now |>)).
Proof.
  intros Hok Hne Hid Eh. unfold ValidateClientToken. rewrite (proj2 (String.eqb_neq _ _) Hne).
  destruct (filter_hash _ _ _ _ _ Hok Hid Eh) as [l ->]. unfold fresh_token. cbn [transaction].
  replace (now - tk_LastActiveAt t <? clientTokenInactivityTTL)
    with (now <? tk_LastActiveAt t + clientTokenInactivityTTL) by lia.
  destruct (tk_IsRevoked t); [done|]. destruct (negb _); [done|]. destruct (negb _); [done|]. f_equal.
  unfold touch, set_tokens. rewrite (cr_token _ Hok _ _ Hid). by rewrite (alter_found _ _ _ _ Hid).
Qed.

(** A token presented for an installation, the database working, is
    invalid if no row has its hash; otherwise the row decides, in this order:
    revoked, of another installation, unused for a hundred days, or accepted,
    when nothing changes but the time of its last use.  A row with the token's
    hash decides no matter which other rows there are. *)
Theorem token_validation_exact (hashToken : string → string) now token installID db :
  credentials_ok db →
  let r := ValidateClientToken hashToken now None token installID db in
  (token = "" ∨ (∀ id t, client_tokens db !! id = Some t → tk_TokenHash t ≠ hashToken token) →
     r = (db, Err ErrClientTokenInvalid)) ∧
  (∀ id t, token ≠ ""%string → client_tokens db !! id = Some t → tk_TokenHash t = hashToken token →
     (tk_IsRevoked t = true → r = (db, Err ErrClientTokenRevoked)) ∧
     (tk_IsRevoked t = false → tk_InstallID t ≠ installID → r = (db, Err ErrClientTokenInstallMismatch)) ∧
     (live_of installID t → tk_LastActiveAt t + clientTokenInactivityTTL ≤ now →
        r = (db, Err ErrClientTokenExpired)) ∧
     (live_of installID t → now < tk_LastActiveAt t + clientTokenInactivityTTL →
        ∃ db', r = (db', Ok (t <| tk_LastActiveAt := now |>)) ∧
               db' = db <| client_tokens := <[id := t <| tk_LastActiveAt := now |>]> (client_tokens db) |>)).
Proof.
  intros Hok r. split.
  - unfold r, ValidateClientToken. intros [->|Hno]; [done|]. rewrite (filter_no_hash _ _ _ Hno).
    by destruct (_ =?s _)%string.
  - intros id t Hne Hid Eh. unfold r. rewrite (row_decides _ _ _ _ _ _ _ Hok Hne Hid Eh).
    split; [by intros ->|]. split; [intros -> Hi; by rewrite (proj2 (String.eqb_neq _ _) Hi)|].
    split; intros [-> ->] Ht; rewrite String.eqb_refl; cbn [negb].
    + by rewrite (proj2 (Z.ltb_ge _ _) Ht).
    + rewrite (proj2 (Z.ltb_lt _ _) Ht). eauto.
Qed.

Lemma token_validation_exact_witness :
  credentials_ok cr_registered ∧
  ValidateClientToken plain 40 None "tk-none" "install-1" cr_registered
    = (cr_registered, Err ErrClientTokenInvalid).
Proof.
  assert (Hok : credentials_ok cr_registered)
    by (eapply credentials_run_ok; [apply empty_credentials_ok|apply cr_registered_run]).
  split; [exact Hok|].
  apply (token_validation_exact plain 40 "tk-none" "install-1" cr_registered Hok). right. intros id t Ht E.
  assert (Hall : Forall (λ kt, (tk_TokenHash kt.2 =?s "tk-none")%string = false) (map_to_list (client_tokens cr_registered)))
    by (vm_compute; repeat constructor).
  apply elem_of_map_to_list in Ht. eapply Forall_forall in Hall; [|exact Ht]. cbn in Hall. by rewrite E in Hall.
Defined.

(** ** Registering *)

Lemma generateToken_nonempty random token : generateToken random = Ok token → token ≠ ""%string.
Proof. unfold generateToken. destruct random; [|done]. by intros [= <-]. Qed.

Lemma exchange_token_nonempty compare digest hashToken now rt rid key install client ip db db' token row :
  exchangeTokenInTx compare digest hashToken now rt rid key install client ip db = Ok (db', (token, row)) →
  token ≠ ""%string.
Proof.
  unfold exchangeTokenInTx. destruct (filter _ _) as [|t l]; intros H.
  - apply bind_ok in H as (newToken & Hg & H). apply bind_ok in H as (tokenID & _ & H).
    destruct (bool_decide _ || _); [done|]. injection H as _ <- _. by eapply generateToken_nonempty.
  - apply bind_ok in H as (newToken & Hg & H). destruct (hash_taken _ _ _); [done|].
    injection H as _ <- _. by eapply generateToken_nonempty.
Qed.

(** The owner of a key can use it. *)
Definition usable_key (now : Z) (k : APIKey) (db : admin_db) : Prop :=
  ak_IsActive k = true ∧ (∀ t, ak_ExpiresAt k = Some t → now ≤ t) ∧
  (0 < ak_MaxUses k → ak_UseCount k < ak_MaxUses k) ∧
  ∃ owner, users db !! ak_OwnerUserID k = Some owner ∧ u_Status owner = UserStatusActive.

(** The statements of a registration. *)
Lemma registration_steps `{log : ActivityLog} compare digest hashToken now sql rc rt rid key install info addr db db' e :
  credentials_ok db →
  RegisterClientAndExchangeToken compare digest hashToken now sql rc rt rid key install info addr db = (db', Ok e) →
  ∃ k db1 db2, findKeyByRawLocked compare digest db key = Some k ∧ usable_key now k db ∧
  (api_keys db1 = api_keys db ∧ client_tokens db1 = client_tokens db ∧
   registered_clients db1 !! cl_ID (ex_Client e) = Some (ex_Client e) ∧
   cl_OwnerUserID (ex_Client e) = ak_OwnerUserID k ∧ cl_InstallID (ex_Client e) = install) ∧
  ak_OwnerUserID k ≠ ""%string ∧ ex_Token e ≠ ""%string ∧
  exchanged hashToken now k install (cl_ID (ex_Client e)) db1 db2 (ex_Token e) (ex_TokenRow e) ∧
  (credentials_ok db' ∧ registered_clients db' = registered_clients db2 ∧
   client_tokens db' = client_tokens db2 ∧ api_keys db' = api_keys db2).
Proof.
  intros Hok. unfold RegisterClientAndExchangeToken. destruct (install =?s "")%string; [done|].
  intros H. apply transaction_cases in H as [(e' & _ & H & [= <-])|[_ [? [=]]]].
  apply bind_ok in H as ([] & Hc & H). destruct (checked_key_use _ _ _ _ _ Hc) as (k & Hk & Huse & Ha & Hx & Ho).
  rewrite Hk in H. apply bind_ok in H as ([] & _ & H).
  apply bind_ok in H as ([db1 [client created]] & Hg & H).
  apply bind_ok in H as ([db2 [token row]] & He & H).
  apply bind_ok in H as ([db3 id] & Hl & H). injection H as <- <-. cbn.
  assert (Howner : ak_OwnerUserID k ≠ ""%string).
  { intros E. unfold getOrCreateClientInTx in Hg. by rewrite E in Hg. }
  destruct (getOrCreateClient_ok _ _ _ _ _ _ _ _ _ _ Hok Hg) as (Hok1 & Ek & Et & Eu & Ec & Eo & Ei).
  assert (Hk1 : findKeyByRawLocked compare digest db1 key = Some k).
  { rewrite <- Hk. unfold findKeyByRawLocked, find_raw, candidateAPIKeysForRaw, loadAPIKeysByLookupDigest.
    by rewrite Ek. }
  pose proof (exchange_token_nonempty _ _ _ _ _ _ _ _ _ _ _ _ _ _ He) as Htok.
  destruct (exchange_does _ _ _ _ _ _ _ _ _ _ _ _ _ _ _ Hok1 Hk1 Huse He) as [Hok2 Hx'].
  exists k, db1, db2. repeat match goal with |- _ ∧ _ => split end; try done.
  - destruct created; [by eapply append_ok|by injection Hl as <- <-].
  - destruct created; [by rewrite (append_touches _ _ _ _ Hl)|by injection Hl as <- <-].
  - destruct created; [by rewrite (append_touches _ _ _ _ Hl)|by injection Hl as <- <-].
  - destruct created; [by rewrite (append_touches _ _ _ _ Hl)|by injection Hl as <- <-].
Qed.

(** The uses of a key after a registration. *)
Definition uses_counted (now : Z) (k : APIKey) (installID : string) (db db' : admin_db) : Prop :=
  let refreshed := ∃ id t, client_tokens db !! id = Some t ∧ live_of installID t ∧
                     tk_KeyID t = ak_ID k ∧ fresh_token now t = true in
  (refreshed → api_keys db' = api_keys db) ∧
  (¬ refreshed → api_keys db' = <[ak_ID k := k <| ak_UseCount := ak_UseCount k + 1 |>]> (api_keys db)).

Lemma exchanged_uses hashToken now k install client db db' token row :
  api_keys db !! ak_ID k = Some k → exchanged hashToken now k install client db db' token row → uses_counted now k install db db'.
Proof.
  intros Hkid Hx.
  destruct (xc_count _ _ _ _ _ _ _ _ _ Hx) as [(t & Ht & Hl & Ek & Hf & E)|[Hno E]]; split.
  - done.
  - intros Hn. destruct Hn. exists (tk_ID row), t. done.
  - intros (id & t & Ht & Hl & Ek & Hf). by rewrite (Hno id t Ht Hl Ek) in Hf.
  - intros _. by rewrite E, (alter_found _ _ _ _ Hkid).
Qed.

(** C14: a registration that succeeds was made with a key that is active, not
    expired, not used up, and whose owner is active.  The client it returns is
    stored under the installation and belongs to the key's owner; the token it
    returns is then accepted for this installation for a hundred days and no
    other, is the installation's only token that is not revoked, and resolves
    to the key's owner; and the key has been used once more, unless a live
    token of the same installation and key was refreshed. *)
Theorem registration_exact `{log : ActivityLog} compare digest hashToken now sql rc rt rid key install info
    addr db db' e :
  credentials_ok db →
  RegisterClientAndExchangeToken compare digest hashToken now sql rc rt rid key install info addr db
    = (db', Ok e) →
  ∃ k, findKeyByRawLocked compare digest db key = Some k ∧ usable_key now k db ∧
  uses_counted now k install db db' ∧
  registered_clients db' !! cl_ID (ex_Client e) = Some (ex_Client e) ∧
  cl_InstallID (ex_Client e) = install ∧ cl_OwnerUserID (ex_Client e) = ak_OwnerUserID k ∧
  ResolveClientTokenOwner hashToken db' (ex_Token e) = Ok (ak_OwnerUserID k) ∧
  (∀ id t, client_tokens db' !! id = Some t → live_of install t → t = ex_TokenRow e) ∧
  ∀ later, (ValidateClientToken hashToken later None (ex_Token e) install db').2
    = (if later <? now + clientTokenInactivityTTL
       then Ok ((ex_TokenRow e) <| tk_LastActiveAt := later |>) else Err ErrClientTokenExpired) ∧
  ∀ other, other ≠ install →
    ValidateClientToken hashToken later None (ex_Token e) other db' = (db', Err ErrClientTokenInstallMismatch).
Proof.
  intros Hok H. destruct (registration_steps _ _ _ _ _ _ _ _ _ _ _ _ _ _ _ Hok H)
    as (k & db1 & db2 & Hk & Huse & (Ek & Et & Ec & Eo & Ei) & Hne & Htok & Hx & Hok' & Rc & Rt & Rk).
  destruct (find_raw_Some _ _ _ _ _ Hk) as [kid Hkid].
  assert (Hkid' : api_keys db1 !! ak_ID k = Some k) by by rewrite Ek, (cr_key _ Hok _ _ Hkid).
  pose proof (exchanged_uses _ _ _ _ _ _ _ _ _ Hkid' Hx) as Hu.
  unfold uses_counted in Hu. rewrite Ek, Et, <- Rk in Hu.
  destruct Hx as [Xrow Xhash Xlive _ Xclient Xactive [_ Xrest] _]. rewrite <- Rt in Xrow. rewrite <- Xrest, <- Rc in Ec.
  exists k. do 6 (split; [done|]). split; [|split].
  - unfold ResolveClientTokenOwner. rewrite (proj2 (String.eqb_neq _ _) Htok).
    destruct (filter_hash _ _ _ _ _ Hok' Xrow Xhash) as [l ->].
    by rewrite Xclient, Ec, Eo, (proj2 (String.eqb_neq _ _) Hne).
  - intros id t Ht Hl. assert (id = tk_ID (ex_TokenRow e)) as -> by (by eapply (cr_live _ Hok')). congruence.
  - intros later. destruct Xlive as [Elive Erev]. split; [|intros other Hother];
      rewrite (row_decides _ _ _ _ _ _ _ Hok' Htok Xrow Xhash), Erev, Elive, Xactive.
    + rewrite String.eqb_refl. by destruct (later <? _).
    + by rewrite (proj2 (String.eqb_neq _ _) (not_eq_sym Hother)).
Qed.

Lemma registration_exact_witness :
  credentials_ok (cr_keyed cr_setup) ∧ ∃ e, cr_registers 30 x11 "install-1" (cr_keyed cr_setup) = (cr_registered, Ok e) ∧
  ResolveClientTokenOwner plain cr_registered (ex_Token e) = Ok (cr_id x01).
Proof.
  assert (Hok : credentials_ok (cr_keyed cr_setup)).
  { eapply (credentials_run_ok cr_hash_of cr_compare plain plain); [apply empty_credentials_ok|]. eapply (rtc_l _ _ cr_setup).
    { apply cs_fewer. repeat split; vm_compute; intros []; exact I. }
    eapply rtc_once, cs_add_key_activity, surjective_pairing. }
  split; [exact Hok|].
  assert (He : ∃ e, (cr_registers 30 x11 "install-1" (cr_keyed cr_setup)).2 = Ok e)
    by (vm_compute; eexists; reflexivity).
  destruct He as [e He]. exists e.
  assert (Hr : cr_registers 30 x11 "install-1" (cr_keyed cr_setup) = (cr_registered, Ok e))
    by (rewrite <- He; apply surjective_pairing).
  split; [exact Hr|].
  destruct (registration_exact _ _ _ _ _ _ _ _ _ _ _ _ _ _ _ Hok Hr) as (k & Hk & _ & _ & _ & _ & _ & Hown & _).
  rewrite Hown. assert (Hk' : ak_OwnerUserID <$> findKeyByRawLocked cr_compare plain (cr_keyed cr_setup) "sk-1" = Some (cr_id x01))
    by (vm_compute; reflexivity).
  rewrite Hk in Hk'. by injection Hk' as ->.
Defined.
