(* ===== verification/Lifecycle.v ===== *)
(** Logical client sessions, publications of runtime state, and what disabling
    or deleting a user does to them (internal/server/user_lifecycle_gate.go,
    user_api.go, resource_scope.go, session.go, control_auth.go, data.go,
    unified_tunnel_reconcile.go).

    Every request and connection is a goroutine.  They meet at the lifecycle
    gate of a user (a read-write lock with an epoch), the mutex of tunnel
    mutations, the locks of runtime operations, the table of clients, and the
    database, whose operations are those of [Users] and [Credentials].

    What a publication publishes is its caller's: it is an interval, between
    [Began] and [Ended], that succeeds or fails as the environment says.  So do
    the parts of the convergence of a disabled user that do not concern clients
    (event streams, peer sessions, tunnel runtimes), the network, and the
    tunnel a reconciliation finds in its store.  The hooks of tests are not
    set. *)
From Stdlib Require Import ZArith Lia Ascii String Strings.Byte.
From stdpp Require Import base tactics numbers list gmap strings countable.
From S2P Require Import Prelude Records GoStrings GoIO GoTime GoUTF8 Activity AdminDB Users Credentials TunnelSpec Goroutines.

(** ** Data *)

Definition ErrUserLifecycleEpochChanged : goerror := Sentinel "user lifecycle epoch changed".
Definition ErrUserConvergenceIncomplete : goerror := Sentinel "user runtime convergence incomplete".
Definition ErrResourceSessionRevoked : goerror := Sentinel "resource session expired or revoked".
Definition ErrAuthenticationFailed : goerror := Errorf "authentication failed" [].

Inductive mutex :=
| ClientTunnelMutation
| UserManagement
| ClientLifecycle (ref : nat)                  (* of a client, by [cc_ref] *)
| RuntimeOperation (entry : nat).              (* of an entry, by its reference *)

#[export] Instance mutex_eq_dec : EqDecision mutex.
Proof. solve_decision. Defined.
#[export] Instance mutex_countable : Countable mutex.
Proof.
  refine (inj_countable'
    (λ m, match m with ClientTunnelMutation => inl false | UserManagement => inl true
          | ClientLifecycle n => inr (inl n) | RuntimeOperation n => inr (inr n) end)
    (λ x, match x with inl false => ClientTunnelMutation | inl true => UserManagement
          | inr (inl n) => ClientLifecycle n | inr (inr n) => RuntimeOperation n end) _).
  by intros [].
Defined.

Inductive writer := NoWriter | Waiting | Writing.
#[export] Instance writer_eq_dec : EqDecision writer.
Proof. solve_decision. Defined.

Record userLifecycleGate := { gt_epoch : Z; gt_readers : Z; gt_writer : writer }.
Definition new_gate : userLifecycleGate := {| gt_epoch := 1; gt_readers := 0; gt_writer := NoWriter |}.

Inductive clientState := PendingData | Live | Closing.
#[export] Instance clientState_eq_dec : EqDecision clientState.
Proof. solve_decision. Defined.

(** A reference to a client, with the fields that are never written again. *)
Record ClientConn := {
  cc_ref : nat; cc_ID : string; cc_OwnerUserID : string; cc_OwnerEpoch : Z;
  cc_dataToken : string; cc_generation : Z;
}.
#[export] Instance ClientConn_eq_dec : EqDecision ClientConn.
Proof. solve_decision. Defined.

Record unifiedTunnelParticipant := { pt_ClientID : string; pt_Generation : Z }.
#[export] Instance participant_eq_dec : EqDecision unifiedTunnelParticipant.
Proof. solve_decision. Defined.

Record unifiedTunnelReconcileTask := {
  rt_TunnelID : string; rt_OwnerUserID : string; rt_OwnerEpoch : Z; rt_Revision : Z;
  rt_Participants : list unifiedTunnelParticipant; rt_Reason : string; rt_Fresh : bool;
}.
#[export] Instance task_eq_dec : EqDecision unifiedTunnelReconcileTask.
Proof. solve_decision. Defined.

(** What a publication rests on: the owner, the epoch it is pinned to (0 for
    none), whether it requires an operational owner, whether it holds the mutex
    of tunnel mutations, the client it has checked, and the task. *)
Record publication := {
  pb_owner : string; pb_epoch : Z; pb_operational : bool; pb_exclusive : bool;
  pb_client : option ClientConn; pb_task : option unifiedTunnelReconcileTask;
}.
#[export] Instance publication_eq_dec : EqDecision publication.
Proof. solve_decision. Defined.

(** What happens, for the statements about it. *)
Inductive event :=
| Stored (c : ClientConn)                      (* [clients.Store] *)
| Removed (c : ClientConn)                     (* [clients.CompareAndDelete] *)
| Attached (c : ClientConn)                    (* [client.dataSession = session] *)
| Began (p : publication)
| Ended (p : publication)
| StatusSet (userID : string) (operational : bool)
| Bumped (gate : string)                       (* [gate.epoch++] *)
| Settled (userID : string).                   (* disabled or deleted, and answered so *)

Record server := {
  sv_db : admin_db;
  userLifecycleLocks : gmap string userLifecycleGate;
  sv_locked : gset mutex;
  (** [tunnelRuntimeOps]: the entry of each key, and the [refs] of the entries. *)
  ops_entries : gmap string nat; ops_refs : list Z;
  (** [clients], and the states of all clients by [cc_ref]. *)
  sv_clients : gmap string ClientConn; sv_states : list clientState;
  nextGeneration : Z;
  sv_log : list event;
}.
#[export] Instance server_rebuild : Rebuild server := λ s, {|
  sv_db := sv_db s; userLifecycleLocks := userLifecycleLocks s; sv_locked := sv_locked s;
  ops_entries := ops_entries s; ops_refs := ops_refs s; sv_clients := sv_clients s;
  sv_states := sv_states s; nextGeneration := nextGeneration s; sv_log := sv_log s |}.

Record AuthRequest := {
  ar_Token : string; ar_Key : string; ar_InstallID : string; ar_Client : ClientInfo;
}.

(** ** Operations *)

Inductive op : Type → Type :=
(* the gate *)
| GateRLock (gate : string) : op unit
| GateRUnlock (gate : string) : op unit
| GateLockWait (gate : string) : op unit       (* the two halves of [Lock] *)
| GateLock (gate : string) : op unit
| GateUnlock (gate : string) : op unit
| GateEpoch (gate : string) : op Z
| GateBump (gate : string) : op unit
(* mutexes, and the sections of [tunnelRuntimeOps.mu] *)
| Lock (m : mutex) : op unit
| Unlock (m : mutex) : op unit
| OpEnter (key : string) : op nat
| OpLeave (key : string) (entry : nat) : op unit
(* the database *)
| IsOperational (userID : string) : op (result bool)
| LoadUser (userID : string) : op (result User)
| SetStatus (actorUserID userID status : string) (actor : ActivityActor) : op (result (User * bool * Z))
| DeleteUser (actorUserID userID : string) : op (result unit)
| RevokeSessions (userID : string) (actor : ActivityActor) : op (result Z)
| SessionOf (sessionID : string) : op (option AdminSession)
| TokenOwner (token : string) : op (result string)
| KeyOwner (key : string) : op (result string)
| ValidateToken (token installID : string) : op (result ClientToken)
| FindClient (clientID : string) : op (option RegisteredClient)
| FindInstall (installID : string) : op (option RegisteredClient)
| Register (key installID : string) (info : ClientInfo) (addr : string)
  : op (result ClientRegistrationTokenExchange)
(* the clients *)
| NextGeneration : op Z
| StoreClient (id owner : string) (epoch : Z) (token : string) (generation : Z) : op ClientConn
| LoadClient (id : string) : op (option ClientConn)
| ClientKeys : op (list string)
| DeleteClient (c : ClientConn) : op unit
| StateOf (c : ClientConn) : op clientState
| SetState (c : ClientConn) (state : clientState) : op unit
| AttachSession (c : ClientConn) : op unit
(* the rest *)
| FindTunnel (id : string) : op (result (option StoredTunnel))
| NewDataToken : op (result string)
| Fallible : op (result unit)
| Happens : op bool
| Begin (p : publication) : op unit
| End (p : publication) : op unit
| Settle (userID : string) : op unit.

(** What the environment settles: the time, the failure of the database and the
    random bytes it reads, an answer, a failure, the keys that [Range] visits
    besides those it finds at first, and what is found elsewhere. *)
Record choice := {
  ch_now : Z; ch_sql : option goerror; ch_random : Z → result (list byte);
  ch_bool : bool; ch_error : option goerror; ch_keys : list string;
  ch_token : result string; ch_tunnel : result (option StoredTunnel);
}.
#[export] Instance choice_inhabited : Inhabited choice := populate {|
  ch_now := 0; ch_sql := None; ch_random := λ _, Ok []; ch_bool := false; ch_error := None;
  ch_keys := []; ch_token := Ok ""; ch_tunnel := Ok None |}.

Definition gate_of (s : server) (gate : string) : userLifecycleGate :=
  default new_gate (userLifecycleLocks s !! gate).
Definition set_gate (gate : string) (g : userLifecycleGate) (s : server) : server :=
  s <| userLifecycleLocks := <[gate := g]> (userLifecycleLocks s) |>.
Definition logged (ev : event) (s : server) : server := s <| sv_log := sv_log s ++ [ev] |>.

Definition operational (db : admin_db) (userID : string) : bool :=
  match IsUserOperational db userID with Ok true => true | _ => false end.

Section Machine.
Context {log : ActivityLog}.
Context (bcrypt_compare : string → string → bool) (apiKeyLookupDigest hashToken : string → string).

Definition of_error (e : option goerror) : result unit :=
  match e with Some e => Err e | None => Ok tt end.

(** A change of the status of a user is logged if it happened. *)
Definition status_logged {A} (userID : string) (r : admin_db * result A) (s : server) : result A * server :=
  let s := s <| sv_db := r.1 |> in
  (r.2, if is_ok r.2 then logged (StatusSet userID (operational r.1 userID)) s else s).
Definition stored {A} (r : admin_db * result A) (s : server) : result A * server :=
  (r.2, s <| sv_db := r.1 |>).

Definition exec (B : Type) (e : op B) (c : choice) (s : server) : option (B * server) :=
  match e in op B return option (B * server) with
  | GateRLock gate =>
      let g := gate_of s gate in
      match gt_writer g with
      | NoWriter => Some (tt, set_gate gate {| gt_epoch := gt_epoch g; gt_readers := gt_readers g + 1;
                                               gt_writer := NoWriter |} s)
      | _ => None
      end
  | GateRUnlock gate =>
      let g := gate_of s gate in
      Some (tt, set_gate gate {| gt_epoch := gt_epoch g; gt_readers := gt_readers g - 1;
                                 gt_writer := gt_writer g |} s)
  | GateLockWait gate =>
      let g := gate_of s gate in
      match gt_writer g with
      | NoWriter => Some (tt, set_gate gate {| gt_epoch := gt_epoch g; gt_readers := gt_readers g;
                                               gt_writer := Waiting |} s)
      | _ => None
      end
  | GateLock gate =>
      let g := gate_of s gate in
      if gt_readers g =? 0
      then Some (tt, set_gate gate {| gt_epoch := gt_epoch g; gt_readers := 0; gt_writer := Writing |} s)
      else None
  | GateUnlock gate =>
      let g := gate_of s gate in
      Some (tt, set_gate gate {| gt_epoch := gt_epoch g; gt_readers := gt_readers g;
                                 gt_writer := NoWriter |} s)
  | GateEpoch gate => Some (gt_epoch (gate_of s gate), s)
  | GateBump gate =>
      let g := gate_of s gate in
      Some (tt, logged (Bumped gate)
                  (set_gate gate {| gt_epoch := u64_succ (gt_epoch g); gt_readers := gt_readers g;
                                    gt_writer := gt_writer g |} s))
  | Lock m => if bool_decide (m ∈ sv_locked s) then None
              else Some (tt, s <| sv_locked := {[m]} ∪ sv_locked s |>)
  | Unlock m => Some (tt, s <| sv_locked := sv_locked s ∖ {[m]} |>)
  | OpEnter key =>
      match ops_entries s !! key with
      | Some n => Some (n, s <| ops_refs := alter (λ r, r + 1) n (ops_refs s) |>)
      | None => let n := length (ops_refs s) in
                Some (n, s <| ops_entries := <[key := n]> (ops_entries s) |>
                           <| ops_refs := ops_refs s ++ [1] |>)
      end
  | OpLeave key n =>
      let refs := alter (λ r, r - 1) n (ops_refs s) in
      Some (tt, s <| ops_refs := refs |>
                  <| ops_entries := if bool_decide (refs !! n = Some 0) then delete key (ops_entries s)
                                    else ops_entries s |>)
  | IsOperational userID => Some (IsUserOperational (sv_db s) userID, s)
  | LoadUser userID => Some (getUserInTx (sv_db s) userID, s)
  | SetStatus actorUserID userID status actor =>
      Some (status_logged userID
              (setUserStatus (ch_now c) (ch_sql c) actorUserID userID status (Some actor) (sv_db s)) s)
  | DeleteUser actorUserID userID =>
      Some (status_logged userID (DeleteDisabledUser (ch_sql c) actorUserID userID (sv_db s)) s)
  | RevokeSessions userID actor =>
      Some (stored (DeleteSessionsByUserIDWithActivity (ch_now c) (ch_sql c) userID actor (sv_db s)) s)
  | SessionOf sessionID => Some (GetSession (ch_now c) (sv_db s) sessionID, s)
  | TokenOwner token => Some (ResolveClientTokenOwner hashToken (sv_db s) token, s)
  | KeyOwner key => Some (ResolveClientKeyOwner bcrypt_compare apiKeyLookupDigest (sv_db s) key, s)
  | ValidateToken token installID =>
      Some (stored (ValidateClientToken hashToken (ch_now c) (ch_sql c) token installID (sv_db s)) s)
  | FindClient clientID => Some (registered_clients (sv_db s) !! clientID, s)
  | FindInstall installID => Some (client_of_install installID (sv_db s), s)
  | Register key installID info addr =>
      Some (stored (RegisterClientAndExchangeToken bcrypt_compare apiKeyLookupDigest hashToken (ch_now c)
                      (ch_sql c) (ch_random c 1) (ch_random c 2) (ch_random c 3) key installID info addr
                      (sv_db s)) s)
  | NextGeneration => let n := u64_succ (nextGeneration s) in Some (n, s <| nextGeneration := n |>)
  | StoreClient id owner epoch token generation =>
      let client := {| cc_ref := length (sv_states s); cc_ID := id; cc_OwnerUserID := owner;
                       cc_OwnerEpoch := epoch; cc_dataToken := token; cc_generation := generation |} in
      Some (client, logged (Stored client)
                      (s <| sv_clients := <[id := client]> (sv_clients s) |>
                         <| sv_states := sv_states s ++ [PendingData] |>))
  | LoadClient id => Some (sv_clients s !! id, s)
  | ClientKeys => Some ((map_to_list (sv_clients s)).*1 ++ ch_keys c, s)
  | DeleteClient client =>
      Some (tt, if bool_decide (sv_clients s !! cc_ID client = Some client)
                then logged (Removed client) (s <| sv_clients := delete (cc_ID client) (sv_clients s) |>)
                else s)
  | StateOf client => Some (default Closing (sv_states s !! cc_ref client), s)
  | SetState client state => Some (tt, s <| sv_states := <[cc_ref client := state]> (sv_states s) |>)
  | AttachSession client => Some (tt, logged (Attached client) s)
  | FindTunnel _ => Some (ch_tunnel c, s)
  | NewDataToken => Some (ch_token c, s)
  | Fallible => Some (of_error (ch_error c), s)
  | Happens => Some (ch_bool c, s)
  | Begin p => Some (tt, logged (Began p) s)
  | End p => Some (tt, logged (Ended p) s)
  | Settle userID => Some (tt, logged (Settled userID) s)
  end.
End Machine.

(** ** Goroutines *)

Record ResourceScope := {
  sc_OwnerUserID : string; sc_AdminTarget : bool; sc_SessionID : string; sc_ExpectedEpoch : Z;
}.

Inductive goroutine_kind :=
| ClientAuth (req : AuthRequest) (ip : string)
| Invalidation (id : string) (generation : Z)  (* a timer, or a connection that breaks *)
| DataChannel (id token : string)
| ClientPublication (id : string) (final : bool)
| TunnelPublication (stored : StoredTunnel) (epoch : Z) (task : option unifiedTunnelReconcileTask)
| ResourceRequest (owner sessionID : string) (admin tunnel requireOperational : bool)
| UserDisable (actorUserID path : string) (actor : ActivityActor)
| UserEnable (actorUserID path : string) (actor : ActivityActor)
| UserDelete (actorUserID path : string)
| UserSessionsRevoke (path : string) (actor : ActivityActor).

Abbreviation go_prog := (prog op goroutine_kind).
Abbreviation act e := (@Goroutines.op op goroutine_kind _ e).
Abbreviation done := (Ret tt).

Open Scope prog_scope.

(** *** The gate (user_lifecycle_gate.go) *)

Definition lifecycleGate (userID : string) : option string :=
  let userID := trim_space userID in
  if userID =?s "" then None else Some userID.

Definition ensureClientOwnerOperational (ownerUserID : string) : go_prog (result unit) :=
  if ownerUserID =?s "" then Ret (Err (Errorf "client owner is empty" [])) else
  r ← act (IsOperational ownerUserID);
  Ret (match r with
       | Err e => Err (Wrapf "resolve client owner: %w" e)
       | Ok operational => if operational : bool then Ok tt else Err ErrUserDisabled
       end).

(** The epoch, and the gate to release. *)
Definition acquireUserLifecycleRead (userID : string) (expectedEpoch : Z) (requireOperational : bool)
  : go_prog (result (Z * string)) :=
  match lifecycleGate userID with
  | None => Ret (Err ErrUserNotFound)
  | Some gate =>
      _ ← act (GateRLock gate);
      changed ← (if expectedEpoch =? 0 then Ret false else
                 epoch ← act (GateEpoch gate); Ret (negb (epoch =? expectedEpoch)));
      if changed : bool then _ ← act (GateRUnlock gate); Ret (Err ErrUserLifecycleEpochChanged) else
      r ← (if requireOperational then ensureClientOwnerOperational userID else Ret (Ok tt));
      match r with
      | Err e => _ ← act (GateRUnlock gate); Ret (Err e)
      | Ok _ => epoch ← act (GateEpoch gate); Ret (Ok (epoch, gate))
      end
  end.

Definition clientLifecycleCurrentLocked (client : ClientConn) : go_prog bool :=
  if cc_OwnerUserID client =?s "" then Ret true else
  match lifecycleGate (cc_OwnerUserID client) with
  | None => Ret false
  | Some gate => epoch ← act (GateEpoch gate); Ret (epoch =? cc_OwnerEpoch client)
  end.

Definition acquireStoredTunnelLifecycle (stored : StoredTunnel) (expectedEpoch : Z)
  : go_prog (result (Z * option string)) :=
  if trim_space (st_OwnerUserID stored) =?s "" then Ret (Ok (0, None)) else
  r ← acquireUserLifecycleRead (st_OwnerUserID stored) expectedEpoch true;
  Ret (match r with Err e => Err e | Ok (epoch, gate) => Ok (epoch, Some gate) end).

Definition release (gate : option string) : go_prog unit :=
  match gate with Some gate => act (GateRUnlock gate) | None => done end.

(** *** Runtime operations (unified_tunnel_reconcile.go) *)

Definition tunnelRuntimeOperationKey (tunnelID clientID name : string) : string :=
  if negb (tunnelID =?s "") then "id:" +:+ tunnelID else "legacy:" +:+ clientID +:+ ":" +:+ name.

Definition ops_lock (key : string) : go_prog (option nat) :=
  if key =?s "" then Ret None else
  entry ← act (OpEnter key);
  _ ← act (Lock (RuntimeOperation entry));
  Ret (Some entry).

Definition ops_unlock (key : string) (entry : option nat) : go_prog unit :=
  match entry with
  | None => done
  | Some entry => _ ← act (Unlock (RuntimeOperation entry)); act (OpLeave key entry)
  end.

(** *** Publications *)

(** The caller's [publish], between its two ends. *)
Definition publish (p : publication) : go_prog (result unit) :=
  _ ← act (Begin p);
  r ← act Fallible;
  _ ← act (End p);
  Ret r.

Definition tunnel_publication (stored : StoredTunnel) (epoch : Z) (task : option unifiedTunnelReconcileTask)
  : publication := {|
  pb_owner := st_OwnerUserID stored; pb_epoch := epoch; pb_operational := true; pb_exclusive := true;
  pb_client := None; pb_task := task |}.

Definition operation_key (stored : StoredTunnel) : string :=
  tunnelRuntimeOperationKey (st_ID stored) (st_OwnerClientID stored) (st_Name stored).

Definition withStoredTunnelPublication (stored : StoredTunnel) (expectedEpoch : Z) : go_prog (result unit) :=
  r ← acquireStoredTunnelLifecycle stored expectedEpoch;
  match r with
  | Err e => Ret (Err e)
  | Ok (_, gate) =>
      _ ← act (Lock ClientTunnelMutation);
      entry ← ops_lock (operation_key stored);
      r ← publish (tunnel_publication stored expectedEpoch None);
      _ ← ops_unlock (operation_key stored) entry;
      _ ← act (Unlock ClientTunnelMutation);
      _ ← release gate;
      Ret r
  end.

Fixpoint participants_current (ownerUserID : string) (ownerEpoch : Z)
    (participants : list unifiedTunnelParticipant) : go_prog bool :=
  match participants with
  | [] => Ret true
  | expected :: participants =>
      value ← act (LoadClient (pt_ClientID expected));
      if pt_Generation expected =? 0 then
        match value with
        | Some _ => Ret false
        | None => participants_current ownerUserID ownerEpoch participants
        end
      else
        match value with
        | None => Ret false
        | Some client =>
            if negb (cc_generation client =? pt_Generation expected)
               || negb (cc_OwnerUserID client =?s ownerUserID)
               || negb (cc_OwnerEpoch client =? ownerEpoch)
            then Ret false else participants_current ownerUserID ownerEpoch participants
        end
  end.

Definition unifiedTunnelParticipantsCurrentLocked (task : unifiedTunnelReconcileTask) : go_prog bool :=
  participants_current (rt_OwnerUserID task) (rt_OwnerEpoch task) (rt_Participants task).

Definition unifiedTunnelReconcileTaskCurrentLocked (task : unifiedTunnelReconcileTask)
  : go_prog (result bool) :=
  found ← act (FindTunnel (rt_TunnelID task));
  match found with
  | Err e => Ret (Err e)
  | Ok None => Ret (Ok false)
  | Ok (Some stored) =>
      if negb (st_OwnerUserID stored =?s rt_OwnerUserID task) || negb (st_Revision stored =? rt_Revision task)
      then Ret (Ok false)
      else current ← unifiedTunnelParticipantsCurrentLocked task; Ret (Ok current)
  end.

Definition publish_if_current (stored : StoredTunnel) (task : unifiedTunnelReconcileTask)
  : go_prog (result unit) :=
  current ← unifiedTunnelReconcileTaskCurrentLocked task;
  match current with
  | Err e => Ret (Err e)
  | Ok false => Ret (Err ErrUserLifecycleEpochChanged)
  | Ok true => publish (tunnel_publication stored (rt_OwnerEpoch task) (Some task))
  end.

Definition withUnifiedTunnelReconcilePublication (stored : StoredTunnel) (ownerEpoch : Z)
    (task : option unifiedTunnelReconcileTask) : go_prog (result unit) :=
  match task with
  | None => withStoredTunnelPublication stored ownerEpoch
  | Some task =>
      r ← acquireStoredTunnelLifecycle stored (rt_OwnerEpoch task);
      match r with
      | Err e => Ret (Err e)
      | Ok (_, gate) =>
          _ ← act (Lock ClientTunnelMutation);
          entry ← ops_lock (operation_key stored);
          r ← publish_if_current stored task;
          _ ← ops_unlock (operation_key stored) entry;
          _ ← act (Unlock ClientTunnelMutation);
          _ ← release gate;
          Ret r
      end
  end.

Definition isLive (client : ClientConn) : go_prog bool :=
  state ← act (StateOf client); Ret (bool_decide (state = Live)).

(** [a && b()] *)
Definition and_then (a : bool) (b : go_prog bool) : go_prog bool := if a then b else Ret false.

Definition client_publication (client : ClientConn) (checked : bool) : publication := {|
  pb_owner := cc_OwnerUserID client; pb_epoch := cc_OwnerEpoch client; pb_operational := true;
  pb_exclusive := negb (cc_OwnerUserID client =?s "");
  pb_client := if checked && negb (cc_OwnerUserID client =?s "") then Some client else None;
  pb_task := None |}.

(** [withClientRuntimePublication] and, with [final], what
    [withClientFinalAccountingPublication] leaves out of it. *)
Definition withClientPublication (final : bool) (client : ClientConn) : go_prog bool :=
  let p := client_publication client (negb final) in
  if cc_OwnerUserID client =?s "" then _ ← publish p; Ret true else
  r ← acquireUserLifecycleRead (cc_OwnerUserID client) (cc_OwnerEpoch client) true;
  match r with
  | Err _ => Ret false
  | Ok (_, gate) =>
      _ ← act (Lock ClientTunnelMutation);
      current ← (if final then Ret true else
                 current ← act (LoadClient (cc_ID client));
                 and_then (bool_decide (current = Some client)) (isLive client));
      current ← and_then current (clientLifecycleCurrentLocked client);
      _ ← (if current : bool then publish p else Ret (Ok tt));
      _ ← act (Unlock ClientTunnelMutation);
      _ ← act (GateRUnlock gate);
      Ret current
  end.

Definition withClientRuntimePublication : ClientConn → go_prog bool := withClientPublication false.
Definition withClientFinalAccountingPublication : ClientConn → go_prog bool := withClientPublication true.

(** *** Requests (resource_scope.go) *)

Definition captureResourceScope (ownerUserID : string) (adminTarget requireOperational : bool)
  : go_prog (result ResourceScope) :=
  r ← acquireUserLifecycleRead ownerUserID 0 requireOperational;
  match r with
  | Err e => Ret (Err e)
  | Ok (epoch, gate) =>
      _ ← act (GateRUnlock gate);
      Ret (Ok {| sc_OwnerUserID := ownerUserID; sc_AdminTarget := adminTarget; sc_SessionID := "";
                 sc_ExpectedEpoch := epoch |})
  end.

Definition acquireResourceMutation (scope : ResourceScope) (requireOperational : bool)
  : go_prog (result string) :=
  r ← acquireUserLifecycleRead (sc_OwnerUserID scope) (sc_ExpectedEpoch scope) requireOperational;
  match r with
  | Err e => Ret (Err e)
  | Ok (_, gate) =>
      if sc_SessionID scope =?s "" then Ret (Ok gate) else
      session ← act (SessionOf (sc_SessionID scope));
      match session with
      | Some session =>
          if sr_UserID (as_row session) =?s sc_OwnerUserID scope then Ret (Ok gate)
          else _ ← act (GateRUnlock gate); Ret (Err ErrResourceSessionRevoked)
      | None => _ ← act (GateRUnlock gate); Ret (Err ErrResourceSessionRevoked)
      end
  end.

Definition acquireResourceTunnelMutation (scope : ResourceScope) (requireOperational : bool)
  : go_prog (result string) :=
  r ← acquireResourceMutation scope requireOperational;
  match r with
  | Err e => Ret (Err e)
  | Ok gate => _ ← act (Lock ClientTunnelMutation); Ret (Ok gate)
  end.

Definition mutation (scope : ResourceScope) (tunnel requireOperational : bool) : publication := {|
  pb_owner := sc_OwnerUserID scope; pb_epoch := sc_ExpectedEpoch scope;
  pb_operational := requireOperational; pb_exclusive := tunnel; pb_client := None; pb_task := None |}.

(** A request on the resources of a user: [requireSelfResourceScope] with the
    session of the principal, or [requireAdminUserResourceScope]; and the
    mutation its handler makes. *)
Definition resource_request (owner sessionID : string) (admin tunnel requireOperational : bool)
  : go_prog unit :=
  scope ← captureResourceScope owner admin (negb admin);
  match scope with
  | Err _ => done
  | Ok scope =>
      let scope := {| sc_OwnerUserID := sc_OwnerUserID scope; sc_AdminTarget := admin;
                      sc_SessionID := if admin then "" else sessionID;
                      sc_ExpectedEpoch := sc_ExpectedEpoch scope |} in
      if tunnel then
        r ← acquireResourceTunnelMutation scope requireOperational;
        match r with
        | Err _ => done
        | Ok gate => _ ← publish (mutation scope true requireOperational);
                     _ ← act (Unlock ClientTunnelMutation);
                     act (GateRUnlock gate)
        end
      else
        r ← acquireResourceMutation scope requireOperational;
        match r with
        | Err _ => done
        | Ok gate => _ ← publish (mutation scope false requireOperational); act (GateRUnlock gate)
        end
  end.

(** *** Logical sessions (session.go) *)

(** The session's connections, peers and tunnels are released between
    [SetState] and [DeleteClient]. *)
Definition close_current (clientID : string) (generation : Z) (client : ClientConn) : go_prog bool :=
  value ← act (LoadClient clientID);
  if negb (bool_decide (value = Some client)) || negb (cc_generation client =? generation)
  then Ret false else
  state ← act (StateOf client);
  if bool_decide (state = Closing) then Ret false else
  _ ← act (SetState client Closing);
  _ ← act (DeleteClient client);
  Ret true.

Definition invalidateLogicalSessionIfCurrentLocked (clientID : string) (generation : Z) : go_prog bool :=
  value ← act (LoadClient clientID);
  match value with
  | None => Ret false
  | Some client =>
      if negb (cc_generation client =? generation) then Ret false else
      _ ← act (Lock (ClientLifecycle (cc_ref client)));
      closed ← close_current clientID generation client;
      _ ← act (Unlock (ClientLifecycle (cc_ref client)));
      Ret closed
  end.

Definition invalidateLogicalSessionIfCurrent (clientID : string) (generation : Z) : go_prog bool :=
  _ ← act (Lock ClientTunnelMutation);
  r ← invalidateLogicalSessionIfCurrentLocked clientID generation;
  _ ← act (Unlock ClientTunnelMutation);
  Ret r.

Definition isCurrentGeneration (clientID : string) (generation : Z) : go_prog bool :=
  value ← act (LoadClient clientID);
  Ret (match value with Some client => cc_generation client =? generation | None => false end).

(** With the mutexes of tunnels and of the client held: whether the session was
    attached. *)
Definition attach_current (client : ClientConn) : go_prog bool :=
  value ← act (LoadClient (cc_ID client));
  current ← and_then (bool_decide (value = Some client) && negb (cc_generation client =? 0))
              (clientLifecycleCurrentLocked client);
  if negb current then Ret false else
  state ← act (StateOf client);
  if bool_decide (state = Closing) then Ret false else
  _ ← (if bool_decide (state = PendingData) then act (SetState client Live) else done);
  _ ← act (AttachSession client);
  Ret true.

Definition attachDataSessionIfCurrent (client : ClientConn) : go_prog bool :=
  r ← (if cc_OwnerUserID client =?s "" then Ret (Ok None) else
       r ← acquireUserLifecycleRead (cc_OwnerUserID client) (cc_OwnerEpoch client) true;
       Ret (match r with Err e => Err e | Ok (_, gate) => Ok (Some gate) end));
  match r with
  | Err _ => Ret false
  | Ok gate =>
      _ ← act (Lock ClientTunnelMutation);
      _ ← act (Lock (ClientLifecycle (cc_ref client)));
      attached ← attach_current client;
      _ ← act (Unlock ClientTunnelMutation);
      _ ← act (Unlock (ClientLifecycle (cc_ref client)));
      _ ← release gate;
      Ret attached
  end.

(** *** The data channel (data.go), from its handshake to its session *)

Definition data_current (client : ClientConn) (dataToken : string) : go_prog bool :=
  current ← act (LoadClient (cc_ID client));
  if negb (bool_decide (current = Some client)) then Ret false else
  state ← act (StateOf client);
  if bool_decide (state = Closing) then Ret false else
  current ← clientLifecycleCurrentLocked client;
  Ret (current && negb (cc_dataToken client =?s "") && (cc_dataToken client =?s dataToken)).

Definition handleDataWS (clientID dataToken : string) : go_prog unit :=
  value ← act (LoadClient clientID);
  match value with
  | None => done
  | Some client =>
      let generation := cc_generation client in
      if (cc_dataToken client =?s "") || negb (cc_dataToken client =?s dataToken) then done else
      state ← act (StateOf client);
      if bool_decide (state = Closing) then done else
      current ← isCurrentGeneration clientID generation;
      if negb current then done else
      r ← acquireUserLifecycleRead (cc_OwnerUserID client) (cc_OwnerEpoch client) true;
      match r with
      | Err _ => _ ← invalidateLogicalSessionIfCurrent clientID generation; done
      | Ok (_, gate) =>
          _ ← act (Lock ClientTunnelMutation);
          current ← data_current client dataToken;
          written ← and_then current (act Happens);
          _ ← act (Unlock ClientTunnelMutation);
          _ ← act (GateRUnlock gate);
          if negb written then done else
          r ← act Fallible;
          match r with
          | Err _ => _ ← invalidateLogicalSessionIfCurrent clientID generation; done
          | Ok _ => _ ← attachDataSessionIfCurrent client; done
          end
      end
  end.

(** *** Client authentication (control_auth.go), from the resolution of the owner *)

(** A session of the client that is not closing. *)
Definition concurrent_session (clientID : string) : go_prog bool :=
  current ← act (LoadClient clientID);
  match current with
  | None => Ret false
  | Some current => state ← act (StateOf current); Ret (negb (bool_decide (state = Closing)))
  end.

Definition rejected : result string := Err ErrAuthenticationFailed.

Definition authenticate_token (req : AuthRequest) (ownerUserID : string) : go_prog (result string) :=
  r ← act (ValidateToken (ar_Token req) (ar_InstallID req));
  match r with
  | Err _ => Ret rejected
  | Ok clientToken =>
      let clientID := tk_ClientID clientToken in
      registered ← act (FindClient clientID);
      match registered with
      | None => Ret rejected
      | Some registered =>
          if (cl_OwnerUserID registered =?s "") || negb (cl_OwnerUserID registered =?s ownerUserID)
          then Ret rejected else
          r ← ensureClientOwnerOperational ownerUserID;
          match r with
          | Err _ => Ret rejected
          | Ok _ => concurrent ← concurrent_session clientID;
                    Ret (if concurrent : bool then rejected else Ok clientID)
          end
      end
  end.

Definition authenticate_key (req : AuthRequest) (ownerUserID ip : string) : go_prog (result string) :=
  registered ← act (FindInstall (ar_InstallID req));
  concurrent ← match registered with Some c => concurrent_session (cl_ID c) | None => Ret false end;
  if concurrent : bool then Ret rejected else
  r ← act (Register (ar_Key req) (ar_InstallID req) (ar_Client req) ip);
  match r with
  | Err _ => Ret rejected
  | Ok exchange =>
      if negb (cl_OwnerUserID (ex_Client exchange) =?s ownerUserID) then Ret rejected else
      r ← ensureClientOwnerOperational ownerUserID;
      Ret (match r with Err _ => rejected | Ok _ => Ok (cl_ID (ex_Client exchange)) end)
  end.

(** With the gate and the mutex held: the client that was published.  The
    settings of its bandwidth may be invalid. *)
Definition publish_client (req : AuthRequest) (ownerUserID ip : string) (ownerEpoch : Z)
  : go_prog (option ClientConn) :=
  r ← (if negb (ar_Token req =?s "") then authenticate_token req ownerUserID
       else authenticate_key req ownerUserID ip);
  match r with
  | Err _ => Ret None
  | Ok clientID =>
      r ← act NewDataToken;
      match r with
      | Err _ => Ret None
      | Ok dataToken =>
          r ← ensureClientOwnerOperational ownerUserID;
          match r with
          | Err _ => Ret None
          | Ok _ =>
              generation ← act NextGeneration;
              r ← act Fallible;
              match r with
              | Err _ => Ret None
              | Ok _ => client ← act (StoreClient clientID ownerUserID ownerEpoch dataToken generation);
                        _ ← Goroutines.go (Invalidation clientID generation);
                        Ret (Some client)
              end
          end
      end
  end.

Definition handleAuth (req : AuthRequest) (ip : string) : go_prog (option ClientConn) :=
  owner ← (if negb (ar_Token req =?s "") then act (TokenOwner (ar_Token req))
           else act (KeyOwner (ar_Key req)));
  match owner with
  | Err _ => Ret None
  | Ok ownerUserID =>
      r ← acquireUserLifecycleRead ownerUserID 0 true;
      match r with
      | Err _ => Ret None
      | Ok (ownerEpoch, gate) =>
          _ ← act (Lock ClientTunnelMutation);
          client ← publish_client req ownerUserID ip ownerEpoch;
          _ ← act (Unlock ClientTunnelMutation);
          _ ← act (GateRUnlock gate);
          match client with
          | None => Ret None
          | Some client =>
              r ← act Fallible;
              match r with
              | Ok _ => Ret (Some client)
              | Err _ =>
                  current ← act (LoadClient (cc_ID client));
                  _ ← and_then (bool_decide (current = Some client))
                        (invalidateLogicalSessionIfCurrent (cc_ID client) (cc_generation client));
                  Ret None
              end
          end
      end
  end.

(** *** Convergence (user_lifecycle_gate.go)

    Steps that may fail for their context, or elsewhere. *)

Definition incomplete : result unit := Err ErrUserConvergenceIncomplete.
Definition checkUserConvergenceContext : go_prog (result unit) :=
  r ← act Fallible; Ret (match r with Err _ => incomplete | Ok _ => Ok tt end).

(** The sessions of the user that [Range] comes by. *)
Fixpoint owned_sessions (userID : string) (keys : list string) : go_prog (list (string * Z)) :=
  match keys with
  | [] => Ret []
  | key :: keys =>
      value ← act (LoadClient key);
      refs ← owned_sessions userID keys;
      Ret (match value with
           | Some client => if cc_OwnerUserID client =?s userID then (key, cc_generation client) :: refs else refs
           | None => refs
           end)
  end.

(** Takes the connection of every session away; [false] when it ran out of time. *)
Fixpoint detach_sessions (refs : list (string * Z)) : go_prog bool :=
  match refs with
  | [] => Ret true
  | (clientID, _) :: refs =>
      r ← checkUserConvergenceContext;
      if negb (is_ok r) then Ret false else
      _ ← act (LoadClient clientID);
      detach_sessions refs
  end.

Fixpoint invalidate_sessions (refs : list (string * Z)) : go_prog bool :=
  match refs with
  | [] => Ret true
  | (clientID, generation) :: refs =>
      r ← checkUserConvergenceContext;
      if negb (is_ok r) then Ret false else
      _ ← invalidateLogicalSessionIfCurrent clientID generation;
      invalidate_sessions refs
  end.

(** [userRuntimeResidual], for clients. *)
Fixpoint client_residual (userID : string) (keys : list string) : go_prog bool :=
  match keys with
  | [] => Ret false
  | key :: keys =>
      value ← act (LoadClient key);
      match value with
      | Some client => if cc_OwnerUserID client =?s userID then Ret true else client_residual userID keys
      | None => client_residual userID keys
      end
  end.

(** [if err := f(); err != nil { return err }] *)
Definition or_return (p : go_prog (result unit)) (k : go_prog (result unit)) : go_prog (result unit) :=
  r ← p; if is_ok r then k else Ret incomplete.
Definition or_incomplete (p : go_prog bool) (k : go_prog (result unit)) : go_prog (result unit) :=
  b ← p; if b : bool then k else Ret incomplete.

Definition convergeUserRuntime (userID : string) : go_prog (result unit) :=
  or_return checkUserConvergenceContext (
  (* [GetRegisteredClientsForUser] *)
  or_return (act Fallible) (
  keys ← act ClientKeys;
  refs ← owned_sessions userID keys;
  (* [sendP2PConvergenceOutbounds] *)
  or_return (act Fallible) (
  _ ← act (Lock ClientTunnelMutation);
  detached ← detach_sessions refs;
  _ ← act (Unlock ClientTunnelMutation);
  or_incomplete (Ret detached) (
  or_incomplete (invalidate_sessions refs) (
  (* the user's tunnels *)
  or_return (act Fallible) (
  or_return checkUserConvergenceContext (
  keys ← act ClientKeys;
  residual ← client_residual userID keys;
  or_incomplete (Ret (negb residual)) (
  (* the residual of event streams, relays and peer sessions *)
  act Fallible)))))))).

(** *** The handlers (user_api.go)

    [path] is the user in the path of the request; what is answered to it is
    not modelled, but for the success of [Settle]. *)

Definition with_write_gate (path : string) (body : string → go_prog unit) : go_prog unit :=
  let userID := trim_space path in
  match lifecycleGate userID with
  | None => done
  | Some gate =>
      _ ← act (GateLockWait gate);
      _ ← act (GateLock gate);
      _ ← body userID;
      act (GateUnlock gate)
  end.

Definition gate_key (userID : string) : string := trim_space userID.

Definition with_user_management {A} (e : op A) : go_prog A :=
  _ ← act (Lock UserManagement);
  r ← act e;
  _ ← act (Unlock UserManagement);
  Ret r.

Definition handleAPIAdminUserDisable (actorUserID path : string) (actor : ActivityActor) : go_prog unit :=
  with_write_gate path (λ userID,
    r ← with_user_management (SetStatus actorUserID userID UserStatusDisabled actor);
    match r with
    | Err _ => done
    | Ok (user, _, _) =>
        _ ← act (GateBump (gate_key userID));
        r ← convergeUserRuntime (u_ID user);
        if is_ok r then act (Settle (u_ID user)) else done
    end).

Definition handleAPIAdminUserEnable (actorUserID path : string) (actor : ActivityActor) : go_prog unit :=
  with_write_gate path (λ userID,
    r ← with_user_management (LoadUser userID);
    match r with
    | Err _ => done
    | Ok user =>
        if u_Status user =?s UserStatusActive then done else
        if negb (u_Status user =?s UserStatusDisabled) then done else
        r ← convergeUserRuntime (u_ID user);
        if negb (is_ok r) then done else
        r ← with_user_management (SetStatus actorUserID userID UserStatusActive actor);
        match r with
        | Err _ => done
        | Ok _ => act (GateBump (gate_key userID))
        end
    end).

Definition handleAPIAdminUserDelete (actorUserID path : string) : go_prog unit :=
  with_write_gate path (λ userID,
    r ← with_user_management (LoadUser userID);
    match r with
    | Err _ => done
    | Ok user =>
        if actorUserID =?s u_ID user then done else
        if negb (u_Status user =?s UserStatusDisabled) then done else
        r ← convergeUserRuntime (u_ID user);
        if negb (is_ok r) then done else
        r ← with_user_management (DeleteUser actorUserID (u_ID user));
        match r with
        | Err _ => done
        | Ok _ => _ ← act (GateBump (gate_key userID)); act (Settle (u_ID user))
        end
    end).

Definition handleAPIAdminUserSessionsRevoke (path : string) (actor : ActivityActor) : go_prog unit :=
  with_write_gate path (λ userID,
    r ← act (LoadUser userID);
    match r with
    | Err _ => done
    | Ok _ => _ ← with_user_management (RevokeSessions userID actor); done
    end).

Definition body (t : goroutine_kind) : go_prog bool :=
  _ ← match t with
      | ClientAuth req ip => _ ← handleAuth req ip; done
      | Invalidation id generation =>
          fires ← act Happens;
          _ ← and_then fires (invalidateLogicalSessionIfCurrent id generation); done
      | DataChannel id token => handleDataWS id token
      | ClientPublication id final =>
          value ← act (LoadClient id);
          match value with
          | Some client => _ ← withClientPublication final client; done
          | None => done
          end
      | TunnelPublication stored epoch task =>
          _ ← withUnifiedTunnelReconcilePublication stored epoch task; done
      | ResourceRequest owner sessionID admin tunnel requireOperational =>
          resource_request owner sessionID admin tunnel requireOperational
      | UserDisable actorUserID path actor => handleAPIAdminUserDisable actorUserID path actor
      | UserEnable actorUserID path actor => handleAPIAdminUserEnable actorUserID path actor
      | UserDelete actorUserID path => handleAPIAdminUserDelete actorUserID path
      | UserSessionsRevoke path actor => handleAPIAdminUserSessionsRevoke path actor
      end;
  Ret false.

(** A server with this database, before its first request. *)
Definition idle_server (db : admin_db) : server := {|
  sv_db := db; userLifecycleLocks := ∅; sv_locked := ∅; ops_entries := ∅; ops_refs := [];
  sv_clients := ∅; sv_states := []; nextGeneration := 0; sv_log := [] |}.
