(* ===== verification/LifecycleSpec.v ===== *)
(** What the events of [Lifecycle] promise: an abstract server that does one
    event at a time, and refuses those that must not happen. *)
From Stdlib Require Import ZArith Lia Ascii String Strings.Byte.
From stdpp Require Import base tactics numbers list gmap strings.
From S2P Require Import Prelude Records GoStrings Activity AdminDB Users Credentials Goroutines Lifecycle.

(** Who may act and at which epoch, which clients are there, which publications
    are under way, and which users have been disabled or deleted for good. *)
Record view := {
  vw_epoch : string → Z; vw_operational : string → bool; vw_clients : gmap string ClientConn;
  vw_open : list publication; vw_settled : list string;
}.

Definition first_view (db : admin_db) : view := {|
  vw_epoch := λ _, 1; vw_operational := operational db; vw_clients := ∅; vw_open := [];
  vw_settled := [] |}.

(** [owner] may act at this epoch. *)
Definition may_act (v : view) (owner : string) (epoch : Z) : Prop :=
  vw_operational v owner = true ∧ vw_epoch v (gate_key owner) = epoch.

Definition participant_present (m : gmap string ClientConn) (task : unifiedTunnelReconcileTask)
    (pt : unifiedTunnelParticipant) : Prop :=
  match m !! pt_ClientID pt with
  | None => pt_Generation pt = 0
  | Some c => pt_Generation pt ≠ 0 ∧ cc_generation c = pt_Generation pt ∧
              cc_OwnerUserID c = rt_OwnerUserID task ∧ cc_OwnerEpoch c = rt_OwnerEpoch task
  end.

(** A publication may begin: its owner is not disabled, nothing changed since
    its epoch, its client and the participants of its task are still those,
    and no other publication holds the mutex. *)
Record may_publish (v : view) (p : publication) : Prop := {
  mp_owner : gate_key (pb_owner p) = ""%string ∨
    ((pb_epoch p = 0 ∨ vw_epoch v (gate_key (pb_owner p)) = pb_epoch p) ∧
     (pb_operational p = true → vw_operational v (pb_owner p) = true));
  mp_client : ∀ c, pb_client p = Some c → vw_clients v !! cc_ID c = Some c;
  mp_task : ∀ task, pb_task p = Some task → Forall (participant_present (vw_clients v) task) (rt_Participants task);
  mp_exclusive : pb_exclusive p = true → Forall (λ q, pb_exclusive q = false) (vw_open v);
}.

(** No publication of the owners behind a gate is under way. *)
Definition quiet (v : view) (gate : string) : Prop :=
  Forall (λ p, gate_key (pb_owner p) ≠ gate) (vw_open v).

Definition no_clients (m : gmap string ClientConn) (userID : string) : Prop :=
  ∀ id c, m !! id = Some c → cc_OwnerUserID c ≠ userID.

(** One event. *)
Inductive happens (v : view) : event → view → Prop :=
| h_stored c :
    may_act v (cc_OwnerUserID c) (cc_OwnerEpoch c) →
    happens v (Stored c)
      {| vw_epoch := vw_epoch v; vw_operational := vw_operational v;
         vw_clients := <[cc_ID c := c]> (vw_clients v); vw_open := vw_open v; vw_settled := vw_settled v |}
| h_removed c :
    vw_clients v !! cc_ID c = Some c →
    happens v (Removed c)
      {| vw_epoch := vw_epoch v; vw_operational := vw_operational v;
         vw_clients := delete (cc_ID c) (vw_clients v); vw_open := vw_open v; vw_settled := vw_settled v |}
| h_attached c :
    vw_clients v !! cc_ID c = Some c → may_act v (cc_OwnerUserID c) (cc_OwnerEpoch c) →
    happens v (Attached c) v
| h_began p :
    may_publish v p →
    happens v (Began p)
      {| vw_epoch := vw_epoch v; vw_operational := vw_operational v; vw_clients := vw_clients v;
         vw_open := p :: vw_open v; vw_settled := vw_settled v |}
| h_ended p rest :
    vw_open v ≡ₚ p :: rest →
    happens v (Ended p)
      {| vw_epoch := vw_epoch v; vw_operational := vw_operational v; vw_clients := vw_clients v;
         vw_open := rest; vw_settled := vw_settled v |}
| h_status userID active :
    quiet v (gate_key userID) →
    happens v (StatusSet userID active)
      {| vw_epoch := vw_epoch v;
         vw_operational := λ u, if u =?s userID then active else vw_operational v u;
         vw_clients := vw_clients v; vw_open := vw_open v;
         vw_settled := if active then filter (λ u, u ≠ userID) (vw_settled v) else vw_settled v |}
| h_bumped gate :
    quiet v gate →
    happens v (Bumped gate)
      {| vw_epoch := λ k, if k =?s gate then u64_succ (vw_epoch v k) else vw_epoch v k;
         vw_operational := vw_operational v; vw_clients := vw_clients v; vw_open := vw_open v;
         vw_settled := vw_settled v |}
| h_settled userID :
    gate_key userID ≠ ""%string → vw_operational v userID = false → no_clients (vw_clients v) userID →
    happens v (Settled userID)
      {| vw_epoch := vw_epoch v; vw_operational := vw_operational v; vw_clients := vw_clients v;
         vw_open := vw_open v; vw_settled := userID :: vw_settled v |}.

Inductive history (v : view) : list event → view → Prop :=
| history_nil : history v [] v
| history_snoc l ev v1 v2 : history v l v1 → happens v1 ev v2 → history v (l ++ [ev]) v2.

(** ** Histories *)

(** What holds between two points of a history. *)
Lemma history_app v l l' v' : history v (l ++ l') v' → ∃ v1, history v l v1 ∧ history v1 l' v'.
Proof.
  revert v'. induction l' as [|ev l' IH] using rev_ind; intros v'.
  { rewrite app_nil_r. eauto using history. }
  rewrite app_assoc. intros Hh. inversion Hh as [E|l0 ev0 v1 v2 H1 H2 E]; [by destruct (l ++ l'); destruct l|].
  apply app_inj_tail in E as [-> ->]. destruct (IH _ H1) as (v0 & ? & ?). exists v0. split; [done|].
  by econstructor.
Qed.

Lemma history_one v ev v' : history v [ev] v' → happens v ev v'.
Proof.
  intros Hh. inversion Hh as [|l0 ev0 v1 v2 H1 H2 E]. destruct l0 as [|? [|]]; [|done..]. injection E as ->.
  inversion H1 as [|l1 ev1 ? ? ? ? E1]; [by subst|]. by destruct l1.
Qed.

Lemma history_at v l ev l' v' :
  history v (l ++ ev :: l') v' → ∃ v1 v2, history v l v1 ∧ happens v1 ev v2 ∧ history v2 l' v'.
Proof.
  intros (v1 & H1 & H2)%history_app. change (ev :: l') with ([ev] ++ l') in H2.
  apply history_app in H2 as (v2 & H2%history_one & H3). eauto 6.
Qed.

(** A property of the view that all events but some keep. *)
Lemma history_keeps (P : view → Prop) (Q : event → Prop) v l v' :
  (∀ v ev v', P v → happens v ev v' → Q ev → P v') → P v → Forall Q l → history v l v' → P v'.
Proof.
  intros Hkeep HP HQ Hh. induction Hh as [|l ev v1 v2 Hh IH Hev]; [done|].
  apply Forall_app in HQ as [HQ [HQ1 _]%Forall_cons]. by eapply Hkeep; [apply IH|..].
Qed.

(** The users that were settled stay without clients until they are enabled. *)
Record settled_down (v : view) : Prop := {
  sd_gates : Forall (λ u, gate_key u ≠ ""%string) (vw_settled v);
  sd_operational : Forall (λ u, vw_operational v u = false) (vw_settled v);
  sd_clients : Forall (no_clients (vw_clients v)) (vw_settled v);
}.

Lemma happens_settled v ev v' : settled_down v → happens v ev v' → settled_down v'.
Proof.
  intros [Hg Ho Hc]. destruct 1 as [c [Ha _]|c _|c _ _|p _|p rest _|u active _|gate _|u Hne Hu Hn]; split; cbn; auto.
  - rewrite Forall_forall in Ho, Hc |- *. intros u Hu id c'.
    intros [[<- <-]|[_ Hl]]%lookup_insert_Some; [|by eapply (Hc u)].
    intros E. specialize (Ho _ Hu). cbn in Ho. congruence.
  - rewrite Forall_forall in Hc |- *. intros u Hu id c' [_ Hl]%lookup_delete_Some. by eapply (Hc u).
  - destruct active; [|done]. rewrite Forall_forall in Hg |- *. intros x [_ Hx]%list_elem_of_filter. by apply Hg.
  - destruct active.
    + rewrite Forall_forall in Ho |- *. intros x [Hne Hx]%list_elem_of_filter.
      rewrite (proj2 (String.eqb_neq _ _) Hne). by apply Ho.
    + eapply Forall_impl; [exact Ho|]. intros x Hx. cbn. by destruct (x =?s u)%string.
  - destruct active; [|done]. rewrite Forall_forall in Hc |- *. intros x [_ Hx]%list_elem_of_filter. by apply Hc.
Qed.

Lemma history_settled v l v' : settled_down v → history v l v' → settled_down v'.
Proof. induction 2; eauto using happens_settled. Qed.

Lemma first_view_settled db : settled_down (first_view db).
Proof. split; constructor. Qed.

Lemma settled_remains u v l v' :
  u ∈ vw_settled v → StatusSet u true ∉ l → history v l v' → u ∈ vw_settled v'.
Proof.
  intros Hu Hl. apply (history_keeps (λ v, u ∈ vw_settled v) (λ ev, ev ≠ StatusSet u true)); [|done|].
  - intros v1 ev v2 H1 Hev Hne. destruct Hev; cbn; try done; [|by apply list_elem_of_further].
    destruct active; [|done]. apply list_elem_of_filter. split; [congruence|done].
  - apply Forall_forall. by intros ev Hev ->.
Qed.

(** A publication goes on until its end. *)
Lemma open_remains p v l v' :
  p ∈ vw_open v → Ended p ∉ l → history v l v' → p ∈ vw_open v'.
Proof.
  intros Hp Hl. apply (history_keeps (λ v, p ∈ vw_open v) (λ ev, ev ≠ Ended p)); [|done|].
  - intros v1 ev v2 H1 Hev Hne. destruct Hev as [| | |q|q rest Hq| | |]; cbn; try done; [by apply list_elem_of_further|].
    rewrite Hq in H1. apply elem_of_cons in H1 as [->|]; done.
  - apply Forall_forall. by intros ev Hev ->.
Qed.

(** The epoch of a gate counts its bumps. *)
Definition bump (gate : string) (ev : event) : Z :=
  match ev with Bumped k => if k =?s gate then 1 else 0 | _ => 0 end.
Definition bumps (gate : string) (l : list event) : Z := total (bump gate) l.

Lemma history_epoch v l v' gate :
  vw_epoch v gate = 1 → history v l v' → vw_epoch v' gate = u64_add 1 (bumps gate l).
Proof.
  intros Hv Hh. induction Hh as [|l ev v1 v2 Hh IH Hev]; [by rewrite Hv|]. unfold bumps. rewrite total_app. cbn.
  destruct Hev as [| | | | | |k _|]; cbn; rewrite ?Z.add_0_r; try done. rewrite String.eqb_sym.
  destruct (String.eqb_spec k gate) as [->|Hne]; rewrite ?Z.add_0_r; [|done].
  rewrite IH. unfold u64_succ, u64_add, bumps. rewrite Zplus_mod_idemp_l. f_equal. lia.
Qed.
