(* ===== verification/LifecycleRules.v ===== *)
(** What a goroutine of [Lifecycle] holds and knows, and that its program only
    does what that allows it: locks are taken in order and given back, a client
    is published and a publication begun only after the checks it rests on. *)
From Stdlib Require Import ZArith Lia Ascii String Strings.Byte.
From stdpp Require Import base tactics numbers list gmap strings.
From S2P Require Import Prelude Records GoStrings GoIO Activity AdminDB Users Credentials TunnelSpec Goroutines Progress Lifecycle LifecycleSpec.

(** ** Ghost values *)

Inductive hold := Reads | Waits | Writes.
#[export] Instance hold_eq_dec : EqDecision hold.
Proof. solve_decision. Defined.

Record ghost := {
  h_gate : option (string * hold);
  h_locks : list mutex;                         (* the last one taken first *)
  h_entry : option (string * nat);              (* of a runtime operation *)
  h_epochs : list Z;                            (* what the epoch is *)
  h_active : list string;                       (* operational users *)
  h_down : option string;                       (* a user that is not *)
  (* the clients of the gate's users are under these keys, or these *)
  h_keys : option (list string * list ClientConn);
  h_seen : list (string * option ClientConn);   (* what is in the table *)
  h_open : option publication;
}.

Definition nothing : ghost := {|
  h_gate := None; h_locks := []; h_entry := None; h_epochs := []; h_active := []; h_down := None;
  h_keys := None; h_seen := []; h_open := None |}.

Definition with_gate (g : ghost) (x : option (string * hold)) : ghost := {|
  h_gate := x; h_locks := h_locks g; h_entry := h_entry g; h_epochs := []; h_active := [];
  h_down := None; h_keys := None; h_seen := h_seen g; h_open := h_open g |}.
Definition with_locks (g : ghost) (locks : list mutex) (seen : list (string * option ClientConn)) : ghost := {|
  h_gate := h_gate g; h_locks := locks; h_entry := h_entry g; h_epochs := h_epochs g;
  h_active := h_active g; h_down := h_down g; h_keys := h_keys g; h_seen := seen; h_open := h_open g |}.
Definition with_entry (g : ghost) (entry : option (string * nat)) : ghost := {|
  h_gate := h_gate g; h_locks := h_locks g; h_entry := entry; h_epochs := h_epochs g;
  h_active := h_active g; h_down := h_down g; h_keys := h_keys g; h_seen := h_seen g; h_open := h_open g |}.
Definition with_facts (g : ghost) epochs active down keys : ghost := {|
  h_gate := h_gate g; h_locks := h_locks g; h_entry := h_entry g; h_epochs := epochs;
  h_active := active; h_down := down; h_keys := keys; h_seen := h_seen g; h_open := h_open g |}.
Definition with_open (g : ghost) (p : option publication) : ghost := {|
  h_gate := h_gate g; h_locks := h_locks g; h_entry := h_entry g; h_epochs := h_epochs g;
  h_active := h_active g; h_down := h_down g; h_keys := h_keys g; h_seen := h_seen g; h_open := p |}.

Definition lock_level (m : mutex) : nat :=
  match m with
  | UserManagement => 2 | ClientTunnelMutation => 3 | RuntimeOperation _ => 4 | ClientLifecycle _ => 5
  end.

Definition has_entry (g : ghost) (m : mutex) : Prop :=
  match m with RuntimeOperation n => snd <$> h_entry g = Some n | _ => True end.
#[export] Instance has_entry_dec g m : Decision (has_entry g m).
Proof. destruct m; cbn; apply _. Defined.

Definition pinned (g : ghost) (p : publication) : Prop :=
  gate_key (pb_owner p) = ""%string ∨
  (h_gate g = Some (gate_key (pb_owner p), Reads) ∧ (pb_epoch p = 0 ∨ pb_epoch p ∈ h_epochs g) ∧
   (pb_operational p = true → pb_owner p ∈ h_active g)).
Definition saw_client (g : ghost) (o : option ClientConn) : Prop :=
  match o with Some c => (cc_ID c, Some c) ∈ h_seen g | None => True end.
(** What was seen of a participant. *)
Definition seen_participant (g : ghost) (task : unifiedTunnelReconcileTask) (pt : unifiedTunnelParticipant)
  : Prop :=
  Exists (λ x, x.1 = pt_ClientID pt ∧
            match x.2 with
            | None => pt_Generation pt = 0
            | Some c => pt_Generation pt ≠ 0 ∧ cc_generation c = pt_Generation pt ∧
                        cc_OwnerUserID c = rt_OwnerUserID task ∧ cc_OwnerEpoch c = rt_OwnerEpoch task
            end) (h_seen g).
Definition seen_task (g : ghost) (o : option unifiedTunnelReconcileTask) : Prop :=
  match o with Some task => Forall (seen_participant g task) (rt_Participants task) | None => True end.
#[export] Instance seen_participant_dec g task pt : Decision (seen_participant g task pt).
Proof. unfold seen_participant. refine (Exists_dec _ _). intros [? []]; apply _. Defined.
#[export] Instance pinned_dec g p : Decision (pinned g p).
Proof. unfold pinned. apply _. Defined.
#[export] Instance seen_client_dec g o : Decision (saw_client g o).
Proof. destruct o; cbn; apply _. Defined.
#[export] Instance seen_task_dec g o : Decision (seen_task g o).
Proof. destruct o; cbn; apply _. Defined.

(** All clients were looked at, and none is of this user. *)
Definition all_seen (userID : string) (o : option (list string * list ClientConn)) : Prop :=
  match o with
  | Some (keys, found) => keys = [] ∧ Forall (λ c, cc_OwnerUserID c ≠ userID) found
  | None => False
  end.
#[export] Instance all_seen_dec userID o : Decision (all_seen userID o).
Proof. destruct o as [[]|]; cbn; apply _. Defined.

(** The move to [g], if [P] holds. *)
Definition allow (P : Prop) `{!Decision P} (g : ghost) : option ghost := if decide P then Some g else None.

Lemma allow_true (P : Prop) `{!Decision P} g : P → allow P g = Some g.
Proof. intros HP. unfold allow. by rewrite decide_True. Qed.
Lemma allow_Some (P : Prop) `{!Decision P} g g' : allow P g = Some g' → P ∧ g' = g.
Proof. unfold allow. case_decide; [|done]. by intros [= <-]. Qed.

Definition free (g : ghost) : Prop := h_gate g = None ∧ h_locks g = [] ∧ h_open g = None.

Definition loaded (id : string) (v : option ClientConn) (g : ghost) : ghost :=
  let g := with_facts g (h_epochs g) (h_active g) (h_down g)
             (match h_keys g with
              | Some (keys, found) => Some (filter (λ k, k ≠ id) keys, option_list v ++ found)
              | None => None
              end) in
  if bool_decide (ClientTunnelMutation ∈ h_locks g) then with_locks g (h_locks g) ((id, v) :: h_seen g)
  else g.

Definition move (B : Type) (e : op B) (b : B) (g : ghost) : option ghost :=
  match e in op B return B → option ghost with
  | GateRLock gate => λ _, allow (free g) (with_gate g (Some (gate, Reads)))
  | GateRUnlock gate => λ _,
      allow (h_gate g = Some (gate, Reads) ∧ h_locks g = [] ∧ h_open g = None) (with_gate g None)
  | GateLockWait gate => λ _, allow (free g) (with_gate g (Some (gate, Waits)))
  | GateLock gate => λ _,
      allow (h_gate g = Some (gate, Waits) ∧ h_locks g = [] ∧ h_open g = None)
        (with_gate g (Some (gate, Writes)))
  | GateUnlock gate => λ _,
      allow (h_gate g = Some (gate, Writes) ∧ h_locks g = [] ∧ h_open g = None) (with_gate g None)
  | GateEpoch gate => λ epoch,
      allow (h_gate g = Some (gate, Reads) ∨ h_gate g = Some (gate, Writes))
        (with_facts g (epoch :: h_epochs g) (h_active g) (h_down g) (h_keys g))
  | GateBump gate => λ _,
      allow (h_gate g = Some (gate, Writes) ∧ gate ≠ ""%string)
        (with_facts g [] (h_active g) (h_down g) (h_keys g))
  | Lock m => λ _,
      allow (Forall (λ m', lock_level m' < lock_level m)%nat (h_locks g) ∧ h_open g = None ∧
             snd <$> h_gate g ≠ Some Waits ∧ has_entry g m)
        (with_locks g (m :: h_locks g) (h_seen g))
  | Unlock m => λ _,
      allow (m ∈ h_locks g ∧ h_open g = None)
        (with_locks g (filter (λ m', m' ≠ m) (h_locks g)) (if bool_decide (m = ClientTunnelMutation) then [] else h_seen g))
  | OpEnter key => λ n, allow (h_entry g = None) (with_entry g (Some (key, n)))
  | OpLeave key n => λ _,
      allow (h_entry g = Some (key, n) ∧ RuntimeOperation n ∉ h_locks g) (with_entry g None)
  | IsOperational userID => λ r,
      Some (match r with
            | Ok true => if bool_decide (h_gate g = Some (gate_key userID, Reads))
                         then with_facts g (h_epochs g) (userID :: h_active g) (h_down g) (h_keys g) else g
            | _ => g
            end)
  | SetStatus _ userID status _ => λ r,
      allow (h_gate g = Some (gate_key userID, Writes) ∧ gate_key userID ≠ ""%string)
        (with_facts g (h_epochs g) (h_active g)
           (if is_ok r && (status =?s UserStatusDisabled) then Some userID else None) (h_keys g))
  | DeleteUser _ userID => λ r,
      allow (h_gate g = Some (gate_key userID, Writes) ∧ gate_key userID ≠ ""%string)
        (with_facts g (h_epochs g) (h_active g) (if is_ok r then Some userID else None) (h_keys g))
  | StoreClient id owner epoch _ _ => λ _,
      allow (h_gate g = Some (gate_key owner, Reads) ∧ owner ∈ h_active g ∧ epoch ∈ h_epochs g ∧
             gate_key owner ≠ ""%string ∧ ClientTunnelMutation ∈ h_locks g)
        (with_locks g (h_locks g) [])
  | LoadClient id => λ v, Some (loaded id v g)
  | ClientKeys => λ keys,
      Some (with_facts g (h_epochs g) (h_active g) (h_down g)
              (if bool_decide (snd <$> h_gate g = Some Writes) then Some (keys, []) else None))
  | DeleteClient _ => λ _, allow (ClientTunnelMutation ∈ h_locks g) (with_locks g (h_locks g) [])
  | AttachSession c => λ _,
      allow ((cc_ID c, Some c) ∈ h_seen g ∧
             (cc_OwnerUserID c = ""%string ∨
              h_gate g = Some (gate_key (cc_OwnerUserID c), Reads) ∧ cc_OwnerUserID c ∈ h_active g ∧
              cc_OwnerEpoch c ∈ h_epochs g)) g
  | Begin p => λ _,
      allow (h_open g = None ∧ pinned g p ∧ saw_client g (pb_client p) ∧ seen_task g (pb_task p) ∧
             (pb_exclusive p = true → ClientTunnelMutation ∈ h_locks g)) (with_open g (Some p))
  | End p => λ _, allow (h_open g = Some p) (with_open g None)
  | Settle userID => λ _,
      allow (gate_key userID ≠ ""%string ∧ h_gate g = Some (gate_key userID, Writes) ∧
             h_down g = Some userID ∧ all_seen userID (h_keys g)) g
  | _ => λ _, Some g
  end b.

Definition hand (t : goroutine_kind) (g : ghost) : option ghost := Some g.
Definition begins (t : goroutine_kind) : ghost := nothing.
Definition rests (t : goroutine_kind) (again : bool) (g : ghost) : Prop := g = nothing.

(** What an answer says by itself. *)
Definition possible (B : Type) (e : op B) (b : B) : Prop :=
  match e in op B return B → Prop with
  | LoadUser userID => λ r, ∀ u, r = Ok u → u_ID u = userID
  | SetStatus _ userID _ _ => λ r, ∀ x, r = Ok x → u_ID x.1.1 = userID
  | LoadClient id => λ v, ∀ c, v = Some c → cc_ID c = id
  | StoreClient id owner epoch _ generation => λ c,
      cc_ID c = id ∧ cc_OwnerUserID c = owner ∧ cc_OwnerEpoch c = epoch ∧ cc_generation c = generation
  | _ => λ _, True
  end b.

Abbreviation does p g Q := (follows possible move hand p g Q).

(** ** Programs *)

Definition acting (gate : option (string * hold)) (epochs : list Z) (active : list string) (locks : list mutex)
    (entry : option (string * nat)) (seen : list (string * option ClientConn)) : ghost := {|
  h_gate := gate; h_locks := locks; h_entry := entry; h_epochs := epochs; h_active := active;
  h_down := None; h_keys := None; h_seen := seen; h_open := None |}.

Lemma does_op {A B} (e : op B) (f : B → go_prog A) g (Q : A → ghost → Prop) :
  (∀ b, possible _ e b → ∃ g', move _ e b g = Some g' ∧ does (f b) g' Q) →
  does (seq (act e) f) g Q.
Proof. done. Qed.

Lemma does_ret {A} (a : A) g (Q : A → ghost → Prop) : Q a g → does (Ret a) g Q.
Proof. done. Qed.

(** One operation that the ghost value allows. *)
Ltac allowed := first [reflexivity | apply allow_true; repeat split; cbn; try done; try set_solver].
Ltac one_op := apply does_op; intros ? ?; eexists; split; [allowed|].
Ltac last_op := intros ? ?; eexists; split; [allowed|].

Lemma does_ensure u g (Q : result unit → ghost → Prop) :
  h_gate g = Some (gate_key u, Reads) → (∀ e, Q (Err e) g) →
  Q (Ok tt) (with_facts g (h_epochs g) (u :: h_active g) (h_down g) (h_keys g)) →
  does (ensureClientOwnerOperational u) g Q.
Proof.
  intros Hg Herr Hok. unfold ensureClientOwnerOperational. destruct (_ =?s _)%string; [apply Herr|].
  apply does_op. intros r _. eexists. split; [reflexivity|].
  destruct r as [[|]|e]; [|apply Herr..]. cbn. rewrite bool_decide_true by done. apply Hok.
Qed.

Lemma does_acquire u epoch required (Q : result (Z * string) → ghost → Prop) :
  (∀ e, Q (Err e) nothing) →
  (∀ e es us, gate_key u ≠ ""%string → (epoch ≠ 0 → epoch ∈ es) → e ∈ es → (required = true → u ∈ us) →
     Q (Ok (e, gate_key u)) (acting (Some (gate_key u, Reads)) es us [] None [])) →
  does (acquireUserLifecycleRead u epoch required) nothing Q.
Proof.
  intros Herr Hok. unfold acquireUserLifecycleRead, lifecycleGate. fold (gate_key u).
  destruct (String.eqb_spec (gate_key u) "") as [|Hne]; [apply Herr|].
  one_op. apply follows_seq.
  assert (Hrest : ∀ changed es, (changed = false → epoch ≠ 0 → epoch ∈ es) →
    does (if changed : bool then _ ← act (GateRUnlock (gate_key u)); Ret (Err ErrUserLifecycleEpochChanged) else
          r ← (if required then ensureClientOwnerOperational u else Ret (Ok tt));
          match r with
          | Err e => _ ← act (GateRUnlock (gate_key u)); Ret (Err e)
          | Ok _ => epoch ← act (GateEpoch (gate_key u)); Ret (Ok (epoch, gate_key u))
          end) (acting (Some (gate_key u, Reads)) es [] [] None []) Q).
  { intros changed es Hes. destruct changed; [one_op; apply Herr|]. apply follows_seq.
    assert (Hend : ∀ (r : result unit) us, (is_ok r = true → required = true → u ∈ us) →
      does (match r with
            | Err e => _ ← act (GateRUnlock (gate_key u)); Ret (Err e)
            | Ok _ => epoch ← act (GateEpoch (gate_key u)); Ret (Ok (epoch, gate_key u))
            end) (acting (Some (gate_key u, Reads)) es us [] None []) Q).
    { intros [[]|e] us Hus; one_op; [|apply Herr]. apply Hok; [done|set_solver|set_solver|by apply Hus]. }
    destruct required; [|apply does_ret; by apply (Hend (Ok tt))].
    apply does_ensure; [done|intros e; by apply (Hend (Err e))|apply (Hend (Ok tt)); set_solver]. }
  destruct (Z.eqb_spec epoch 0) as [->|Hz]; [apply does_ret, (Hrest false []); intros _ Hn; by destruct Hn|].
  apply does_op. intros e _. eexists. split; [allowed|]. apply does_ret, (Hrest (negb _) [e]). intros Hc _. apply negb_false_iff, Z.eqb_eq in Hc as ->. set_solver.
Qed.

Lemma does_current client g (Q : bool → ghost → Prop) :
  cc_OwnerUserID client = ""%string ∨ h_gate g = Some (gate_key (cc_OwnerUserID client), Reads) →
  (cc_OwnerUserID client ≠ ""%string → ∀ es, Q false (with_facts g es (h_active g) (h_down g) (h_keys g))) →
  (cc_OwnerUserID client = ""%string → Q true (with_facts g (h_epochs g) (h_active g) (h_down g) (h_keys g))) →
  (cc_OwnerUserID client ≠ ""%string →
     Q true (with_facts g (cc_OwnerEpoch client :: h_epochs g) (h_active g) (h_down g) (h_keys g))) →
  does (clientLifecycleCurrentLocked client) g Q.
Proof.
  intros Hg Hno Hlegacy Hyes. unfold clientLifecycleCurrentLocked, lifecycleGate. fold (gate_key (cc_OwnerUserID client)).
  assert (Eg : g = with_facts g (h_epochs g) (h_active g) (h_down g) (h_keys g)) by by destruct g.
  destruct (String.eqb_spec (cc_OwnerUserID client) "") as [E|E]; [rewrite Eg at 1; by apply Hlegacy|].
  destruct (String.eqb_spec (gate_key (cc_OwnerUserID client)) ""); [rewrite Eg at 1; by apply Hno|].
  destruct Hg as [?|Hg]; [done|]. apply does_op. intros epoch _. eexists.
  split; [apply allow_true; by left|]. cbn. destruct (Z.eqb_spec epoch (cc_OwnerEpoch client)) as [->|].
  - by apply Hyes.
  - by apply Hno.
Qed.

(** *** Publications *)

Lemma does_publish p g (Q : result unit → ghost → Prop) :
  h_open g = None → pinned g p → saw_client g (pb_client p) → seen_task g (pb_task p) →
  (pb_exclusive p = true → ClientTunnelMutation ∈ h_locks g) → (∀ r, Q r g) →
  does (publish p) g Q.
Proof.
  intros Ho Hp Hc Ht Hx HQ. apply does_op. intros [] _. eexists. split; [by apply allow_true|].
  one_op. apply does_op. intros [] _. eexists. split; [by apply allow_true|]. apply does_ret.
  replace (with_open _ _) with g; [apply HQ|]. destruct g. cbn in *. by subst.
Qed.

Lemma does_ops_lock key hg es us seen (Q : option nat → ghost → Prop) :
  snd <$> hg ≠ Some Waits → Q None (acting hg es us [ClientTunnelMutation] None seen) →
  (∀ n, Q (Some n) (acting hg es us [RuntimeOperation n; ClientTunnelMutation] (Some (key, n)) seen)) →
  does (ops_lock key) (acting hg es us [ClientTunnelMutation] None seen) Q.
Proof.
  intros Hw Hnone Hsome. unfold ops_lock. destruct (_ =?s _)%string; [exact Hnone|].
  apply does_op. intros n _. eexists. split; [by apply allow_true|].
  apply does_op. intros [] _. eexists. split; [|apply Hsome].
  apply allow_true. split; [|done]. repeat constructor.
Qed.

Lemma drop_first (m : mutex) locks : m ∉ locks → filter (λ m', m' ≠ m) (m :: locks) = locks.
Proof.
  intros Hm. rewrite filter_cons_False by by intros [].
  induction locks as [|m' locks IH]; [done|]. apply not_elem_of_cons in Hm as [Hne Hm].
  rewrite filter_cons_True by done. by rewrite IH.
Qed.

Lemma does_unlock {A} m locks g (f : unit → go_prog A) (Q : A → ghost → Prop) :
  h_locks g = m :: locks → m ∉ locks → h_open g = None →
  does (f tt) (with_locks g locks (if bool_decide (m = ClientTunnelMutation) then [] else h_seen g)) Q →
  does (seq (act (Unlock m)) f) g Q.
Proof.
  intros El Hm Ho Hf. apply does_op. intros [] _. eexists.
  split; [apply allow_true; rewrite El; split; [apply list_elem_of_here|done]|]. by rewrite El, drop_first.
Qed.

Lemma does_unlock_second {A} m m' g (f : unit → go_prog A) (Q : A → ghost → Prop) :
  h_locks g = [m'; m] → m' ≠ m → h_open g = None →
  does (f tt) (with_locks g [m'] (if bool_decide (m = ClientTunnelMutation) then [] else h_seen g)) Q →
  does (seq (act (Unlock m)) f) g Q.
Proof.
  intros El Hm Ho Hf. apply does_op. intros [] _. eexists.
  split; [apply allow_true; rewrite El; split; [set_solver|done]|]. rewrite El.
  by rewrite filter_cons_True, filter_cons_False by (try done; by intros []).
Qed.

(** A function that runs with the mutex and the runtime operation of a tunnel. *)
Lemma does_locked {A} key gate es us (p : go_prog A) (Q : A → ghost → Prop) :
  let hg := (λ k, (k, Reads)) <$> gate in
  (gate = None → es = [] ∧ us = []) →
  (∀ locks entry, ClientTunnelMutation ∈ locks →
     does p (acting hg es us locks entry []) (λ _ g', ∃ seen, g' = acting hg es us locks entry seen)) →
  (∀ a, Q a nothing) →
  does (_ ← act (Lock ClientTunnelMutation);
        entry ← ops_lock key; r ← p; _ ← ops_unlock key entry;
        _ ← act (Unlock ClientTunnelMutation); _ ← release gate; Ret r)
    (acting hg es us [] None []) Q.
Proof.
  intros hg Hnone Hp HQ. assert (Hw : snd <$> hg ≠ Some Waits) by by destruct gate.
  apply does_op. intros [] _. eexists. split; [by apply allow_true|].
  assert (Hend : ∀ a seen, does (_ ← act (Unlock ClientTunnelMutation); _ ← release gate; Ret a)
    (acting hg es us [ClientTunnelMutation] None seen) Q).
  { intros a seen. eapply does_unlock; [done|set_solver|done|]. destruct gate as [k|]; cbn.
    - intros [] _. eexists. split; [by apply allow_true|]. apply HQ.
    - destruct Hnone as [-> ->]; [done|]. apply HQ. }
  apply follows_seq, does_ops_lock; [done| |].
  - apply follows_seq. eapply follows_mono; [|apply Hp; set_solver].
    intros a g' [seen ->]. apply Hend.
  - intros n. apply follows_seq. eapply follows_mono; [|apply Hp; set_solver].
    intros a g' [seen ->]. apply follows_seq. eapply does_unlock; [done|set_solver|done|].
    intros [] _. eexists. split; [|apply (Hend a seen)]. apply allow_true. split; [done|]. cbn. set_solver.
Qed.

Lemma does_acquire_stored stored epoch (Q : result (Z * option string) → ghost → Prop) :
  (∀ e, Q (Err e) nothing) →
  (∀ e gate es us, (gate = None → es = [] ∧ us = []) →
     (∀ locks entry seen task, pinned (acting ((λ k, (k, Reads)) <$> gate) es us locks entry seen)
                                 (tunnel_publication stored epoch task)) →
     Q (Ok (e, gate)) (acting ((λ k, (k, Reads)) <$> gate) es us [] None [])) →
  does (acquireStoredTunnelLifecycle stored epoch) nothing Q.
Proof.
  intros Herr Hok. unfold acquireStoredTunnelLifecycle.
  destruct (String.eqb_spec (trim_space (st_OwnerUserID stored)) "") as [E|Hne].
  - apply does_ret. apply (Hok 0 None [] []); [done|]. intros. by left.
  - apply follows_seq, does_acquire; [intros e; apply Herr|].
    intros e es us _ Hepoch _ Hus. apply (Hok e (Some _)); [done|]. intros locks entry seen task. right. cbn.
    split; [done|]. split; [|auto]. destruct (decide (epoch = 0)); auto.
Qed.

Lemma does_stored_publication stored epoch (Q : result unit → ghost → Prop) :
  (∀ r, Q r nothing) → does (withStoredTunnelPublication stored epoch) nothing Q.
Proof.
  intros HQ. apply follows_seq, does_acquire_stored; [intros e; apply HQ|].
  intros e gate es us Hnone Hp. apply does_locked; [done| |done].
  intros locks entry Hm. apply does_publish; [done|apply Hp|done|done|done|]. intros r. by eexists.
Qed.

(** *** Tasks *)

Lemma seen_participant_mono g g' task pt :
  h_seen g ⊆ h_seen g' → seen_participant g task pt → seen_participant g' task pt.
Proof.
  unfold seen_participant. rewrite !Exists_exists. intros Hs (x & Hx & Hp). exists x. split; [by apply Hs|done].
Qed.

Lemma does_participants owner epoch task hg es us locks entry seen l :
  rt_OwnerUserID task = owner → rt_OwnerEpoch task = epoch → ClientTunnelMutation ∈ locks →
  does (participants_current owner epoch l) (acting hg es us locks entry seen)
    (λ b g', ∃ seen', g' = acting hg es us locks entry seen' ∧ seen ⊆ seen' ∧
             (b = true → Forall (seen_participant g' task) l)).
Proof.
  intros Eo Ee Hm. revert seen. induction l as [|pt l IH]; intros seen.
  { exists seen. split; [done|]. split; [done|]. constructor. }
  apply does_op. intros v _. eexists. split; [reflexivity|]. unfold loaded. cbn.
  rewrite bool_decide_true by done.
  set (seen1 := (pt_ClientID pt, v) :: seen). fold (acting hg es us locks entry seen1).
  change (with_locks _ _ _) with (acting hg es us locks entry seen1).
  assert (Hno : ∃ seen', acting hg es us locks entry seen1 = acting hg es us locks entry seen' ∧ seen ⊆ seen' ∧
    (false = true → Forall (seen_participant (acting hg es us locks entry seen1) task) (pt :: l)))
    by (exists seen1; repeat split; [set_solver|done]).
  assert (Hyes : (match v with
                  | None => pt_Generation pt = 0
                  | Some c => pt_Generation pt ≠ 0 ∧ cc_generation c = pt_Generation pt ∧
                        cc_OwnerUserID c = rt_OwnerUserID task ∧ cc_OwnerEpoch c = rt_OwnerEpoch task
                  end) →
    does (participants_current owner epoch l) (acting hg es us locks entry seen1)
    (λ b g', ∃ seen', g' = acting hg es us locks entry seen' ∧ seen ⊆ seen' ∧
             (b = true → Forall (seen_participant g' task) (pt :: l)))).
  { intros Hv. eapply follows_mono; [|apply IH]. intros b g' (seen' & -> & Hs & Hl). exists seen'.
    split; [done|]. split; [set_solver|]. intros Hb. constructor; [|by apply Hl].
    apply (seen_participant_mono (acting hg es us locks entry seen1)); [done|]. apply Exists_cons. by left. }
  destruct (Z.eqb_spec (pt_Generation pt) 0) as [E0|E0].
  - destruct v; [apply Hno|by apply Hyes].
  - destruct v as [c|]; [|apply Hno]. destruct (_ || _) eqn:Eb; [apply Hno|]. apply Hyes.
    apply orb_false_iff in Eb as [Eb E3%negb_false_iff%Z.eqb_eq].
    apply orb_false_iff in Eb as [E1%negb_false_iff%Z.eqb_eq E2%negb_false_iff%String.eqb_eq].
    repeat split; congruence.
Qed.

Lemma does_task_publication stored epoch task (Q : result unit → ghost → Prop) :
  (∀ r, Q r nothing) → does (withUnifiedTunnelReconcilePublication stored epoch task) nothing Q.
Proof.
  intros HQ. destruct task as [task|]; [|by apply does_stored_publication].
  apply follows_seq, does_acquire_stored; [intros e; apply HQ|].
  intros e gate es us Hnone Hp.
  assert (Hrest : ∀ locks entry, ClientTunnelMutation ∈ locks →
    does (publish_if_current stored task) (acting ((λ k, (k, Reads)) <$> gate) es us locks entry [])
      (λ _ g', ∃ seen, g' = acting ((λ k, (k, Reads)) <$> gate) es us locks entry seen)).
  { intros locks entry Hm. apply follows_seq. apply does_op. intros found _. eexists. split; [reflexivity|].
    destruct found as [[found|]|e']; [|by eexists..]. destruct (_ || _); [by eexists|].
    apply follows_seq. eapply follows_mono; [|by apply (does_participants _ _ task)].
    intros [|] g' (seen & -> & _ & Hl); [|by eexists]. apply does_publish; [done|apply Hp|done|by apply Hl|done|by eexists]. }
  by apply does_locked.
Qed.

(** *** Looking at the table *)

Definition refreshed (g : ghost) keys locks seen : ghost :=
  with_locks (with_facts g (h_epochs g) (h_active g) (h_down g) keys) locks seen.

Lemma does_load {A} id (f : option ClientConn → go_prog A) g (Q : A → ghost → Prop) :
  (∀ v keys, (h_keys g = None → keys = None) → (∀ c, v = Some c → cc_ID c = id) →
     does (f v) (refreshed g keys (h_locks g)
                   (if bool_decide (ClientTunnelMutation ∈ h_locks g) then (id, v) :: h_seen g else h_seen g)) Q) →
  does (seq (act (LoadClient id)) f) g Q.
Proof.
  intros Hf. apply does_op. intros v Hv. eexists. split; [reflexivity|].
  set (keys := match h_keys g with
               | Some (keys, found) => Some (filter (λ k, k ≠ id) keys, option_list v ++ found)
               | None => None end).
  assert (El : loaded id v g = refreshed g keys (h_locks g)
    (if bool_decide (ClientTunnelMutation ∈ h_locks g) then (id, v) :: h_seen g else h_seen g)).
  { unfold loaded, refreshed. cbn. fold keys. by destruct (bool_decide _). }
  rewrite El. apply Hf; [|done]. unfold keys. by intros ->.
Qed.

(** Programs that look at the table, or change it under the mutex. *)
Definition looks {A} (p : go_prog A) (g : ghost) : Prop :=
  does p g (λ _ g', ∃ keys seen, g' = refreshed g keys (h_locks g) seen ∧ (h_keys g = None → keys = None) ∧
                    (h_locks g = [] → h_seen g = [] → seen = [])).

Lemma refreshed_self g : g = refreshed g (h_keys g) (h_locks g) (h_seen g).
Proof. by destruct g. Qed.

Lemma looks_ret {A} (a : A) g : looks (Ret a) g.
Proof. apply does_ret. exists (h_keys g), (h_seen g). split; [apply refreshed_self|done]. Qed.

Lemma looks_seq {A B} (p : go_prog A) (f : A → go_prog B) g :
  looks p g → (∀ a keys seen, (h_keys g = None → keys = None) → looks (f a) (refreshed g keys (h_locks g) seen)) →
  looks (seq p f) g.
Proof.
  intros Hp Hf. apply follows_seq. eapply follows_mono; [|exact Hp].
  intros a g' (keys & seen & -> & Hk & Hs). eapply follows_mono; [|by apply Hf].
  intros b g' (keys' & seen' & -> & Hk' & Hs'). exists keys', seen'. split; [done|]. cbn in *. auto.
Qed.

Lemma looks_load id g : looks (act (LoadClient id)) g.
Proof.
  apply (does_load id Ret). intros v keys Hk _. eexists _, _. split; [reflexivity|]. split; [done|].
  intros -> ->. done.
Qed.

(** Operations that the ghost value takes no notice of. *)
Lemma looks_plain {B} (e : op B) g :
  (∀ b, move _ e b g = Some g) → looks (act e) g.
Proof.
  intros He b _. exists g. split; [apply He|]. exists (h_keys g), (h_seen g). split; [apply refreshed_self|done].
Qed.

Lemma looks_and_then {g} a p : (a = true → looks p g) → looks (and_then a p) g.
Proof. destruct a; [auto|]. intros _. apply looks_ret. Qed.

(** *** Invalidation *)

Lemma looks_close id generation c g : ClientTunnelMutation ∈ h_locks g → looks (close_current id generation c) g.
Proof.
  intros Hm. apply looks_seq; [apply looks_load|]. intros v keys seen _. destruct (_ || _); [apply looks_ret|].
  apply looks_seq; [by apply looks_plain|]. intros state keys' seen' _. case_bool_decide; [apply looks_ret|].
  apply looks_seq; [by apply looks_plain|]. intros _ keys2 seen2 _. apply looks_seq.
  - intros [] _. eexists. split; [by apply allow_true|]. by exists keys2, [].
  - intros. apply looks_ret.
Qed.

Lemma looks_invalidate_locked id generation g :
  h_locks g = [ClientTunnelMutation] → h_open g = None → snd <$> h_gate g ≠ Some Waits →
  looks (invalidateLogicalSessionIfCurrentLocked id generation) g.
Proof.
  intros El Ho Hw. apply looks_seq; [apply looks_load|]. intros [c|] keys seen _; [|apply looks_ret].
  destruct (negb _); [apply looks_ret|].
  apply does_op. intros [] _. eexists.
  split; [apply allow_true; cbn; rewrite El; split; [repeat constructor|done]|].
  apply follows_seq. eapply follows_mono; [|apply looks_close; cbn; rewrite El; set_solver].
  intros closed g' (keys' & seen' & -> & Hk & _). eapply does_unlock; [done|cbn; rewrite El; set_solver|done|].
  apply does_ret. exists keys', seen'. split; [done|]. split; [exact Hk|]. cbn. by rewrite El.
Qed.

Lemma looks_invalidate id generation g :
  h_locks g = [] → h_open g = None → h_seen g = [] → snd <$> h_gate g ≠ Some Waits →
  looks (invalidateLogicalSessionIfCurrent id generation) g.
Proof.
  intros El Ho Es Hw. apply does_op. intros [] _. eexists.
  split; [apply allow_true; rewrite El; split; [constructor|done]|].
  apply follows_seq. eapply follows_mono; [|apply looks_invalidate_locked; cbn; by rewrite ?El].
  intros b g' (keys & seen & -> & Hk & _). eapply does_unlock; [cbn; by rewrite El|set_solver|done|].
  apply does_ret. exists keys, []. cbn. rewrite El. repeat split; [exact Hk].
Qed.

(** From nothing back to nothing. *)
Lemma looks_nothing {A} (p : go_prog A) (Q : A → ghost → Prop) :
  looks p nothing → (∀ a, Q a nothing) → does p nothing Q.
Proof.
  intros Hp HQ. eapply follows_mono; [|exact Hp]. intros a g' (keys & seen & -> & Hk & Hs).
  rewrite (Hk eq_refl), (Hs eq_refl eq_refl). apply HQ.
Qed.

Lemma does_invalidate id generation (Q : bool → ghost → Prop) :
  (∀ b, Q b nothing) → does (invalidateLogicalSessionIfCurrent id generation) nothing Q.
Proof. intros HQ. by apply looks_nothing; [apply looks_invalidate|]. Qed.

(** *** Publications of clients *)

Lemma does_unlock_gate {A} k es us seen (a : A) (Q : A → ghost → Prop) :
  Q a nothing →
  does (_ ← act (Unlock ClientTunnelMutation); _ ← act (GateRUnlock k); Ret a)
    (acting (Some (k, Reads)) es us [ClientTunnelMutation] None seen) Q.
Proof.
  intros HQ. eapply does_unlock; [done|set_solver|done|]. one_op. apply HQ.
Qed.

Lemma does_client_publication final client (Q : bool → ghost → Prop) :
  (∀ b, Q b nothing) → does (withClientPublication final client) nothing Q.
Proof.
  intros HQ. unfold withClientPublication. destruct (String.eqb_spec (cc_OwnerUserID client) "") as [E|Hne].
  - apply follows_seq. apply does_publish; cbn; rewrite ?E; [done| | |done|done|intros r; apply HQ].
    + left. cbn. by rewrite E.
    + by rewrite andb_false_r.
  - apply follows_seq, does_acquire; [intros e; apply HQ|]. intros e es us _ Hepoch _ Hus.
    apply does_op. intros [] _. eexists. split; [apply allow_true; repeat split; [constructor|done]|].
    change (with_locks _ _ _) with (acting (Some (gate_key (cc_OwnerUserID client), Reads)) es us [ClientTunnelMutation] None []).
    set (at_ es' seen := acting (Some (gate_key (cc_OwnerUserID client), Reads)) es' us [ClientTunnelMutation] None seen).
    set (p := client_publication client (negb final)).
    assert (Hrest : ∀ current es' seen,
      (current = true → es ⊆ es' ∧ (final = false → (cc_ID client, Some client) ∈ seen)) →
      does (_ ← (if current : bool then publish p else Ret (Ok tt));
            _ ← act (Unlock ClientTunnelMutation); _ ← act (GateRUnlock (gate_key (cc_OwnerUserID client)));
            Ret current) (at_ es' seen) Q).
    { intros [|] es' seen Hseen; apply follows_seq; [|apply does_ret, does_unlock_gate, HQ].
      destruct Hseen as [Hes Hseen]; [done|].
      apply does_publish; [done| | |done|set_solver|intros r; apply does_unlock_gate, HQ].
      - right. split; [done|]. split; [|by auto]. destruct (decide (cc_OwnerEpoch client = 0)); [by left|right].
        apply Hes. by apply Hepoch.
      - cbn. rewrite (proj2 (String.eqb_neq _ _) Hne). destruct final; [done|]. cbn. by apply Hseen. }
    assert (Hcurrent : ∀ current seen, (current = true → final = false → (cc_ID client, Some client) ∈ seen) →
      does (current ← and_then current (clientLifecycleCurrentLocked client);
            _ ← (if current : bool then publish p else Ret (Ok tt));
            _ ← act (Unlock ClientTunnelMutation); _ ← act (GateRUnlock (gate_key (cc_OwnerUserID client)));
            Ret current) (at_ es seen) Q).
    { intros current seen Hseen. apply follows_seq. destruct current; [|by apply does_ret, Hrest].
      apply does_current; [by right|intros _ es'; by apply (Hrest false)|done|].
      intros _. apply (Hrest true (_ :: es)). intros _. split; [set_solver|by apply Hseen]. }
    apply follows_seq. destruct final; [by apply does_ret, Hcurrent|].
    apply does_load. intros v keys Hkeys _. rewrite (Hkeys eq_refl).
    change (refreshed _ _ _ _) with (at_ es [(cc_ID client, v)]).
    case_bool_decide as Ev; [|by apply does_ret, Hcurrent]. rewrite Ev.
    apply does_op. intros state _. eexists. split; [reflexivity|]. apply does_ret, Hcurrent.
    intros _ _. apply list_elem_of_here.
Qed.

(** *** Requests *)

Lemma does_capture owner admin required (Q : result ResourceScope → ghost → Prop) :
  (∀ r, (∀ scope, r = Ok scope → sc_OwnerUserID scope = owner) → Q r nothing) →
  does (captureResourceScope owner admin required) nothing Q.
Proof.
  intros HQ. apply follows_seq, does_acquire; [intros e; by apply HQ|]. intros e es us _ _ _ _.
  one_op. apply does_ret, HQ. by intros scope [= <-].
Qed.

Lemma does_resource_mutation scope tunnel required (Q : result string → ghost → Prop) :
  (∀ e, Q (Err e) nothing) →
  (∀ es us, (∀ locks, pinned (acting (Some (gate_key (sc_OwnerUserID scope), Reads)) es us locks None [])
                        (mutation scope tunnel required)) →
     Q (Ok (gate_key (sc_OwnerUserID scope))) (acting (Some (gate_key (sc_OwnerUserID scope), Reads)) es us [] None [])) →
  does (acquireResourceMutation scope required) nothing Q.
Proof.
  intros Herr Hok. apply follows_seq, does_acquire; [intros e; apply Herr|]. intros e es us _ Hepoch _ Hus.
  assert (Hend : Q (Ok (gate_key (sc_OwnerUserID scope)))
                   (acting (Some (gate_key (sc_OwnerUserID scope), Reads)) es us [] None [])).
  { apply Hok. intros locks. right. split; [done|]. split; [|done]. cbn.
    destruct (decide (sc_ExpectedEpoch scope = 0)); auto. }
  destruct (_ =?s _)%string; [exact Hend|]. one_op. destruct b as [session|]; [destruct (_ =?s _)%string; [exact Hend|]|];
    one_op; apply Herr.
Qed.

Lemma does_resource_request owner sessionID admin tunnel required (Q : unit → ghost → Prop) :
  Q tt nothing → does (resource_request owner sessionID admin tunnel required) nothing Q.
Proof.
  intros HQ. apply follows_seq, does_capture. intros [scope|e] _; [|exact HQ]. destruct tunnel; apply follows_seq.
  - apply follows_seq, (does_resource_mutation _ true); [intros e; exact HQ|]. intros es us Hp.
    one_op. apply does_ret, follows_seq, does_publish; [done|apply Hp|done|done|set_solver|]. intros r.
    eapply does_unlock; [done|set_solver|done|]. intros [] _. eexists. split; [by apply allow_true|exact HQ].
  - apply (does_resource_mutation _ false); [intros e; exact HQ|]. intros es us Hp.
    apply follows_seq, does_publish; [done|apply Hp|done..|]. intros r [] _. eexists.
    split; [by apply allow_true|exact HQ].
Qed.

(** *** Data channels *)

Lemma does_attach_current client es us seen :
  let hg := if (cc_OwnerUserID client =?s "")%string then None else Some (gate_key (cc_OwnerUserID client), Reads) in
  let locks := [ClientLifecycle (cc_ref client); ClientTunnelMutation] in
  (cc_OwnerUserID client ≠ ""%string → cc_OwnerUserID client ∈ us) →
  does (attach_current client) (acting hg es us locks None seen)
    (λ _ g', ∃ es' seen', g' = acting hg es' us locks None seen' ∧ (hg = None → es' = es)).
Proof.
  intros hg locks Hus. apply does_load. intros v keys Hkeys _. rewrite (Hkeys eq_refl).
  change (refreshed _ _ _ _) with (acting hg es us locks None ((cc_ID client, v) :: seen)). apply follows_seq.
  set (seen1 := (cc_ID client, v) :: seen).
  assert (Hno : ∃ es' seen', acting hg es us locks None seen1 = acting hg es' us locks None seen' ∧ (hg = None → es' = es))
    by by exists es, seen1.
  assert (Hattach : ∀ es', (hg = None → es' = es) → v = Some client →
    (cc_OwnerUserID client ≠ ""%string → cc_OwnerEpoch client ∈ es') →
    does (state ← act (StateOf client);
          if bool_decide (state = Closing) then Ret false else
          _ ← (if bool_decide (state = PendingData) then act (SetState client Live) else done);
          _ ← act (AttachSession client);
          Ret true) (acting hg es' us locks None seen1)
      (λ _ g', ∃ es' seen', g' = acting hg es' us locks None seen' ∧ (hg = None → es' = es))).
  { intros es' Hes -> Hepoch. one_op. case_bool_decide; [by exists es', seen1|]. apply follows_seq.
    assert (Hlast : does (_ ← act (AttachSession client); Ret true) (acting hg es' us locks None seen1)
      (λ _ g', ∃ es' seen', g' = acting hg es' us locks None seen' ∧ (hg = None → es' = es))).
    { apply does_op. intros [] _. eexists. split; [|by exists es', seen1]. apply allow_true.
      split; [apply list_elem_of_here|]. unfold hg. destruct (String.eqb_spec (cc_OwnerUserID client) ""); [by left|].
      right. cbn. auto. }
    case_bool_decide; [|exact Hlast]. intros [] _. eexists. split; [reflexivity|exact Hlast]. }
  destruct (bool_decide _ && _) eqn:Eb; [|exact Hno]. apply andb_true_iff in Eb as [Ev%bool_decide_eq_true _].
  apply does_current.
  - unfold hg. destruct (String.eqb_spec (cc_OwnerUserID client) ""); [by left|by right].
  - intros Hne es'. exists es', seen1. split; [done|]. unfold hg. by rewrite (proj2 (String.eqb_neq _ _) Hne).
  - intros E. by apply Hattach.
  - intros Hne. apply (Hattach (_ :: es)); [|done|intros _; apply list_elem_of_here].
    unfold hg. by rewrite (proj2 (String.eqb_neq _ _) Hne).
Qed.

Lemma does_attach client (Q : bool → ghost → Prop) :
  (∀ b, Q b nothing) → does (attachDataSessionIfCurrent client) nothing Q.
Proof.
  intros HQ.
  assert (Hrest : ∀ gate es us,
    (λ k, (k, Reads)) <$> gate
      = (if (cc_OwnerUserID client =?s "")%string then None else Some (gate_key (cc_OwnerUserID client), Reads)) →
    (gate = None → es = [] ∧ us = []) → (cc_OwnerUserID client ≠ ""%string → cc_OwnerUserID client ∈ us) →
    does (_ ← act (Lock ClientTunnelMutation);
          _ ← act (Lock (ClientLifecycle (cc_ref client)));
          attached ← attach_current client;
          _ ← act (Unlock ClientTunnelMutation);
          _ ← act (Unlock (ClientLifecycle (cc_ref client)));
          _ ← release gate; Ret attached) (acting ((λ k, (k, Reads)) <$> gate) es us [] None []) Q).
  { intros gate es us Eg Hnone Hus.
    apply does_op. intros [] _. eexists. split; [apply allow_true; repeat split; [constructor|by destruct gate]|].
    apply does_op. intros [] _. eexists. split; [apply allow_true; repeat split; [repeat constructor|by destruct gate]|].
    rewrite Eg. apply follows_seq. eapply follows_mono; [|by apply does_attach_current].
    intros attached g' (es' & seen' & -> & Hes). rewrite <- Eg.
    eapply does_unlock_second; [done..|]. eapply does_unlock; [done|set_solver|done|]. destruct gate as [k|]; cbn.
    - intros [] _. eexists. split; [by apply allow_true|]. apply HQ.
    - destruct Hnone as [-> ->]; [done|]. rewrite Hes by by rewrite <- Eg. apply HQ. }
  apply follows_seq. destruct (String.eqb_spec (cc_OwnerUserID client) "") as [E|Hne].
  - by apply does_ret, (Hrest None [] []).
  - apply follows_seq, does_acquire; [intros e; apply HQ|]. intros e es us _ _ _ Hus.
    apply does_ret, (Hrest (Some _)); [done|done|by auto].
Qed.

Lemma does_load_nothing {A} id (f : option ClientConn → go_prog A) (Q : A → ghost → Prop) :
  (∀ v, does (f v) nothing Q) → does (seq (act (LoadClient id)) f) nothing Q.
Proof.
  intros Hf. apply does_load. intros v keys Hkeys _. rewrite (Hkeys eq_refl). apply Hf.
Qed.

(** With the gate of some user and the mutex, looking on. *)
Definition under (k : string) (us : list string) (g : ghost) : Prop :=
  ∃ es seen, g = acting (Some (k, Reads)) es us [ClientTunnelMutation] None seen.

Lemma under_acting k us es seen :
  under k us (acting (Some (k, Reads)) es us [ClientTunnelMutation] None seen).
Proof. by exists es, seen. Qed.

Lemma does_data_current client token us g :
  under (gate_key (cc_OwnerUserID client)) us g →
  does (data_current client token) g (λ _ g', under (gate_key (cc_OwnerUserID client)) us g').
Proof.
  intros (es & seen & ->). apply does_load. intros v keys Hkeys _. rewrite (Hkeys eq_refl).
  destruct (negb _); [apply under_acting|]. one_op. case_bool_decide; [apply under_acting|].
  apply follows_seq, does_current; [by right|..]; intros; apply under_acting.
Qed.

Lemma does_unlock_under {A} k us (a : A) g (Q : A → ghost → Prop) :
  under k us g → Q a nothing →
  does (_ ← act (Unlock ClientTunnelMutation); _ ← act (GateRUnlock k); Ret a) g Q.
Proof. intros (es & seen & ->) HQ. by apply does_unlock_gate. Qed.

Lemma does_lock_under {A} k es us (f : unit → go_prog A) (Q : A → ghost → Prop) :
  (∀ g, under k us g → does (f tt) g Q) →
  does (seq (act (Lock ClientTunnelMutation)) f) (acting (Some (k, Reads)) es us [] None []) Q.
Proof.
  intros Hf. apply does_op. intros [] _. eexists. split; [apply allow_true; repeat split; [constructor|done]|].
  apply Hf. by exists es, [].
Qed.

(** The same with more to do after the gate. *)
Lemma does_release_under {A} k us g (p : go_prog A) (Q : A → ghost → Prop) :
  under k us g → does p nothing Q →
  does (_ ← act (Unlock ClientTunnelMutation); _ ← act (GateRUnlock k); p) g Q.
Proof.
  intros (es & seen & ->) Hp. eapply does_unlock; [done|set_solver|done|]. one_op. exact Hp.
Qed.

Lemma does_data id token (Q : unit → ghost → Prop) : Q tt nothing → does (handleDataWS id token) nothing Q.
Proof.
  intros HQ. apply does_load_nothing. intros [client|]; [|exact HQ]. destruct (_ || _); [exact HQ|].
  one_op. case_bool_decide; [exact HQ|].
  apply follows_seq, does_load_nothing. intros v. apply does_ret. destruct (negb _); [exact HQ|].
  apply follows_seq, does_acquire.
  { intros e. apply follows_seq, does_invalidate. intros b'. exact HQ. }
  intros e es us _ _ _ _. apply does_lock_under. intros g Hg.
  apply follows_seq. eapply follows_mono; [|by apply does_data_current]. intros current g' Hg'.
  assert (Hrest : ∀ written : bool, does (_ ← act (Unlock ClientTunnelMutation);
      _ ← act (GateRUnlock (gate_key (cc_OwnerUserID client)));
      if negb written then done else
      r ← act Fallible;
      match r with
      | Err _ => _ ← invalidateLogicalSessionIfCurrent id (cc_generation client); done
      | Ok _ => _ ← attachDataSessionIfCurrent client; done
      end) g' Q).
  { intros written. eapply does_release_under; [exact Hg'|]. destruct (negb written); [exact HQ|]. one_op.
    destruct b0 as [[]|e']; apply follows_seq; [apply does_attach|apply does_invalidate]; intros b'; exact HQ. }
  apply follows_seq. destruct current; [|by apply does_ret, (Hrest false)].
  intros written _. eexists. split; [reflexivity|]. apply (Hrest written).
Qed.

(** *** Authentication *)

(** With the gate and the mutex, at known epochs. *)
Definition admitted (k : string) (es : list Z) (g : ghost) : Prop :=
  ∃ us seen, g = acting (Some (k, Reads)) es us [ClientTunnelMutation] None seen.

Lemma admitted_acting k es us seen :
  admitted k es (acting (Some (k, Reads)) es us [ClientTunnelMutation] None seen).
Proof. by exists us, seen. Qed.

Abbreviation stays_admitted p k es :=
  (∀ g, admitted k es g → does p g (λ _ g', admitted k es g')).

Lemma admitted_seq {A B} (p : go_prog A) (f : A → go_prog B) k es :
  stays_admitted p k es → (∀ a, stays_admitted (f a) k es) → stays_admitted (seq p f) k es.
Proof.
  intros Hp Hf g Hg. apply follows_seq. eapply follows_mono; [|by apply Hp]. intros a g' Hg'. by apply Hf.
Qed.

Lemma admitted_ret {A} (a : A) k es : stays_admitted (Ret a) k es.
Proof. done. Qed.

Lemma admitted_plain {B} (e : op B) k es : (∀ b g, move _ e b g = Some g) → stays_admitted (act e) k es.
Proof. intros He g Hg b _. exists g. split; [apply He|exact Hg]. Qed.

Lemma admitted_load id k es : stays_admitted (act (LoadClient id)) k es.
Proof.
  intros g (us & seen & ->). apply (does_load id Ret). intros v keys Hkeys _. rewrite (Hkeys eq_refl).
  apply admitted_acting.
Qed.

Lemma admitted_ensure owner es : stays_admitted (ensureClientOwnerOperational owner) (gate_key owner) es.
Proof.
  intros g (us & seen & ->). apply does_ensure; [done|intros e; apply admitted_acting|].
  apply (admitted_acting _ _ (owner :: us)).
Qed.

Lemma admitted_concurrent id k es : stays_admitted (concurrent_session id) k es.
Proof.
  apply admitted_seq; [apply admitted_load|]. intros [c|]; [|apply admitted_ret].
  apply admitted_seq; [by apply admitted_plain|]. intros state. apply admitted_ret.
Qed.

Lemma admitted_token req owner es : stays_admitted (authenticate_token req owner) (gate_key owner) es.
Proof.
  apply admitted_seq; [by apply admitted_plain|]. intros [t|]; [|apply admitted_ret].
  apply admitted_seq; [by apply admitted_plain|]. intros [c|]; [|apply admitted_ret].
  destruct (_ || _); [apply admitted_ret|]. apply admitted_seq; [apply admitted_ensure|].
  intros [|]; [|apply admitted_ret]. apply admitted_seq; [apply admitted_concurrent|].
  intros [|]; apply admitted_ret.
Qed.

Lemma admitted_key req owner ip es : stays_admitted (authenticate_key req owner ip) (gate_key owner) es.
Proof.
  apply admitted_seq; [by apply admitted_plain|]. intros registered. apply admitted_seq.
  { destruct registered; [apply admitted_concurrent|apply admitted_ret]. }
  intros [|]; [apply admitted_ret|]. apply admitted_seq; [by apply admitted_plain|].
  intros [x|]; [|apply admitted_ret]. destruct (negb _); [apply admitted_ret|].
  apply admitted_seq; [apply admitted_ensure|]. intros [|]; apply admitted_ret.
Qed.

Lemma admitted_publish req owner ip epoch es :
  gate_key owner ≠ ""%string → epoch ∈ es →
  stays_admitted (publish_client req owner ip epoch) (gate_key owner) es.
Proof.
  intros Hne Hepoch. apply admitted_seq.
  { destruct (negb _); [apply admitted_token|apply admitted_key]. }
  intros [clientID|]; [|apply admitted_ret]. apply admitted_seq; [by apply admitted_plain|].
  intros [token|]; [|apply admitted_ret]. intros g (us & seen & ->). apply follows_seq, does_ensure; [done| |].
  { intros e. apply admitted_acting. }
  one_op. one_op. destruct b0; [|apply (admitted_acting _ _ (owner :: us))].
  apply does_op. intros client _. eexists.
  split; [apply allow_true; repeat split; [set_solver|done|done|set_solver]|].
  eexists. split; [reflexivity|]. apply does_ret. by exists (owner :: us), [].
Qed.

Lemma does_lock_admitted {A} k es us (f : unit → go_prog A) (Q : A → ghost → Prop) :
  (∀ g, admitted k es g → does (f tt) g Q) →
  does (seq (act (Lock ClientTunnelMutation)) f) (acting (Some (k, Reads)) es us [] None []) Q.
Proof.
  intros Hf. apply does_op. intros [] _. eexists. split; [apply allow_true; repeat split; [constructor|done]|].
  apply Hf. by exists us, [].
Qed.

(** What follows the authentication. *)
Definition answer_client (client : option ClientConn) : go_prog (option ClientConn) :=
  match client with
  | None => Ret None
  | Some client =>
      r ← act Fallible;
      match r with
      | Ok _ => Ret (Some client)
      | Err _ =>
          current ← act (LoadClient (cc_ID client));
          _ ← and_then (bool_decide (current = Some client))
                (invalidateLogicalSessionIfCurrent (cc_ID client) (cc_generation client));
          Ret None
      end
  end.

Lemma does_answer client (Q : option ClientConn → ghost → Prop) :
  (∀ r, Q r nothing) → does (answer_client client) nothing Q.
Proof.
  intros HQ. destruct client as [client|]; [|apply HQ]. one_op. destruct b; [apply HQ|].
  apply does_load_nothing. intros v. apply follows_seq. destruct (bool_decide _); [|apply HQ].
  apply does_invalidate. intros b. apply HQ.
Qed.

Lemma does_auth req ip (Q : option ClientConn → ghost → Prop) :
  (∀ r, Q r nothing) → does (handleAuth req ip) nothing Q.
Proof.
  intros HQ. apply follows_seq. eapply (follows_mono _ _ _ _ _ (λ _ g, g = nothing)).
  2:{ destruct (negb _); intros r _; by eexists. }
  intros [owner|e] g ->; [|apply HQ]. apply follows_seq, does_acquire; [intros e; apply HQ|].
  intros e es us Hne _ He _. apply does_lock_admitted. intros g Hg. apply follows_seq.
  eapply follows_mono; [|by apply (admitted_publish _ _ _ _ es)]. intros client g' (us' & seen & ->).
  eapply does_release_under; [apply under_acting|]. by apply does_answer.
Qed.

(** *** Convergence *)

Definition writing (k : string) (down : option string) keys locks seen : ghost := {|
  h_gate := Some (k, Writes); h_locks := locks; h_entry := None; h_epochs := []; h_active := [];
  h_down := down; h_keys := keys; h_seen := seen; h_open := None |}.

(** The gate is held, and nothing else. *)
Definition at_gate (k : string) (down : option string) (g : ghost) : Prop :=
  ∃ keys, g = writing k down keys [] [].

Abbreviation stays_at_gate p k down :=
  (∀ g, at_gate k down g → does p g (λ _ g', at_gate k down g')).

Lemma at_gate_looks {A} (p : go_prog A) k down :
  (∀ keys, looks p (writing k down keys [] [])) → stays_at_gate p k down.
Proof.
  intros Hp g [keys ->]. eapply follows_mono; [|apply Hp].
  intros a g' (keys' & seen & -> & _ & Hs). rewrite (Hs eq_refl eq_refl). by exists keys'.
Qed.

Lemma at_gate_seq {A B} (p : go_prog A) (f : A → go_prog B) k down :
  stays_at_gate p k down → (∀ a, stays_at_gate (f a) k down) → stays_at_gate (seq p f) k down.
Proof.
  intros Hp Hf g Hg. apply follows_seq. eapply follows_mono; [|by apply Hp]. intros a g' Hg'. by apply Hf.
Qed.

Lemma at_gate_plain {B} (e : op B) k down : (∀ b g, move _ e b g = Some g) → stays_at_gate (act e) k down.
Proof. intros He g Hg b _. exists g. split; [apply He|exact Hg]. Qed.

Lemma at_gate_check k down : stays_at_gate checkUserConvergenceContext k down.
Proof. apply at_gate_seq; [by apply at_gate_plain|]. by intros r g Hg. Qed.

Lemma looks_owned userID keys g : looks (owned_sessions userID keys) g.
Proof.
  revert g. induction keys as [|key keys IH]; intros g; [apply looks_ret|].
  apply looks_seq; [apply looks_load|]. intros v keys' seen _. apply looks_seq; [apply IH|].
  intros refs keys2 seen2 _. apply looks_ret.
Qed.

Lemma looks_detach refs g : looks (detach_sessions refs) g.
Proof.
  revert g. induction refs as [|[id n] refs IH]; intros g; [apply looks_ret|].
  apply looks_seq.
  { apply looks_seq; [by apply looks_plain|]. intros r keys seen _. apply looks_ret. }
  intros r keys seen _. destruct (negb _); [apply looks_ret|].
  apply looks_seq; [apply looks_load|]. intros v keys' seen' _. apply IH.
Qed.

Lemma at_gate_invalidate refs k down : stays_at_gate (invalidate_sessions refs) k down.
Proof.
  induction refs as [|[id n] refs IH]; [by intros g Hg|].
  apply at_gate_seq; [apply at_gate_check|]. intros r. destruct (negb _); [by intros g Hg|].
  apply at_gate_seq; [|done]. apply at_gate_looks. intros keys. by apply looks_invalidate.
Qed.

(** After the residual check, no client of the user was found. *)
Definition converged (k : string) (down : option string) (userID : string) (g : ghost) : Prop :=
  ∃ keys, g = writing k down keys [] [] ∧ all_seen userID keys.

Lemma does_residual k down userID l ks found :
  ks ⊆ l → Forall (λ c, cc_OwnerUserID c ≠ userID) found →
  does (client_residual userID l) (writing k down (Some (ks, found)) [] [])
    (λ b g', at_gate k down g' ∧ (b = false → converged k down userID g')).
Proof.
  revert ks found. induction l as [|key l IH]; intros ks found Hs Hf.
  { apply does_ret. split; [by eexists|]. intros _. eexists. split; [done|]. split; [|done].
    by apply list_nil_subseteq. }
  apply does_op. intros v _. eexists. split; [reflexivity|].
  change (loaded key v (writing k down (Some (ks, found)) [] []))
    with (writing k down (Some (filter (λ k, k ≠ key) ks, option_list v ++ found)) [] []).
  assert (Hs' : filter (λ k, k ≠ key) ks ⊆ l).
  { intros x [Hne Hx]%list_elem_of_filter. apply Hs in Hx. set_solver. }
  destruct v as [c|]; [|by apply IH].
  destruct (String.eqb_spec (cc_OwnerUserID c) userID) as [E|E].
  - apply does_ret. split; [by eexists|done].
  - apply IH; [done|]. by constructor.
Qed.

Lemma does_or_return p q k down (Q : result unit → ghost → Prop) g :
  at_gate k down g → stays_at_gate p k down →
  (∀ g, at_gate k down g → Q incomplete g) → (∀ g, at_gate k down g → does q g Q) →
  does (or_return p q) g Q.
Proof.
  intros Hg Hp Hno Hyes. apply follows_seq. eapply follows_mono; [|by apply Hp].
  intros r g' Hg'. destruct (is_ok r); [by apply Hyes|by apply Hno].
Qed.

Lemma does_or_incomplete p q k down (Q : result unit → ghost → Prop) g :
  at_gate k down g → stays_at_gate p k down →
  (∀ g, at_gate k down g → Q incomplete g) → (∀ g, at_gate k down g → does q g Q) →
  does (or_incomplete p q) g Q.
Proof.
  intros Hg Hp Hno Hyes. apply follows_seq. eapply follows_mono; [|by apply Hp].
  intros [|] g' Hg'; [by apply Hyes|by apply Hno].
Qed.

Lemma does_converge k down userID g (Q : result unit → ghost → Prop) :
  at_gate k down g → (∀ r g, at_gate k down g → (is_ok r = true → converged k down userID g) → Q r g) →
  does (convergeUserRuntime userID) g Q.
Proof.
  intros Hg HQ. assert (Hno : ∀ g, at_gate k down g → Q incomplete g) by (intros g' Hg'; by apply HQ).
  eapply does_or_return; [exact Hg|apply at_gate_check|done|]. clear g Hg. intros g Hg.
  eapply does_or_return; [exact Hg|by apply at_gate_plain|done|]. clear g Hg. intros g [keys0 ->].
  apply does_op. intros keys _. eexists. split; [reflexivity|].
  change (with_facts _ _ _ _ _) with (writing k down (Some (keys, [])) [] []).
  apply follows_seq. eapply follows_mono; [|apply (at_gate_looks _ k down); [intros; apply looks_owned|by eexists]].
  intros refs g Hg. eapply does_or_return; [exact Hg|by apply at_gate_plain|done|]. clear g Hg. intros g [keys1 ->].
  apply does_op. intros [] _. eexists. split; [apply allow_true; repeat split; [constructor|done]|].
  apply follows_seq. eapply follows_mono; [|apply looks_detach]. intros detached g (keys2 & seen & -> & _).
  eapply does_unlock; [done|set_solver|done|].
  change (with_locks _ _ _) with (writing k down keys2 [] []).
  eapply (does_or_incomplete _ _ k down); [by eexists|by intros g Hg|done|]. intros g Hg.
  eapply does_or_incomplete; [exact Hg|apply at_gate_invalidate|done|]. clear g Hg. intros g Hg.
  eapply does_or_return; [exact Hg|by apply at_gate_plain|done|]. clear g Hg. intros g Hg.
  eapply does_or_return; [exact Hg|apply at_gate_check|done|]. clear g Hg. intros g [keys3 ->].
  apply does_op. intros keys4 _. eexists. split; [reflexivity|].
  change (with_facts _ _ _ _ _) with (writing k down (Some (keys4, [])) [] []).
  apply follows_seq. eapply follows_mono; [|by apply (does_residual k down userID keys4 keys4 [])].
  intros [|] g (Hg & Hc); [by apply Hno|]. intros r _. exists g. split; [done|].
  apply HQ; [done|]. intros _. by apply Hc.
Qed.

(** *** Handlers *)

Definition back_at_gate (k : string) (_ : unit) (g : ghost) : Prop := ∃ down, at_gate k down g.

Lemma does_with_write_gate path (f : string → go_prog unit) (Q : unit → ghost → Prop) :
  (∀ userID g, gate_key userID ≠ ""%string → at_gate (gate_key userID) None g →
     does (f userID) g (back_at_gate (gate_key userID))) →
  Q tt nothing → does (with_write_gate path f) nothing Q.
Proof.
  intros Hf HQ. unfold with_write_gate, lifecycleGate. set (userID := trim_space path). fold (gate_key userID).
  destruct (String.eqb_spec (gate_key userID) "") as [|Hne]; [exact HQ|].
  one_op. one_op. apply follows_seq. eapply follows_mono; [|apply Hf; [done|by eexists]].
  intros [] g (down & keys & ->). intros [] _. eexists. split; [by apply allow_true|exact HQ].
Qed.

(** An operation on users, under their mutex; [P] is what is said of its answer. *)
Lemma does_user_management {A} (e : op A) k down keys (f : A → option string) (Q : A → ghost → Prop) :
  (∀ r, possible _ e r →
     move _ e r (writing k down keys [UserManagement] []) = Some (writing k (f r) keys [UserManagement] [])) →
  (∀ r, possible _ e r → Q r (writing k (f r) keys [] [])) →
  does (with_user_management e) (writing k down keys [] []) Q.
Proof.
  intros He HQ. one_op. apply does_op. intros r Hr. eexists. split; [by apply He|].
  eapply does_unlock; [done|set_solver|done|]. by apply does_ret, HQ.
Qed.

Lemma does_set_status actorUserID userID status actor k down g (Q : _ → ghost → Prop) :
  k = gate_key userID → k ≠ ""%string → at_gate k down g →
  (∀ r g', (∀ x, r = Ok x → u_ID x.1.1 = userID) →
     at_gate k (if is_ok r && (status =?s UserStatusDisabled)%string then Some userID else None) g' → Q r g') →
  does (with_user_management (SetStatus actorUserID userID status actor)) g Q.
Proof.
  intros -> Hne [keys ->] HQ. eapply does_user_management.
  - intros r _. by apply allow_true.
  - intros r Hr. apply HQ; [done|by eexists].
Qed.

Lemma does_delete_user actorUserID userID k down keys (Q : _ → ghost → Prop) :
  k = gate_key userID → k ≠ ""%string →
  (∀ r, Q r (writing k (if is_ok r then Some userID else None) keys [] [])) →
  does (with_user_management (DeleteUser actorUserID userID)) (writing k down keys [] []) Q.
Proof.
  intros -> Hne HQ. eapply does_user_management.
  - intros r _. by apply allow_true.
  - intros r _. apply HQ.
Qed.

(** Operations the ghost value takes no notice of. *)
Lemma does_managed {A} (e : op A) k down g (Q : A → ghost → Prop) :
  (∀ r g, move _ e r g = Some g) → at_gate k down g →
  (∀ r g', possible _ e r → at_gate k down g' → Q r g') →
  does (with_user_management e) g Q.
Proof.
  intros He [keys ->] HQ. apply (does_user_management _ _ _ _ (λ _, down)); [by intros; apply He|].
  intros r Hr. apply HQ; [done|by eexists].
Qed.

Lemma does_bump k down g (f : unit → go_prog unit) (Q : unit → ghost → Prop) :
  k ≠ ""%string → at_gate k down g → (∀ g', at_gate k down g' → does (f tt) g' Q) →
  does (seq (act (GateBump k)) f) g Q.
Proof.
  intros Hne [keys ->] Hf. apply does_op. intros [] _. eexists. split; [by apply allow_true|].
  apply Hf. by eexists.
Qed.

Lemma does_settle k userID g :
  k = gate_key userID → k ≠ ""%string → converged k (Some userID) userID g → does (act (Settle userID)) g (back_at_gate k).
Proof.
  intros -> Hne (keys & -> & Hs) [] _. eexists. split; [by apply allow_true|]. exists (Some userID). by eexists.
Qed.

Lemma does_disable actorUserID path actor (Q : unit → ghost → Prop) :
  Q tt nothing → does (handleAPIAdminUserDisable actorUserID path actor) nothing Q.
Proof.
  intros HQ. apply does_with_write_gate; [|done]. intros userID g Hne Hg.
  eapply follows_seq, does_set_status; [done..|]. intros [[[user already] since]|e] g1 Hr Hg1; [|by eexists].
  cbn in Hg1. pose proof (Hr _ eq_refl : u_ID user = userID) as ->.
  eapply does_bump; [done..|]. intros g2 Hg2.
  eapply follows_seq, does_converge; [exact Hg2|]. intros r g3 Hg3 Hc. destruct (is_ok r); [|by eexists].
  apply does_settle; [done|done|by apply Hc].
Qed.

Lemma does_enable actorUserID path actor (Q : unit → ghost → Prop) :
  Q tt nothing → does (handleAPIAdminUserEnable actorUserID path actor) nothing Q.
Proof.
  intros HQ. apply does_with_write_gate; [|done]. intros userID g Hne Hg.
  eapply follows_seq, does_managed; [done..|]. intros [user|e] g1 Hr Hg1; [|by eexists].
  pose proof (Hr _ eq_refl : u_ID user = userID) as ->.
  destruct (_ =?s _)%string; [by eexists|]. destruct (negb _); [by eexists|].
  eapply follows_seq, does_converge; [exact Hg1|]. intros r g2 Hg2 _. destruct (negb _); [by eexists|].
  eapply follows_seq, does_set_status; [done..|]. intros [x|e] g3 _ Hg3; [|by eexists].
  eapply (does_bump _ _ _ Ret); [done..|]. intros g4 Hg4. by eexists.
Qed.

Lemma does_delete actorUserID path (Q : unit → ghost → Prop) :
  Q tt nothing → does (handleAPIAdminUserDelete actorUserID path) nothing Q.
Proof.
  intros HQ. apply does_with_write_gate; [|done]. intros userID g Hne Hg.
  eapply follows_seq, does_managed; [done..|]. intros [user|e] g1 Hr Hg1; [|by eexists].
  pose proof (Hr _ eq_refl : u_ID user = userID) as ->.
  destruct (_ =?s _)%string; [by eexists|]. destruct (negb _); [by eexists|].
  eapply follows_seq, does_converge; [exact Hg1|]. intros r g2 Hg2 Hc. destruct (is_ok r) eqn:Er; cbn [negb]; [|by eexists].
  destruct (Hc eq_refl) as (keys & -> & Hs).
  eapply follows_seq, does_delete_user; [done..|]. intros [[]|e]; [|by do 2 eexists].
  apply does_op. intros [] _. eexists. split; [by apply allow_true|]. apply does_settle; [done|done|by eexists].
Qed.

Lemma does_revoke path actor (Q : unit → ghost → Prop) :
  Q tt nothing → does (handleAPIAdminUserSessionsRevoke path actor) nothing Q.
Proof.
  intros HQ. apply does_with_write_gate; [|done]. intros userID g Hne [keys ->]. one_op.
  destruct b; [|by do 2 eexists]. eapply follows_seq, does_managed; [done|by eexists|].
  intros r g1 _ Hg1. by eexists.
Qed.

Lemma bodies_follow t g : rests t true g → does (body t) g (rests t).
Proof.
  intros ->. apply follows_seq.
  assert (HQ : does (Ret false) nothing (rests t)) by done. destruct t; cbv beta iota.
  - by apply follows_seq, does_auth.
  - one_op. apply follows_seq. destruct b; [|exact HQ]. by apply does_invalidate.
  - by apply does_data.
  - apply does_load_nothing. intros [c|]; [|exact HQ]. by apply follows_seq, does_client_publication.
  - by apply follows_seq, does_task_publication.
  - by apply does_resource_request.
  - by apply does_disable.
  - by apply does_enable.
  - by apply does_delete.
  - by apply does_revoke.
Qed.
