(* ===== verification/LifecycleFrames.v ===== *)
(** What the operations of [Users] and [Credentials] that [Lifecycle] runs do to
    who is operational. *)
From Stdlib Require Import ZArith Lia Ascii String Strings.Byte.
From stdpp Require Import base tactics numbers list gmap strings.
From S2P Require Import Prelude Records GoStrings GoTime GoUTF8 Activity AdminDB Users UsersInv Credentials CredentialsInv Lifecycle.

(** Users are found under their identifiers. *)
Definition keyed (db : admin_db) : Prop := ∀ id u, users db !! id = Some u → u_ID u = id.

Lemma keyed_same db db' : users db' = users db → keyed db → keyed db'.
Proof. unfold keyed. by intros ->. Qed.

Lemma operational_same db db' u : users db' = users db → operational db' u = operational db u.
Proof. unfold operational, IsUserOperational. by intros ->. Qed.

Lemma operational_iff db u :
  operational db u = true ↔ u ≠ ""%string ∧ ∃ row, users db !! u = Some row ∧ u_Status row = UserStatusActive.
Proof.
  unfold operational, IsUserOperational. destruct (String.eqb_spec u ""%string) as [->|Hne]; [split; [done|by intros []]|].
  destruct (users db !! u) as [row|]; [|split; [done|by intros (_ & ? & ? & _)]].
  destruct (String.eqb_spec (u_Status row) UserStatusActive); split; intros H; try done; [eauto|].
  by destruct H as (_ & ? & [= <-] & ?).
Qed.

(** Of other users nothing changes. *)
Definition only_user (userID : string) (db db' : admin_db) : Prop :=
  keyed db' ∧ ∀ u, u ≠ userID → operational db' u = operational db u.

Ltac steps H :=
  repeat first
    [ let Hs := fresh "Hst" in apply bind_ok in H as (? & Hs & H)
    | match goal with x : _ * _ |- _ => destruct x | x : unit |- _ => destruct x end ].

Lemma delete_user_does sql actorUserID userID db db' r :
  keyed db → DeleteDisabledUser sql actorUserID userID db = (db', r) →
  match r with
  | Ok _ => only_user userID db db' ∧ operational db' userID = false
  | Err _ => db' = db
  end.
Proof.
  intros Hk H. apply transaction_cases in H as [(x & -> & H & ->)|[-> [e ->]]]; [|done]. steps H.
  destruct (_ =?s _)%string; [done|]. destruct (negb _); [done|]. steps H. injection H as <-.
  assert (Hl : ∀ id u, users (delete_user_rows userID db) !! id = Some u ↔ users db !! id = Some u ∧ id ≠ userID).
  { intros id u. cbn. rewrite lookup_delete_rows, String.eqb_neq. split; intros [Hu Hne]; (split; [done|]);
      rewrite (Hk _ _ Hu) in *; congruence. }
  split; [split|].
  - intros id u [Hu _]%Hl. by apply Hk.
  - intros u Hne. apply eq_iff_eq_true. rewrite !operational_iff. setoid_rewrite Hl. naive_solver.
  - apply not_true_iff_false. rewrite operational_iff. setoid_rewrite Hl. naive_solver.
Qed.

Section Operations.
Context {log : ActivityLog}.

Lemma same_users_rows db db' : same_users db db' → users db' = users db.
Proof. by intros (-> & _). Qed.

Lemma only_user_same userID db db' : keyed db → users db' = users db → only_user userID db db'.
Proof. intros Hk E. split; [by eapply keyed_same|]. intros u _. by apply operational_same. Qed.

Lemma only_user_alter userID f db db' :
  keyed db → users db' = alter f userID (users db) → (∀ u, u_ID (f u) = u_ID u) → only_user userID db db'.
Proof.
  intros Hk E Hf. split.
  - intros id u. rewrite E, lookup_alter_Some. intros [[-> (u0 & Hu & ->)]|[_ Hu]]; [|by apply Hk].
    rewrite Hf. by apply Hk.
  - intros u Hne. unfold operational, IsUserOperational. by rewrite E, lookup_alter_ne.
Qed.

Lemma getUserInTx_row db userID u : getUserInTx db userID = Ok u → users db !! userID = Some u.
Proof. unfold getUserInTx. destruct (users db !! userID); [by intros [= ->]|done]. Qed.

Lemma set_status_does now sql actorUserID userID status actor db db' r :
  keyed db → setUserStatus now sql actorUserID userID status actor db = (db', r) →
  match r with
  | Ok x => only_user userID db db' ∧ u_ID x.1.1 = userID ∧
            (status = UserStatusDisabled → operational db' userID = false)
  | Err _ => db' = db
  end.
Proof.
  intros Hk H. unfold setUserStatus in H. destruct (negb _ && negb _); [by injection H as <- <-|].
  apply transaction_cases in H as [(x & -> & H & ->)|[-> [e ->]]]; [|done]. steps H.
  match goal with Hg : getUserInTx _ _ = Ok ?b |- _ => rename b into before; apply getUserInTx_row in Hg as Eu end.
  pose proof (Hk _ _ Eu) as Eid.
  assert (Hdown : ∀ db1, users db1 !! userID = Some before → u_Status before = UserStatusDisabled →
    operational db1 userID = false).
  { intros db1 Hu Es. apply not_true_iff_false. rewrite operational_iff. intros (_ & row & Hr & E).
    rewrite Hu in Hr. injection Hr as <-. by rewrite Es in E. }
  destruct (String.eqb_spec (u_Status before) status) as [<-|Hne].
  - injection H as <- <-. destruct (String.eqb_spec (u_Status before) UserStatusDisabled) as [E|E].
    + split; [by apply only_user_same|]. split; [done|]. intros _. by apply Hdown.
    + split; [by apply only_user_same|]. by split.
  - steps H. injection H as <- <-.
    match goal with Hr : record _ _ _ _ _ = Ok (?d, _) |- _ =>
      apply record_same_users, same_users_rows in Hr as Er; rename d into db1 end.
    set (f := λ u, u <| u_Status := status |> <| u_UpdatedAt := now |>) in *.
    assert (E2 : users db1 = alter f userID (users db)) by (rewrite Er; by destruct (_ =?s _)%string).
    split; [by eapply only_user_alter|]. split; [done|].
    intros ->. apply not_true_iff_false. rewrite operational_iff, E2, lookup_alter_eq, Eu.
    by intros (_ & row & [= <-] & E).
Qed.

Lemma revoke_users now sql userID actor db :
  users (DeleteSessionsByUserIDWithActivity now sql userID actor db).1 = users db.
Proof.
  destruct (DeleteSessionsByUserIDWithActivity _ _ _ _ _) as [db' r] eqn:H. cbn.
  apply transaction_cases in H as [(x & -> & H & ->)|[-> _]]; [|done]. steps H.
  by apply record_same_users, same_users_rows in H.
Qed.

Context (bcrypt_compare : string → string → bool) (apiKeyLookupDigest hashToken : string → string).

Lemma validate_users now sql token installID db :
  users (ValidateClientToken hashToken now sql token installID db).1 = users db.
Proof.
  destruct (ValidateClientToken _ _ _ _ _ _) as [db' r] eqn:H. cbn. unfold ValidateClientToken in H.
  destruct (_ =?s _)%string; [by injection H as <- _|].
  apply transaction_cases in H as [(x & -> & H & ->)|[-> _]]; [|done].
  destruct (filter _ _) as [|t l]; [done|]. destruct (tk_IsRevoked t); [done|].
  destruct (negb _); [done|]. destruct (negb _); [done|]. by injection H as <- _.
Qed.

Lemma get_client_users now random owner installID info ip db x :
  getOrCreateClientInTx now random owner installID info ip db = Ok x → users x.1 = users db.
Proof.
  unfold getOrCreateClientInTx. destruct (_ =?s _)%string; [done|].
  destruct (client_of_install installID db) as [c|].
  - destruct (negb _); [done|]. by intros [= <-].
  - intros H. apply bind_ok in H as (id & _ & H). destruct (bool_decide _); [done|]. by injection H as <-.
Qed.

Lemma exchange_users now rt rid key installID clientID ip db x :
  exchangeTokenInTx bcrypt_compare apiKeyLookupDigest hashToken now rt rid key installID clientID ip db = Ok x →
  users x.1 = users db.
Proof.
  unfold exchangeTokenInTx. destruct (filter _ _) as [|t l]; intros H.
  - steps H. destruct (_ || _); [done|]. injection H as <-. by destruct (findKeyByRawLocked _ _ _ _).
  - steps H. destruct (hash_taken _ _ _); [done|]. by injection H as <-.
Qed.

Lemma register_users now sql rc rt rid key installID info addr db :
  users (RegisterClientAndExchangeToken bcrypt_compare apiKeyLookupDigest hashToken now sql rc rt rid
           key installID info addr db).1 = users db.
Proof.
  destruct (RegisterClientAndExchangeToken _ _ _ _ _ _ _ _ _ _ _ _ _) as [db' r] eqn:H. cbn.
  unfold RegisterClientAndExchangeToken in H. destruct (_ =?s _)%string; [by injection H as <- _|].
  apply transaction_cases in H as [(x & -> & H & ->)|[-> _]]; [|done].
  apply bind_ok in H as ([] & _ & H). destruct (findKeyByRawLocked _ _ _ _) as [k|]; [|done].
  apply bind_ok in H as ([] & _ & H). apply bind_ok in H as ([db1 [c created]] & H1 & H).
  apply bind_ok in H as ([db2 [token row]] & H2 & H). apply bind_ok in H as ([db3 id] & H3 & H).
  injection H as <- _. apply get_client_users in H1. apply exchange_users in H2. cbn in *. rewrite <- H1, <- H2.
  destruct created; [|by injection H3 as <- _]. by apply append_same_users, same_users_rows in H3.
Qed.
End Operations.
