(* ===== verification/LifecycleLocks.v ===== *)
(** Who holds which lock of [Lifecycle]: the gates, the mutexes and the runtime
    operations of the server agree with what its goroutines hold, through every
    operation on them. *)
From Stdlib Require Import ZArith Lia Ascii String Strings.Byte.
From stdpp Require Import base tactics numbers list gmap strings.
From S2P Require Import Prelude Records GoStrings GoIO Activity AdminDB Users Credentials Goroutines Progress Lifecycle LifecycleSpec LifecycleRules LifecycleFrames.

(** ** Counting goroutines

    Each part of the invariant reads one component of the ghost values. *)

Definition one (P : Prop) `{!Decision P} : Z := if decide P then 1 else 0.

Lemma one_nonneg (P : Prop) `{!Decision P} : 0 ≤ one P.
Proof. unfold one. by case_decide. Qed.
Lemma one_true (P : Prop) `{!Decision P} : P → one P = 1.
Proof. intros HP. unfold one. by rewrite decide_True. Qed.
Lemma one_false (P : Prop) `{!Decision P} : ¬ P → one P = 0.
Proof. intros HP. unfold one. by rewrite decide_False. Qed.
Lemma one_positive (P : Prop) `{!Decision P} : 0 < one P → P.
Proof. unfold one. by case_decide. Qed.

Section Holders.
Context {X : Type} (P : X → Prop) `{!∀ x, Decision (P x)}.

Definition holders (xs : list X) : Z := total (λ x, one (P x)) xs.

Lemma holders_nonneg xs : 0 ≤ holders xs.
Proof. apply total_nonneg. intros. apply one_nonneg. Qed.
Lemma holders_one xs i x : xs !! i = Some x → P x → 1 ≤ holders xs.
Proof.
  intros Hi HP. pose proof (one_true (P x) HP) as E. rewrite <- E.
  apply (total_one (λ x, one (P x)) _ i x); [|done].
  intros. apply one_nonneg.
Qed.
Lemma holders_same xs i j x y :
  holders xs ≤ 1 → xs !! i = Some x → xs !! j = Some y → P x → P y → i = j.
Proof.
  intros Ht Hi Hj Hx Hy. destruct (decide (i = j)) as [|Hne]; [done|]. exfalso.
  pose proof (total_two (λ x, one (P x)) xs i j x y ltac:(intros; apply one_nonneg) Hi Hj Hne) as H2. cbn in H2.
  rewrite !one_true in H2 by done. unfold holders in Ht. lia.
Qed.
Lemma holders_some xs : 0 < holders xs → ∃ i x, xs !! i = Some x ∧ P x.
Proof. intros (i & x & ? & ?%one_positive)%total_positive. eauto. Qed.
Lemma holders_insert xs i x y :
  xs !! i = Some x → holders (<[i := y]> xs) = holders xs - one (P x) + one (P y).
Proof. apply (total_insert (λ x, one (P x))). Qed.
Lemma holders_zero xs : (∀ i x, xs !! i = Some x → ¬ P x) → holders xs = 0.
Proof. intros H0. apply (total_zero (λ x, one (P x))), Forall_lookup. intros i x Hx. eapply one_false, H0, Hx. Qed.
End Holders.

Lemma holders_snoc {X} (P : X → Prop) `{!∀ x, Decision (P x)} xs x :
  ¬ P x → holders P (xs ++ [x]) = holders P xs.
Proof. intros HP. unfold holders. rewrite total_app. cbn. rewrite one_false by done. lia. Qed.

Lemma fmap_unmoved {G X} (f : G → X) (gs : list G) (i : nat) g g' :
  gs !! i = Some g → f g' = f g → f <$> <[i := g']> gs = f <$> gs.
Proof.
  intros Hi E. rewrite list_fmap_insert, E. apply list_insert_id. by rewrite list_lookup_fmap, Hi.
Qed.

Lemma lookup_moved {G} (gs : list G) (i j : nat) g g' h :
  gs !! i = Some g → <[i := g']> gs !! j = Some h → (j = i ∧ h = g') ∨ (j ≠ i ∧ gs !! j = Some h).
Proof.
  intros Hi Hj. destruct (decide (j = i)) as [->|Hne]; [left|right].
  - rewrite list_lookup_insert_eq in Hj by by eapply lookup_lt_Some. by injection Hj.
  - by rewrite list_lookup_insert_ne in Hj.
Qed.

(** ** Gates *)

Definition at_the (gate : string) (h : hold) (x : option (string * hold)) : Prop := x = Some (gate, h).
#[export] Instance at_the_dec gate h x : Decision (at_the gate h x).
Proof. unfold at_the. apply _. Defined.

Record gate_ok (gate : string) (w : userLifecycleGate) (xs : list (option (string * hold))) : Prop := {
  go_readers : holders (at_the gate Reads) xs = gt_readers w;
  go_waiting : holders (at_the gate Waits) xs = one (gt_writer w = Waiting);
  go_writing : holders (at_the gate Writes) xs = one (gt_writer w = Writing);
  go_exclusive : gt_writer w = Writing → gt_readers w = 0;
}.

Definition gates_ok (s : server) (xs : list (option (string * hold))) : Prop :=
  ∀ gate, gate_ok gate (gate_of s gate) xs.

(** Who writes is alone. *)
Lemma writes_alone gate w xs i j h :
  gate_ok gate w xs → xs !! i = Some (Some (gate, Writes)) → xs !! j = Some (Some (gate, h)) → i = j.
Proof.
  intros [Hr Hw Hx He] Hi Hj.
  assert (Hwr : gt_writer w = Writing).
  { apply (one_positive (gt_writer w = Writing)). rewrite <- Hx.
    pose proof (holders_one (at_the gate Writes) xs i _ Hi eq_refl). lia. }
  rewrite Hwr in *. specialize (He eq_refl). destruct h.
  - pose proof (holders_one (at_the gate Reads) xs j _ Hj eq_refl). lia.
  - pose proof (holders_one (at_the gate Waits) xs j _ Hj eq_refl).
    rewrite one_false in Hw by done. lia.
  - rewrite one_true in Hx by done. by eapply (holders_same (at_the gate Writes) xs); [lia|done..].
Qed.

(** A move at another gate. *)
Lemma gate_ok_elsewhere gate w xs i x y :
  gate_ok gate w xs → xs !! i = Some x → (∀ h, x ≠ Some (gate, h)) → (∀ h, y ≠ Some (gate, h)) →
  gate_ok gate w (<[i := y]> xs).
Proof.
  intros [Hr Hw Hx He] Hi Hnx Hny.
  assert (E : ∀ h, holders (at_the gate h) (<[i := y]> xs) = holders (at_the gate h) xs).
  { intros h. rewrite (holders_insert _ _ _ _ _ Hi), !one_false; [lia|apply Hny|apply Hnx]. }
  split; rewrite ?E; done.
Qed.

Lemma gate_of_set gate gate' w s :
  gate_of (set_gate gate w s) gate' = if decide (gate = gate') then w else gate_of s gate'.
Proof.
  unfold gate_of, set_gate. cbn. destruct (decide (gate = gate')) as [->|Hne].
  - by rewrite lookup_insert_eq.
  - by rewrite lookup_insert_ne.
Qed.

Lemma gates_ok_set s xs i x y gate w :
  gates_ok s xs → xs !! i = Some x → (∀ k h, x = Some (k, h) → k = gate) → (∀ k h, y = Some (k, h) → k = gate) →
  gate_ok gate w (<[i := y]> xs) → gates_ok (set_gate gate w s) (<[i := y]> xs).
Proof.
  intros Hok Hi Hx Hy Hw k. rewrite gate_of_set. case_decide as E; [by subst|].
  eapply gate_ok_elsewhere; [apply Hok|done|..]; intros h E'; [by destruct (E (eq_sym (Hx _ _ E')))|].
  by destruct (E (eq_sym (Hy _ _ E'))).
Qed.

Lemma gates_ok_same s s' xs : userLifecycleLocks s' = userLifecycleLocks s → gates_ok s xs → gates_ok s' xs.
Proof. unfold gates_ok, gate_of. by intros ->. Qed.

Lemma gates_ok_snoc s xs : gates_ok s xs → gates_ok s (xs ++ [None]).
Proof. intros H k. destruct (H k). split; by rewrite ?holders_snoc. Qed.

(** A gate's lock changes hands: each of the five operations. *)
Section GateMoves.
Context (gate : string) (w : userLifecycleGate) (xs : list (option (string * hold))) (i : nat).
Context (Hok : gate_ok gate w xs).

Lemma moved_at h x y :
  xs !! i = Some x →
  holders (at_the gate h) (<[i := y]> xs) = holders (at_the gate h) xs - one (at_the gate h x) + one (at_the gate h y).
Proof. apply holders_insert. Qed.

Definition with_lock readers writer : userLifecycleGate :=
  {| gt_epoch := gt_epoch w; gt_readers := readers; gt_writer := writer |}.

Ltac counting Hi :=
  split; cbn; rewrite ?(moved_at _ _ _ Hi); try congruence;
  unfold one, at_the in *; repeat case_decide; simplify_eq; try done; lia.

Lemma gate_read :
  xs !! i = Some None → gt_writer w = NoWriter →
  gate_ok gate (with_lock (gt_readers w + 1) NoWriter) (<[i := Some (gate, Reads)]> xs).
Proof.
  intros Hi Hw. destruct Hok as [H1 H2 H3 H4]. rewrite Hw in *. counting Hi.
Qed.

Lemma gate_unread :
  xs !! i = Some (Some (gate, Reads)) →
  gate_ok gate (with_lock (gt_readers w - 1) (gt_writer w)) (<[i := None]> xs).
Proof.
  intros Hi. destruct Hok as [H1 H2 H3 H4].
  pose proof (holders_one (at_the gate Reads) _ _ _ Hi eq_refl) as Hr.
  assert (Hw : gt_writer w ≠ Writing) by (intros E; specialize (H4 E); lia). counting Hi.
Qed.

Lemma gate_wait :
  xs !! i = Some None → gt_writer w = NoWriter →
  gate_ok gate (with_lock (gt_readers w) Waiting) (<[i := Some (gate, Waits)]> xs).
Proof.
  intros Hi Hw. destruct Hok as [H1 H2 H3 H4]. rewrite Hw in *. counting Hi.
Qed.

Lemma gate_write :
  xs !! i = Some (Some (gate, Waits)) → gt_readers w = 0 →
  gate_ok gate (with_lock 0 Writing) (<[i := Some (gate, Writes)]> xs).
Proof.
  intros Hi Hr. destruct Hok as [H1 H2 H3 H4].
  assert (Hw : gt_writer w = Waiting).
  { apply (one_positive (gt_writer w = Waiting)). rewrite <- H2.
    pose proof (holders_one (at_the gate Waits) _ _ _ Hi eq_refl). lia. }
  rewrite Hw in *. counting Hi.
Qed.

Lemma gate_unwrite :
  xs !! i = Some (Some (gate, Writes)) →
  gate_ok gate (with_lock (gt_readers w) NoWriter) (<[i := None]> xs).
Proof.
  intros Hi. destruct Hok as [H1 H2 H3 H4].
  assert (Hw : gt_writer w = Writing).
  { apply (one_positive (gt_writer w = Writing)). rewrite <- H3.
    pose proof (holders_one (at_the gate Writes) _ _ _ Hi eq_refl). lia. }
  rewrite Hw in *. counting Hi.
Qed.
End GateMoves.

(** ** Mutexes *)

Definition holds (m : mutex) (locks : list mutex) : Prop := m ∈ locks.
#[export] Instance holds_dec m locks : Decision (holds m locks).
Proof. unfold holds. apply _. Defined.

Definition mutexes_ok (locked : gset mutex) (xs : list (list mutex)) : Prop :=
  ∀ m, holders (holds m) xs = one (m ∈ locked).

Lemma mutex_alone locked xs i j x y m :
  mutexes_ok locked xs → xs !! i = Some x → xs !! j = Some y → m ∈ x → m ∈ y → i = j.
Proof.
  intros Hok Hi Hj Hx Hy. apply (holders_same (holds m) xs i j x y); [|done..]. rewrite (Hok m).
  unfold one. by case_decide.
Qed.

Lemma mutexes_lock locked xs i x m :
  mutexes_ok locked xs → xs !! i = Some x → m ∉ locked → mutexes_ok ({[m]} ∪ locked) (<[i := m :: x]> xs).
Proof.
  intros Hok Hi Hm m'. rewrite (holders_insert _ _ _ _ _ Hi), Hok. destruct (decide (m' = m)) as [->|Hne].
  - assert (Hx : ¬ holds m x).
    { intros Hx. pose proof (holders_one (holds m) _ _ _ Hi Hx) as H1. rewrite Hok, one_false in H1 by done. lia. }
    rewrite (one_false _ Hx), one_false, !one_true by (unfold holds; set_solver). done.
  - assert (E : one (holds m' (m :: x)) = one (holds m' x)).
    { unfold one, holds. repeat case_decide; set_solver. }
    assert (E' : one (m' ∈ ({[m]} ∪ locked : gset mutex)) = one (m' ∈ locked)).
    { unfold one. repeat case_decide; set_solver. }
    rewrite E, E'. lia.
Qed.

Lemma mutexes_unlock locked xs i x m :
  mutexes_ok locked xs → xs !! i = Some x → m ∈ x →
  mutexes_ok (locked ∖ {[m]}) (<[i := filter (λ m', m' ≠ m) x]> xs).
Proof.
  intros Hok Hi Hm m'. rewrite (holders_insert _ _ _ _ _ Hi), Hok. destruct (decide (m' = m)) as [->|Hne].
  - assert (Hl : m ∈ locked).
    { apply (one_positive (m ∈ locked)). rewrite <- Hok. pose proof (holders_one (holds m) _ _ _ Hi Hm). lia. }
    rewrite !one_true, !one_false by (unfold holds; rewrite ?list_elem_of_filter; set_solver). done.
  - assert (E : one (holds m' (filter (λ m', m' ≠ m) x)) = one (holds m' x)).
    { unfold one, holds. repeat case_decide; rewrite list_elem_of_filter in *; naive_solver. }
    assert (E' : one (m' ∈ (locked ∖ {[m]} : gset mutex)) = one (m' ∈ locked)).
    { unfold one. repeat case_decide; set_solver. }
    rewrite E, E'. lia.
Qed.

Lemma mutexes_snoc locked xs : mutexes_ok locked xs → mutexes_ok locked (xs ++ [[]]).
Proof. intros Hok m. rewrite holders_snoc, Hok; [done|]. by intros ?%elem_of_nil. Qed.

(** ** Runtime operations *)

Definition inside (n : nat) (x : option (string * nat)) : Prop := snd <$> x = Some n.
#[export] Instance inside_dec n x : Decision (inside n x).
Proof. unfold inside. apply _. Defined.

Record entries_ok (entries : gmap string nat) (refs : list Z) (xs : list (option (string * nat))) : Prop := {
  eo_refs : ∀ n, holders (inside n) xs = default 0 (refs !! n);
  eo_entry : ∀ key n, entries !! key = Some n → 0 < default 0 (refs !! n);
  eo_inside : ∀ i key n, xs !! i = Some (Some (key, n)) → entries !! key = Some n;
  eo_injective : ∀ key key' n, entries !! key = Some n → entries !! key' = Some n → key = key';
}.

Lemma inside_alter n m k x y (refs : list Z) (f : Z → Z) xs (i : nat) :
  xs !! i = Some x → holders (inside n) xs = default 0 (refs !! n) → is_Some (refs !! m) →
  one (inside n y) - one (inside n x) = (if decide (n = m) then k else 0) → (∀ r, f r = r + k) →
  holders (inside n) (<[i := y]> xs) = default 0 (alter f m refs !! n).
Proof.
  intros Hi Hn [r Hm] Hk Hf. rewrite (holders_insert _ _ _ _ _ Hi), Hn. case_decide as E.
  - subst. rewrite list_lookup_alter_eq, Hm. cbn. rewrite Hf. lia.
  - rewrite list_lookup_alter_ne by done. lia.
Qed.

Lemma entries_enter entries refs xs i key n :
  entries_ok entries refs xs → xs !! i = Some None → entries !! key = Some n →
  entries_ok entries (alter (λ r, r + 1) n refs) (<[i := Some (key, n)]> xs).
Proof.
  intros [Hr He Hi Hj] Hx Hk. pose proof (He _ _ Hk) as Hpos.
  assert (Hsome : is_Some (refs !! n)) by (destruct (refs !! n); [eauto|cbn in Hpos; lia]).
  split; [| | |done].
  - intros m. eapply inside_alter; [done|apply Hr|done| |by intros].
    unfold one, inside. cbn. repeat case_decide; simplify_eq; done.
  - intros key' m Hm. specialize (He _ _ Hm). destruct (decide (m = n)) as [->|Hne].
    + rewrite list_lookup_alter_eq. destruct (refs !! n); cbn in *; lia.
    + by rewrite list_lookup_alter_ne.
  - intros j key' m [[-> [= -> ->]]|[_ Hj']]%(lookup_moved _ _ _ _ _ _ Hx); [done|by eapply Hi].
Qed.

Lemma entries_create entries refs xs i key :
  entries_ok entries refs xs → xs !! i = Some None → entries !! key = None →
  entries_ok (<[key := length refs]> entries) (refs ++ [1]) (<[i := Some (key, length refs)]> xs).
Proof.
  intros [Hr He Hi Hj] Hx Hk.
  assert (Hlt : ∀ key' m, entries !! key' = Some m → (m < length refs)%nat).
  { intros key' m Hm%He. apply lookup_lt_is_Some. destruct (refs !! m); [eauto|cbn in Hm; lia]. }
  split.
  - intros m. rewrite (holders_insert _ _ _ _ _ Hx), Hr. destruct (decide (m = length refs)) as [->|Hne].
    + rewrite lookup_ge_None_2, lookup_app_r, Nat.sub_diag by lia. by rewrite one_false, one_true by done.
    + rewrite !one_false by (unfold inside; cbn; congruence). destruct (refs !! m) as [r|] eqn:Em.
      * rewrite lookup_app_l, Em by (by eapply lookup_lt_Some). cbn. lia.
      * apply lookup_ge_None in Em. rewrite lookup_ge_None_2 by (rewrite length_app; cbn; lia). done.
  - intros key' m [[<- <-]|[_ Hm]]%lookup_insert_Some.
    + by rewrite lookup_app_r, Nat.sub_diag by lia.
    + rewrite lookup_app_l by by eapply Hlt. by eapply He.
  - intros j key' m [[-> [= -> ->]]|[_ Hj']]%(lookup_moved _ _ _ _ _ _ Hx); [apply lookup_insert_eq|].
    apply Hi in Hj'. rewrite lookup_insert_ne; [done|]. by intros ->; congruence.
  - intros k1 k2 m [[<- <-]|[_ H1]]%lookup_insert_Some [[<- E]|[_ H2]]%lookup_insert_Some; try done.
    + apply Hlt in H2. lia.
    + subst. apply Hlt in H1. lia.
    + by eapply Hj.
Qed.

Lemma entries_leave entries refs xs i key n :
  entries_ok entries refs xs → xs !! i = Some (Some (key, n)) →
  let refs' := alter (λ r, r - 1) n refs in
  entries_ok (if bool_decide (refs' !! n = Some 0) then delete key entries else entries) refs' (<[i := None]> xs).
Proof.
  intros [Hr He Hi Hj] Hx refs'. pose proof (Hi _ _ _ Hx) as Hk. pose proof (He _ _ Hk) as Hpos.
  destruct (refs !! n) as [r|] eqn:Er; [|cbn in Hpos; lia]. cbn in Hpos.
  assert (Er' : refs' !! n = Some (r - 1)) by (unfold refs'; by rewrite list_lookup_alter_eq, Er).
  assert (Hr' : ∀ m, holders (inside m) (<[i := None]> xs) = default 0 (refs' !! m)).
  { intros m. apply (inside_alter _ n (-1) (Some (key, n))); [done|apply Hr|by rewrite Er| |done].
    unfold one, inside. cbn. repeat case_decide; simplify_eq; done. }
  assert (Hout : ∀ j key' m, <[i := None]> xs !! j = Some (Some (key', m)) → entries !! key' = Some m).
  { intros j key' m [[-> ?]|[_ Hj']]%(lookup_moved _ _ _ _ _ _ Hx); [done|by eapply Hi]. }
  assert (Hpos' : ∀ key' m, entries !! key' = Some m → (m = n → r ≠ 1) → 0 < default 0 (refs' !! m)).
  { intros key' m Hm Hne. destruct (decide (m = n)) as [->|Hmn].
    - rewrite Er'. cbn. specialize (Hne eq_refl). lia.
    - unfold refs'. rewrite list_lookup_alter_ne by done. by eapply He. }
  case_bool_decide as Ez; rewrite Er' in Ez.
  - split; [done| | |].
    + intros key' m [Hne Hm]%lookup_delete_Some. apply (Hpos' key'); [done|]. intros ->. by destruct (Hne (Hj _ _ _ Hk Hm)).
    + intros j key' m Hm. pose proof (Hout _ _ _ Hm) as Hm'. apply lookup_delete_Some. split; [|done].
      intros <-. assert (m = n) as -> by congruence. pose proof (holders_one (inside n) _ _ _ Hm eq_refl) as H1.
      rewrite Hr', Er' in H1. cbn in H1. congruence || (injection Ez as Ez; lia).
    + intros k1 k2 m [_ H1]%lookup_delete_Some [_ H2]%lookup_delete_Some. by eapply Hj.
  - split; [done| |done|done]. intros key' m Hm. apply (Hpos' key'); [done|]. intros _ ->. by apply Ez.
Qed.

Lemma entries_snoc entries refs xs : entries_ok entries refs xs → entries_ok entries refs (xs ++ [None]).
Proof.
  intros [Hr He Hi Hj]. split; [|done| |done].
  - intros n. by rewrite holders_snoc.
  - intros i key n Hx. apply lookup_app_Some in Hx as [Hx|[_ Hx]]; [by eapply Hi|].
    by apply list_lookup_singleton_Some in Hx as [_ ?].
Qed.
