(* ===== verification/LifecycleInv.v ===== *)
(** The invariant of [Lifecycle]: what each goroutine may rely on, and that the
    events so far are a history of [LifecycleSpec]. *)
From Stdlib Require Import ZArith Lia Ascii String Strings.Byte.
From stdpp Require Import base tactics numbers list gmap strings.
From S2P Require Import Prelude Records GoStrings GoIO Activity AdminDB Users Credentials Goroutines Progress Lifecycle LifecycleSpec LifecycleRules LifecycleFrames LifecycleLocks.

(** ** What a goroutine knows *)

Record knows (s : server) (g : ghost) : Prop := {
  kn_epochs : ∀ k h, h_gate g = Some (k, h) → Forall (λ e, e = gt_epoch (gate_of s k)) (h_epochs g);
  kn_active : Forall (λ u, h_gate g = Some (gate_key u, Reads) ∧ operational (sv_db s) u = true) (h_active g);
  kn_down : ∀ u, h_down g = Some u → h_gate g = Some (gate_key u, Writes) ∧ operational (sv_db s) u = false;
  kn_keys : ∀ keys found, h_keys g = Some (keys, found) →
    ∃ k, h_gate g = Some (k, Writes) ∧
      ∀ id c, sv_clients s !! id = Some c → gate_key (cc_OwnerUserID c) = k → id ∈ keys ∨ c ∈ found;
  kn_seen : Forall (λ x, ClientTunnelMutation ∈ h_locks g ∧ sv_clients s !! x.1 = x.2) (h_seen g);
  kn_open : ∀ p, h_open g = Some p →
    (gate_key (pb_owner p) = ""%string ∨ h_gate g = Some (gate_key (pb_owner p), Reads)) ∧
    (pb_exclusive p = true → ClientTunnelMutation ∈ h_locks g);
  kn_waits : snd <$> h_gate g = Some Waits → h_locks g = [];
  kn_inside : ∀ n, RuntimeOperation n ∈ h_locks g → snd <$> h_entry g = Some n;
}.

Lemma knows_nothing s : knows s nothing.
Proof. split; cbn; try done; try constructor. by intros ? ?%elem_of_nil. Qed.

(** A change of the server that what [g] knows does not depend on. *)
Lemma knows_stable s s' g :
  (∀ k h, h_gate g = Some (k, h) → gt_epoch (gate_of s' k) = gt_epoch (gate_of s k)) →
  (∀ u h, h_gate g = Some (gate_key u, h) → operational (sv_db s') u = operational (sv_db s) u) →
  (∀ k id c, h_gate g = Some (k, Writes) → sv_clients s' !! id = Some c → gate_key (cc_OwnerUserID c) = k →
     sv_clients s !! id = Some c) →
  (ClientTunnelMutation ∈ h_locks g → sv_clients s' = sv_clients s) →
  knows s g → knows s' g.
Proof.
  intros He Ho Hc Hs [H1 H2 H3 H4 H5 H6 H7 H8]. split; try done.
  - intros k h Hg. rewrite (He _ _ Hg). by eapply H1.
  - eapply Forall_impl; [exact H2|]. intros u [Hg Hu]. split; [done|]. by rewrite (Ho _ _ Hg).
  - intros u [Hg Hu]%H3. split; [done|]. by rewrite (Ho _ _ Hg).
  - intros keys found (k & Hg & Hk)%H4. exists k. split; [done|]. intros id c Hid E. apply (Hk id c); [|done].
    by eapply Hc.
  - eapply Forall_impl; [exact H5|]. intros x [Hl Hx]. split; [done|]. by rewrite (Hs Hl).
Qed.

(** ** The invariant *)

Definition table_ok (clients : gmap string ClientConn) : Prop :=
  ∀ id c, clients !! id = Some c → cc_ID c = id ∧ gate_key (cc_OwnerUserID c) ≠ ""%string.

(** The abstract server that has the same events behind it. *)
Record agrees (s : server) (open : list publication) (v : view) : Prop := {
  ag_epoch : ∀ k, vw_epoch v k = gt_epoch (gate_of s k);
  ag_operational : ∀ u, vw_operational v u = operational (sv_db s) u;
  ag_clients : vw_clients v = sv_clients s;
  ag_open : vw_open v ≡ₚ open;
}.

Definition happened (db : admin_db) (s : server) (open : list publication) : Prop :=
  ∃ v, history (first_view db) (sv_log s) v ∧ agrees s open v.

Record inv (db : admin_db) (s : server) (gs : list ghost) : Prop := {
  in_gates : gates_ok s (h_gate <$> gs);
  in_mutexes : mutexes_ok (sv_locked s) (h_locks <$> gs);
  in_entries : entries_ok (ops_entries s) (ops_refs s) (h_entry <$> gs);
  in_knows : ∀ i g, gs !! i = Some g → knows s g;
  in_table : table_ok (sv_clients s);
  in_keyed : keyed (sv_db s);
  in_happened : happened db s (omap h_open gs);
}.

(** *** What it says of two goroutines *)

Section Inv.
Context (db : admin_db) (s : server) (gs : list ghost) (Hinv : inv db s gs).

Lemma lookup_part {X} (f : ghost → X) i g : gs !! i = Some g → (f <$> gs) !! i = Some (f g).
Proof. intros Hi. by rewrite list_lookup_fmap, Hi. Qed.

Lemma writer_alone i j g h k x :
  gs !! i = Some g → gs !! j = Some h → h_gate g = Some (k, Writes) → h_gate h = Some (k, x) → i = j.
Proof.
  intros Hi Hj Eg Eh. apply (writes_alone k (gate_of s k) (h_gate <$> gs) i j x).
  - apply (in_gates _ _ _ Hinv).
  - by rewrite (lookup_part _ _ _ Hi), Eg.
  - by rewrite (lookup_part _ _ _ Hj), Eh.
Qed.

Lemma holder_alone i j g h m :
  gs !! i = Some g → gs !! j = Some h → m ∈ h_locks g → m ∈ h_locks h → i = j.
Proof.
  intros Hi Hj. apply (mutex_alone (sv_locked s) (h_locks <$> gs)); [apply (in_mutexes _ _ _ Hinv)|by apply lookup_part..].
Qed.

(** Nobody publishes behind a gate that is written. *)
Lemma open_elsewhere i g k :
  gs !! i = Some g → h_gate g = Some (k, Writes) → k ≠ ""%string →
  Forall (λ p, gate_key (pb_owner p) ≠ k) (omap h_open gs).
Proof.
  intros Hi Eg Hne. apply Forall_forall. intros p (h & Hh & Ho)%list_elem_of_omap E.
  apply list_elem_of_lookup in Hh as [j Hj].
  destruct (kn_open _ _ (in_knows _ _ _ Hinv _ _ Hj) _ Ho) as [[E'|Eh] _]; [congruence|].
  rewrite E in Eh. pose proof (writer_alone _ _ _ _ _ _ Hi Hj Eg Eh) as <-.
  rewrite Hi in Hj. injection Hj as <-. congruence.
Qed.

(** Nobody else publishes with the mutex. *)
Lemma open_shared i g :
  gs !! i = Some g → ClientTunnelMutation ∈ h_locks g → h_open g = None →
  Forall (λ p, pb_exclusive p = false) (omap h_open gs).
Proof.
  intros Hi Hm Hn. apply Forall_forall. intros p (h & Hh & Ho)%list_elem_of_omap.
  apply list_elem_of_lookup in Hh as [j Hj]. apply not_true_iff_false. intros Hx.
  destruct (kn_open _ _ (in_knows _ _ _ Hinv _ _ Hj) _ Ho) as [_ Hl].
  pose proof (holder_alone _ _ _ _ _ Hi Hj Hm (Hl Hx)) as <-. congruence.
Qed.
End Inv.

(** ** How it is preserved *)

Lemma happened_same db s s' open open' :
  sv_log s' = sv_log s → (∀ k, gt_epoch (gate_of s' k) = gt_epoch (gate_of s k)) →
  (∀ u, operational (sv_db s') u = operational (sv_db s) u) → sv_clients s' = sv_clients s → open ≡ₚ open' →
  happened db s open → happened db s' open'.
Proof.
  intros El He Ho Ec Hp (v & Hh & [H1 H2 H3 H4]). exists v. rewrite El. split; [done|].
  split; [|by intros; rewrite Ho|by rewrite Ec|by rewrite H4]. intros k. by rewrite He.
Qed.

Lemma happened_event db s s' open open' ev :
  sv_log s' = sv_log s ++ [ev] →
  (∀ v, agrees s open v → ∃ v', happens v ev v' ∧ agrees s' open' v') →
  happened db s open → happened db s' open'.
Proof.
  intros El Hev (v & Hh & Ha). destruct (Hev v Ha) as (v' & Hv & Ha'). exists v'. rewrite El.
  split; [by econstructor|done].
Qed.

Section Moves.
Context (db : admin_db) (s : server) (gs : list ghost) (i : nat) (g : ghost).
Context (Hinv : inv db s gs) (Hi : gs !! i = Some g).

Lemma inv_move s' g' :
  gates_ok s' (<[i := h_gate g']> (h_gate <$> gs)) →
  mutexes_ok (sv_locked s') (<[i := h_locks g']> (h_locks <$> gs)) →
  entries_ok (ops_entries s') (ops_refs s') (<[i := h_entry g']> (h_entry <$> gs)) →
  (∀ j h, j ≠ i → gs !! j = Some h → knows s h → knows s' h) → knows s' g' →
  table_ok (sv_clients s') → keyed (sv_db s') → happened db s' (omap h_open (<[i := g']> gs)) →
  inv db s' (<[i := g']> gs).
Proof.
  intros H1 H2 H3 Hothers Hself Ht Hk Hh. split; rewrite ?list_fmap_insert; try done.
  intros j h [[-> ->]|[Hne Hj]]%(lookup_moved _ _ _ _ _ _ Hi); [done|].
  apply (Hothers j); [done..|]. by apply (in_knows _ _ _ Hinv _ _ Hj).
Qed.

(** The parts that stay when the goroutine keeps what it holds. *)
Lemma same_part {X} (f : ghost → X) g' : f g' = f g → <[i := f g']> (f <$> gs) = f <$> gs.
Proof. intros E. rewrite <- list_fmap_insert. by eapply fmap_unmoved. Qed.

Lemma same_open g' : h_open g' = h_open g → omap h_open (<[i := g']> gs) = omap h_open gs.
Proof.
  intros E. clear -E Hi. revert i Hi. induction gs as [|h l IH]; intros [|i] Hi; try done.
  - injection Hi as ->. change (omap h_open (g' :: l) = omap h_open (g :: l)). cbn. by rewrite E.
  - change (omap h_open ([h] ++ <[i := g']> l) = omap h_open ([h] ++ l)). rewrite !(omap_app h_open [h]). by rewrite (IH i).
Qed.

Lemma inv_facts g' :
  h_gate g' = h_gate g → h_locks g' = h_locks g → h_entry g' = h_entry g → h_open g' = h_open g →
  knows s g' → inv db s (<[i := g']> gs).
Proof.
  intros E1 E2 E3 E4 Hk. destruct Hinv. apply inv_move; try done.
  - by rewrite same_part.
  - by rewrite same_part.
  - by rewrite same_part.
  - by rewrite same_open.
Qed.

(** The parts of the server the invariant speaks of. *)
Record same_core (s' : server) : Prop := {
  sc_gates : userLifecycleLocks s' = userLifecycleLocks s;
  sc_locked : sv_locked s' = sv_locked s;
  sc_entries : ops_entries s' = ops_entries s;
  sc_refs : ops_refs s' = ops_refs s;
  sc_clients : sv_clients s' = sv_clients s;
  sc_log : sv_log s' = sv_log s;
  sc_users : users (sv_db s') = users (sv_db s);
}.

Lemma inv_quiet s' : same_core s' → inv db s' gs.
Proof.
  intros [E1 E2 E3 E4 E5 E6 E7]. assert (Eg : ∀ k, gate_of s' k = gate_of s k) by (intros k; unfold gate_of; by rewrite E1).
  destruct Hinv as [H1 H2 H3 H4 H5 H6 H7]. split; rewrite ?E2, ?E3, ?E4, ?E5; try done.
  - by eapply gates_ok_same.
  - intros j h Hj. eapply knows_stable; [..|by eapply H4]; try by rewrite ?E5.
    + intros k x _. by rewrite Eg.
    + intros u x _. by apply operational_same.
  - by eapply keyed_same.
  - eapply happened_same; [done| |intros; by apply operational_same|done|done|done]. intros k. by rewrite Eg.
Qed.

(** The gate changes hands. *)
Lemma inv_gate gate w x :
  gt_epoch w = gt_epoch (gate_of s gate) → h_locks g = [] → h_open g = None →
  (∀ k h, h_gate g = Some (k, h) → k = gate) → (∀ k h, x = Some (k, h) → k = gate) →
  (gates_ok s (h_gate <$> gs) → (h_gate <$> gs) !! i = Some (h_gate g) → gate_ok gate w (<[i := x]> (h_gate <$> gs))) →
  inv db (set_gate gate w s) (<[i := with_gate g x]> gs).
Proof.
  intros Ew El Eo Hg Hx Hw. pose proof Hinv as [H1 H2 H3 H4 H5 H6 H7].
  assert (Ee : ∀ k, gt_epoch (gate_of (set_gate gate w s) k) = gt_epoch (gate_of s k)).
  { intros k. rewrite gate_of_set. case_decide as E; [by rewrite Ew, E|done]. }
  assert (Hgi : (h_gate <$> gs) !! i = Some (h_gate g)) by by apply lookup_part.
  pose proof (H4 _ _ Hi) as [K1 K2 K3 K4 K5 K6 K7 K8].
  assert (Es : h_seen g = []).
  { destruct (h_seen g) as [|y l]; [done|]. apply Forall_cons in K5 as [[Hm _] _]. rewrite El in Hm. by apply elem_of_nil in Hm. }
  apply inv_move; try done.
  - eapply gates_ok_set; [done..|]. by apply Hw.
  - by rewrite same_part.
  - by rewrite same_part.
  - intros j h _ _. by apply knows_stable.
  - split; cbn; rewrite ?El, ?Es, ?Eo; try done; try constructor. by intros n ?%elem_of_nil.
  - rewrite same_open by done. by apply (happened_same _ s _ (omap h_open gs)).
Qed.

(** A move that takes nothing from what the others know. *)
Ltac unchanged := apply inv_move; try done; try (intros ? ? _ _; by apply knows_stable).

(** *** Mutexes and runtime operations *)

Lemma inv_lock m s' :
  m ∉ sv_locked s → snd <$> h_gate g ≠ Some Waits → has_entry g m →
  s' = s <| sv_locked := {[m]} ∪ sv_locked s |> →
  inv db s' (<[i := with_locks g (m :: h_locks g) (h_seen g)]> gs).
Proof.
  intros Hm Hw He ->. pose proof Hinv as [H1 H2 H3 H4 H5 H6 H7]. pose proof (H4 _ _ Hi) as [K1 K2 K3 K4 K5 K6 K7 K8].
  unchanged.
  - by rewrite same_part.
  - eapply mutexes_lock; [done|by apply lookup_part|done].
  - by rewrite same_part.
  - split; cbn; try done.
    + eapply Forall_impl; [exact K5|]. intros x [? ?]. split; [by apply list_elem_of_further|done].
    + intros p [? Hx]%K6. split; [done|]. intros E. by apply list_elem_of_further, Hx.
    + intros n [<-|Hn]%elem_of_cons; [done|by apply K8].
  - rewrite same_open by done. by apply (happened_same _ s _ (omap h_open gs)).
Qed.

Lemma inv_unlock m s' :
  m ∈ h_locks g → h_open g = None → s' = s <| sv_locked := sv_locked s ∖ {[m]} |> →
  inv db s' (<[i := with_locks g (filter (λ m', m' ≠ m) (h_locks g))
                      (if bool_decide (m = ClientTunnelMutation) then [] else h_seen g)]> gs).
Proof.
  intros Hm Ho ->. pose proof Hinv as [H1 H2 H3 H4 H5 H6 H7]. pose proof (H4 _ _ Hi) as [K1 K2 K3 K4 K5 K6 K7 K8].
  unchanged.
  - by rewrite same_part.
  - eapply mutexes_unlock; [done|by apply lookup_part|done].
  - by rewrite same_part.
  - split; cbn; try done.
    + case_bool_decide as E; [constructor|]. eapply Forall_impl; [exact K5|]. intros x [? ?]. split; [|done].
      apply list_elem_of_filter. split; [congruence|done].
    + by rewrite Ho.
    + intros Hw. by rewrite (K7 Hw).
    + intros n [_ Hn]%list_elem_of_filter. by apply K8.
  - rewrite same_open by done. by apply (happened_same _ s _ (omap h_open gs)).
Qed.

(** The registry changes. *)
Lemma inv_entry x entries refs s' :
  s' = s <| ops_refs := refs |> <| ops_entries := entries |> →
  (∀ n, RuntimeOperation n ∈ h_locks g → snd <$> x = Some n) →
  entries_ok entries refs (<[i := x]> (h_entry <$> gs)) →
  inv db s' (<[i := with_entry g x]> gs).
Proof.
  intros -> Hx He. pose proof Hinv as [H1 H2 H3 H4 H5 H6 H7]. pose proof (H4 _ _ Hi) as [K1 K2 K3 K4 K5 K6 K7 K8].
  unchanged.
  - by rewrite same_part.
  - by rewrite same_part.
  - rewrite same_open by done. by apply (happened_same _ s _ (omap h_open gs)).
Qed.

Lemma no_operation : h_entry g = None → ∀ n, RuntimeOperation n ∉ h_locks g.
Proof. intros E n Hn%(kn_inside _ _ (in_knows _ _ _ Hinv _ _ Hi)). by rewrite E in Hn. Qed.

(** *** Events *)

(** Nothing changes but the log. *)
Lemma inv_event ev :
  (∀ v, agrees s (omap h_open gs) v → ∃ v', happens v ev v' ∧ agrees s (omap h_open gs) v') →
  inv db (logged ev s) (<[i := g]> gs).
Proof.
  intros Hev. pose proof Hinv as [H1 H2 H3 H4 H5 H6 H7]. unchanged.
  - by rewrite same_part.
  - by rewrite same_part.
  - by rewrite same_part.
  - by eapply knows_stable, H4.
  - rewrite same_open by done. eapply (happened_event _ s); [done| |done]. intros v Hv.
    destruct (Hev v Hv) as (v' & Hh & Ha). exists v'. split; [done|]. by destruct Ha.
Qed.

Lemma attached_happens c :
  (cc_ID c, Some c) ∈ h_seen g →
  (cc_OwnerUserID c = ""%string ∨ h_gate g = Some (gate_key (cc_OwnerUserID c), Reads) ∧
     cc_OwnerUserID c ∈ h_active g ∧ cc_OwnerEpoch c ∈ h_epochs g) →
  inv db (logged (Attached c) s) (<[i := g]> gs).
Proof.
  intros Hs Hg. pose proof (in_knows _ _ _ Hinv _ _ Hi) as [K1 K2 K3 K4 K5 K6 K7 K8].
  rewrite Forall_forall in K5. destruct (K5 _ Hs) as [_ Hc]. cbn in Hc.
  destruct (in_table _ _ _ Hinv _ _ Hc) as [_ Hne]. destruct Hg as [E|(Eg & Ha & He)]; [by rewrite E in Hne|].
  apply inv_event. intros v [A1 A2 A3 A4]. exists v. split; [|done]. constructor; [by rewrite A3|].
  rewrite Forall_forall in K2. destruct (K2 _ Ha) as [_ Hop]. split; [by rewrite A2|].
  rewrite A1. symmetry. pose proof (K1 _ _ Eg) as K1'. rewrite Forall_forall in K1'. by apply K1'.
Qed.

Lemma settled_happens userID :
  gate_key userID ≠ ""%string → h_gate g = Some (gate_key userID, Writes) → h_down g = Some userID → all_seen userID (h_keys g) →
  inv db (logged (Settled userID) s) (<[i := g]> gs).
Proof.
  intros Hne Hg Hd Hk. pose proof (in_knows _ _ _ Hinv _ _ Hi) as [K1 K2 K3 K4 K5 K6 K7 K8].
  apply inv_event. intros v [A1 A2 A3 A4]. eexists. split; [constructor; [done|..]|by split].
  { rewrite A2. by apply K3. } rewrite A3. intros id c Hc E.
  destruct (h_keys g) as [[keys found]|]; [|done]. destruct Hk as [-> Hf].
  destruct (K4 _ _ eq_refl) as (k & Hg' & Hin). assert (k = gate_key userID) as -> by congruence.
  destruct (Hin _ _ Hc) as [?%elem_of_nil|Hin']; [by rewrite E|done|]. rewrite Forall_forall in Hf. by apply (Hf _ Hin').
Qed.

(** What another goroutine has at this one's gate. *)
Lemma elsewhere j h k x :
  j ≠ i → gs !! j = Some h → h_gate g = Some (k, Writes) → h_gate h ≠ Some (k, x).
Proof. intros Hne Hj Hg Hh. apply Hne. symmetry. by eapply (writer_alone _ _ _ Hinv i j). Qed.

Lemma inv_bump gate :
  h_gate g = Some (gate, Writes) → gate ≠ ""%string →
  let w := gate_of s gate in
  inv db (logged (Bumped gate) (set_gate gate {| gt_epoch := u64_succ (gt_epoch w); gt_readers := gt_readers w;
                                                 gt_writer := gt_writer w |} s))
    (<[i := with_facts g [] (h_active g) (h_down g) (h_keys g)]> gs).
Proof.
  intros Hg Hne w. pose proof Hinv as [H1 H2 H3 H4 H5 H6 H7]. pose proof (H4 _ _ Hi) as [K1 K2 K3 K4 K5 K6 K7 K8].
  set (w' := {| gt_epoch := u64_succ (gt_epoch w) |}).
  assert (Ew : ∀ k, gt_epoch (gate_of (logged (Bumped gate) (set_gate gate w' s)) k) =
               if (k =? gate)%string then u64_succ (gt_epoch (gate_of s k)) else gt_epoch (gate_of s k)).
  { intros k. change (gate_of (logged _ ?s')) with (gate_of s'). rewrite gate_of_set.
    destruct (String.eqb_spec k gate) as [->|]; [by rewrite decide_True|by rewrite decide_False by congruence]. }
  apply inv_move; try done.
  - apply (gates_ok_same (set_gate gate w' s)); [done|]. eapply gates_ok_set; [done|by apply lookup_part|..].
    + rewrite Hg. by intros ? ? [= <- _].
    + cbn. rewrite Hg. by intros ? ? [= <- _].
    + rewrite same_part by done. by destruct (H1 gate).
  - by rewrite same_part.
  - by rewrite same_part.
  - intros j h Hj Hh. apply knows_stable; [|done..]. intros k x Hk. rewrite Ew.
    destruct (String.eqb_spec k gate) as [->|]; [|done]. by destruct (elsewhere _ _ _ x Hj Hh Hg).
  - rewrite same_open by done. eapply (happened_event _ s); [done| |done]. intros v [A1 A2 A3 A4].
    eexists. split; [apply (h_bumped v gate)|].
    + unfold quiet. rewrite A4. by eapply open_elsewhere.
    + split; try done. intros k. cbn. rewrite Ew. by rewrite A1.
Qed.

(** The status of a user changes, or the user goes. *)
Lemma inv_status userID db' down :
  h_gate g = Some (gate_key userID, Writes) → gate_key userID ≠ ""%string →
  only_user userID (sv_db s) db' → (∀ u, down = Some u → u = userID ∧ operational db' userID = false) →
  inv db (logged (StatusSet userID (operational db' userID)) (s <| sv_db := db' |>))
    (<[i := with_facts g (h_epochs g) (h_active g) down (h_keys g)]> gs).
Proof.
  intros Hg Hne [Hk Ho] Hdown. pose proof Hinv as [H1 H2 H3 H4 H5 H6 H7].
  pose proof (H4 _ _ Hi) as [K1 K2 K3 K4 K5 K6 K7 K8]. apply inv_move; try done.
  - by rewrite same_part.
  - by rewrite same_part.
  - by rewrite same_part.
  - intros j h Hj Hh. apply knows_stable; [done| |done..]. intros u x Hu. apply Ho. intros ->.
    by destruct (elsewhere _ _ _ x Hj Hh Hg).
  - split; cbn; try done.
    + destruct (h_active g) as [|u l]; [constructor|]. apply Forall_cons in K2 as [[E _] _]. congruence.
    + intros u Hu. destruct (Hdown u Hu) as [-> ?]. by split.
  - rewrite same_open by done. eapply (happened_event _ s); [done| |done]. intros v [A1 A2 A3 A4].
    eexists. split; [apply (h_status v userID)|].
    + unfold quiet. rewrite A4. by eapply open_elsewhere.
    + split; try done. intros u. cbn. destruct (String.eqb_spec u userID) as [->|Hu]; [done|].
      by rewrite A2, Ho.
Qed.

(** *** Clients *)

Lemma inv_store c states :
  h_gate g = Some (gate_key (cc_OwnerUserID c), Reads) → cc_OwnerUserID c ∈ h_active g →
  cc_OwnerEpoch c ∈ h_epochs g → gate_key (cc_OwnerUserID c) ≠ ""%string → ClientTunnelMutation ∈ h_locks g →
  inv db (logged (Stored c) (s <| sv_clients := <[cc_ID c := c]> (sv_clients s) |> <| sv_states := states |>))
    (<[i := with_locks g (h_locks g) []]> gs).
Proof.
  intros Hg Ha He Hne Hm. pose proof Hinv as [H1 H2 H3 H4 H5 H6 H7].
  pose proof (H4 _ _ Hi) as [K1 K2 K3 K4 K5 K6 K7 K8]. apply inv_move; try done.
  - by rewrite same_part.
  - by rewrite same_part.
  - by rewrite same_part.
  - intros j h Hj Hh. apply knows_stable; [done..| |].
    + cbn. intros k id c' Hk [[<- <-]|[_ Hid]]%lookup_insert_Some E; [|done]. subst k.
      by destruct Hj; eapply (writer_alone _ _ _ Hinv j i).
    + intros Hm'. by destruct Hj; eapply (holder_alone _ _ _ Hinv j i).
  - split; cbn; try done. intros keys found (k & E & _)%K4. congruence.
  - cbn. intros id c' [[<- <-]|[_ Hid]]%lookup_insert_Some; [done|by apply H5].
  - rewrite same_open by done. eapply (happened_event _ s); [done| |done]. intros v [A1 A2 A3 A4].
    eexists. split; [apply (h_stored v c)|split; try done; cbn; by rewrite A3].
    rewrite Forall_forall in K2. destruct (K2 _ Ha) as [_ Hop]. split; [by rewrite A2|]. rewrite A1.
    pose proof (K1 _ _ Hg) as K1'. rewrite Forall_forall in K1'. symmetry. by apply K1'.
Qed.

Lemma inv_remove c :
  ClientTunnelMutation ∈ h_locks g →
  inv db (if bool_decide (sv_clients s !! cc_ID c = Some c)
          then logged (Removed c) (s <| sv_clients := delete (cc_ID c) (sv_clients s) |>) else s)
    (<[i := with_locks g (h_locks g) []]> gs).
Proof.
  intros Hm. pose proof Hinv as [H1 H2 H3 H4 H5 H6 H7]. pose proof (H4 _ _ Hi) as [K1 K2 K3 K4 K5 K6 K7 K8].
  case_bool_decide as Ec; [|apply inv_facts; try done; split; try done; constructor].
  apply inv_move; try done.
  - by rewrite same_part.
  - by rewrite same_part.
  - by rewrite same_part.
  - intros j h Hj Hh. apply knows_stable; [done..| |].
    + cbn. by intros k id c' Hk [_ Hid]%lookup_delete_Some.
    + intros Hm'. by destruct Hj; eapply (holder_alone _ _ _ Hinv j i).
  - split; cbn; try done. intros keys found (k & E & Hk)%K4. exists k. split; [done|].
    intros id c' [_ Hid]%lookup_delete_Some. by apply Hk.
  - cbn. intros id c' [_ Hid]%lookup_delete_Some. by apply H5.
  - rewrite same_open by done. eapply (happened_event _ s); [done| |done]. intros v [A1 A2 A3 A4].
    eexists. split; [apply (h_removed v c); by rewrite A3|split; try done; cbn; by rewrite A3].
Qed.

(** *** Publications *)

Lemma open_perm g' :
  omap h_open (<[i := g']> gs) ++ option_list (h_open g) ≡ₚ option_list (h_open g') ++ omap h_open gs.
Proof.
  clear Hinv. revert i Hi. induction gs as [|h l IH]; intros [|i] Hi; try done.
  - injection Hi as ->. change (omap h_open ([g'] ++ l) ++ option_list (h_open g) ≡ₚ
      option_list (h_open g') ++ omap h_open ([g] ++ l)). rewrite !omap_app. cbn.
    destruct (h_open g), (h_open g'); cbn; rewrite ?app_nil_r, <- ?Permutation_cons_append; try done; apply Permutation_swap.
  - change (omap h_open ([h] ++ <[i := g']> l) ++ option_list (h_open g) ≡ₚ
      option_list (h_open g') ++ omap h_open ([h] ++ l)). rewrite !omap_app, <- app_assoc, (IH i Hi), !app_assoc.
    by rewrite (Permutation_app_comm (option_list (h_open g'))).
Qed.

Lemma may_begin p v :
  agrees s (omap h_open gs) v → h_open g = None → pinned g p → saw_client g (pb_client p) →
  seen_task g (pb_task p) → (pb_exclusive p = true → ClientTunnelMutation ∈ h_locks g) → may_publish v p.
Proof.
  intros [A1 A2 A3 A4] Ho Hp Hc Ht Hx. pose proof (in_knows _ _ _ Hinv _ _ Hi) as [K1 K2 K3 K4 K5 K6 K7 K8].
  rewrite Forall_forall in K5. split.
  - destruct Hp as [E|(Hg & He & Ha)]; [by left|right]. split.
    + rewrite A1. destruct He as [?|He]; [by left|right]. symmetry. pose proof (K1 _ _ Hg) as K1'.
      rewrite Forall_forall in K1'. by apply K1'.
    + intros Hop. rewrite A2. rewrite Forall_forall in K2. by destruct (K2 _ (Ha Hop)).
  - intros c Ec. rewrite Ec in Hc. destruct (K5 _ Hc) as [_ Hl]. by rewrite A3.
  - intros task Et. rewrite Et in Ht. eapply Forall_impl; [exact Ht|].
    intros pt ([id o] & Hin & Eid & Hpt)%Exists_exists. cbn in Eid, Hpt. destruct (K5 _ Hin) as [_ Hl]. cbn in Hl.
    unfold participant_present. rewrite A3, <- Eid, Hl. by destruct o.
  - intros E. rewrite A4. by eapply open_shared; [..|apply Hx|].
Qed.

Lemma inv_begin p :
  h_open g = None → pinned g p → saw_client g (pb_client p) → seen_task g (pb_task p) →
  (pb_exclusive p = true → ClientTunnelMutation ∈ h_locks g) →
  inv db (logged (Began p) s) (<[i := with_open g (Some p)]> gs).
Proof.
  intros Ho Hp Hc Ht Hx. pose proof Hinv as [H1 H2 H3 H4 H5 H6 H7].
  pose proof (H4 _ _ Hi) as [K1 K2 K3 K4 K5 K6 K7 K8]. unchanged.
  - by rewrite same_part.
  - by rewrite same_part.
  - by rewrite same_part.
  - split; cbn; try done. intros p' [= <-]. split; [|done]. destruct Hp as [?|(? & _)]; [by left|by right].
  - eapply (happened_event _ s); [done| |done]. intros v Hv.
    eexists. split; [apply (h_began v p); by apply may_begin|]. destruct Hv as [A1 A2 A3 A4]. split; try done.
    cbn. rewrite A4. pose proof (open_perm (with_open g (Some p))) as E. rewrite Ho in E. cbn in E.
    by rewrite app_nil_r in E.
Qed.

Lemma inv_end p :
  h_open g = Some p → inv db (logged (Ended p) s) (<[i := with_open g None]> gs).
Proof.
  intros Ho. pose proof Hinv as [H1 H2 H3 H4 H5 H6 H7].
  pose proof (H4 _ _ Hi) as [K1 K2 K3 K4 K5 K6 K7 K8]. unchanged.
  - by rewrite same_part.
  - by rewrite same_part.
  - by rewrite same_part.
  - eapply (happened_event _ s); [done| |done]. intros v [A1 A2 A3 A4].
    pose proof (open_perm (with_open g None)) as E. rewrite Ho in E. cbn in E. rewrite <- Permutation_cons_append in E.
    eexists. split; [eapply (h_ended v p); rewrite A4; symmetry; exact E|]. by split.
Qed.
End Moves.

(** A new goroutine. *)
Lemma inv_hand db s gs i g :
  inv db s gs → gs !! i = Some g → inv db s (<[i := g]> gs ++ [nothing]).
Proof.
  intros [H1 H2 H3 H4 H5 H6 H7] Hi. rewrite list_insert_id by done. split; rewrite ?fmap_app; cbn; try done.
  - by apply gates_ok_snoc.
  - by apply mutexes_snoc.
  - by apply entries_snoc.
  - intros j h [Hj|[_ [_ <-]%list_lookup_singleton_Some]]%lookup_app_Some; [by eapply H4|apply knows_nothing].
  - rewrite omap_app. cbn. by rewrite app_nil_r.
Qed.

(** ** The first state *)

Lemma gate_of_idle db gate : gate_of (idle_server db) gate = new_gate.
Proof. unfold gate_of. cbn. by rewrite lookup_empty. Qed.

Lemma idle_inv db n : keyed db → inv db (idle_server db) (replicate n nothing).
Proof.
  intros Hk. split; rewrite ?fmap_replicate; cbn; try done.
  - intros gate. rewrite gate_of_idle. split; cbn; try done;
      apply (holders_zero (at_the gate _)); by intros i x [-> _]%lookup_replicate.
  - intros m. rewrite (holders_zero (holds m)), one_false; [done|set_solver|].
    intros i x [-> _]%lookup_replicate. by intros ?%elem_of_nil.
  - split; try done.
    + intros m. rewrite (holders_zero (inside m)); [by rewrite lookup_nil|]. by intros i x [-> _]%lookup_replicate.
    + intros j key m [[=] _]%lookup_replicate.
  - intros i g [-> _]%lookup_replicate. apply knows_nothing.
  - exists (first_view db). split; [constructor|]. split; try done. cbn. by induction n.
Qed.
