(* ===== verification/LifecycleRuns.v ===== *)
(** Every operation of [Lifecycle] keeps the invariant, so every run of its
    goroutines does; nobody waits for ever; and every run ends. *)
From Stdlib Require Import ZArith Lia Ascii String Strings.Byte.
From stdpp Require Import base tactics numbers list gmap strings.
From S2P Require Import Prelude Records GoStrings GoIO Activity AdminDB Users UsersInv Credentials Goroutines Progress Lifecycle LifecycleSpec LifecycleRules LifecycleFrames LifecycleLocks LifecycleInv.

Section Runs.
Context {log : ActivityLog}.
Context (bcrypt_compare : string → string → bool) (apiKeyLookupDigest hashToken : string → string).
Abbreviation exec := (Lifecycle.exec bcrypt_compare apiKeyLookupDigest hashToken).

(** ** The operations *)

(** An operation and its answer keep the invariant. *)
Definition keeps db {B} (e : op B) (b : B) (s s' : server) : Prop :=
  ∀ i g gs, inv db s gs → gs !! i = Some g →
    possible _ e b ∧ ∀ g', move _ e b g = Some g' → inv db s' (<[i := g']> gs).

(** What the goroutine holds and knows stays as it is. *)
Lemma keeps_quiet db {B} (e : op B) b s s' :
  same_core s s' → (∀ gs, inv db s gs → possible _ e b) → (∀ g, move _ e b g = Some g) → keeps db e b s s'.
Proof.
  intros Hc Hp Hm i g gs Hinv Hi. split; [by eapply Hp|]. intros g'. rewrite Hm. intros [= <-].
  rewrite list_insert_id by done. by eapply inv_quiet.
Qed.

Lemma keeps_same db {B} (e : op B) b s :
  (∀ gs, inv db s gs → possible _ e b) → (∀ g, move _ e b g = Some g) → keeps db e b s s.
Proof. by apply keeps_quiet. Qed.

Lemma core_users s db' : users db' = users (sv_db s) → same_core s (s <| sv_db := db' |>).
Proof. by split. Qed.

Lemma keeps_gate db s gate gate' w x y {B} (e : op B) b :
  gt_epoch w = gt_epoch (gate_of s gate) →
  (∀ k h, x = Some (k, h) → k = gate) → (∀ k h, y = Some (k, h) → k = gate) →
  (∀ xs i, gate_ok gate (gate_of s gate) xs → xs !! i = Some x → gate_ok gate w (<[i := y]> xs)) →
  gate' = gate → possible _ e b →
  (∀ g g' gs i, inv db s gs → gs !! i = Some g → move _ e b g = Some g' →
     h_gate g = x ∧ h_locks g = [] ∧ h_open g = None ∧ g' = with_gate g y) →
  keeps db e b s (set_gate gate' w s).
Proof.
  intros Ew Hx Hy Hw -> Hp Hm i g gs Hinv Hi. split; [done|]. intros g' Hg'.
  destruct (Hm _ _ _ _ Hinv Hi Hg') as (Eg & El & Eo & ->).
  apply (inv_gate _ _ _ _ _ Hinv Hi); rewrite ?Eg; try done. intros Hg Hl. by apply Hw.
Qed.

Ltac gate_moves :=
  cbn; intros g g' gs i _ _ (Hg & <-)%allow_Some; unfold free in Hg; naive_solver.

(** The five operations on a gate. *)
Lemma keeps_read db gate c s b s' :
  exec _ (GateRLock gate) c s = Some (b, s') → keeps db (GateRLock gate) b s s'.
Proof.
  cbn. destruct (gt_writer (gate_of s gate)) eqn:Ew; [|done..]. intros [= <- <-].
  apply (keeps_gate _ _ gate _ _ None (Some (gate, Reads))); try done; [naive_solver| |gate_moves].
  intros xs i Hok Hi. by apply gate_read.
Qed.

Lemma keeps_unread db gate c s b s' :
  exec _ (GateRUnlock gate) c s = Some (b, s') → keeps db (GateRUnlock gate) b s s'.
Proof.
  intros [= <- <-]. apply (keeps_gate _ _ gate _ _ (Some (gate, Reads)) None); try done; [naive_solver| |gate_moves].
  intros xs i Hok Hi. by apply gate_unread.
Qed.

Lemma keeps_wait db gate c s b s' :
  exec _ (GateLockWait gate) c s = Some (b, s') → keeps db (GateLockWait gate) b s s'.
Proof.
  cbn. destruct (gt_writer (gate_of s gate)) eqn:Ew; [|done..]. intros [= <- <-].
  apply (keeps_gate _ _ gate _ _ None (Some (gate, Waits))); try done; [naive_solver| |gate_moves].
  intros xs i Hok Hi. by apply gate_wait.
Qed.

Lemma keeps_write db gate c s b s' :
  exec _ (GateLock gate) c s = Some (b, s') → keeps db (GateLock gate) b s s'.
Proof.
  cbn. destruct (Z.eqb_spec (gt_readers (gate_of s gate)) 0) as [Er|]; [|done]. intros [= <- <-].
  apply (keeps_gate _ _ gate _ _ (Some (gate, Waits)) (Some (gate, Writes))); try done; [naive_solver..| |gate_moves].
  intros xs i Hok Hi. by apply gate_write.
Qed.

Lemma keeps_unwrite db gate c s b s' :
  exec _ (GateUnlock gate) c s = Some (b, s') → keeps db (GateUnlock gate) b s s'.
Proof.
  intros [= <- <-]. apply (keeps_gate _ _ gate _ _ (Some (gate, Writes)) None); try done; [naive_solver| |gate_moves].
  intros xs i Hok Hi. by apply gate_unwrite.
Qed.

(** What is learnt, and kept with the rest. *)
Lemma keeps_learning db {B} (e : op B) b s :
  (∀ gs, inv db s gs → possible _ e b) →
  (∀ gs i g g', inv db s gs → gs !! i = Some g → move _ e b g = Some g' →
     h_gate g' = h_gate g ∧ h_locks g' = h_locks g ∧ h_entry g' = h_entry g ∧ h_open g' = h_open g ∧ knows s g') →
  keeps db e b s s.
Proof.
  intros Hp Hm i g gs Hinv Hi. split; [by eapply Hp|]. intros g' Hg'.
  destruct (Hm _ _ _ _ Hinv Hi Hg') as (? & ? & ? & ? & ?). by eapply inv_facts.
Qed.

Lemma keeps_epoch db gate s : keeps db (GateEpoch gate) (gt_epoch (gate_of s gate)) s s.
Proof.
  apply keeps_learning; [done|]. intros gs i g g' Hinv Hi (Hg & ->)%allow_Some. do 4 (split; [done|]).
  destruct (in_knows _ _ _ Hinv _ _ Hi) as [K1 K2 K3 K4 K5 K6 K7 K8]. split; cbn; try done.
  intros k h E. constructor; [|by eapply K1]. destruct Hg as [Eg|Eg]; congruence.
Qed.

Lemma keeps_operational db userID s :
  keeps db (IsOperational userID) (IsUserOperational (sv_db s) userID) s s.
Proof.
  apply keeps_learning; [done|]. intros gs i g g' Hinv Hi [= <-].
  pose proof (in_knows _ _ _ Hinv _ _ Hi) as Hk. destruct (IsUserOperational _ _) as [[|]|] eqn:Eop; [|by auto 6..].
  case_bool_decide as Eg; [|by auto 6]. do 4 (split; [done|]). destruct Hk as [K1 K2 K3 K4 K5 K6 K7 K8].
  split; cbn; try done. constructor; [|done]. split; [done|]. unfold operational. by rewrite Eop.
Qed.

Lemma knows_loaded s id g : knows s g → knows s (loaded id (sv_clients s !! id) g).
Proof.
  intros [K1 K2 K3 K4 K5 K6 K7 K8]. unfold loaded.
  set (g1 := with_facts g _ _ _ _). assert (Hk : knows s g1).
  { split; cbn; try done. intros keys found. destruct (h_keys g) as [[ks fs]|]; [|done]. intros [= <- <-].
    destruct (K4 _ _ eq_refl) as (k & Hg & Hin). exists k. split; [done|]. intros id' c Hc E.
    rewrite list_elem_of_filter, elem_of_app. destruct (decide (id' = id)) as [->|Hne].
    - right. left. rewrite Hc. by apply list_elem_of_here.
    - destruct (Hin _ _ Hc E); auto. }
  case_bool_decide as Hm; [|done]. destruct Hk as [L1 L2 L3 L4 L5 L6 L7 L8]. split; cbn; try done.
  constructor; [done|]. exact K5.
Qed.

Lemma keeps_load db id s : keeps db (LoadClient id) (sv_clients s !! id) s s.
Proof.
  apply keeps_learning.
  - intros gs Hinv c Hc. by apply (in_table _ _ _ Hinv).
  - intros gs i g g' Hinv Hi [= <-]. pose proof (knows_loaded s id g (in_knows _ _ _ Hinv _ _ Hi)) as Hk.
    revert Hk. unfold loaded. case_bool_decide; intros Hk; by auto 6.
Qed.

Lemma keeps_keys db s more : keeps db ClientKeys ((map_to_list (sv_clients s)).*1 ++ more) s s.
Proof.
  apply keeps_learning; [done|]. intros gs i g g' Hinv Hi [= <-]. do 4 (split; [done|]).
  destruct (in_knows _ _ _ Hinv _ _ Hi) as [K1 K2 K3 K4 K5 K6 K7 K8]. split; cbn; try done.
  intros keys found. case_bool_decide as Eg; [|done]. intros [= <- <-].
  destruct (h_gate g) as [[k h]|]; [|done]. injection Eg as ->. exists k. split; [done|]. intros id c Hc _. left.
  apply elem_of_app. left. apply list_elem_of_fmap. exists (id, c). split; [done|]. by apply elem_of_map_to_list.
Qed.

(** Mutexes and runtime operations. *)
Lemma keeps_lock db m c s b s' : exec _ (Lock m) c s = Some (b, s') → keeps db (Lock m) b s s'.
Proof.
  cbn. case_bool_decide as Hm; [done|]. intros [= <- <-] i g gs Hinv Hi. split; [done|].
  intros g' ((_ & _ & Hw & He) & ->)%allow_Some. by eapply inv_lock.
Qed.

Lemma keeps_unlock db m c s b s' : exec _ (Unlock m) c s = Some (b, s') → keeps db (Unlock m) b s s'.
Proof.
  intros [= <- <-] i g gs Hinv Hi. split; [done|]. intros g' ((Hm & Ho) & ->)%allow_Some. by eapply inv_unlock.
Qed.

Lemma keeps_enter db key c s b s' : exec _ (OpEnter key) c s = Some (b, s') → keeps db (OpEnter key) b s s'.
Proof.
  intros H i g gs Hinv Hi. split; [done|]. intros g' (Hn & ->)%allow_Some.
  pose proof (lookup_part _ h_entry _ _ Hi) as Hl. rewrite Hn in Hl. cbn in H.
  assert (Hno : ∀ (x : option (string * nat)) n, RuntimeOperation n ∈ h_locks g → snd <$> x = Some n).
  { intros x n Hin. by destruct (no_operation _ _ _ _ _ Hinv Hi Hn n). }
  destruct (ops_entries s !! key) as [n|] eqn:Ek; injection H as <- <-.
  - eapply (inv_entry _ _ _ _ _ Hinv Hi _ (ops_entries s)); [reflexivity|by apply Hno|].
    by apply entries_enter; [apply (in_entries _ _ _ Hinv)|..].
  - eapply (inv_entry _ _ _ _ _ Hinv Hi); [reflexivity|by apply Hno|].
    by apply entries_create; [apply (in_entries _ _ _ Hinv)|..].
Qed.

Lemma keeps_leave db key n c s b s' : exec _ (OpLeave key n) c s = Some (b, s') → keeps db (OpLeave key n) b s s'.
Proof.
  intros [= <- <-] i g gs Hinv Hi. split; [done|]. intros g' ((He & Hn) & ->)%allow_Some.
  pose proof (lookup_part _ h_entry _ _ Hi) as Hl. rewrite He in Hl.
  pose proof (in_knows _ _ _ Hinv _ _ Hi) as Hk.
  eapply (inv_entry _ _ _ _ _ Hinv Hi); [reflexivity|..].
  - intros m Hm. pose proof (kn_inside _ _ Hk _ Hm) as E. rewrite He in E. injection E as <-. done.
  - by apply entries_leave; [apply (in_entries _ _ _ Hinv)|].
Qed.

(** The status of users. *)
Lemma keeps_status db {A} (e : op (result A)) b userID r s s' f :
  r.2 = b → (b, s') = status_logged userID r s →
  (∀ g, move _ e b g = allow (h_gate g = Some (gate_key userID, Writes) ∧ gate_key userID ≠ ""%string)
                         (with_facts g (h_epochs g) (h_active g) (f b) (h_keys g))) →
  (keyed (sv_db s) → match b with
   | Ok _ => only_user userID (sv_db s) r.1 ∧ possible _ e b ∧
             ∀ u, f b = Some u → u = userID ∧ operational r.1 userID = false
   | Err _ => r.1 = sv_db s ∧ possible _ e b ∧ f b = None
   end) → keeps db e b s s'.
Proof.
  intros Eb Es Hm Hr i g gs Hinv Hi. specialize (Hr (in_keyed _ _ _ Hinv)).
  unfold status_logged in Es. rewrite Eb in Es. injection Es as ->. destruct b as [a|err]; cbn.
  - destruct Hr as (Hu & Hp & Hd). split; [done|]. intros g'. rewrite Hm. intros ((Hg & Hne) & ->)%allow_Some.
    by eapply inv_status.
  - destruct Hr as (Hu & Hp & Hd). split; [done|]. intros g'. rewrite Hm, Hd. intros (_ & ->)%allow_Some.
    assert (Hinv' : inv db (s <| sv_db := r.1 |>) gs) by (eapply inv_quiet; [done|by apply core_users; rewrite Hu]).
    apply (inv_facts _ _ _ _ _ Hinv' Hi); try done. destruct (in_knows _ _ _ Hinv' _ _ Hi). by split.
Qed.

Lemma keeps_set_status db actorUserID userID status actor c s b s' :
  exec _ (SetStatus actorUserID userID status actor) c s = Some (b, s') →
  keeps db (SetStatus actorUserID userID status actor) b s s'.
Proof.
  cbn [Lifecycle.exec]. destruct (setUserStatus _ _ _ _ _ _ _) as [db' r] eqn:Er. intros [= <- <-].
  eapply (keeps_status _ _ _ _ (db', r) _ _
    (λ r, if is_ok r && (status =?s UserStatusDisabled)%string then Some userID else None)).
  - done.
  - done.
  - reflexivity.
  - intros Hk. apply set_status_does in Er; [|done]. destruct r as [x|e]; cbn.
    + destruct Er as (Hu & Hid & Hdown). split; [done|]. split; [by intros y [= <-]|]. intros u.
      destruct (String.eqb_spec status UserStatusDisabled); [intros [= <-]; auto|done].
    + by split.
Qed.

Lemma keeps_delete_user db actorUserID userID c s b s' :
  exec _ (DeleteUser actorUserID userID) c s = Some (b, s') → keeps db (DeleteUser actorUserID userID) b s s'.
Proof.
  cbn [Lifecycle.exec]. destruct (DeleteDisabledUser _ _ _ _) as [db' r] eqn:Er. intros [= <- <-].
  eapply (keeps_status _ _ _ _ (db', r) _ _ (λ r, if is_ok r then Some userID else None)).
  - done.
  - done.
  - reflexivity.
  - intros Hk. apply delete_user_does in Er; [|done]. destruct r as [[]|e]; cbn.
    + destruct Er as (Hu & Hdown). split; [done|]. split; [done|]. intros u [= <-]. auto.
    + by split.
Qed.

(** Clients and publications. *)
Lemma keeps_store db id owner epoch token generation c s b s' :
  exec _ (StoreClient id owner epoch token generation) c s = Some (b, s') →
  keeps db (StoreClient id owner epoch token generation) b s s'.
Proof.
  intros [= <- <-] i g gs Hinv Hi. split; [done|]. intros g' ((Hg & Ha & He & Hne & Hm) & ->)%allow_Some.
  set (client := {| cc_ref := length (sv_states s) |}). by apply (inv_store _ _ _ _ _ Hinv Hi client).
Qed.

Lemma keeps_delete db client c s b s' :
  exec _ (DeleteClient client) c s = Some (b, s') → keeps db (DeleteClient client) b s s'.
Proof.
  intros [= <- <-] i g gs Hinv Hi. split; [done|]. intros g' (Hm & ->)%allow_Some. by apply inv_remove.
Qed.

Lemma keeps_attach db client s : keeps db (AttachSession client) tt s (logged (Attached client) s).
Proof.
  intros i g gs Hinv Hi. split; [done|]. intros g' ((Hs & Hg) & ->)%allow_Some. by apply attached_happens.
Qed.

Lemma keeps_begin db p s : keeps db (Begin p) tt s (logged (Began p) s).
Proof.
  intros i g gs Hinv Hi. split; [done|]. intros g' ((Ho & Hp & Hc & Ht & Hx) & ->)%allow_Some. by apply inv_begin.
Qed.

Lemma keeps_end db p s : keeps db (End p) tt s (logged (Ended p) s).
Proof. intros i g gs Hinv Hi. split; [done|]. intros g' (Ho & ->)%allow_Some. by apply inv_end. Qed.

Lemma keeps_bump db gate c s b s' : exec _ (GateBump gate) c s = Some (b, s') → keeps db (GateBump gate) b s s'.
Proof.
  intros [= <- <-] i g gs Hinv Hi. split; [done|]. intros g' ((Hg & Hne) & ->)%allow_Some. by apply inv_bump.
Qed.

Lemma keeps_settle db userID s : keeps db (Settle userID) tt s (logged (Settled userID) s).
Proof.
  intros i g gs Hinv Hi. split; [done|]. intros g' ((Hne & Hg & Hd & Hk) & ->)%allow_Some. by apply settled_happens.
Qed.

Lemma keeps_user db userID s : keeps db (LoadUser userID) (getUserInTx (sv_db s) userID) s s.
Proof.
  apply keeps_same; [|done]. intros gs Hinv u Hu. apply getUserInTx_row in Hu. by apply (in_keyed _ _ _ Hinv).
Qed.

Lemma exec_keeps db B (e : op B) c s b s' : exec B e c s = Some (b, s') → keeps db e b s s'.
Proof.
  destruct e; intros H.
  - by eapply keeps_read.
  - by eapply keeps_unread.
  - by eapply keeps_wait.
  - by eapply keeps_write.
  - by eapply keeps_unwrite.
  - injection H as <- <-. apply keeps_epoch.
  - by eapply keeps_bump.
  - by eapply keeps_lock.
  - by eapply keeps_unlock.
  - by eapply keeps_enter.
  - by eapply keeps_leave.
  - injection H as <- <-. apply keeps_operational.
  - injection H as <- <-. apply keeps_user.
  - by eapply keeps_set_status.
  - by eapply keeps_delete_user.
  - injection H as <- <-. apply keeps_quiet; [apply core_users, revoke_users|done..].
  - injection H as <- <-. by apply keeps_same.
  - injection H as <- <-. by apply keeps_same.
  - injection H as <- <-. by apply keeps_same.
  - injection H as <- <-. apply keeps_quiet; [apply core_users, validate_users|done..].
  - injection H as <- <-. by apply keeps_same.
  - injection H as <- <-. by apply keeps_same.
  - injection H as <- <-. apply keeps_quiet; [apply core_users, register_users|done..].
  - injection H as <- <-. by apply keeps_quiet.
  - by eapply keeps_store.
  - injection H as <- <-. apply keeps_load.
  - injection H as <- <-. apply keeps_keys.
  - by eapply keeps_delete.
  - injection H as <- <-. by apply keeps_same.
  - injection H as <- <-. by apply keeps_quiet.
  - injection H as <- <-. apply keeps_attach.
  - injection H as <- <-. by apply keeps_same.
  - injection H as <- <-. by apply keeps_same.
  - injection H as <- <-. by apply keeps_same.
  - injection H as <- <-. by apply keeps_same.
  - injection H as <- <-. apply keeps_begin.
  - injection H as <- <-. apply keeps_end.
  - injection H as <- <-. apply keeps_settle.
Qed.

(** ** Every run *)

Abbreviation running db := (disciplined possible move hand rests (inv db)).

Lemma starts db ts : keyed db → running db (idle_server db, start body <$> ts).
Proof.
  intros Hk. apply start_disciplined with (begins := begins); [done|exact bodies_follow|].
  replace (begins <$> ts) with (replicate (length ts) nothing); [by apply idle_inv|].
  induction ts as [|t ts IH]; [done|]. cbn. by f_equal.
Qed.

Lemma runs db ts sched st :
  keyed db → run exec body sched (idle_server db, start body <$> ts) = Some st → running db st.
Proof.
  intros Hk. apply (run_disciplined exec body possible move hand begins rests (inv db)).
  - done.
  - exact bodies_follow.
  - intros B e c s b s' i g gs Hinv Hi He. by eapply exec_keeps.
  - intros t s i g g' gs Hinv Hi [= <-]. by apply inv_hand.
  - by apply starts.
Qed.

(** ** Nobody waits for ever *)

Definition order (B : Type) (e : op B) : nat :=
  match e with GateLock _ => 1 | Lock m => lock_level m | _ => 0 end.

(** What an operation may have to wait for. *)
Inductive blocked (s : server) : ∀ B, op B → Prop :=
| blocked_read gate : gt_writer (gate_of s gate) ≠ NoWriter → blocked s _ (GateRLock gate)
| blocked_wait gate : gt_writer (gate_of s gate) ≠ NoWriter → blocked s _ (GateLockWait gate)
| blocked_write gate : gt_readers (gate_of s gate) ≠ 0 → blocked s _ (GateLock gate)
| blocked_lock m : m ∈ sv_locked s → blocked s _ (Lock m).

Lemma executable B (e : op B) s : (∃ c r, exec B e c s = Some r) ∨ blocked s B e.
Proof.
  destruct e; try (left; exists inhabitant; eexists; reflexivity).
  - destruct (gt_writer (gate_of s gate)) eqn:Ew; [|right; constructor; congruence..].
    left. exists inhabitant. cbn. rewrite Ew. by eexists.
  - destruct (gt_writer (gate_of s gate)) eqn:Ew; [|right; constructor; congruence..].
    left. exists inhabitant. cbn. rewrite Ew. by eexists.
  - destruct (Z.eqb_spec (gt_readers (gate_of s gate)) 0) as [Er|Er]; [|right; by constructor].
    left. exists inhabitant. cbn. rewrite Er. by eexists.
  - destruct (decide (m ∈ sv_locked s)) as [Hm|Hm]; [right; by constructor|].
    left. exists inhabitant. cbn. rewrite bool_decide_false by done. by eexists.
  - left. exists inhabitant. cbn. destruct (ops_entries s !! key); by eexists.
Qed.

Abbreviation above := (above exec possible move rests order).

Lemma above_intro s n g :
  g ≠ nothing → (∀ B (e : op B) b, blocked s B e → is_Some (move _ e b g) → (n < order _ e)%nat) → above s n g.
Proof.
  intros Hg Hb. split; [by intros t|]. intros B e b _ Hm. destruct (executable B e s) as [?|?]; [by left|right; eauto].
Qed.

Lemma lock_level_high m : (1 < lock_level m)%nat.
Proof. destruct m; cbn; lia. Qed.

Lemma above_gate s k h g : h_gate g = Some (k, h) → above s (if decide (h = Reads) then 1 else 0) g.
Proof.
  intros Eg. apply above_intro; [by intros ->|]. intros B e b Hb [g' Hm]. pose proof lock_level_high as Hh.
  destruct Hb; apply allow_Some in Hm as [Hm _]; cbn.
  - destruct Hm as [E _]. congruence.
  - destruct Hm as [E _]. congruence.
  - destruct Hm as [E _]. rewrite decide_False; [lia|congruence].
  - specialize (Hh m). case_decide; lia.
Qed.

Lemma above_mutex s m g : m ∈ h_locks g → above s (lock_level m) g.
Proof.
  intros Hm. apply above_intro; [intros ->; by apply elem_of_nil in Hm|]. intros B e b Hb [g' Hg].
  assert (Hne : h_locks g ≠ []) by (intros E; rewrite E in Hm; by apply elem_of_nil in Hm).
  destruct Hb; apply allow_Some in Hg as [Hg _]; cbn.
  - by destruct Hg as (_ & E & _).
  - by destruct Hg as (_ & E & _).
  - by destruct Hg as (_ & E & _).
  - destruct Hg as [Hall _]. rewrite Forall_forall in Hall. by apply Hall.
Qed.

Lemma blocked_by db s gs B (e : op B) :
  inv db s gs → blocked s B e → ∃ j h, gs !! j = Some h ∧ above s (order _ e) h.
Proof.
  intros Hinv Hb.
  assert (Hgate : ∀ gate h, 0 < holders (at_the gate h) (h_gate <$> gs) →
    ∃ j g, gs !! j = Some g ∧ above s (if decide (h = Reads) then 1 else 0) g).
  { intros gate h (j & x & Hj & Hx)%holders_some. apply list_lookup_fmap_Some in Hj as (g & -> & Hj).
    exists j, g. split; [done|]. by eapply above_gate. }
  assert (Hwriter : ∀ gate, gt_writer (gate_of s gate) ≠ NoWriter → ∃ j g, gs !! j = Some g ∧ above s 0 g).
  { intros gate Hw. destruct (in_gates _ _ _ Hinv gate) as [_ H2 H3 _].
    destruct (gt_writer (gate_of s gate)) eqn:Ew; [done| |].
    - apply (Hgate gate Waits). by rewrite H2, one_true.
    - apply (Hgate gate Writes). by rewrite H3, one_true. }
  destruct Hb as [gate Hw|gate Hw|gate Hr|m Hm]; cbn.
  - by eapply Hwriter.
  - by eapply Hwriter.
  - destruct (in_gates _ _ _ Hinv gate) as [H1 _ _ _]. apply (Hgate gate Reads).
    pose proof (holders_nonneg (at_the gate Reads) (h_gate <$> gs)). lia.
  - assert (Ht : 0 < holders (holds m) (h_locks <$> gs)) by by rewrite (in_mutexes _ _ _ Hinv m), one_true.
    apply holders_some in Ht as (j & x & Hj & Hx). apply list_lookup_fmap_Some in Hj as (g & -> & Hj).
    exists j, g. split; [done|]. by apply above_mutex.
Qed.

Lemma always_possible B (e : op B) : ∃ b, possible _ e b.
Proof.
  destruct e; cbn;
    first [ by exists tt | by exists 0%Z | by exists 0%nat | by exists false | by exists None | by exists []
          | by exists Closing | by exists (Err ErrUserNotFound) | idtac ].
  eexists {| cc_ref := 0; cc_dataToken := "" |}. cbn. eauto.
Qed.

Lemma somebody_goes_on db s (pool : list (goroutine op goroutine_kind)) (i : nat) t p :
  running db (s, pool) → pool !! i = Some (t, Some p) → can_step exec body (s, pool).
Proof.
  apply (no_deadlock exec body possible move hand rests (inv db) order 5).
  - intros B e. destruct e; cbn; try lia. destruct m; cbn; lia.
  - exact always_possible.
  - intros B e s' gs j g Hinv Hj _. destruct (executable B e s') as [?|Hb]; [by left|right].
    by eapply blocked_by.
Qed.
End Runs.

(** ** Every run ends

    Only an authentication starts another goroutine. *)

Definition rank (t : goroutine_kind) : nat := match t with ClientAuth _ _ => 1 | _ => 0 end.

Definition simple {A} (p : go_prog A) : Prop := ∀ n, straight rank n (λ _, True) p.

Lemma simple_ret {A} (a : A) : simple (Ret a).
Proof. by intros n. Qed.
Lemma simple_act {B} (e : op B) : simple (act e).
Proof. by intros n b. Qed.
Lemma simple_seq {A B} (p : go_prog A) (f : A → go_prog B) : simple p → (∀ a, simple (f a)) → simple (seq p f).
Proof. intros Hp Hf n. eapply straight_seq; [apply Hp|]. intros a _. apply Hf. Qed.

Lemma simple_and_then a p : simple p → simple (and_then a p).
Proof. by destruct a. Qed.

Create HintDb simple.
#[export] Hint Resolve simple_ret simple_act : simple.

(** Goes through a program that has no loop of its own. *)
Ltac simply :=
  repeat first
    [ progress intros | progress cbv zeta
    | solve [auto with simple nocore]
    | apply simple_seq | apply simple_and_then
    | match goal with |- simple (if ?b then _ else _) => destruct b end
    | match goal with |- simple (match ?x with _ => _ end) => destruct x end ].

Lemma simple_ensure u : simple (ensureClientOwnerOperational u).
Proof. unfold ensureClientOwnerOperational. simply. Qed.
#[export] Hint Resolve simple_ensure : simple.

Lemma simple_acquire u epoch required : simple (acquireUserLifecycleRead u epoch required).
Proof. unfold acquireUserLifecycleRead. simply. Qed.
Lemma simple_current c : simple (clientLifecycleCurrentLocked c).
Proof. unfold clientLifecycleCurrentLocked. simply. Qed.
Lemma simple_release gate : simple (release gate).
Proof. unfold release. simply. Qed.
Lemma simple_ops_lock key : simple (ops_lock key).
Proof. unfold ops_lock. simply. Qed.
Lemma simple_ops_unlock key entry : simple (ops_unlock key entry).
Proof. unfold ops_unlock. simply. Qed.
Lemma simple_publish p : simple (publish p).
Proof. unfold publish. simply. Qed.
Lemma simple_participants owner epoch l : simple (participants_current owner epoch l).
Proof. induction l; cbn [participants_current]; simply. Qed.
#[export] Hint Resolve simple_acquire simple_current simple_release simple_ops_lock simple_ops_unlock
  simple_publish simple_participants : simple.

Lemma simple_acquire_stored stored epoch : simple (acquireStoredTunnelLifecycle stored epoch).
Proof. unfold acquireStoredTunnelLifecycle. simply. Qed.
#[export] Hint Resolve simple_acquire_stored : simple.

Lemma simple_stored_publication stored epoch : simple (withStoredTunnelPublication stored epoch).
Proof. unfold withStoredTunnelPublication. simply. Qed.
Lemma simple_publish_if_current stored task : simple (publish_if_current stored task).
Proof.
  unfold publish_if_current, unifiedTunnelReconcileTaskCurrentLocked, unifiedTunnelParticipantsCurrentLocked. simply.
Qed.
#[export] Hint Resolve simple_stored_publication simple_publish_if_current : simple.

Lemma simple_task_publication stored epoch task : simple (withUnifiedTunnelReconcilePublication stored epoch task).
Proof. unfold withUnifiedTunnelReconcilePublication. simply. Qed.
Lemma simple_client_publication final c : simple (withClientPublication final c).
Proof. unfold withClientPublication, isLive. simply. Qed.
Lemma simple_resource_mutation scope required : simple (acquireResourceMutation scope required).
Proof. unfold acquireResourceMutation. simply. Qed.
#[export] Hint Resolve simple_task_publication simple_client_publication simple_resource_mutation : simple.

Lemma simple_resource_request owner sessionID admin tunnel required :
  simple (resource_request owner sessionID admin tunnel required).
Proof. unfold resource_request, captureResourceScope, acquireResourceTunnelMutation. simply. Qed.
Lemma simple_close id generation c : simple (close_current id generation c).
Proof. unfold close_current. simply. Qed.
#[export] Hint Resolve simple_resource_request simple_close : simple.

Lemma simple_invalidate_locked id generation : simple (invalidateLogicalSessionIfCurrentLocked id generation).
Proof. unfold invalidateLogicalSessionIfCurrentLocked. simply. Qed.
#[export] Hint Resolve simple_invalidate_locked : simple.
Lemma simple_invalidate id generation : simple (invalidateLogicalSessionIfCurrent id generation).
Proof. unfold invalidateLogicalSessionIfCurrent. simply. Qed.
Lemma simple_attach_current c : simple (attach_current c).
Proof. unfold attach_current. simply. Qed.
Lemma simple_data_current c token : simple (data_current c token).
Proof. unfold data_current. simply. Qed.
Lemma simple_is_current id generation : simple (isCurrentGeneration id generation).
Proof. unfold isCurrentGeneration. simply. Qed.
#[export] Hint Resolve simple_invalidate simple_attach_current simple_data_current simple_is_current : simple.

Lemma simple_attach c : simple (attachDataSessionIfCurrent c).
Proof. unfold attachDataSessionIfCurrent. simply. Qed.
#[export] Hint Resolve simple_attach : simple.
Lemma simple_data id token : simple (handleDataWS id token).
Proof. unfold handleDataWS. simply. Qed.
Lemma simple_concurrent id : simple (concurrent_session id).
Proof. unfold concurrent_session. simply. Qed.
#[export] Hint Resolve simple_data simple_concurrent : simple.
Lemma simple_token req owner : simple (authenticate_token req owner).
Proof. unfold authenticate_token. simply. Qed.
Lemma simple_key req owner ip : simple (authenticate_key req owner ip).
Proof. unfold authenticate_key. simply. Qed.
#[export] Hint Resolve simple_token simple_key : simple.

Lemma simple_check : simple checkUserConvergenceContext.
Proof. unfold checkUserConvergenceContext. simply. Qed.
#[export] Hint Resolve simple_check : simple.
Lemma simple_owned userID keys : simple (owned_sessions userID keys).
Proof. induction keys; cbn [owned_sessions]; simply. Qed.
Lemma simple_detach refs : simple (detach_sessions refs).
Proof. induction refs as [|[]]; cbn [detach_sessions]; simply. Qed.
Lemma simple_invalidations refs : simple (invalidate_sessions refs).
Proof. induction refs as [|[]]; cbn [invalidate_sessions]; simply. Qed.
Lemma simple_residual userID keys : simple (client_residual userID keys).
Proof. induction keys; cbn [client_residual]; simply. Qed.
Lemma simple_or_return p k : simple p → simple k → simple (or_return p k).
Proof. unfold or_return. simply. Qed.
Lemma simple_or_incomplete p k : simple p → simple k → simple (or_incomplete p k).
Proof. unfold or_incomplete. simply. Qed.
#[export] Hint Resolve simple_owned simple_detach simple_invalidations simple_residual : simple.

Lemma simple_converge userID : simple (convergeUserRuntime userID).
Proof.
  unfold convergeUserRuntime. repeat first [apply simple_or_return | apply simple_or_incomplete | progress simply].
Qed.
Lemma simple_managed {A} (e : op A) : simple (with_user_management e).
Proof. unfold with_user_management. simply. Qed.
Lemma simple_write_gate path f : (∀ u, simple (f u)) → simple (with_write_gate path f).
Proof. unfold with_write_gate. simply. Qed.
#[export] Hint Resolve simple_converge simple_managed simple_write_gate : simple.

(** What an authentication does besides starting its timer. *)
Lemma straight_simple n {A B} (p : go_prog A) (f : A → go_prog B) (last : B → Prop) :
  simple p → (∀ a, straight rank n last (f a)) → straight rank n last (seq p f).
Proof. intros Hp Hf. eapply straight_seq; [apply Hp|]. intros a _. apply Hf. Qed.

Lemma straight_publish_client req owner ip epoch : straight rank 1 (λ _, True) (publish_client req owner ip epoch).
Proof.
  apply straight_simple; [simply|]. intros [clientID|]; [|done].
  apply straight_simple; [simply|]. intros [token|]; [|done].
  apply straight_simple; [simply|]. intros [[]|]; [|done].
  apply straight_simple; [simply|]. intros generation.
  apply straight_simple; [simply|]. intros [[]|]; [|done].
  apply straight_simple; [simply|]. intros client. cbn. split; [lia|done].
Qed.

Lemma straight_auth req ip : straight rank 1 (λ _, True) (handleAuth req ip).
Proof.
  apply straight_simple; [simply|]. intros [owner|]; [|done].
  apply straight_simple; [simply|]. intros [[epoch gate]|]; [|done].
  apply straight_simple; [simply|]. intros []. eapply straight_seq; [apply straight_publish_client|].
  intros client _. match goal with |- straight _ _ _ ?p => enough (Hp : simple p) by apply Hp end. simply.
Qed.

Lemma bodies_straight t : straight rank (rank t) ends (body t).
Proof.
  unfold body. eapply (straight_seq _ _ (λ _, True)); [|done]. destruct t; cbv beta iota.
  { eapply straight_seq; [apply straight_auth|done]. }
  all: match goal with |- straight _ _ _ ?p => enough (Hp : simple p) by apply Hp end;
    unfold handleAPIAdminUserDisable, handleAPIAdminUserEnable, handleAPIAdminUserDelete,
      handleAPIAdminUserSessionsRevoke; try apply simple_write_gate; simply.
Qed.
