(* ===== verification/LifecycleProps.v ===== *)
(** Properties of client sessions, publications and the disabling of users
    ([Lifecycle]), of every set of requests and every schedule. *)
From Stdlib Require Import ZArith Lia Ascii String Strings.Byte.
From stdpp Require Import base tactics numbers list gmap strings.
From S2P Require Import Prelude Records GoStrings GoIO GoTime GoUTF8 Activity AdminDB Users UsersInv Credentials Goroutines Progress Lifecycle LifecycleSpec LifecycleRules LifecycleFrames LifecycleLocks LifecycleInv LifecycleRuns.

Section Props.
Context {log : ActivityLog}.
Context (bcrypt_compare : string → string → bool) (apiKeyLookupDigest hashToken : string → string).

Abbreviation exec := (Lifecycle.exec bcrypt_compare apiKeyLookupDigest hashToken).
Abbreviation begun db ts := (idle_server db, start body <$> ts).

(** What a server has gone through after some run of some requests. *)
Definition reached (db : admin_db) (ts : list goroutine_kind) (st : server * list (goroutine op goroutine_kind)) : Prop :=
  ∃ sched, run exec body sched (begun db ts) = Some st.

Lemma reached_history db ts st :
  keyed db → reached db ts st →
  ∃ gs v, history (first_view db) (sv_log st.1) v ∧ agrees st.1 (omap h_open gs) v.
Proof.
  intros Hk (sched & Hr). apply runs in Hr as (gs & _ & Hinv); [|done].
  destruct (in_happened _ _ _ Hinv) as (v & ? & ?). eauto.
Qed.

(** A server that matches the abstract one. *)
Record implements (s : server) (v : view) : Prop := {
  im_epochs : ∀ gate, gt_epoch (gate_of s gate) = vw_epoch v gate;
  im_users : ∀ u, operational (sv_db s) u = vw_operational v u;
  im_table : sv_clients s = vw_clients v;
}.

(** C1: the server does nothing but what the abstract server of
    [LifecycleSpec] allows: after any schedule of any requests its events are a
    history of it, and its epochs, its operational users and its table of
    clients are those at the end of that history. *)
Theorem lifecycle_refinement db ts st :
  keyed db → reached db ts st →
  ∃ v, history (first_view db) (sv_log st.1) v ∧ implements st.1 v.
Proof.
  intros Hk Hr. destruct (reached_history _ _ _ Hk Hr) as (gs & v & Hh & [A1 A2 A3 _]). exists v.
  split; [done|]. by split.
Qed.




(** Two that exclude each other. *)
Definition excluded_by (p : publication) (ev : event) : Prop :=
  match ev with
  | Began q => pb_exclusive p = true ∧ pb_exclusive q = true
  | StatusSet u _ => gate_key (pb_owner p) = gate_key u
  | Bumped gate => gate_key (pb_owner p) = gate
  | _ => False
  end.

(** C22: while a publication is under way no other that needs the mutex of
    tunnel mutations begins if it needs it too, and neither the status of its
    owner nor the epoch of its owner's gate changes: those who disable, enable or
    delete a user wait for the publications for the user, and make them wait. *)
Theorem publications_exclude db ts st l p l' ev l'' :
  keyed db → reached db ts st → sv_log st.1 = l ++ Began p :: l' ++ ev :: l'' → Ended p ∉ l' →
  ¬ excluded_by p ev.
Proof.
  intros Hk Hr El Hne. destruct (reached_history _ _ _ Hk Hr) as (gs & v & Hh & _). rewrite El in Hh.
  apply history_at in Hh as (v1 & v2 & _ & Hb & H2). apply history_at in H2 as (v3 & v4 & H3 & Hev & _).
  assert (Hp : p ∈ vw_open v2) by (inversion Hb; apply list_elem_of_here).
  pose proof (open_remains _ _ _ _ Hp Hne H3) as Hp3.
  destruct Hev as [| | |q [_ _ _ Hx]| |u b Hq|gate Hq|]; cbn; try tauto.
  - intros [Ep Eq]. specialize (Hx Eq). rewrite Forall_forall in Hx. specialize (Hx _ Hp3). cbn in Hx. congruence.
  - unfold quiet in Hq. rewrite Forall_forall in Hq. by apply Hq.
  - unfold quiet in Hq. rewrite Forall_forall in Hq. by apply Hq.
Qed.



(** Nothing is held. *)
Definition unlocked (s : server) : Prop :=
  sv_locked s = ∅ ∧ ops_entries s = ∅ ∧
  ∀ gate, gt_readers (gate_of s gate) = 0 ∧ gt_writer (gate_of s gate) = NoWriter.

Lemma rest_unlocked db s gs : inv db s gs → Forall (λ g, g = nothing) gs → unlocked s.
Proof.
  intros [H1 H2 H3 _ _ _ _] Hg.
  assert (Hn : ∀ {X} (f : ghost → X) (i : nat) x, (f <$> gs) !! i = Some x → x = f nothing).
  { intros X f i x (g & -> & Hi)%list_lookup_fmap_Some. by rewrite (Forall_lookup_1 _ _ _ _ Hg Hi). }
  split; [|split].
  - apply set_eq. intros m. split; [|set_solver]. intros Hm. specialize (H2 m). rewrite (one_true _ Hm) in H2.
    rewrite holders_zero in H2; [done|]. intros i x ->%Hn. by intros ?%elem_of_nil.
  - apply map_eq. intros key. rewrite lookup_empty. apply eq_None_not_Some. intros [n Hkey].
    apply (eo_entry _ _ _ H3) in Hkey. rewrite <- (eo_refs _ _ _ H3), holders_zero in Hkey; [lia|].
    intros i x ->%Hn. by intros.
  - intros gate. destruct (H1 gate) as [Hr Hw Hx _].
    assert (Hz : ∀ h, holders (at_the gate h) (h_gate <$> gs) = 0).
    { intros h. apply holders_zero. intros i x ->%Hn. by intros. }
    rewrite Hz in Hr, Hw, Hx. split; [done|]. destruct (gt_writer (gate_of s gate)); done.
Qed.

Lemma returned_stuck s pool : Forall returned pool → ¬ can_step exec body (s, pool).
Proof.
  intros Hret (i & c & st' & Hs). cbn in Hs. destruct (pool !! i) as [[t p]|] eqn:Ei; [|done].
  pose proof (Forall_lookup_1 _ _ _ _ Hret Ei) as Hp. unfold returned in Hp. cbn in Hp. by subst p.
Qed.

(** C4: whatever the requests and the schedule, no run goes on for ever, and a
    server where nothing can be done any more has answered every request: nobody
    waits for a lock for good, and every gate, mutex and runtime operation has
    been given back. *)
Theorem requests_return db ts :
  keyed db →
  Acc (λ st' st, ∃ i c, step exec body i c st = Some st') (begun db ts) ∧
  ∀ s pool, reached db ts (s, pool) → ¬ can_step exec body (s, pool) → Forall returned pool ∧ unlocked s.
Proof.
  intros Hk. split; [by apply (runs_end exec body rank bodies_straight)|].
  intros s pool (sched & Hr) Hstuck. apply runs in Hr as Hd; [|done].
  assert (Hret : Forall returned pool).
  { apply Forall_lookup. intros i [t [p|]] Hi; [|done]. destruct Hstuck. by eapply somebody_goes_on. }
  split; [done|]. destruct Hd as (gs & Hf & Hinv). eapply rest_unlocked; [exact Hinv|]. cbn in Hf.
  clear -Hf Hret. induction Hf as [|[t p] g pool gs Hg _ IH]; [constructor|].
  apply Forall_cons in Hret as [Hp Hret]. unfold returned in Hp. cbn in Hp. subst p. constructor; [exact Hg|by apply IH].
Qed.
End Props.

#[export] Instance event_eq_dec : EqDecision event.
Proof. solve_decision. Defined.

(** ** A run

    A client of "bob" connects and publishes; a request of his overlaps with it,
    an administrator disables him meanwhile, another request asks for a new
    scope and goes on, and the administrator deletes him. *)
Section Samples.
Definition lc_user (id name : string) (admin : bool) : User := {|
  u_ID := id; u_Username := name; u_PasswordHash := ""; u_IsAdmin := admin; u_Status := UserStatusActive;
  u_CreatedAt := 1; u_UpdatedAt := 1; u_LastLogin := None; u_TOTPEnabled := false; u_TOTPSecret := "" |}.
Definition lc_client : RegisteredClient := {|
  cl_ID := "c1"; cl_OwnerUserID := "u2"; cl_InstallID := "i1"; cl_DisplayName := "lab";
  cl_Info := {| ci_Hostname := "lab"; ci_OS := ""; ci_Arch := ""; ci_IP := ""; ci_Version := "";
                ci_PublicIPv4 := ""; ci_PublicIPv6 := ""; ci_Capabilities := "" |};
  cl_IngressBPS := 0; cl_EgressBPS := 0; cl_CreatedAt := 1; cl_LastSeen := 1; cl_LastIP := "" |}.
Definition lc_token : ClientToken := {|
  tk_ID := "t1"; tk_TokenHash := "tok"; tk_InstallID := "i1"; tk_KeyID := "k1"; tk_ClientID := "c1";
  tk_CreatedAt := 1; tk_LastActiveAt := 1; tk_LastIP := ""; tk_IsRevoked := false |}.
Definition lc_db : admin_db :=
  empty_db <| users := {["u1" := lc_user "u1" "root" true; "u2" := lc_user "u2" "bob" false]} |>
           <| registered_clients := {["c1" := lc_client]} |> <| client_tokens := {["t1" := lc_token]} |>.
Definition lc_request : AuthRequest := {|
  ar_Token := "tok"; ar_Key := ""; ar_InstallID := "i1"; ar_Client := cl_Info lc_client |}.
Definition lc_plain (s : string) : string := s.
Definition lc_exec := (@Lifecycle.exec no_activity_log (λ _ _, false) lc_plain lc_plain).
Definition lc_calm : choice := {|
  ch_now := 10; ch_sql := None; ch_random := λ _, Ok []; ch_bool := true; ch_error := None; ch_keys := [];
  ch_token := Ok "data"; ch_tunnel := Ok None |}.
Definition lc_requests : list goroutine_kind :=
  [ClientAuth lc_request "203.0.113.9:4000"; DataChannel "c1" "data"; ClientPublication "c1" false;
   UserDisable "u1" "u2" systemActivityActor; ResourceRequest "u2" "" true true false; UserDelete "u1" "u2";
   ResourceRequest "u2" "" true false false].
Definition lc_schedule : list (nat * choice) :=
  let run_of (x : nat * nat) := replicate x.2 (x.1, lc_calm) in
  concat (run_of <$> [(0, 19); (1, 30); (2, 11); (6, 11); (3, 1); (2, 4); (3, 31); (7, 5); (4, 13); (5, 22)]%nat).
Definition lc_begun := (idle_server lc_db, start body <$> lc_requests).
Definition lc_end : server * list (goroutine op goroutine_kind) :=
  default lc_begun (run lc_exec body lc_schedule lc_begun).
Definition lc_log : list event := sv_log lc_end.1 .
Definition lc_event (i : nat) : event := nth i lc_log (Bumped "").
Definition lc_no_publication : publication := {|
  pb_owner := ""; pb_epoch := 0; pb_operational := false; pb_exclusive := false; pb_client := None; pb_task := None |}.
Definition lc_publication (i : nat) : publication :=
  match lc_event i with Began p => p | _ => lc_no_publication end.
End Samples.

Lemma lc_keyed : keyed lc_db.
Proof.
  intros id u. cbn. intros [[<- <-]|[_ [<- <-]%lookup_singleton_Some]]%lookup_insert_Some; done.
Qed.

Lemma lc_reached : reached (λ _ _, false) lc_plain lc_plain lc_db lc_requests lc_end.
Proof. exists lc_schedule. vm_compute. reflexivity. Qed.

Lemma lifecycle_refinement_witness :
  length lc_log = 15%nat ∧ ∃ v, history (first_view lc_db) lc_log v ∧ implements lc_end.1 v.
Proof.
  split; [vm_compute; reflexivity|]. exact (lifecycle_refinement _ _ _ _ _ _ lc_keyed lc_reached).
Defined.


(** The request that overlaps does not need the mutex. *)
Lemma publications_exclude_witness :
  lc_event 3 = Began (lc_publication 3) ∧ ¬ excluded_by (lc_publication 2) (lc_event 3).
Proof.
  split; [vm_compute; reflexivity|].
  apply (publications_exclude _ _ _ _ _ _ (take 2 lc_log) (lc_publication 2) [] (lc_event 3) (drop 4 lc_log) lc_keyed lc_reached).
  - vm_compute. reflexivity.
  - apply not_elem_of_nil.
Defined.


Lemma requests_return_witness :
  Forall returned lc_end.2 ∧ unlocked lc_end.1 ∧
  Acc (λ st' st, ∃ i c, step lc_exec body i c st = Some st') lc_begun.
Proof.
  destruct (requests_return (λ _ _, false) lc_plain lc_plain lc_db lc_requests lc_keyed) as [Hacc Hend].
  assert (Hret : Forall returned lc_end.2) by (vm_compute; repeat constructor).
  destruct (Hend lc_end.1 lc_end.2) as [? ?]; [rewrite <- surjective_pairing; exact lc_reached| |done].
  by apply returned_stuck.
Defined.
