(* ===== verification/WebhookModel.v ===== *)
(** Webhooks: their configuration, its validation, and the request that is
    rendered for an event (internal/server/webhook_model.go, webhook_template.go,
    webhook_catalog.go, webhook_locale.go, and the policy of webhook_net.go).

    Reading and writing JSON text, [url.ParseRequestURI] and [net.LookupIP] are
    arguments; a JSON value is a tree. *)
From Stdlib Require Import ZArith Lia Ascii String.
From stdpp Require Import base tactics numbers list gmap strings sorting pretty.
From S2P Require Import Prelude Records GoStrings GoIO GoNet GoCIDR GoTime GoUTF8 Activity.

Definition webhookMaxPerUser : Z := 50.
Definition webhookMaxHeaders : Z := 32.
Definition webhookMaxTargets : Z := 500.
Definition webhookTemplateMaxBytes : Z := 65536.
Definition webhookRenderedRequestMax : Z := 262144.
Definition activityIDMaxBytes : Z := 128.

Definition WebhookMethodGET : string := "GET".
Definition WebhookMethodPOST : string := "POST".
Definition WebhookTargetClient : string := "client".
Definition WebhookTargetTunnel : string := "tunnel".
Definition WebhookTargetAll : string := "all".
Definition WebhookTargetSelected : string := "selected".

Record WebhookHeader := { hd_ID : string; hd_Key : string; hd_Value : string }.

Record WebhookConfigInput := {
  in_ID : string; ExpectedRevision : Z; in_Name : string; in_Enabled : bool;
  in_TargetKind : string; in_TargetMode : string; in_TargetIDs : list string;
  in_Method : string; in_URL : string; in_Headers : list WebhookHeader; in_Body : string;
  in_Events : list string;
}.
#[export] Instance WebhookConfigInput_rebuild : Rebuild WebhookConfigInput := λ i, {|
  in_ID := in_ID i; ExpectedRevision := ExpectedRevision i; in_Name := in_Name i;
  in_Enabled := in_Enabled i; in_TargetKind := in_TargetKind i; in_TargetMode := in_TargetMode i;
  in_TargetIDs := in_TargetIDs i; in_Method := in_Method i; in_URL := in_URL i;
  in_Headers := in_Headers i; in_Body := in_Body i; in_Events := in_Events i |}.

Record webhookConfigSnapshot := {
  cf_ID : string; cf_Revision : Z; cf_Name : string; cf_TargetKind : string; cf_TargetMode : string;
  cf_TargetIDs : list string; cf_Method : string; cf_URL : string; cf_Headers : list WebhookHeader;
  cf_Body : string; cf_Events : list string;
}.

(** [input.snapshot(revision)] *)
Definition snapshot (input : WebhookConfigInput) (revision : Z) : webhookConfigSnapshot := {|
  cf_ID := in_ID input; cf_Revision := revision; cf_Name := in_Name input;
  cf_TargetKind := in_TargetKind input; cf_TargetMode := in_TargetMode input;
  cf_TargetIDs := in_TargetIDs input; cf_Method := in_Method input; cf_URL := in_URL input;
  cf_Headers := in_Headers input; cf_Body := in_Body input; cf_Events := in_Events input |}.

Record webhookClientSnapshot := {
  cl_ID : string; cl_Name : string; cl_Hostname : string; cl_Relation : string;
}.
Record webhookTunnelSnapshot := {
  tu_ID : string; tu_Name : string; tu_Type : string; tu_Topology : string; tu_Relation : string;
  tu_RuntimeState : string;
}.
Record webhookEventSnapshot := {
  ev_ID : string; ev_Type : string; ev_Severity : string; ev_OccurredAt : string;
  ev_Clients : list webhookClientSnapshot; ev_Tunnels : list webhookTunnelSnapshot;
  ev_MatchedTargetIDs : list string;
}.
#[export] Instance webhookEventSnapshot_rebuild : Rebuild webhookEventSnapshot := λ e, {|
  ev_ID := ev_ID e; ev_Type := ev_Type e; ev_Severity := ev_Severity e;
  ev_OccurredAt := ev_OccurredAt e; ev_Clients := ev_Clients e; ev_Tunnels := ev_Tunnels e;
  ev_MatchedTargetIDs := ev_MatchedTargetIDs e |}.

(** A [webhookValidationError]; the name a message quotes is appended. *)
Definition invalidWebhook (field code message : string) : goerror :=
  Errorf "webhookValidationError" [AStr field; AStr code; AStr message].
Definition is_validation (e : goerror) : bool :=
  match e with Errorf format _ => format =?s "webhookValidationError" | _ => false end.
Definition validation_code (e : goerror) : string :=
  match e with Errorf _ [_; AStr code; _] => code | _ => "" end.

(** ** The catalog *)

Definition webhookEventTargetKinds : gmap string string := list_to_map [
  ("client.online", WebhookTargetClient); ("client.offline", WebhookTargetClient);
  ("tunnel.stopped", WebhookTargetTunnel); ("tunnel.resumed", WebhookTargetTunnel);
  ("tunnel.runtime_changed", WebhookTargetTunnel); ("tunnel.runtime_error", WebhookTargetTunnel);
  ("tunnel.runtime_recovered", WebhookTargetTunnel); ("p2p.checking", WebhookTargetTunnel);
  ("p2p.connected", WebhookTargetTunnel); ("p2p.failed", WebhookTargetTunnel);
  ("p2p.fallback", WebhookTargetTunnel); ("p2p.session_closed", WebhookTargetTunnel)]%string.

#[global] Arguments webhookEventTargetKinds : simpl never.

Definition webhookRestrictedHeaders : gset string := list_to_set [
  "connection"; "content-length"; "host"; "transfer-encoding"; "user-agent"; "x-netsgo-delivery";
  "x-netsgo-event"; "x-netsgo-attempt"]%string.

(** [AvailableForEvents] is the text "all" or a list of events. *)
Inductive availability := AllEvents | OnlyEvents (events : list string).

Record WebhookVariable := {
  va_Key : string; va_Surfaces : list string; AvailableForEvents : availability;
}.

Definition tunnel_events : list string :=
  ["tunnel.stopped"; "tunnel.resumed"; "tunnel.runtime_changed"; "tunnel.runtime_error";
   "tunnel.runtime_recovered"]%string.

Definition webhookCatalogVariables : list WebhookVariable :=
  let every := ["url"; "header"; "body"]%string in
  let clientVariableEvents := (["client.online"; "client.offline"]%string ++ tunnel_events) in
  let var key surfaces available :=
    {| va_Key := key; va_Surfaces := surfaces; AvailableForEvents := available |} in
  [var "delivery.id" every AllEvents; var "delivery.attempt" ["body"%string] AllEvents;
   var "event.name.zh-CN" every AllEvents; var "event.name.en-US" every AllEvents;
   var "event.summary.zh-CN" every AllEvents; var "event.summary.en-US" every AllEvents;
   var "event.severity" every AllEvents; var "event.occurred_at" every AllEvents;
   var "client.id" every (OnlyEvents clientVariableEvents);
   var "client.name" every (OnlyEvents clientVariableEvents);
   var "tunnel.id" every (OnlyEvents tunnel_events); var "tunnel.name" every (OnlyEvents tunnel_events);
   var "tunnel.type" every (OnlyEvents tunnel_events);
   var "tunnel.topology" every (OnlyEvents tunnel_events);
   var "tunnel.runtime_state" every (OnlyEvents tunnel_events); var "webhook.name" every AllEvents]%string.

(** ** Human-readable text (webhook_locale.go) *)

Definition WebhookLocaleEnglish : string := "en-US".
Definition WebhookLocaleChinese : string := "zh-CN".
Definition supportedWebhookLocales : list string := [WebhookLocaleEnglish; WebhookLocaleChinese].

Definition webhookEventNames : gmap string (gmap string string) := list_to_map [
  (WebhookLocaleEnglish, list_to_map [
    ("client.online", "Client online"); ("client.offline", "Client offline");
    ("tunnel.stopped", "Tunnel stopped"); ("tunnel.resumed", "Tunnel re-enabled");
    ("tunnel.runtime_changed", "Tunnel runtime state changed");
    ("tunnel.runtime_error", "Tunnel runtime error");
    ("tunnel.runtime_recovered", "Tunnel runtime recovered"); ("p2p.checking", "P2P checking");
    ("p2p.connected", "P2P connected"); ("p2p.failed", "P2P connection failed");
    ("p2p.fallback", "P2P fell back to Server relay"); ("p2p.session_closed", "P2P session closed")]);
  (WebhookLocaleChinese, list_to_map [
    ("client.online", "客户端上线"); ("client.offline", "客户端离线");
    ("tunnel.stopped", "隧道已停止"); ("tunnel.resumed", "隧道已重新启用");
    ("tunnel.runtime_changed", "隧道运行状态改变"); ("tunnel.runtime_error", "隧道运行异常");
    ("tunnel.runtime_recovered", "隧道已从异常中恢复"); ("p2p.checking", "P2P 检查中");
    ("p2p.connected", "P2P 已直连"); ("p2p.failed", "P2P 直连失败");
    ("p2p.fallback", "回退到 Server 中继"); ("p2p.session_closed", "P2P 会话关闭")])]%string.

Definition webhookEventSummaryFormats : gmap string (gmap string string) := list_to_map [
  (WebhookLocaleEnglish, list_to_map [
    ("client.online", "%s came online"); ("client.offline", "%s went offline");
    ("tunnel.stopped", "%s was stopped"); ("tunnel.resumed", "%s was re-enabled");
    ("tunnel.runtime_changed", "%s runtime state changed");
    ("tunnel.runtime_error", "%s encountered a runtime error");
    ("tunnel.runtime_recovered", "%s recovered from a runtime error")]);
  (WebhookLocaleChinese, list_to_map [
    ("client.online", "%s 已上线"); ("client.offline", "%s 已离线"); ("tunnel.stopped", "%s 已停止");
    ("tunnel.resumed", "%s 已重新启用"); ("tunnel.runtime_changed", "%s 运行状态已改变");
    ("tunnel.runtime_error", "%s 运行异常"); ("tunnel.runtime_recovered", "%s 已从运行异常中恢复")])]%string.

(** The text of an event in a locale's table; a missing entry is the empty text. *)
Definition localized (table : gmap string (gmap string string)) (locale event : string) : string :=
  default ""%string (table !! locale ≫= lookup event).

(** [fmt.Sprintf(format, arg)] for a format with one [%s]. *)
Fixpoint Sprintf (format arg : string) : string :=
  match format with
  | String "%" (String "s" rest) => arg +:+ rest
  | String c rest => String c (Sprintf rest arg)
  | "" => ""
  end%string.

Definition localizeWebhookEvent (e : webhookEventSnapshot) (locale : string) : string * string :=
  let name := localized webhookEventNames locale (ev_Type e) in
  let name := if name =?s "" then ev_Type e else name in
  let format := localized webhookEventSummaryFormats locale (ev_Type e) in
  let subjectName :=
    match ev_Clients e, ev_Tunnels e with
    | [client], _ => cl_Name client
    | _, [tunnel] => tu_Name tunnel
    | _, _ => ""%string
    end in
  (name, if negb (format =?s "") && negb (subjectName =?s "") then Sprintf format subjectName else name).

(** ** The values of the variables *)

(** What the code puts into a [map[string]any] of values. *)
Inductive webhook_value := VText (s : string) | VInt (z : Z).
Notation webhook_values := (gmap string webhook_value).

Definition webhookValueText (value : webhook_value) : string :=
  match value with VText s => s | VInt z => pretty z end.

Fixpoint owner_client (clients : list webhookClientSnapshot) : option webhookClientSnapshot :=
  match clients with
  | [] => None
  | client :: clients => if cl_Relation client =?s "owner" then Some client else owner_client clients
  end.

(** [snapshot.values(deliveryID, webhookID, webhookName)] *)
Definition values (e : webhookEventSnapshot) (deliveryID webhookID webhookName : string) : webhook_values :=
  let v : webhook_values := list_to_map [
    ("delivery.id", VText deliveryID); ("delivery.attempt", VInt 1); ("event.id", VText (ev_ID e));
    ("event.type", VText (ev_Type e)); ("event.severity", VText (ev_Severity e));
    ("event.occurred_at", VText (ev_OccurredAt e)); ("webhook.id", VText webhookID);
    ("webhook.name", VText webhookName)]%string in
  let v := foldl (λ v locale,
    let '(name, summary) := localizeWebhookEvent e locale in
    <["event.summary." +:+ locale := VText summary]> (<["event.name." +:+ locale := VText name]> v))%string
    v supportedWebhookLocales in
  let client :=
    if (length (ev_Clients e) =? 1)%nat && has_prefix (ev_Type e) "client." then head (ev_Clients e)
    else if has_prefix (ev_Type e) "tunnel." then owner_client (ev_Clients e) else None in
  let v := match client with
           | Some c => <["client.name" := VText (cl_Name c)]> (<["client.id" := VText (cl_ID c)]> v)
           | None => v
           end%string in
  match ev_Tunnels e with
  | [t] => if has_prefix (ev_Type e) "tunnel."
           then <["tunnel.runtime_state" := VText (tu_RuntimeState t)]>
                (<["tunnel.topology" := VText (tu_Topology t)]> (<["tunnel.type" := VText (tu_Type t)]>
                (<["tunnel.name" := VText (tu_Name t)]> (<["tunnel.id" := VText (tu_ID t)]> v))))%string
           else v
  | _ => v
  end.

(** [strings.ReplaceAll(s, ".", "_")] *)
Fixpoint dots_to_underscores (s : string) : string :=
  match s with
  | "" => ""
  | String "." s => String "_" (dots_to_underscores s)
  | String c s => String c (dots_to_underscores s)
  end%string.

Definition sampleWebhookEvent (eventType : string) : webhookEventSnapshot :=
  let client := {| cl_ID := "client_test_node"; cl_Name := "Test client node";
                   cl_Hostname := "test-client-node"; cl_Relation := "" |} in
  let peer := {| cl_ID := "client_test_peer"; cl_Name := "Test peer node";
                 cl_Hostname := "test-peer-node"; cl_Relation := "" |} in
  let owner := {| cl_ID := cl_ID client; cl_Name := cl_Name client;
                  cl_Hostname := cl_Hostname client; cl_Relation := "owner" |} in
  let service state := {| tu_ID := "tunnel_test_service"; tu_Name := "Test service tunnel";
    tu_Type := "https"; tu_Topology := "server_expose"; tu_Relation := ""; tu_RuntimeState := state |} in
  let p2p := {| tu_ID := "tunnel_test_p2p"; tu_Name := "Test P2P tunnel"; tu_Type := "tcp";
    tu_Topology := "client_to_client"; tu_Relation := ""; tu_RuntimeState := "active" |} in
  let event severity clients tunnels matched := {|
    ev_ID := "evt_sample_" +:+ dots_to_underscores eventType; ev_Type := eventType;
    ev_Severity := severity; ev_OccurredAt := "2026-08-21T10:42:16+08:00"; ev_Clients := clients;
    ev_Tunnels := tunnels; ev_MatchedTargetIDs := matched |} in
  let tunnel_event severity state :=
    event severity [owner] [service state] [tu_ID (service state)] in
  let p2p_event severity :=
    event severity [client; peer] [p2p; service "active"] [tu_ID p2p; tu_ID (service "active")] in
  (if eventType =?s "client.online" then event "info" [client] [] [cl_ID client] else
   if eventType =?s "client.offline" then event "warning" [client] [] [cl_ID client] else
   if eventType =?s "tunnel.stopped" then tunnel_event "info" "idle" else
   if eventType =?s "tunnel.resumed" then tunnel_event "info" "active" else
   if eventType =?s "tunnel.runtime_changed" then tunnel_event "debug" "active" else
   if eventType =?s "tunnel.runtime_error" then tunnel_event "error" "error" else
   if eventType =?s "tunnel.runtime_recovered" then tunnel_event "info" "active" else
   if eventType =?s "p2p.checking" then p2p_event "debug" else
   if (eventType =?s "p2p.failed") || (eventType =?s "p2p.fallback") then p2p_event "warning" else
   if (eventType =?s "p2p.connected") || (eventType =?s "p2p.session_closed") then p2p_event "info"
   else event "" [] [] [])%string.

(** [catalog.Fixtures[event]] *)
Definition fixture (event : string) : option webhook_values :=
  if decide (is_Some (webhookEventTargetKinds !! event))
  then Some (values (sampleWebhookEvent event) ("dlv_sample_" +:+ dots_to_underscores event)
                    "wh_sample" "Test webhook")%string
  else None.

(** ** Templates (webhook_template.go) *)

(** The bytes before the first closing brace, and the rest. *)
Fixpoint before_brace (s : string) : string * string :=
  match s with
  | "" => ("", "")
  | String c rest => if Ascii.eqb c "}" then ("", s) else let '(run, rest) := before_brace rest in (String c run, rest)
  end%string.

(** [webhookTokenPattern] at the beginning of the text: two braces, a run of
    one or more bytes without a closing brace, two closing braces.  The key,
    white space around it removed, and what follows the token. *)
Definition token_at (s : string) : option (string * string) :=
  match strip_prefix "{{" s with
  | None => None
  | Some s => let '(run, rest) := before_brace s in
              if run =?s "" then None else (run,.) <$> strip_prefix "}}" rest
  end%string.

(** The leftmost tokens of a text that do not overlap, each replaced; the
    first [skip] bytes belong to a token already replaced. *)
Fixpoint replace_tokens (replacement : string → string) (skip : nat) (s : string) : string :=
  match s with
  | "" => ""
  | String c rest =>
      match skip with
      | S skip => replace_tokens replacement skip rest
      | O => match token_at s with
             | Some (run, _) => replacement run +:+ replace_tokens replacement (String.length run + 3) rest
             | None => String c (replace_tokens replacement 0 rest)
             end
      end
  end%string.

(** [webhookTokenPattern.FindAllStringSubmatch(value, -1)], the keys *)
Fixpoint token_keys (skip : nat) (s : string) : list string :=
  match s with
  | ""%string => []
  | String c rest =>
      match skip with
      | S skip => token_keys skip rest
      | O => match token_at s with
             | Some (run, _) => trim_space run :: token_keys (String.length run + 3) rest
             | None => token_keys 0 rest
             end
      end
  end.

Definition hex_upper (n : N) : ascii := ascii_of_N (if n <? 10 then 48 + n else 55 + n)%N.
Definition unreserved (c : ascii) : bool :=
  let b := N_of_ascii c in
  in_range 97 122 b || in_range 65 90 b || in_range 48 57 b || existsb (Ascii.eqb c)
    ["-"; "_"; "."; "!"; "~"; "*"; "'"; "("; ")"]%char.
Fixpoint encodeURIComponent (value : string) : string :=
  match value with
  | "" => ""
  | String b rest =>
      if unreserved b then String b (encodeURIComponent rest) else
      String "%" (String (hex_upper (N_of_ascii b / 16)) (String (hex_upper (N_of_ascii b mod 16))
        (encodeURIComponent rest)))
  end%string.

(** What stands for a token: the value of its variable, or the token itself. *)
Definition token_text (v : webhook_values) (encode : bool) (run : string) : string :=
  match v !! trim_space run with
  | None => "{{" +:+ run +:+ "}}"
  | Some value => let text := webhookValueText value in
                  if encode then encodeURIComponent text else text
  end%string.

Definition renderWebhookText (value : string) (v : webhook_values) (encode : bool) : string :=
  replace_tokens (token_text v encode) 0 value.

(** A JSON value as [Decoder] with [UseNumber] reads it. *)
Inductive json :=
| JNull | JBool (b : bool) | JNumber (digits : string) | JString (s : string)
| JArray (l : list json) | JObject (l : list (string * json)).
Definition json_of_value (value : webhook_value) : json :=
  match value with VText s => JString s | VInt z => JNumber (pretty z) end.

(** The variable a text consists of, if it is one token ([webhookExactTokenPattern]). *)
Definition exact_value (s : string) (v : webhook_values) : option webhook_value :=
  match token_at s with
  | Some (run, ""%string) => v !! trim_space run
  | _ => None
  end.

Fixpoint renderWebhookJSONValue (v : webhook_values) (value : json) : json :=
  match value with
  | JString s => match exact_value s v with
                 | Some replacement => json_of_value replacement
                 | None => JString (renderWebhookText s v false)
                 end
  | JArray l => JArray (map (renderWebhookJSONValue v) l)
  | JObject l => JObject (map (λ '(key, entry), (key, renderWebhookJSONValue v entry)) l)
  | _ => value
  end.

Record renderedWebhookRequest := {
  rq_Method : string; rq_URL : string; rq_Headers : gmap string string; rq_Body : option string;
}.
Definition size (r : renderedWebhookRequest) : Z :=
  strlen (rq_Method r) + strlen (rq_URL r)
  + map_fold (λ key value n, n + (strlen key + strlen value)) 0 (rq_Headers r)
  + match rq_Body r with Some body => strlen body | None => 0 end.

Definition surfaceField (surface : string) : string :=
  if surface =?s "header" then "headers" else surface.

Definition webhookVariableSupportsEvents (variable : WebhookVariable) (events : list string) : bool :=
  match AvailableForEvents variable with
  | AllEvents => true
  | OnlyEvents available =>
      match events with [] => false | _ => forallb (λ e, bool_decide (e ∈ available)) events end
  end.

(** [byKey[key]]: the last variable with the key. *)
Definition by_key (variables : list WebhookVariable) (key : string) : option WebhookVariable :=
  last (filter (λ v, va_Key v = key) variables).

Definition webhookTemplateIssues (value : string) (events : list string) (surface : string)
    (variables : list WebhookVariable) : list goerror :=
  flat_map (λ key,
    match by_key variables key with
    | None => [invalidWebhook (surfaceField surface) "unknown_variable" ("unknown Webhook variable " +:+ key)]
    | Some variable =>
        if negb (bool_decide (surface ∈ va_Surfaces variable))
        then [invalidWebhook (surfaceField surface) "unsupported_surface"
                ("Webhook variable " +:+ key +:+ " is unavailable here")] else
        if negb (webhookVariableSupportsEvents variable events)
        then [invalidWebhook (surfaceField surface) "unavailable_variable"
                ("Webhook variable " +:+ key +:+ " is unavailable for the selected events")]
        else []
    end%string) (token_keys 0 value).

(** ** Which addresses may be called (webhook_net.go) *)

Definition webhookBlockedIPv4Ranges : list string :=
  ["0.0.0.0/8"; "10.0.0.0/8"; "100.64.0.0/10"; "127.0.0.0/8"; "169.254.0.0/16"; "172.16.0.0/12";
   "192.0.0.0/24"; "192.0.2.0/24"; "192.88.99.0/24"; "192.168.0.0/16"; "198.18.0.0/15";
   "198.51.100.0/24"; "203.0.113.0/24"; "240.0.0.0/4"]%string.
Definition webhookBlockedIPv6Ranges : list string :=
  ["::/128"; "::1/128"; "64:ff9b::/96"; "64:ff9b:1::/48"; "100::/64"; "2001:db8::/32"; "2002::/16";
   "fc00::/7"; "fe80::/10"; "ff00::/8"]%string.
(** The constants parse, so nothing panics. *)
Definition mustWebhookCIDRs (ranges : list string) : list IPNet := omap ParseCIDR ranges.

(** The methods of [net.IP]; an IPv4 address may be in its long form. *)
Definition byte_at (i : nat) (ip : IP) : Z :=
  match ip !! i with Some b => Z.of_N (Byte.to_N b) | None => 0 end.
Definition IP_Equal (a b : IP) : bool :=
  bool_decide (a = b) ||
  match To16 a, To16 b with Some a, Some b => bool_decide (a = b) | _, _ => false end.
Definition IPv6zero : IP := replicate 16 Byte.x00.
Definition IPv6loopback : IP := replicate 15 Byte.x00 ++ [Byte.x01].
Definition IsUnspecified (ip : IP) : bool :=
  IP_Equal ip (v4InV6Prefix ++ replicate 4 Byte.x00) || IP_Equal ip IPv6zero.
Definition IsLoopback (ip : IP) : bool :=
  match To4 ip with Some ip4 => byte_at 0 ip4 =? 127 | None => IP_Equal ip IPv6loopback end.
Definition IsMulticast (ip : IP) : bool :=
  match To4 ip with
  | Some ip4 => Z.land (byte_at 0 ip4) 0xf0 =? 0xe0
  | None => (length ip =? 16)%nat && (byte_at 0 ip =? 0xff)
  end.
Definition IsLinkLocalUnicast (ip : IP) : bool :=
  match To4 ip with
  | Some ip4 => (byte_at 0 ip4 =? 169) && (byte_at 1 ip4 =? 254)
  | None => (length ip =? 16)%nat && (byte_at 0 ip =? 0xfe) && (Z.land (byte_at 1 ip) 0xc0 =? 0x80)
  end.
Definition IsLinkLocalMulticast (ip : IP) : bool :=
  match To4 ip with
  | Some ip4 => (byte_at 0 ip4 =? 224) && (byte_at 1 ip4 =? 0) && (byte_at 2 ip4 =? 0)
  | None => (length ip =? 16)%nat && (byte_at 0 ip =? 0xff) && (Z.land (byte_at 1 ip) 0x0f =? 0x02)
  end.

(** [nil] is the empty list of bytes. *)
Definition webhookAddressAllowed (ip : IP) : bool :=
  if bool_decide (ip = []) || IsUnspecified ip then false else
  match To4 ip with
  | Some v4 => negb (existsb (λ n, IPNet_Contains n v4) (mustWebhookCIDRs webhookBlockedIPv4Ranges))
  | None =>
      if IsLoopback ip || IsLinkLocalUnicast ip || IsLinkLocalMulticast ip || IsMulticast ip then false else
      negb (existsb (λ n, IPNet_Contains n ip) (mustWebhookCIDRs webhookBlockedIPv6Ranges))
  end.

(** [strings.Trim(host, "[]")] *)
Definition urlHostname (host : string) : string :=
  match SplitHostPort host with
  | Some (hostname, _) => hostname
  | None => trim_bytes host "[]"
  end.

Fixpoint validWebhookHeaderValue (value : string) : bool :=
  match value with
  | ""%string => true
  | String c value =>
      let b := N_of_ascii c in
      if (b =? 9)%N then validWebhookHeaderValue value else
      if (b <? 32)%N || (b =? 127)%N then false else validWebhookHeaderValue value
  end.

(** ** Normalising the input *)

Fixpoint unique_strings (seen : gset string) (l : list string) : list string :=
  match l with
  | [] => []
  | value :: l =>
      let value := trim_space value in
      if (value =?s "") || bool_decide (value ∈ seen) then unique_strings seen l
      else value :: unique_strings ({[value]} ∪ seen) l
  end.
Definition uniqueNonEmptyStrings (l : list string) : list string := unique_strings ∅ l.

Definition normalizeWebhookInput (input : WebhookConfigInput) : WebhookConfigInput :=
  let all := in_TargetMode input =?s WebhookTargetAll in
  input <| in_ID := trim_space (in_ID input) |> <| in_Name := trim_space (in_Name input) |>
    <| in_URL := trim_space (in_URL input) |>
    <| in_TargetIDs := uniqueNonEmptyStrings (if all then [] else in_TargetIDs input) |>
    <| in_Events := uniqueNonEmptyStrings (in_Events input) |>
    <| in_Headers := (λ h, {| hd_ID := trim_space (hd_ID h); hd_Key := trim_space (hd_Key h);
                              hd_Value := hd_Value h |}) <$> in_Headers input |>.

(** [webhookIDPattern] and [webhookHeaderPattern] *)
Definition alphanumeric (c : ascii) : bool :=
  let b := N_of_ascii c in in_range 97 122 b || in_range 65 90 b || in_range 48 57 b.
Definition valid_webhook_id (id : string) : bool :=
  match id with
  | String c rest => alphanumeric c && (String.length rest <=? 127)%nat &&
                     all_bytes (λ c, alphanumeric c || Ascii.eqb c "_" || Ascii.eqb c "-") rest
  | _ => false
  end.
Definition header_byte (c : ascii) : bool :=
  alphanumeric c || existsb (Ascii.eqb c)
    ["!"; "#"; "$"; "%"; "&"; "'"; "*"; "+"; "."; "^"; "_"; "`"; "|"; "~"; "-"]%char.
Definition valid_header_key (key : string) : bool := negb (key =?s "") && all_bytes header_byte key.

(** Fails with the first error of a list of checks. *)
Fixpoint first_error (checks : list (result unit)) : result unit :=
  match checks with
  | [] => Ok tt
  | Ok _ :: checks => first_error checks
  | Err e :: _ => Err e
  end.
Definition refuse (b : bool) (e : goerror) : result unit := if b then Err e else Ok tt.
Definition first_issue (issues : list goerror) : result unit :=
  match issues with [] => Ok tt | issue :: _ => Err issue end.

Record request_uri := { ur_Scheme : string; ur_Host : string; ur_Hostname : string }.

Section Rendering.
(** [Decoder.Decode] with [UseNumber], which reads the first value of the text;
    [json.Unmarshal]; [Encoder.Encode] with an indentation of two spaces. *)
Context (Decode Unmarshal : string → result json) (Encode : json → string).

Definition renderWebhookJSON (body : string) (v : webhook_values) : result string :=
  match Decode body with
  | Err e => Err (Wrapf "decode Webhook JSON template: %w" e)
  | Ok value => Ok (Encode (renderWebhookJSONValue v value))
  end.

Definition rendered_headers (config : webhookConfigSnapshot) (v : webhook_values) (attempt : Z)
    : gmap string string :=
  let h := foldl (λ h header,
    if trim_space (hd_Key header) =?s "" then h
    else <[trim_space (hd_Key header) := renderWebhookText (hd_Value header) v false]> h) ∅ (cf_Headers config) in
  let text key := match v !! key with Some value => webhookValueText value | None => ""%string end in
  <["X-NetsGo-Attempt" := pretty attempt]> (<["X-NetsGo-Event" := text "event.id"]>
    (<["X-NetsGo-Delivery" := text "delivery.id"]> (<["User-Agent" := "NetsGo-Webhook/1"]> h)))%string.

Definition renderWebhookRequest (config : webhookConfigSnapshot) (baseValues : webhook_values)
    (attempt : Z) : result renderedWebhookRequest :=
  let v := <["webhook.name" := VText (cf_Name config)]> (<["webhook.id" := VText (cf_ID config)]>
             (<["delivery.attempt" := VInt attempt]> baseValues))%string in
  let headers := rendered_headers config v attempt in
  let url := renderWebhookText (cf_URL config) v true in
  body ← (if cf_Method config =?s WebhookMethodPOST
          then Some <$> renderWebhookJSON (cf_Body config) v else Ok None);
  let request := {| rq_Method := cf_Method config; rq_URL := url; rq_Headers := headers; rq_Body := body |} in
  if webhookRenderedRequestMax <? size request
  then Err (Errorf "rendered Webhook request exceeds %d bytes" [AInt webhookRenderedRequestMax])
  else Ok request.

Definition headers_printable (headers : gmap string string) : bool :=
  forallb (λ h, validWebhookHeaderValue h.2) (map_to_list headers).

(** [url.ParseRequestURI], and [net.LookupIP]. *)
Context (ParseRequestURI : string → result request_uri) (LookupIP : string → result (list IP)).

Definition webhookHostBlocked (host : string) : bool :=
  let host := urlHostname host in
  if host =?s "" then true else
  match ParseIP host with
  | Some ip => negb (webhookAddressAllowed ip)
  | None => match LookupIP host with
            | Err _ => false
            | Ok ips => existsb (λ ip, negb (webhookAddressAllowed ip)) ips
            end
  end.

Definition validate_target (id : string) : result unit :=
  refuse ((activityIDMaxBytes <? strlen id) || negb (ValidString id))
    (invalidWebhook "targets" "invalid_target" "Webhook target id is invalid").

Definition validate_event (input : WebhookConfigInput) (event : string) : result unit :=
  match webhookEventTargetKinds !! event with
  | None => Err (invalidWebhook "events" "unknown_event" ("unsupported Webhook event " +:+ event))
  | Some kind => refuse (negb (kind =?s in_TargetKind input))
      (invalidWebhook "events" "event_target_mismatch" "Webhook event does not match target kind")
  end.

Fixpoint validate_headers (input : WebhookConfigInput) (variables : list WebhookVariable)
    (seen : gset string) (headers : list WebhookHeader) : result unit :=
  match headers with
  | [] => Ok tt
  | h :: headers =>
      if (hd_Key h =?s "") && (trim_space (hd_Value h) =?s "")
      then validate_headers input variables seen headers else
      let key := lower_ascii (hd_Key h) in
      first_error [
        refuse (negb (valid_header_key (hd_Key h)) || has_byte "013" (hd_Value h) || has_byte "010" (hd_Value h))
          (invalidWebhook "headers" "invalid_header" "Webhook header is invalid");
        refuse (bool_decide (key ∈ seen))
          (invalidWebhook "headers" "duplicate_header" "Webhook header is duplicated");
        refuse (bool_decide (key ∈ webhookRestrictedHeaders))
          (invalidWebhook "headers" "restricted_header" "Webhook header is managed by NetsGo");
        refuse (8192 <? strlen (hd_Value h))
          (invalidWebhook "headers" "too_long" "Webhook header value is too long");
        first_issue (webhookTemplateIssues (hd_Value h) (in_Events input) "header" variables);
        validate_headers input variables ({[key]} ∪ seen) headers]
  end.

Definition validate_body (input : WebhookConfigInput) (variables : list WebhookVariable) : result unit :=
  if negb (in_Method input =?s WebhookMethodPOST) then Ok tt else
  match Unmarshal (in_Body input) with
  | Err _ => Err (invalidWebhook "body" "invalid_json" "Webhook body must be valid JSON")
  | Ok (JObject _) => first_issue (webhookTemplateIssues (in_Body input) (in_Events input) "body" variables)
  | Ok _ => Err (invalidWebhook "body" "body_must_be_object" "Webhook body must be a JSON object")
  end.

(** The request of an event's sample; the message of a request that cannot be
    rendered is that of the error. *)
Definition validate_sample (input : WebhookConfigInput) (fixtures : string → option webhook_values)
    (allowPrivateTargets : bool) (event : string) : result unit :=
  match fixtures event with
  | None => Err (invalidWebhook "events" "missing_fixture" "Webhook event sample is unavailable")
  | Some v =>
      let v := <["webhook.name" := VText (in_Name input)]> (<["webhook.id" := VText (in_ID input)]> v)%string in
      match renderWebhookRequest (snapshot input (Z.max (ExpectedRevision input) 1)) v 1 with
      | Err _ => Err (invalidWebhook "body" "invalid_template" "Webhook template is invalid")
      | Ok rendered =>
          match ParseRequestURI (rq_URL rendered) with
          | Err _ => Err (invalidWebhook "url" "invalid_url" "Webhook URL is invalid after rendering")
          | Ok parsed => first_error [
              refuse (ur_Host parsed =?s "")
                (invalidWebhook "url" "invalid_url" "Webhook URL is invalid after rendering");
              refuse (negb (ur_Scheme parsed =?s "http") && negb (ur_Scheme parsed =?s "https"))
                (invalidWebhook "url" "invalid_url_scheme" "Webhook URL must use HTTP or HTTPS");
              refuse (negb allowPrivateTargets && webhookHostBlocked (ur_Hostname parsed))
                (invalidWebhook "url" "url_target_not_allowed"
                   "Webhook URL targets a private address; allow private targets in server settings first");
              refuse (negb (headers_printable (rq_Headers rendered)))
                (invalidWebhook "headers" "invalid_header_value" "Webhook header renders to an invalid value");
              refuse (webhookRenderedRequestMax <? size rendered)
                (invalidWebhook "body" "rendered_request_too_large" "rendered Webhook request is too large")]
          end
      end
  end.

Definition validateWebhookInput (input : WebhookConfigInput) (fixtures : string → option webhook_values)
    (variables : list WebhookVariable) (allowPrivateTargets : bool) : result unit :=
  first_error ([
    refuse (negb (valid_webhook_id (in_ID input))) (invalidWebhook "id" "invalid_id" "Webhook id is invalid");
    refuse (in_Name input =?s "") (invalidWebhook "name" "required" "Webhook name is required");
    refuse (120 <? Z.of_nat (length (runes (in_Name input)))) (invalidWebhook "name" "too_long" "Webhook name is too long");
    refuse (negb (validWebhookHeaderValue (in_Name input)))
      (invalidWebhook "name" "invalid_name" "Webhook name must not contain control characters");
    refuse (negb (in_TargetKind input =?s WebhookTargetClient) && negb (in_TargetKind input =?s WebhookTargetTunnel))
      (invalidWebhook "target_kind" "invalid_target_kind" "Webhook target kind is invalid");
    refuse (negb (in_TargetMode input =?s WebhookTargetAll) && negb (in_TargetMode input =?s WebhookTargetSelected))
      (invalidWebhook "target_mode" "invalid_target_mode" "Webhook target mode is invalid");
    refuse ((in_TargetMode input =?s WebhookTargetSelected) && bool_decide (in_TargetIDs input = []))
      (invalidWebhook "targets" "required" "at least one target is required");
    refuse (webhookMaxTargets <? Z.of_nat (length (in_TargetIDs input)))
      (invalidWebhook "targets" "too_many" "too many Webhook targets")]
    ++ (validate_target <$> in_TargetIDs input) ++ [
    refuse (bool_decide (in_Events input = [])) (invalidWebhook "events" "required" "at least one event is required")]
    ++ (validate_event input <$> in_Events input) ++ [
    refuse (negb (in_Method input =?s WebhookMethodGET) && negb (in_Method input =?s WebhookMethodPOST))
      (invalidWebhook "method" "invalid_method" "Webhook method must be GET or POST");
    refuse (in_URL input =?s "") (invalidWebhook "url" "required" "Webhook URL is required");
    refuse (8192 <? strlen (in_URL input)) (invalidWebhook "url" "too_long" "Webhook URL is too long");
    first_issue (webhookTemplateIssues (in_URL input) (in_Events input) "url" variables);
    refuse (webhookMaxHeaders <? Z.of_nat (length (in_Headers input)))
      (invalidWebhook "headers" "too_many" "too many Webhook headers");
    validate_headers input variables ∅ (in_Headers input);
    refuse (webhookTemplateMaxBytes <? strlen (in_Body input))
      (invalidWebhook "body" "too_long" "Webhook JSON body is too large");
    validate_body input variables]
    ++ (validate_sample input fixtures allowPrivateTargets <$> in_Events input)).
End Rendering.
