(* ===== verification/WebhookQueue.v ===== *)
(** The queue of webhook deliveries (internal/server/webhook_store.go,
    webhook_dispatcher.go, webhook_activity.go, migrations/014_activity_webhooks.sql):
    the tables, and every transaction on them as a function on the database.

    The store has one connection, so transactions do not overlap.  One that
    fails leaves the database as it was; [commit] says so.  A time is
    [UnixNano], a column written as JSON holds what reading it gives. *)
From Stdlib Require Import ZArith Lia Ascii String.
From stdpp Require Import base tactics numbers list gmap strings sorting pretty.
From S2P Require Import Prelude Records GoStrings GoIO GoNet GoTime GoUTF8 Activity WebhookModel.

Definition webhookMaxPendingPerUser : Z := 1000.
Definition webhookDeliveryHistoryLimit : Z := 1000.
Definition webhookUserStartInterval : Z := 2 * second.
Definition webhookDeliveryLease : Z := 30 * second.
Definition webhookRetryAfterMax : Z := 5 * minute.
Definition webhookDispatchBatch : Z := 32.

Definition ErrWebhookNotFound : goerror := Sentinel "webhook not found".
Definition ErrWebhookRevisionConflict : goerror := Sentinel "webhook revision conflict".
Definition ErrWebhookLimitReached : goerror := Sentinel "webhook limit reached".
Definition ErrWebhookDeliveryNotFound : goerror := Sentinel "webhook delivery not found".
Definition ErrWebhookReplayUnavailable : goerror := Sentinel "webhook delivery cannot be replayed".
Definition ErrWebhookDailyCapReached : goerror := Sentinel "webhook daily delivery cap reached".
Definition ErrWebhookPendingFull : goerror := Sentinel "webhook pending delivery limit reached".
Definition UniqueViolation : goerror := Sentinel "UNIQUE constraint failed".
Definition ForeignKeyViolation : goerror := Sentinel "FOREIGN KEY constraint failed".

(** ** The tables *)

Inductive WebhookDeliveryStatus := Queued | Retrying | Success | Failed | Canceled.
Inductive WebhookDeliveryOrigin := OriginEvent | OriginTest | OriginReplay.
Inductive attempt_status := APending | ASuccess | AFailed.
#[export] Instance WebhookDeliveryStatus_eq_dec : EqDecision WebhookDeliveryStatus.
Proof. solve_decision. Defined.
#[export] Instance WebhookDeliveryOrigin_eq_dec : EqDecision WebhookDeliveryOrigin.
Proof. solve_decision. Defined.
#[export] Instance attempt_status_eq_dec : EqDecision attempt_status.
Proof. solve_decision. Defined.

(** [status IN ('queued', 'retrying')], and the others *)
Definition waiting (s : WebhookDeliveryStatus) : bool :=
  match s with Queued | Retrying => true | _ => false end.

(** A row of [activity_webhooks] with its rows of [activity_webhook_events] and
    [activity_webhook_targets]. *)
Record webhook_row := {
  hk_Revision : Z; hk_Name : string; hk_Enabled : bool; hk_TargetKind : string;
  hk_TargetMode : string; hk_Method : string; hk_URL : string; hk_Headers : list WebhookHeader;
  hk_Body : string; hk_LastStatus : string; hk_ConsecutiveFailures : Z;
  hk_LastCalledAt : option Z; hk_CreatedAt : Z; hk_UpdatedAt : Z; hk_Events : gset string;
  hk_Targets : gset string;
}.
#[export] Instance webhook_row_rebuild : Rebuild webhook_row := λ w, {|
  hk_Revision := hk_Revision w; hk_Name := hk_Name w; hk_Enabled := hk_Enabled w;
  hk_TargetKind := hk_TargetKind w; hk_TargetMode := hk_TargetMode w; hk_Method := hk_Method w;
  hk_URL := hk_URL w; hk_Headers := hk_Headers w; hk_Body := hk_Body w;
  hk_LastStatus := hk_LastStatus w; hk_ConsecutiveFailures := hk_ConsecutiveFailures w;
  hk_LastCalledAt := hk_LastCalledAt w; hk_CreatedAt := hk_CreatedAt w;
  hk_UpdatedAt := hk_UpdatedAt w; hk_Events := hk_Events w; hk_Targets := hk_Targets w |}.

Record delivery := {
  dl_Owner : string; dl_WebhookID : string; dl_WebhookName : string; dl_Origin : WebhookDeliveryOrigin;
  dl_SourceEventID : option Z; dl_EventType : string; dl_EventOccurredAt : Z;
  dl_Status : WebhookDeliveryStatus; dl_AttemptCount : Z; dl_MaxAttempts : Z; dl_NextAttemptAt : Z;
  dl_LeaseUntil : option Z; dl_ConfigRevision : Z; dl_Config : webhookConfigSnapshot;
  dl_Event : webhookEventSnapshot; dl_Values : webhook_values; dl_Request : renderedWebhookRequest;
  dl_ResponseStatus : option Z; dl_ResponseHeaders : gmap string string; dl_ResponseBody : string;
  dl_Error : string; dl_DurationMS : option Z; dl_CreatedAt : Z; dl_StartedAt : option Z;
  dl_CompletedAt : option Z; dl_UpdatedAt : Z;
}.
#[export] Instance delivery_rebuild : Rebuild delivery := λ d, {|
  dl_Owner := dl_Owner d; dl_WebhookID := dl_WebhookID d; dl_WebhookName := dl_WebhookName d;
  dl_Origin := dl_Origin d; dl_SourceEventID := dl_SourceEventID d; dl_EventType := dl_EventType d;
  dl_EventOccurredAt := dl_EventOccurredAt d; dl_Status := dl_Status d;
  dl_AttemptCount := dl_AttemptCount d; dl_MaxAttempts := dl_MaxAttempts d;
  dl_NextAttemptAt := dl_NextAttemptAt d; dl_LeaseUntil := dl_LeaseUntil d;
  dl_ConfigRevision := dl_ConfigRevision d; dl_Config := dl_Config d; dl_Event := dl_Event d;
  dl_Values := dl_Values d; dl_Request := dl_Request d; dl_ResponseStatus := dl_ResponseStatus d;
  dl_ResponseHeaders := dl_ResponseHeaders d; dl_ResponseBody := dl_ResponseBody d;
  dl_Error := dl_Error d; dl_DurationMS := dl_DurationMS d; dl_CreatedAt := dl_CreatedAt d;
  dl_StartedAt := dl_StartedAt d; dl_CompletedAt := dl_CompletedAt d; dl_UpdatedAt := dl_UpdatedAt d |}.

Record attempt := {
  at_Status : attempt_status; at_StartedAt : Z; at_CompletedAt : option Z; at_DurationMS : option Z;
  at_ResponseStatus : option Z; at_ResponseHeaders : gmap string string; at_ResponseBody : string;
  at_Error : string;
}.

(** [users] keeps the status of a user, [registered_clients] and [tunnels] whose
    a row is: (owner, id). *)
Record webhook_db := {
  users : gmap string string; registered_clients : gset (string * string); tunnels : gset (string * string);
  hooks : gmap (string * string) webhook_row; deliveries : gmap string delivery;
  attempts : gmap (string * Z) attempt; slots : gmap string Z;
}.
#[export] Instance webhook_db_rebuild : Rebuild webhook_db := λ b, {|
  users := users b; registered_clients := registered_clients b; tunnels := tunnels b;
  hooks := hooks b; deliveries := deliveries b; attempts := attempts b; slots := slots b |}.

(** A delivery as a handler holds it, and a webhook. *)
Record webhookStoredDelivery := { sd_ID : string; sd_Row : delivery }.
Record ActivityWebhook := { aw_ID : string; aw_Row : webhook_row; aw_Calls24h : Z }.

Definition sorted_elements (s : gset string) : list string := merge_sort String.le (elements s).

Definition toConfigInput (w : ActivityWebhook) (enabled : bool) : WebhookConfigInput := {|
  in_ID := aw_ID w; ExpectedRevision := hk_Revision (aw_Row w); in_Name := hk_Name (aw_Row w);
  in_Enabled := enabled; in_TargetKind := hk_TargetKind (aw_Row w);
  in_TargetMode := hk_TargetMode (aw_Row w); in_TargetIDs := sorted_elements (hk_Targets (aw_Row w));
  in_Method := hk_Method (aw_Row w); in_URL := hk_URL (aw_Row w); in_Headers := hk_Headers (aw_Row w);
  in_Body := hk_Body (aw_Row w); in_Events := sorted_elements (hk_Events (aw_Row w)) |}.

(** ** Columns written as JSON: text that is not UTF-8 is replaced *)

Definition json_text (s : string) : string :=
  string_of_bytes (mjoin ((λ r, if invalid_rune r then [239; 191; 189]%N else r.2) <$> decode 0 (bytes_of s))).
Definition json_header (h : WebhookHeader) : WebhookHeader :=
  {| hd_ID := json_text (hd_ID h); hd_Key := json_text (hd_Key h); hd_Value := json_text (hd_Value h) |}.
Definition json_config (c : webhookConfigSnapshot) : webhookConfigSnapshot := {|
  cf_ID := json_text (cf_ID c); cf_Revision := cf_Revision c; cf_Name := json_text (cf_Name c);
  cf_TargetKind := json_text (cf_TargetKind c); cf_TargetMode := json_text (cf_TargetMode c);
  cf_TargetIDs := json_text <$> cf_TargetIDs c; cf_Method := json_text (cf_Method c);
  cf_URL := json_text (cf_URL c); cf_Headers := json_header <$> cf_Headers c;
  cf_Body := json_text (cf_Body c); cf_Events := json_text <$> cf_Events c |}.
Definition json_event (e : webhookEventSnapshot) : webhookEventSnapshot := {|
  ev_ID := json_text (ev_ID e); ev_Type := json_text (ev_Type e); ev_Severity := json_text (ev_Severity e);
  ev_OccurredAt := json_text (ev_OccurredAt e);
  ev_Clients := (λ c, {| cl_ID := json_text (cl_ID c); cl_Name := json_text (cl_Name c);
    cl_Hostname := json_text (cl_Hostname c); cl_Relation := json_text (cl_Relation c) |}) <$> ev_Clients e;
  ev_Tunnels := (λ t, {| tu_ID := json_text (tu_ID t); tu_Name := json_text (tu_Name t);
    tu_Type := json_text (tu_Type t); tu_Topology := json_text (tu_Topology t);
    tu_Relation := json_text (tu_Relation t); tu_RuntimeState := json_text (tu_RuntimeState t) |}) <$> ev_Tunnels e;
  ev_MatchedTargetIDs := json_text <$> ev_MatchedTargetIDs e |}.
(** A number is read back as the same number. *)
Definition json_value (v : webhook_value) : webhook_value :=
  match v with VText s => VText (json_text s) | VInt z => VInt z end.
Definition json_headers (h : gmap string string) : gmap string string := json_text <$> h.
Definition json_request (r : renderedWebhookRequest) : renderedWebhookRequest :=
  {| rq_Method := rq_Method r; rq_URL := rq_URL r; rq_Headers := json_headers (rq_Headers r);
     rq_Body := rq_Body r |}.

(** ** Counting and ranking rows *)

Definition count_deliveries (P : delivery → bool) (b : webhook_db) : Z :=
  Z.of_nat (base.size (filter (λ kd, P kd.2 = true) (deliveries b))).

Definition owned_waiting (owner : string) (d : delivery) : bool :=
  (dl_Owner d =?s owner) && waiting (dl_Status d).

Definition ensurePendingCapTx (b : webhook_db) (owner : string) : result unit :=
  if webhookMaxPendingPerUser <=? count_deliveries (owned_waiting owner) b
  then Err (Wrapf "%w: limit is 1000" ErrWebhookPendingFull) else Ok tt.
Definition is_pending_full (e : goerror) : bool :=
  match e with Wrapf _ inner => bool_decide (inner = ErrWebhookPendingFull) | _ => false end.

Definition counts_daily (owner : string) (now : Z) (d : delivery) : bool :=
  (dl_Owner d =?s owner) && negb (bool_decide (dl_Origin d = OriginEvent)) &&
  (now - 24 * hour <=? dl_CreatedAt d).
Definition ensureDailyCapTx (b : webhook_db) (owner : string) (now cap : Z) : result unit :=
  if cap <=? 0 then Ok tt else
  if cap <=? count_deliveries (counts_daily owner now) b
  then Err (Wrapf "%w: limit is %d per day" ErrWebhookDailyCapReached) else Ok tt.

(** [completed_at_ns DESC, id DESC]: a missing time comes last. *)
Definition newer (a b : string * delivery) : bool :=
  match dl_CompletedAt a.2, dl_CompletedAt b.2 with
  | Some s, Some t => (t <? s) || ((s =? t) && (b.1 <?s a.1))
  | Some _, None => true
  | None, Some _ => false
  | None, None => b.1 <?s a.1
  end.
Definition same_history (d e : delivery) : bool :=
  (dl_Owner d =?s dl_Owner e) && (dl_WebhookID d =?s dl_WebhookID e).
(** How many finished deliveries of the same webhook are newer. *)
Definition history_rank (b : webhook_db) (id : string) (d : delivery) : Z :=
  Z.of_nat (base.size (filter (λ kd,
    same_history kd.2 d && negb (waiting (dl_Status kd.2)) && newer kd (id, d) = true) (deliveries b))).
Definition history_cutoff (now : Z) : Z := now - 30 * 24 * hour.
Definition expired (b : webhook_db) (now : Z) (id : string) (d : delivery) : bool :=
  negb (waiting (dl_Status d)) &&
  (match dl_CompletedAt d with Some t => t <? history_cutoff now | None => false end
   || (webhookDeliveryHistoryLimit <=? history_rank b id d)).

(** Removing deliveries removes their attempts ([ON DELETE CASCADE]). *)
Definition delete_deliveries (P : string → delivery → bool) (b : webhook_db) : webhook_db :=
  let kept := filter (λ kd, P kd.1 kd.2 = false) (deliveries b) in
  b <| deliveries := kept |>
    <| attempts := filter (λ ka, is_Some (kept !! ka.1.1)) (attempts b) |>.
Definition update_deliveries (P : delivery → bool) (f : delivery → delivery) (b : webhook_db) : webhook_db :=
  b <| deliveries := (λ d, if P d then f d else d) <$> deliveries b |>.

Definition Prune (b : webhook_db) (now : Z) : webhook_db :=
  delete_deliveries (expired b now) b.
Definition pruneWebhookHistoryTx (b : webhook_db) (owner webhookID : string) (now : Z) : webhook_db :=
  delete_deliveries (λ id d, (dl_Owner d =?s owner) && (dl_WebhookID d =?s webhookID) && expired b now id d) b.

(** Ends deliveries that are not being sent. *)
Definition cancel (error : string) (now : Z) (d : delivery) : delivery :=
  d <| dl_Status := Canceled |> <| dl_Error := error |> <| dl_CompletedAt := Some now |>
    <| dl_UpdatedAt := now |> <| dl_LeaseUntil := None |>.
Definition idle (d : delivery) : bool :=
  waiting (dl_Status d) && bool_decide (dl_LeaseUntil d = None).
Definition cancelWaitingWebhookDeliveriesTx (b : webhook_db) (owner webhookID : string) (now : Z) : webhook_db :=
  update_deliveries (λ d, (dl_Owner d =?s owner) && (dl_WebhookID d =?s webhookID) && idle d)
    (cancel "Webhook was disabled or deleted" now) b.

Definition active (b : webhook_db) (user : string) : bool := bool_decide (users b !! user = Some "active"%string).
Definition hook_of (b : webhook_db) (d : delivery) : option webhook_row :=
  hooks b !! (dl_Owner d, dl_WebhookID d).
(** The user is active, and the webhook still there, and for an event enabled. *)
Definition deliverable (b : webhook_db) (d : delivery) : bool :=
  active b (dl_Owner d) &&
  match dl_Origin d with
  | OriginTest => true
  | OriginReplay => bool_decide (is_Some (hook_of b d))
  | OriginEvent => match hook_of b d with Some w => hk_Enabled w | None => false end
  end.
Definition cancelUndeliverableWaiting (b : webhook_db) (now : Z) : Z * webhook_db :=
  let hit d := idle d && negb (deliverable b d) in
  (count_deliveries hit b,
   update_deliveries hit (cancel "Webhook or user is no longer available" now) b).

(** The deliveries by id. *)
Definition select (P : delivery → bool) (b : webhook_db) : list (string * delivery) :=
  filter (λ kd, P kd.2 = true) (map_to_list (deliveries b)).

(** ** Which subjects of an event a webhook is for *)

Definition uniqueSortedStrings (l : list string) : list string :=
  merge_sort String.le (uniqueNonEmptyStrings l).
Definition matchedWebhookTargetIDs (kind mode : string) (selected : list string)
    (e : webhookEventSnapshot) : list string :=
  let available := if kind =?s WebhookTargetClient then cl_ID <$> ev_Clients e else tu_ID <$> ev_Tunnels e in
  if mode =?s WebhookTargetAll then uniqueSortedStrings available
  else uniqueSortedStrings (filter (λ id, id ∈ selected) available).

(** What [prepareSpec] (activity_store.go) hands over of an activity event. *)
Record preparedActivitySpec := {
  pr_OccurredAt : Z; pr_RecordedAt : Z; pr_Severity : string; pr_Category : string;
  pr_Action : string; pr_ScopeUserID : string; pr_After : string;
  pr_Clients : list ActivityClientSubject; pr_Tunnels : list ActivityTunnelSubject;
}.
Definition event_type (p : preparedActivitySpec) : string := pr_Category p +:+ "." +:+ pr_Action p.

Definition webhookEventSnapshotFromPrepared (activityID : Z) (p : preparedActivitySpec) : webhookEventSnapshot :=
  let runtimeState := if event_type p =?s "tunnel.runtime_error" then "error"%string else json_text (pr_After p) in
  {| ev_ID := pretty activityID; ev_Type := event_type p; ev_Severity := pr_Severity p;
     ev_OccurredAt := formatTime (pr_OccurredAt p);
     ev_Clients := (λ s,
       let name := if trim_space (cs_DisplayName s) =?s "" then cs_Hostname s else cs_DisplayName s in
       {| cl_ID := cs_ClientID s; cl_Name := if name =?s "" then cs_ClientID s else name;
          cl_Hostname := cs_Hostname s; cl_Relation := cs_Relation s |}) <$> pr_Clients p;
     ev_Tunnels := (λ s,
       {| tu_ID := ts_TunnelID s; tu_Name := if ts_Name s =?s "" then ts_TunnelID s else ts_Name s;
          tu_Type := ts_Type s; tu_Topology := ts_Topology s; tu_Relation := ts_Relation s;
          tu_RuntimeState := runtimeState |}) <$> pr_Tunnels p;
     ev_MatchedTargetIDs := [] |}.

Definition hook_config (id : string) (w : webhook_row) : webhookConfigSnapshot := {|
  cf_ID := id; cf_Revision := hk_Revision w; cf_Name := hk_Name w; cf_TargetKind := hk_TargetKind w;
  cf_TargetMode := hk_TargetMode w; cf_TargetIDs := sorted_elements (hk_Targets w);
  cf_Method := hk_Method w; cf_URL := hk_URL w; cf_Headers := hk_Headers w; cf_Body := hk_Body w;
  cf_Events := sorted_elements (hk_Events w) |}.

(** [ORDER BY created_at_ns, id], and the order of the queue. *)
Definition created_first (a b : string * webhook_row) : Prop :=
  hk_CreatedAt a.2 < hk_CreatedAt b.2 ∨ hk_CreatedAt a.2 = hk_CreatedAt b.2 ∧ String.le a.1 b.1.
#[export] Instance created_first_dec a b : Decision (created_first a b).
Proof. unfold created_first. apply _. Defined.

(** The enabled webhooks of a user for an event, oldest first. *)
Definition candidates (b : webhook_db) (owner event kind : string) : list (string * webhook_row) :=
  merge_sort created_first (omap (λ kw : string * string * webhook_row,
    if (kw.1.1 =?s owner) && hk_Enabled kw.2 && bool_decide (event ∈ hk_Events kw.2)
       && (hk_TargetKind kw.2 =?s kind)
    then Some (kw.1.2, kw.2) else None) (map_to_list (hooks b))).

(** ** Sending *)

Record webhookAttemptResult := {
  rs_CompletedAt : Z; rs_Duration : Z; rs_StatusCode : Z; rs_Headers : gmap string string;
  rs_Body : string; rs_RetryAfter : Z; rs_RetryAfterSet : bool; rs_Err : option string;
}.

Definition webhookAttemptError (r : webhookAttemptResult) : string :=
  match rs_Err r with
  | Some e => e
  | None => if (rs_StatusCode r <? 200) || (300 <=? rs_StatusCode r)
            then ("HTTP " +:+ pretty (rs_StatusCode r))%string else ""%string
  end.

Definition webhookRetryable (statusCode : Z) (err : option string) : bool :=
  bool_decide (is_Some err) || (statusCode =? 408) || (statusCode =? 429) || (500 <=? statusCode).

Definition webhookRetryDelay (attempt retryAfter : Z) (retryAfterSet : bool) : Z :=
  if retryAfterSet then Z.min retryAfter webhookRetryAfterMax else
  if attempt <=? 1 then 5 * second else 30 * second.

(** [strconv.Atoi]: a sign, digits, at most 64 bits. *)
Definition Atoi (s : string) : option Z :=
  let '(sign, digits) := match s with
                         | String "+" d => (1, d) | String "-" d => (-1, d) | _ => (1, s)
                         end in
  if (digits =?s "") || negb (all_bytes is_digit digits) then None else
  let z := sign * decimal_value digits in
  if (- 2 ^ 63 <=? z) && (z <? 2 ^ 63) then Some z else None.

(** The product of two int64, which wraps around. *)
Definition int64_mul (a b : Z) : Z := (a * b + 2 ^ 63) mod 2 ^ 64 - 2 ^ 63.

(** [ParseTime] is [http.ParseTime]. *)
Definition parseWebhookRetryAfter (ParseTime : string → option Z) (raw : string) (now : Z) : Z * bool :=
  let raw := trim_space raw in
  if raw =?s "" then (0, false) else
  let date := match ParseTime raw with
              | Some value => (Z.min (Z.max (value - now) 0) webhookRetryAfterMax, true)
              | None => (0, false)
              end in
  match Atoi raw with
  | Some seconds => if 0 <=? seconds then (Z.min (int64_mul seconds second) webhookRetryAfterMax, true) else date
  | None => date
  end.

(** [ORDER BY next_attempt_at_ns, created_at_ns, id] *)
Definition due_first (a b : string * delivery) : bool :=
  (dl_NextAttemptAt a.2 <? dl_NextAttemptAt b.2) || (dl_NextAttemptAt a.2 =? dl_NextAttemptAt b.2) &&
  ((dl_CreatedAt a.2 <? dl_CreatedAt b.2) || (dl_CreatedAt a.2 =? dl_CreatedAt b.2) && (a.1 <?s b.1)).
Fixpoint first_due (l : list (string * delivery)) : option (string * delivery) :=
  match l with
  | [] => None
  | d :: l => match first_due l with
              | Some e => if due_first e d then Some e else Some d
              | None => Some d
              end
  end.
Definition due (now : Z) (d : delivery) : bool := idle d && (dl_NextAttemptAt d <=? now).
Definition next_allowed (b : webhook_db) (owner : string) : Z := default 0 (slots b !! owner).

(** [GROUP BY owner ORDER BY MIN(next), MIN(created), owner LIMIT limit] *)
Definition minimum (l : list Z) : Z := match l with [] => 0 | z :: l => foldl Z.min z l end.
Definition owner_key (l : list delivery) (owner : string) : Z * Z :=
  let own := filter (λ d, dl_Owner d = owner) l in
  (minimum (dl_NextAttemptAt <$> own), minimum (dl_CreatedAt <$> own)).
Definition owner_first (l : list delivery) (o p : string) : Prop :=
  let '(next, created) := owner_key l o in
  let '(next', created') := owner_key l p in
  next < next' ∨ next = next' ∧ (created < created' ∨ created = created' ∧ String.le o p).
#[export] Instance owner_first_dec l o p : Decision (owner_first l o p).
Proof. unfold owner_first. do 2 destruct (owner_key _ _). apply _. Defined.
Definition due_owners (b : webhook_db) (now limit : Z) : list string :=
  let l := (select (λ d, due now d && (next_allowed b (dl_Owner d) <=? now)) b).*2 in
  take (Z.to_nat limit) (merge_sort (owner_first l) (remove_dups (dl_Owner <$> l))).

Definition QueueStats (b : webhook_db) (now : Z) : Z * Z :=
  let l := (select (λ d, waiting (dl_Status d)) b).*2 in
  match l with
  | [] => (0, 0)
  | _ => (Z.of_nat (length l), Z.max (now - minimum (dl_CreatedAt <$> l)) 0)
  end.

(** [webhookDeliveryCanContinueTx], of the delivery as it was claimed *)
Definition webhookDeliveryCanContinueTx (b : webhook_db) (d : delivery) : bool := deliverable b d.

Definition set_health (b : webhook_db) (d : delivery) (f : webhook_row → webhook_row) : webhook_db :=
  b <| hooks := alter f (dl_Owner d, dl_WebhookID d) (hooks b) |>.
Definition updateWebhookHealthTx (b : webhook_db) (d : delivery) (status : WebhookDeliveryStatus) (now : Z)
    : webhook_db :=
  match status with
  | Retrying => set_health b d (λ w, w <| hk_LastStatus := "retrying"%string |> <| hk_LastCalledAt := Some now |>)
  | Success => set_health b d (λ w, w <| hk_LastStatus := "success"%string |>
                 <| hk_ConsecutiveFailures := 0 |> <| hk_LastCalledAt := Some now |>)
  | Failed => set_health b d (λ w, w <| hk_LastStatus := "failed"%string |>
                <| hk_ConsecutiveFailures := hk_ConsecutiveFailures w + 1 |> <| hk_LastCalledAt := Some now |>)
  | _ => b
  end.
Definition update_health_unless_test (b : webhook_db) (d : delivery) (status : WebhookDeliveryStatus) (now : Z)
    : webhook_db :=
  if bool_decide (dl_Origin d = OriginTest) then b else updateWebhookHealthTx b d status now.

Definition succeeded (r : webhookAttemptResult) : bool :=
  bool_decide (rs_Err r = None) && (200 <=? rs_StatusCode r) && (rs_StatusCode r <? 300).

(** What the result of an attempt makes of the delivery: the status, and when
    to try again. *)
Definition verdict (b : webhook_db) (d : delivery) (r : webhookAttemptResult) : WebhookDeliveryStatus * Z :=
  let now := rs_CompletedAt r in
  if succeeded r then (Success, now) else
  if webhookRetryable (rs_StatusCode r) (rs_Err r) && (dl_AttemptCount d <? dl_MaxAttempts d) then
    if webhookDeliveryCanContinueTx b d
    then (Retrying, now + webhookRetryDelay (dl_AttemptCount d) (rs_RetryAfter r) (rs_RetryAfterSet r))
    else (Canceled, now)
  else (Failed, now).

Definition response_code (r : webhookAttemptResult) : option Z :=
  if 0 <? rs_StatusCode r then Some (rs_StatusCode r) else None.
Definition duration_ms (r : webhookAttemptResult) : Z := Z.max (Z.quot (rs_Duration r) 1000000) 0.

(** The rows of the attempt and of the delivery when a result is recorded. *)
Definition finished_attempt (r : webhookAttemptResult) (a : attempt) : attempt := {|
  at_Status := if succeeded r then ASuccess else AFailed; at_StartedAt := at_StartedAt a;
  at_CompletedAt := Some (rs_CompletedAt r); at_DurationMS := Some (duration_ms r);
  at_ResponseStatus := response_code r; at_ResponseHeaders := json_headers (rs_Headers r);
  at_ResponseBody := rs_Body r; at_Error := webhookAttemptError r |}.
Definition finished_delivery (status : WebhookDeliveryStatus) (next : Z) (r : webhookAttemptResult)
    (d : delivery) : delivery :=
  d <| dl_Status := status |> <| dl_NextAttemptAt := next |> <| dl_LeaseUntil := None |>
    <| dl_ResponseStatus := response_code r |> <| dl_ResponseHeaders := json_headers (rs_Headers r) |>
    <| dl_ResponseBody := rs_Body r |>
    <| dl_Error := if bool_decide (status = Canceled) then "Webhook or user is no longer available"%string
                   else webhookAttemptError r |>
    <| dl_DurationMS := Some (duration_ms r) |>
    <| dl_CompletedAt := if bool_decide (status = Retrying) then None else Some (rs_CompletedAt r) |>
    <| dl_UpdatedAt := rs_CompletedAt r |>.

Definition CompleteAttempt (b : webhook_db) (claimed : webhookStoredDelivery) (r : webhookAttemptResult)
    : result (WebhookDeliveryStatus * webhook_db) :=
  let d := sd_Row claimed in
  let now := rs_CompletedAt r in
  let key := (sd_ID claimed, dl_AttemptCount d) in
  match attempts b !! key with
  | Some a =>
      if negb (bool_decide (at_Status a = APending))
      then Err (Errorf "webhook delivery attempt is no longer pending" []) else
      let b := b <| attempts := <[key := finished_attempt r a]> (attempts b) |> in
      let '(status, next) := verdict b d r in
      let b := b <| deliveries := alter (finished_delivery status next r) (sd_ID claimed) (deliveries b) |> in
      let b := update_health_unless_test b d status now in
      Ok (status, if bool_decide (status = Retrying) then b
                  else pruneWebhookHistoryTx b (dl_Owner d) (dl_WebhookID d) now)
  | None => Err (Errorf "webhook delivery attempt is no longer pending" [])
  end.

(** The lease of a delivery ran out. *)
Definition lapsed (now : Z) (d : delivery) : bool :=
  match dl_LeaseUntil d with Some t => t <=? now | None => false end.
Definition interrupt_attempt (now : Z) (a : attempt) : attempt := {|
  at_Status := AFailed; at_StartedAt := at_StartedAt a; at_CompletedAt := Some now;
  at_DurationMS := Some (Z.max 0 (Z.quot (now - at_StartedAt a) 1000000));
  at_ResponseStatus := at_ResponseStatus a; at_ResponseHeaders := at_ResponseHeaders a;
  at_ResponseBody := at_ResponseBody a; at_Error := "server interrupted the request" |}.
Definition interrupt (now : Z) (d : delivery) : delivery :=
  let again := dl_AttemptCount d <? dl_MaxAttempts d in
  d <| dl_Status := if again then Retrying else Failed |> <| dl_NextAttemptAt := now |>
    <| dl_LeaseUntil := None |> <| dl_CompletedAt := if again then None else Some now |>
    <| dl_Error := "server interrupted the request"%string |> <| dl_UpdatedAt := now |>.

Definition RecoverInterrupted (b : webhook_db) (now : Z) : webhook_db :=
  let terminal := (select (λ d, waiting (dl_Status d) && lapsed now d &&
                                (dl_MaxAttempts d <=? dl_AttemptCount d)) b).*2 in
  let b' := b <| attempts := map_imap (λ k a, Some
      (if bool_decide (at_Status a = APending) &&
          match deliveries b !! k.1 with Some d => lapsed now d | None => false end
       then interrupt_attempt now a else a)) (attempts b) |> in
  let b' := update_deliveries (λ d, waiting (dl_Status d) && lapsed now d) (interrupt now) b' in
  foldl (λ b d, pruneWebhookHistoryTx (update_health_unless_test b d Failed now)
                  (dl_Owner d) (dl_WebhookID d) now) b' terminal.

(** ** The transactions of the store *)

(** A transaction commits what it did or nothing. *)
Definition commit {A} (b : webhook_db) (r : result (A * webhook_db)) : result A * webhook_db :=
  match r with Ok (a, b') => (Ok a, b') | Err e => (Err e, b) end.

Record WebhookSettings := { AllowPrivateTargets : bool; DailyDeliveryCap : Z }.
Definition defaultWebhookSettings : WebhookSettings := {| AllowPrivateTargets := false; DailyDeliveryCap := 50 |}.
(** [settings] is what the loader returned, if there is one. *)
Definition currentSettings (settings : option WebhookSettings) : WebhookSettings :=
  match settings with
  | Some s => if 0 <? DailyDeliveryCap s then s else defaultWebhookSettings
  | None => defaultWebhookSettings
  end.

Definition target_exists (b : webhook_db) (owner kind id : string) : bool :=
  bool_decide ((owner, id) ∈ if kind =?s WebhookTargetTunnel then tunnels b else registered_clients b).
Definition validateWebhookTargetsTx (b : webhook_db) (owner kind mode : string) (ids : list string) : result unit :=
  if mode =?s WebhookTargetAll then Ok tt else
  match filter (λ id, target_exists b owner kind id = false) ids with
  | [] => Ok tt
  | id :: _ => Err (invalidWebhook "targets" "target_not_found" ("Webhook target was not found: " +:+ id))
  end.

Definition Get (b : webhook_db) (owner id : string) (now : Z) : result ActivityWebhook :=
  match hooks b !! (owner, id) with
  | None => Err ErrWebhookNotFound
  | Some w => Ok {| aw_ID := id; aw_Row := w; aw_Calls24h := count_deliveries (λ d,
      (dl_Owner d =?s owner) && (dl_WebhookID d =?s id) && negb (bool_decide (dl_Origin d = OriginTest))
      && (now - 24 * hour <=? dl_CreatedAt d)) b |}
  end.

Section Store.
Context (Decode Unmarshal : string → result json) (Encode : json → string).
Context (ParseRequestURI : string → result request_uri) (LookupIP : string → result (list IP)).
(** [time.Parse(time.RFC3339Nano, raw)] *)
Context (ParseRFC3339 : string → option Z).

Definition render := renderWebhookRequest Decode Encode.
Definition validate (input : WebhookConfigInput) (s : WebhookSettings) : result unit :=
  validateWebhookInput Decode Unmarshal Encode ParseRequestURI LookupIP input fixture
    webhookCatalogVariables (AllowPrivateTargets s).

Definition parseWebhookOccurredAt (raw : string) (fallback : Z) : Z := default fallback (ParseRFC3339 raw).

(** The row of a delivery that is inserted; [rendered] is its first request. *)
Definition new_delivery (owner : string) (config : webhookConfigSnapshot) (e : webhookEventSnapshot)
    (v : webhook_values) (origin : WebhookDeliveryOrigin) (source : option Z) (maxAttempts now : Z)
    (rendered : renderedWebhookRequest) : delivery := {|
  dl_Owner := owner; dl_WebhookID := cf_ID config; dl_WebhookName := cf_Name config; dl_Origin := origin;
  dl_SourceEventID := source; dl_EventType := ev_Type e;
  dl_EventOccurredAt := parseWebhookOccurredAt (ev_OccurredAt e) now; dl_Status := Queued;
  dl_AttemptCount := 0; dl_MaxAttempts := maxAttempts; dl_NextAttemptAt := now; dl_LeaseUntil := None;
  dl_ConfigRevision := cf_Revision config; dl_Config := json_config config; dl_Event := json_event e;
  dl_Values := json_value <$> v; dl_Request := json_request rendered; dl_ResponseStatus := None;
  dl_ResponseHeaders := ∅; dl_ResponseBody := ""; dl_Error := ""; dl_DurationMS := None;
  dl_CreatedAt := now; dl_StartedAt := None; dl_CompletedAt := None; dl_UpdatedAt := now |}.

(** The unique index on (owner, webhook, source event) of event deliveries. *)
Definition duplicates (d e : delivery) : bool :=
  bool_decide (dl_Origin d = OriginEvent) && bool_decide (dl_Origin e = OriginEvent) && same_history d e &&
  bool_decide (is_Some (dl_SourceEventID d)) && bool_decide (dl_SourceEventID d = dl_SourceEventID e).

Definition insert_delivery_row (b : webhook_db) (id : string) (d : delivery) : result webhook_db :=
  if bool_decide (is_Some (deliveries b !! id)) || (0 <? count_deliveries (duplicates d) b)
  then Err (Wrapf "insert Webhook delivery: %w" UniqueViolation) else
  if negb (bool_decide (is_Some (users b !! dl_Owner d)))
  then Err (Wrapf "insert Webhook delivery: %w" ForeignKeyViolation) else
  Ok (b <| deliveries := <[id := d]> (deliveries b) |>).

Definition insertWebhookDeliveryTx (b : webhook_db) (owner : string) (config : webhookConfigSnapshot)
    (e : webhookEventSnapshot) (v : webhook_values) (origin : WebhookDeliveryOrigin) (source : option Z)
    (maxAttempts now : Z) : result webhook_db :=
  _ ← ensurePendingCapTx b owner;
  let deliveryID := match v !! "delivery.id"%string with Some t => webhookValueText t | None => ""%string end in
  rendered ← render config v 1;
  _ ← refuse (negb (headers_printable (rq_Headers rendered)))
        (invalidWebhook "headers" "invalid_header_value" "Webhook header renders to an invalid value");
  insert_delivery_row b deliveryID (new_delivery owner config e v origin source maxAttempts now rendered).

(** An activity event that is recorded: a delivery for every enabled webhook
    that is for it.  [newID] is the identifier generated for a webhook's
    delivery. *)
Definition enqueue_candidate (activityID : Z) (p : preparedActivitySpec) (newID : string → string)
    (b : webhook_db) (candidate : string * webhook_row) : result webhook_db :=
  let config := hook_config candidate.1 candidate.2 in
  let e := webhookEventSnapshotFromPrepared activityID p in
  let matched := matchedWebhookTargetIDs (cf_TargetKind config) (cf_TargetMode config) (cf_TargetIDs config) e in
  if bool_decide (matched = []) then Ok b else
  let e := e <| ev_MatchedTargetIDs := matched |> in
  let v := values e ("dlv_" +:+ newID (cf_ID config)) (cf_ID config) (cf_Name config) in
  match insertWebhookDeliveryTx b (pr_ScopeUserID p) config e v OriginEvent (Some activityID) 3 (pr_RecordedAt p) with
  | Ok b => Ok b
  | Err err => if is_validation err || is_pending_full err then Ok b else Err err
  end.
Fixpoint enqueue_all (activityID : Z) (p : preparedActivitySpec) (newID : string → string)
    (b : webhook_db) (l : list (string * webhook_row)) : result webhook_db :=
  match l with
  | [] => Ok b
  | c :: l => b ← enqueue_candidate activityID p newID b c; enqueue_all activityID p newID b l
  end.
Definition enqueueActivityWebhookDeliveriesTx (b : webhook_db) (activityID : Z) (p : preparedActivitySpec)
    (newID : string → string) : result webhook_db :=
  if (activityID <=? 0) || (pr_ScopeUserID p =?s "") then Ok b else
  match webhookEventTargetKinds !! event_type p with
  | None => Ok b
  | Some kind => enqueue_all activityID p newID b (candidates b (pr_ScopeUserID p) (event_type p) kind)
  end.

(** The row of a webhook that is written from its configuration. *)
Definition write_config (input : WebhookConfigInput) (now : Z) (w : webhook_row) : webhook_row :=
  w <| hk_Name := in_Name input |> <| hk_Enabled := in_Enabled input |>
    <| hk_TargetKind := in_TargetKind input |> <| hk_TargetMode := in_TargetMode input |>
    <| hk_Method := in_Method input |> <| hk_URL := in_URL input |>
    <| hk_Headers := json_header <$> in_Headers input |> <| hk_Body := in_Body input |>
    <| hk_UpdatedAt := now |> <| hk_Events := list_to_set (in_Events input) |>
    <| hk_Targets := list_to_set (in_TargetIDs input) |>.
Definition fresh_row (now : Z) : webhook_row := {|
  hk_Revision := 1; hk_Name := ""; hk_Enabled := false; hk_TargetKind := ""; hk_TargetMode := "";
  hk_Method := ""; hk_URL := ""; hk_Headers := []; hk_Body := ""; hk_LastStatus := "idle";
  hk_ConsecutiveFailures := 0; hk_LastCalledAt := None; hk_CreatedAt := now; hk_UpdatedAt := now;
  hk_Events := ∅; hk_Targets := ∅ |}.

Definition count_hooks (b : webhook_db) (owner : string) : Z :=
  Z.of_nat (base.size (filter (λ kw : string * string * webhook_row, kw.1.1 = owner) (hooks b))).

Definition Create (b : webhook_db) (owner : string) (raw : WebhookConfigInput) (s : WebhookSettings) (now : Z)
    : result ActivityWebhook * webhook_db :=
  let input := normalizeWebhookInput raw in
  match validate input s with Err e => (Err e, b) | Ok _ =>
  commit b (
    if webhookMaxPerUser <=? count_hooks b owner then Err ErrWebhookLimitReached else
    _ ← validateWebhookTargetsTx b owner (in_TargetKind input) (in_TargetMode input) (in_TargetIDs input);
    if bool_decide (is_Some (hooks b !! (owner, in_ID input))) then Err ErrWebhookRevisionConflict else
    if negb (bool_decide (is_Some (users b !! owner)))
    then Err (Wrapf "insert Webhook: %w" ForeignKeyViolation) else
    let b := b <| hooks := <[(owner, in_ID input) := write_config input now (fresh_row now)]> (hooks b) |> in
    w ← Get b owner (in_ID input) now; Ok (w, b)) end.

(** Ends what is waiting when a webhook is disabled. *)
Definition drop_waiting (b : webhook_db) (owner id : string) (now : Z) : webhook_db :=
  pruneWebhookHistoryTx (cancelWaitingWebhookDeliveriesTx b owner id now) owner id now.

Definition Update (b : webhook_db) (owner id : string) (raw : WebhookConfigInput) (s : WebhookSettings) (now : Z)
    : result ActivityWebhook * webhook_db :=
  let input := (normalizeWebhookInput raw) <| in_ID := id |> in
  if ExpectedRevision input <? 1 then (Err ErrWebhookRevisionConflict, b) else
  match validate input s with Err e => (Err e, b) | Ok _ =>
  commit b (
    match hooks b !! (owner, id) with
    | None => Err ErrWebhookNotFound
    | Some w =>
        if negb (hk_Revision w =? ExpectedRevision input) then Err ErrWebhookRevisionConflict else
        _ ← validateWebhookTargetsTx b owner (in_TargetKind input) (in_TargetMode input) (in_TargetIDs input);
        let w' := write_config input now (w <| hk_Revision := hk_Revision w + 1 |>) in
        let b := b <| hooks := <[(owner, id) := w']> (hooks b) |> in
        let b := if hk_Enabled w && negb (in_Enabled input) then drop_waiting b owner id now else b in
        w ← Get b owner id now; Ok (w, b)
    end) end.

(** [current] is the webhook as [Get] returned it before the transaction. *)
Definition SetEnabled (b : webhook_db) (owner id : string) (current : ActivityWebhook) (enabled : bool)
    (s : WebhookSettings) (now : Z) : result ActivityWebhook * webhook_db :=
  if bool_decide (hk_Enabled (aw_Row current) = enabled) then (Ok current, b) else
  match (if enabled then validate (toConfigInput current true) s else Ok tt) with Err e => (Err e, b) | Ok _ =>
  commit b (
    match hooks b !! (owner, id) with
    | None => Err ErrWebhookRevisionConflict
    | Some w =>
        if negb (hk_Revision w =? hk_Revision (aw_Row current)) then Err ErrWebhookRevisionConflict else
        let w' := w <| hk_Revision := hk_Revision w + 1 |> <| hk_Enabled := enabled |> <| hk_UpdatedAt := now |> in
        let b := b <| hooks := <[(owner, id) := w']> (hooks b) |> in
        let b := if hk_Enabled (aw_Row current) && negb enabled then drop_waiting b owner id now else b in
        w ← Get b owner id now; Ok (w, b)
    end) end.

(** The stored configuration breaks the policy on private targets. *)
Definition violates (b : webhook_db) (now : Z) (ref : string * string) : bool :=
  match Get b ref.1 ref.2 now with
  | Ok current => match validate (toConfigInput current true) {| AllowPrivateTargets := false; DailyDeliveryCap := 1 |} with
                  | Err e => is_validation e && (validation_code e =?s "url_target_not_allowed")
                  | Ok _ => false
                  end
  | Err _ => false
  end.
Definition disable_violating (now : Z) (b : webhook_db) (ref : string * string) : webhook_db :=
  match hooks b !! ref with
  | Some w => if hk_Enabled w then
      let w' := w <| hk_Revision := hk_Revision w + 1 |> <| hk_Enabled := false |> <| hk_UpdatedAt := now |> in
      drop_waiting (b <| hooks := <[ref := w']> (hooks b) |>) ref.1 ref.2 now else b
  | None => b
  end.
(** [violating] are the webhooks found before the transaction. *)
Definition DisableWebhooksViolatingPrivatePolicy (b : webhook_db) (violating : list (string * string)) (now : Z)
    : webhook_db := foldl (disable_violating now) b violating.

Definition Delete (b : webhook_db) (owner id : string) (now : Z) : result unit * webhook_db :=
  let b' := drop_waiting b owner id now in
  commit b (match hooks b' !! (owner, id) with
            | None => Err ErrWebhookNotFound
            | Some _ => Ok (tt, b' <| hooks := delete (owner, id) (hooks b') |>)
            end).

Definition get_inserted (b : webhook_db) (owner id : string) : result (webhookStoredDelivery * webhook_db) :=
  match deliveries b !! id with
  | Some d => if dl_Owner d =?s owner then Ok ({| sd_ID := id; sd_Row := d |}, b) else Err ErrWebhookDeliveryNotFound
  | None => Err ErrWebhookDeliveryNotFound
  end.

Definition EnqueueTest (b : webhook_db) (owner : string) (raw : WebhookConfigInput) (event : string)
    (s : WebhookSettings) (newID : string) (now : Z) : result webhookStoredDelivery * webhook_db :=
  let input := normalizeWebhookInput raw in
  match validate input s with Err e => (Err e, b) | Ok _ =>
  if negb (bool_decide (event ∈ in_Events input))
  then (Err (invalidWebhook "event" "event_not_selected" "test event is not selected"), b) else
  commit b (
    _ ← validateWebhookTargetsTx b owner (in_TargetKind input) (in_TargetMode input) (in_TargetIDs input);
    _ ← ensureDailyCapTx b owner now (DailyDeliveryCap s);
    let e := sampleWebhookEvent event in
    let e := if in_TargetMode input =?s WebhookTargetSelected then e <| ev_MatchedTargetIDs := in_TargetIDs input |> else e in
    let v := values e ("dlv_" +:+ newID) (in_ID input) (in_Name input) in
    b ← insertWebhookDeliveryTx b owner (snapshot input (Z.max (ExpectedRevision input) 0)) e v OriginTest None 1 now;
    get_inserted b owner ("dlv_" +:+ newID)) end.

(** [original] and [current] were read before the transaction. *)
Definition Replay (b : webhook_db) (owner : string) (original : delivery) (current : ActivityWebhook)
    (s : WebhookSettings) (newID : string) (now : Z) : result webhookStoredDelivery * webhook_db :=
  if bool_decide (dl_Origin original = OriginTest) then (Err ErrWebhookReplayUnavailable, b) else
  let w := aw_Row current in
  if negb (bool_decide (dl_EventType original ∈ hk_Events w)) then (Err ErrWebhookReplayUnavailable, b) else
  let matched := matchedWebhookTargetIDs (hk_TargetKind w) (hk_TargetMode w) (sorted_elements (hk_Targets w)) (dl_Event original) in
  if bool_decide (matched = []) then (Err ErrWebhookReplayUnavailable, b) else
  let e := (dl_Event original) <| ev_MatchedTargetIDs := matched |> in
  let v := values e ("dlv_" +:+ newID) (aw_ID current) (hk_Name w) in
  commit b (
    _ ← ensureDailyCapTx b owner now (DailyDeliveryCap s);
    b ← insertWebhookDeliveryTx b owner (hook_config (aw_ID current) w) e v OriginReplay (dl_SourceEventID original) 3 now;
    get_inserted b owner ("dlv_" +:+ newID)).

(** The next due delivery of a user, claimed for one attempt. *)
Definition claim_row (now : Z) (rendered : renderedWebhookRequest) (d : delivery) : delivery :=
  d <| dl_AttemptCount := dl_AttemptCount d + 1 |> <| dl_LeaseUntil := Some (now + webhookDeliveryLease) |>
    <| dl_Request := rendered |>
    <| dl_StartedAt := match dl_StartedAt d with Some t => Some t | None => Some now end |>
    <| dl_UpdatedAt := now |>.
Definition pending_attempt (now : Z) : attempt := {|
  at_Status := APending; at_StartedAt := now; at_CompletedAt := None; at_DurationMS := None;
  at_ResponseStatus := None; at_ResponseHeaders := ∅; at_ResponseBody := ""; at_Error := "" |}.

Definition ClaimDue (b : webhook_db) (owner : string) (now : Z)
    : result (option webhookStoredDelivery) * webhook_db :=
  commit b (
    if now <? next_allowed b owner then Ok (None, b) else
    match first_due (select (λ d, (dl_Owner d =?s owner) && due now d) b) with
    | None => Ok (None, b)
    | Some (id, stored) =>
        let n := dl_AttemptCount stored + 1 in
        rendered ← render (dl_Config stored) (dl_Values stored) n;
        if bool_decide (is_Some (attempts b !! (id, n))) then Err UniqueViolation else
        let b := b <| deliveries := <[id := claim_row now (json_request rendered) stored]> (deliveries b) |>
                   <| attempts := <[(id, n) := pending_attempt now]> (attempts b) |>
                   <| slots := <[owner := now + webhookUserStartInterval]> (slots b) |> in
        let claimed := stored <| dl_AttemptCount := n |> <| dl_LeaseUntil := Some (now + webhookDeliveryLease) |>
                              <| dl_Request := rendered |> in
        Ok (Some {| sd_ID := id; sd_Row := claimed |}, b)
    end).
End Store.
