(* ===== verification/WebhookRuns.v ===== *)
(** Webhooks at work: the dispatcher's loop, the requests under way, the API's
    transactions, and what other components do to the tables, as actions of one
    system (internal/server/webhook_dispatcher.go).

    Every statement outside a transaction, and every transaction, is one
    action; any other may come in between.  What a handler read before its
    transaction ([SetEnabled], [Replay], [DisableWebhooksViolatingPrivatePolicy])
    is part of the action, so it may be anything, out of date or not.  Any
    action may find the database failing ([sql]); a process that dies loses
    the loop's place and the requests under way. *)
From Stdlib Require Import ZArith Lia Ascii String.
From stdpp Require Import base tactics numbers list gmap strings sorting.
From S2P Require Import Prelude Records GoNet GoIO WebhookModel WebhookQueue.

(** Where [dispatchDue] is: outside, before [Prune], before the query, and in
    the loop over the owners it found. *)
Inductive dispatcher := DIdle | DPrune (now : Z) | DScan (now : Z) | DClaim (owners : list string).
Definition idle_loop (p : dispatcher) : bool :=
  match p with DIdle | DClaim [] => true | _ => false end.

(** What happened to attempts: one was started for a user, its answer was
    recorded, or it was given up because its lease ran out. *)
Inductive entry :=
| Started (owner id : string) (n t : Z)
| Answered (id : string) (n : Z)
| Interrupted (id : string) (n t : Z).

Record webhook_system := {
  ws_db : webhook_db; ws_loop : dispatcher; ws_running : list webhookStoredDelivery;
  ws_ids : gset string; ws_users : gset string; ws_log : list entry;
}.
#[export] Instance webhook_system_rebuild : Rebuild webhook_system := λ s, {|
  ws_db := ws_db s; ws_loop := ws_loop s; ws_running := ws_running s; ws_ids := ws_ids s;
  ws_users := ws_users s; ws_log := ws_log s |}.

Inductive action :=
| ACreate (owner : string) (raw : WebhookConfigInput) (s : WebhookSettings) (now : Z)
| AUpdate (owner id : string) (raw : WebhookConfigInput) (s : WebhookSettings) (now : Z)
| ASetEnabled (owner id : string) (current : ActivityWebhook) (enabled : bool) (s : WebhookSettings) (now : Z)
| ADisableViolating (violating : list (string * string)) (now : Z)
| ADelete (owner id : string) (now : Z)
| AEnqueueTest (owner : string) (raw : WebhookConfigInput) (event : string) (s : WebhookSettings) (newID : string) (now : Z)
| AReplay (owner : string) (original : delivery) (current : ActivityWebhook) (s : WebhookSettings) (newID : string) (now : Z)
| AActivity (activityID : Z) (p : preparedActivitySpec) (newID : string → string)
| ADue (now : Z) (sql : bool)
| APruneDue (sql : bool)
| AScan (sql : bool)
| AClaim (now : Z) (sql : bool)
| ARecover (now : Z)
| APrune (now : Z)
| AComplete (i : nat) (r : webhookAttemptResult) (sql : bool)
| AUser (user status : string)
| AUserStatus (user status : string)
| AUserDelete (user : string)
| ATargets (clients tunnels : gset (string * string))
| AActivityPruned (activities : gset Z)
| ARestart.

(** Deleting a user takes the user's rows ([ON DELETE CASCADE]). *)
Definition delete_user (user : string) (b : webhook_db) : webhook_db :=
  (delete_deliveries (λ _ d, dl_Owner d =?s user) b)
    <| users := delete user (users b) |>
    <| hooks := filter (λ kw : string * string * webhook_row, kw.1.1 ≠ user) (hooks b) |>
    <| slots := delete user (slots b) |>
    <| registered_clients := filter (λ c : string * string, c.1 ≠ user) (registered_clients b) |>
    <| tunnels := filter (λ c : string * string, c.1 ≠ user) (tunnels b) |>.
(** An activity event that is removed ([ON DELETE SET NULL]). *)
Definition forget_activities (l : gset Z) (b : webhook_db) : webhook_db :=
  update_deliveries (λ d, match dl_SourceEventID d with Some a => bool_decide (a ∈ l) | None => false end)
    (λ d, d <| dl_SourceEventID := None |>) b.

(** The attempts [RecoverInterrupted] gives up. *)
Definition interrupted (b : webhook_db) (now : Z) : list entry :=
  omap (λ ka : string * Z * attempt,
    if bool_decide (at_Status ka.2 = APending) &&
       match deliveries b !! ka.1.1 with Some d => lapsed now d | None => false end
    then Some (Interrupted ka.1.1 ka.1.2 now) else None) (map_to_list (attempts b)).

Section System.
Context (Decode Unmarshal : string → result json) (Encode : json → string).
Context (ParseRequestURI : string → result request_uri) (LookupIP : string → result (list IP)).
Context (ParseRFC3339 : string → option Z).

Definition set_db (s : webhook_system) (b : webhook_db) : webhook_system := s <| ws_db := b |>.
(** Identifiers are generated at random: one that is new. *)
Definition with_ids (s : webhook_system) (ids : list string) (k : webhook_system) : option webhook_system :=
  if decide (NoDup ids ∧ Forall (λ id, id ∉ ws_ids s) ids)
  then Some (k <| ws_ids := list_to_set ids ∪ ws_ids s |>) else None.

(** The identifiers generated for an activity event. *)
Definition activity_ids (b : webhook_db) (p : preparedActivitySpec) (newID : string → string) : list string :=
  match webhookEventTargetKinds !! event_type p with
  | Some kind => (λ c, "dlv_" +:+ newID c.1)%string <$> candidates b (pr_ScopeUserID p) (event_type p) kind
  | None => []
  end.

Definition claim (s : webhook_system) (owner : string) (now : Z) : webhook_system :=
  match ClaimDue Decode Encode (ws_db s) owner now with
  | (Ok (Some d), b) =>
      s <| ws_db := b |> <| ws_running := ws_running s ++ [d] |>
        <| ws_log := ws_log s ++ [Started owner (sd_ID d) (dl_AttemptCount (sd_Row d)) now] |>
  | (_, b) => s <| ws_db := b |>
  end.

(** A request has ended: its goroutine records the result and returns. *)
Definition complete (s : webhook_system) (d : webhookStoredDelivery) (r : webhookAttemptResult) : webhook_system :=
  match CompleteAttempt (ws_db s) d r with
  | Ok (_, b) => s <| ws_db := b |> <| ws_log := ws_log s ++ [Answered (sd_ID d) (dl_AttemptCount (sd_Row d))] |>
  | Err _ => s
  end.

Definition perform (a : action) (s : webhook_system) : option webhook_system :=
  let b := ws_db s in
  match a with
  | ACreate owner raw st now =>
      Some (set_db s (Create Decode Unmarshal Encode ParseRequestURI LookupIP b owner raw st now).2)
  | AUpdate owner id raw st now =>
      Some (set_db s (Update Decode Unmarshal Encode ParseRequestURI LookupIP b owner id raw st now).2)
  | ASetEnabled owner id current enabled st now =>
      Some (set_db s (SetEnabled Decode Unmarshal Encode ParseRequestURI LookupIP b owner id current enabled st now).2)
  | ADisableViolating violating now => Some (set_db s (DisableWebhooksViolatingPrivatePolicy b violating now))
  | ADelete owner id now => Some (set_db s (Delete b owner id now).2)
  | AEnqueueTest owner raw event st newID now => with_ids s ["dlv_" +:+ newID]%string
      (set_db s (EnqueueTest Decode Unmarshal Encode ParseRequestURI LookupIP ParseRFC3339
                   b owner raw event st newID now).2)
  | AReplay owner original current st newID now => with_ids s ["dlv_" +:+ newID]%string
      (set_db s (Replay Decode Encode ParseRFC3339 b owner original current st newID now).2)
  | AActivity activityID p newID =>
      with_ids s (activity_ids b p newID)
        match enqueueActivityWebhookDeliveriesTx Decode Encode ParseRFC3339 b activityID p newID with
        | Ok b => set_db s b
        | Err _ => s
        end
  | ADue now sql =>
      if negb (idle_loop (ws_loop s)) then None else
      if sql then Some (s <| ws_loop := DIdle |>) else
      let '(canceled, b) := cancelUndeliverableWaiting b now in
      Some ((set_db s b) <| ws_loop := if 0 <? canceled then DPrune now else DScan now |>)
  | APruneDue sql =>
      match ws_loop s with
      | DPrune now => Some (if sql then s <| ws_loop := DIdle |>
                            else (set_db s (Prune b now)) <| ws_loop := DScan now |>)
      | _ => None
      end
  | AScan sql =>
      match ws_loop s with
      | DScan now => Some (s <| ws_loop := if sql then DIdle else DClaim (due_owners b now webhookDispatchBatch) |>)
      | _ => None
      end
  | AClaim now sql =>
      match ws_loop s with
      | DClaim (owner :: owners) => Some ((if sql then s else claim s owner now) <| ws_loop := DClaim owners |>)
      | _ => None
      end
  | ARecover now =>
      if negb (idle_loop (ws_loop s)) then None else
      Some ((set_db s (RecoverInterrupted b now)) <| ws_log := ws_log s ++ interrupted b now |>)
  | APrune now => if negb (idle_loop (ws_loop s)) then None else Some (set_db s (Prune b now))
  | AComplete i r sql =>
      d ← ws_running s !! i;
      Some ((if sql then s else complete s d r) <| ws_running := delete i (ws_running s) |>)
  | AUser user status =>
      if decide (user ∈ ws_users s) then None else
      Some ((set_db s (b <| users := <[user := status]> (users b) |>)) <| ws_users := {[user]} ∪ ws_users s |>)
  | AUserStatus user status =>
      Some (set_db s (b <| users := alter (λ _, status) user (users b) |>))
  | AUserDelete user => Some (set_db s (delete_user user b))
  | ATargets clients tunnel_set =>
      Some (set_db s (b <| registered_clients := clients |> <| tunnels := tunnel_set |>))
  | AActivityPruned activities => Some (set_db s (forget_activities activities b))
  | ARestart => Some (s <| ws_loop := DIdle |> <| ws_running := [] |>)
  end.

Definition empty_system : webhook_system := {|
  ws_db := {| users := ∅; registered_clients := ∅; tunnels := ∅; hooks := ∅; deliveries := ∅;
              attempts := ∅; slots := ∅ |};
  ws_loop := DIdle; ws_running := []; ws_ids := ∅; ws_users := ∅; ws_log := [] |}.

Fixpoint perform_all (l : list action) (s : webhook_system) : option webhook_system :=
  match l with
  | [] => Some s
  | a :: l => s ← perform a s; perform_all l s
  end.
End System.
