(* ===== verification/WebhookChanges.v ===== *)
(** What a transaction of the webhook store may do to deliveries, as a few
    kinds of change; every action of the system is made of them.

    The invariants of the queue are proved one kind of change at a time. *)
From Stdlib Require Import ZArith Lia Ascii String.
From stdpp Require Import base tactics numbers list gmap strings relations.
From S2P Require Import Prelude Records GoNet GoIO WebhookModel WebhookQueue WebhookRuns.

(** The columns of a delivery that never change. *)
Definition same_delivery (d e : delivery) : Prop :=
  dl_Owner d = dl_Owner e ∧ dl_WebhookID d = dl_WebhookID e ∧ dl_Origin d = dl_Origin e ∧
  dl_MaxAttempts d = dl_MaxAttempts e ∧ dl_Config d = dl_Config e ∧ dl_Values d = dl_Values e.

(** The columns the queue goes by. *)
Definition same_place (d e : delivery) : Prop :=
  same_delivery d e ∧ dl_Status d = dl_Status e ∧ dl_AttemptCount d = dl_AttemptCount e ∧
  dl_NextAttemptAt d = dl_NextAttemptAt e ∧ dl_LeaseUntil d = dl_LeaseUntil e ∧
  dl_CompletedAt d = dl_CompletedAt e.

Definition has_user (b : webhook_db) (user : string) : Prop := is_Some (users b !! user).

(** A delivery that nobody has tried to send. *)
Record untried (d : delivery) : Prop := {
  untried_status : dl_Status d = Queued;
  untried_count : dl_AttemptCount d = 0;
  untried_lease : dl_LeaseUntil d = None;
  untried_open : dl_CompletedAt d = None;
  untried_max : 1 ≤ dl_MaxAttempts d ≤ 3;
}.

(** The verdict [d'] on the delivery [d] after its attempt [n]. *)
Record answered (d d' : delivery) (n : Z) (result : attempt_status) : Prop := {
  answered_same : same_delivery d' d;
  answered_count : dl_AttemptCount d' = dl_AttemptCount d;
  answered_lease : dl_LeaseUntil d' = None;
  answered_status : dl_Status d' ≠ Queued;
  answered_result : result = if bool_decide (dl_Status d' = Success) then ASuccess else AFailed;
  answered_again : dl_Status d' = Retrying → n < dl_MaxAttempts d;
  answered_open : is_Some (dl_CompletedAt d') ↔ waiting (dl_Status d') = false;
}.

(** No attempt at the delivery, or for the user, was ever made. *)
Definition entry_id (e : entry) : string :=
  match e with Started _ id _ _ | Answered id _ | Interrupted id _ _ => id end.
Definition started_for (user : string) (e : entry) : Prop :=
  match e with Started owner _ _ _ => owner = user | _ => False end.
Definition unknown (id : string) (log : list entry) : Prop := Forall (λ e, entry_id e ≠ id) log.
Definition stranger (user : string) (log : list entry) : Prop := Forall (λ e, ¬ started_for user e) log.

Definition core : Type := webhook_db * list entry.

Section Changes.
(** The identifiers of the deliveries, and of the users, that may be inserted. *)
Context (new newcomers : gset string).

Inductive change : core → core → Prop :=
| change_other b b' log :
    deliveries b' = deliveries b → attempts b' = attempts b → slots b' = slots b →
    (∀ u, has_user b u ↔ has_user b' u) → change (b, log) (b', log)
| change_add_user b user status log :
    user ∈ newcomers → stranger user log → change (b, log) (b <| users := <[user := status]> (users b) |>, log)
| change_edit b P f log :
    (∀ d, P d = true → same_place (f d) d) → change (b, log) (update_deliveries P f b, log)
| change_cancel b P error now log :
    (∀ d, P d = true → idle d = true) → change (b, log) (update_deliveries P (cancel error now) b, log)
| change_remove b P log :
    (∀ id d, P id d = true → waiting (dl_Status d) = false) → change (b, log) (delete_deliveries P b, log)
| change_user b user log : change (b, log) (delete_user user b, log)
| change_insert b id d log :
    deliveries b !! id = None → id ∈ new → unknown id log → has_user b (dl_Owner d) → untried d →
    count_deliveries (owned_waiting (dl_Owner d)) b < webhookMaxPendingPerUser →
    change (b, log) (b <| deliveries := <[id := d]> (deliveries b) |>, log)
| change_claim b id d now rendered log :
    deliveries b !! id = Some d → idle d = true → dl_NextAttemptAt d ≤ now → next_allowed b (dl_Owner d) ≤ now →
    change (b, log)
      (b <| deliveries := <[id := claim_row now rendered d]> (deliveries b) |>
         <| attempts := <[(id, dl_AttemptCount d + 1) := pending_attempt now]> (attempts b) |>
         <| slots := <[dl_Owner d := now + webhookUserStartInterval]> (slots b) |>,
       log ++ [Started (dl_Owner d) id (dl_AttemptCount d + 1) now])
| change_answer b id n d d' a a' log :
    attempts b !! (id, n) = Some a → at_Status a = APending → deliveries b !! id = Some d →
    answered d d' n (at_Status a') →
    change (b, log)
      (b <| attempts := <[(id, n) := a']> (attempts b) |> <| deliveries := <[id := d']> (deliveries b) |>,
       log ++ [Answered id n])
| change_interrupt b now log :
    change (b, log)
      (update_deliveries (λ d, waiting (dl_Status d) && lapsed now d) (interrupt now)
         (b <| attempts := map_imap (λ k a, Some
            (if bool_decide (at_Status a = APending) &&
                match deliveries b !! k.1 with Some d => lapsed now d | None => false end
             then interrupt_attempt now a else a)) (attempts b) |>),
       log ++ interrupted b now).
End Changes.

Lemma first_due_elem l d : first_due l = Some d → d ∈ l.
Proof.
  revert d. induction l as [|x l IH]; intros d; cbn; [done|].
  destruct (first_due l) as [e|]; [|intros [= ->]; by left].
  destruct (due_first _ _); intros [= <-]; [right; by apply IH|by left].
Qed.

Lemma elem_of_select P b id d : (id, d) ∈ select P b ↔ deliveries b !! id = Some d ∧ P d = true.
Proof. unfold select. rewrite list_elem_of_filter, elem_of_map_to_list. cbn. tauto. Qed.

(** ** What each transaction consists of *)

Section Transactions.
Context (Decode Unmarshal : string → result json) (Encode : json → string).
Context (ParseRequestURI : string → result request_uri) (LookupIP : string → result (list IP)).
Context (ParseRFC3339 : string → option Z).
Context (new newcomers : gset string).
Notation changes := (rtc (change new newcomers)).

Lemma changes_other b b' log :
  deliveries b' = deliveries b → attempts b' = attempts b → slots b' = slots b →
  (∀ u, has_user b u ↔ has_user b' u) → changes (b, log) (b', log).
Proof. intros. by apply rtc_once, change_other. Qed.

Lemma expired_done b now id d : expired b now id d = true → waiting (dl_Status d) = false.
Proof. unfold expired. intros [? _]%andb_true_iff. by apply negb_true_iff. Qed.

Lemma changes_Prune b now log : changes (b, log) (Prune b now, log).
Proof. apply rtc_once, change_remove, expired_done. Qed.
Lemma changes_prune b owner id now log :
  changes (b, log) (pruneWebhookHistoryTx b owner id now, log).
Proof. apply rtc_once, change_remove. intros ? ? [_ H]%andb_true_iff. by eapply expired_done. Qed.
Lemma changes_cancelWaiting b owner id now log :
  changes (b, log) (cancelWaitingWebhookDeliveriesTx b owner id now, log).
Proof. apply rtc_once, change_cancel. by intros ? [_ H]%andb_true_iff. Qed.
Lemma changes_drop b owner id now log : changes (b, log) (drop_waiting b owner id now, log).
Proof. unfold drop_waiting. etrans; [apply changes_cancelWaiting|apply changes_prune]. Qed.
Lemma changes_undeliverable b now log :
  changes (b, log) ((cancelUndeliverableWaiting b now).2, log).
Proof. apply rtc_once, change_cancel. by intros ? [H _]%andb_true_iff. Qed.

(** [hooks] may be set to anything. *)
Lemma changes_hooks b h log : changes (b, log) (b <| hooks := h |>, log).
Proof. by apply changes_other. Qed.

Lemma changes_health b d status now log :
  changes (b, log) (update_health_unless_test b d status now, log).
Proof. unfold update_health_unless_test. case_bool_decide; [done|]. destruct status; done || apply changes_hooks. Qed.

Lemma changes_disable violating b now log :
  changes (b, log) (DisableWebhooksViolatingPrivatePolicy b violating now, log).
Proof.
  revert b. induction violating as [|ref l IH]; intros b; [done|]. etrans; [|apply IH]. cbn.
  unfold disable_violating. destruct (hooks b !! ref) as [w|]; [|done]. destruct (hk_Enabled w); [|done].
  etrans; [apply changes_hooks|apply changes_drop].
Qed.

Lemma changes_set_enabled b owner id current enabled s now log :
  changes (b, log)
    ((SetEnabled Decode Unmarshal Encode ParseRequestURI LookupIP b owner id current enabled s now).2, log).
Proof.
  unfold SetEnabled. case_bool_decide; [done|]. destruct (if enabled then _ else _); [|done].
  destruct (hooks b !! (owner, id)) as [w|]; [|done]. cbn. destruct (_ =? _); [|done]. cbn.
  destruct (Get _ _ _ _); [|done]. cbn. destruct (_ && _).
  - etrans; [apply changes_hooks|apply changes_drop].
  - apply changes_hooks.
Qed.

Lemma changes_update b owner id raw s now log :
  changes (b, log) ((Update Decode Unmarshal Encode ParseRequestURI LookupIP b owner id raw s now).2, log).
Proof.
  unfold Update. destruct (_ <? _); [done|]. destruct (validate _ _ _ _ _ _ _); [|done].
  destruct (hooks b !! (owner, id)) as [w|]; [|done]. cbn. destruct (_ =? _); [|done]. cbn.
  destruct (validateWebhookTargetsTx _ _ _ _ _); [|done]. cbn. destruct (Get _ _ _ _); [|done]. cbn.
  destruct (_ && _).
  - etrans; [apply changes_hooks|apply changes_drop].
  - apply changes_hooks.
Qed.

Lemma changes_create b owner raw s now log :
  changes (b, log) ((Create Decode Unmarshal Encode ParseRequestURI LookupIP b owner raw s now).2, log).
Proof.
  unfold Create. destruct (validate _ _ _ _ _ _ _); [|done]. destruct (_ <=? _); [done|].
  destruct (validateWebhookTargetsTx _ _ _ _ _); [|done]. cbn. case_bool_decide; [done|].
  destruct (negb _); [done|]. destruct (Get _ _ _ _); [|done]. cbn. apply changes_hooks.
Qed.

Lemma changes_delete b owner id now log : changes (b, log) ((Delete b owner id now).2, log).
Proof.
  unfold Delete. destruct (hooks (drop_waiting _ _ _ _) !! _); [|done]. cbn.
  etrans; [apply changes_drop|apply changes_hooks].
Qed.

Lemma changes_insert b owner config e v origin source maxAttempts now b' id log :
  insertWebhookDeliveryTx Decode Encode ParseRFC3339 b owner config e v origin source maxAttempts now = Ok b' →
  v !! "delivery.id"%string = Some (VText id) → id ∈ new ∧ unknown id log → 1 ≤ maxAttempts ≤ 3 →
  changes (b, log) (b', log).
Proof.
  unfold insertWebhookDeliveryTx, ensurePendingCapTx, insert_delivery_row. intros H Hv [Hid Hlog] Hmax.
  destruct (_ <=? _) eqn:Hcap in H; [done|]. apply Z.leb_gt in Hcap. cbn in H. rewrite Hv in H.
  destruct (render _ _ _ _ _) as [rendered|]; [|done]. cbn in H.
  destruct (refuse _ _); [|done]. cbn in H. case_bool_decide; [done|]. cbn in H.
  destruct (0 <? _); [done|]. cbn in H. case_bool_decide; [|done]. cbn in H. injection H as <-.
  apply rtc_once, change_insert; [by apply eq_None_not_Some|done..|by split|done].
Qed.

Lemma values_delivery_id e id hook name : values e id hook name !! "delivery.id"%string = Some (VText id).
Proof.
  unfold values, supportedWebhookLocales. cbn [foldl].
  do 2 destruct (localizeWebhookEvent _ _). destruct (if (_ && _) then _ else _) as [client|];
    destruct (ev_Tunnels e) as [|t [|? ?]]; cbn [length Nat.eqb]; repeat match goal with |- context [if ?c then _ else _] => destruct c end;
    rewrite ?lookup_insert_ne by (intros E; vm_compute in E; discriminate);
    apply lookup_insert_eq.
Qed.

Lemma changes_test b owner raw event s newID now log :
  (let id := "dlv_" +:+ newID in id ∈ new ∧ unknown id log)%string →
  changes (b, log) ((EnqueueTest Decode Unmarshal Encode ParseRequestURI LookupIP ParseRFC3339
                       b owner raw event s newID now).2, log).
Proof.
  intros Hid. unfold EnqueueTest. destruct (validate _ _ _ _ _ _ _); [|done]. destruct (negb _); [done|].
  destruct (validateWebhookTargetsTx _ _ _ _ _); [|done]. cbn.
  destruct (ensureDailyCapTx _ _ _ _); [|done]. cbn.
  destruct (insertWebhookDeliveryTx _ _ _ _ _ _ _ _ _ _ _ _) as [b'|] eqn:Hi; [|done]. cbn.
  unfold get_inserted. destruct (deliveries b' !! _) as [row|]; cbn; [|done]. destruct (dl_Owner row =?s owner); cbn; [|done].
  eapply changes_insert; [done|apply values_delivery_id|done|lia].
Qed.

Lemma changes_replay b owner original current s newID now log :
  (let id := "dlv_" +:+ newID in id ∈ new ∧ unknown id log)%string →
  changes (b, log) ((Replay Decode Encode ParseRFC3339 b owner original current s newID now).2, log).
Proof.
  intros Hid. unfold Replay. case_bool_decide; [done|]. destruct (negb _); [done|]. case_bool_decide; [done|].
  destruct (ensureDailyCapTx _ _ _ _); [|done]. cbn.
  destruct (insertWebhookDeliveryTx _ _ _ _ _ _ _ _ _ _ _ _) as [b'|] eqn:Hi; [|done]. cbn.
  unfold get_inserted. destruct (deliveries b' !! _) as [row|]; cbn; [|done]. destruct (dl_Owner row =?s owner); cbn; [|done].
  eapply changes_insert; [done|apply values_delivery_id|done|lia].
Qed.

Lemma changes_enqueue activityID p newID l b b' log :
  Forall (λ c, let id := "dlv_" +:+ newID c.1 in id ∈ new ∧ unknown id log)%string l →
  enqueue_all Decode Encode ParseRFC3339 activityID p newID b l = Ok b' → changes (b, log) (b', log).
Proof.
  intros Hl. revert b. induction Hl as [|c l Hc _ IH]; intros b; cbn; [by intros [= ->]|].
  unfold enqueue_candidate. case_bool_decide; cbn; [by auto|].
  destruct (insertWebhookDeliveryTx _ _ _ _ _ _ _ _ _ _ _ _) as [b1|e] eqn:Hi; cbn.
  - intros Hr. etrans; [|by apply IH]. eapply changes_insert; [done|apply values_delivery_id|done|lia].
  - destruct (_ || _); [by auto|done].
Qed.

Lemma changes_activity activityID p newID b log :
  (∀ kind, webhookEventTargetKinds !! event_type p = Some kind →
    Forall (λ c, let id := "dlv_" +:+ newID c.1 in id ∈ new ∧ unknown id log)%string (candidates b (pr_ScopeUserID p) (event_type p) kind)) →
  changes (b, log) (match enqueueActivityWebhookDeliveriesTx Decode Encode ParseRFC3339 b activityID p newID with
                    | Ok b' => b' | Err _ => b end, log).
Proof.
  intros Hnew. unfold enqueueActivityWebhookDeliveriesTx. destruct (_ || _); [done|].
  destruct (_ !! event_type p) as [kind|]; [|done].
  destruct (enqueue_all _ _ _ _ _ _ _ _) as [b'|] eqn:He; [|done]. eapply changes_enqueue; [|done]. by apply Hnew.
Qed.

(** A claim, when it gives a delivery, and that nothing else happens. *)
Lemma ClaimDue_spec b owner now :
  (∃ id d rendered, let n := dl_AttemptCount d + 1 in
    deliveries b !! id = Some d ∧ dl_Owner d = owner ∧ due now d = true ∧ next_allowed b owner ≤ now ∧
    ClaimDue Decode Encode b owner now =
      (Ok (Some {| sd_ID := id; sd_Row := d <| dl_AttemptCount := n |>
                     <| dl_LeaseUntil := Some (now + webhookDeliveryLease) |> <| dl_Request := rendered |> |}),
       b <| deliveries := <[id := claim_row now (json_request rendered) d]> (deliveries b) |>
         <| attempts := <[(id, n) := pending_attempt now]> (attempts b) |>
         <| slots := <[owner := now + webhookUserStartInterval]> (slots b) |>)) ∨
  (∃ r, ClaimDue Decode Encode b owner now = (r, b) ∧ ∀ d, r ≠ Ok (Some d)).
Proof.
  unfold ClaimDue. destruct (_ <? _) eqn:Hslot; [right; by eexists|]. apply Z.ltb_ge in Hslot.
  destruct (first_due _) as [[id d]|] eqn:Hd; [|right; by eexists]. cbn.
  destruct (render _ _ _ _ _) as [rendered|]; [|right; by eexists]. cbn.
  case_bool_decide; [right; by eexists|]. left. exists id, d, rendered.
  apply first_due_elem, elem_of_select in Hd as [Hd [Ho Hdue]%andb_true_iff]. apply eqb_str_true in Ho as <-.
  by repeat split.
Qed.

Lemma changes_interrupted b now log :
  changes (b, log) (RecoverInterrupted b now, log ++ interrupted b now).
Proof.
  unfold RecoverInterrupted. eapply rtc_l; [apply (change_interrupt _ _ b now)|]. generalize (log ++ interrupted b now). intros log'.
  generalize ((select (λ d, waiting (dl_Status d) && lapsed now d && (dl_MaxAttempts d <=? dl_AttemptCount d)) b).*2).
  intros l. set (b' := update_deliveries _ _ _). clearbody b'. revert b'.
  induction l as [|d l IH]; intros b'; [done|]. cbn. etrans; [|apply IH].
  etrans; [apply changes_health|apply changes_prune].
Qed.
End Transactions.
