(* ===== verification/WebhookInv.v ===== *)
(** The invariant of the webhook queue, one kind of change at a time: the shape
    of a delivery and its attempts, the cap on what waits, and how the log of
    attempts agrees with the rows. *)
From Stdlib Require Import ZArith Lia Ascii String.
From stdpp Require Import base tactics numbers list gmap strings relations sorting.
From S2P Require Import Prelude Records GoNet GoIO WebhookModel WebhookQueue WebhookRuns WebhookChanges.

Definition status_at (b : webhook_db) (id : string) (n : Z) : option attempt_status :=
  at_Status <$> attempts b !! (id, n).

(** A delivery and the statuses of its attempts: they are numbered from one to
    the count; all but the last failed; the last is pending exactly while the
    delivery is leased, and says how it ended otherwise. *)
Record delivery_ok (A : Z → option attempt_status) (d : delivery) : Prop := {
  ok_max : 1 ≤ dl_MaxAttempts d ≤ 3;
  ok_count : 0 ≤ dl_AttemptCount d ≤ dl_MaxAttempts d;
  ok_numbers n : is_Some (A n) ↔ 1 ≤ n ≤ dl_AttemptCount d;
  ok_earlier n : 1 ≤ n < dl_AttemptCount d → A n = Some AFailed;
  ok_leased t : dl_LeaseUntil d = Some t →
    waiting (dl_Status d) = true ∧ 1 ≤ dl_AttemptCount d ∧ A (dl_AttemptCount d) = Some APending;
  ok_last : dl_LeaseUntil d = None → 1 ≤ dl_AttemptCount d →
    A (dl_AttemptCount d) = Some (if bool_decide (dl_Status d = Success) then ASuccess else AFailed);
  ok_room : idle d = true → dl_AttemptCount d < dl_MaxAttempts d;
  ok_open : is_Some (dl_CompletedAt d) ↔ waiting (dl_Status d) = false;
  ok_queued : dl_Status d = Queued → dl_LeaseUntil d = None → dl_AttemptCount d = 0;
  ok_tried : dl_Status d ≠ Queued → dl_Status d ≠ Canceled → 1 ≤ dl_AttemptCount d;
}.

(** The rows: every delivery is in order, every attempt belongs to one, every
    delivery to a user, and no user has more than a thousand waiting. *)
Record rows_ok (b : webhook_db) : Prop := {
  rows_delivery id d : deliveries b !! id = Some d → delivery_ok (status_at b id) d;
  rows_attempt id n : is_Some (attempts b !! (id, n)) → is_Some (deliveries b !! id);
  rows_user id d : deliveries b !! id = Some d → has_user b (dl_Owner d);
  rows_cap owner : count_deliveries (owned_waiting owner) b ≤ webhookMaxPendingPerUser;
}.

Lemma delivery_ok_ext A B d : (∀ n, A n = B n) → delivery_ok A d → delivery_ok B d.
Proof.
  intros H []. split; try done; intros; rewrite <- ?H; eauto.
Qed.

Lemma same_place_idle d e : same_place d e → idle d = idle e.
Proof. intros (_ & Hs & _ & _ & Hl & _). unfold idle. by rewrite Hs, Hl. Qed.

Lemma delivery_ok_place A d e : same_place d e → delivery_ok A e → delivery_ok A d.
Proof.
  intros Hp. pose proof (same_place_idle _ _ Hp) as Hi.
  destruct Hp as ((_ & _ & _ & Hm & _) & Hs & Hc & _ & Hl & Ho).
  intros []. split; rewrite ?Hi, ?Hm, ?Hs, ?Hc, ?Hl, ?Ho; done.
Qed.

Lemma untried_ok A d : untried d → (∀ n, A n = None) → delivery_ok A d.
Proof.
  intros [Hs Hc Hl Ho Hm] HA. split; rewrite ?Hs, ?Hc, ?Hl, ?Ho; try done; try lia.
  intros n. rewrite HA. split; [by intros []|lia].
Qed.

Lemma cancel_delivery_ok A error now d : idle d = true → delivery_ok A d → delivery_ok A (cancel error now d).
Proof.
  unfold idle. intros [Hw Hl]%andb_true_iff Hd. apply bool_decide_eq_true in Hl.
  pose proof (ok_last _ _ Hd Hl) as Hlast. destruct Hd. split; cbn; try done.
  intros _ Hc. rewrite (Hlast Hc). destruct (dl_Status d); done.
Qed.

Lemma claim_ok A A' now rendered d :
  idle d = true → delivery_ok A d → A' (dl_AttemptCount d + 1) = Some APending →
  (∀ n, n ≠ dl_AttemptCount d + 1 → A' n = A n) → delivery_ok A' (claim_row now rendered d).
Proof.
  intros Hi Hd Hnew Hold. pose proof (ok_room _ _ Hd Hi) as Hroom.
  unfold idle in Hi. apply andb_true_iff in Hi as [Hw Hl]. apply bool_decide_eq_true in Hl.
  pose proof (ok_last _ _ Hd Hl) as Hlast. destruct Hd. split; cbn; try done; try lia.
  - intros n. destruct (decide (n = dl_AttemptCount d + 1)) as [->|Hne].
    + rewrite Hnew. split; [lia|by eexists].
    + rewrite Hold by done. rewrite ok_numbers0. lia.
  - intros n Hn. rewrite Hold by lia. destruct (decide (n = dl_AttemptCount d)) as [->|Hne]; [|apply ok_earlier0; lia].
    rewrite Hlast by lia. by destruct (dl_Status d).
  - intros t _. split_and!; [done|lia|done].
  - intros H. apply andb_true_iff in H as [_ H]. done.
Qed.

Lemma answered_ok A A' d d' n result :
  delivery_ok A d → A n = Some APending → answered d d' n result →
  A' n = Some result → (∀ m, m ≠ n → A' m = A m) → n = dl_AttemptCount d ∧ delivery_ok A' d'.
Proof.
  intros Hd Hp [(_ & _ & _ & Hmax & _) Hcount Hlease Hq Hres Hagain Hopen] Hn Hne.
  assert (Hr : 1 ≤ n ≤ dl_AttemptCount d) by (apply (ok_numbers _ _ Hd); exact (mk_is_Some _ _ Hp)).
  assert (n = dl_AttemptCount d) as ->.
  { destruct (decide (n = dl_AttemptCount d)) as [|Hlt]; [done|].
    rewrite (ok_earlier _ _ Hd) in Hp by lia. done. }
  split; [done|].
  destruct Hd. split; rewrite ?Hcount, ?Hmax; try done.
  - intros m. destruct (decide (m = dl_AttemptCount d)) as [->|Hm]; [rewrite Hn|by rewrite Hne].
    split; [lia|by eexists].
  - intros m Hm. rewrite Hne by lia. auto.
  - intros t Ht. congruence.
  - intros _ _. by rewrite Hn, Hres.
  - unfold idle. intros [Hw _]%andb_true_iff. apply Hagain. by destruct (dl_Status d').
  - intros _ _. lia.
Qed.

Lemma interrupt_ok A A' now d t :
  delivery_ok A d → dl_LeaseUntil d = Some t → A' (dl_AttemptCount d) = Some AFailed →
  (∀ n, n ≠ dl_AttemptCount d → A' n = A n) → delivery_ok A' (interrupt now d).
Proof.
  intros Hd Hl Hn Hne. destruct (ok_leased _ _ Hd t Hl) as (Hw & Hc & Hp). destruct Hd. split; cbn; try done; try lia.
  - intros m. destruct (decide (m = dl_AttemptCount d)) as [->|Hm]; [rewrite Hn|by rewrite Hne].
    split; [lia|by eexists].
  - intros m Hm. rewrite Hne by lia. auto.
  - intros _ _. rewrite Hn. by destruct (_ <? _).
  - unfold idle. cbn. destruct (_ <? _) eqn:Hlt; cbn; [by apply Z.ltb_lt in Hlt|done].
  - destruct (_ <? _); cbn; split; done || (by intros []) || by eexists.
  - intros H. by destruct (_ <? _).
Qed.

(** ** Counting *)

Lemma count_deliveries_le P b b' :
  (∀ id d', deliveries b' !! id = Some d' → P d' = true → ∃ d, deliveries b !! id = Some d ∧ P d = true) →
  count_deliveries P b' ≤ count_deliveries P b.
Proof.
  intros H. unfold count_deliveries. apply inj_le. rewrite <- !size_dom. apply subseteq_size. intros id.
  rewrite !elem_of_dom. intros [d' [Hd' Hp]%map_lookup_filter_Some]. destruct (H id d' Hd' Hp) as (d & Hd & Hpd).
  exists d. by apply map_lookup_filter_Some.
Qed.

Lemma count_deliveries_insert P b id d :
  deliveries b !! id = None →
  count_deliveries P (b <| deliveries := <[id := d]> (deliveries b) |>) =
    count_deliveries P b + if P d then 1 else 0.
Proof.
  intros Hid. unfold count_deliveries. cbn. rewrite map_filter_insert. cbn. destruct (P d); case_decide; try done.
  - rewrite map_size_insert_None by by apply map_lookup_filter_None_2; left. lia.
  - rewrite delete_id by done. lia.
Qed.

(** ** Rows after a change *)

Lemma update_deliveries_lookup P f b id :
  deliveries (update_deliveries P f b) !! id = (λ d, if P d then f d else d) <$> deliveries b !! id.
Proof. apply lookup_fmap. Qed.
Lemma delete_deliveries_lookup P b id d :
  deliveries (delete_deliveries P b) !! id = Some d ↔ deliveries b !! id = Some d ∧ P id d = false.
Proof. cbn. by rewrite map_lookup_filter_Some. Qed.
Lemma delete_deliveries_status P b id d n :
  deliveries (delete_deliveries P b) !! id = Some d → status_at (delete_deliveries P b) id n = status_at b id n.
Proof.
  intros Hd. unfold status_at. cbn in Hd |- *. f_equal. destruct (attempts b !! (id, n)) as [a|] eqn:Ha.
  - apply map_lookup_filter_Some. cbn. by rewrite Hd.
  - apply map_lookup_filter_None. by left.
Qed.
Lemma delete_deliveries_attempt P b id n :
  is_Some (attempts (delete_deliveries P b) !! (id, n)) → is_Some (deliveries (delete_deliveries P b) !! id).
Proof. cbn. by intros [a [_ H]%map_lookup_filter_Some]. Qed.

(** The rows stay in order when deliveries come from deliveries, their attempts
    are in order, their users stay, and nothing starts to wait. *)
Lemma rows_ok_from b b' :
  rows_ok b →
  (∀ id d', deliveries b' !! id = Some d' → ∃ d, deliveries b !! id = Some d ∧ dl_Owner d' = dl_Owner d ∧
     (has_user b (dl_Owner d) → has_user b' (dl_Owner d)) ∧
     (waiting (dl_Status d') = true → waiting (dl_Status d) = true) ∧
     (delivery_ok (status_at b id) d → delivery_ok (status_at b' id) d')) →
  (∀ id n, is_Some (attempts b' !! (id, n)) → is_Some (deliveries b' !! id)) →
  rows_ok b'.
Proof.
  intros Hb Hd Ha. split; [| done | |].
  - intros id d' H. destruct (Hd id d' H) as (d & H' & _ & _ & _ & Hok). eauto using rows_delivery.
  - intros id d' H. destruct (Hd id d' H) as (d & H' & -> & Hu & _). eauto using rows_user.
  - intros owner. etrans; [|by apply rows_cap]. apply count_deliveries_le. intros id d' H.
    destruct (Hd id d' H) as (d & H' & Ho & _ & Hw & _). unfold owned_waiting. rewrite Ho.
    intros [? ?]%andb_true_iff. exists d. rewrite andb_true_iff. auto.
Qed.

Lemma rows_update P f b :
  rows_ok b →
  (∀ d, P d = true → dl_Owner (f d) = dl_Owner d ∧ (waiting (dl_Status (f d)) = true → waiting (dl_Status d) = true)) →
  (∀ id d, deliveries b !! id = Some d → P d = true → delivery_ok (status_at b id) d → delivery_ok (status_at b id) (f d)) →
  rows_ok (update_deliveries P f b).
Proof.
  intros Hb Hf Hok. apply (rows_ok_from b); [done| |].
  - intros id d'. rewrite update_deliveries_lookup. intros (d & Hd & ->)%fmap_Some. exists d.
    destruct (P d) eqn:HP; [|by split_and!]. destruct (Hf d HP) as [Ho Hw]. split_and!; try done. intros. by apply Hok.
  - intros id n H. rewrite update_deliveries_lookup, fmap_is_Some. by eapply rows_attempt.
Qed.

Lemma rows_edit P f b : rows_ok b → (∀ d, P d = true → same_place (f d) d) → rows_ok (update_deliveries P f b).
Proof.
  intros Hb Hf. apply rows_update; [done| |].
  - intros d HP. destruct (Hf d HP) as ((? & _) & Hs & _). split; [done|by rewrite Hs].
  - intros id d _ HP. by apply delivery_ok_place, Hf.
Qed.

Lemma rows_cancel P error now b :
  rows_ok b → (∀ d, P d = true → idle d = true) → rows_ok (update_deliveries P (cancel error now) b).
Proof. intros Hb HP. apply rows_update; [done|done|]. intros id d _ Hd. apply cancel_delivery_ok; auto. Qed.

Lemma rows_delete P b : rows_ok b → rows_ok (delete_deliveries P b).
Proof.
  intros Hb. apply (rows_ok_from b); [done| |apply delete_deliveries_attempt].
  intros id d Hd. pose proof Hd as [Hd' _]%delete_deliveries_lookup. exists d. split_and!; try done.
  apply delivery_ok_ext. intros n. by rewrite (delete_deliveries_status _ _ _ _ _ Hd).
Qed.

Lemma rows_delete_user user b : rows_ok b → rows_ok (delete_user user b).
Proof.
  intros Hb. apply (rows_ok_from (delete_deliveries (λ _ d, dl_Owner d =?s user) b)); [by apply rows_delete| |].
  - intros id d Hd. exists d. split_and!; try done.
    apply delete_deliveries_lookup in Hd as [_ Hne]. apply eqb_str_false in Hne.
    unfold has_user. cbn. by rewrite lookup_delete_ne.
  - intros id n. apply delete_deliveries_attempt.
Qed.

Lemma rows_insert b id d :
  rows_ok b → deliveries b !! id = None → has_user b (dl_Owner d) → untried d →
  count_deliveries (owned_waiting (dl_Owner d)) b < webhookMaxPendingPerUser →
  rows_ok (b <| deliveries := <[id := d]> (deliveries b) |>).
Proof.
  intros Hb Hid Hu Hun Hcap. split; cbn.
  - intros k e [[<- <-]|[Hne He]]%lookup_insert_Some; [|by apply (rows_delivery _ Hb)].
    apply untried_ok; [done|]. intros n. unfold status_at. cbn.
    destruct (attempts b !! (id, n)) as [a|] eqn:Ha; [|done].
    destruct (rows_attempt _ Hb id n) as [? ?]; [by eexists|congruence].
  - intros k n H. apply (rows_attempt _ Hb) in H. rewrite lookup_insert_is_Some'. by right.
  - intros k e [[_ <-]|[_ He]]%lookup_insert_Some; [done|]. by eapply (rows_user _ Hb).
  - intros owner. rewrite count_deliveries_insert by done. pose proof (rows_cap _ Hb owner).
    unfold owned_waiting at 2. destruct (dl_Owner d =?s owner) eqn:Ho; cbn; [|lia].
    apply eqb_str_true in Ho as <-. destruct (waiting _); lia.
Qed.

Lemma status_at_insert b b' id n a :
  attempts b' = <[(id, n) := a]> (attempts b) → status_at b' id n = Some (at_Status a).
Proof. unfold status_at. intros ->. by rewrite lookup_insert_eq. Qed.
Lemma status_at_insert_ne b b' id n a k m :
  attempts b' = <[(id, n) := a]> (attempts b) → (id, n) ≠ (k, m) → status_at b' k m = status_at b k m.
Proof. unfold status_at. intros -> ?. by rewrite lookup_insert_ne. Qed.

(** A delivery and one of its attempts are written. *)
Lemma rows_write b b' id n a d d' :
  rows_ok b → deliveries b !! id = Some d → deliveries b' = <[id := d']> (deliveries b) →
  attempts b' = <[(id, n) := a]> (attempts b) → users b' = users b →
  dl_Owner d' = dl_Owner d → (waiting (dl_Status d') = true → waiting (dl_Status d) = true) →
  (delivery_ok (status_at b id) d → delivery_ok (status_at b' id) d') → rows_ok b'.
Proof.
  intros Hb Hd Hd' Ha Hu Ho Hw Hok. apply (rows_ok_from b); [done| |].
  - intros k e. rewrite Hd'. intros [[<- <-]|[Hne He]]%lookup_insert_Some.
    + exists d. unfold has_user. rewrite Hu. by split_and!.
    + exists e. unfold has_user. rewrite Hu. split_and!; try done. apply delivery_ok_ext. intros m. symmetry.
      apply (status_at_insert_ne _ _ _ _ _ _ _ Ha). congruence.
  - intros k m. rewrite Ha, Hd', !lookup_insert_is_Some'. intros [[= -> ->]|H]; [by left|].
    right. by eapply rows_attempt.
Qed.

Lemma rows_claim b id d now rendered b' :
  rows_ok b → deliveries b !! id = Some d → idle d = true →
  deliveries b' = <[id := claim_row now rendered d]> (deliveries b) →
  attempts b' = <[(id, dl_AttemptCount d + 1) := pending_attempt now]> (attempts b) → users b' = users b →
  rows_ok b'.
Proof.
  intros Hb Hd Hi Hd' Ha Hu. eapply (rows_write b); try done. intros Hok. eapply claim_ok; [done|done| |].
  - by rewrite (status_at_insert _ _ _ _ _ Ha).
  - intros n Hne. apply (status_at_insert_ne _ _ _ _ _ _ _ Ha). congruence.
Qed.

Lemma answer_last b id n a d d' result :
  rows_ok b → attempts b !! (id, n) = Some a → at_Status a = APending → deliveries b !! id = Some d →
  answered d d' n result → n = dl_AttemptCount d.
Proof.
  intros Hb Ha Hp Hd Hans.
  apply (answered_ok (status_at b id) (λ m, if decide (m = n) then Some result else status_at b id m) d d' n result);
    [by apply rows_delivery|unfold status_at; rewrite Ha; cbn; congruence|done|by rewrite decide_True|].
  intros m Hm. by rewrite decide_False.
Qed.

Lemma rows_answer b b' id n a a' d d' :
  rows_ok b → attempts b !! (id, n) = Some a → at_Status a = APending → deliveries b !! id = Some d →
  answered d d' n (at_Status a') → deliveries b' = <[id := d']> (deliveries b) →
  attempts b' = <[(id, n) := a']> (attempts b) → users b' = users b → rows_ok b'.
Proof.
  intros Hb Ha Hp Hd Hans Hd' Ha' Hu. pose proof (answer_last _ _ _ _ _ _ _ Hb Ha Hp Hd Hans) as Hn.
  destruct (answered_same _ _ _ _ Hans) as (Ho & _).
  assert (Hpend : status_at b id n = Some APending) by (unfold status_at; rewrite Ha; cbn; congruence).
  eapply (rows_write b); [done|exact Hd|done..| |].
  - intros _. rewrite Hn in Hpend. pose proof (rows_delivery _ Hb _ _ Hd) as Hok.
    destruct (dl_LeaseUntil d) as [t|] eqn:Hl; [by apply (ok_leased _ _ Hok t)|].
    rewrite (ok_last _ _ Hok Hl) in Hpend; [by case_bool_decide|].
    apply (ok_numbers _ _ Hok (dl_AttemptCount d)). by rewrite Hpend.
  - intros Hok. eapply answered_ok; [exact Hok|done|done|by apply (status_at_insert b)|].
    intros m Hne. apply (status_at_insert_ne _ _ _ _ _ _ _ Ha'). congruence.
Qed.

(** *** Interrupted attempts *)

Definition interrupt_all (b : webhook_db) (now : Z) : webhook_db :=
  update_deliveries (λ d, waiting (dl_Status d) && lapsed now d) (interrupt now)
    (b <| attempts := map_imap (λ k a, Some
       (if bool_decide (at_Status a = APending) &&
           match deliveries b !! k.1 with Some d => lapsed now d | None => false end
        then interrupt_attempt now a else a)) (attempts b) |>).

Lemma interrupt_all_status b now id n :
  status_at (interrupt_all b now) id n =
    (λ s, if bool_decide (s = APending) && match deliveries b !! id with Some d => lapsed now d | None => false end
          then AFailed else s) <$> status_at b id n.
Proof.
  unfold status_at. cbn. rewrite map_lookup_imap. cbn. destruct (attempts b !! (id, n)) as [a|]; [|done]. cbn.
  destruct (_ && _); done.
Qed.

Lemma rows_interrupt b now : rows_ok b → rows_ok (interrupt_all b now).
Proof.
  intros Hb. apply (rows_ok_from b); [done| |].
  - intros id d'. unfold interrupt_all at 1. rewrite update_deliveries_lookup. cbn.
    intros (d & Hd & ->)%fmap_Some. exists d. pose proof (rows_delivery _ Hb _ _ Hd) as Hok.
    destruct (waiting (dl_Status d) && lapsed now d) eqn:Hlap; split_and!; try done.
    + by apply andb_true_iff in Hlap as [? _].
    + intros _. apply andb_true_iff in Hlap as [_ Hlap]. pose proof Hlap as Hlap'. unfold lapsed in Hlap'.
      destruct (dl_LeaseUntil d) as [t|] eqn:Hl; [|done]. destruct (ok_leased _ _ Hok t Hl) as (_ & Hc & Hp).
      eapply interrupt_ok; [done|done| |].
      * by rewrite interrupt_all_status, Hp, Hd, Hlap.
      * intros n Hne. rewrite interrupt_all_status. destruct (status_at b id n) as [s|] eqn:Hs; [|done]. cbn.
        assert (Hr : 1 ≤ n ≤ dl_AttemptCount d) by (apply (ok_numbers _ _ Hok); by rewrite Hs).
        rewrite (ok_earlier _ _ Hok) in Hs by lia. by injection Hs as <-.
    + apply delivery_ok_ext. intros n. rewrite interrupt_all_status.
      destruct (status_at b id n) as [s|] eqn:Hs; [|done]. cbn. rewrite Hd.
      destruct (lapsed now d) eqn:Hl; [|by rewrite andb_false_r]. rewrite andb_true_r in Hlap.
      unfold lapsed in Hl. destruct (dl_LeaseUntil d) as [t|] eqn:Hlease; [|done].
      destruct (ok_leased _ _ Hok t Hlease) as (? & _). congruence.
  - intros id n. unfold interrupt_all. cbn. rewrite map_lookup_imap, lookup_fmap, fmap_is_Some.
    intros H. apply (rows_attempt _ Hb id n). by destruct (attempts b !! (id, n)).
Qed.

Lemma change_rows new newcomers b log b' log' :
  change new newcomers (b, log) (b', log') → rows_ok b → rows_ok b'.
Proof.
  intros H Hb. inversion H; simplify_eq/=; try done.
  - apply (rows_ok_from b); [done| |].
    + intros id d. match goal with E : deliveries b' = _ |- _ => rewrite E end. intros Hd. exists d. split_and!; try done.
      * naive_solver.
      * apply delivery_ok_ext. intros n. unfold status_at. by match goal with E : attempts b' = _ |- _ => rewrite E end.
    + intros id n. match goal with E : attempts b' = _ |- _ => rewrite E end.
      match goal with E : deliveries b' = _ |- _ => rewrite E end. apply (rows_attempt _ Hb).
  - apply (rows_ok_from b); [done| |apply (rows_attempt _ Hb)]. intros id d Hd. exists d. split_and!; try done.
    intros [s Hs]. unfold has_user. cbn. destruct (decide (user = dl_Owner d)) as [->|Hne];
      [rewrite lookup_insert_eq|rewrite lookup_insert_ne by done]; by eexists.
  - by apply rows_edit.
  - by apply rows_cancel.
  - by apply rows_delete.
  - by apply rows_delete_user.
  - by apply rows_insert.
  - by eapply (rows_claim b).
  - by eapply (rows_answer b).
  - by apply rows_interrupt.
Qed.
