(* ===== verification/WebhookLog.v ===== *)
(** What the log of attempts says, and that the rows agree with it: the
    attempts of a delivery are started one after the other, and the requests
    for a user at least two seconds apart. *)
From Stdlib Require Import ZArith Lia Ascii String.
From stdpp Require Import base tactics numbers list gmap strings relations sorting.
From S2P Require Import Prelude Records GoNet GoIO WebhookModel WebhookQueue WebhookRuns WebhookChanges WebhookInv.

(** The entries of a delivery: [(true, n)] for a start, [(false, n)] for an end. *)
Definition mark (id : string) (e : entry) : option (bool * Z) :=
  match e with
  | Started _ i n _ => if i =?s id then Some (true, n) else None
  | Answered i n => if i =?s id then Some (false, n) else None
  | Interrupted i n _ => if i =?s id then Some (false, n) else None
  end.
Definition marks (id : string) (log : list entry) : list (bool * Z) := omap (mark id) log.

(** Attempts one to [n], each started and then ended. *)
Fixpoint track (n : nat) : list (bool * Z) :=
  match n with
  | O => []
  | S n => track n ++ [(true, Z.of_nat (S n)); (false, Z.of_nat (S n))]
  end.
Definition expected (d : delivery) : list (bool * Z) :=
  match dl_LeaseUntil d with
  | None => track (Z.to_nat (dl_AttemptCount d))
  | Some _ => track (Z.to_nat (dl_AttemptCount d - 1)) ++ [(true, dl_AttemptCount d)]
  end.

Definition start_of (user : string) (e : entry) : option Z :=
  match e with Started owner _ _ t => if owner =?s user then Some t else None | _ => None end.
Definition starts (user : string) (log : list entry) : list Z := omap (start_of user) log.
Definition apart (t u : Z) : Prop := t + webhookUserStartInterval ≤ u.

(** [I] and [U] are the identifiers of deliveries and users there have been. *)
Record log_ok (I U : gset string) (b : webhook_db) (log : list entry) : Prop := {
  log_rows id d : deliveries b !! id = Some d → marks id log = expected d;
  log_gone id : deliveries b !! id = None → marks id log `prefix_of` track 3;
  log_ids id : is_Some (deliveries b !! id) ∨ ¬ unknown id log → id ∈ I;
  log_users u : has_user b u ∨ ¬ stranger u log → u ∈ U;
  log_lease id d t : deliveries b !! id = Some d → dl_LeaseUntil d = Some t →
    ∃ owner, Started owner id (dl_AttemptCount d) (t - webhookDeliveryLease) ∈ log;
  log_lapsed id n t : Interrupted id n t ∈ log →
    ∃ owner t0, Started owner id n t0 ∈ log ∧ t0 + webhookDeliveryLease ≤ t;
  log_spaced owner : Sorted apart (starts owner log);
  log_slot owner t : has_user b owner → t ∈ starts owner log → apart t (next_allowed b owner);
}.

Lemma marks_app id l k : marks id (l ++ k) = marks id l ++ marks id k.
Proof. apply omap_app. Qed.
Lemma starts_app u l k : starts u (l ++ k) = starts u l ++ starts u k.
Proof. apply omap_app. Qed.

Lemma unknown_marks id log : unknown id log → marks id log = [].
Proof.
  induction 1 as [|e log He _ IH]; [done|]. unfold marks in *. cbn. rewrite IH.
  destruct e; cbn in *; destruct (_ =?s _) eqn:E; try done; by apply eqb_str_true in E.
Qed.

Lemma stranger_starts u log : stranger u log → starts u log = [].
Proof.
  induction 1 as [|e log He _ IH]; [done|]. unfold starts in *. cbn. rewrite IH.
  destruct e; cbn in *; try done. destruct (_ =?s _) eqn:E; [|done]. by apply eqb_str_true in E.
Qed.

#[export] Instance started_for_dec u e : Decision (started_for u e).
Proof. destruct e; cbn; apply _. Defined.
Lemma unknown_app id l k : unknown id (l ++ k) ↔ unknown id l ∧ unknown id k.
Proof. apply Forall_app. Qed.
Lemma stranger_app u l k : stranger u (l ++ k) ↔ stranger u l ∧ stranger u k.
Proof. apply Forall_app. Qed.
#[export] Instance unknown_dec id log : Decision (unknown id log).
Proof. unfold unknown. apply _. Defined.
#[export] Instance stranger_dec u log : Decision (stranger u log).
Proof. unfold stranger. apply _. Defined.

Lemma track_prefix n m : (n ≤ m)%nat → track n `prefix_of` track m.
Proof. induction 1 as [|m _ IH]; [done|]. etrans; [done|]. by eexists. Qed.

Lemma elem_of_track x n k : (x, k) ∈ track n → 1 ≤ k ≤ Z.of_nat n.
Proof.
  induction n as [|n IH]; [by intros ?%not_elem_of_nil|]. cbn [track].
  rewrite elem_of_app, !elem_of_cons, elem_of_nil. intros [H|[[= -> ->]|[[= -> ->]|[]]]]; [apply IH in H|..]; lia.
Qed.

Lemma expected_leased d t : dl_LeaseUntil d = Some t → 1 ≤ dl_AttemptCount d →
  expected d ++ [(false, dl_AttemptCount d)] = track (Z.to_nat (dl_AttemptCount d)).
Proof.
  intros Hl Hc. unfold expected. rewrite Hl.
  replace (Z.to_nat (dl_AttemptCount d)) with (S (Z.to_nat (dl_AttemptCount d - 1))) by lia. cbn [track].
  rewrite <- app_assoc. cbn. do 3 f_equal; f_equal; lia.
Qed.

Lemma expected_prefix A d : delivery_ok A d → expected d `prefix_of` track (Z.to_nat (dl_MaxAttempts d)).
Proof.
  intros Hd. pose proof (ok_count _ _ Hd). destruct (dl_LeaseUntil d) as [t|] eqn:Hl.
  - destruct (ok_leased _ _ Hd t Hl) as (_ & Hc & _).
    etrans; [|apply (track_prefix (Z.to_nat (dl_AttemptCount d))); lia].
    rewrite <- (expected_leased d t) by done. by eexists.
  - unfold expected. rewrite Hl. apply track_prefix. lia.
Qed.

Lemma Sorted_snoc_all {A} (R : A → A → Prop) l x : Sorted R l → Forall (λ y, R y x) l → Sorted R (l ++ [x]).
Proof.
  induction 1 as [|y l Hs IH Hh]; cbn; intros Hall; [by repeat constructor|].
  apply Forall_cons in Hall as [Hy Hall]. constructor; [by apply IH|].
  destruct l as [|z l]; cbn; [by constructor|]. inversion Hh. by constructor.
Qed.

(** An attempt that has ended is not pending. *)
Lemma ended_not_pending A d n : delivery_ok A d → (false, n) ∈ expected d → A n ≠ Some APending.
Proof.
  intros Hd Hn. unfold expected in Hn. destruct (dl_LeaseUntil d) as [t|] eqn:Hl.
  - destruct (ok_leased _ _ Hd t Hl) as (_ & Hc & _). apply elem_of_app in Hn as [Hn|Hn].
    + apply elem_of_track in Hn. by rewrite (ok_earlier _ _ Hd) by lia.
    + by apply list_elem_of_singleton in Hn.
  - apply elem_of_track in Hn. pose proof (ok_count _ _ Hd). destruct (decide (n = dl_AttemptCount d)) as [->|Hne].
    + rewrite (ok_last _ _ Hd Hl) by lia. by case_bool_decide.
    + by rewrite (ok_earlier _ _ Hd) by lia.
Qed.

(** *** The log stays as it is *)

Lemma log_ok_from I U b b' log :
  rows_ok b → log_ok I U b log →
  (∀ id d', deliveries b' !! id = Some d' → ∃ d, deliveries b !! id = Some d ∧
     dl_AttemptCount d' = dl_AttemptCount d ∧ dl_LeaseUntil d' = dl_LeaseUntil d) →
  (∀ u, has_user b' u → has_user b u ∧ next_allowed b' u = next_allowed b u) →
  log_ok I U b' log.
Proof.
  intros Hb H Hd Hu. split; try (by destruct H).
  - intros id d' H'. destruct (Hd id d' H') as (d & Hd' & Hc & Hl). rewrite (log_rows _ _ _ _ H id d Hd').
    unfold expected. by rewrite Hc, Hl.
  - intros id _. destruct (deliveries b !! id) as [d|] eqn:Hid; [|by apply (log_gone _ _ _ _ H)].
    rewrite (log_rows _ _ _ _ H id d Hid). pose proof (rows_delivery _ Hb _ _ Hid) as Hok.
    etrans; [by eapply expected_prefix|]. apply track_prefix. pose proof (ok_max _ _ Hok). lia.
  - intros id [[d' H']|Hun]; apply (log_ids _ _ _ _ H); [left|by right]. destruct (Hd id d' H') as (d & ? & _). by eexists.
  - intros u [H'|?]; apply (log_users _ _ _ _ H); [left|by right]. by apply Hu.
  - intros id d' t H' Ht. destruct (Hd id d' H') as (d & Hd' & Hc & Hl). rewrite Hc.
    apply (log_lease _ _ _ _ H id d t); congruence.
  - intros owner t [Hown ->]%Hu. by apply (log_slot _ _ _ _ H).
Qed.

Lemma log_insert I U b id d log :
  log_ok I U b log → deliveries b !! id = None → id ∈ I → unknown id log → untried d →
  log_ok I U (b <| deliveries := <[id := d]> (deliveries b) |>) log.
Proof.
  intros H Hid HI Hun Hd. split; cbn; try (by destruct H).
  - intros k e [[<- <-]|[Hne He]]%lookup_insert_Some; [|by apply (log_rows _ _ _ _ H)].
    rewrite (unknown_marks _ _ Hun). unfold expected. by rewrite (untried_lease _ Hd), (untried_count _ Hd).
  - intros k [Hk _]%lookup_insert_None. by apply (log_gone _ _ _ _ H).
  - intros k [[e [[<- _]|[_ He]]%lookup_insert_Some]|?]; [done| |]; apply (log_ids _ _ _ _ H); [left; by eexists|by right].
  - intros k e t [[<- <-]|[Hne He]]%lookup_insert_Some; [|by apply (log_lease _ _ _ _ H)]. by rewrite (untried_lease _ Hd).
Qed.

Lemma log_add_user I U b user status log :
  log_ok I U b log → user ∈ U → stranger user log → log_ok I U (b <| users := <[user := status]> (users b) |>) log.
Proof.
  intros H HU Hst. split; unfold has_user; cbn; try (by destruct H).
  - intros u [[s [[<- _]|[_ Hs]]%lookup_insert_Some]|?]; [done| |]; apply (log_users _ _ _ _ H); [left; by eexists|by right].
  - intros owner t Hown Ht. destruct (decide (owner = user)) as [->|Hne].
    { rewrite (stranger_starts _ _ Hst) in Ht. by apply not_elem_of_nil in Ht. }
    apply (log_slot _ _ _ _ H); [|done]. unfold has_user in *. cbn in Hown. by rewrite lookup_insert_ne in Hown.
Qed.

(** *** The log grows *)

Lemma elem_of_starts u log t : t ∈ starts u log ↔ ∃ id n, Started u id n t ∈ log.
Proof.
  unfold starts. rewrite list_elem_of_omap. split.
  - intros (e & He & Ht). destruct e; cbn in Ht; try done. destruct (_ =?s _) eqn:E; [|done].
    apply eqb_str_true in E as ->. injection Ht as ->. eauto.
  - intros (id & n & H). exists (Started u id n t). cbn. by rewrite eqb_str_refl.
Qed.

Lemma log_claim I U b id d now rendered log b' :
  rows_ok b → log_ok I U b log → deliveries b !! id = Some d → idle d = true →
  next_allowed b (dl_Owner d) ≤ now →
  deliveries b' = <[id := claim_row now rendered d]> (deliveries b) → users b' = users b →
  slots b' = <[dl_Owner d := now + webhookUserStartInterval]> (slots b) →
  log_ok I U b' (log ++ [Started (dl_Owner d) id (dl_AttemptCount d + 1) now]).
Proof.
  intros Hb H Hd Hi Hslot Hd' Hu Hs'. pose proof (rows_delivery _ Hb _ _ Hd) as Hok.
  apply andb_true_iff in Hi as [Hw Hl%bool_decide_eq_true].
  assert (Hlast : Forall (λ t, apart t now) (starts (dl_Owner d) log)).
  { apply Forall_forall. intros t Ht. pose proof (log_slot _ _ _ _ H _ _ (rows_user _ Hb _ _ Hd) Ht).
    unfold apart in *. lia. }
  pose proof (ok_count _ _ Hok) as Hc.
  split; unfold has_user, next_allowed in *; rewrite ?Hd', ?Hu, ?Hs'.
  - intros k e. rewrite marks_app. cbn. intros [[<- <-]|[Hne He]]%lookup_insert_Some.
    + rewrite (log_rows _ _ _ _ H _ _ Hd), eqb_str_refl. unfold expected. cbn. rewrite Hl. do 3 f_equal. lia.
    + apply eqb_str_false in Hne. rewrite Hne, app_nil_r. by apply (log_rows _ _ _ _ H).
  - intros k [Hk Hne]%lookup_insert_None. rewrite marks_app. apply eqb_str_false in Hne. cbn. rewrite Hne, app_nil_r.
    by apply (log_gone _ _ _ _ H).
  - intros k Hk. destruct (decide (k = id)) as [->|Hne]; [apply (log_ids _ _ _ _ H); left; by eexists|].
    apply (log_ids _ _ _ _ H). rewrite lookup_insert_ne in Hk by done. destruct Hk as [?|Hun]; [by left|right].
    contradict Hun. apply unknown_app. split; [done|]. apply Forall_singleton. cbn. congruence.
  - intros u Hu'. destruct (decide (u = dl_Owner d)) as [->|Hne].
    { apply (log_users _ _ _ _ H). left. by apply (rows_user _ Hb _ _ Hd). }
    apply (log_users _ _ _ _ H). destruct Hu' as [?|Hun]; [by left|right].
    contradict Hun. apply stranger_app. split; [done|]. apply Forall_singleton. cbn. congruence.
  - intros k e t [[<- <-]|[Hne He]]%lookup_insert_Some; cbn; intros Ht.
    + injection Ht as <-. exists (dl_Owner d). rewrite elem_of_app, list_elem_of_singleton. right. f_equal. lia.
    + destruct (log_lease _ _ _ _ H _ _ _ He Ht) as [o Ho]. exists o. rewrite elem_of_app. by left.
  - intros k n t. rewrite elem_of_app, list_elem_of_singleton. intros [Ht|?]; [|done].
    destruct (log_lapsed _ _ _ _ H _ _ _ Ht) as (o & t0 & Ho & Hle). exists o, t0. rewrite elem_of_app. auto.
  - intros u. rewrite starts_app. cbn. destruct (dl_Owner d =?s u) eqn:Eu; [|rewrite app_nil_r; by apply H].
    apply eqb_str_true in Eu as <-. apply Sorted_snoc_all; [by apply H|done].
  - intros u t Hown. rewrite starts_app. cbn. destruct (dl_Owner d =?s u) eqn:Eu.
    + apply eqb_str_true in Eu as <-. rewrite lookup_insert_eq. cbn.
      intros [Ht| ->%list_elem_of_singleton]%elem_of_app; [|unfold apart; lia].
      rewrite Forall_forall in Hlast. specialize (Hlast t Ht). unfold apart, webhookUserStartInterval, second in *. lia.
    + apply eqb_str_false in Eu. rewrite app_nil_r, lookup_insert_ne by done. by apply (log_slot _ _ _ _ H).
Qed.

(** Ends of attempts are added. *)
Definition ended (e : entry) : Prop := match e with Started _ _ _ _ => False | _ => True end.

Lemma log_ended I U b b' log more :
  rows_ok b → log_ok I U b log → Forall ended more →
  (∀ id, deliveries b !! id = None → unknown id more) →
  (∀ id d', deliveries b' !! id = Some d' → ∃ d, deliveries b !! id = Some d ∧
     dl_AttemptCount d' = dl_AttemptCount d ∧
     (dl_LeaseUntil d' = dl_LeaseUntil d ∧ marks id more = [] ∨
      (∃ t, dl_LeaseUntil d = Some t) ∧ dl_LeaseUntil d' = None ∧ marks id more = [(false, dl_AttemptCount d)])) →
  (∀ id, is_Some (deliveries b !! id) → is_Some (deliveries b' !! id)) →
  (∀ id n t, Interrupted id n t ∈ more → ∃ owner t0, Started owner id n t0 ∈ log ∧ t0 + webhookDeliveryLease ≤ t) →
  users b' = users b → slots b' = slots b →
  log_ok I U b' (log ++ more).
Proof.
  intros Hb H Hends Hun Hd Hstay Hint Hu Hs.
  assert (Hnone : ∀ u, starts u more = []).
  { intros u. apply stranger_starts, Forall_forall. intros e He. rewrite Forall_forall in Hends.
    specialize (Hends e He). destruct e; cbn in *; tauto. }
  split; unfold has_user, next_allowed; rewrite ?Hu, ?Hs.
  - intros id d' Hd'. destruct (Hd id d' Hd') as (d & Hid & Hc & Hcase). rewrite marks_app, (log_rows _ _ _ _ H _ _ Hid).
    destruct Hcase as [(Hl & ->)|((t & Hl) & Hl' & ->)].
    + rewrite app_nil_r. unfold expected. by rewrite Hl, Hc.
    + pose proof (rows_delivery _ Hb _ _ Hid) as Hok. destruct (ok_leased _ _ Hok t Hl) as (_ & Hcount & _).
      rewrite (expected_leased d t) by done. unfold expected. by rewrite Hl', Hc.
  - intros id Hid. rewrite marks_app. destruct (deliveries b !! id) as [d|] eqn:E.
    { destruct (Hstay id) as [? ?]; [by eexists|congruence]. }
    rewrite (unknown_marks id more) by auto. rewrite app_nil_r. by apply (log_gone _ _ _ _ H).
  - intros id Hid. apply (log_ids _ _ _ _ H). destruct Hid as [[d' Hd']|Hid].
    { left. destruct (Hd id d' Hd') as (d & ? & _). by eexists. }
    destruct (deliveries b !! id) as [d|] eqn:E; [left; by eexists|right].
    contradict Hid. apply unknown_app. auto.
  - intros u [?|Hst]; apply (log_users _ _ _ _ H); [by left|right]. contradict Hst. apply stranger_app. split; [done|].
    eapply Forall_impl; [exact Hends|]. intros []; cbn; tauto.
  - intros id d' t Hd' Ht. destruct (Hd id d' Hd') as (d & Hid & Hc & [(Hl & _)|(_ & Hl & _)]); [|congruence].
    destruct (log_lease _ _ _ _ H id d t Hid) as [o Ho]; [congruence|]. exists o. rewrite Hc, elem_of_app. by left.
  - intros id n t [Ht|Ht]%elem_of_app; [apply (log_lapsed _ _ _ _ H) in Ht|apply Hint in Ht];
      destruct Ht as (o & t0 & Ho & Hle); exists o, t0; rewrite elem_of_app; auto.
  - intros u. rewrite starts_app, Hnone, app_nil_r. by apply H.
  - intros u t Hown. rewrite starts_app, Hnone, app_nil_r. by apply (log_slot _ _ _ _ H).
Qed.

Lemma log_answer I U b b' id n d d' a result log :
  rows_ok b → log_ok I U b log → attempts b !! (id, n) = Some a → at_Status a = APending →
  deliveries b !! id = Some d → answered d d' n result →
  deliveries b' = <[id := d']> (deliveries b) → users b' = users b → slots b' = slots b →
  log_ok I U b' (log ++ [Answered id n]).
Proof.
  intros Hb H Ha Hp Hd Hans Hd' Hu Hs. pose proof (answer_last _ _ _ _ _ _ _ Hb Ha Hp Hd Hans) as ->.
  pose proof (rows_delivery _ Hb _ _ Hd) as Hok.
  assert (Hl : ∃ t, dl_LeaseUntil d = Some t).
  { destruct (dl_LeaseUntil d) as [t|] eqn:Hl; [by eexists|exfalso].
    assert (Hst : status_at b id (dl_AttemptCount d) = Some APending) by (unfold status_at; rewrite Ha; cbn; congruence).
    rewrite (ok_last _ _ Hok Hl) in Hst; [by case_bool_decide|].
    apply (ok_numbers _ _ Hok (dl_AttemptCount d)). unfold status_at. by rewrite Ha. }
  apply (log_ended I U b); try done.
  - by apply Forall_singleton.
  - intros k Hk. apply Forall_singleton. cbn. congruence.
  - intros k e. rewrite Hd'. cbn. intros [[<- <-]|[Hne He]]%lookup_insert_Some.
    + exists d. split; [done|]. split; [by apply Hans|]. right. split_and!; [done|by apply Hans|].
      by rewrite eqb_str_refl.
    + exists e. split_and!; try done. left. split; [done|]. apply eqb_str_false in Hne. by rewrite Hne.
  - intros k Hk. rewrite Hd'. apply lookup_insert_is_Some'. by right.
  - intros k m t Ht. by apply list_elem_of_singleton in Ht.
Qed.

Lemma elem_of_interrupted b now e :
  e ∈ interrupted b now ↔ ∃ id n a, e = Interrupted id n now ∧ attempts b !! (id, n) = Some a ∧
    at_Status a = APending ∧ ∃ d, deliveries b !! id = Some d ∧ lapsed now d = true.
Proof.
  unfold interrupted. rewrite list_elem_of_omap. split.
  - intros ([[id n] a] & Ha%elem_of_map_to_list & He). cbn in He. destruct (bool_decide _) eqn:Hp; [|done].
    apply bool_decide_eq_true in Hp. destruct (deliveries b !! id) as [d|] eqn:Hd; [|done]. cbn in He.
    destruct (lapsed now d) eqn:Hl; [|done]. injection He as <-. eauto 10.
  - intros (id & n & a & -> & Ha & Hp & d & Hd & Hl). exists (id, n, a). rewrite elem_of_map_to_list. cbn.
    by rewrite Hd, Hl, bool_decide_true.
Qed.

(** A delivery has one attempt that can be interrupted, its last. *)
Lemma marks_interrupted b now id d :
  rows_ok b → deliveries b !! id = Some d →
  marks id (interrupted b now) = if lapsed now d then [(false, dl_AttemptCount d)] else [].
Proof.
  intros Hb Hd. pose proof (rows_delivery _ Hb _ _ Hd) as Hok.
  assert (Hnil : ∀ l : list (string * Z * attempt),
    (∀ n a, (id, n, a) ∈ l → at_Status a = APending → lapsed now d = false) →
    marks id (omap (λ ka : string * Z * attempt,
      if bool_decide (at_Status ka.2 = APending) &&
         match deliveries b !! ka.1.1 with Some d => lapsed now d | None => false end
      then Some (Interrupted ka.1.1 ka.1.2 now) else None) l) = []).
  { intros l. induction l as [|[[k n] a] l IH]; intros Hl; [done|]. cbn.
    assert (IHl := IH ltac:(intros; eapply Hl; [by right|done])).
    destruct (bool_decide (at_Status a = APending)) eqn:Hp; cbn; [|done]. apply bool_decide_eq_true in Hp.
    destruct (decide (k = id)) as [->|Hne].
    - rewrite Hd, (Hl n a); [done|by left|done].
    - destruct (deliveries b !! k) as [e|]; [|done]. destruct (lapsed now e); [|done]. unfold marks in *. cbn.
      apply eqb_str_false in Hne. by rewrite Hne. }
  destruct (lapsed now d) eqn:Hlap; [|by apply Hnil].
  pose proof Hlap as Hlap'. unfold lapsed in Hlap'. destruct (dl_LeaseUntil d) as [t|] eqn:Hl; [|done].
  destruct (ok_leased _ _ Hok t Hl) as (_ & Hc & Hp). unfold status_at in Hp.
  destruct (attempts b !! (id, dl_AttemptCount d)) as [a|] eqn:Ha; [|done]. injection Hp as Hp.
  apply Permutation_singleton_r. unfold interrupted, marks.
  rewrite <- (insert_delete_id _ _ _ Ha), map_to_list_insert by apply lookup_delete_eq. cbn.
  rewrite bool_decide_true, Hd, Hlap by done. cbn. rewrite eqb_str_refl. constructor. unfold marks in Hnil.
  rewrite Hnil; [done|]. intros n a' [Hne Hin]%elem_of_map_to_list%lookup_delete_Some Hp'.
  assert (Hst : status_at b id n = Some APending) by (unfold status_at; rewrite Hin; cbn; congruence).
  assert (Hr : 1 ≤ n ≤ dl_AttemptCount d) by (apply (ok_numbers _ _ Hok); by rewrite Hst).
  rewrite (ok_earlier _ _ Hok) in Hst; [done|]. destruct (decide (n = dl_AttemptCount d)); [congruence|lia].
Qed.

Lemma log_interrupt I U b now log :
  rows_ok b → log_ok I U b log → log_ok I U (interrupt_all b now) (log ++ interrupted b now).
Proof.
  intros Hb H. apply (log_ended I U b); try done.
  - apply Forall_forall. intros e (id & n & a & -> & _)%elem_of_interrupted. done.
  - intros id Hid. apply Forall_forall. intros e (k & n & a & -> & _ & _ & d & Hd & _)%elem_of_interrupted. cbn. congruence.
  - intros id d'. unfold interrupt_all. rewrite update_deliveries_lookup. cbn. intros (d & Hd & ->)%fmap_Some.
    exists d. split; [done|]. rewrite (marks_interrupted _ _ _ _ Hb Hd).
    destruct (lapsed now d) eqn:Hlap; [|rewrite andb_false_r; auto].
    pose proof Hlap as Hl. unfold lapsed in Hl. destruct (dl_LeaseUntil d) as [t|] eqn:Hlease; [|done].
    destruct (ok_leased _ _ (rows_delivery _ Hb _ _ Hd) t Hlease) as (Hw & _). rewrite Hw. cbn. split; [done|].
    right. eauto.
  - intros id [d Hd]. unfold interrupt_all. rewrite update_deliveries_lookup. cbn. rewrite Hd. by eexists.
  - intros id n t (k & m & a & [= -> -> ->] & Ha & Hp & d & Hd & Hlap)%elem_of_interrupted.
    pose proof (rows_delivery _ Hb _ _ Hd) as Hok. unfold lapsed in Hlap.
    destruct (dl_LeaseUntil d) as [u|] eqn:Hl; [|done]. apply Z.leb_le in Hlap.
    destruct (log_lease _ _ _ _ H k d u Hd Hl) as [owner Ho]. exists owner, (u - webhookDeliveryLease).
    split; [|lia]. enough (m = dl_AttemptCount d) as -> by done.
    assert (Hst : status_at b k m = Some APending) by (unfold status_at; rewrite Ha; cbn; congruence).
    assert (Hr : 1 ≤ m ≤ dl_AttemptCount d) by (apply (ok_numbers _ _ Hok); by rewrite Hst).
    destruct (decide (m = dl_AttemptCount d)); [done|]. rewrite (ok_earlier _ _ Hok) in Hst by lia. done.
Qed.

(** ** Every change keeps the invariant *)

Definition core_ok (I U : gset string) (c : core) : Prop := rows_ok c.1 ∧ log_ok I U c.1 c.2.

Lemma change_ok I U new newcomers c c' :
  new ⊆ I → newcomers ⊆ U → change new newcomers c c' → core_ok I U c → core_ok I U c'.
Proof.
  intros HI HU Hc [Hb Hlog]. destruct c as [b log], c' as [b' log']. cbn in *.
  split; cbn; [by eapply change_rows|]. inversion Hc; simplify_eq; cbn.
  - apply (log_ok_from I U b); [done..| |].
    + match goal with E : deliveries b' = _ |- _ => rewrite E end. eauto.
    + intros u Hu. unfold next_allowed. match goal with E : slots b' = _ |- _ => rewrite E end. naive_solver.
  - apply log_add_user; set_solver.
  - apply (log_ok_from I U b); [done..| |done]. intros id d'. rewrite update_deliveries_lookup.
    intros (d & Hd & ->)%fmap_Some. exists d. split; [done|]. destruct (P d) eqn:HP; [|done].
    by match goal with E : ∀ d, P d = true → same_place _ _ |- _ => destruct (E d HP) as (_ & _ & ? & _ & ? & _) end.
  - apply (log_ok_from I U b); [done..| |done]. intros id d'. rewrite update_deliveries_lookup.
    intros (d & Hd & ->)%fmap_Some. exists d. split; [done|]. destruct (P d) eqn:HP; [|done]. cbn. split; [done|].
    match goal with E : ∀ d, P d = true → idle d = true |- _ => apply E, andb_true_iff in HP as [_ HP] end.
    by apply bool_decide_eq_true in HP.
  - apply (log_ok_from I U b); [done..| |done]. intros id d [Hd _]%delete_deliveries_lookup. eauto.
  - apply (log_ok_from I U b); [done..| |].
    + intros id d Hd. change (deliveries (delete_deliveries (λ _ d, dl_Owner d =?s user) b) !! id = Some d) in Hd.
      apply delete_deliveries_lookup in Hd as [Hd _]. eauto.
    + intros u. unfold has_user, next_allowed. cbn. intros [s [Hne Hs]%lookup_delete_Some].
      rewrite lookup_delete_ne by done. split; [by eexists|done].
  - apply log_insert; [done..|set_solver|done|done].
  - by eapply (log_claim _ _ b).
  - by eapply (log_answer _ _ b).
  - by apply log_interrupt.
Qed.

Lemma changes_ok I U new newcomers c c' :
  new ⊆ I → newcomers ⊆ U → rtc (change new newcomers) c c' → core_ok I U c → core_ok I U c'.
Proof. intros HI HU. induction 1; eauto using change_ok. Qed.

Lemma core_ok_mono I U I' U' c : I ⊆ I' → U ⊆ U' → core_ok I U c → core_ok I' U' c.
Proof.
  intros HI HU [Hb []]. split; [done|]. split; try done.
  - intros id Hid. by apply HI, log_ids0.
  - intros u Hu. by apply HU, log_users0.
Qed.
