(* ===== verification/WebhookSystem.v ===== *)
(** The invariant of the whole webhook system: every action is a chain of
    changes, and the requests under way are those of attempts that were
    started. *)
From Stdlib Require Import ZArith Lia Ascii String.
From stdpp Require Import base tactics numbers list gmap strings relations sorting.
From S2P Require Import Prelude Records GoNet GoIO WebhookModel WebhookQueue WebhookRuns WebhookChanges WebhookInv WebhookLog.

#[export] Instance same_delivery_refl : Reflexive same_delivery.
Proof. intros d. by repeat split. Qed.
#[export] Instance same_delivery_trans : Transitive same_delivery.
Proof. intros d e f (?&?&?&?&?&?) (?&?&?&?&?&?). repeat split; congruence. Qed.

(** What was not inserted was there, with the same columns; the log only grows. *)
Lemma change_same new newcomers c c' :
  change new newcomers c c' →
  (∀ id d', deliveries c'.1 !! id = Some d' → id ∉ new → ∃ d, deliveries c.1 !! id = Some d ∧ same_delivery d' d) ∧
  c.2 `prefix_of` c'.2.
Proof.
  intros Hch. destruct Hch as [b b' log Hd|b user|b P f log Hf|b P error now|b P|b user|b id d log ? Hin|
    b id d now rendered log Hd|b id n d d' a a' log Ha Hp Hd Hans|b now log]; cbn; (split; [|done || by eexists]).
  - intros id d' Hx. rewrite Hd in Hx. by exists d'.
  - intros id d' Hx. by exists d'.
  - intros id d'. rewrite lookup_fmap. intros (d & Hd & ->)%fmap_Some _. exists d. split; [done|].
    destruct (P d) eqn:HP; [|done]. apply (Hf d HP).
  - intros id d'. rewrite lookup_fmap. intros (d & Hd & ->)%fmap_Some _. exists d. split; [done|]. by destruct (P d).
  - intros id d' [Hd _]%map_lookup_filter_Some. by exists d'.
  - intros id d' [Hd _]%map_lookup_filter_Some. by exists d'.
  - intros k e [[<- _]|[_ He]]%lookup_insert_Some; [done|]. by exists e.
  - intros k e [[<- <-]|[_ He]]%lookup_insert_Some _; [by exists d|by exists e].
  - intros k e [[<- <-]|[_ He]]%lookup_insert_Some _; [exists d; split; [done|apply Hans]|by exists e].
  - intros id d'. rewrite lookup_fmap. intros (d & Hd & ->)%fmap_Some _. exists d. split; [done|]. by destruct (_ && _).
Qed.

Lemma changes_same new newcomers c c' :
  rtc (change new newcomers) c c' →
  (∀ id d', deliveries c'.1 !! id = Some d' → id ∉ new → ∃ d, deliveries c.1 !! id = Some d ∧ same_delivery d' d) ∧
  c.2 `prefix_of` c'.2.
Proof.
  induction 1 as [c|c c1 c' H _ [IH IHlog]]; [split; [by intros id d' ? _; exists d'|done]|].
  apply change_same in H as [H Hlog]. split; [|by etrans].
  intros id d' Hd' Hnew. destruct (IH id d' Hd' Hnew) as (d1 & Hd1 & Hs1).
  destruct (H id d1 Hd1 Hnew) as (d & Hd & Hs). exists d. split; [done|by etrans].
Qed.

(** A request under way. *)
Record request_ok (b : webhook_db) (log : list entry) (ids : gset string) (r : webhookStoredDelivery) : Prop := {
  request_id : sd_ID r ∈ ids;
  request_started : ∃ owner t, Started owner (sd_ID r) (dl_AttemptCount (sd_Row r)) t ∈ log;
  request_row d : deliveries b !! sd_ID r = Some d → same_delivery (sd_Row r) d;
}.

Record system_ok (s : webhook_system) : Prop := {
  ok_core : core_ok (ws_ids s) (ws_users s) (ws_db s, ws_log s);
  ok_running : Forall (request_ok (ws_db s) (ws_log s) (ws_ids s)) (ws_running s);
}.

(** A step of the system on its tables and its log. *)
Record does (s s' : webhook_system) (new newcomers : gset string) : Prop := {
  does_new : new ## ws_ids s;
  does_ids : ws_ids s' = new ∪ ws_ids s;
  does_users : ws_users s' = newcomers ∪ ws_users s;
  does_changes : rtc (change new newcomers) (ws_db s, ws_log s) (ws_db s', ws_log s');
  does_running r : r ∈ ws_running s' → r ∈ ws_running s ∨ request_ok (ws_db s') (ws_log s') (ws_ids s') r;
}.

Lemma does_ok s s' new newcomers : does s s' new newcomers → system_ok s → system_ok s'.
Proof.
  intros [Hnew Hids Husers Hch Hrun] [Hcore Hrunning]. split.
  - eapply changes_ok; [| |exact Hch|eapply core_ok_mono; [| |exact Hcore]]; set_solver.
  - apply Forall_forall. intros r Hr. destruct (Hrun r Hr) as [Hold|]; [|done].
    rewrite Forall_forall in Hrunning. destruct (Hrunning r Hold) as [Hid (o & t & Ht) Hrow].
    destruct (changes_same _ _ _ _ Hch) as [Hsame [more Hlog]]. cbn in *. split.
    + set_solver.
    + exists o, t. rewrite Hlog, elem_of_app. by left.
    + intros d Hd. destruct (Hsame _ _ Hd) as (d0 & Hd0 & Hs); [set_solver|]. etrans; [by apply Hrow|].
      destruct Hs as (?&?&?&?&?&?). by repeat split.
Qed.

Lemma fresh_unknown s id : system_ok s → id ∉ ws_ids s → unknown id (ws_log s).
Proof.
  intros [[_ H] _] Hid. destruct (decide (unknown id (ws_log s))) as [|Hun]; [done|].
  destruct Hid. apply (log_ids _ _ _ _ H). by right.
Qed.
Lemma newcomer_stranger s u : system_ok s → u ∉ ws_users s → stranger u (ws_log s).
Proof.
  intros [[_ H] _] Hu. destruct (decide (stranger u (ws_log s))) as [|Hst]; [done|].
  destruct Hu. apply (log_users _ _ _ _ H). by right.
Qed.

(** The tables change, nothing else. *)
Lemma does_db s b :
  rtc (change ∅ ∅) (ws_db s, ws_log s) (b, ws_log s) → does s (set_db s b) ∅ ∅.
Proof. intros H. split; cbn; [set_solver|set_solver|set_solver|done|by left]. Qed.

Lemma with_ids_does s ids b s' :
  system_ok s → with_ids s ids (set_db s b) = Some s' →
  ((∀ id, id ∈ ids → id ∈@{gset string} list_to_set ids ∧ unknown id (ws_log s)) →
   rtc (change (list_to_set ids) ∅) (ws_db s, ws_log s) (b, ws_log s)) →
  does s s' (list_to_set ids) ∅.
Proof.
  unfold with_ids. intros Hs H Hch. case_decide as Hf; [|done]. injection H as <-. destruct Hf as [_ Hf].
  rewrite Forall_forall in Hf. split; cbn; [|done|set_solver| |by left].
  - intros id. rewrite elem_of_list_to_set. intros Hin Hid. by apply (Hf id).
  - apply Hch. intros id Hid. split; [by apply elem_of_list_to_set|]. apply fresh_unknown; [done|]. by apply Hf.
Qed.

(** The verdict on an attempt fits the delivery. *)
Lemma verdict_answered b d row r status next :
  verdict b (sd_Row d) r = (status, next) → dl_MaxAttempts (sd_Row d) = dl_MaxAttempts row →
  answered row (finished_delivery status next r row) (dl_AttemptCount (sd_Row d))
    (if succeeded r then ASuccess else AFailed).
Proof.
  unfold verdict. intros Hv Hmax.
  assert (Hs : status ≠ Queued ∧ (status = Success ↔ succeeded r = true) ∧
               (status = Retrying → dl_AttemptCount (sd_Row d) < dl_MaxAttempts row)).
  { rewrite <- Hmax. destruct (succeeded r); [by simplify_eq|]. destruct (_ && _) eqn:Hag; [|by simplify_eq].
    apply andb_true_iff in Hag as [_ Hag%Z.ltb_lt]. destruct (webhookDeliveryCanContinueTx _ _); by simplify_eq. }
  destruct Hs as (Hq & Hsucc & Hag). split; cbn; try done.
  - destruct (succeeded r); case_bool_decide; naive_solver.
  - destruct status; cbn; (done || (split; [by intros []|done]) || (split; [done|by eexists])).
Qed.

Lemma changes_complete b log d r status b' :
  rows_ok b → CompleteAttempt b d r = Ok (status, b') →
  (∀ row, deliveries b !! sd_ID d = Some row → same_delivery (sd_Row d) row) →
  rtc (change ∅ ∅) (b, log) (b', log ++ [Answered (sd_ID d) (dl_AttemptCount (sd_Row d))]).
Proof.
  intros Hb Hc Hrow. unfold CompleteAttempt in Hc. destruct (attempts b !! _) as [a|] eqn:Ha; [|done].
  destruct (bool_decide (at_Status a = APending)) eqn:Hp; [|done]. cbn [negb] in Hc. apply bool_decide_eq_true in Hp.
  assert (Hex : is_Some (deliveries b !! sd_ID d)) by (eapply (rows_attempt _ Hb); by eexists).
  destruct Hex as [row' Hd]. specialize (Hrow row' Hd). destruct Hrow as (_ & _ & _ & Hmax & _).
  set (b1 := b <| attempts := _ |>) in Hc. destruct (verdict b1 (sd_Row d) r) as [st next] eqn:Hv.
  injection Hc as -> <-. eapply rtc_l.
  - eapply (change_answer _ _ b _ _ row' (finished_delivery status next r row') a (finished_attempt r a)); try done.
    by eapply verdict_answered.
  - replace (<[sd_ID d := finished_delivery status next r row']> (deliveries b)) with
      (alter (finished_delivery status next r) (sd_ID d) (deliveries b)).
    2: { apply map_eq. intros k. destruct (decide (k = sd_ID d)) as [->|Hne].
         - by rewrite lookup_alter_eq, Hd, lookup_insert_eq.
         - by rewrite lookup_alter_ne, lookup_insert_ne. }
    case_bool_decide; [apply changes_health|]. etrans; [apply changes_health|apply changes_prune].
Qed.

Lemma does_complete s d r :
  system_ok s → request_ok (ws_db s) (ws_log s) (ws_ids s) d → does s (complete s d r) ∅ ∅.
Proof.
  intros [[Hb Hlog] _] [_ _ Hrow]. unfold complete.
  destruct (CompleteAttempt (ws_db s) d r) as [[status b']|] eqn:Hc; split; cbn; try set_solver.
  by eapply changes_complete.
Qed.

Lemma does_refl s : does s s ∅ ∅.
Proof. split; [set_solver|set_solver|set_solver|done|by left]. Qed.

(** The loop's place does not matter to the tables. *)
Lemma does_loop s s' new newcomers p : does s s' new newcomers → does s (s' <| ws_loop := p |>) new newcomers.
Proof. by intros []. Qed.

(** Requests under way are forgotten. *)
Lemma does_drop s s' new newcomers i :
  does s s' new newcomers → does s (s' <| ws_running := delete i (ws_running s) |>) new newcomers.
Proof.
  intros []. split; try done. cbn. intros r Hr. left. eapply elem_of_submseteq; [done|].
  apply sublist_submseteq, sublist_delete.
Qed.

Section System.
Context (Decode Unmarshal : string → result json) (Encode : json → string).
Context (ParseRequestURI : string → result request_uri) (LookupIP : string → result (list IP)).
Context (ParseRFC3339 : string → option Z).
Notation perform := (perform Decode Unmarshal Encode ParseRequestURI LookupIP ParseRFC3339).

Lemma does_claim s owner now : system_ok s → does s (claim Decode Encode s owner now) ∅ ∅.
Proof.
  intros [[Hb Hlog] _]. unfold claim.
  destruct (ClaimDue_spec Decode Encode (ws_db s) owner now)
    as [(id & d & rendered & Hd & <- & Hdue & Hslot & ->)|(r & -> & Hr)].
  - apply andb_true_iff in Hdue as [Hi Hn%Z.leb_le].
    assert (Hid : id ∈ ws_ids s) by (apply (log_ids _ _ _ _ Hlog); left; by eexists).
    split; cbn; try set_solver.
    + apply rtc_once. by apply change_claim.
    + intros r. rewrite elem_of_app, list_elem_of_singleton. intros [?| ->]; [by left|right].
      split; cbn; [done|exists (dl_Owner d), now; rewrite elem_of_app, list_elem_of_singleton; by right|].
      intros e [[_ <-]|[Hne _]]%lookup_insert_Some; [|done]. by repeat split.
  - destruct r as [[d|]|e]; [by destruct (Hr d)| |]; apply (does_db s), rtc_refl.
Qed.

Lemma perform_does a s s' :
  system_ok s → perform a s = Some s' → ∃ new newcomers, does s s' new newcomers.
Proof.
  intros Hs. destruct a; cbn.
  - intros [= <-]. do 2 eexists. apply does_db, changes_create.
  - intros [= <-]. do 2 eexists. apply does_db, changes_update.
  - intros [= <-]. do 2 eexists. apply does_db, changes_set_enabled.
  - intros [= <-]. do 2 eexists. apply does_db, changes_disable.
  - intros [= <-]. do 2 eexists. apply does_db, changes_delete.
  - intros H. do 2 eexists. eapply with_ids_does; [done|exact H|]. intros Hid. apply changes_test, Hid. by left.
  - intros H. do 2 eexists. eapply with_ids_does; [done|exact H|]. intros Hid. apply changes_replay, Hid. by left.
  - intros H. do 2 eexists. eapply (with_ids_does _ _ (match enqueueActivityWebhookDeliveriesTx Decode Encode
      ParseRFC3339 (ws_db s) activityID p newID with Ok b => b | Err _ => ws_db s end)); [done| |].
    { rewrite <- H. f_equal. destruct (enqueueActivityWebhookDeliveriesTx _ _ _ _ _ _ _); [done|]. by destruct s. }
    intros Hid. apply changes_activity. intros kind Hk. apply Forall_forall. intros c Hc.
    apply Hid. unfold activity_ids. rewrite Hk. apply list_elem_of_fmap. by exists c.
  - destruct (idle_loop _); [|done]. cbn. destruct sql; [intros [= <-]; do 2 eexists; by apply does_loop, does_refl|].
    intros [= <-]. do 2 eexists. apply does_loop, does_db, changes_undeliverable.
  - destruct (ws_loop s); try done. intros [= <-]. do 2 eexists.
    destruct sql; [by apply does_loop, does_refl|apply does_loop, does_db, changes_Prune].
  - destruct (ws_loop s); try done. intros [= <-]. do 2 eexists. by apply does_loop, does_refl.
  - destruct (ws_loop s) as [| | |[|owner owners]]; try done. intros [= <-]. do 2 eexists.
    destruct sql; [by apply does_loop, does_refl|by apply does_loop, does_claim].
  - destruct (idle_loop _); [|done]. intros [= <-]. exists ∅, ∅. split; cbn; try set_solver. apply changes_interrupted.
  - destruct (idle_loop _); [|done]. intros [= <-]. do 2 eexists. apply does_db, changes_Prune.
  - intros (d & Hd & [= <-])%bind_Some. do 2 eexists. apply does_drop.
    destruct sql; [by apply does_refl|apply does_complete; [done|]].
    pose proof (ok_running _ Hs) as Hr. rewrite Forall_forall in Hr. by eapply Hr, list_elem_of_lookup_2.
  - case_decide as Hu; [done|]. intros [= <-]. exists ∅, {[user]}. split; cbn; try set_solver.
    apply rtc_once, change_add_user; [set_solver|]. by apply newcomer_stranger.
  - intros [= <-]. do 2 eexists. apply does_db, changes_other; try done. intros u. unfold has_user. cbn.
    destruct (decide (u = user)) as [->|Hne]; [rewrite lookup_alter_eq|by rewrite lookup_alter_ne].
    by rewrite fmap_is_Some.
  - intros [= <-]. do 2 eexists. apply does_db, rtc_once, change_user.
  - intros [= <-]. do 2 eexists. by apply does_db, changes_other.
  - intros [= <-]. do 2 eexists. apply does_db, rtc_once, change_edit. intros d _. by repeat split.
  - intros [= <-]. exists ∅, ∅. split; cbn; try set_solver.
Qed.

Lemma perform_ok a s s' : system_ok s → perform a s = Some s' → system_ok s'.
Proof. intros Hs H. destruct (perform_does a s s' Hs H) as (new & newcomers & Hd). by eapply does_ok. Qed.

Lemma empty_ok : system_ok empty_system.
Proof.
  split; [|by constructor]. split; cbn; split; cbn; try done.
  - by intros id n [a Ha].
  - intros id _. apply prefix_nil.
  - intros id [[d Hd]|Hun]; [done|]. by destruct Hun; constructor.
  - intros u [[d Hd]|Hst]; [done|]. by destruct Hst; constructor.
  - by intros id n t Ht%not_elem_of_nil.
  - by intros owner t _ Ht%not_elem_of_nil.
Qed.

Lemma run_ok l s s' :
  system_ok s → perform_all Decode Unmarshal Encode ParseRequestURI LookupIP ParseRFC3339 l s = Some s' → system_ok s'.
Proof.
  revert s. induction l as [|a l IH]; intros s Hs; cbn; [by intros [= <-]|].
  intros (s1 & H1 & H)%bind_Some. eapply IH; [|done]. by eapply perform_ok.
Qed.
End System.
