(* ===== verification/WebhookLoop.v ===== *)
(** Disabled webhooks: while the loop claims deliveries, whatever waits for an
    event is for a webhook that is enabled. *)
From Stdlib Require Import ZArith Lia Ascii String.
From stdpp Require Import base tactics numbers list gmap strings relations sorting.
From S2P Require Import Prelude Records GoNet GoIO WebhookModel WebhookQueue WebhookRuns WebhookChanges WebhookInv WebhookLog WebhookSystem.

Definition hook_enabled (b : webhook_db) (k : string * string) : Prop :=
  ∃ w, hooks b !! k = Some w ∧ hk_Enabled w = true.
Definition waits_for_event (d : delivery) : bool := idle d && bool_decide (dl_Origin d = OriginEvent).
Definition hook_key (d : delivery) : string * string := (dl_Owner d, dl_WebhookID d).

Definition enabled_ok (b : webhook_db) : Prop :=
  ∀ id d, deliveries b !! id = Some d → waits_for_event d = true → hook_enabled b (hook_key d).

(** What waits did so before, and no webhook it is for was disabled. *)
Lemma enabled_from b b' :
  enabled_ok b →
  (∀ id d', deliveries b' !! id = Some d' → waits_for_event d' = true →
     ∃ d, deliveries b !! id = Some d ∧ waits_for_event d = true ∧ hook_key d' = hook_key d ∧
          (hook_enabled b (hook_key d) → hook_enabled b' (hook_key d))) →
  enabled_ok b'.
Proof.
  intros Hb H id d' Hd' Hw. destruct (H id d' Hd' Hw) as (d & Hd & Hwd & -> & Hh). apply Hh. by apply (Hb id d).
Qed.

Lemma enabled_delete P b : enabled_ok b → enabled_ok (delete_deliveries P b).
Proof. intros Hb. apply (enabled_from b); [done|]. intros id d [Hd _]%delete_deliveries_lookup Hw. eauto. Qed.

Lemma enabled_update P f b :
  (∀ d, P d = true → waits_for_event (f d) = true → waits_for_event d = true ∧ hook_key (f d) = hook_key d) →
  enabled_ok b → enabled_ok (update_deliveries P f b).
Proof.
  intros Hf Hb. apply (enabled_from b); [done|]. intros id d'. rewrite update_deliveries_lookup.
  intros (d & Hd & ->)%fmap_Some Hw. exists d. destruct (P d) eqn:HP; [|done]. destruct (Hf d HP Hw). by split_and!.
Qed.

Lemma cancel_waits error now d : waits_for_event (cancel error now d) = false.
Proof. done. Qed.

(** A webhook is written: what waits for it goes unless it stays enabled. *)
Lemma drop_waiting_lookup b owner id now k d :
  deliveries (drop_waiting b owner id now) !! k = Some d → waits_for_event d = true →
  deliveries b !! k = Some d ∧ hook_key d ≠ (owner, id).
Proof.
  unfold drop_waiting, pruneWebhookHistoryTx. intros [Hd _]%delete_deliveries_lookup Hw.
  unfold cancelWaitingWebhookDeliveriesTx in Hd. rewrite update_deliveries_lookup in Hd.
  apply fmap_Some in Hd as (e & He & ->). destruct (_ && idle e) eqn:Hc; [done|]. split; [done|].
  intros [= <- <-]. apply andb_true_iff in Hw as [Hi _]. by rewrite !eqb_str_refl, Hi in Hc.
Qed.

Lemma enabled_drop b owner id now :
  (∀ k d, deliveries b !! k = Some d → waits_for_event d = true → hook_key d ≠ (owner, id) → hook_enabled b (hook_key d)) →
  enabled_ok (drop_waiting b owner id now).
Proof. intros Hb k d Hd Hw. destruct (drop_waiting_lookup _ _ _ _ _ _ Hd Hw) as [Hd' Hne]. by apply (Hb k d). Qed.

Lemma enabled_write b owner id w :
  enabled_ok b → (hk_Enabled w = true ∨ ¬ hook_enabled b (owner, id)) →
  enabled_ok (b <| hooks := <[(owner, id) := w]> (hooks b) |>).
Proof.
  intros Hb Hw k d Hd Hwait. specialize (Hb k d Hd Hwait). unfold hook_enabled in *. cbn.
  destruct (decide (hook_key d = (owner, id))) as [Hk|Hne]; [|by rewrite lookup_insert_ne].
  rewrite Hk in Hb |- *. rewrite lookup_insert_eq. destruct Hw; [by eexists|done].
Qed.

Lemma enabled_write_drop b owner id w now :
  enabled_ok b → enabled_ok (drop_waiting (b <| hooks := <[(owner, id) := w]> (hooks b) |>) owner id now).
Proof.
  intros Hb. apply enabled_drop. intros k d Hd Hw Hne. specialize (Hb k d Hd Hw). unfold hook_enabled in *. cbn.
  by rewrite lookup_insert_ne.
Qed.

(** A delivery is written: it does not wait for an event, or may. *)
Lemma enabled_insert b b' id d :
  enabled_ok b → deliveries b' = <[id := d]> (deliveries b) → hooks b' = hooks b →
  (waits_for_event d = true → hook_enabled b (hook_key d)) → enabled_ok b'.
Proof.
  intros Hb Hd Hh Hw k e. unfold hook_enabled. rewrite Hd, Hh.
  intros [[<- <-]|[_ He]]%lookup_insert_Some Hwait; [by apply Hw|by apply (Hb k e)].
Qed.

Lemma enabled_health b d status now : enabled_ok b → enabled_ok (update_health_unless_test b d status now).
Proof.
  intros Hb. unfold update_health_unless_test. case_bool_decide; [done|].
  assert (Hset : ∀ f, (∀ w, hk_Enabled (f w) = hk_Enabled w) → enabled_ok (set_health b d f)).
  { intros f Hf. apply (enabled_from b); [done|]. intros id e He Hw. exists e. split_and!; try done.
    intros (w & Hw' & Hen). unfold hook_enabled. cbn.
    destruct (decide ((dl_Owner d, dl_WebhookID d) = hook_key e)) as [E|Hne].
    - rewrite E, lookup_alter_eq, Hw'. eexists. split; [done|]. by rewrite Hf.
    - rewrite lookup_alter_ne by done. by eexists. }
  destruct status; done || by apply Hset.
Qed.

Section Loop.
Context (Decode Unmarshal : string → result json) (Encode : json → string).
Context (ParseRequestURI : string → result request_uri) (LookupIP : string → result (list IP)).
Context (ParseRFC3339 : string → option Z).
Notation perform := (perform Decode Unmarshal Encode ParseRequestURI LookupIP ParseRFC3339).

Lemma enabled_create b owner raw s now :
  enabled_ok b → enabled_ok (Create Decode Unmarshal Encode ParseRequestURI LookupIP b owner raw s now).2.
Proof.
  intros Hb. unfold Create. destruct (validate _ _ _ _ _ _ _); [|done]. destruct (_ <=? _); [done|].
  destruct (validateWebhookTargetsTx _ _ _ _ _); [|done]. cbn. case_bool_decide as Hn; [done|].
  destruct (negb _); [done|]. destruct (Get _ _ _ _); [|done]. cbn. apply enabled_write; [done|].
  right. intros (w & Hw & _). apply Hn. by eexists.
Qed.

Lemma enabled_write_row b owner id w w' now :
  enabled_ok b → hooks b !! (owner, id) = Some w →
  enabled_ok (let b := b <| hooks := <[(owner, id) := w']> (hooks b) |> in
              if hk_Enabled w && negb (hk_Enabled w') then drop_waiting b owner id now else b).
Proof.
  intros Hb Hw. cbn. destruct (hk_Enabled w && _) eqn:Hd; [by apply enabled_write_drop|].
  apply enabled_write; [done|]. destruct (hk_Enabled w') eqn:Hw'; [by left|right].
  intros (w0 & Hw0 & Hen). simplify_eq. by rewrite Hen in Hd.
Qed.

Lemma enabled_update_hook b owner id raw s now :
  enabled_ok b → enabled_ok (Update Decode Unmarshal Encode ParseRequestURI LookupIP b owner id raw s now).2.
Proof.
  intros Hb. unfold Update. generalize ((normalizeWebhookInput raw) <| in_ID := id |>). intros input.
  destruct (_ <? _); [done|]. destruct (validate _ _ _ _ _ _ _); [|done].
  destruct (hooks b !! (owner, id)) as [w|] eqn:Hw; [|done]. cbn. destruct (_ =? _); [|done]. cbn.
  destruct (validateWebhookTargetsTx _ _ _ _ _); [|done]. cbn. destruct (Get _ _ _ _); [|done]. cbn.
  pose (w' := write_config input now (w <| hk_Revision := hk_Revision w + 1 |>)).
  exact (enabled_write_row b owner id w w' now Hb Hw).
Qed.

Lemma enabled_set_enabled b owner id current enabled s now :
  enabled_ok b →
  enabled_ok (SetEnabled Decode Unmarshal Encode ParseRequestURI LookupIP b owner id current enabled s now).2.
Proof.
  intros Hb. unfold SetEnabled. case_bool_decide as Hcur; [done|]. destruct (if enabled then _ else _); [|done].
  destruct (hooks b !! (owner, id)) as [w|]; [|done]. cbn. destruct (_ =? _); [|done]. cbn.
  destruct (Get _ _ _ _); [|done]. cbn. destruct enabled; cbn.
  - rewrite andb_false_r. apply enabled_write; [done|by left].
  - destruct (hk_Enabled (aw_Row current)); [|done]. by apply enabled_write_drop.
Qed.

Lemma enabled_disable b violating now :
  enabled_ok b → enabled_ok (DisableWebhooksViolatingPrivatePolicy b violating now).
Proof.
  revert b. induction violating as [|[owner id] l IH]; intros b Hb; [done|]. apply IH. unfold disable_violating.
  destruct (hooks b !! _) as [w|]; [|done]. destruct (hk_Enabled w); [|done]. by apply enabled_write_drop.
Qed.

Lemma enabled_delete_hook b owner id now : enabled_ok b → enabled_ok (Delete b owner id now).2.
Proof.
  intros Hb. unfold Delete. destruct (hooks (drop_waiting _ _ _ _) !! _) as [w|]; [|done]. cbn.
  intros k d Hd Hw. destruct (drop_waiting_lookup b owner id now k d Hd Hw) as [Hd' Hne].
  destruct (Hb k d Hd' Hw) as (w' & Hw' & Hen). exists w'. cbn. by rewrite lookup_delete_ne.
Qed.

Lemma insert_row b owner config e v origin source maxAttempts now b' :
  insertWebhookDeliveryTx Decode Encode ParseRFC3339 b owner config e v origin source maxAttempts now = Ok b' →
  ∃ id d, deliveries b' = <[id := d]> (deliveries b) ∧ hooks b' = hooks b ∧ dl_Origin d = origin ∧
          hook_key d = (owner, cf_ID config).
Proof.
  unfold insertWebhookDeliveryTx, insert_delivery_row. destruct (ensurePendingCapTx _ _); [|done]. cbn.
  destruct (render _ _ _ _ _); [|done]. cbn. destruct (refuse _ _); [|done]. cbn. destruct (_ || _); [done|].
  destruct (negb _); [done|]. intros [= <-]. by do 2 eexists.
Qed.

Lemma enabled_test b owner raw event s newID now :
  enabled_ok b → enabled_ok (EnqueueTest Decode Unmarshal Encode ParseRequestURI LookupIP ParseRFC3339
                               b owner raw event s newID now).2.
Proof.
  intros Hb. unfold EnqueueTest. destruct (validate _ _ _ _ _ _ _); [|done]. destruct (negb _); [done|].
  destruct (validateWebhookTargetsTx _ _ _ _ _); [|done]. cbn. destruct (ensureDailyCapTx _ _ _ _); [|done]. cbn.
  destruct (insertWebhookDeliveryTx _ _ _ _ _ _ _ _ _ _ _ _) as [b'|] eqn:Hi; [|done]. cbn. unfold get_inserted.
  destruct (deliveries b' !! _) as [row|]; cbn; [|done]. destruct (dl_Owner row =?s owner); cbn; [|done].
  apply insert_row in Hi as (id & d & Hd & Hh & Ho & _). eapply enabled_insert; [done..|].
  unfold waits_for_event. rewrite Ho. by intros [_ ?]%andb_true_iff.
Qed.

Lemma enabled_replay b owner original current s newID now :
  enabled_ok b → enabled_ok (Replay Decode Encode ParseRFC3339 b owner original current s newID now).2.
Proof.
  intros Hb. unfold Replay. case_bool_decide; [done|]. destruct (negb _); [done|]. case_bool_decide; [done|].
  destruct (ensureDailyCapTx _ _ _ _); [|done]. cbn.
  destruct (insertWebhookDeliveryTx _ _ _ _ _ _ _ _ _ _ _ _) as [b'|] eqn:Hi; [|done]. cbn. unfold get_inserted.
  destruct (deliveries b' !! _) as [row|]; cbn; [|done]. destruct (dl_Owner row =?s owner); cbn; [|done].
  apply insert_row in Hi as (id & d & Hd & Hh & Ho & _). eapply enabled_insert; [done..|].
  unfold waits_for_event. rewrite Ho. by intros [_ ?]%andb_true_iff.
Qed.

Lemma elem_of_webhook_candidates b owner event kind id w :
  (id, w) ∈ candidates b owner event kind ↔
  hooks b !! (owner, id) = Some w ∧ hk_Enabled w = true ∧ event ∈ hk_Events w ∧ hk_TargetKind w = kind.
Proof.
  unfold candidates. rewrite merge_sort_Permutation, list_elem_of_omap. split.
  - intros ([[o k] v] & Hv%elem_of_map_to_list & H). cbn in H. destruct (_ && _) eqn:Hc; [|done]. injection H as -> ->.
    rewrite !andb_true_iff, bool_decide_eq_true, !eqb_str_true in Hc. destruct Hc as [[[-> ?] ?] ?]. done.
  - intros (Hw & Hen & Hev & Hk). exists (owner, id, w). rewrite elem_of_map_to_list. split; [done|]. cbn.
    by rewrite Hen, Hk, !eqb_str_refl, bool_decide_true.
Qed.

Lemma enabled_enqueue_all activityID p newID l c c' :
  Forall (λ x, hook_enabled c (pr_ScopeUserID p, x.1)) l → enabled_ok c →
  enqueue_all Decode Encode ParseRFC3339 activityID p newID c l = Ok c' → enabled_ok c'.
Proof.
  revert c. induction l as [|[id w] l IH]; intros c Hl Hc; cbn; [by intros [= <-]|].
  apply Forall_cons in Hl as [Hid Hl]. unfold enqueue_candidate. case_bool_decide; cbn; [by apply IH|].
  destruct (insertWebhookDeliveryTx _ _ _ _ _ _ _ _ _ _ _ _) as [c1|e] eqn:Hi; cbn.
  - apply insert_row in Hi as (k & d & Hd & Hh & Ho & Hkey). apply IH.
    + unfold hook_enabled. by rewrite Hh.
    + eapply enabled_insert; [done..|]. intros _. by rewrite Hkey.
  - destruct (_ || _); [by apply IH|done].
Qed.

Lemma enabled_activity activityID p newID b b' :
  enabled_ok b → enqueueActivityWebhookDeliveriesTx Decode Encode ParseRFC3339 b activityID p newID = Ok b' →
  enabled_ok b'.
Proof.
  intros Hb. unfold enqueueActivityWebhookDeliveriesTx. destruct (_ || _); [by intros [= <-]|].
  destruct (_ !! event_type p) as [kind|]; [|by intros [= <-]]. apply enabled_enqueue_all; [|done].
  apply Forall_forall. intros [id w] (Hw & Hen & _)%elem_of_webhook_candidates. by exists w.
Qed.

Lemma enabled_complete b d r status b' :
  enabled_ok b → CompleteAttempt b d r = Ok (status, b') →
  (∀ row, deliveries b !! sd_ID d = Some row → same_delivery (sd_Row d) row) → enabled_ok b'.
Proof.
  intros Hb Hc Hrow. unfold CompleteAttempt in Hc. destruct (attempts b !! _) as [a|] eqn:Ha; [|done].
  destruct (bool_decide (at_Status a = APending)); [|done]. cbn [negb] in Hc.
  set (b1 := b <| attempts := _ |>) in Hc. destruct (verdict b1 (sd_Row d) r) as [st next] eqn:Hv.
  injection Hc as -> <-.
  assert (H1 : enabled_ok (b1 <| deliveries := alter (finished_delivery status next r) (sd_ID d) (deliveries b1) |>)).
  { intros id e. cbn. destruct (decide (id = sd_ID d)) as [->|Hne]; [|rewrite lookup_alter_ne by done; apply (Hb id e)].
    rewrite lookup_alter_eq. intros (row & Hd & ->)%fmap_Some Hw. destruct (Hrow row Hd) as (Ho & Hid & Hor & _).
    unfold waits_for_event, idle in Hw. cbn in Hw. rewrite !andb_true_iff, !bool_decide_eq_true in Hw.
    destruct Hw as [[Hst _] Hev]. unfold verdict in Hv. destruct (succeeded r); [by simplify_eq/=|].
    destruct (_ && _); [|by simplify_eq/=]. unfold webhookDeliveryCanContinueTx, deliverable, hook_of in Hv. cbn in Hv.
    rewrite Hor, Hev in Hv. unfold hook_enabled, hook_key. cbn. rewrite Ho, Hid in Hv.
    destruct (active _ _); [|by simplify_eq/=]. cbn in Hv. destruct (hooks b !! _) as [w|]; [|by simplify_eq/=].
    destruct (hk_Enabled w) eqn:Hen; [by exists w|by simplify_eq/=]. }
  case_bool_decide; [by apply enabled_health|]. by apply enabled_delete, enabled_health.
Qed.

Lemma enabled_cancelled b now : enabled_ok (cancelUndeliverableWaiting b now).2.
Proof.
  intros id d. cbn. rewrite lookup_fmap. intros (e & He & ->)%fmap_Some.
  destruct (idle e && negb (deliverable b e)) eqn:Hc; [done|]. intros Hw.
  pose proof Hw as [Hi Ho%bool_decide_eq_true]%andb_true_iff. rewrite Hi in Hc. cbn in Hc.
  apply negb_false_iff in Hc. unfold deliverable, hook_of in Hc. rewrite Ho in Hc.
  apply andb_true_iff in Hc as [_ Hc]. unfold hook_enabled. cbn. destruct (hooks b !! _) as [w|]; [|done]. by exists w.
Qed.

Lemma enabled_claim s owner now : enabled_ok (ws_db s) → enabled_ok (ws_db (claim Decode Encode s owner now)).
Proof.
  intros Hb. unfold claim.
  destruct (ClaimDue_spec Decode Encode (ws_db s) owner now)
    as [(id & d & rendered & Hd & <- & Hdue & Hslot & ->)|(r & -> & Hr)].
  - cbn. eapply enabled_insert; [done..|]. unfold waits_for_event, idle. cbn. by rewrite andb_false_r.
  - by destruct r as [[?|]|].
Qed.

Lemma enabled_delete_user user b : enabled_ok b → enabled_ok (delete_user user b).
Proof.
  intros Hb id d Hd Hw.
  change (deliveries (delete_deliveries (λ _ d, dl_Owner d =?s user) b) !! id = Some d) in Hd.
  apply delete_deliveries_lookup in Hd as [Hd Hne]. apply eqb_str_false in Hne.
  destruct (Hb id d Hd Hw) as (w & Hh & Hen). exists w. split; [|done]. cbn. by apply map_lookup_filter_Some.
Qed.

(** While the loop is between its query and the end of its claims. *)
Definition loop_ok (s : webhook_system) : Prop := idle_loop (ws_loop s) = false → enabled_ok (ws_db s).

Lemma set_db_loop s b : (enabled_ok (ws_db s) → enabled_ok b) → loop_ok s → loop_ok (set_db s b).
Proof. intros H Hs Hi. by apply H, Hs. Qed.

Lemma with_ids_loop s ids k s' : with_ids s ids k = Some s' → loop_ok k → loop_ok s'.
Proof. unfold with_ids. case_decide; [|done]. by intros [= <-]. Qed.

Lemma perform_loop a s s' : system_ok s → loop_ok s → perform a s = Some s' → loop_ok s'.
Proof.
  intros Hs Hl. destruct a; cbn.
  - intros [= <-]. by apply set_db_loop; [apply enabled_create|].
  - intros [= <-]. by apply set_db_loop; [apply enabled_update_hook|].
  - intros [= <-]. by apply set_db_loop; [apply enabled_set_enabled|].
  - intros [= <-]. by apply set_db_loop; [apply enabled_disable|].
  - intros [= <-]. by apply set_db_loop; [apply enabled_delete_hook|].
  - intros H. eapply with_ids_loop; [done|]. by apply set_db_loop; [apply enabled_test|].
  - intros H. eapply with_ids_loop; [done|]. by apply set_db_loop; [apply enabled_replay|].
  - intros H. eapply with_ids_loop; [done|].
    destruct (enqueueActivityWebhookDeliveriesTx _ _ _ _ _ _ _) eqn:He; [|done].
    apply set_db_loop; [|done]. intros Hb. by eapply enabled_activity.
  - destruct (idle_loop _); [|done]. cbn. destruct sql; intros [= <-] Hi; [done|]. apply enabled_cancelled.
  - destruct (ws_loop s) eqn:El; try done. destruct sql; intros [= <-] Hi; [done|].
    apply enabled_delete, Hl. by rewrite El.
  - destruct (ws_loop s) eqn:El; try done. intros [= <-] _. apply Hl. by rewrite El.
  - destruct (ws_loop s) as [| | |[|owner owners]] eqn:El; try done. intros [= <-] _.
    assert (Hb : enabled_ok (ws_db s)) by (apply Hl; by rewrite El). destruct sql; cbn; [done|by apply enabled_claim].
  - destruct (idle_loop _) eqn:Hi; [|done]. intros [= <-]. unfold loop_ok. cbn. by rewrite Hi.
  - destruct (idle_loop _) eqn:Hi; [|done]. intros [= <-]. unfold loop_ok. cbn. by rewrite Hi.
  - intros (d & Hd & [= <-])%bind_Some. unfold loop_ok. destruct sql; [done|]. unfold complete.
    destruct (CompleteAttempt _ _ _) as [[st b']|] eqn:Hc; cbn; [|done]. intros Hi.
    eapply enabled_complete; [by apply Hl|done|]. pose proof (ok_running _ Hs) as Hr. rewrite Forall_forall in Hr.
    by eapply request_row, Hr, list_elem_of_lookup_2.
  - case_decide; [done|]. intros [= <-]. done.
  - intros [= <-]. done.
  - intros [= <-]. apply set_db_loop; [|done]. apply enabled_delete_user.
  - intros [= <-]. done.
  - intros [= <-]. apply set_db_loop; [|done]. by apply enabled_update.
  - intros [= <-]. done.
Qed.

Lemma run_loop l s s' :
  system_ok s → loop_ok s → perform_all Decode Unmarshal Encode ParseRequestURI LookupIP ParseRFC3339 l s = Some s' →
  loop_ok s'.
Proof.
  revert s. induction l as [|a l IH]; intros s Hs Hl; cbn; [by intros [= <-]|].
  intros (s1 & H1 & H)%bind_Some. eapply IH; [| |done]; [by eapply perform_ok|by eapply perform_loop].
Qed.
End Loop.
