(* ===== verification/WebhookDrain.v ===== *)
(** The webhook queue drains: what is left to try gets less with every request,
    and a pass of the dispatcher's loop starts one if anything waits. *)
From Stdlib Require Import ZArith Lia Ascii String.
From stdpp Require Import base tactics numbers list gmap strings relations sorting.
From S2P Require Import Prelude Records GoNet GoIO WebhookModel WebhookQueue WebhookRuns WebhookChanges WebhookInv WebhookLog WebhookSystem.

(** The attempts a delivery has left. *)
Definition work (d : delivery) : Z :=
  if waiting (dl_Status d) then dl_MaxAttempts d - dl_AttemptCount d else 0.
Definition total_work (m : gmap string delivery) : Z := map_fold (λ _ d n, work d + n) 0 m.
Definition is_start (e : entry) : bool := match e with Started _ _ _ _ => true | _ => false end.
Definition started (log : list entry) : Z := Z.of_nat (length (filter (λ e, is_start e = true) log)).

Lemma total_work_delete m id d : m !! id = Some d → total_work m = work d + total_work (delete id m).
Proof. intros H. unfold total_work. rewrite (map_fold_delete_L _ _ id d m); [done|intros; lia|done]. Qed.
Lemma total_work_insert m id d : m !! id = None → total_work (<[id := d]> m) = work d + total_work m.
Proof. intros H. unfold total_work. rewrite map_fold_insert_L; [done|intros; lia|done]. Qed.

Lemma total_work_nonneg m : (∀ id d, m !! id = Some d → 0 ≤ work d) → 0 ≤ total_work m.
Proof.
  induction m as [|id d m Hid IH] using map_ind; intros H; [done|]. rewrite total_work_insert by done.
  pose proof (H id d (lookup_insert_eq _ _ _)). enough (0 ≤ total_work m) by lia. apply IH. intros k e He.
  apply (H k). rewrite lookup_insert_ne; [done|congruence].
Qed.

Lemma total_work_le m m' :
  (∀ id d, m !! id = Some d → 0 ≤ work d) →
  (∀ id d', m' !! id = Some d' → ∃ d, m !! id = Some d ∧ work d' ≤ work d) → total_work m' ≤ total_work m.
Proof.
  revert m. induction m' as [|id d' m' Hid IH] using map_ind; intros m Hpos H; [by apply total_work_nonneg|].
  rewrite total_work_insert by done. destruct (H id d') as (d & Hd & Hle); [apply lookup_insert_eq|].
  rewrite (total_work_delete m id d) by done. enough (total_work m' ≤ total_work (delete id m)) by lia. apply IH.
  - intros k e [_ He]%lookup_delete_Some. eauto.
  - intros k e He. assert (k ≠ id) by congruence. rewrite lookup_delete_ne by done. apply H.
    by rewrite lookup_insert_ne.
Qed.

Lemma total_work_one m id d : (∀ id d, m !! id = Some d → 0 ≤ work d) → m !! id = Some d → work d ≤ total_work m.
Proof.
  intros Hpos Hd. rewrite (total_work_delete m id d) by done. enough (0 ≤ total_work (delete id m)) by lia.
  apply total_work_nonneg. intros k e [_ He]%lookup_delete_Some. eauto.
Qed.

Lemma started_app l k : started (l ++ k) = started l + started k.
Proof. unfold started. rewrite filter_app, length_app. lia. Qed.

Lemma started_none l : Forall (λ e, is_start e = false) l → started l = 0.
Proof.
  unfold started. induction 1 as [|e l He _ IH]; [done|]. rewrite filter_cons_False by congruence. done.
Qed.

Lemma work_nonneg b id d : rows_ok b → deliveries b !! id = Some d → 0 ≤ work d.
Proof.
  intros Hb Hd. pose proof (ok_count _ _ (rows_delivery _ Hb _ _ Hd)). unfold work. destruct (waiting _); lia.
Qed.

(** The attempts started and those left are never more than before, unless a
    delivery is inserted. *)
Definition potential (c : core) : Z := total_work (deliveries c.1) + started c.2.

Lemma potential_same b b' log more :
  rows_ok b → started more = 0 →
  (∀ id d', deliveries b' !! id = Some d' → ∃ d, deliveries b !! id = Some d ∧ work d' ≤ work d) →
  potential (b', log ++ more) ≤ potential (b, log).
Proof.
  intros Hb Hm H. unfold potential. cbn. rewrite started_app, Hm.
  enough (total_work (deliveries b') ≤ total_work (deliveries b)) by lia.
  apply total_work_le; [|done]. intros. by eapply work_nonneg.
Qed.

Lemma change_potential newcomers c c' :
  rows_ok c.1 → change ∅ newcomers c c' → potential c' ≤ potential c.
Proof.
  intros Hb Hc. destruct Hc as [b b' log Hd|b user st log Hu|b P f log Hf|b P error now log|b P log|b user log|
    b id d log Hnone Hin|b id d now rendered log Hd Hi|b id n d d' a a' log Ha Hp Hd Hans|b now log]; cbn in *;
    try (rewrite <- (app_nil_r log) at 1; apply potential_same; [done|done|]).
  - rewrite Hd. intros k e He. by exists e.
  - intros k e He. by exists e.
  - intros id e. rewrite update_deliveries_lookup. intros (d & Hd & ->)%fmap_Some. exists d. split; [done|].
    destruct (P d) eqn:HP; [|done]. destruct (Hf d HP) as ((_ & _ & _ & Hm & _) & Hs & Hcount & _). unfold work.
    by rewrite Hs, Hm, Hcount.
  - intros id e. rewrite update_deliveries_lookup. intros (d & Hd & ->)%fmap_Some. exists d. split; [done|].
    pose proof (work_nonneg _ _ _ Hb Hd). by destruct (P d).
  - intros id d [Hd _]%delete_deliveries_lookup. by exists d.
  - intros id d Hd. change (deliveries (delete_deliveries (λ _ d, dl_Owner d =?s user) b) !! id = Some d) in Hd.
    apply delete_deliveries_lookup in Hd as [Hd _]. by exists d.
  - set_solver.
  - unfold potential. cbn. rewrite started_app. cbn. rewrite <- insert_delete_eq, total_work_insert by apply lookup_delete_eq.
    rewrite (total_work_delete (deliveries b) id d) by done. unfold work. cbn.
    apply andb_true_iff in Hi as [-> _]. unfold started. cbn. rewrite decide_True by done. cbn. lia.
  - apply potential_same; [done..|]. cbn. intros k e [[<- <-]|[_ He]]%lookup_insert_Some; [exists d|by exists e].
    split; [done|]. pose proof (ok_count _ _ (rows_delivery _ Hb _ _ Hd)). pose proof (work_nonneg _ _ _ Hb Hd) as Hw.
    assert (Hwait : waiting (dl_Status d) = true).
    { pose proof (rows_delivery _ Hb _ _ Hd) as Hok. pose proof (answer_last _ _ _ _ _ _ _ Hb Ha Hp Hd Hans) as ->.
      assert (Hst : status_at b id (dl_AttemptCount d) = Some APending) by (unfold status_at; rewrite Ha; cbn; congruence).
      destruct (dl_LeaseUntil d) as [t|] eqn:Hl; [by apply (ok_leased _ _ Hok t)|].
      rewrite (ok_last _ _ Hok Hl) in Hst; [by case_bool_decide|].
      apply (ok_numbers _ _ Hok (dl_AttemptCount d)). by rewrite Hst. }
    unfold work in *. rewrite Hwait in *. rewrite (answered_count _ _ _ _ Hans).
    destruct (answered_same _ _ _ _ Hans) as (_ & _ & _ & -> & _). destruct (waiting (dl_Status d')); lia.
  - apply potential_same; [done| |].
    + apply started_none, Forall_forall. intros e (id & n & a & -> & _)%elem_of_interrupted. done.
    + intros id e. rewrite update_deliveries_lookup. cbn. intros (d & Hd & ->)%fmap_Some. exists d. split; [done|].
      pose proof (work_nonneg _ _ _ Hb Hd) as Hw. destruct (_ && _) eqn:Hx; [|done].
      apply andb_true_iff in Hx as [Hx _]. unfold work in *. cbn. rewrite Hx in *. destruct (_ <? _); cbn; lia.
Qed.

Lemma changes_potential I U newcomers c c' :
  newcomers ⊆ U → core_ok I U c → rtc (change ∅ newcomers) c c' → potential c' ≤ potential c.
Proof.
  intros HU Hc H. induction H as [c|c c1 c' H _ IH]; [done|].
  etrans; [apply IH; eapply change_ok; [..|done|done]; set_solver|]. eapply change_potential; [|done]. apply Hc.
Qed.

(** ** A pass of the loop *)

(** Whether an action inserts deliveries. *)
Definition inserts (a : action) : bool :=
  match a with AEnqueueTest _ _ _ _ _ _ | AReplay _ _ _ _ _ _ | AActivity _ _ _ => true | _ => false end.

(** By the time [t] everything that is scheduled is due. *)
Record quiet (b : webhook_db) (t : Z) : Prop := {
  quiet_next id d : deliveries b !! id = Some d → waiting (dl_Status d) = true → dl_NextAttemptAt d ≤ t;
  quiet_lease id d l : deliveries b !! id = Some d → dl_LeaseUntil d = Some l → l ≤ t;
  quiet_slot owner : next_allowed b owner ≤ t;
}.

Lemma quiet_check b t :
  bool_decide (map_Forall (λ _ d, (waiting (dl_Status d) = true → dl_NextAttemptAt d ≤ t) ∧
    from_option (λ l, l <=? t) true (dl_LeaseUntil d) = true) (deliveries b) ∧
    map_Forall (λ _ slot, slot ≤ t) (slots b) ∧ 0 ≤ t) = true → quiet b t.
Proof.
  intros (Hd & Hs & Ht)%bool_decide_eq_true. split.
  - intros id d H. by apply (Hd id d).
  - intros id d l H Hl. destruct (Hd id d H) as [_ Hle]. rewrite Hl in Hle. by apply Z.leb_le in Hle.
  - intros owner. unfold next_allowed. destruct (slots b !! owner) as [slot|] eqn:E; [by apply (Hs owner)|done].
Qed.

Definition none_waiting (b : webhook_db) : Prop :=
  ∀ id d, deliveries b !! id = Some d → waiting (dl_Status d) = false.

(** Nothing starts to wait but what is inserted. *)
Lemma change_waiting newcomers c c' :
  rows_ok c.1 → change ∅ newcomers c c' → none_waiting c.1 → none_waiting c'.1.
Proof.
  intros Hb Hc Hn. destruct Hc as [b b' log Hd|b user st log Hu|b P f log Hf|b P error now log|b P log|b user log|
    b id d log Hnone Hin|b id d now rendered log Hd Hi|b id n d d' a a' log Ha Hp Hd Hans|b now log]; cbn in *;
    intros k e; try (rewrite update_deliveries_lookup; intros (x & Hx & ->)%fmap_Some; cbn in Hx; pose proof (Hn k x Hx)).
  - rewrite Hd. apply Hn.
  - apply Hn.
  - destruct (P x) eqn:HP; [|done]. destruct (Hf x HP) as (_ & -> & _). done.
  - by destruct (P x).
  - intros [He _]%delete_deliveries_lookup. by apply (Hn k).
  - intros He. change (deliveries (delete_deliveries (λ _ d, dl_Owner d =?s user) b) !! k = Some e) in He.
    apply delete_deliveries_lookup in He as [He _]. by apply (Hn k).
  - set_solver.
  - apply andb_true_iff in Hi as [Hw _]. by rewrite (Hn id d Hd) in Hw.
  - exfalso. pose proof (Hn id d Hd) as Hw. pose proof (rows_delivery _ Hb _ _ Hd) as Hok.
    pose proof (answer_last _ _ _ _ _ _ _ Hb Ha Hp Hd Hans) as ->.
    assert (Hst : status_at b id (dl_AttemptCount d) = Some APending) by (unfold status_at; rewrite Ha; cbn; congruence).
    destruct (dl_LeaseUntil d) as [t|] eqn:Hl; [destruct (ok_leased _ _ Hok t Hl); congruence|].
    rewrite (ok_last _ _ Hok Hl) in Hst; [by case_bool_decide|].
    apply (ok_numbers _ _ Hok (dl_AttemptCount d)). by rewrite Hst.
  - match goal with H : waiting _ = false |- _ => rewrite H end. done.
Qed.

Lemma changes_waiting I U newcomers c c' :
  newcomers ⊆ U → core_ok I U c → rtc (change ∅ newcomers) c c' → none_waiting c.1 → none_waiting c'.1.
Proof.
  intros HU Hc H. induction H as [c|c c1 c' H _ IH]; [done|]. intros Hn. apply IH.
  - eapply change_ok; [..|done|done]; set_solver.
  - eapply change_waiting; [apply Hc|done|done].
Qed.

(** Three attempts for every delivery that waits are enough. *)
Lemma total_bound b :
  rows_ok b → total_work (deliveries b) ≤ 3 * count_deliveries (λ d, waiting (dl_Status d)) b.
Proof.
  intros Hb. assert (H : ∀ id d, deliveries b !! id = Some d → work d ≤ 3).
  { intros id d Hd. pose proof (ok_max _ _ (rows_delivery _ Hb _ _ Hd)).
    pose proof (ok_count _ _ (rows_delivery _ Hb _ _ Hd)). unfold work. destruct (waiting _); lia. }
  unfold count_deliveries. revert H. generalize (deliveries b). intros m.
  induction m as [|id d m Hid IH] using map_ind; intros H; [done|].
  rewrite total_work_insert by done. rewrite map_filter_insert. cbn.
  pose proof (H id d (lookup_insert_eq _ _ _)) as Hw.
  assert (Hm : total_work m ≤ 3 * Z.of_nat (base.size (filter (λ kd, waiting (dl_Status kd.2) = true) m))).
  { apply IH. intros k e He. apply (H k). rewrite lookup_insert_ne; [done|congruence]. }
  unfold work in *. destruct (waiting (dl_Status d)); case_decide; try done.
  - rewrite map_size_insert_None by (by apply map_lookup_filter_None_2; left). lia.
  - rewrite delete_id by done. lia.
Qed.

Section Pass.
Context (Decode Unmarshal : string → result json) (Encode : json → string).
Context (ParseRequestURI : string → result request_uri) (LookupIP : string → result (list IP)).
Context (ParseRFC3339 : string → option Z).
Notation perform := (perform Decode Unmarshal Encode ParseRequestURI LookupIP ParseRFC3339).

(** [dispatchDue] at the time [t], the database working, and with
    [RecoverInterrupted] before it. *)
Fixpoint claim_all (n : nat) (t : Z) (s : webhook_system) : option webhook_system :=
  match n, ws_loop s with
  | S n, DClaim (_ :: _) => s ← perform (AClaim t false) s; claim_all n t s
  | _, _ => Some s
  end.
Definition dispatchDue (t : Z) (s : webhook_system) : option webhook_system :=
  s ← perform (ADue t false) s;
  s ← (match ws_loop s with DPrune _ => perform (APruneDue false) s | _ => Some s end);
  s ← perform (AScan false) s;
  claim_all (Z.to_nat webhookDispatchBatch) t s.
Definition pass (t : Z) (s : webhook_system) : option webhook_system :=
  s ← perform (ARecover t) s; dispatchDue t s.

(** The stored configuration of every delivery can be rendered for each of its
    attempts. *)
Definition renders (b : webhook_db) : Prop :=
  ∀ id d n, deliveries b !! id = Some d → 1 ≤ n ≤ 3 → is_ok (render Decode Encode (dl_Config d) (dl_Values d) n) = true.

Lemma renders_changes b b' log log' newcomers :
  rtc (change ∅ newcomers) (b, log) (b', log') → renders b → renders b'.
Proof.
  intros H Hr id d' n Hd' Hn. destruct (changes_same _ _ _ _ H) as [Hsame _].
  destruct (Hsame id d' Hd' (not_elem_of_empty _)) as (d & Hd & (_ & _ & _ & _ & -> & ->)). by apply (Hr id).
Qed.

Lemma first_due_some l : l ≠ [] → is_Some (first_due l).
Proof. destruct l as [|d l]; [done|]. intros _. cbn. destruct (first_due l) as [e|]; [destruct (due_first e d)|]; eauto. Qed.

Lemma elem_of_due_owners b now limit o :
  o ∈ due_owners b now limit →
  ∃ id d, deliveries b !! id = Some d ∧ dl_Owner d = o ∧ due now d = true ∧ next_allowed b o ≤ now.
Proof.
  unfold due_owners. intros H. apply elem_of_take in H as (i & H & _). apply list_elem_of_lookup_2 in H.
  rewrite merge_sort_Permutation, elem_of_remove_dups, list_elem_of_fmap in H.
  destruct H as (d & -> & H). apply list_elem_of_fmap in H as ([id e] & -> & H). apply elem_of_select in H as [Hd Hdue].
  apply andb_true_iff in Hdue as [Hdue Hslot%Z.leb_le]. by exists id, e.
Qed.

Lemma due_owners_some b now id d :
  deliveries b !! id = Some d → due now d = true → next_allowed b (dl_Owner d) ≤ now →
  due_owners b now webhookDispatchBatch ≠ [].
Proof.
  intros Hd Hdue Hslot. unfold due_owners.
  assert (Hin : (id, d) ∈ select (λ d, due now d && (next_allowed b (dl_Owner d) <=? now)) b).
  { apply elem_of_select. split; [done|]. apply andb_true_iff. split; [done|]. by apply Z.leb_le. }
  set (l := (select _ b).*2). assert (Ho : dl_Owner d ∈ merge_sort (owner_first l) (remove_dups (dl_Owner <$> l))).
  { rewrite merge_sort_Permutation, elem_of_remove_dups. apply list_elem_of_fmap_2. 
    apply list_elem_of_fmap. by exists (id, d). }
  destruct (merge_sort _ _); [by apply not_elem_of_nil in Ho|done].
Qed.

(** A user with something due gets a request. *)
Lemma claim_starts s id d now :
  system_ok s → renders (ws_db s) → deliveries (ws_db s) !! id = Some d → due now d = true →
  next_allowed (ws_db s) (dl_Owner d) ≤ now →
  started (ws_log (claim Decode Encode s (dl_Owner d) now)) = started (ws_log s) + 1.
Proof.
  intros [[Hb _] _] Hr Hd Hdue Hslot. cbn in Hb. unfold claim, ClaimDue. apply Z.ltb_ge in Hslot. rewrite Hslot.
  assert (Hne : select (λ e, (dl_Owner e =?s dl_Owner d) && due now e) (ws_db s) ≠ []).
  { intros E. apply (not_elem_of_nil (id, d)). rewrite <- E. apply elem_of_select. by rewrite eqb_str_refl. }
  destruct (first_due_some _ Hne) as [[k e] Hf]. rewrite Hf. cbn.
  apply first_due_elem, elem_of_select in Hf as [He [_ Hdue']%andb_true_iff].
  pose proof (rows_delivery _ Hb _ _ He) as Hrow. pose proof (ok_max _ _ Hrow). pose proof (ok_count _ _ Hrow).
  pose proof (ok_room _ _ Hrow (proj1 (proj1 (andb_true_iff _ _) Hdue'))).
  pose proof (Hr k e (dl_AttemptCount e + 1) He ltac:(lia)) as Hok. destruct (render _ _ _ _ _) as [rq|]; [|done]. cbn.
  rewrite bool_decide_false.
  - cbn. rewrite started_app. unfold started at 2. cbn. by rewrite decide_True.
  - intros Ha. pose proof (ok_numbers _ _ (rows_delivery _ Hb _ _ He) (dl_AttemptCount e + 1)) as Hn.
    unfold status_at in Hn. rewrite fmap_is_Some in Hn. apply Hn in Ha. lia.
Qed.

Lemma claim_log s owner now : ws_log s `prefix_of` ws_log (claim Decode Encode s owner now).
Proof. unfold claim. destruct (ClaimDue _ _ _ _ _) as [[[d|]|e] b]; cbn; try done. by eexists. Qed.

Lemma started_mono l k : l `prefix_of` k → started l ≤ started k.
Proof. intros [m ->]. rewrite started_app. unfold started. lia. Qed.

Lemma claim_all_end owners n t s :
  ws_loop s = DClaim owners → (length owners ≤ n)%nat →
  ∃ s', claim_all n t s = Some s' ∧ ws_loop s' = DClaim [] ∧ ws_log s `prefix_of` ws_log s'.
Proof.
  revert owners s. induction n as [|n IH]; intros [|o owners] s Hl Hn; cbn in *; try lia; rewrite ?Hl; [by eauto..|].
  destruct (IH owners ((claim Decode Encode s o t) <| ws_loop := DClaim owners |>)) as (s' & H & Hl' & Hlog); [done|lia|].
  cbn. exists s'. split_and!; [exact H|done|]. etrans; [apply claim_log|exact Hlog].
Qed.

(** After [RecoverInterrupted] at a quiet time everything that waits is due. *)
Definition all_due (b : webhook_db) (t : Z) : Prop :=
  (∀ id d, deliveries b !! id = Some d → waiting (dl_Status d) = true → due t d = true) ∧
  ∀ owner, next_allowed b owner ≤ t.

Lemma all_due_changes b b' t :
  all_due b t → (∀ owner, next_allowed b' owner = next_allowed b owner) →
  (∀ id d', deliveries b' !! id = Some d' → waiting (dl_Status d') = true → deliveries b !! id = Some d') →
  all_due b' t.
Proof. intros [Hd Hs] Hs' Hd'. split; [eauto|]. intros owner. by rewrite Hs'. Qed.

Lemma all_due_delete P b t : all_due b t → all_due (delete_deliveries P b) t.
Proof. intros H. eapply all_due_changes; [done|done|]. by intros id d [Hd _]%delete_deliveries_lookup _. Qed.

Lemma all_due_health b d status now t : all_due b t → all_due (update_health_unless_test b d status now) t.
Proof. unfold update_health_unless_test. case_bool_decide; [done|]. by destruct status. Qed.

Lemma all_due_recover b t : rows_ok b → quiet b t → all_due (RecoverInterrupted b t) t.
Proof.
  intros Hb [Hnext Hlease Hslot]. unfold RecoverInterrupted.
  assert (H : all_due (interrupt_all b t) t).
  { split; [|done]. intros id d'. unfold interrupt_all. rewrite update_deliveries_lookup. cbn.
    intros (d & Hd & ->)%fmap_Some Hw. destruct (_ && lapsed t d) eqn:Hl.
    - unfold due, idle. cbn in *. rewrite Hw. cbn. apply Z.leb_le. lia.
    - rewrite Hw in Hl. unfold due, idle. rewrite Hw. unfold lapsed in Hl. cbn in *.
      destruct (dl_LeaseUntil d) as [l|] eqn:El; [by apply Z.leb_gt in Hl; specialize (Hlease id d l Hd El); lia|].
      rewrite bool_decide_true by done. cbn. apply Z.leb_le. by eapply Hnext. }
  revert H. unfold interrupt_all. generalize (update_deliveries (λ d, waiting (dl_Status d) && lapsed t d) (interrupt t)
    (b <| attempts := map_imap (λ k a, Some
       (if bool_decide (at_Status a = APending) &&
           match deliveries b !! k.1 with Some d => lapsed t d | None => false end
        then interrupt_attempt t a else a)) (attempts b) |>)).
  generalize ((select (λ d, waiting (dl_Status d) && lapsed t d && (dl_MaxAttempts d <=? dl_AttemptCount d)) b).*2).
  intros l. induction l as [|d l IH]; intros c Hc; cbn; [done|].
  apply IH. by apply all_due_delete, all_due_health.
Qed.

Lemma perform_all_due s t : all_due (ws_db s) t → all_due (cancelUndeliverableWaiting (ws_db s) t).2 t.
Proof.
  intros H. eapply all_due_changes; [done|done|]. intros id d'. cbn. rewrite lookup_fmap.
  intros (d & Hd & ->)%fmap_Some Hw. by destruct (_ && _).
Qed.

Notation scan_and_claim t s := (s ← perform (AScan false) s; claim_all (Z.to_nat webhookDispatchBatch) t s).

Lemma due_owners_bound b now : (length (due_owners b now webhookDispatchBatch) ≤ Z.to_nat webhookDispatchBatch)%nat.
Proof. unfold due_owners. rewrite length_take. lia. Qed.

Lemma scan_progress t s :
  system_ok s → renders (ws_db s) → all_due (ws_db s) t → ws_loop s = DScan t →
  ∃ s', scan_and_claim t s = Some s' ∧ ws_loop s' = DClaim [] ∧ ws_log s `prefix_of` ws_log s' ∧
    (started (ws_log s) < started (ws_log s') ∨ none_waiting (ws_db s')).
Proof.
  intros Hs Hr [Hdue Hslot] Hl. cbn. rewrite Hl. cbn.
  pose proof (due_owners_bound (ws_db s) t) as Hlen. pose proof (elem_of_due_owners (ws_db s) t webhookDispatchBatch) as Hel.
  destruct (due_owners (ws_db s) t webhookDispatchBatch) as [|o owners] eqn:Eo.
  - exists (s <| ws_loop := DClaim [] |>). split_and!; [done..|]. right. intros id d Hd. cbn in Hd.
    apply not_true_is_false. intros Hw. eapply due_owners_some in Eo; eauto.
  - destruct (Hel o) as (id & d & Hd & <- & Hdue' & _); [by left|]. cbn in Hlen.
    set (s0 := s <| ws_loop := DClaim (dl_Owner d :: owners) |>).
    assert (Hstart : started (ws_log (claim Decode Encode s0 (dl_Owner d) t)) = started (ws_log s) + 1).
    { apply (claim_starts s0 id d); try done. by split; destruct Hs. }
    destruct (claim_all_end owners (Z.to_nat webhookDispatchBatch - 1) t
                ((claim Decode Encode s0 (dl_Owner d) t) <| ws_loop := DClaim owners |>)) as (s' & H & Hl' & Hlog);
      [done|lia|]. exists s'. change (Z.to_nat webhookDispatchBatch) with (S (Z.to_nat webhookDispatchBatch - 1)).
    split_and!; [exact H|done| |].
    + etrans; [apply (claim_log s0)|exact Hlog].
    + left. apply started_mono in Hlog. cbn in Hlog. lia.
Qed.

Lemma set_loop_ok s p : system_ok s → system_ok (s <| ws_loop := p |>).
Proof. by intros []. Qed.

(** [dispatchDue] ends, and starts a request if anything waits. *)
Lemma dispatch_progress t s :
  system_ok s → renders (ws_db s) → all_due (ws_db s) t → idle_loop (ws_loop s) = true →
  ∃ s', dispatchDue t s = Some s' ∧ ws_loop s' = DClaim [] ∧ ws_log s `prefix_of` ws_log s' ∧
    (started (ws_log s) < started (ws_log s') ∨ none_waiting (ws_db s')).
Proof.
  intros Hs Hr Hdue Hi. unfold dispatchDue.
  assert (Hp : perform (ADue t false) s = Some (let '(n, b) := cancelUndeliverableWaiting (ws_db s) t in
    (set_db s b) <| ws_loop := if 0 <? n then DPrune t else DScan t |>)) by (cbn; by rewrite Hi).
  rewrite Hp. clear Hp.
  pose proof (perform_all_due s t Hdue) as Hdue2.
  pose proof (changes_undeliverable ∅ ∅ (ws_db s) t (ws_log s)) as Hch.
  pose proof (renders_changes _ _ _ _ _ Hch Hr) as Hr2. 
  assert (Hs2 : system_ok (set_db s (cancelUndeliverableWaiting (ws_db s) t).2)) by (eapply does_ok; [by apply does_db|done]).
  destruct (cancelUndeliverableWaiting (ws_db s) t) as [n b2]. cbn in *. destruct (0 <? n); cbn.
  - destruct (scan_progress t ((set_db s (Prune b2 t)) <| ws_loop := DScan t |>)) as (s' & H & Hend).
    + apply set_loop_ok. eapply does_ok; [|exact Hs2]. apply (does_db (set_db s b2)), changes_Prune.
    + eapply renders_changes; [apply (changes_Prune ∅ ∅ _ _ [])|done].
    + by apply all_due_delete.
    + done.
    + exists s'. split; [exact H|exact Hend].
  - destruct (scan_progress t ((set_db s b2) <| ws_loop := DScan t |>)) as (s' & H & Hend); try done.
    + by apply set_loop_ok.
    + exists s'. split; [exact H|exact Hend].
Qed.

(** With [RecoverInterrupted] before it, so does the loop from any quiet time
    on. *)
Lemma pass_progress t s :
  system_ok s → renders (ws_db s) → idle_loop (ws_loop s) = true → quiet (ws_db s) t →
  ∃ s', pass t s = Some s' ∧ ws_loop s' = DClaim [] ∧
    (started (ws_log s) < started (ws_log s') ∨ none_waiting (ws_db s')).
Proof.
  intros Hs Hr Hi Hq. unfold pass.
  set (s1 := (set_db s (RecoverInterrupted (ws_db s) t)) <| ws_log := ws_log s ++ interrupted (ws_db s) t |>).
  assert (Hp : perform (ARecover t) s = Some s1) by (cbn; by rewrite Hi). rewrite Hp. cbn [mbind option_bind].
  destruct (dispatch_progress t s1) as (s' & H & Hl & Hlog & Hend).
  - by eapply perform_ok.
  - eapply renders_changes; [apply (changes_interrupted ∅ ∅ _ _ (ws_log s))|done].
  - apply all_due_recover; [apply Hs|done].
  - done.
  - exists s'. split_and!; [done..|]. destruct Hend as [Hlt|]; [left|by right].
    enough (started (ws_log s) ≤ started (ws_log s1)) by lia. apply started_mono. by eexists.
Qed.

(** The loop never gets stuck. *)
Lemma pass_ends t s :
  idle_loop (ws_loop s) = true → ∃ s', pass t s = Some s' ∧ ws_loop s' = DClaim [].
Proof.
  intros Hi. unfold pass, dispatchDue.
  assert (H1 : is_Some (perform (ARecover t) s)) by (cbn; rewrite Hi; by eexists). destruct H1 as [s1 H1].
  assert (Hi1 : idle_loop (ws_loop s1) = true).
  { cbn in H1. rewrite Hi in H1. by injection H1 as <-. }
  rewrite H1. cbn [mbind option_bind].
  assert (H2 : perform (ADue t false) s1 = Some (let '(n, b) := cancelUndeliverableWaiting (ws_db s1) t in
    (set_db s1 b) <| ws_loop := if 0 <? n then DPrune t else DScan t |>)) by (cbn; by rewrite Hi1).
  rewrite H2. clear H2. destruct (cancelUndeliverableWaiting (ws_db s1) t) as [n b]. cbn [mbind option_bind].
  assert (Hend : ∀ s2, ws_loop s2 = DScan t → ∃ s', scan_and_claim t s2 = Some s' ∧ ws_loop s' = DClaim []).
  { intros s2 Hl. cbn. rewrite Hl. cbn.
    destruct (claim_all_end (due_owners (ws_db s2) t webhookDispatchBatch) (Z.to_nat webhookDispatchBatch) t
      (s2 <| ws_loop := DClaim (due_owners (ws_db s2) t webhookDispatchBatch) |>)) as (s' & H & Hl' & _);
      [done|apply due_owners_bound|]. by exists s'. }
  destruct (0 <? n).
  - destruct (Hend ((set_db s1 (Prune b t)) <| ws_loop := DScan t |>)) as (s' & H & Hl); [done|]. by exists s'.
  - destruct (Hend ((set_db s1 b) <| ws_loop := DScan t |>)) as (s' & H & Hl); [done|]. by exists s'.
Qed.

(** ** Days *)

(** Whatever happens, but no delivery is inserted; [n] counts the passes of the
    loop at quiet times. *)
Inductive days : webhook_system → nat → webhook_system → Prop :=
| days_end s : days s 0 s
| days_action a s s1 n s2 : inserts a = false → perform a s = Some s1 → days s1 n s2 → days s n s2
| days_pass t s s1 n s2 :
    quiet (ws_db s) t → idle_loop (ws_loop s) = true → pass t s = Some s1 → days s1 n s2 → days s (S n) s2.


(** ** Draining *)

Lemma calm_ids a s s' : inserts a = false → perform a s = Some s' → ws_ids s' = ws_ids s.
Proof.
  destruct a; try done; intros _; cbn; try (by intros [= <-]).
  - destruct (idle_loop _); [|done]. destruct sql; cbn; by intros [= <-].
  - destruct (ws_loop s); try done. intros [= <-]. by destruct sql.
  - destruct (ws_loop s); try done. by intros [= <-].
  - destruct (ws_loop s) as [| | |[|o os]]; try done. intros [= <-]. destruct sql; [done|]. cbn. unfold claim.
    by destruct (ClaimDue _ _ _ _ _) as [[[d|]|e] b].
  - destruct (idle_loop _); [|done]. by intros [= <-].
  - destruct (idle_loop _); [|done]. by intros [= <-].
  - intros (d & _ & [= <-])%bind_Some. destruct sql; [done|]. cbn. unfold complete.
    by destruct (CompleteAttempt _ _ _) as [[st b]|].
  - case_decide; [done|]. by intros [= <-].
Qed.

Lemma perform_calm a s s' :
  system_ok s → inserts a = false → perform a s = Some s' →
  potential (ws_db s', ws_log s') ≤ potential (ws_db s, ws_log s) ∧
  (renders (ws_db s) → renders (ws_db s')) ∧ (none_waiting (ws_db s) → none_waiting (ws_db s')).
Proof.
  intros Hs Hi Hp. destruct (perform_does _ _ _ _ _ _ _ _ _ Hs Hp) as (new & newcomers & Hd).
  pose proof (calm_ids _ _ _ Hi Hp) as Hids. destruct Hd as [Hnew Hids' Husers Hch _].
  assert (new = ∅) as -> by (apply leibniz_equiv; set_solver).
  assert (Hcore : core_ok (ws_ids s) (ws_users s') (ws_db s, ws_log s)).
  { eapply core_ok_mono; [| |apply (ok_core _ Hs)]; set_solver. }
  split_and!.
  - eapply (changes_potential (ws_ids s) (ws_users s') newcomers); [set_solver|done|done].
  - by eapply renders_changes.
  - apply (changes_waiting (ws_ids s) (ws_users s') newcomers (ws_db s, ws_log s) (ws_db s', ws_log s'));
      [set_solver|done|done].
Qed.

Lemma run_calm l s s' :
  Forall (λ a, inserts a = false) l → perform_all Decode Unmarshal Encode ParseRequestURI LookupIP ParseRFC3339 l s = Some s' →
  system_ok s → system_ok s' ∧ potential (ws_db s', ws_log s') ≤ potential (ws_db s, ws_log s) ∧
  (renders (ws_db s) → renders (ws_db s')) ∧ (none_waiting (ws_db s) → none_waiting (ws_db s')).
Proof.
  intros Hl. revert s. induction Hl as [|a l Ha _ IH]; intros s; cbn; [by intros [= <-]|].
  intros (s1 & H1 & H)%bind_Some Hs. destruct (perform_calm _ _ _ Hs Ha H1) as (Hp & Hr & Hn).
  destruct (IH s1 H) as (Hs' & Hp' & Hr' & Hn'); [by eapply perform_ok|]. split_and!; [done|lia|auto|auto].
Qed.

Notation run := (perform_all Decode Unmarshal Encode ParseRequestURI LookupIP ParseRFC3339).

Lemma claim_all_run n t s s' : claim_all n t s = Some s' → ∃ l, Forall (λ a, inserts a = false) l ∧ run l s = Some s'.
Proof.
  revert s. induction n as [|n IH]; intros s H; [exists []; by destruct (ws_loop s)|]. cbn [claim_all] in H.
  destruct (ws_loop s) as [| | |[|o os]] eqn:Hl; try (by exists []).
  apply bind_Some in H as (s1 & H1 & H). destruct (IH s1 H) as (l & Hf & Hr). exists (AClaim t false :: l).
  split; [by constructor|]. cbn [perform_all]. by rewrite H1.
Qed.

Lemma pass_run t s s' : pass t s = Some s' → ∃ l, Forall (λ a, inserts a = false) l ∧ run l s = Some s'.
Proof.
  unfold pass, dispatchDue. intros (s1 & H1 & (s2 & H2 & (s3 & H3 & (s4 & H4 & H)%bind_Some)%bind_Some)%bind_Some)%bind_Some.
  apply claim_all_run in H as (l & Hl & Hr).
  assert (∃ m, Forall (λ a, inserts a = false) m ∧ run m s2 = Some s3) as (m & Hm & Hr').
  { destruct (ws_loop s2); [exists []|exists [APruneDue false]|exists []|exists []]; (split; [by repeat constructor|]);
      cbn [perform_all]; by rewrite ?H3. }
  exists ([ARecover t; ADue t false] ++ m ++ [AScan false] ++ l). split.
  - repeat (apply Forall_app_2 || constructor); done.
  - cbn [perform_all app]. rewrite H1. cbn [mbind option_bind]. rewrite H2. cbn [mbind option_bind].
    assert (Happ : ∀ l1 l2 x, run (l1 ++ l2) x = (y ← run l1 x; run l2 y)).
    { intros l1. induction l1 as [|a l1 IH]; intros l2 x; [done|]. cbn [perform_all app].
      destruct (perform a x); [|done]. cbn. apply IH. }
    rewrite Happ, Hr'. cbn [mbind option_bind perform_all app]. by rewrite H4.
Qed.

Lemma days_none s n s' : days s n s' → system_ok s → none_waiting (ws_db s) → none_waiting (ws_db s').
Proof.
  intros H. induction H as [s|a s s1 n s2 Ha Hp H IH|t s s1 n s2 _ _ Hp H IH]; intros Hs Hn; [done|..]; apply IH.
  - by eapply perform_ok.
  - by eapply perform_calm.
  - destruct (pass_run _ _ _ Hp) as (l & Hl & Hrun). by eapply run_calm.
  - destruct (pass_run _ _ _ Hp) as (l & Hl & Hrun). by eapply run_calm.
Qed.

Lemma days_drain s n s' :
  days s n s' → system_ok s → renders (ws_db s) →
  system_ok s' ∧ (none_waiting (ws_db s') ∨
    total_work (deliveries (ws_db s')) + Z.of_nat n ≤ total_work (deliveries (ws_db s))).
Proof.
  intros H. induction H as [s|a s s1 n s2 Ha Hp H IH|t s s1 n s2 Hq Hi Hp H IH]; intros Hs Hr.
  - split; [done|right; lia].
  - destruct (perform_calm _ _ _ Hs Ha Hp) as (Hpot & Hr1 & Hn).
    assert (Hs1 : system_ok s1) by (by eapply perform_ok). destruct (IH Hs1 (Hr1 Hr)) as [Hs2 Hend].
    split; [done|]. destruct Hend as [?|Hle]; [by left|right]. unfold potential in Hpot. cbn in Hpot.
    destruct (perform_does _ _ _ _ _ _ _ _ _ Hs Hp) as (new & nc & Hd).
    destruct (changes_same _ _ _ _ (does_changes _ _ _ _ Hd)) as [_ Hlog]. apply started_mono in Hlog. cbn in Hlog. lia.
  - destruct (pass_run _ _ _ Hp) as (l & Hl & Hrun). destruct (run_calm _ _ _ Hl Hrun Hs) as (Hs1 & Hpot & Hr1 & _).
    destruct (IH Hs1 (Hr1 Hr)) as [Hs2 Hend]. split; [done|]. destruct Hend as [?|Hle]; [by left|].
    destruct (pass_progress t s Hs Hr Hi Hq) as (s1' & Hp' & _ & Hprog). simplify_eq.
    destruct Hprog as [Hlt|Hnone]; [right; unfold potential in Hpot; cbn in Hpot; lia|left].
    by eapply days_none.
Qed.

(** With no attempts left, what still waits is leased, and ends when the lease
    does. *)
Lemma recover_drains t s s' :
  system_ok s → quiet (ws_db s) t → perform (ARecover t) s = Some s' →
  none_waiting (ws_db s) ∨ total_work (deliveries (ws_db s)) ≤ 0 → none_waiting (ws_db s').
Proof.
  intros Hs Hq Hp Hcase. destruct (perform_calm _ _ _ Hs (eq_refl : inserts (ARecover t) = false) Hp) as (Hpot & _ & Hn).
  destruct Hcase as [?|Hle]; [by apply Hn|]. assert (Hs' : system_ok s') by (by eapply perform_ok).
  destruct (perform_does _ _ _ _ _ _ _ _ _ Hs Hp) as (new & nc & Hd).
  destruct (changes_same _ _ _ _ (does_changes _ _ _ _ Hd)) as [_ Hlog]. apply started_mono in Hlog. cbn in Hlog.
  unfold potential in Hpot. cbn in Hpot.
  assert (Hdue : all_due (ws_db s') t).
  { cbn in Hp. destruct (idle_loop _); [|done]. injection Hp as <-. apply all_due_recover; [apply Hs|done]. }
  pose proof (proj1 (ok_core _ Hs')) as Hb'. cbn in Hb'. intros id d Hrow. apply not_true_is_false. intros Hw.
  destruct Hdue as [Hdue _]. specialize (Hdue id d Hrow Hw). apply andb_true_iff in Hdue as [Hi _].
  pose proof (ok_room _ _ (rows_delivery _ Hb' _ _ Hrow) Hi) as Hroom.
  pose proof (total_work_one _ id d (λ k e, work_nonneg _ k e Hb') Hrow) as Hone. unfold work in Hone. rewrite Hw in Hone. lia.
Qed.
End Pass.
