(* ===== verification/WebhookProps.v ===== *)
(** Webhooks: the theorems. *)
From Stdlib Require Import ZArith Lia Ascii String.
From stdpp Require Import base tactics numbers list gmap strings relations sorting pretty.
From S2P Require Import Prelude Records GoStrings GoNet GoIO GoTime Activity WebhookModel WebhookQueue WebhookRuns WebhookChanges WebhookInv WebhookLog WebhookSystem WebhookLoop WebhookDrain.

(** ** An activity event and the webhooks that are for it *)
Lemma no_snoc {A} (l : list A) x : l = l ++ [x] → False.
Proof. intros H%(f_equal length). rewrite length_app in H. cbn in H. lia. Qed.

Section Activity.
Context (Decode : string → result json) (Encode : json → string) (ParseRFC3339 : string → option Z).
Context (activityID : Z) (p : preparedActivitySpec) (newID : string → string).








(** The decoder's errors are its own. *)
Hypothesis Decode_error : ∀ s e, Decode s = Err e → e ≠ ErrWebhookPendingFull.




End Activity.


#[export] Instance apart_trans : Transitive apart.
Proof. intros t u v. unfold apart, webhookUserStartInterval, second. lia. Qed.

(** ** The theorems *)
Section Theorems.
Context (Decode Unmarshal : string → result json) (Encode : json → string).
Context (ParseRequestURI : string → result request_uri) (LookupIP : string → result (list IP)).
Context (ParseRFC3339 : string → option Z).
Notation run := (perform_all Decode Unmarshal Encode ParseRequestURI LookupIP ParseRFC3339).
Notation perform := (perform Decode Unmarshal Encode ParseRequestURI LookupIP ParseRFC3339).
Notation days := (days Decode Unmarshal Encode ParseRequestURI LookupIP ParseRFC3339).
Notation pass := (pass Decode Unmarshal Encode ParseRequestURI LookupIP ParseRFC3339).

(** C2: Whatever the API, the dispatcher, activity events and user management
    do to the webhook tables, in any order, with crashes and a failing
    database: the attempts of a delivery are numbered from one to its count,
    which is at most its maximum, at most three; all but the last failed, and
    the last is pending exactly while the delivery is leased and otherwise
    agrees with its status; a delivery has an end exactly when it is done; and
    no user has more than a thousand waiting. *)
Theorem webhook_queue_invariant l s :
  run l empty_system = Some s →
  (∀ id d, deliveries (ws_db s) !! id = Some d → delivery_ok (status_at (ws_db s) id) d) ∧
  (∀ id n, is_Some (attempts (ws_db s) !! (id, n)) → is_Some (deliveries (ws_db s) !! id)) ∧
  (∀ owner, count_deliveries (owned_waiting owner) (ws_db s) ≤ webhookMaxPendingPerUser).
Proof. intros H. destruct (run_ok _ _ _ _ _ _ _ _ _ empty_ok H) as [[[] _] _]. by split_and!. Qed.

(** C13: In any run the attempts at a delivery are started one after the other,
    at most three, each only when the one before has ended: it was answered, or
    given up, and given up only thirty seconds after it was started or later;
    the requests for a user start at least two seconds apart; and what a
    request brings after its attempt has ended changes nothing. *)
Theorem webhook_requests_in_order l s :
  run l empty_system = Some s →
  (∀ id, marks id (ws_log s) `prefix_of`
     [(true, 1); (false, 1); (true, 2); (false, 2); (true, 3); (false, 3)]) ∧
  (∀ id n t, Interrupted id n t ∈ ws_log s →
     ∃ owner t0, Started owner id n t0 ∈ ws_log s ∧ t0 + webhookDeliveryLease ≤ t) ∧
  (∀ owner, StronglySorted apart (starts owner (ws_log s))) ∧
  (∀ d r, (false, dl_AttemptCount (sd_Row d)) ∈ marks (sd_ID d) (ws_log s) → complete s d r = s).
Proof.
  intros H. destruct (run_ok _ _ _ _ _ _ _ _ _ empty_ok H) as [[Hb Hlog] _]. cbn in *. split_and!.
  - intros id. destruct (deliveries (ws_db s) !! id) as [d|] eqn:Hd; [|by apply (log_gone _ _ _ _ Hlog)].
    rewrite (log_rows _ _ _ _ Hlog id d Hd). pose proof (rows_delivery _ Hb _ _ Hd) as Hok.
    etrans; [by eapply expected_prefix|]. apply (track_prefix _ 3). pose proof (ok_max _ _ Hok). lia.
  - apply (log_lapsed _ _ _ _ Hlog).
  - intros owner. apply Sorted_StronglySorted; [apply _|]. apply (log_spaced _ _ _ _ Hlog).
  - intros d r Hn. unfold complete, CompleteAttempt.
    destruct (attempts (ws_db s) !! _) as [a|] eqn:Ha; [|done]. case_bool_decide as Hp; [exfalso|done].
    destruct (rows_attempt _ Hb (sd_ID d) (dl_AttemptCount (sd_Row d))) as [row Hd]; [by eexists|].
    rewrite (log_rows _ _ _ _ Hlog _ _ Hd) in Hn. eapply ended_not_pending; [by eapply rows_delivery|exact Hn|].
    unfold status_at. rewrite Ha. cbn. congruence.
Qed.

(** C21: When the loop starts a request for an event, the webhook exists and is
    enabled at that moment, whatever was switched off, changed or deleted since
    the loop looked, and whatever answers came in meanwhile. *)
Theorem disabled_webhooks_stay_silent l s now sql s' r :
  run l empty_system = Some s → perform (AClaim now sql) s = Some s' →
  ws_running s' = ws_running s ++ [r] → dl_Origin (sd_Row r) = OriginEvent →
  ∃ w, hooks (ws_db s) !! (dl_Owner (sd_Row r), dl_WebhookID (sd_Row r)) = Some w ∧ hk_Enabled w = true.
Proof.
  intros H Hp Hr Ho. cbn in Hp. destruct (ws_loop s) as [| | |[|owner owners]] eqn:Hl; try done. injection Hp as <-.
  assert (Hen : enabled_ok (ws_db s)).
  { eapply run_loop; [apply empty_ok|by intros ?|exact H|by rewrite Hl]. }
  destruct sql; cbn in Hr; [by apply no_snoc in Hr|]. unfold claim in Hr.
  destruct (ClaimDue_spec Decode Encode (ws_db s) owner now)
    as [(id & d & rendered & Hd & <- & Hdue & _ & E)|(x & E & Hx)]; rewrite E in Hr; cbn in Hr.
  - apply app_inv_head in Hr. injection Hr as <-. cbn in *. apply (Hen id d Hd). unfold waits_for_event.
    rewrite Ho. apply andb_true_iff in Hdue as [-> _]. done.
  - destruct x as [[?|]|]; cbn in Hr; [by destruct (Hx w)|by apply no_snoc in Hr..].
Qed.


End Theorems.
