(* ===== verification/WebhookSample.v ===== *)
(** Webhooks: runs the theorems apply to, and inputs on which the code does not
    do what it means to. *)
From Stdlib Require Import ZArith Lia Ascii String.
From stdpp Require Import base tactics numbers list gmap strings relations sorting pretty.
From S2P Require Import Prelude Records GoStrings GoNet GoIO GoTime Activity WebhookModel WebhookQueue WebhookRuns WebhookChanges WebhookInv WebhookLog WebhookSystem WebhookLoop WebhookDrain WebhookProps.

Module Sample.
Definition decode_none (_ : string) : result json := Err (Sentinel "json").
Definition Encode (_ : json) : string := "".
Definition ParseRequestURI (_ : string) : result request_uri :=
  Ok {| ur_Scheme := "http"; ur_Host := "h"; ur_Hostname := "h" |}.
Definition LookupIP (_ : string) : result (list IP) := Err (Sentinel "no such host").
Definition ParseRFC3339 (_ : string) : option Z := None.
Definition go := perform_all decode_none decode_none Encode ParseRequestURI LookupIP ParseRFC3339.

Definition webhook : WebhookConfigInput := {|
  in_ID := "w"; ExpectedRevision := 0; in_Name := "W"; in_Enabled := true;
  in_TargetKind := "client"; in_TargetMode := "all"; in_TargetIDs := [];
  in_Method := "GET"; in_URL := "http://h/{{client.name}}"; in_Headers := []; in_Body := "";
  in_Events := ["client.online"%string] |}.
Definition online : preparedActivitySpec := {|
  pr_OccurredAt := 0; pr_RecordedAt := 0; pr_Severity := "info"; pr_Category := "client"; pr_Action := "online";
  pr_ScopeUserID := "u"; pr_After := "";
  pr_Clients := [{| cs_ClientID := "c"; cs_Relation := "subject"; cs_DisplayName := "C"; cs_Hostname := ""; cs_Truncated := false |}];
  pr_Tunnels := [] |}.
Definition id (w : string) : string := "1" +:+ w.
Definition settings : WebhookSettings := {| AllowPrivateTargets := true; DailyDeliveryCap := 50 |}.
Definition answer (t code : Z) : webhookAttemptResult := {|
  rs_CompletedAt := t; rs_Duration := 1; rs_StatusCode := code; rs_Headers := ∅; rs_Body := "";
  rs_RetryAfter := 0; rs_RetryAfterSet := false; rs_Err := None |}.
Definition setup : list action := [AUser "u" "active"; ACreate "u" webhook settings 0].
Definition event : list action := [AActivity 7 online id].
Definition look (t : Z) : list action := [ADue t false; AScan false].
(** The request of the first attempt is lost with the process, the second is
    answered with an error. *)
Definition crash : list action :=
  setup ++ event ++ look 1 ++ [AClaim 1 false; ARestart; ARecover (60 * second)] ++
  look (3600 * second) ++ [AClaim (3600 * second) false; AComplete 0 (answer (3601 * second) 500) false].
Definition after (l : list action) : webhook_system := default empty_system (go l empty_system).

Lemma run_computes l : bool_decide (is_Some (go l empty_system)) = true → go l empty_system = Some (after l).
Proof. intros [s H]%bool_decide_eq_true. unfold after. by rewrite H. Qed.



Definition act := perform decode_none decode_none Encode ParseRequestURI LookupIP ParseRFC3339.

(** What a run brings about, checked by computing booleans only. *)
Lemma found s id P :
  match deliveries (ws_db s) !! id with Some d => P d | None => false end = true →
  ∃ d, deliveries (ws_db s) !! id = Some d ∧ P d = true.
Proof. destruct (deliveries (ws_db s) !! id) as [d|]; [eauto|done]. Qed.
Lemma starts_one s t :
  match ws_running s, act (AClaim t false) s with
  | [], Some s' => match ws_running s' with [r] => bool_decide (dl_Origin (sd_Row r) = OriginEvent) | _ => false end
  | _, _ => false
  end = true →
  ∃ s' r, act (AClaim t false) s = Some s' ∧ ws_running s' = ws_running s ++ [r] ∧ dl_Origin (sd_Row r) = OriginEvent.
Proof.
  destruct (ws_running s); [|done]. destruct (act _ s) as [s'|]; [|done].
  destruct (ws_running s') as [|r [|]] eqn:E; [done| |done]. intros ?%bool_decide_eq_true. exists s', r. by rewrite E.
Qed.
End Sample.

Lemma webhook_queue_invariant_witness :
  ∃ s d, Sample.go Sample.crash empty_system = Some s ∧ deliveries (ws_db s) !! "dlv_1w"%string = Some d ∧
    dl_AttemptCount d = 2 ∧ dl_Status d = Retrying ∧ delivery_ok (status_at (ws_db s) "dlv_1w") d.
Proof.
  exists (Sample.after Sample.crash).
  destruct (Sample.found (Sample.after Sample.crash) "dlv_1w" (λ d, bool_decide (dl_AttemptCount d = 2 ∧ dl_Status d = Retrying)))
    as (d & Hd & [H1 H2]%bool_decide_eq_true); [vm_compute; reflexivity|].
  exists d. split; [by apply Sample.run_computes; vm_compute|]. split; [exact Hd|]. split; [exact H1|]. split; [exact H2|].
  apply (webhook_queue_invariant Sample.decode_none Sample.decode_none Sample.Encode Sample.ParseRequestURI Sample.LookupIP
    Sample.ParseRFC3339 Sample.crash); [by apply Sample.run_computes; vm_compute|exact Hd].
Defined.

Lemma webhook_requests_in_order_witness :
  ∃ s, Sample.go Sample.crash empty_system = Some s ∧
    marks "dlv_1w" (ws_log s) = [(true, 1); (false, 1); (true, 2); (false, 2)] ∧
    (∃ owner t0, Started owner "dlv_1w" 1 t0 ∈ ws_log s ∧ t0 + webhookDeliveryLease ≤ 60 * second) ∧
    StronglySorted apart (starts "u" (ws_log s)).
Proof.
  exists (Sample.after Sample.crash). split; [by apply Sample.run_computes; vm_compute|]. split; [vm_compute; reflexivity|].
  destruct (webhook_requests_in_order Sample.decode_none Sample.decode_none Sample.Encode Sample.ParseRequestURI Sample.LookupIP
    Sample.ParseRFC3339 Sample.crash (Sample.after Sample.crash)) as (_ & H & Hs & _);
    [by apply Sample.run_computes; vm_compute|].
  split; [|apply Hs]. apply (H "dlv_1w"%string 1). vm_compute. right. left.
Defined.

Lemma disabled_webhooks_stay_silent_witness :
  ∃ s s' r, Sample.go (Sample.setup ++ Sample.event ++ Sample.look 1) empty_system = Some s ∧
    Sample.act (AClaim 1 false) s = Some s' ∧ ws_running s' = ws_running s ++ [r] ∧ dl_Origin (sd_Row r) = OriginEvent ∧
    ∃ w, hooks (ws_db s) !! (dl_Owner (sd_Row r), dl_WebhookID (sd_Row r)) = Some w ∧ hk_Enabled w = true.
Proof.
  pose (before := Sample.setup ++ Sample.event ++ Sample.look 1).
  assert (H : Sample.go before empty_system = Some (Sample.after before)) by (apply Sample.run_computes; vm_compute; reflexivity).
  destruct (Sample.starts_one (Sample.after before) 1) as (s' & r & Hs' & Hr & Ho); [vm_compute; reflexivity|].
  exists (Sample.after before), s', r. split; [exact H|].
  split; [exact Hs'|].
  split; [exact Hr|]. split; [exact Ho|].
  exact (disabled_webhooks_stay_silent Sample.decode_none Sample.decode_none Sample.Encode Sample.ParseRequestURI Sample.LookupIP
    Sample.ParseRFC3339 before (Sample.after before) 1 false s' r H Hs' Hr Ho).
Defined.



(** ** Where the code does not do what it means to *)

(** A number of seconds that is too large for a [time.Duration] wraps around: the
    delivery is due at once, not after the longest wait. *)
Lemma retry_after_overflows now :
  parseWebhookRetryAfter Sample.ParseRFC3339 "10000000000" now = (-8446744073709551616, true).
Proof. reflexivity. Qed.

(** Multicast IPv4 addresses are allowed, and so are the IPv6 ranges for
    benchmarking and the deprecated site-local ones. *)
Lemma multicast_allowed :
  (webhookAddressAllowed <$> ParseIP "224.0.0.1") = Some true ∧
  (webhookAddressAllowed <$> ParseIP "2001:2::1") = Some true ∧
  (webhookAddressAllowed <$> ParseIP "fec0::1") = Some true.
Proof. split_and!; vm_compute; reflexivity. Qed.
